(* ===== verification/_CoqProject ===== *)
-Q . S2P
Prelude.v
GoBytes.v
GoString.v
Base64.v
Wire.v
RakNet.v
Session.v
SessionManager.v
Outbound.v
LoadBalancer.v
Config.v
NetIP.v
NetIPText.v
NetURL.v
ProxyPort.v
Latency.v
NodeFile.v
SubLinks.v
SubConfig.v
OutboundManager.v
Dial.v
Selection.v
AutoPing.v
Subscription.v
Socks.v
Acl.v
Records.v
PortListeners.v
NodeReload.v
Server.v
System.v
Api.v
ApiServers.v
Tunnel.v
RawPackets.v
RawUDP.v
