(* ===== verification/Prelude.v ===== *)
(** * mcbeproxy: a verification library

    This library models the core of mcbeproxy, a proxy for Minecraft Bedrock
    servers written in Go, and proves it correct.  The program accepts UDP clients,
    speaks enough of RakNet and of the Bedrock protocol to answer pings, detect
    versions, refuse and redirect players, keeps a session per client, checks
    access lists, and reaches the servers directly or through a pool of proxy
    nodes ("outbounds") that it measures, balances and fails over.

    ** The parts and their files

    - [Prelude] (this file): results of Go functions ([outcome]: a value, an error or
      a panic), fixed-width integers, lengths, indexing and slicing, tactics, hint
      databases.  [GoBytes]: bytes and byte order.  [GoString]: the string functions
      the code calls on UTF-8 bytes, [time.Time] and durations.  The Unicode tables
      for strings that are not ASCII are the class [Unicode].
    - [Wire]: internal/protocol/protocol.go.  Frames, variable-length integers,
      version detection, disconnect, play-status and transfer packets.
    - [RakNet]: internal/protocol/raknet.go.  Handshake, fragments, assembler.
    - [Session], [SessionManager]: internal/session/session.go and manager.go.
      Sessions live in a heap and are shared through pointers, as in the code.
    - [Outbound]: internal/config/proxy_outbound.go.  A node and its runtime; clones
      share the runtime, so runtimes live in a heap.
    - [LoadBalancer]: internal/proxy/load_balancer.go.
    - [Config]: internal/config/config.go.  [ServerConfig] (fields [sc_]),
      [ConfigManager], [GlobalConfig] (fields [gc_]).
    - [Latency]: internal/proxy/outbound_latency_history.go and the copy of it for
      servers in outbound_manager.go.
    - [OutboundManager]: internal/proxy/outbound_manager.go, the table of nodes, the
      cascade of a deletion, latency tables, pins, statistics.  The servers are seen
      through the class [ServerConfigUpdater], the Go interface of that name with
      the laws the cascade needs; [ConfigManager] is an instance.
    - [Dial]: the rest of outbound_manager.go.  Sing-box outbounds are created on first
      use, cached, recreated and closed; calls are threads made of lock sections
      ([thread_step]) and [dial_step] interleaves them with every other operation.
      Dialling with retry, tracked connections, health checks, idle cleanup, Reload,
      Stop.
    - [Selection]: the selection functions of outbound_manager.go, the failover loop
      of proxy_dialer.go and the switching rule of proxy.go.
    - [AutoPing]: the scheduler of latency measurements in proxy.go: which servers and
      proxy ports are due, full scans, rotating candidates, slots, the automatic switch
      of pinned nodes, the refresh after a change of topology.
    - [ProxyPort]: internal/config/proxy_port.go and its manager.  [Socks]: the handlers
      of internal/proxy/proxy_ports.go (allow list, SOCKS4, SOCKS5, HTTP, mixed) over
      the bytes they read and write, and the SOCKS5 client of socks_http_dialer.go.
    - [NodeFile]: internal/config/proxy_outbound_manager.go, the table behind the node
      file.  [SubConfig]: internal/config/proxy_subscription.go and its manager.
      [SubLinks]: the parsers of internal/subscription/service.go.  [Subscription]: the
      rest of that file and scheduler.go: an update fetches, parses, merges by source
      key and replaces the nodes in the node file and then in the outbound manager; both
      tables share the runtimes of the nodes.
    - [Base64], [NetIP], [NetURL]: what the code uses of encoding/base64, net, net/netip,
      net/url and strconv.
    - [Acl]: internal/acl/acl_manager.go, the records of internal/db/acl_models.go, and
      the access checks of mitm_proxy.go and passthrough_proxy.go.
    - [RawPackets]: the packets of internal/proxy/raw_udp_proxy.go.  The frame reader
      with its split buffers, the reading of logins, the counters the proxy observes, the
      frames it injects, the packets of a kick, acknowledgements, pings and pongs.
      [RawUDP]: the clients of that file.  One step ([proxy_step]) per datagram of a client,
      answer of the server, failing read, kick, delayed cleanup and tick.  A client is
      a cell of a heap, since the goroutine of its answers keeps the pointer; what the
      proxy writes, counts and closes is a trace ([effect]).  It calls [RawPackets],
      [SessionManager], [Config] and [Acl].

    [Selection] calls [OutboundManager], [LoadBalancer], [Latency] and [Config];
    [OutboundManager] calls [Outbound], [Config] and [Latency]; [Dial] calls
    [OutboundManager] and [Outbound]; [AutoPing] and [Socks] call [Selection];
    [Subscription] calls [SubLinks], [SubConfig], [NodeFile] and [Dial];
    [SessionManager] calls [Session]; the packet files and [Acl] stand alone.

    ** Conventions

    A function keeps the name it has in Go; a method takes its receiver as an
    argument and returns the new one.  A section under a mutex is one step; where
    the code releases the lock in between, the sections are separate definitions
    (the two halves of [GetOrCreate], the two passes of the cleanup).  The clock is
    an argument, read once per operation.  The iteration order of a Go map is an
    argument: a list of its keys; theorems hold for every order.  Random numbers,
    DNS, file writes, dials and database queries are arguments too.  Integers wrap
    at their width where the code can overflow; a bound in a theorem says that a
    counter or a clock stays below 2^60 or so.  An index or slice out of range is
    [Panic].

    ** What the theorems show

    - Packets: reading back what is written ([varint_roundtrip], [transfer_roundtrip],
      [parseFragment_roundtrip]), frames and versions ([extractInnerPacket_payload],
      [DetectProtocolVersion_login]), reassembly in any order and interleaving
      ([ReassembleFragments_complete], [ReassembleFragments_sound],
      [AddFragment_interleaved]), absence of panics ([detection_safe]) and the one
      reader that panics ([ParseTransferPacket_panics]).
    - Sessions: the life cycle over all reachable states ([session_lifecycle]),
      concurrent creation ([GetOrCreate_concurrent]), removal of a player, traffic,
      and the race of the cleanup.
    - Configuration: invariants of the tables ([ConfigManager_wf],
      [outbound_table_invariant]), exact validation, renaming, and no dangling
      reference after a deletion ([DeleteOutbound_cascade]).
    - Selection: every selected node is allowed ([selection_sound]), one is found when
      there is one ([selection_available]), failover ends ([failover_terminates]),
      pins, least latency, rotation, and the hysteresis on floats.
    - Dialling: no sing-box outbound is leaked, shared by two names or closed twice under
      any interleaving ([singbox_ownership]); a dial counts exactly the connection it
      opens ([DialPacketConn_accounted], [conn_count_exact]); the exact effect of the
      cleanup and of [Reload] ([idle_cleanup_exact], [reload_exact]); failed nodes
      ([failed_node_fails_fast]); and two races the code has
      ([update_races_creation], [update_forgets_connections]).
    - Measurements: a full scan measures every candidate ([full_scan_spec]), at most one
      a day ([daily_full_scan_once]), none in the interval mode
      ([interval_full_scan_never_runs]); when a pin moves ([auto_switch_guarded]).
    - Proxy ports: no dial without the credentials ([proxy_port_auth]), which SOCKS4 does
      not check ([socks4_ignores_credentials]); client and server of SOCKS5 agree
      ([socks5_client_server], [socks5_udp_roundtrip]); the allow list is exact
      ([allow_list_exact]); dials fail over and end ([port_dial_failover]).
    - Subscriptions: contents are read the same in base64 ([ParseSubscriptionContent_base64]),
      links are read back ([trojan_link_roundtrip]), and so is the traffic header
      ([userinfo_roundtrip]); an update is all or nothing in the node file and in the
      manager ([subscription_update_atomic], [ReplaceSubscriptionOutbounds_spec]), has
      one node per source key ([subscription_update_merges]) under names that are free
      ([uniqueOutboundName_fresh]); at most one attempt a day ([daily_update_once]); a
      failed write leaves both out of step for good ([failed_save_sticks]) and edits
      made during an update are lost ([scheduler_lost_update]).
    - Access: the decision is the policy ([CheckAccessFull_policy]) on any tables
      ([CheckAccessFull_rows]), and the proxy that does not fail open
      ([passthrough_fails_closed]).
    - Raw UDP proxy, packets: no bytes of a client or of the server cause a panic, and the
      memory of a client is bounded ([frame_reader_bounded], [server_counters_monotone]);
      split packets are put together in any order ([split_reassembly]) and every datagram
      of an intercepted login is acknowledged ([intercepted_acked]); injected frames and
      pongs are read back ([injected_frame_roundtrip], [pong_roundtrip]); the identity is
      that of the first named token ([login_identity]); the latency changes one field of
      the advertisement ([motd_fields]).
    - Raw UDP proxy, clients, over all reachable states: no connection is leaked or closed
      twice ([connections_accounted]), nothing is forwarded after a kick
      ([kicked_never_forwarded]), and every byte is credited once ([removal_credits_all]).
      A login passes exactly when the policy admits it ([login_gate], [raw_acl_policy]),
      unless it hides behind another packet ([login_behind_packet_forwarded]).  The
      cooldown after a kick ([kick_cooldown]), the tick ([tick_exact]), the limiter of
      pings ([ping_limited]).

    ** Bounds and fuel

    [writeVarInt] has fuel 5: a 32-bit value has at most five groups of seven bits
    ([writeVarInt_terminates]); [readVarInt] stops after five bytes as the code does.
    [dialWithLoadBalancing] has fuel: the number of nodes plus two is enough
    ([failover_terminates]).  [dialWithRetry] has the two attempts of the code as fuel and
    [stop_wait] one more than its hundred looks ([stop_wait_ends]); a call run alone ends
    in five sections ([calls_run_to_end]).  [first_free], the search for a
    node name, has one more than the number of used names ([first_free_ends]).  The HTTP
    handlers of a proxy port have fuel for the requests of one connection, and their
    theorems hold for every amount.  The loops over the frames of a datagram have its
    length plus one as fuel, since a frame has at least three bytes, and a 32-bit
    variable-length integer five groups; [frame_reader_bounded] and
    [server_counters_monotone] show that these are enough.  [atomicMaxUint24] ends in one
    pass on a 24-bit word and never on a larger one ([atomicMaxUint24_stuck]).  Every other
    loop is structural.  The float test of the hysteresis is evaluated for all latencies
    up to one second.

    ** Not modelled

    Socket and HTTP input and output, the SQLite engine, JSON, YAML and file formats,
    zlib, Snappy and the tokens of logins, sing-box, the goroutines that call the modelled
    operations, logging and the web interface.  The joining of concurrent calls by
    singleflight only removes interleavings.  Planned next, in this order: the life cycle
    of the listeners; the framing of the tunnels in singbox_factory.go;
    the table of goroutines; the handlers of the API. *)

From Stdlib Require Export ZArith Lia.
From stdpp Require Export base tactics option list numbers gmap strings sorting.

#[global] Open Scope Z_scope.

Create HintDb go.
Create Rewrite HintDb zlen.
Create Rewrite HintDb bytes.

(** ** Results of Go functions

    A Go function that returns [(value, error)] is modelled by [outcome]: [Ret]
    for a nil error, [Err] for a returned error and [Panic] for a run-time panic
    (an index or a slice expression out of range). *)

Inductive outcome (E A : Type) : Type :=
| Ret (a : A)
| Err (e : E)
| Panic.

Arguments Ret {E A} a.
Arguments Err {E A} e.
Arguments Panic {E A}.

#[export] Instance outcome_ret {E} : MRet (outcome E) := fun A a => Ret a.

#[export] Instance outcome_bind {E} : MBind (outcome E) :=
  fun A B f m =>
    match m with
    | Ret a => f a
    | Err e => Err e
    | Panic => Panic
    end.

#[export] Instance outcome_eq_dec `{EqDecision E, EqDecision A} :
  EqDecision (outcome E A).
Proof. solve_decision. Defined.

(** [guard_err b e] is the early return [if !b { return nil, e }]. *)
Definition guard_err {E} (b : bool) (e : E) : outcome E unit :=
  if b then Ret tt else Err e.

(** [safe m] states that the call does not panic. *)
Definition safe {E A} (m : outcome E A) : Prop := m <> Panic.

Definition is_ret {E A} (m : outcome E A) : bool :=
  match m with Ret _ => true | _ => false end.

Lemma bind_Ret_inv {E A B} (m : outcome E A) (f : A -> outcome E B) b :
  (m ≫= f) = Ret b <-> exists a, m = Ret a /\ f a = Ret b.
Proof. destruct m; cbn; naive_solver. Qed.

Lemma bind_Ret {E A B} (a : A) (f : A -> outcome E B) : (Ret a ≫= f) = f a.
Proof. reflexivity. Qed.

Lemma bind_safe {E A B} (m : outcome E A) (f : A -> outcome E B) :
  safe m -> (forall a, m = Ret a -> safe (f a)) -> safe (m ≫= f).
Proof. unfold safe. destruct m; cbn; naive_solver. Qed.

Lemma guard_err_Ret_inv {E} b (e : E) u : guard_err b e = Ret u -> b = true.
Proof. destruct b; cbn; congruence. Qed.

Lemma guard_err_safe {E} b (e : E) : safe (guard_err b e).
Proof. destruct b; discriminate. Qed.

Lemma Ret_safe {E A} (a : A) : safe (E := E) (Ret a).
Proof. discriminate. Qed.

Lemma Err_safe {E A} (e : E) : safe (A := A) (Err e).
Proof. discriminate. Qed.

#[export] Hint Resolve guard_err_safe Ret_safe Err_safe : go.

(** ** Fixed-width integers

    [wrapU w z] is the conversion of [z] to the [w]-bit unsigned type and
    [wrapS w z] the conversion to the [w]-bit signed type. *)

Definition wrapU (w z : Z) : Z := z mod 2 ^ w.
Definition wrapS (w z : Z) : Z := (z + 2 ^ (w - 1)) mod 2 ^ w - 2 ^ (w - 1).

Abbreviation u8 := (wrapU 8).
Abbreviation u16 := (wrapU 16).
Abbreviation u32 := (wrapU 32).
Abbreviation u64 := (wrapU 64).
Abbreviation i32 := (wrapS 32).
Abbreviation i64 := (wrapS 64).

Lemma wrapU_range w z : 0 <= w -> 0 <= wrapU w z < 2 ^ w.
Proof. intros. apply Z.mod_pos_bound. lia. Qed.

Lemma wrapU_small w z : 0 <= z < 2 ^ w -> wrapU w z = z.
Proof. apply Z.mod_small. Qed.

Lemma wrapU_idemp w z : 0 <= w -> wrapU w (wrapU w z) = wrapU w z.
Proof. intros. apply wrapU_small, wrapU_range; lia. Qed.

Lemma wrapS_range w z : 0 < w -> - 2 ^ (w - 1) <= wrapS w z < 2 ^ (w - 1).
Proof.
  intros Hw. unfold wrapS.
  assert (2 ^ w = 2 * 2 ^ (w - 1)) as E.
  { rewrite <- Z.pow_succ_r by lia. f_equal. lia. }
  pose proof (Z.mod_pos_bound (z + 2 ^ (w - 1)) (2 ^ w)) as B. lia.
Qed.

Lemma wrapS_small w z : 0 < w -> - 2 ^ (w - 1) <= z < 2 ^ (w - 1) -> wrapS w z = z.
Proof.
  intros Hw Hz. unfold wrapS.
  assert (2 ^ w = 2 * 2 ^ (w - 1)) as E.
  { rewrite <- Z.pow_succ_r by lia. f_equal. lia. }
  rewrite Z.mod_small; lia.
Qed.

(** A signed conversion of an unsigned conversion is the signed conversion. *)
Lemma wrapS_wrapU w z : wrapS w (wrapU w z) = wrapS w z.
Proof. unfold wrapS, wrapU. by rewrite Zplus_mod_idemp_l. Qed.

Lemma wrapU_wrapS w z : wrapU w (wrapS w z) = wrapU w z.
Proof.
  unfold wrapS, wrapU. rewrite Zminus_mod_idemp_l. f_equal. lia.
Qed.

(** Boolean hypotheses as propositions. *)
Ltac bool_prop :=
  repeat match goal with
  | H : _ && _ = true |- _ => apply andb_prop in H as [? ?]
  | H : _ || _ = false |- _ => apply orb_false_elim in H as [? ?]
  | H : negb _ = true |- _ => apply negb_true_iff in H
  | H : negb _ = false |- _ => apply negb_false_iff in H
  | H : (_ <=? _) = true |- _ => apply Z.leb_le in H
  | H : (_ <=? _) = false |- _ => apply Z.leb_gt in H
  | H : (_ <? _) = true |- _ => apply Z.ltb_lt in H
  | H : (_ <? _) = false |- _ => apply Z.ltb_ge in H
  | H : (_ =? _) = true |- _ => apply Z.eqb_eq in H
  | H : (_ =? _) = false |- _ => apply Z.eqb_neq in H
  | H : bool_decide _ = true |- _ => apply bool_decide_eq_true in H
  | H : bool_decide _ = false |- _ => apply bool_decide_eq_false in H
  end.

(** ** Lengths, indices and slice expressions

    Go's [len] is an [int]; [zlen] is its value.  A slice expression whose
    bounds are out of range panics.  The code never reslices beyond the length,
    so the capacity of a slice does not appear. *)

Definition zlen {A} (l : list A) : Z := Z.of_nat (length l).

Definition slice {E A} (l : list A) (lo hi : Z) : outcome E (list A) :=
  if (0 <=? lo) && (lo <=? hi) && (hi <=? zlen l)
  then Ret (take (Z.to_nat (hi - lo)) (drop (Z.to_nat lo) l))
  else Panic.

(** [l[lo:]] *)
Definition slice_from {E A} (l : list A) (lo : Z) : outcome E (list A) :=
  slice l lo (zlen l).

Definition index {E A} (l : list A) (i : Z) : outcome E A :=
  if 0 <=? i
  then match l !! Z.to_nat i with Some x => Ret x | None => Panic end
  else Panic.

Section lists.
Context {A : Type}.
Implicit Types l k : list A.

Lemma zlen_nonneg l : 0 <= zlen l.
Proof. unfold zlen. lia. Qed.

Lemma zlen_nil : zlen (@nil A) = 0.
Proof. reflexivity. Qed.

Lemma zlen_cons x l : zlen (x :: l) = 1 + zlen l.
Proof. unfold zlen. cbn [length]. lia. Qed.

Lemma zlen_app l k : zlen (l ++ k) = zlen l + zlen k.
Proof. unfold zlen. rewrite length_app. lia. Qed.

Lemma zlen_nil_inv l : zlen l = 0 -> l = [].
Proof. destruct l; [done|]. rewrite zlen_cons. pose proof (zlen_nonneg l). lia. Qed.

Lemma slice_Ret_inv {E} l lo hi k :
  slice (E := E) l lo hi = Ret k ->
  0 <= lo <= hi /\ hi <= zlen l /\
  k = take (Z.to_nat (hi - lo)) (drop (Z.to_nat lo) l).
Proof.
  unfold slice. destruct (_ && _) eqn:E1; [|done]. intros [= <-].
  bool_prop. auto with lia.
Qed.

Lemma slice_ok {E} l lo hi :
  0 <= lo <= hi -> hi <= zlen l ->
  slice (E := E) l lo hi = Ret (take (Z.to_nat (hi - lo)) (drop (Z.to_nat lo) l)).
Proof.
  intros. unfold slice.
  by rewrite (proj2 (Z.leb_le 0 lo)), (proj2 (Z.leb_le lo hi)),
    (proj2 (Z.leb_le hi (zlen l))) by lia.
Qed.

Lemma slice_len {E} l lo hi k :
  slice (E := E) l lo hi = Ret k -> zlen k = hi - lo.
Proof.
  intros (? & Hh & ->)%slice_Ret_inv. unfold zlen in *.
  rewrite length_take, length_drop. lia.
Qed.

(** The middle of a concatenation. *)
Lemma slice_app {E} a l k lo hi :
  lo = zlen a -> hi = zlen a + zlen l ->
  slice (E := E) (a ++ l ++ k) lo hi = Ret l.
Proof.
  intros -> ->. rewrite slice_ok.
  - f_equal. unfold zlen.
    replace (Z.to_nat (Z.of_nat (length a) + Z.of_nat (length l) - Z.of_nat (length a)))
      with (length l) by lia.
    rewrite Nat2Z.id, drop_app_length, take_app_length. done.
  - pose proof (zlen_nonneg a). pose proof (zlen_nonneg l). lia.
  - rewrite !zlen_app. pose proof (zlen_nonneg k). lia.
Qed.

Lemma slice_safe {E} l lo hi :
  0 <= lo <= hi -> hi <= zlen l -> safe (slice (E := E) l lo hi).
Proof. intros. rewrite slice_ok by lia. auto with go. Qed.

Lemma slice_not_Err {E} l lo hi (e : E) : slice l lo hi <> Err e.
Proof. unfold slice. by destruct (_ && _). Qed.

Lemma index_ok {E} l i x :
  0 <= i -> l !! Z.to_nat i = Some x -> index (E := E) l i = Ret x.
Proof. intros ? H. unfold index. by rewrite (proj2 (Z.leb_le 0 i)), H by lia. Qed.

Lemma index_safe {E} l i : 0 <= i < zlen l -> safe (index (E := E) l i).
Proof.
  intros [? Hi]. unfold zlen in Hi.
  destruct (lookup_lt_is_Some_2 l (Z.to_nat i)) as [x Hx]; [lia|].
  rewrite (index_ok _ _ x) by auto. auto with go.
Qed.

Lemma index_not_Err {E} l i (e : E) : index l i <> Err e.
Proof. unfold index. destruct (0 <=? i); [|done]. by destruct (l !! _). Qed.

Lemma index_Panic_inv {E} l i : index (E := E) l i = Panic -> ~ 0 <= i < zlen l.
Proof. intros H Hi. by apply (index_safe (E := E)) in Hi. Qed.

Lemma slice_Panic_inv {E} l lo hi :
  slice (E := E) l lo hi = Panic -> ~ (0 <= lo <= hi /\ hi <= zlen l).
Proof. intros H [Hi ?]. by apply (slice_safe (E := E)) in H. Qed.

Lemma index_app {E} a x l i :
  i = zlen a -> index (E := E) (a ++ x :: l) i = Ret x.
Proof.
  intros ->. apply index_ok; [apply zlen_nonneg|].
  unfold zlen. rewrite Nat2Z.id. apply list_lookup_middle. done.
Qed.
End lists.

#[export] Hint Resolve zlen_nonneg : go.
#[export] Hint Rewrite @zlen_nil @zlen_cons @zlen_app : zlen.

(** ** Tactics *)

(** Case analysis on the boolean tests of a goal or hypothesis, as propositions. *)
Ltac bool_cases :=
  repeat match goal with
  | |- context [?a =? ?b] => destruct (Z.eqb_spec a b)
  | |- context [?a <=? ?b] => destruct (Z.leb_spec a b)
  | |- context [?a <? ?b] => destruct (Z.ltb_spec a b)
  end; cbn [andb orb negb].

(** Lengths as integers, then linear arithmetic. *)
Ltac note_nonneg l :=
  lazymatch goal with
  | _ : 0 <= zlen l |- _ => fail
  | _ => pose proof (zlen_nonneg l)
  end.

Ltac zlen_lia :=
  autorewrite with zlen in *;
  repeat match goal with
  | |- context [zlen ?l] => note_nonneg l
  | _ : context [zlen ?l] |- _ => note_nonneg l
  end; lia.

(** Take apart a successful monadic computation. *)
Ltac inv_ret :=
  repeat match goal with
  | H : Ret _ = Ret _ |- _ => injection H as H; subst
  | H : Err _ = Ret _ |- _ => discriminate H
  | H : Panic = Ret _ |- _ => discriminate H
  | H : (_ ≫= _) = Ret _ |- _ =>
      let x := fresh "x" in let Hx := fresh "Hx" in
      apply bind_Ret_inv in H as (x & Hx & H)
  | H : guard_err _ _ = Ret _ |- _ => apply guard_err_Ret_inv in H
  end.

(** ** Tables with a secondary key *)

(** No two entries of a table agree on [f]. *)
Definition unique_by {A B : Type} (f : A -> B) (m : gmap string A) : Prop :=
  forall i j x y, m !! i = Some x -> m !! j = Some y -> f x = f y -> i = j.

Section unique_by.
Context {A B : Type} (f : A -> B).

Lemma unique_by_empty : unique_by f ∅.
Proof. intros i j x y. by rewrite lookup_empty. Qed.

Lemma unique_by_delete m k : unique_by f m -> unique_by f (delete k m).
Proof. intros Hm i j x y [_ Hx]%lookup_delete_Some [_ Hy]%lookup_delete_Some. by apply Hm. Qed.

Lemma unique_by_insert m k x :
  unique_by f m -> (forall i y, m !! i = Some y -> f y = f x -> i = k) -> unique_by f (<[k := x]> m).
Proof.
  intros Hm Hx i j y z [[<- <-]|[Hi Hy]]%lookup_insert_Some [[<- <-]|[Hj Hz]]%lookup_insert_Some E.
  - done.
  - symmetry. eapply Hx; [done|]. by rewrite E.
  - by eapply Hx.
  - by eapply Hm.
Qed.
End unique_by.

Lemma Sorted_weaken {A} (R S : relation A) l : (forall a b, R a b -> S a b) -> Sorted R l -> Sorted S l.
Proof.
  intros HRS. induction 1 as [|a l Hs IH Hh]; constructor; [done|].
  destruct Hh; constructor; auto.
Qed.

(** ** Loops over lists *)

Lemma decide_cons {A B} `{EqDecision B} (k q : B) (qs : list B) (x y : A) :
  (if decide (k ∈ q :: qs) then x else y) = if decide (k = q) then x else if decide (k ∈ qs) then x else y.
Proof.
  destruct (decide (k = q)) as [->|Hne]; [by rewrite decide_True by constructor|].
  destruct (decide (k ∈ qs)); [by rewrite decide_True by by constructor|].
  rewrite decide_False; [done|]. by intros [|]%elem_of_cons.
Qed.

Lemma fold_left_omap {A B S} (f : S -> B -> S) (g : A -> option B) (l : list A) : forall s,
  fold_left f (omap g l) s = fold_left (fun s x => match g x with Some y => f s y | None => s end) l s.
Proof. induction l as [|x l IH]; intros s; [done|]. cbn. destruct (g x); cbn; apply IH. Qed.

(** The iteration order of a map has every key. *)
Lemma order_covers {A} (m : gmap string A) order id l : order ≡ₚ (map_to_list m).*1 -> m !! id = Some l -> id ∈ order.
Proof. intros -> Hl. apply list_elem_of_fmap. exists (id, l). split; [done|]. by apply elem_of_map_to_list. Qed.

(** A loop whose turns touch one key each. *)
Lemma fold_keyed {S X V} (f : S -> X -> S) (key : X -> string) (view : S -> string -> V) (I : S -> Prop)
    (P : X -> V -> V -> Prop) (l : list X) : forall s,
  NoDup (key <$> l) -> I s ->
  (forall s2 x, I s2 -> x ∈ l -> view s2 (key x) = view s (key x) ->
     I (f s2 x) /\ P x (view s2 (key x)) (view (f s2 x) (key x)) /\
     forall k, k <> key x -> view (f s2 x) k = view s2 k) ->
  I (fold_left f l s) /\ (forall x, x ∈ l -> P x (view s (key x)) (view (fold_left f l s) (key x))) /\
  forall k, k ∉ key <$> l -> view (fold_left f l s) k = view s k.
Proof.
  induction l as [|x l IH]; intros s Hnd Hi Hstep; cbn [fold_left]; [split_and!; try done; by intros ? ?%elem_of_nil|].
  cbn in Hnd. apply NoDup_cons in Hnd as [Hx Hnd].
  destruct (Hstep s x Hi ltac:(constructor) eq_refl) as (Hi' & HP & Hk).
  assert (forall y, y ∈ l -> key y <> key x) as Hother.
  { intros y Hy Ey. apply Hx. rewrite <- Ey. by apply list_elem_of_fmap_2. }
  destruct (IH (f s x) Hnd Hi') as (Hi2 & HP2 & Hk2).
  { intros s2 y Hs2 Hy Ev. apply Hstep; [done|by constructor|]. by rewrite Ev, Hk by by apply Hother. }
  split; [done|]. split.
  - intros y [->|Hy]%elem_of_cons; [by rewrite (Hk2 (key x)) by done|]. rewrite <- (Hk (key y)); [by apply HP2|by apply Hother].
  - intros k Hk'. cbn in Hk'. apply not_elem_of_cons in Hk' as [Hne Hnin]. rewrite Hk2 by done. by apply Hk.
Qed.
