(* ===== verification/GoBytes.v ===== *)
(** * Bytes, strings and binary encodings

    Go's [byte], [[]byte] and [string] and the parts of [encoding/binary] the
    program uses.  A [string] is its sequence of bytes ([String.string], one
    character per byte). *)

From Stdlib Require Export Init.Byte.
From Stdlib Require Import Strings.Byte Strings.String.
From S2P Require Import Prelude.

#[export] Instance byte_eq_dec : EqDecision byte.
Proof.
  intros x y. refine (cast_if (decide (Byte.eqb x y = true))).
  - by apply byte_dec_bl.
  - intros ->. by rewrite byte_dec_lb in *.
Defined.

Abbreviation bytes := (list byte) (only parsing).

(** ** Bytes as numbers *)

Definition b2z (b : byte) : Z := Z.of_N (Byte.to_N b).

(** The conversion [byte(z)]. *)
Definition z2b (z : Z) : byte := default x00 (Byte.of_N (Z.to_N (u8 z))).

Lemma b2z_range b : 0 <= b2z b < 256.
Proof. unfold b2z. pose proof (Byte.to_N_bounded b). lia. Qed.

Lemma b2z_z2b z : b2z (z2b z) = u8 z.
Proof.
  unfold b2z, z2b, wrapU. pose proof (Z.mod_pos_bound z 256 eq_refl) as B.
  change (2 ^ 8) with 256.
  destruct (Byte.of_N (Z.to_N (z mod 256))) as [b|] eqn:E; cbn.
  - apply Byte.to_of_N in E. rewrite E. lia.
  - apply Byte.of_N_None_iff in E. lia.
Qed.

Lemma b2z_inj x y : b2z x = b2z y -> x = y.
Proof.
  unfold b2z. intros E%N2Z.inj.
  pose proof (Byte.of_to_N x). pose proof (Byte.of_to_N y). congruence.
Qed.

Lemma z2b_b2z b : z2b (b2z b) = b.
Proof.
  apply b2z_inj. rewrite b2z_z2b. apply wrapU_small. exact (b2z_range b).
Qed.

Lemma z2b_u8 z : z2b (u8 z) = z2b z.
Proof. apply b2z_inj. rewrite !b2z_z2b. by apply wrapU_idemp. Qed.

#[export] Hint Rewrite b2z_z2b z2b_b2z : bytes.

(** ** Strings as byte sequences *)

Definition bytes_of (s : string) : bytes := list_byte_of_string s.
Definition string_of (l : bytes) : string := string_of_list_byte l.

(** Go's [len(s)] of a string. *)
Definition slen (s : string) : Z := zlen (bytes_of s).

Lemma string_of_bytes_of s : string_of (bytes_of s) = s.
Proof. apply string_of_list_byte_of_string. Qed.

Lemma bytes_of_string_of l : bytes_of (string_of l) = l.
Proof. apply list_byte_of_string_of_list_byte. Qed.

#[export] Hint Rewrite string_of_bytes_of bytes_of_string_of : bytes.

(** ** [encoding/binary] *)

(** [be_bytes n z] is the [n]-byte big-endian encoding of [z] modulo [256 ^ n];
    [be_uint] decodes. *)
Fixpoint be_bytes (n : nat) (z : Z) : bytes :=
  match n with
  | O => []
  | S n => be_bytes n (z / 256) ++ [z2b z]
  end.

Definition be_uint (l : bytes) : Z :=
  fold_left (fun acc b => acc * 256 + b2z b) l 0.

Fixpoint le_bytes (n : nat) (z : Z) : bytes :=
  match n with
  | O => []
  | S n => z2b z :: le_bytes n (z / 256)
  end.

Fixpoint le_uint (l : bytes) : Z :=
  match l with
  | [] => 0
  | b :: l => b2z b + 256 * le_uint l
  end.

Lemma be_uint_snoc l b : be_uint (l ++ [b]) = be_uint l * 256 + b2z b.
Proof. unfold be_uint. by rewrite fold_left_app. Qed.

Lemma length_be_bytes n z : List.length (be_bytes n z) = n.
Proof. revert z. induction n as [|n IH]; intros z; cbn; [done|]. rewrite length_app, IH. cbn. lia. Qed.

Lemma length_le_bytes n z : List.length (le_bytes n z) = n.
Proof. revert z. induction n as [|n IH]; intros z; cbn; [done|]. by rewrite IH. Qed.

Lemma zlen_be_bytes n z : zlen (be_bytes n z) = Z.of_nat n.
Proof. unfold zlen. by rewrite length_be_bytes. Qed.

Lemma zlen_le_bytes n z : zlen (le_bytes n z) = Z.of_nat n.
Proof. unfold zlen. by rewrite length_le_bytes. Qed.

#[export] Hint Rewrite zlen_be_bytes zlen_le_bytes : zlen.

Lemma mod_256_step n z :
  (z / 256) mod 2 ^ (8 * Z.of_nat n) * 256 + z mod 256 = z mod 2 ^ (8 * Z.of_nat (S n)).
Proof.
  replace (8 * Z.of_nat (S n)) with (8 * Z.of_nat n + 8) by lia.
  rewrite Z.pow_add_r by lia. change (2 ^ 8) with 256.
  assert (0 < 2 ^ (8 * Z.of_nat n)) by (apply Z.pow_pos_nonneg; lia).
  rewrite (Z.mul_comm (2 ^ _) 256), Z.rem_mul_r by lia. lia.
Qed.

Lemma be_uint_be_bytes n z : be_uint (be_bytes n z) = wrapU (8 * Z.of_nat n) z.
Proof.
  unfold wrapU. revert z. induction n as [|n IH]; intros z.
  - cbn. by rewrite Z.mod_1_r.
  - cbn [be_bytes]. rewrite be_uint_snoc, IH, b2z_z2b. apply mod_256_step.
Qed.

Lemma le_uint_le_bytes n z : le_uint (le_bytes n z) = wrapU (8 * Z.of_nat n) z.
Proof.
  unfold wrapU. revert z. induction n as [|n IH]; intros z.
  - cbn. by rewrite Z.mod_1_r.
  - cbn [le_bytes le_uint]. rewrite IH, b2z_z2b, <- mod_256_step.
    unfold wrapU. change (2 ^ 8) with 256. lia.
Qed.

Lemma pow_256_S n : 2 ^ (8 * Z.of_nat (S n)) = 2 ^ (8 * Z.of_nat n) * 256.
Proof.
  replace (8 * Z.of_nat (S n)) with (8 * Z.of_nat n + 8) by lia.
  by rewrite Z.pow_add_r by lia.
Qed.

Lemma be_uint_range l : 0 <= be_uint l < 2 ^ (8 * zlen l).
Proof.
  unfold zlen. induction l as [|b l IH] using rev_ind; [cbn; lia|].
  rewrite be_uint_snoc, length_app, Nat.add_1_r, pow_256_S.
  pose proof (b2z_range b). lia.
Qed.

Lemma le_uint_range l : 0 <= le_uint l < 2 ^ (8 * zlen l).
Proof.
  unfold zlen. induction l as [|b l IH]; [cbn; lia|].
  cbn [le_uint List.length]. rewrite pow_256_S. pose proof (b2z_range b). lia.
Qed.

(** The unsigned reads of a byte slice of the right length, and a decoded value
    re-encoded. *)
Lemma be_bytes_be_uint l : be_bytes (List.length l) (be_uint l) = l.
Proof.
  induction l as [|b l IH] using rev_ind; [done|].
  rewrite length_app, Nat.add_1_r, be_uint_snoc. cbn [be_bytes].
  pose proof (b2z_range b).
  replace ((be_uint l * 256 + b2z b) / 256) with (be_uint l).
  2: { rewrite Z.div_add_l, Z.div_small; lia. }
  rewrite IH. f_equal. f_equal. apply b2z_inj. rewrite b2z_z2b.
  unfold wrapU. change (2 ^ 8) with 256.
  by rewrite Z.add_comm, Z_mod_plus_full, Z.mod_small.
Qed.

(** [binary.BigEndian.Uint16], [Uint32], [Uint64] of [data[lo:hi]]. *)
Definition be_at {E} (data : bytes) (lo hi : Z) : outcome E Z :=
  d ← slice data lo hi; Ret (be_uint d).
Definition le_at {E} (data : bytes) (lo hi : Z) : outcome E Z :=
  d ← slice data lo hi; Ret (le_uint d).

Lemma be_at_ok {E} data lo hi :
  0 <= lo <= hi -> hi <= zlen data ->
  exists v, be_at (E := E) data lo hi = Ret v /\ 0 <= v < 2 ^ (8 * (hi - lo)).
Proof.
  intros. unfold be_at. rewrite slice_ok by lia. cbn. eexists; split; [done|].
  set (d := take _ _). replace (hi - lo) with (zlen d); [apply be_uint_range|].
  eapply (slice_len (E := E)). by apply slice_ok.
Qed.

Lemma le_at_ok {E} data lo hi :
  0 <= lo <= hi -> hi <= zlen data ->
  exists v, le_at (E := E) data lo hi = Ret v /\ 0 <= v < 2 ^ (8 * (hi - lo)).
Proof.
  intros. unfold le_at. rewrite slice_ok by lia. cbn. eexists; split; [done|].
  set (d := take _ _). replace (hi - lo) with (zlen d); [apply le_uint_range|].
  eapply (slice_len (E := E)). by apply slice_ok.
Qed.

Lemma be_at_app {E} a l k lo hi :
  lo = zlen a -> hi = zlen a + zlen l ->
  be_at (E := E) (a ++ l ++ k) lo hi = Ret (be_uint l).
Proof. intros. unfold be_at. by rewrite slice_app. Qed.

Lemma le_at_app {E} a l k lo hi :
  lo = zlen a -> hi = zlen a + zlen l ->
  le_at (E := E) (a ++ l ++ k) lo hi = Ret (le_uint l).
Proof. intros. unfold le_at. by rewrite slice_app. Qed.
