(* ===== verification/GoString.v ===== *)
(** * Go's [strings] and [time] packages, as far as the program uses them

    [strings.TrimSpace] is modelled on all inputs (the white space of
    [unicode.IsSpace] is listed in UTF-8).  [strings.ToLower] and
    [strings.EqualFold] are modelled on ASCII strings; their behaviour on other
    strings depends on the Unicode tables of the Go distribution and is the
    parameter [Unicode]. *)

From Stdlib Require Import Strings.Ascii Strings.String.
From S2P Require Import Prelude GoBytes.

#[global] Arguments Ascii.eqb : simpl never.

(** ** Searching and splitting *)

Definition has_prefix (s p : string) : bool := String.prefix p s.

(** [strings.TrimPrefix(s, "@")] and the like, for a one-byte prefix. *)
Definition trim_prefix1 (s : string) (c : ascii) : string :=
  match s with
  | String a r => if Ascii.eqb a c then r else s
  | EmptyString => EmptyString
  end.

(** [strings.Contains(s, ",")], for a one-byte needle. *)
Fixpoint contains1 (s : string) (c : ascii) : bool :=
  match s with
  | String a r => Ascii.eqb a c || contains1 r c
  | EmptyString => false
  end.

(** [strings.Contains(s, sub)] *)
Fixpoint contains (s sub : string) : bool :=
  String.prefix sub s ||
  match s with
  | String _ r => contains r sub
  | EmptyString => false
  end.

(** [strings.Split(s, sep)] for a one-byte separator: never empty. *)
Fixpoint split1 (c : ascii) (s : string) : list string :=
  match s with
  | EmptyString => [EmptyString]
  | String a r =>
      if Ascii.eqb a c then EmptyString :: split1 c r
      else match split1 c r with
           | h :: t => String a h :: t
           | [] => [String a EmptyString]
           end
  end.

(** [strings.Join(l, sep)] for a one-byte separator. *)
Fixpoint join1 (c : ascii) (l : list string) : string :=
  match l with
  | [] => EmptyString
  | [x] => x
  | x :: r => (x ++ String c (join1 c r))%string
  end.

Lemma split1_nonempty c s : split1 c s <> [].
Proof. destruct s as [|a s]; cbn; [done|]. destruct (Ascii.eqb a c); [done|]. by destruct (split1 c s). Qed.

Lemma split1_no_sep c s : contains1 s c = false -> split1 c s = [s].
Proof.
  induction s as [|a s IH]; cbn; [done|]. intros [-> H]%orb_false_elim.
  by rewrite IH.
Qed.

Lemma split1_app c x s :
  contains1 x c = false -> split1 c (x ++ String c s) = x :: split1 c s.
Proof.
  induction x as [|a x IH].
  - intros _. change ("" ++ String c s)%string with (String c s). cbn.
    by rewrite Ascii.eqb_refl.
  - intros [E H]%orb_false_elim.
    change (String a x ++ String c s)%string with (String a (x ++ String c s)). cbn.
    by rewrite E, IH.
Qed.

(** Splitting a joined list of separator-free strings gives the list back. *)
Lemma split1_join1 c l :
  l <> [] -> Forall (fun x => contains1 x c = false) l -> split1 c (join1 c l) = l.
Proof.
  intros Hne H. induction H as [|x l Hx Hl IH]; [done|].
  destruct l as [|y l]; [by apply split1_no_sep|].
  change (join1 c (x :: y :: l)) with (x ++ String c (join1 c (y :: l)))%string.
  rewrite split1_app by done. by rewrite IH.
Qed.

(** No piece of a split contains the separator. *)
Lemma split1_pieces c s : Forall (fun x => contains1 x c = false) (split1 c s).
Proof.
  induction s as [|a s IH]; cbn; [by repeat constructor|].
  destruct (Ascii.eqb a c) eqn:E; [by constructor|].
  destruct (split1 c s) as [|h t]; inversion IH; subst; constructor; cbn; try done.
  - by rewrite E.
  - by rewrite E.
Qed.

(** ** [strings.TrimSpace] *)

Definition ascii_space (b : byte) : bool :=
  let z := b2z b in (z =? 32) || ((9 <=? z) && (z <=? 13)).

(** U+0085 and U+00A0 *)
Definition space2 (a b : byte) : bool :=
  (b2z a =? 0xc2) && ((b2z b =? 0x85) || (b2z b =? 0xa0)).

(** U+1680, U+2000 to U+200A, U+2028, U+2029, U+202F, U+205F, U+3000 *)
Definition space3 (a b c : byte) : bool :=
  let x := b2z a in let y := b2z b in let z := b2z c in
  ((x =? 0xe1) && (y =? 0x9a) && (z =? 0x80))
  || ((x =? 0xe2) && (y =? 0x80) &&
      (((0x80 <=? z) && (z <=? 0x8a)) || (z =? 0xa8) || (z =? 0xa9) || (z =? 0xaf)))
  || ((x =? 0xe2) && (y =? 0x81) && (z =? 0x9f))
  || ((x =? 0xe3) && (y =? 0x80) && (z =? 0x80)).

Fixpoint trim_left (l : bytes) : bytes :=
  match l with
  | [] => []
  | a :: l1 =>
      if ascii_space a then trim_left l1
      else match l1 with
           | [] => l
           | b :: l2 =>
               if space2 a b then trim_left l2
               else match l2 with
                    | [] => l
                    | c :: l3 => if space3 a b c then trim_left l3 else l
                    end
           end
  end.

(** The same from the other end, on the reversed bytes. *)
Fixpoint trim_rev (l : bytes) : bytes :=
  match l with
  | [] => []
  | a :: l1 =>
      if ascii_space a then trim_rev l1
      else match l1 with
           | [] => l
           | b :: l2 =>
               if space2 b a then trim_rev l2
               else match l2 with
                    | [] => l
                    | c :: l3 => if space3 c b a then trim_rev l3 else l
                    end
           end
  end.

Definition trim_bytes (l : bytes) : bytes := rev (trim_rev (rev (trim_left l))).
Definition trim_space (s : string) : string := string_of (trim_bytes (bytes_of s)).

(** No white space at the front ([no_lead]) or at the back ([no_trail]). *)
Definition no_lead (l : bytes) : Prop := trim_left l = l.

Lemma trim_left_spec l : exists p, l = p ++ trim_left l /\ trim_left (trim_left l) = trim_left l.
Proof.
  induction l as [l IH] using (induction_ltof1 _ (@List.length byte)).
  unfold ltof in IH.
  destruct l as [|a [|b [|c l]]]; cbn [trim_left].
  - by exists [].
  - destruct (ascii_space a) eqn:E; [by exists [a]|]. exists []. cbn. by rewrite E.
  - destruct (ascii_space a) eqn:E.
    + destruct (IH [b]) as (p & Hp & Hq); [cbn; lia|]. exists (a :: p).
      split; [by rewrite Hp at 1|done].
    + destruct (space2 a b) eqn:E2; [by exists [a; b]|].
      exists []. cbn. by rewrite E, E2.
  - destruct (ascii_space a) eqn:E.
    + destruct (IH (b :: c :: l)) as (p & Hp & Hq); [cbn; lia|]. exists (a :: p).
      split; [by rewrite Hp at 1|done].
    + destruct (space2 a b) eqn:E2.
      * destruct (IH (c :: l)) as (p & Hp & Hq); [cbn; lia|]. exists (a :: b :: p).
        split; [by rewrite Hp at 1|done].
      * destruct (space3 a b c) eqn:E3.
        -- destruct (IH l) as (p & Hp & Hq); [cbn; lia|]. exists (a :: b :: c :: p).
           split; [by rewrite Hp at 1|done].
        -- exists []. cbn. by rewrite E, E2, E3.
Qed.

Lemma trim_rev_spec l : exists p, l = p ++ trim_rev l /\ trim_rev (trim_rev l) = trim_rev l.
Proof.
  induction l as [l IH] using (induction_ltof1 _ (@List.length byte)).
  unfold ltof in IH.
  destruct l as [|a [|b [|c l]]]; cbn [trim_rev].
  - by exists [].
  - destruct (ascii_space a) eqn:E; [by exists [a]|]. exists []. cbn. by rewrite E.
  - destruct (ascii_space a) eqn:E.
    + destruct (IH [b]) as (p & Hp & Hq); [cbn; lia|]. exists (a :: p).
      split; [by rewrite Hp at 1|done].
    + destruct (space2 b a) eqn:E2; [by exists [a; b]|].
      exists []. cbn. by rewrite E, E2.
  - destruct (ascii_space a) eqn:E.
    + destruct (IH (b :: c :: l)) as (p & Hp & Hq); [cbn; lia|]. exists (a :: p).
      split; [by rewrite Hp at 1|done].
    + destruct (space2 b a) eqn:E2.
      * destruct (IH (c :: l)) as (p & Hp & Hq); [cbn; lia|]. exists (a :: b :: p).
        split; [by rewrite Hp at 1|done].
      * destruct (space3 c b a) eqn:E3.
        -- destruct (IH l) as (p & Hp & Hq); [cbn; lia|]. exists (a :: b :: c :: p).
           split; [by rewrite Hp at 1|done].
        -- exists []. cbn. by rewrite E, E2, E3.
Qed.

Lemma length_trim_left (l : bytes) : (List.length (trim_left l) <= List.length l)%nat.
Proof.
  destruct (trim_left_spec l) as (q & Hq & _). rewrite Hq at 2. rewrite length_app. lia.
Qed.

(** Refute [H : trim_left l = _], whose right-hand side is longer than [l]. *)
Ltac shrink l H :=
  let L := fresh in
  pose proof (length_trim_left l) as L; cbn in L, H; rewrite H in L; cbn in L;
  rewrite ?length_app in L; cbn in L; lia.

(** A prefix of bytes without leading white space has none. *)
Lemma no_lead_prefix l k : no_lead (l ++ k) -> no_lead l.
Proof.
  unfold no_lead.
  destruct l as [|a [|b [|c l]]]; cbn; [done|..].
  - destruct (ascii_space a); [|done].
    intros H. exfalso. shrink k H.
  - destruct (ascii_space a).
    { intros H. exfalso. shrink (b :: k) H. }
    destruct (space2 a b); [|done].
    intros H. exfalso. shrink k H.
  - destruct (ascii_space a).
    { intros H. exfalso. shrink (b :: c :: l ++ k) H. }
    destruct (space2 a b).
    { intros H. exfalso. shrink (c :: l ++ k) H. }
    destruct (space3 a b c); [|done].
    intros H. exfalso. shrink (l ++ k) H.
Qed.

Lemma trim_bytes_idemp l : trim_bytes (trim_bytes l) = trim_bytes l.
Proof.
  unfold trim_bytes at 2 3. set (r := rev (trim_rev (rev (trim_left l)))).
  assert (no_lead r) as Hr.
  { destruct (trim_rev_spec (rev (trim_left l))) as (p & Hp & _).
    apply (no_lead_prefix r (rev p)). unfold r. rewrite <- rev_app_distr, <- Hp, rev_involutive.
    by destruct (trim_left_spec l) as (? & _ & ?). }
  unfold trim_bytes. rewrite Hr. unfold r. rewrite rev_involutive.
  destruct (trim_rev_spec (rev (trim_left l))) as (p & _ & ->). done.
Qed.

Lemma trim_space_idemp s : trim_space (trim_space s) = trim_space s.
Proof. unfold trim_space. by rewrite bytes_of_string_of, trim_bytes_idemp. Qed.

(** ** [strings.ToLower] and [strings.EqualFold] *)

(** The Unicode tables: the two functions on strings that are not ASCII. *)
Class Unicode := {
  unicode_to_lower : string -> string;
  unicode_equal_fold : string -> string -> bool;
}.

Definition is_ascii (s : string) : bool := forallb (fun b => b2z b <? 128) (bytes_of s).

Definition lower_byte (b : byte) : byte :=
  let z := b2z b in if (65 <=? z) && (z <=? 90) then z2b (z + 32) else b.

Definition ascii_lower (s : string) : string := string_of (map lower_byte (bytes_of s)).

Definition to_lower `{Unicode} (s : string) : string :=
  if is_ascii s then ascii_lower s else unicode_to_lower s.

Definition equal_fold `{Unicode} (s t : string) : bool :=
  if is_ascii s && is_ascii t then String.eqb (ascii_lower s) (ascii_lower t)
  else unicode_equal_fold s t.

Lemma lower_byte_z b :
  b2z (lower_byte b) = if (65 <=? b2z b) && (b2z b <=? 90) then b2z b + 32 else b2z b.
Proof.
  unfold lower_byte. destruct (_ && _) eqn:E; [|done]. bool_prop.
  rewrite b2z_z2b. apply wrapU_small. lia.
Qed.

Lemma lower_byte_idemp b : lower_byte (lower_byte b) = lower_byte b.
Proof.
  apply b2z_inj. rewrite (lower_byte_z (lower_byte b)), lower_byte_z.
  destruct ((65 <=? b2z b) && (b2z b <=? 90)) eqn:E; [|by rewrite E].
  bool_prop. destruct (_ && _) eqn:E2; [|done]. bool_prop. lia.
Qed.

Lemma ascii_lower_idemp s : ascii_lower (ascii_lower s) = ascii_lower s.
Proof.
  unfold ascii_lower. rewrite bytes_of_string_of, map_map. f_equal.
  apply map_ext, lower_byte_idemp.
Qed.

Lemma is_ascii_lower s : is_ascii s = true -> is_ascii (ascii_lower s) = true.
Proof.
  unfold is_ascii, ascii_lower. rewrite bytes_of_string_of, !forallb_forall.
  intros H b (c & <- & Hc)%in_map_iff. specialize (H c Hc). bool_prop.
  apply Z.ltb_lt. rewrite lower_byte_z. destruct (_ && _) eqn:E; bool_prop; lia.
Qed.

Lemma to_lower_idemp `{Unicode} s : is_ascii s = true -> to_lower (to_lower s) = to_lower s.
Proof.
  intros Hs. unfold to_lower. rewrite Hs, is_ascii_lower by done. apply ascii_lower_idemp.
Qed.

(** On ASCII strings, folding is equality of the lower-case forms. *)
Lemma equal_fold_ascii `{Unicode} s t :
  is_ascii s = true -> is_ascii t = true -> equal_fold s t = true <-> to_lower s = to_lower t.
Proof.
  intros Hs Ht. unfold equal_fold, to_lower. rewrite Hs, Ht. apply String.eqb_eq.
Qed.

(** ** [time.Time] and [time.Duration]

    A [time.Time] is its distance in nanoseconds from Go's zero time (1 January
    of year 1, UTC); a [time.Duration] is an [int64] number of nanoseconds. *)

Abbreviation gotime := Z (only parsing).

Definition is_zero_time (t : gotime) : bool := t =? 0.

Definition millisecond : Z := 10 ^ 6.
Definition second : Z := 10 ^ 9.
Definition minute : Z := 60 * second.
Definition hour : Z := 60 * minute.

(** [t.Sub(u)] saturates at the limits of [time.Duration]. *)
Definition time_sub (t u : gotime) : Z := Z.max (- 2 ^ 63) (Z.min (2 ^ 63 - 1) (t - u)).

Definition unix_epoch : gotime := 62135596800 * second.
Definition unix_milli (t : gotime) : Z := (t - unix_epoch) / millisecond.
Definition of_unix_milli (ms : Z) : gotime := unix_epoch + ms * millisecond.

Lemma time_sub_gt t u d : 0 <= d < 2 ^ 63 - 1 -> (d <? time_sub t u) = (u + d <? t).
Proof. intros. unfold time_sub. bool_cases; lia. Qed.

Lemma unix_milli_of_unix_milli ms : unix_milli (of_unix_milli ms) = ms.
Proof.
  unfold unix_milli, of_unix_milli, millisecond.
  replace (unix_epoch + ms * 10 ^ 6 - unix_epoch) with (ms * 10 ^ 6) by lia.
  by rewrite Z.div_mul.
Qed.

Lemma unix_milli_sub ms d :
  0 <= d -> d mod millisecond = 0 -> unix_milli (of_unix_milli ms - d) = ms - d / millisecond.
Proof.
  intros Hd Hm. unfold unix_milli, of_unix_milli.
  assert (0 < millisecond) as Hp by done.
  replace (unix_epoch + ms * millisecond - d - unix_epoch)
    with ((ms - d / millisecond) * millisecond).
  - by rewrite Z.div_mul by lia.
  - pose proof (Z.div_mod d millisecond). lia.
Qed.

(** ** Lower case and white space on ASCII strings *)

Lemma ascii_space2 a b : b2z a <? 128 = true -> space2 a b = false.
Proof. intros H. bool_prop. unfold space2. by rewrite (proj2 (Z.eqb_neq _ _)) by lia. Qed.

Lemma ascii_space3 a b c : b2z a <? 128 = true -> space3 a b c = false.
Proof.
  intros H. bool_prop. unfold space3. cbv zeta.
  by rewrite !(proj2 (Z.eqb_neq (b2z a) _)) by lia.
Qed.

Fixpoint drop_space (l : bytes) : bytes :=
  match l with
  | [] => []
  | a :: r => if ascii_space a then drop_space r else l
  end.

Lemma trim_left_ascii l : forallb (fun b => b2z b <? 128) l = true -> trim_left l = drop_space l.
Proof.
  induction l as [|a l IH]; [done|]. intros [Ha Hl]%andb_prop. cbn [trim_left drop_space].
  destruct (ascii_space a); [by apply IH|]. destruct l as [|b l]; [done|].
  rewrite ascii_space2 by done. destruct l as [|c l]; [done|]. by rewrite ascii_space3.
Qed.

Lemma trim_rev_ascii l : forallb (fun b => b2z b <? 128) l = true -> trim_rev l = drop_space l.
Proof.
  induction l as [|a l IH]; [done|]. intros [Ha Hl]%andb_prop. cbn [trim_rev drop_space].
  destruct (ascii_space a); [by apply IH|]. destruct l as [|b l]; [done|].
  cbn in Hl. apply andb_prop in Hl as [Hb Hl].
  rewrite ascii_space2 by done. destruct l as [|c l]; [done|].
  cbn in Hl. apply andb_prop in Hl as [Hc Hl]. by rewrite ascii_space3.
Qed.

Lemma ascii_space_lower b : ascii_space (lower_byte b) = ascii_space b.
Proof.
  unfold ascii_space. cbv zeta. rewrite lower_byte_z.
  destruct ((65 <=? b2z b) && (b2z b <=? 90)) eqn:E; [|done]. bool_prop. bool_cases; lia || done.
Qed.

Lemma drop_space_lower l : drop_space (map lower_byte l) = map lower_byte (drop_space l).
Proof.
  induction l as [|a l IH]; [done|]. cbn [map drop_space]. rewrite ascii_space_lower.
  by destruct (ascii_space a).
Qed.

Lemma forallb_incl {A} (p : A -> bool) l k :
  (forall x, x ∈ k -> x ∈ l) -> forallb p l = true -> forallb p k = true.
Proof.
  rewrite !forallb_forall. intros Hi Hl x Hx. apply Hl. rewrite <- list_elem_of_In in *. auto.
Qed.

Lemma drop_space_incl l x : x ∈ drop_space l -> x ∈ l.
Proof.
  induction l as [|a l IH]; [done|]. cbn. destruct (ascii_space a); [|done]. right. auto.
Qed.

Lemma trim_bytes_ascii l :
  forallb (fun b => b2z b <? 128) l = true -> trim_bytes l = rev (drop_space (rev (drop_space l))).
Proof.
  intros Hl. unfold trim_bytes. rewrite trim_left_ascii by done. rewrite trim_rev_ascii; [done|].
  eapply forallb_incl; [|exact Hl]. intros x Hx. apply drop_space_incl.
  by rewrite list_elem_of_In, <- in_rev, <- list_elem_of_In in Hx.
Qed.

Lemma is_ascii_bytes l : is_ascii (string_of l) = forallb (fun b => b2z b <? 128) l.
Proof. unfold is_ascii. by rewrite bytes_of_string_of. Qed.

Lemma is_ascii_trim s : is_ascii s = true -> is_ascii (trim_space s) = true.
Proof.
  intros H. unfold trim_space. rewrite is_ascii_bytes. rewrite trim_bytes_ascii by done.
  eapply forallb_incl; [|exact H]. intros x Hx.
  rewrite list_elem_of_In, <- in_rev, <- list_elem_of_In in Hx. apply drop_space_incl in Hx.
  rewrite list_elem_of_In, <- in_rev, <- list_elem_of_In in Hx. by apply drop_space_incl.
Qed.

Lemma trim_ascii_lower s : is_ascii s = true -> trim_space (ascii_lower s) = ascii_lower (trim_space s).
Proof.
  intros H. pose proof (is_ascii_lower s H) as Hl. unfold trim_space, ascii_lower in *.
  rewrite bytes_of_string_of, bytes_of_string_of. f_equal.
  rewrite is_ascii_bytes in Hl. rewrite !trim_bytes_ascii by done.
  by rewrite drop_space_lower, <- map_rev, drop_space_lower, map_rev.
Qed.

(** Lower case after trimming is a normal form on ASCII strings. *)
Lemma lower_trim_idemp `{Unicode} s :
  is_ascii s = true -> to_lower (trim_space (to_lower (trim_space s))) = to_lower (trim_space s).
Proof.
  intros Hs. pose proof (is_ascii_trim s Hs) as Ht. unfold to_lower at 2 3. rewrite Ht.
  rewrite trim_ascii_lower, trim_space_idemp by done. unfold to_lower.
  by rewrite is_ascii_lower, ascii_lower_idemp by done.
Qed.

(** An instance for concrete inputs, exact on ASCII strings. *)
Definition ascii_unicode : Unicode :=
  {| unicode_to_lower := fun s => s; unicode_equal_fold := String.eqb |}.

(** ** Trimmed strings and joins *)

Definition trimmed (s : string) : Prop := trim_space s = s.

Definition no_trail (l : bytes) : Prop := trim_rev (rev l) = rev l.

Lemma trim_bytes_fixed l : trim_bytes l = l <-> no_lead l /\ no_trail l.
Proof.
  unfold no_lead, no_trail. split.
  - intros H. split.
    + destruct (trim_left_spec l) as (p & Hp & _). destruct (trim_rev_spec (rev (trim_left l))) as (q & Hq & _).
      assert (length l = length (trim_bytes l)) as E by (by rewrite H).
      apply (f_equal (@List.length byte)) in Hp as Hp', Hq. rewrite length_app, !length_rev in *.
      unfold trim_bytes in E. rewrite length_rev in E.
      destruct p; [done|cbn in Hp'; lia].
    + apply (f_equal (@rev byte)) in H. unfold trim_bytes in H. rewrite rev_involutive in H.
      rewrite <- H at 2. rewrite <- H at 1. by destruct (trim_rev_spec (rev (trim_left l))) as (q & _ & ->).
  - intros [Hl Ht]. unfold trim_bytes. by rewrite Hl, Ht, rev_involutive.
Qed.

Lemma space2_ascii_r a b : b2z b <? 128 = true -> space2 a b = false.
Proof.
  unfold space2. intros H%Z.ltb_lt. destruct (b2z a =? 0xc2); cbn; [|done].
  by rewrite !(proj2 (Z.eqb_neq (b2z b) _)) by lia.
Qed.

Lemma space3_ascii_m a b c : b2z b <? 128 = true -> space3 a b c = false.
Proof.
  unfold space3. intros H%Z.ltb_lt.
  rewrite !(proj2 (Z.eqb_neq (b2z b) _)) by lia. by rewrite ?andb_false_r, ?andb_false_l.
Qed.

Lemma space3_ascii_r a b c : b2z c <? 128 = true -> space3 a b c = false.
Proof.
  unfold space3. intros H%Z.ltb_lt.
  rewrite ?(proj2 (Z.eqb_neq (b2z c) _)), ?(proj2 (Z.leb_gt _ (b2z c))) by lia.
  by rewrite ?andb_false_r.
Qed.

(** An ASCII byte after bytes that are not empty ends no white space. *)
Lemma no_lead_app l c k : l <> [] -> b2z c <? 128 = true -> no_lead l -> no_lead (l ++ c :: k).
Proof.
  intros Hne Hc. unfold no_lead.
  destruct l as [|a [|b [|d l]]]; [done|cbn..].
  - destruct (ascii_space a); [done|]. rewrite space2_ascii_r by done. destruct k; [done|].
    by rewrite space3_ascii_m.
  - destruct (ascii_space a); [intros H; exfalso; shrink [b] H|].
    destruct (space2 a b); [intros H; discriminate H|]. by rewrite space3_ascii_r.
  - destruct (ascii_space a); [intros H; exfalso; shrink (b :: d :: l) H|].
    destruct (space2 a b); [intros H; exfalso; shrink (d :: l) H|].
    destruct (space3 a b d); [intros H; exfalso; shrink l H|done].
Qed.

Lemma length_trim_rev (l : bytes) : (List.length (trim_rev l) <= List.length l)%nat.
Proof. destruct (trim_rev_spec l) as (q & Hq & _). rewrite Hq at 2. rewrite length_app. lia. Qed.

Ltac shrink_rev l H :=
  let L := fresh in
  pose proof (length_trim_rev l) as L; cbn in L, H; rewrite H in L; cbn in L;
  rewrite ?length_app in L; cbn in L; lia.

Lemma no_trail_app l c k : l <> [] -> b2z c <? 128 = true -> no_trail l -> no_trail (k ++ c :: l).
Proof.
  intros Hne Hc. unfold no_trail.
  replace (rev (k ++ c :: l)) with (rev l ++ c :: rev k)
    by (rewrite rev_app_distr; cbn; by rewrite <- app_assoc).
  assert (rev l <> []) as Hr by (intros E; apply (f_equal (@rev byte)) in E; by rewrite rev_involutive in E).
  revert Hr. generalize (rev l) (rev k). clear l k Hne. intros l k Hne.
  destruct l as [|a [|b [|d l]]]; [done|cbn..].
  - destruct (ascii_space a); [done|]. rewrite ascii_space2 by done. destruct k; [done|].
    by rewrite space3_ascii_m.
  - destruct (ascii_space a); [intros H; exfalso; shrink_rev [b] H|].
    destruct (space2 b a); [intros H; discriminate H|]. by rewrite ascii_space3.
  - destruct (ascii_space a); [intros H; exfalso; shrink_rev (b :: d :: l) H|].
    destruct (space2 b a); [intros H; exfalso; shrink_rev (d :: l) H|].
    destruct (space3 d b a); [intros H; exfalso; shrink_rev l H|done].
Qed.

Lemma bytes_of_app s t : bytes_of (s ++ t) = bytes_of s ++ bytes_of t.
Proof.
  induction s as [|a s IH]; [done|]. change (String a s ++ t)%string with (String a (s ++ t)).
  unfold bytes_of in *. cbn. by f_equal.
Qed.

Lemma bytes_of_nil s : bytes_of s = [] -> s = ""%string.
Proof. by destruct s. Qed.

Lemma trimmed_spec s : trimmed s <-> no_lead (bytes_of s) /\ no_trail (bytes_of s).
Proof.
  rewrite <- trim_bytes_fixed. unfold trimmed, trim_space. split; intros H.
  - by rewrite <- H at 2; rewrite bytes_of_string_of.
  - by rewrite H, string_of_bytes_of.
Qed.

Lemma trim_space_trimmed s : trimmed (trim_space s).
Proof. apply trim_space_idemp. Qed.

(** Joining two strings that are trimmed and not empty with an ASCII byte. *)
Lemma trimmed_app x c y :
  b2z (byte_of_ascii c) <? 128 = true -> trimmed x -> x <> ""%string -> no_trail (bytes_of y) ->
  y <> ""%string -> trimmed (x ++ String c y).
Proof.
  intros Hc [Hx _]%trimmed_spec Hx0 Hy Hy0. apply trimmed_spec. rewrite bytes_of_app.
  change (bytes_of (String c y)) with (byte_of_ascii c :: bytes_of y).
  split; [apply no_lead_app|apply no_trail_app]; auto; intros E%bytes_of_nil; done.
Qed.

Definition piece (s : string) : Prop := trimmed s /\ s <> ""%string.

Lemma join1_trimmed c l :
  b2z (byte_of_ascii c) <? 128 = true -> Forall piece l -> l <> [] -> piece (join1 c l).
Proof.
  intros Hc Hl Hne. induction Hl as [|x l [Hx Hx0] Hl IH]; [done|].
  destruct l as [|y l]; [by split|].
  change (join1 c (x :: y :: l)) with (x ++ String c (join1 c (y :: l)))%string.
  destruct (IH ltac:(done)) as [[_ Ht]%trimmed_spec Hn]. split; [by apply trimmed_app|].
  by destruct x.
Qed.

(** Trimming adds no byte. *)
Lemma trim_bytes_incl l b : In b (trim_bytes l) -> In b l.
Proof.
  unfold trim_bytes. rewrite <- in_rev. intros H.
  destruct (trim_rev_spec (rev (trim_left l))) as (p & Hp & _).
  assert (In b (trim_left l)) as H1 by (rewrite in_rev, Hp; apply in_or_app; by right).
  destruct (trim_left_spec l) as (q & -> & _). apply in_or_app. by right.
Qed.

Lemma contains1_In s c : contains1 s c = true <-> In (byte_of_ascii c) (bytes_of s).
Proof.
  induction s as [|a s IH]; cbn; [done|]. rewrite orb_true_iff, Ascii.eqb_eq, IH.
  split; intros [H|H]; auto.
  - left. by subst.
  - left. rewrite <- (ascii_of_byte_of_ascii a), H. by rewrite ascii_of_byte_of_ascii.
Qed.

Lemma contains1_trim s c : contains1 s c = false -> contains1 (trim_space s) c = false.
Proof.
  rewrite <- !not_true_iff_false, !contains1_In. unfold trim_space. rewrite bytes_of_string_of.
  intros H Hin. by apply H, trim_bytes_incl.
Qed.
