(* ===== verification/Base64.v ===== *)
(** * Go's [encoding/base64]

    The four encodings of the package: the standard and the URL alphabet, with and
    without padding, as [base64_decode url pad].  Line breaks are skipped; the unused
    bits of the last group are ignored, as in Go. *)

From Stdlib Require Import Strings.String.
From S2P Require Import Prelude GoBytes GoString.

(** Literal bytes. *)
Definition raw (l : list Z) : bytes := map z2b l.

Section base64.
Variable url : bool.

Definition base64_digit (b : byte) : option Z :=
  let z := b2z b in
  if (65 <=? z) && (z <=? 90) then Some (z - 65)
  else if (97 <=? z) && (z <=? 122) then Some (z - 71)
  else if (48 <=? z) && (z <=? 57) then Some (z + 4)
  else if z =? (if url then 45 else 43) then Some 62
  else if z =? (if url then 95 else 47) then Some 63
  else None.

Definition is_pad (b : byte) : bool := b2z b =? 61.

(** The bytes of a last group of two or three digits. *)
Definition last_two (a b : byte) : option bytes :=
  match base64_digit a, base64_digit b with
  | Some x, Some y => Some (raw [x * 4 + y / 16])
  | _, _ => None
  end.

Definition last_three (a b c : byte) : option bytes :=
  match base64_digit a, base64_digit b, base64_digit c with
  | Some x, Some y, Some z => Some (raw [x * 4 + y / 16; y * 16 + z / 4])
  | _, _, _ => None
  end.

Fixpoint base64_groups (pad : bool) (l : bytes) : option bytes :=
  match l with
  | [] => Some []
  | [a; b] => if pad then None else last_two a b
  | [a; b; c] => if pad then None else last_three a b c
  | a :: b :: c :: d :: r =>
      if pad && is_pad d then
        match r with
        | [] => if is_pad c then last_two a b else last_three a b c
        | _ => None
        end
      else
        match base64_digit a, base64_digit b, base64_digit c, base64_digit d with
        | Some x, Some y, Some z, Some w =>
            match base64_groups pad r with
            | Some rest => Some (raw [x * 4 + y / 16; y * 16 + z / 4; z * 64 + w] ++ rest)
            | None => None
            end
        | _, _, _, _ => None
        end
  | _ => None
  end.

Definition line_break (b : byte) : bool := (b2z b =? 10) || (b2z b =? 13).

Definition base64_decode (pad : bool) (s : string) : option string :=
  string_of <$> base64_groups pad (List.filter (fun b => negb (line_break b)) (bytes_of s)).

(** ** Encoding *)

Definition base64_char (x : Z) : byte :=
  z2b (if x <? 26 then x + 65 else if x <? 52 then x + 71 else if x <? 62 then x - 4
       else if x =? 62 then (if url then 45 else 43) else (if url then 95 else 47)).

Fixpoint base64_bytes (pad : bool) (l : bytes) : bytes :=
  match l with
  | [] => []
  | [a] =>
      [base64_char (b2z a / 4); base64_char (b2z a mod 4 * 16)] ++ (if pad then [z2b 61; z2b 61] else [])
  | [a; b] =>
      [base64_char (b2z a / 4); base64_char (b2z a mod 4 * 16 + b2z b / 16); base64_char (b2z b mod 16 * 4)]
      ++ (if pad then [z2b 61] else [])
  | a :: b :: c :: r =>
      [base64_char (b2z a / 4); base64_char (b2z a mod 4 * 16 + b2z b / 16);
       base64_char (b2z b mod 16 * 4 + b2z c / 64); base64_char (b2z c mod 64)] ++ base64_bytes pad r
  end.

Definition base64_encode (pad : bool) (s : string) : string := string_of (base64_bytes pad (bytes_of s)).
End base64.

(** ** What is encoded is decoded *)

Definition base64_char_ok (url : bool) (x : Z) : bool :=
  let b := base64_char url x in
  match base64_digit url b with Some y => y =? x | None => false end && negb (is_pad b) && negb (line_break b).

Lemma base64_char_table url : forallb (base64_char_ok url) (Z.of_nat <$> seq 0 64) = true.
Proof. destruct url; by vm_compute. Qed.

Lemma base64_char_spec url x : 0 <= x < 64 ->
  base64_digit url (base64_char url x) = Some x /\ is_pad (base64_char url x) = false /\
  line_break (base64_char url x) = false.
Proof.
  intros Hx. pose proof (base64_char_table url) as Ht. rewrite forallb_forall in Ht.
  assert (base64_char_ok url x = true) as E.
  { apply Ht, list_elem_of_In, list_elem_of_fmap. exists (Z.to_nat x). split; [lia|]. apply elem_of_seq. lia. }
  unfold base64_char_ok in E. rewrite !andb_true_iff, !negb_true_iff in E. destruct E as [[E1 E2] E3].
  split; [|done]. destruct (base64_digit _ _) as [y|]; [|done]. by apply Z.eqb_eq in E1 as ->.
Qed.

Lemma list_ind3 {A} (P : list A -> Prop) :
  P [] -> (forall a, P [a]) -> (forall a b, P [a; b]) -> (forall a b c l, P l -> P (a :: b :: c :: l)) -> forall l, P l.
Proof.
  intros H0 H1 H2 H3. fix IH 1. intros [|a [|b [|c l]]]; [exact H0|apply H1|apply H2|apply H3, IH].
Qed.

Lemma z2b_of (b : byte) z : z mod 256 = b2z b -> z2b z = b.
Proof.
  intros E. rewrite <- (z2b_b2z b), <- E. rewrite <- (z2b_b2z (z2b z)), b2z_z2b. done.
Qed.

Ltac zdiv := Z.to_euclidean_division_equations; lia.

Lemma base64_four url pad a b c d r x y z w :
  base64_digit url a = Some x -> base64_digit url b = Some y -> base64_digit url c = Some z ->
  base64_digit url d = Some w -> is_pad d = false ->
  base64_groups url pad (a :: b :: c :: d :: r) =
    (fun rest => raw [x * 4 + y / 16; y * 16 + z / 4; z * 64 + w] ++ rest) <$> base64_groups url pad r.
Proof.
  intros Da Db Dc Dd Hd. cbn [base64_groups]. rewrite Hd, andb_false_r, Da, Db, Dc, Dd.
  by destruct (base64_groups url pad r).
Qed.

Lemma base64_roundtrip url pad l :
  base64_groups url pad (base64_bytes url pad l) = Some l /\
  List.filter (fun b => negb (line_break b)) (base64_bytes url pad l) = base64_bytes url pad l.
Proof.
  induction l as [|a|a b|a b c l [IH1 IH2]] using list_ind3; [done|..];
    pose proof (b2z_range a); try (pose proof (b2z_range b)); try (pose proof (b2z_range c)).
  - destruct (base64_char_spec url (b2z a / 4)) as (D1 & P1 & N1); [zdiv|].
    destruct (base64_char_spec url (b2z a mod 4 * 16)) as (D2 & P2 & N2); [zdiv|].
    assert (last_two url (base64_char url (b2z a / 4)) (base64_char url (b2z a mod 4 * 16)) = Some [a]) as E.
    { unfold last_two. rewrite D1, D2. f_equal. unfold raw. cbn [map]. f_equal. apply z2b_of. zdiv. }
    destruct pad; (split; [exact E|]); cbn [base64_bytes List.filter app]; by rewrite N1, N2.
  - destruct (base64_char_spec url (b2z a / 4)) as (D1 & P1 & N1); [zdiv|].
    destruct (base64_char_spec url (b2z a mod 4 * 16 + b2z b / 16)) as (D2 & P2 & N2); [zdiv|].
    destruct (base64_char_spec url (b2z b mod 16 * 4)) as (D3 & P3 & N3); [zdiv|].
    assert (last_three url (base64_char url (b2z a / 4)) (base64_char url (b2z a mod 4 * 16 + b2z b / 16))
              (base64_char url (b2z b mod 16 * 4)) = Some [a; b]) as E.
    { unfold last_three. rewrite D1, D2, D3. f_equal. unfold raw. cbn [map].
      f_equal; [|f_equal]; apply z2b_of; zdiv. }
    destruct pad; (split; [|cbn [base64_bytes List.filter app]; by rewrite N1, N2, N3]); [|exact E].
    cbn [base64_bytes app base64_groups]. change (is_pad (z2b 61)) with true. cbn [andb]. by rewrite P3.
  - destruct (base64_char_spec url (b2z a / 4)) as (D1 & P1 & N1); [zdiv|].
    destruct (base64_char_spec url (b2z a mod 4 * 16 + b2z b / 16)) as (D2 & P2 & N2); [zdiv|].
    destruct (base64_char_spec url (b2z b mod 16 * 4 + b2z c / 64)) as (D3 & P3 & N3); [zdiv|].
    destruct (base64_char_spec url (b2z c mod 64)) as (D4 & P4 & N4); [zdiv|].
    split.
    + cbn [base64_bytes app]. rewrite (base64_four url pad _ _ _ _ _ _ _ _ _ D1 D2 D3 D4 P4), IH1. cbn. f_equal.
      unfold raw. cbn [map app]. f_equal; [|f_equal; [|f_equal]]; apply z2b_of; zdiv.
    + cbn [base64_bytes List.filter app]. rewrite N1, N2, N3, N4. cbn [negb]. by rewrite IH2.
Qed.

Lemma base64_decode_encode url pad s : base64_decode url pad (base64_encode url pad s) = Some s.
Proof.
  unfold base64_decode, base64_encode. rewrite bytes_of_string_of.
  destruct (base64_roundtrip url pad (bytes_of s)) as [Hr ->]. rewrite Hr. cbn. by rewrite string_of_bytes_of.
Qed.
