(* ===== verification/Wire.v ===== *)
(** * Packet framing and construction: [internal/protocol/protocol.go]

    The packet identifiers, the RakNet frame header, the variable-length
    integers and the disconnect, play-status and transfer packets of
    [ProtocolHandler].  Packets are byte lists; a function that reads a packet
    returns an [outcome], with [Panic] where a Go index or slice expression would
    be out of range. *)

From Stdlib Require Import Strings.String.
From stdpp Require Import pretty.
From S2P Require Import Prelude GoBytes GoString.

(** ** Constants *)

Definition IDUnconnectedPing : byte := x01.
Definition IDUnconnectedPingOpenConn : byte := x02.
Definition IDUnconnectedPong : byte := x1c.
Definition IDOpenConnectionRequest1 : byte := x05.
Definition IDOpenConnectionReply1 : byte := x06.
Definition IDOpenConnectionRequest2 : byte := x07.
Definition IDOpenConnectionReply2 : byte := x08.
Definition IDConnectionRequest : byte := x09.
Definition IDConnectionRequestAccept : byte := x10.
Definition IDNewIncomingConnection : byte := x13.
Definition IDDisconnectNotification : byte := x15.

Definition IDLogin : byte := x01.
Definition IDPlayStatus : byte := x02.
Definition IDDisconnect : byte := x05.
Definition IDTransfer : byte := x55.

(** The game packet wrapper, written [0xfe] in the code. *)
Definition game_wrapper : byte := xfe.

Definition RakNetMagic : bytes :=
  [x00; xff; xff; x00; xfe; xfe; xfe; xfe; xfd; xfd; xfd; xfd; x12; x34; x56; x78].

(** The errors of the package, [protocol.go] and [raknet.go]. *)
Inductive proto_err :=
| ErrInvalidPacket
| ErrPacketTooShort
| ErrInvalidMagic
| ErrVersionMismatch
| ErrLoginParseFailed
| ErrNotLoginPacket
| ErrNotTransferPacket
| ErrFragmentMissing
| ErrFragmentDuplicate
| ErrInvalidFragment
| ErrConnectionTimeout.

#[export] Instance proto_err_eq_dec : EqDecision proto_err.
Proof. solve_decision. Defined.

Record TransferInfo := { Address : string; Port : Z }.

(** ** RakNet frames *)

Definition isFramedPacket (packetID : byte) : bool :=
  (0x80 <=? b2z packetID) && (b2z packetID <=? 0x8f).

(** [(b & 0xe0) >> 5] and [(b & 0x10) != 0] *)
Definition frame_reliability (b : byte) : Z := Z.shiftr (Z.land (b2z b) 0xe0) 5.
Definition frame_has_split (b : byte) : bool := negb (Z.land (b2z b) 0x10 =? 0).

(** The [uint16] computation [(bitLength + 7) / 8]. *)
Definition frame_byte_length (bitLength : Z) : Z := u16 (bitLength + 7) / 8.

(** The three header fields skipped by both frame readers. *)
Definition skip_reliability (reliability offset : Z) : Z :=
  let offset :=
    if (2 <=? reliability) && (reliability <=? 4) then offset + 3 else offset in
  let offset :=
    if (reliability =? 1) || (reliability =? 4) then offset + 3 else offset in
  if (reliability =? 1) || (reliability =? 3) || (reliability =? 4) || (reliability =? 7)
  then offset + 4 else offset.

Definition extractInnerPacket (data : bytes) : outcome proto_err bytes :=
  if zlen data <? 4 then Err ErrPacketTooShort else
  let offset := 4 in
  if zlen data <=? offset then Err ErrPacketTooShort else
  b ← index data offset;
  let reliability := frame_reliability b in
  let hasSplit := frame_has_split b in
  let offset := offset + 1 in
  if zlen data <? offset + 2 then Err ErrPacketTooShort else
  bitLength ← be_at data offset (offset + 2);
  let byteLength := frame_byte_length bitLength in
  let offset := offset + 2 in
  let offset := skip_reliability reliability offset in
  let offset := if hasSplit then offset + 10 else offset in
  if zlen data <=? offset then Err ErrPacketTooShort else
  let endOffset := offset + byteLength in
  let endOffset := if zlen data <? endOffset then zlen data else endOffset in
  slice data offset endOffset.

(** ** Variable-length integers *)

(** The body of the [for] loop of [writeVarInt]; [None] when the fuel runs out. *)
Fixpoint writeVarInt_loop (fuel : nat) (uvalue : Z) : option bytes :=
  match fuel with
  | O => None
  | S fuel =>
      let b := Z.land uvalue 0x7f in
      let uvalue := Z.shiftr uvalue 7 in
      if uvalue =? 0 then Some [z2b b]
      else rest ← writeVarInt_loop fuel uvalue; Some (z2b (Z.lor b 0x80) :: rest)
  end.

(** A [uint32] has at most five groups of seven bits. *)
Definition varint_fuel : nat := 5.

Definition writeVarInt (value : Z) : bytes :=
  default [] (writeVarInt_loop varint_fuel (u32 value)).

(** The loop of [readVarInt]: it reads byte [offset + bytesRead]. *)
Fixpoint readVarInt_loop (fuel : nat) (data : bytes) (offset bytesRead result shift : Z)
  : outcome proto_err (Z * Z) :=
  match fuel with
  | O => Err ErrInvalidPacket
  | S fuel =>
      if zlen data <=? offset + bytesRead then Err ErrPacketTooShort else
      b ← index data (offset + bytesRead);
      let bytesRead := bytesRead + 1 in
      let result := Z.lor result (u32 (Z.shiftl (Z.land (b2z b) 0x7f) shift)) in
      if Z.land (b2z b) 0x80 =? 0 then Ret (i32 result, bytesRead) else
      let shift := shift + 7 in
      if 35 <=? shift then Err ErrInvalidPacket
      else readVarInt_loop fuel data offset bytesRead result shift
  end.

Definition readVarInt (data : bytes) (offset : Z) : outcome proto_err (Z * Z) :=
  if zlen data <=? offset then Err ErrPacketTooShort
  else readVarInt_loop varint_fuel data offset 0 0 0.

(** ** Packets built by the proxy *)

Definition BuildDisconnectPacket (reason : string) : bytes :=
  [game_wrapper; IDDisconnect; x00]
    ++ writeVarInt (i32 (slen reason)) ++ bytes_of reason.

Definition BuildVersionMismatchPacket (clientVer serverVer : Z) : bytes :=
  let reason :=
    if serverVer <? clientVer
    then ("Outdated server! Server version: " ++ pretty serverVer
            ++ " (your version: " ++ pretty clientVer ++ ")")%string
    else ("Outdated client! Please use version " ++ pretty serverVer
            ++ " (your version: " ++ pretty clientVer ++ ")")%string in
  BuildDisconnectPacket reason.

Definition BuildPlayStatusPacket (status : Z) : bytes :=
  [game_wrapper; IDPlayStatus] ++ be_bytes 4 status.

Definition BuildTransferPacket (address : string) (port : Z) : bytes :=
  [game_wrapper; IDTransfer]
    ++ writeVarInt (i32 (slen address)) ++ bytes_of address ++ le_bytes 2 port.

(** ** Transfer packets *)

Definition IsTransferPacket (data : bytes) : outcome proto_err bool :=
  if zlen data <? 2 then Ret false else
  packetID ← index data 0;
  packetID ← (if decide (packetID = game_wrapper) then index data 1 else Ret packetID);
  if isFramedPacket packetID then
    match extractInnerPacket data with
    | Panic => Panic
    | Err _ => Ret false
    | Ret innerData =>
        packetID ←
          (if 0 <? zlen innerData then
             p ← index innerData 0;
             if bool_decide (p = game_wrapper) && (1 <? zlen innerData)
             then index innerData 1 else Ret p
           else Ret packetID);
        Ret (bool_decide (packetID = IDTransfer))
    end
  else Ret (bool_decide (packetID = IDTransfer)).

(** The header of [ParseTransferPacket]: the packet data, identifier and offset
    after the wrapper or frame. *)
Definition transfer_header (data : bytes) : outcome proto_err (bytes * byte * Z) :=
  packetID ← index data 0;
  if decide (packetID = game_wrapper) then
    let offset := 1 in
    if zlen data <=? offset then Err ErrPacketTooShort else
    packetID ← index data offset;
    Ret (data, packetID, offset + 1)
  else if isFramedPacket packetID then
    innerData ← extractInnerPacket data;
    if 0 <? zlen innerData then
      p ← index innerData 0;
      if bool_decide (p = game_wrapper) && (1 <? zlen innerData)
      then p ← index innerData 1; Ret (innerData, p, 2)
      else Ret (innerData, p, 1)
    else Ret (innerData, packetID, 0)
  else Ret (data, packetID, 1).

Definition ParseTransferPacket (data : bytes) : outcome proto_err TransferInfo :=
  if zlen data <? 2 then Err ErrPacketTooShort else
  '(data, packetID, offset) ← transfer_header data;
  _ ← guard_err (bool_decide (packetID = IDTransfer)) ErrNotTransferPacket;
  '(addrLen, bytesRead) ← readVarInt data offset;
  let offset := offset + bytesRead in
  if zlen data <? offset + addrLen then Err ErrPacketTooShort else
  address ← slice data offset (offset + addrLen);
  let offset := offset + addrLen in
  if zlen data <? offset + 2 then Err ErrPacketTooShort else
  port ← le_at data offset (offset + 2);
  Ret {| Address := string_of address; Port := port |}.

(** ** Protocol version detection *)

Definition extractVersionFromLogin (data : bytes) : outcome proto_err Z :=
  if zlen data <? 5 then Err ErrPacketTooShort else
  v ← be_at data 1 5; Ret (i32 v).

Definition extractVersionFromGamePacket (data : bytes) : outcome proto_err Z :=
  if zlen data <? 5 then Err ErrPacketTooShort else
  b ← index data 0;
  if decide (b = IDLogin) then extractVersionFromLogin data else Err ErrNotLoginPacket.

(** The frame unwrapping shared by [DetectProtocolVersion] and [ParseLoginPacket]. *)
Definition unwrap_frame (data : bytes) : outcome proto_err (bytes * byte) :=
  packetID ← index data 0;
  if isFramedPacket packetID then
    innerData ← extractInnerPacket data;
    if 0 <? zlen innerData then p ← index innerData 0; Ret (innerData, p)
    else Ret (data, packetID)
  else Ret (data, packetID).

Definition DetectProtocolVersion (data : bytes) : outcome proto_err Z :=
  if zlen data <? 1 then Err ErrPacketTooShort else
  '(data, packetID) ← unwrap_frame data;
  if bool_decide (packetID = game_wrapper) && (1 <? zlen data) then
    gameData ← slice_from data 1;
    if 0 <? zlen gameData then extractVersionFromGamePacket gameData
    else if decide (packetID = IDLogin) then extractVersionFromLogin data
    else Err ErrInvalidPacket
  else if decide (packetID = IDLogin) then extractVersionFromLogin data
  else Err ErrInvalidPacket.

(** * Facts *)

(** ** Variable-length integers *)

Lemma shiftr_lt u a b : 0 <= u < 2 ^ (a + b) -> 0 <= a -> 0 <= b -> 0 <= Z.shiftr u a < 2 ^ b.
Proof.
  intros Hu Ha Hb. rewrite Z.shiftr_div_pow2 by lia. split.
  - apply Z.div_pos; [lia|]. apply Z.pow_pos_nonneg; lia.
  - apply Z.div_lt_upper_bound; [apply Z.pow_pos_nonneg; lia|]. rewrite <- Z.pow_add_r; lia.
Qed.

Lemma land_low7 u : 0 <= Z.land u 0x7f < 128.
Proof.
  change 0x7f with (Z.ones 7). rewrite Z.land_ones by lia.
  change 128 with (2 ^ 7). apply Z.mod_pos_bound. lia.
Qed.

(** Seven bits at position [s], and the rest above them. *)
Lemma lor_groups u s :
  0 <= s ->
  Z.lor (Z.shiftl (Z.land u 0x7f) s) (Z.shiftl (Z.shiftr u 7) (s + 7)) = Z.shiftl u s.
Proof.
  intros Hs. apply Z.bits_inj'. intros n Hn.
  rewrite Z.lor_spec, !Z.shiftl_spec, Z.land_spec by lia.
  change 0x7f with (Z.ones 7).
  destruct (Z.ltb_spec n s).
  { by rewrite !(Z.testbit_neg_r _ (n - s)), Z.testbit_neg_r by lia. }
  rewrite Z.testbit_ones_nonneg by lia.
  destruct (Z.ltb_spec (n - s) 7).
  - rewrite (Z.testbit_neg_r (Z.shiftr u 7)) by lia. by rewrite andb_true_r, orb_false_r.
  - rewrite Z.shiftr_spec by lia. rewrite andb_false_r. cbn. f_equal. lia.
Qed.

Lemma continuation_byte u :
  b2z (z2b (Z.lor (Z.land u 0x7f) 0x80)) = Z.land u 0x7f + 128.
Proof.
  pose proof (land_low7 u). rewrite b2z_z2b.
  replace (Z.lor (Z.land u 0x7f) 0x80) with (Z.land u 0x7f + 128).
  - apply wrapU_small. lia.
  - rewrite <- Z.lxor_lor, Z.add_nocarry_lxor; [done|..]; apply Z.bits_inj'; intros n Hn;
      rewrite !Z.land_spec, Z.bits_0; change 0x7f with (Z.ones 7); change 0x80 with (2 ^ 7);
      change 128 with (2 ^ 7); rewrite Z.testbit_ones_nonneg, Z.pow2_bits_eqb by lia;
      destruct (Z.ltb_spec n 7), (Z.eqb_spec 7 n); try lia;
      by rewrite ?andb_false_r, ?andb_true_r.
Qed.

Lemma final_byte u : b2z (z2b (Z.land u 0x7f)) = Z.land u 0x7f.
Proof. pose proof (land_low7 u). rewrite b2z_z2b. apply wrapU_small. lia. Qed.

(** The group bits and the continuation bit of the bytes written. *)
Lemma low7_mod z : Z.land z 0x7f = z mod 128.
Proof. change 0x7f with (Z.ones 7). by rewrite Z.land_ones by lia. Qed.

Lemma bit7_small z : 0 <= z < 128 -> Z.land z 0x80 = 0.
Proof.
  intros Hz. change 0x80 with (Z.shiftl 1 7).
  apply Z.bits_inj'. intros n Hn. rewrite Z.land_spec, Z.bits_0, Z.shiftl_spec by lia.
  destruct (Z.eq_dec n 7) as [->|].
  - assert (Z.testbit z 7 = false) as ->; [|done].
    apply Z.testbit_false; [lia|]. change (2 ^ 7) with 128. by rewrite Z.div_small by lia.
  - replace (Z.testbit 1 (n - 7)) with false; [by rewrite andb_false_r|].
    destruct (Z.ltb_spec n 7); [by rewrite Z.testbit_neg_r by lia|].
    change 1 with (2 ^ 0). rewrite Z.pow2_bits_eqb by lia. symmetry. apply Z.eqb_neq. lia.
Qed.

Lemma bit7_set z : 128 <= z < 256 -> Z.land z 0x80 <> 0.
Proof.
  intros Hz E. apply (f_equal (fun x => Z.testbit x 7)) in E.
  rewrite Z.land_spec, Z.bits_0 in E. change (Z.testbit 128 7) with true in E.
  rewrite andb_true_r in E. apply Z.testbit_false in E; [|lia].
  change (2 ^ 7) with 128 in E.
  assert (z / 128 = 1) as E1 by (symmetry; apply Z.div_unique with (z - 128); lia).
  by rewrite E1 in E.
Qed.

Lemma writeVarInt_loop_total fuel u :
  (0 < fuel)%nat -> 0 <= u < 2 ^ (7 * Z.of_nat fuel) ->
  exists bs, writeVarInt_loop fuel u = Some bs /\ 1 <= zlen bs <= Z.of_nat fuel.
Proof.
  revert u. induction fuel as [|fuel IH]; intros u Hf Hu; [lia|]. cbn [writeVarInt_loop].
  destruct (Z.eqb_spec (Z.shiftr u 7) 0) as [E|E].
  { eexists; split; [done|]. zlen_lia. }
  assert (0 <= Z.shiftr u 7 < 2 ^ (7 * Z.of_nat fuel)) as Hs.
  { apply shiftr_lt; [|lia..]. by replace (7 + 7 * Z.of_nat fuel) with (7 * Z.of_nat (S fuel)) by lia. }
  destruct fuel as [|fuel].
  { change (2 ^ (7 * Z.of_nat 0)) with 1 in Hs. lia. }
  destruct (IH _ ltac:(lia) Hs) as (bs & -> & Hl). cbn.
  eexists; split; [done|]. zlen_lia.
Qed.

Lemma writeVarInt_some v :
  exists bs, writeVarInt_loop varint_fuel (u32 v) = Some bs /\ 1 <= zlen bs <= 5.
Proof.
  apply (writeVarInt_loop_total varint_fuel); [cbv; lia|].
  pose proof (wrapU_range 32 v ltac:(lia)). change (2 ^ _) with 34359738368. lia.
Qed.

Lemma zlen_writeVarInt v : 1 <= zlen (writeVarInt v) <= 5.
Proof. unfold writeVarInt. destruct (writeVarInt_some v) as (bs & -> & ?). done. Qed.

Lemma read_written_loop fuel u bs a k offset n result shift :
  writeVarInt_loop fuel u = Some bs ->
  0 <= u < 2 ^ (32 - shift) -> 0 <= shift -> shift = 35 - 7 * Z.of_nat fuel ->
  zlen a = offset + n ->
  readVarInt_loop fuel (a ++ bs ++ k) offset n result shift
  = Ret (i32 (Z.lor result (Z.shiftl u shift)), n + zlen bs).
Proof.
  revert u bs a n result shift.
  induction fuel as [|fuel IH]; intros u bs a n result shift Hw Hu Hs0 Hs Ha; [done|].
  cbn [writeVarInt_loop] in Hw. cbn [readVarInt_loop].
  pose proof (land_low7 u) as Hb.
  assert (forall c, 0 <= c <= Z.land u 0x7f -> u32 (Z.shiftl (Z.land u 0x7f) shift) = Z.shiftl (Z.land u 0x7f) shift) as Hsm.
  { intros _ _. apply wrapU_small. rewrite Z.shiftl_mul_pow2 by lia.
    assert (Z.land u 0x7f <= u) by (rewrite low7_mod; apply Z.mod_le; lia).
    assert (0 < 2 ^ shift) by (apply Z.pow_pos_nonneg; lia).
    assert (2 ^ 32 = 2 ^ (32 - shift) * 2 ^ shift) as ->; [|nia].
    destruct (Z.le_gt_cases shift 32).
    - rewrite <- Z.pow_add_r by lia. f_equal. lia.
    - rewrite (Z.pow_neg_r 2 (32 - shift)) in * by lia. lia. }
  specialize (Hsm 0 ltac:(lia)).
  destruct (Z.eqb_spec (Z.shiftr u 7) 0) as [E|E].
  - injection Hw as <-. cbn [app].
    rewrite (proj2 (Z.leb_gt _ _)) by zlen_lia.
    rewrite index_app by done. cbn [mbind outcome_bind].
    rewrite final_byte, bit7_small, Z.eqb_refl by done.
    rewrite !low7_mod, Zmod_mod, <- low7_mod, Hsm.
    do 4 f_equal. rewrite <- (lor_groups u shift), E, Z.shiftl_0_l, Z.lor_0_r by lia. done.
  - destruct (writeVarInt_loop fuel _) as [rest|] eqn:Hr; [|done]. injection Hw as <-.
    assert (128 <= u) as Hu1.
    { destruct (Z.lt_ge_cases u 128); [|done]. contradict E.
      rewrite Z.shiftr_div_pow2 by lia. apply Z.div_small. lia. }
    assert (7 < 32 - shift) as Hs7.
    { destruct (Z.le_gt_cases (32 - shift) 7) as [H7|]; [|lia].
      pose proof (Z.pow_le_mono_r 2 _ _ ltac:(lia) H7). lia. }
    cbn [app].
    rewrite (proj2 (Z.leb_gt _ _)) by zlen_lia.
    rewrite index_app by done. cbn [mbind outcome_bind].
    rewrite continuation_byte.
    rewrite (proj2 (Z.eqb_neq _ _)) by (apply bit7_set; lia).
    rewrite (proj2 (Z.leb_gt _ _)) by lia.
    assert (Z.land (Z.land u 0x7f + 128) 0x7f = Z.land u 0x7f) as ->.
    { rewrite !low7_mod. replace (u mod 128 + 128) with (u mod 128 + 1 * 128) by lia.
      by rewrite Z_mod_plus_full, Zmod_mod. }
    rewrite Hsm.
    replace (a ++ z2b (Z.lor (Z.land u 0x7f) 0x80) :: rest ++ k)
      with ((a ++ [z2b (Z.lor (Z.land u 0x7f) 0x80)]) ++ rest ++ k) by (by rewrite <- app_assoc).
    rewrite (IH (Z.shiftr u 7) rest) by first
      [ done | lia | zlen_lia
      | apply (shiftr_lt u 7 (32 - (shift + 7))); [|lia..]; by replace (7 + (32 - (shift + 7))) with (32 - shift) by lia ].
    rewrite <- Z.lor_assoc, lor_groups by lia. f_equal. f_equal. zlen_lia.
Qed.

Lemma read_written a k v :
  readVarInt (a ++ writeVarInt v ++ k) (zlen a) = Ret (i32 v, zlen (writeVarInt v)).
Proof.
  unfold readVarInt. pose proof (zlen_writeVarInt v) as Hl.
  rewrite (proj2 (Z.leb_gt _ _)) by zlen_lia.
  unfold writeVarInt in *. destruct (writeVarInt_some v) as (bs & E & _). rewrite E in *. cbn [default] in *.
  rewrite (read_written_loop varint_fuel (u32 v)); [|done| |lia|done|lia].
  2: { rewrite Z.sub_0_r. apply wrapU_range. lia. }
  rewrite Z.shiftl_0_r, Z.lor_0_l, wrapS_wrapU. f_equal.
Qed.

Lemma readVarInt_loop_bounds fuel data offset n result shift :
  0 <= offset + n -> 0 <= n ->
  match readVarInt_loop fuel data offset n result shift with
  | Ret (v, m) => - 2 ^ 31 <= v < 2 ^ 31 /\ n < m <= n + Z.of_nat fuel /\ offset + m <= zlen data
  | Err _ => True
  | Panic => False
  end.
Proof.
  revert n result shift. induction fuel as [|fuel IH]; intros n result shift Ho Hn; cbn; [done|].
  destruct (Z.leb_spec (zlen data) (offset + n)); [done|].
  destruct (index data (offset + n)) as [b|e|] eqn:Hi; cbn.
  - destruct (_ =? 0).
    + split; [apply (wrapS_range 32); lia|]. lia.
    + destruct (35 <=? _); [done|].
      specialize (IH (n + 1) (Z.lor result (u32 (Z.shiftl (Z.land (b2z b) 127) shift))) (shift + 7)
        ltac:(lia) ltac:(lia)).
      destruct (readVarInt_loop _ _ _ _ _ _) as [[v m]|e|]; [|done..]. lia.
  - by apply index_not_Err in Hi.
  - apply index_Panic_inv in Hi. lia.
Qed.

Lemma readVarInt_spec data offset :
  0 <= offset ->
  match readVarInt data offset with
  | Ret (v, m) => - 2 ^ 31 <= v < 2 ^ 31 /\ 1 <= m <= 5 /\ offset + m <= zlen data
  | Err _ => True
  | Panic => False
  end.
Proof.
  intros Ho. unfold readVarInt. destruct (zlen data <=? offset); [done|].
  pose proof (readVarInt_loop_bounds varint_fuel data offset 0 0 0 ltac:(lia) ltac:(lia)) as H.
  change (Z.of_nat varint_fuel) with 5 in H.
  destruct (readVarInt_loop _ _ _ _ _ _) as [[v m]|e|]; [lia|done..].
Qed.

(** ** Frames *)

Lemma frame_reliability_range b : 0 <= frame_reliability b < 8.
Proof.
  unfold frame_reliability. rewrite Z.shiftr_land. change (Z.shiftr 0xe0 5) with (Z.ones 3).
  rewrite Z.land_ones by lia. apply Z.mod_pos_bound. lia.
Qed.

Lemma frame_byte_length_range n : 0 <= frame_byte_length n < 8192.
Proof.
  unfold frame_byte_length. pose proof (wrapU_range 16 (n + 7) ltac:(lia)) as H.
  split; [apply Z.div_pos; lia|]. apply Z.div_lt_upper_bound; cbn in H; lia.
Qed.

Lemma skip_reliability_bounds r o : o <= skip_reliability r o <= o + 10.
Proof. unfold skip_reliability. bool_cases; lia. Qed.

(** The result of unwrapping a frame is a window of the datagram. *)
Lemma extractInnerPacket_spec data :
  match extractInnerPacket data with
  | Ret inner =>
      exists lo, 7 <= lo < zlen data /\ zlen inner = Z.min (zlen data - lo) (zlen inner) /\
        slice (E := proto_err) data lo (lo + zlen inner) = Ret inner
  | Err e => e = ErrPacketTooShort
  | Panic => False
  end.
Proof.
  unfold extractInnerPacket.
  destruct (Z.ltb_spec (zlen data) 4); [done|].
  destruct (Z.leb_spec (zlen data) 4); [done|].
  destruct (index data 4) as [b|e|] eqn:Hi; cbn.
  2: by apply index_not_Err in Hi.
  2: { apply index_Panic_inv in Hi. lia. }
  change (4 + 1 + 2) with 7. change (4 + 1) with 5.
  destruct (Z.ltb_spec (zlen data) 7); [done|].
  destruct (be_at_ok (E := proto_err) data 5 7) as (v & -> & Hv); [lia..|]. cbn.
  set (o := if frame_has_split b then _ else _).
  assert (7 <= o) as Ho.
  { unfold o. pose proof (skip_reliability_bounds (frame_reliability b) 7).
    destruct (frame_has_split b); lia. }
  destruct (Z.leb_spec (zlen data) o); [done|].
  pose proof (frame_byte_length_range v).
  set (hi := if _ <? _ then _ else _).
  assert (o <= hi <= zlen data) as Hh by (unfold hi; bool_cases; lia).
  destruct (slice data o hi) as [inner|e|] eqn:Hsl.
  - exists o. pose proof (slice_len _ _ _ _ Hsl). split; [lia|]. split; [lia|].
    by replace (o + zlen inner) with hi by lia.
  - by apply slice_not_Err in Hsl.
  - apply slice_Panic_inv in Hsl. lia.
Qed.

Lemma extractInnerPacket_safe data : safe (extractInnerPacket data).
Proof. intros H. pose proof (extractInnerPacket_spec data) as S. by rewrite H in S. Qed.

#[export] Hint Resolve extractInnerPacket_safe : go.

(** A packet of the window has the [k]-th byte. *)
Lemma index_Ret {E} (data : bytes) i : 0 <= i < zlen data -> exists b, index (E := E) data i = Ret b.
Proof.
  intros Hi. destruct (index data i) as [b|e|] eqn:H; [by eexists| |].
  - by apply index_not_Err in H.
  - by apply index_Panic_inv in H.
Qed.

Tactic Notation "index_ret" constr(i) :=
  match goal with
  | |- context [index (E := ?E) ?d i] =>
      let b := fresh "b" in
      destruct (index_Ret (E := E) d i) as [b ->]; [lia|]; cbn [mbind outcome_bind]
  end.

Lemma unwrap_frame_safe data : 1 <= zlen data -> safe (unwrap_frame data).
Proof.
  intros Hl. unfold unwrap_frame. index_ret 0.
  destruct (isFramedPacket b); [|auto with go].
  apply bind_safe; [auto with go|]. intros inner _.
  destruct (Z.ltb_spec 0 (zlen inner)); [|auto with go]. index_ret 0. auto with go.
Qed.

Lemma unwrap_frame_nonempty data d p :
  1 <= zlen data -> unwrap_frame data = Ret (d, p) -> 1 <= zlen d.
Proof.
  intros Hl. unfold unwrap_frame. index_ret 0.
  destruct (isFramedPacket b); [|by intros [= <- <-]].
  destruct (extractInnerPacket data) as [inner|e|]; cbn [mbind outcome_bind]; [|done..].
  destruct (Z.ltb_spec 0 (zlen inner)); [|by intros [= <- <-]].
  index_ret 0. intros [= <- <-]. lia.
Qed.

Lemma extractVersionFromLogin_safe data : safe (extractVersionFromLogin data).
Proof.
  unfold extractVersionFromLogin. destruct (Z.ltb_spec (zlen data) 5); [auto with go|].
  destruct (be_at_ok (E := proto_err) data 1 5) as (v & -> & _); [lia..|]. cbn. auto with go.
Qed.

Lemma extractVersionFromGamePacket_safe data : safe (extractVersionFromGamePacket data).
Proof.
  unfold extractVersionFromGamePacket. destruct (Z.ltb_spec (zlen data) 5); [auto with go|].
  index_ret 0. case_decide; auto using extractVersionFromLogin_safe with go.
Qed.

(** The data, identifier and offset after the wrapper: the offset is in the data. *)
Lemma transfer_header_spec data :
  2 <= zlen data ->
  match transfer_header data with
  | Ret (d, p, off) => 0 <= off <= zlen d
  | Err _ => True
  | Panic => False
  end.
Proof.
  intros Hl. unfold transfer_header. index_ret 0. case_decide.
  - destruct (Z.leb_spec (zlen data) 1); [done|]. index_ret 1. lia.
  - destruct (isFramedPacket b); [|lia].
    pose proof (extractInnerPacket_safe data) as Hs.
    destruct (extractInnerPacket data) as [inner|e|]; cbn [mbind outcome_bind]; [|done..].
    destruct (Z.ltb_spec 0 (zlen inner)).
    + index_ret 0. destruct (bool_decide _ && _) eqn:E; [|lia]. bool_prop. index_ret 1. lia.
    + pose proof (zlen_nonneg inner). lia.
Qed.

(** ** Properties *)

(** A 32-bit integer written by [writeVarInt] is read back by [readVarInt], with
    the number of bytes written, wherever it stands in a packet. *)
Theorem varint_roundtrip (before after : bytes) (v : Z) :
  - 2 ^ 31 <= v < 2 ^ 31 ->
  readVarInt (before ++ writeVarInt v ++ after) (zlen before) = Ret (v, zlen (writeVarInt v)).
Proof. intros Hv. rewrite read_written. by rewrite (wrapS_small 32) by (cbn; lia). Qed.

Lemma varint_roundtrip_witness :
  readVarInt ([xfe] ++ writeVarInt (-5) ++ [x00]) (zlen [xfe]) = Ret (-5, 5).
Proof. exact (varint_roundtrip [xfe] [x00] (-5) ltac:(lia)). Defined.

(** The loop of [writeVarInt] ends after at most five iterations for every [int32],
    so it writes between one and five bytes. *)
Theorem writeVarInt_terminates (v : Z) :
  writeVarInt_loop varint_fuel (u32 v) = Some (writeVarInt v) /\ 1 <= zlen (writeVarInt v) <= 5.
Proof.
  split; [|apply zlen_writeVarInt].
  unfold writeVarInt. by destruct (writeVarInt_some v) as (bs & -> & _).
Qed.

(** [readVarInt] at an offset that is not negative never panics; when it
    succeeds it has read one to five bytes inside the packet and the value is an
    [int32]. *)
Theorem readVarInt_bounds (data : bytes) (offset : Z) :
  0 <= offset ->
  safe (readVarInt data offset) /\
  (forall v n, readVarInt data offset = Ret (v, n) ->
     1 <= n <= 5 /\ offset + n <= zlen data /\ - 2 ^ 31 <= v < 2 ^ 31).
Proof.
  intros Ho. pose proof (readVarInt_spec data offset Ho) as H. unfold safe.
  destruct (readVarInt data offset) as [[v n]|e|]; [|by split|done].
  split; [done|]. intros v' n' [= <- <-]. lia.
Qed.

Lemma readVarInt_bounds_witness :
  safe (readVarInt [xff; x01] 0) /\ readVarInt [xff; x01] 0 = Ret (255, 2).
Proof. split; [exact (proj1 (readVarInt_bounds [xff; x01] 0 ltac:(lia)))|reflexivity]. Defined.

(** The transfer packet built for an address and a port is parsed back to them. *)
Theorem transfer_roundtrip (address : string) (port : Z) :
  slen address < 2 ^ 31 -> 0 <= port < 2 ^ 16 ->
  ParseTransferPacket (BuildTransferPacket address port)
  = Ret {| Address := address; Port := port |}.
Proof.
  intros Ha Hp. pose proof (zlen_writeVarInt (i32 (slen address))) as Hw.
  pose proof (zlen_nonneg (bytes_of address)) as Hn. unfold slen in *.
  assert (i32 (zlen (bytes_of address)) = zlen (bytes_of address)) as Hi
    by (apply (wrapS_small 32); cbn; lia).
  pose proof (read_written [game_wrapper; IDTransfer] (bytes_of address ++ le_bytes 2 port)
    (zlen (bytes_of address))) as R. rewrite Hi in R.
  unfold ParseTransferPacket, BuildTransferPacket, slen. rewrite Hi in *.
  set (w := writeVarInt _) in *. set (a := bytes_of address) in *.
  rewrite (proj2 (Z.ltb_ge _ _)) by zlen_lia.
  assert (transfer_header ([game_wrapper; IDTransfer] ++ w ++ a ++ le_bytes 2 port)
    = Ret ([game_wrapper; IDTransfer] ++ w ++ a ++ le_bytes 2 port, IDTransfer, 2)) as ->.
  { set (k := w ++ a ++ le_bytes 2 port). unfold transfer_header.
    change ([game_wrapper; IDTransfer] ++ k) with (game_wrapper :: IDTransfer :: k).
    change (index (game_wrapper :: IDTransfer :: k) 0)
      with (Ret (E := proto_err) game_wrapper). cbn [mbind outcome_bind].
    rewrite decide_True, (proj2 (Z.leb_gt _ _)) by first [done | zlen_lia].
    reflexivity. }
  cbn [mbind outcome_bind]. rewrite bool_decide_eq_true_2 by done. cbn [guard_err mbind outcome_bind].
  change (zlen [game_wrapper; IDTransfer]) with 2 in R. rewrite R. cbn [mbind outcome_bind].
  rewrite (proj2 (Z.ltb_ge _ _)) by zlen_lia.
  rewrite (app_assoc _ w), slice_app by zlen_lia. cbn [mbind outcome_bind].
  rewrite (proj2 (Z.ltb_ge _ _)) by zlen_lia.
  rewrite app_assoc, <- (app_nil_r (le_bytes 2 port)).
  rewrite le_at_app by zlen_lia. cbn [mbind outcome_bind].
  rewrite le_uint_le_bytes, wrapU_small by (change (2 ^ _) with (2 ^ 16); lia).
  unfold a. by rewrite string_of_bytes_of.
Qed.

Lemma transfer_roundtrip_witness :
  ParseTransferPacket (BuildTransferPacket "127.0.0.1" 19132)
  = Ret {| Address := "127.0.0.1"; Port := 19132 |}.
Proof. exact (transfer_roundtrip "127.0.0.1" 19132 ltac:(reflexivity) ltac:(lia)). Defined.

(** ** Reference frame

    A datagram with one encapsulated packet: the datagram header, the flags, the
    length in bits, [extra] bytes of reliability, ordering and split fields, the
    packet, and whatever follows it. *)
Definition frame_extra (flags : byte) : Z :=
  skip_reliability (frame_reliability flags) 0 + (if frame_has_split flags then 10 else 0).

Definition frame_datagram (header : bytes) (flags : byte) (extra payload rest : bytes) : bytes :=
  header ++ flags :: be_bytes 2 (8 * zlen payload) ++ extra ++ payload ++ rest.

Lemma skip_reliability_shift r o : skip_reliability r o = o + skip_reliability r 0.
Proof. unfold skip_reliability. repeat case_match; lia. Qed.

Lemma frame_byte_length_exact n : 0 <= n -> 8 * n < 65529 -> frame_byte_length (8 * n) = n.
Proof.
  intros. unfold frame_byte_length. rewrite wrapU_small by (change (2 ^ 16) with 65536; lia).
  symmetry. apply Z.div_unique with 7; lia.
Qed.

Lemma extract_datagram (header : bytes) (flags : byte) (extra payload rest : bytes) :
  zlen header = 4 -> zlen extra = frame_extra flags -> 1 <= zlen payload < 8191 ->
  extractInnerPacket (frame_datagram header flags extra payload rest) = Ret payload.
Proof.
  intros Hh He Hp. unfold extractInnerPacket, frame_datagram, frame_extra in *.
  assert (0 <= zlen extra) as He0 by apply zlen_nonneg.
  rewrite (proj2 (Z.ltb_ge _ 4)), (proj2 (Z.leb_gt _ 4)) by zlen_lia.
  rewrite (index_app header flags) by done. cbn [mbind outcome_bind].
  change (4 + 1 + 2) with 7. change (4 + 1) with 5.
  rewrite (proj2 (Z.ltb_ge _ 7)) by zlen_lia.
  change (header ++ flags :: ?k) with (header ++ [flags] ++ k).
  rewrite (app_assoc header [flags]), (be_at_app (header ++ [flags])) by zlen_lia.
  cbn [mbind outcome_bind].
  rewrite be_uint_be_bytes, wrapU_small by (change (2 ^ _) with 65536; lia).
  rewrite frame_byte_length_exact by lia.
  set (o := if frame_has_split flags then _ else _).
  assert (o = 7 + zlen extra) as Ho.
  { unfold o. rewrite (skip_reliability_shift _ 7). destruct (frame_has_split flags); lia. }
  rewrite (proj2 (Z.leb_gt _ o)) by zlen_lia.
  rewrite (proj2 (Z.ltb_ge _ (o + _))) by zlen_lia.
  rewrite !app_assoc, <- (app_assoc _ payload). apply slice_app; zlen_lia.
Qed.

(** [extractInnerPacket] returns exactly the encapsulated packet of a datagram whose
    packet is not empty and shorter than 8191 bytes, for every combination of
    reliability and split flag and whatever follows the packet. *)
Theorem extractInnerPacket_payload (header : bytes) (flags : byte) (extra payload rest : bytes) :
  zlen header = 4 -> zlen extra = frame_extra flags -> 1 <= zlen payload < 8191 ->
  extractInnerPacket (frame_datagram header flags extra payload rest) = Ret payload.
Proof. apply extract_datagram. Qed.

Lemma extractInnerPacket_payload_witness :
  extractInnerPacket (frame_datagram [x84; x00; x00; x00] x60 [x01; x00; x00; x00; x00; x00; x00]
    [xfe; x01] [x77]) = Ret [xfe; x01].
Proof. apply extractInnerPacket_payload; [reflexivity|reflexivity|split; reflexivity || discriminate]. Defined.

(** The byte length of a frame is the bit length divided by eight and rounded up for
    every bit length below 65529, and zero for the seven bit lengths from 65529
    on: the [uint16] sum [bitLength + 7] wraps around and the packet is lost. *)
Theorem frame_byte_length_spec (bitLength : Z) :
  0 <= bitLength < 2 ^ 16 ->
  frame_byte_length bitLength = (if bitLength <? 65529 then (bitLength + 7) / 8 else 0).
Proof.
  change (2 ^ 16) with 65536. intros H. unfold frame_byte_length, wrapU. change (2 ^ 16) with 65536.
  destruct (Z.ltb_spec bitLength 65529); [by rewrite Z.mod_small by lia|].
  replace (bitLength + 7) with (bitLength - 65529 + 1 * 65536) by lia.
  rewrite Z_mod_plus_full, Z.mod_small by lia. apply Z.div_small. lia.
Qed.

Lemma frame_byte_length_spec_witness :
  frame_byte_length 65529 = 0 /\ frame_byte_length 65528 = 8191.
Proof.
  split; [exact (frame_byte_length_spec 65529 ltac:(lia))|exact (frame_byte_length_spec 65528 ltac:(lia))].
Defined.

(** A login packet: the identifier, the protocol version and the rest. *)
Definition login_packet (v : Z) (rest : bytes) : bytes := IDLogin :: be_bytes 4 v ++ rest.

Lemma extractVersionFromLogin_login v rest :
  - 2 ^ 31 <= v < 2 ^ 31 -> extractVersionFromLogin (login_packet v rest) = Ret v.
Proof.
  intros Hv. unfold extractVersionFromLogin, login_packet.
  rewrite (proj2 (Z.ltb_ge _ _)) by zlen_lia.
  change (IDLogin :: ?k) with ([IDLogin] ++ k).
  rewrite (be_at_app [IDLogin]) by zlen_lia. cbn [mbind outcome_bind].
  rewrite be_uint_be_bytes. change (8 * Z.of_nat 4) with 32.
  by rewrite wrapS_wrapU, wrapS_small by lia.
Qed.

(** Detection on unwrapped data. *)
Lemma detect_unwrapped data v rest :
  1 <= zlen data ->
  unwrap_frame data = Ret (game_wrapper :: login_packet v rest, game_wrapper) \/
  unwrap_frame data = Ret (login_packet v rest, IDLogin) ->
  - 2 ^ 31 <= v < 2 ^ 31 -> DetectProtocolVersion data = Ret v.
Proof.
  intros Hl H Hv. unfold DetectProtocolVersion.
  rewrite (proj2 (Z.ltb_ge _ _)) by lia.
  assert (5 <= zlen (login_packet v rest)) as Hp by (unfold login_packet; zlen_lia).
  destruct H as [-> | ->]; cbn [mbind outcome_bind].
  - rewrite bool_decide_eq_true_2, (proj2 (Z.ltb_lt 1 _)) by first [done | zlen_lia]. cbn [andb].
    unfold slice_from. rewrite <- (app_nil_r (_ :: _)).
    change ((game_wrapper :: ?l) ++ ?k) with ([game_wrapper] ++ l ++ k).
    rewrite (slice_app [game_wrapper] (login_packet v rest)) by zlen_lia. cbn [mbind outcome_bind].
    rewrite (proj2 (Z.ltb_lt 0 _)) by lia. unfold extractVersionFromGamePacket.
    rewrite (proj2 (Z.ltb_ge _ _)) by lia.
    change (index (login_packet v rest) 0) with (Ret (E := proto_err) IDLogin).
    cbn [mbind outcome_bind]. rewrite decide_True by done. by apply extractVersionFromLogin_login.
  - rewrite bool_decide_eq_false_2 by done. cbn [andb].
    rewrite decide_True by done. by apply extractVersionFromLogin_login.
Qed.

(** [DetectProtocolVersion] finds the version of a login packet that stands alone,
    behind the game wrapper, or behind the wrapper inside a RakNet frame of any
    reliability. *)
Theorem DetectProtocolVersion_login (v : Z) (body : bytes) :
  - 2 ^ 31 <= v < 2 ^ 31 ->
  DetectProtocolVersion (login_packet v body) = Ret v /\
  DetectProtocolVersion (game_wrapper :: login_packet v body) = Ret v /\
  (forall id seq flags extra rest,
     isFramedPacket id = true -> zlen seq = 3 -> zlen extra = frame_extra flags ->
     zlen body < 8000 ->
     DetectProtocolVersion
       (frame_datagram (id :: seq) flags extra (game_wrapper :: login_packet v body) rest) = Ret v).
Proof.
  intros Hv. split; [|split].
  - apply (detect_unwrapped _ v body); [unfold login_packet; zlen_lia|by right|done].
  - apply (detect_unwrapped _ v body); [unfold login_packet; zlen_lia|by left|done].
  - intros id seq flags extra rest Hid Hs He Hb.
    assert (zlen (game_wrapper :: login_packet v body) = 6 + zlen body) as Hl
      by (unfold login_packet; zlen_lia).
    apply (detect_unwrapped _ v body); [unfold frame_datagram; zlen_lia| |done]. left.
    unfold unwrap_frame.
    change (index (frame_datagram (id :: seq) flags extra ?p rest) 0) with (Ret (E := proto_err) id).
    cbn [mbind outcome_bind]. rewrite Hid, extract_datagram by zlen_lia. cbn [mbind outcome_bind].
    rewrite (proj2 (Z.ltb_lt 0 _)) by zlen_lia. reflexivity.
Qed.

Lemma DetectProtocolVersion_login_witness :
  DetectProtocolVersion (game_wrapper :: login_packet 712 [x00]) = Ret 712.
Proof. exact (proj1 (proj2 (DetectProtocolVersion_login 712 [x00] ltac:(lia)))). Defined.

(** [DetectProtocolVersion] and [IsTransferPacket] never panic. *)
Theorem detection_safe (data : bytes) :
  safe (DetectProtocolVersion data) /\ safe (IsTransferPacket data).
Proof.
  split.
  - unfold DetectProtocolVersion. destruct (Z.ltb_spec (zlen data) 1); [auto with go|].
    apply bind_safe; [by apply unwrap_frame_safe|]. intros [d p] Hd.
    apply unwrap_frame_nonempty in Hd; [|lia].
    destruct (bool_decide _ && _) eqn:E.
    + bool_prop. apply bind_safe.
      * apply slice_safe; lia.
      * intros g _. repeat case_match; auto using extractVersionFromGamePacket_safe,
          extractVersionFromLogin_safe with go.
    + destruct (decide (p = IDLogin)); auto using extractVersionFromLogin_safe with go.
  - unfold IsTransferPacket. destruct (Z.ltb_spec (zlen data) 2); [auto with go|].
    index_ret 0. apply bind_safe.
    { case_decide; [apply index_safe; lia|auto with go]. }
    intros p _. destruct (isFramedPacket p); [|auto with go].
    pose proof (extractInnerPacket_safe data) as Hs.
    destruct (extractInnerPacket data) as [inner|e|]; [|auto with go|done].
    apply bind_safe; [|auto with go].
    destruct (Z.ltb_spec 0 (zlen inner)); [|auto with go]. index_ret 0.
    destruct (bool_decide _ && _) eqn:E; [|auto with go]. bool_prop. apply index_safe. lia.
Qed.

(** [ParseTransferPacket] panics exactly on the transfer packets whose address
    length is a negative variable-length integer. *)
Theorem ParseTransferPacket_panics (data : bytes) :
  ParseTransferPacket data = Panic <->
  2 <= zlen data /\
  exists d offset n k,
    transfer_header data = Ret (d, IDTransfer, offset) /\
    readVarInt d offset = Ret (n, k) /\ n < 0.
Proof.
  unfold ParseTransferPacket. destruct (Z.ltb_spec (zlen data) 2).
  { split; [done|]. lia. }
  pose proof (transfer_header_spec data ltac:(lia)) as Hh.
  destruct (transfer_header data) as [[[d p] off]|e|]; cbn [mbind outcome_bind]; [|split; [done|]; by intros (_ & ? & ? & ? & ? & ? & _)|done].
  destruct (decide (p = IDTransfer)) as [->|Hp].
  2: { rewrite bool_decide_eq_false_2 by done. cbn. split; [done|].
       intros (_ & d' & off' & n & k & [= ] & _). done. }
  rewrite bool_decide_eq_true_2 by done. cbn [guard_err mbind outcome_bind].
  pose proof (readVarInt_spec d off ltac:(lia)) as Hr.
  destruct (readVarInt d off) as [[n k]|e|] eqn:Er; cbn [mbind outcome_bind];
    [|split; [done|]; intros (_ & ? & ? & ? & ? & [= <- <-] & E & _); congruence|done].
  destruct (Z.lt_ge_cases n 0) as [Hn|Hn].
  - split; [intros _; split; [lia|]; by exists d, off, n, k|]. intros _.
    rewrite (proj2 (Z.ltb_ge _ _)) by lia. unfold slice.
    by rewrite (proj2 (Z.leb_gt (off + k) _)), andb_false_r by lia.
  - split; [|intros (_ & d' & off' & n' & k' & [= <- <-] & E & ?); rewrite Er in E; (injection E; lia)].
    intros Hpanic. exfalso. destruct (Z.ltb_spec (zlen d) (off + k + n)); [done|].
    rewrite slice_ok in Hpanic by lia. cbn [mbind outcome_bind] in Hpanic.
    destruct (Z.ltb_spec (zlen d) (off + k + n + 2)); [done|].
    destruct (le_at_ok (E := proto_err) d (off + k + n) (off + k + n + 2)) as (v & Hv & _); [lia..|].
    by rewrite Hv in Hpanic.
Qed.

(** Five bytes of a datagram that stop the proxy's parser. *)
Example ParseTransferPacket_crash :
  ParseTransferPacket [xfe; x55; xff; xff; xff; xff; x0f] = Panic.
Proof. reflexivity. Qed.

(** Whatever [ParseTransferPacket] accepts, [IsTransferPacket] recognises. *)
Theorem ParseTransferPacket_is_transfer (data : bytes) (info : TransferInfo) :
  ParseTransferPacket data = Ret info -> IsTransferPacket data = Ret true.
Proof.
  unfold ParseTransferPacket, IsTransferPacket.
  destruct (Z.ltb_spec (zlen data) 2); [done|]. intros H1. inv_ret.
  destruct x as [[d p] off]. inv_ret. bool_prop. subst p. clear H1.
  revert Hx. unfold transfer_header. index_ret 0. rename b into b0.
  case_decide as Hw.
  - subst. rewrite (proj2 (Z.leb_gt _ _)) by lia.
    destruct (index_Ret (E := proto_err) data 1) as [b ->]; [lia|]. cbn [mbind outcome_bind].
    intros [= _ -> _]. reflexivity.
  - cbn [mbind outcome_bind]. destruct (isFramedPacket b0) eqn:Hf.
    + destruct (extractInnerPacket data) as [inner|e|]; cbn [mbind outcome_bind]; [|done..].
      destruct (Z.ltb_spec 0 (zlen inner)).
      * destruct (index_Ret (E := proto_err) inner 0) as [b ->]; [lia|]. cbn [mbind outcome_bind].
        destruct (bool_decide _ && _) eqn:E.
        -- bool_prop. destruct (index_Ret (E := proto_err) inner 1) as [b1 ->]; [lia|].
           cbn [mbind outcome_bind]. by intros [= _ -> _].
        -- by intros [= _ -> _].
      * intros [= _ -> _]. done.
    + by intros [= _ -> _].
Qed.

Lemma ParseTransferPacket_is_transfer_witness :
  IsTransferPacket (BuildTransferPacket "play.example" 19132) = Ret true.
Proof.
  apply (ParseTransferPacket_is_transfer _ {| Address := "play.example"; Port := 19132 |}).
  reflexivity.
Defined.
