(* ===== verification/RakNet.v ===== *)
(** * The RakNet layer: [internal/protocol/raknet.go]

    The unconnected ping and the connection handshake of [RakNetHandler], the
    parser of split packets, the reassembly of a batch of fragments and the
    incremental [FragmentAssembler].  A clock reading is an argument of the
    operation that reads the clock; the mutexes make each operation one step. *)

From S2P Require Import Prelude GoBytes GoString Wire.

Definition ReliabilityUnreliable : Z := 0.
Definition ReliabilityUnreliableSequenced : Z := 1.
Definition ReliabilityReliable : Z := 2.
Definition ReliabilityReliableOrdered : Z := 3.
Definition ReliabilityReliableSequenced : Z := 4.

(** ** State *)

Record Fragment := {
  SplitID : Z;
  SplitIndex : Z;
  SplitCount : Z;
  Data : bytes;
  Received : gotime;
}.

(** Split identifier, then split index, to fragment. *)
Abbreviation fragments_map := (gmap Z (gmap Z Fragment)) (only parsing).

Record FragmentAssembler := {
  fragments : fragments_map;
  timeout : Z;
}.

Record RakNetHandler := {
  ServerGUID : Z;
  ServerID : string;
  fragmentAssembler : FragmentAssembler;
}.

Definition NewRakNetHandler (serverGUID : Z) (serverID : string) : RakNetHandler :=
  {| ServerGUID := serverGUID; ServerID := serverID;
     fragmentAssembler := {| fragments := ∅; timeout := 30 * second |} |}.

(** ** Unconnected ping *)

Definition buildUnconnectedPong (rh : RakNetHandler) (sendTimestamp : Z) : bytes :=
  [IDUnconnectedPong]
    ++ be_bytes 8 sendTimestamp
    ++ be_bytes 8 (ServerGUID rh)
    ++ RakNetMagic
    ++ be_bytes 2 (u16 (slen (ServerID rh)))
    ++ bytes_of (ServerID rh).

Definition HandleUnconnectedPing (rh : RakNetHandler) (data : bytes) : outcome proto_err bytes :=
  if zlen data <? 33 then Err ErrPacketTooShort else
  packetID ← index data 0;
  if bool_decide (packetID <> IDUnconnectedPing)
     && bool_decide (packetID <> IDUnconnectedPingOpenConn)
  then Err ErrInvalidPacket else
  magic ← slice data 9 25;
  if decide (magic = RakNetMagic) then
    sendTimestamp ← be_at data 1 9;
    Ret (buildUnconnectedPong rh (i64 sendTimestamp))
  else Err ErrInvalidMagic.

Definition UpdateServerID (rh : RakNetHandler) (serverID : string) : RakNetHandler :=
  {| ServerGUID := ServerGUID rh; ServerID := serverID;
     fragmentAssembler := fragmentAssembler rh |}.

(** ** Connection handshake *)

(** An IPv4 address of zeroes: family, four bytes and two bytes of port. *)
Definition address_placeholder : bytes := [x04; x00; x00; x00; x00; x00; x00].

Definition buildOpenConnectionReply1 (rh : RakNetHandler) (mtuSize : Z) : bytes :=
  [IDOpenConnectionReply1] ++ RakNetMagic ++ be_bytes 8 (ServerGUID rh)
    ++ [x00] ++ be_bytes 2 mtuSize.

Definition handleOpenConnectionRequest1 (rh : RakNetHandler) (data : bytes)
  : outcome proto_err bytes :=
  if zlen data <? 18 then Err ErrPacketTooShort else
  magic ← slice data 1 17;
  if decide (magic = RakNetMagic) then
    let mtuSize := u16 (zlen data + 28) in
    Ret (buildOpenConnectionReply1 rh mtuSize)
  else Err ErrInvalidMagic.

Definition buildOpenConnectionReply2 (rh : RakNetHandler) (mtuSize clientGUID : Z) : bytes :=
  [IDOpenConnectionReply2] ++ RakNetMagic ++ be_bytes 8 (ServerGUID rh)
    ++ address_placeholder ++ be_bytes 2 mtuSize ++ [x00].

Definition handleOpenConnectionRequest2 (rh : RakNetHandler) (data : bytes)
  : outcome proto_err bytes :=
  if zlen data <? 34 then Err ErrPacketTooShort else
  magic ← slice data 1 17;
  if decide (magic = RakNetMagic) then
    mtuSize ← be_at data 24 26;
    clientGUID ← be_at data 26 34;
    Ret (buildOpenConnectionReply2 rh mtuSize (i64 clientGUID))
  else Err ErrInvalidMagic.

Definition buildConnectionRequestAccepted (now : gotime) (clientGUID timestamp : Z) : bytes :=
  [IDConnectionRequestAccept]
    ++ address_placeholder
    ++ be_bytes 2 0
    ++ concat (replicate 10 address_placeholder)
    ++ be_bytes 8 timestamp
    ++ be_bytes 8 (unix_milli now).

Definition handleConnectionRequest (now : gotime) (data : bytes) : outcome proto_err bytes :=
  if zlen data <? 18 then Err ErrPacketTooShort else
  clientGUID ← be_at data 1 9;
  timestamp ← be_at data 9 17;
  Ret (buildConnectionRequestAccepted now (i64 clientGUID) (i64 timestamp)).

(** [None] is the [nil] reply to a packet that is not a connection request. *)
Definition HandleConnectionRequest (rh : RakNetHandler) (now : gotime) (data : bytes)
  : outcome proto_err (option bytes) :=
  if zlen data <? 1 then Err ErrPacketTooShort else
  packetID ← index data 0;
  if decide (packetID = IDOpenConnectionRequest1) then
    r ← handleOpenConnectionRequest1 rh data; Ret (Some r)
  else if decide (packetID = IDOpenConnectionRequest2) then
    r ← handleOpenConnectionRequest2 rh data; Ret (Some r)
  else if decide (packetID = IDConnectionRequest) then
    r ← handleConnectionRequest now data; Ret (Some r)
  else Ret None.

(** ** Frames *)

Definition GetPacketReliability (data : bytes) : outcome proto_err Z :=
  if zlen data <? 5 then Ret (-1) else
  packetID ← index data 0;
  if isFramedPacket packetID then
    reliabilityByte ← index data 4;
    Ret (frame_reliability reliabilityByte)
  else Ret (-1).

Definition parseFragment (now : gotime) (data : bytes) : outcome proto_err Fragment :=
  if zlen data <? 5 then Err ErrPacketTooShort else
  b ← index data 0;
  _ ← guard_err (isFramedPacket b) ErrInvalidFragment;
  let offset := 4 in
  if zlen data <=? offset then Err ErrPacketTooShort else
  reliabilityByte ← index data offset;
  let reliability := frame_reliability reliabilityByte in
  let hasSplit := frame_has_split reliabilityByte in
  let offset := offset + 1 in
  _ ← guard_err hasSplit ErrInvalidFragment;
  if zlen data <? offset + 2 then Err ErrPacketTooShort else
  bitLength ← be_at data offset (offset + 2);
  let byteLength := frame_byte_length bitLength in
  let offset := offset + 2 in
  let offset := skip_reliability reliability offset in
  if zlen data <? offset + 10 then Err ErrPacketTooShort else
  splitCount ← be_at data offset (offset + 4);
  let offset := offset + 4 in
  splitID ← be_at data offset (offset + 2);
  let offset := offset + 2 in
  splitIndex ← be_at data offset (offset + 4);
  let offset := offset + 4 in
  let endOffset := offset + byteLength in
  let endOffset := if zlen data <? endOffset then zlen data else endOffset in
  payload ← slice data offset endOffset;
  Ret {| SplitID := splitID; SplitIndex := splitIndex; SplitCount := splitCount;
         Data := payload; Received := now |}.

(** ** Reassembly *)

(** [indices], collected from the map in any order and sorted. *)
Definition sorted_indices (m : gmap Z Fragment) : list Z :=
  merge_sort Z.le (map_to_list m).*1.

(** The concatenation loop; every index comes from the map. *)
Definition assemble (m : gmap Z Fragment) : bytes :=
  concat ((fun idx => from_option Data [] (m !! idx)) <$> sorted_indices m).

(** The parsing loop, which skips the fragments that do not parse. *)
Fixpoint parse_fragments (now : gotime) (l : list bytes) : outcome proto_err (list Fragment) :=
  match l with
  | [] => Ret []
  | d :: l =>
      match parseFragment now d with
      | Panic => Panic
      | Err _ => parse_fragments now l
      | Ret frag => rest ← parse_fragments now l; Ret (frag :: rest)
      end
  end.

Definition fragment_map (splitID splitCount : Z) (l : list Fragment) : gmap Z Fragment :=
  fold_left (fun m frag =>
    if negb (SplitID frag =? splitID) then m else
    if splitCount <=? SplitIndex frag then m else
    <[SplitIndex frag := frag]> m) l ∅.

Definition ReassembleFragments (now : gotime) (frags : list bytes) : outcome proto_err bytes :=
  if zlen frags =? 0 then Err ErrFragmentMissing else
  parsedFragments ← parse_fragments now frags;
  match parsedFragments with
  | [] => Err ErrInvalidFragment
  | first :: _ =>
      let splitID := SplitID first in
      let splitCount := SplitCount first in
      let fragmentMap := fragment_map splitID splitCount parsedFragments in
      if u32 (Z.of_nat (size fragmentMap)) =? splitCount
      then Ret (assemble fragmentMap)
      else Err ErrFragmentMissing
  end.

(** The returned [([]byte, bool)] is [None] for [(nil, false)]. *)
Definition AddFragment (fa : FragmentAssembler) (frag : Fragment)
  : FragmentAssembler * option bytes :=
  let m := <[SplitIndex frag := frag]> (fragments fa !!! SplitID frag) in
  if u32 (Z.of_nat (size m)) =? SplitCount frag
  then ({| fragments := delete (SplitID frag) (fragments fa); timeout := timeout fa |},
        Some (assemble m))
  else ({| fragments := <[SplitID frag := m]> (fragments fa); timeout := timeout fa |}, None).

(** A split is stale when one of its fragments is. *)
Definition stale (now : gotime) (fa : FragmentAssembler) (frags : gmap Z Fragment) : Prop :=
  exists i frag, frags !! i = Some frag /\ timeout fa < time_sub now (Received frag).

Definition stale_b (now : gotime) (fa : FragmentAssembler) (frags : gmap Z Fragment) : bool :=
  existsb (fun kv => timeout fa <? time_sub now (Received (snd kv))) (map_to_list frags).

Definition Cleanup (now : gotime) (fa : FragmentAssembler) : FragmentAssembler :=
  {| fragments := filter (fun kv => stale_b now fa (snd kv) = false) (fragments fa);
     timeout := timeout fa |}.

(** ** Packet classes *)

Definition IsUnconnectedPacket (data : bytes) : outcome proto_err bool :=
  if zlen data <? 1 then Ret false else
  packetID ← index data 0;
  Ret (bool_decide (packetID ∈ [IDUnconnectedPing; IDUnconnectedPingOpenConn; IDUnconnectedPong;
         IDOpenConnectionRequest1; IDOpenConnectionReply1;
         IDOpenConnectionRequest2; IDOpenConnectionReply2])).

Definition IsConnectionPacket (data : bytes) : outcome proto_err bool :=
  if zlen data <? 1 then Ret false else
  packetID ← index data 0;
  Ret (bool_decide (packetID ∈ [IDConnectionRequest; IDConnectionRequestAccept;
         IDNewIncomingConnection; IDDisconnectNotification])).

(** * Facts *)

(** ** Replies *)

Lemma slice_eq_dec_safe {A} (data : bytes) lo hi (f : bytes -> outcome proto_err A) :
  0 <= lo <= hi -> hi <= zlen data -> (forall m, safe (f m)) -> safe (slice data lo hi ≫= f).
Proof. intros. rewrite slice_ok by lia. cbn. auto. Qed.

Lemma be_at_safe {E} data lo hi : 0 <= lo <= hi -> hi <= zlen data -> safe (be_at (E := E) data lo hi).
Proof. intros. destruct (be_at_ok (E := E) data lo hi) as (v & -> & _); auto with go. Qed.

#[export] Hint Resolve be_at_safe : go.

Ltac read_step :=
  first [ done | solve [auto with go]
        | apply bind_safe; [first [apply be_at_safe | apply slice_safe | apply index_safe]; lia|intros ? _]
        | case_decide | progress case_match ].

Lemma HandleConnectionRequest_total rh now data : safe (HandleConnectionRequest rh now data).
Proof.
  unfold HandleConnectionRequest. destruct (Z.ltb_spec (zlen data) 1); [auto with go|].
  index_ret 0.
  destruct (decide (b = IDOpenConnectionRequest1)).
  { apply bind_safe; [|auto with go]. unfold handleOpenConnectionRequest1.
    destruct (Z.ltb_spec (zlen data) 18); repeat read_step. }
  destruct (decide (b = IDOpenConnectionRequest2)).
  { apply bind_safe; [|auto with go]. unfold handleOpenConnectionRequest2.
    destruct (Z.ltb_spec (zlen data) 34); repeat read_step. }
  destruct (decide (b = IDConnectionRequest)); [|auto with go].
  apply bind_safe; [|auto with go]. unfold handleConnectionRequest.
  destruct (Z.ltb_spec (zlen data) 18); repeat read_step.
Qed.

(** ** Fragments *)

Lemma parseFragment_safe now data : safe (parseFragment now data).
Proof.
  unfold parseFragment. destruct (Z.ltb_spec (zlen data) 5); [auto with go|].
  index_ret 0. apply bind_safe; [auto with go|]. intros _ _.
  destruct (Z.leb_spec (zlen data) 4); [lia|]. index_ret 4.
  apply bind_safe; [auto with go|]. intros _ _.
  change (4 + 1 + 2) with 7. change (4 + 1) with 5.
  destruct (Z.ltb_spec (zlen data) 7); [auto with go|].
  apply bind_safe; [apply be_at_safe; lia|]. intros v _.
  pose proof (skip_reliability_bounds (frame_reliability b0) 7).
  set (o := skip_reliability _ _) in *.
  destruct (Z.ltb_spec (zlen data) (o + 10)); [auto with go|].
  do 3 (apply bind_safe; [apply be_at_safe; lia|]; intros ? _).
  pose proof (frame_byte_length_range v).
  apply bind_safe; [apply slice_safe; bool_cases; lia|]. auto with go.
Qed.

#[export] Hint Resolve parseFragment_safe : go.

Lemma parse_fragments_omap now l :
  parse_fragments now l
  = Ret (omap (fun d => match parseFragment now d with Ret f => Some f | _ => None end) l).
Proof.
  induction l as [|d l IH]; [done|]. cbn. rewrite IH.
  pose proof (parseFragment_safe now d).
  by destruct (parseFragment now d) as [f|e|].
Qed.

(** Sorting does not depend on the order in which the indices are collected. *)
Lemma sort_unique l k : Sorted Z.le k -> l ≡ₚ k -> merge_sort Z.le l = k.
Proof.
  intros Hk Hl. apply (Sorted_unique Z.le).
  - apply (Sorted_merge_sort Z.le).
  - done.
  - by rewrite merge_sort_Permutation.
Qed.

Lemma seqZ_sorted m n : Sorted Z.le (seqZ m n).
Proof.
  remember (Z.to_nat n) as k eqn:Hk. revert m n Hk.
  induction k as [|k IH]; intros m n Hk.
  - rewrite seqZ_nil by lia. constructor.
  - rewrite seqZ_cons by lia. constructor; [apply IH; lia|].
    destruct (decide (n = 1)) as [->|]; [rewrite seqZ_nil by lia; constructor|].
    rewrite seqZ_cons by lia. constructor. lia.
Qed.

Definition keyed (l : list Fragment) : list (Z * Fragment) := (fun f => (SplitIndex f, f)) <$> l.

Lemma keyed_fst l : (keyed l).*1 = SplitIndex <$> l.
Proof. unfold keyed. rewrite <- list_fmap_compose. done. Qed.

(** The fragments of a packet, in order. *)
Record packet_fragments (id : Z) (l : list Fragment) : Prop := {
  pf_nonempty : l <> [];
  pf_id : Forall (fun f => SplitID f = id) l;
  pf_count : Forall (fun f => SplitCount f = zlen l) l;
  pf_index : SplitIndex <$> l = seqZ 0 (zlen l);
  pf_width : zlen l < 2 ^ 32;
}.

Lemma assemble_perm l k :
  SplitIndex <$> l = seqZ 0 (zlen l) -> k ≡ₚ l ->
  assemble (list_to_map (keyed k)) = concat (Data <$> l).
Proof.
  intros Hi Hk.
  assert (NoDup (keyed l).*1) as Hnd by (rewrite keyed_fst, Hi; apply NoDup_seqZ).
  rewrite (list_to_map_proper (keyed k) (keyed l)).
  2: { rewrite keyed_fst, Hk, <- keyed_fst. done. }
  2: { unfold keyed. by rewrite Hk. }
  unfold assemble, sorted_indices. rewrite (sort_unique _ (SplitIndex <$> l)).
  - f_equal. rewrite <- list_fmap_compose. apply list_fmap_ext. intros i f Hf. cbn.
    rewrite (elem_of_list_to_map_1 (keyed l) (SplitIndex f) f); [done|done|].
    unfold keyed. apply list_elem_of_fmap. exists f. split; [done|].
    by eapply list_elem_of_lookup_2.
  - rewrite Hi. apply seqZ_sorted.
  - by rewrite map_to_list_to_map, keyed_fst by done.
Qed.

Lemma size_keyed l : NoDup (SplitIndex <$> l) -> size (list_to_map (keyed l) : gmap Z Fragment) = length l.
Proof.
  intros Hn. rewrite map_size_list_to_map by (by rewrite keyed_fst).
  unfold keyed. by rewrite length_fmap.
Qed.

Lemma fragment_map_filter id n l :
  fragment_map id n l = fragment_map id n (filter (fun f => SplitID f = id) l).
Proof.
  unfold fragment_map. generalize (∅ : gmap Z Fragment).
  induction l as [|f l IH]; intros m; [done|]. cbn [fold_left]. rewrite IH.
  rewrite filter_cons. case_decide as Hd; cbn [fold_left]; [done|].
  by rewrite (proj2 (Z.eqb_neq _ _)) by done.
Qed.

Lemma fragment_map_keyed id n l :
  Forall (fun f => SplitID f = id /\ SplitIndex f < n) l ->
  fragment_map id n l = list_to_map (keyed (rev l)).
Proof.
  unfold fragment_map. induction l as [|f l IH] using rev_ind; [done|].
  rewrite Forall_app, Forall_singleton. intros [Hl [Hid Hlt]].
  rewrite fold_left_app, IH by done. cbn [fold_left].
  rewrite Hid, Z.eqb_refl, (proj2 (Z.leb_gt _ _)) by lia. cbn [negb].
  by rewrite rev_app_distr.
Qed.

Lemma packet_fragments_elem id l f :
  packet_fragments id l -> f ∈ l ->
  SplitID f = id /\ SplitCount f = zlen l /\ 0 <= SplitIndex f < zlen l.
Proof.
  intros [_ Hid Hc Hi _] Hf. split; [by eapply Forall_forall in Hid|].
  split; [by eapply Forall_forall in Hc|].
  assert (SplitIndex f ∈ seqZ 0 (zlen l)) as Hs by (rewrite <- Hi; by apply list_elem_of_fmap_2).
  apply elem_of_seqZ in Hs. lia.
Qed.

Lemma fragment_map_packet id frags l :
  packet_fragments id frags -> filter (fun f => SplitID f = id) l ≡ₚ frags ->
  exists k, k ≡ₚ frags /\ fragment_map id (zlen frags) l = list_to_map (keyed k).
Proof.
  intros Hp Hl. exists (rev (filter (fun f => SplitID f = id) l)). split.
  { by rewrite Permutation_rev, rev_involutive. }
  rewrite fragment_map_filter. apply fragment_map_keyed.
  apply Forall_forall. intros f Hf. rewrite Hl in Hf.
  apply (packet_fragments_elem id) in Hf; [|done]. naive_solver lia.
Qed.

Lemma packet_size id frags k :
  packet_fragments id frags -> k ≡ₚ frags ->
  Z.of_nat (size (list_to_map (keyed k) : gmap Z Fragment)) = zlen frags.
Proof.
  intros [_ _ _ Hi _] Hk. rewrite size_keyed; [by rewrite Hk|].
  rewrite Hk, Hi. apply NoDup_seqZ.
Qed.

(** ** Reassembly of a batch *)

Definition parsed (now : gotime) (raw : list bytes) : list Fragment :=
  omap (fun d => match parseFragment now d with Ret f => Some f | _ => None end) raw.

Lemma parsed_nil_inv now raw l f : parsed now raw = f :: l -> zlen raw =? 0 = false.
Proof. destruct raw; [done|]. intros _. apply Z.eqb_neq. zlen_lia. Qed.

(** [ReassembleFragments] rebuilds a packet from its fragments in any order, with
    datagrams that do not parse and fragments of other packets mixed in, provided
    the first fragment that parses belongs to the packet. *)
Theorem ReassembleFragments_complete (now : gotime) (id : Z) (frags : list Fragment)
    (raw : list bytes) (first : Fragment) (others : list Fragment) :
  packet_fragments id frags ->
  parsed now raw = first :: others -> SplitID first = id ->
  filter (fun f => SplitID f = id) (parsed now raw) ≡ₚ frags ->
  ReassembleFragments now raw = Ret (concat (Data <$> frags)).
Proof.
  intros Hp Hr Hf Hl. unfold ReassembleFragments.
  rewrite (parsed_nil_inv _ _ _ _ Hr), parse_fragments_omap. fold (parsed now raw).
  cbn [mbind outcome_bind].
  assert (first ∈ frags) as Hin.
  { rewrite <- Hl, Hr. apply list_elem_of_filter. split; [done|left]. }
  destruct (packet_fragments_elem _ _ _ Hp Hin) as (_ & Hc & _).
  rewrite Hr at 1. cbn iota zeta. rewrite Hf, Hc.
  destruct (fragment_map_packet _ _ _ Hp Hl) as (k & Hk & ->).
  rewrite (packet_size id frags) by done. pose proof (pf_width _ _ Hp).
  rewrite wrapU_small, Z.eqb_refl by zlen_lia.
  f_equal. apply assemble_perm; [apply Hp|done].
Qed.

(** Two fragments, the second first, behind a stray datagram. *)
Definition example_fragment (i : Z) (d : byte) : bytes :=
  [x84; x00; x00; x00; x10; x00; x08; x00; x00; x00; x02; x00; x07] ++ be_bytes 4 i ++ [d].

Lemma ReassembleFragments_complete_witness :
  ReassembleFragments 0 [[xfe]; example_fragment 1 x42; example_fragment 0 x41] = Ret [x41; x42].
Proof.
  set (f i d := {| SplitID := 7; SplitIndex := i; SplitCount := 2; Data := [d]; Received := 0 |}).
  refine (ReassembleFragments_complete 0 7 [f 0 x41; f 1 x42] _ (f 1 x42) [f 0 x41] _ _ _ _);
    try reflexivity.
  - split; [done|by repeat constructor|by repeat constructor|reflexivity|reflexivity].
  - apply (perm_swap (f 0 x41) (f 1 x42)).
Defined.

Lemma fragment_map_lookup id n l i f :
  fragment_map id n l !! i = Some f -> f ∈ l /\ SplitID f = id /\ SplitIndex f = i /\ i < n.
Proof.
  unfold fragment_map. induction l as [|g l IH] using rev_ind; [done|].
  rewrite fold_left_app. cbn [fold_left]. rewrite elem_of_app, list_elem_of_singleton.
  destruct (Z.eqb_spec (SplitID g) id); cbn [negb]; [|naive_solver].
  destruct (Z.leb_spec n (SplitIndex g)); [naive_solver|].
  destruct (decide (i = SplitIndex g)) as [->|].
  - rewrite lookup_insert_eq. naive_solver.
  - rewrite lookup_insert_ne by done. naive_solver.
Qed.

Lemma fragment_map_size id n l : (size (fragment_map id n l) <= length l)%nat.
Proof.
  unfold fragment_map. induction l as [|g l IH] using rev_ind; [done|].
  rewrite fold_left_app, length_app. cbn [fold_left length].
  destruct (negb (SplitID g =? id)); [lia|]. destruct (n <=? SplitIndex g); [lia|].
  rewrite map_size_insert. destruct (_ !! _); unfold Datatypes.id; lia.
Qed.

Lemma be_at_Ret_range data lo hi v :
  be_at (E := proto_err) data lo hi = Ret v -> 0 <= v < 2 ^ (8 * (hi - lo)).
Proof.
  unfold be_at. intros (d & Hd & [= <-])%bind_Ret_inv.
  rewrite <- (slice_len _ _ _ _ Hd). apply be_uint_range.
Qed.

Lemma parseFragment_ranges now data f :
  parseFragment now data = Ret f ->
  0 <= SplitIndex f < 2 ^ 32 /\ 0 <= SplitCount f < 2 ^ 32 /\ 0 <= SplitID f < 2 ^ 16 /\
  Received f = now.
Proof.
  unfold parseFragment. destruct (zlen data <? 5); [done|].
  intros H. inv_ret. destruct (zlen data <=? 4); [done|]. inv_ret.
  change (4 + 1 + 2) with 7 in H. destruct (zlen data <? 7); [done|]. inv_ret.
  destruct (zlen data <? _); [done|]. inv_ret. cbn [SplitIndex SplitCount SplitID Received].
  repeat match goal with H : be_at _ _ _ = Ret _ |- _ => apply be_at_Ret_range in H end.
  set (o := skip_reliability _ _) in *.
  replace (8 * (o + 4 - o)) with 32 in * by lia.
  replace (8 * (o + 4 + 2 - (o + 4))) with 16 in * by lia.
  replace (8 * (o + 4 + 2 + 4 - (o + 4 + 2))) with 32 in * by lia.
  auto.
Qed.

(** The map holds every index below the count when its size is the count. *)
Lemma full_map (m : gmap Z Fragment) n :
  0 <= n -> Z.of_nat (size m) = n -> (forall i f, m !! i = Some f -> 0 <= i < n) ->
  (map_to_list m).*1 ≡ₚ seqZ 0 n.
Proof.
  intros Hn Hs Hm. apply submseteq_length_Permutation.
  - apply NoDup_submseteq; [apply NoDup_fst_map_to_list|].
    intros i Hi. apply list_elem_of_fmap in Hi as ([j f] & -> & Hj).
    apply elem_of_map_to_list, Hm in Hj. apply elem_of_seqZ. cbn. lia.
  - rewrite length_fmap, length_map_to_list, length_seqZ. lia.
Qed.

(** The fragments of a map at given indices. *)
Lemma collect (m : gmap Z Fragment) (P : Fragment -> Prop) l :
  (forall i f, m !! i = Some f -> SplitIndex f = i /\ P f) ->
  (forall i, i ∈ l -> is_Some (m !! i)) ->
  SplitIndex <$> omap (fun i => m !! i) l = l /\
  Forall P (omap (fun i => m !! i) l) /\
  concat ((fun i => from_option Data [] (m !! i)) <$> l) = concat (Data <$> omap (fun i => m !! i) l).
Proof.
  intros Hm. induction l as [|i l IH]; intros Hi; [done|].
  destruct IH as (IH1 & IH2 & IH3); [intros j Hj; apply Hi; by right|].
  destruct (Hi i ltac:(left)) as [f Hf]. cbn. rewrite Hf. cbn.
  apply Hm in Hf as (<- & ?). rewrite IH1, IH3. auto.
Qed.

Lemma length_parsed now raw : (length (parsed now raw) <= length raw)%nat.
Proof.
  unfold parsed. induction raw as [|d raw IH]; [done|]. cbn.
  destruct (parseFragment now d); cbn; lia.
Qed.

(** What [ReassembleFragments] returns is complete: each index below the split count
    of the first fragment that parses was received for its split identifier, and
    the result is the concatenation of one such fragment per index, in order. *)
Theorem ReassembleFragments_sound (now : gotime) (raw : list bytes) (p : bytes) :
  zlen raw < 2 ^ 32 -> ReassembleFragments now raw = Ret p ->
  exists first others frags,
    parsed now raw = first :: others /\
    SplitIndex <$> frags = seqZ 0 (SplitCount first) /\
    Forall (fun f => f ∈ parsed now raw /\ SplitID f = SplitID first) frags /\
    p = concat (Data <$> frags).
Proof.
  intros Hw. unfold ReassembleFragments. destruct (zlen raw =? 0); [done|].
  rewrite parse_fragments_omap. fold (parsed now raw). cbn [mbind outcome_bind].
  destruct (parsed now raw) as [|f0 others] eqn:Hr; [done|].
  set (m := fragment_map _ _ _). destruct (Z.eqb_spec (u32 (Z.of_nat (size m))) (SplitCount f0)) as [E|]; [|done].
  intros [= <-].
  assert (forall f, f ∈ f0 :: others -> 0 <= SplitIndex f < 2 ^ 32) as Hrange.
  { intros f Hf. rewrite <- Hr in Hf. unfold parsed in Hf.
    apply list_elem_of_omap in Hf as (d & _ & Hd).
    destruct (parseFragment now d) as [g| |] eqn:Hg; [|done..]. injection Hd as <-.
    by apply parseFragment_ranges in Hg as (? & _). }
  assert (length (f0 :: others) <= length raw)%nat as Hlen by (rewrite <- Hr; apply length_parsed).
  rewrite wrapU_small in E.
  2: { pose proof (fragment_map_size (SplitID f0) (SplitCount f0) (f0 :: others)) as Hsz.
       fold m in Hsz. unfold zlen in Hw. lia. }
  assert (forall i f, m !! i = Some f -> f ∈ f0 :: others /\ SplitID f = SplitID f0 /\ SplitIndex f = i
            /\ 0 <= i < SplitCount f0) as Hm.
  { intros i f Hif. apply fragment_map_lookup in Hif as (Hin & ? & <- & ?).
    specialize (Hrange f Hin). auto with lia. }
  pose proof (full_map m (SplitCount f0) ltac:(lia) E ltac:(intros i f Hi; apply Hm in Hi; lia)) as Hfull.
  assert (sorted_indices m = seqZ 0 (SplitCount f0)) as Hsort.
  { apply sort_unique; [apply seqZ_sorted|done]. }
  exists f0, others, (omap (fun i => m !! i) (seqZ 0 (SplitCount f0))). split; [done|].
  destruct (collect m (fun f => f ∈ f0 :: others /\ SplitID f = SplitID f0) (seqZ 0 (SplitCount f0)))
    as (-> & H2 & H3).
  { intros i f Hi. apply Hm in Hi. naive_solver. }
  - intros i Hi. rewrite <- Hfull in Hi. apply list_elem_of_fmap in Hi as ([j f] & -> & Hj).
    apply elem_of_map_to_list in Hj. by exists f.
  - split; [done|]. split; [exact H2|]. unfold assemble. by rewrite Hsort, H3.
Qed.

Lemma ReassembleFragments_sound_witness :
  exists frags, SplitIndex <$> frags = seqZ 0 2 /\ [x41; x42] = concat (Data <$> frags).
Proof.
  destruct (ReassembleFragments_sound 0 [example_fragment 1 x42; example_fragment 0 x41] [x41; x42])
    as (f & o & frags & Hf & Hi & _ & Hc); [reflexivity|reflexivity|].
  vm_compute in Hf. injection Hf as <- <-. by exists frags.
Defined.

(** A datagram that carries one fragment. *)
Definition fragment_datagram (header : bytes) (flags : byte) (extra : bytes) (f : Fragment)
    (rest : bytes) : bytes :=
  header ++ [flags] ++ be_bytes 2 (8 * zlen (Data f)) ++ extra
    ++ be_bytes 4 (SplitCount f) ++ be_bytes 2 (SplitID f) ++ be_bytes 4 (SplitIndex f)
    ++ Data f ++ rest.

(** [parseFragment] recovers the split header and exactly the fragment's bytes, for
    every reliability and whatever follows the fragment in the datagram. *)
Theorem parseFragment_roundtrip (now : gotime) (id : byte) (seq : bytes) (flags : byte)
    (extra : bytes) (f : Fragment) (rest : bytes) :
  isFramedPacket id = true -> zlen seq = 3 -> frame_has_split flags = true ->
  zlen extra = skip_reliability (frame_reliability flags) 0 ->
  0 <= SplitCount f < 2 ^ 32 -> 0 <= SplitIndex f < 2 ^ 32 -> 0 <= SplitID f < 2 ^ 16 ->
  zlen (Data f) < 8191 ->
  parseFragment now (fragment_datagram (id :: seq) flags extra f rest)
  = Ret {| SplitID := SplitID f; SplitIndex := SplitIndex f; SplitCount := SplitCount f;
           Data := Data f; Received := now |}.
Proof.
  intros Hid Hs Hf He Hc Hi Hd Hl. unfold parseFragment, fragment_datagram.
  assert (zlen (id :: seq) = 4) as Hh by zlen_lia.
  pose proof (zlen_nonneg extra). pose proof (zlen_nonneg (Data f)). pose proof (zlen_nonneg rest).
  rewrite (proj2 (Z.ltb_ge _ 5)) by zlen_lia.
  change (index ((id :: seq) ++ ?k) 0) with (Ret (E := proto_err) id).
  cbn [mbind outcome_bind]. rewrite Hid. cbn [guard_err mbind outcome_bind].
  rewrite (proj2 (Z.leb_gt _ 4)) by zlen_lia.
  set (h := id :: seq) in *. clearbody h. cbn [app].
  rewrite (index_app h flags) by lia. cbn [mbind outcome_bind].
  change (h ++ flags :: ?k) with (h ++ [flags] ++ k).
  rewrite Hf. cbn [guard_err mbind outcome_bind].
  change (4 + 1 + 2) with 7. change (4 + 1) with 5.
  rewrite (proj2 (Z.ltb_ge _ 7)) by zlen_lia.
  rewrite (app_assoc h), (be_at_app (h ++ [flags]) _ _ 5 7) by zlen_lia. cbn [mbind outcome_bind].
  pose proof (zlen_nonneg (Data f)).
  rewrite be_uint_be_bytes, wrapU_small by (change (2 ^ _) with 65536; lia).
  rewrite frame_byte_length_exact by lia.
  rewrite skip_reliability_shift, <- He. set (o := 7 + zlen extra).
  rewrite (proj2 (Z.ltb_ge _ (o + 10))) by (unfold o; zlen_lia).
  rewrite (app_assoc (h ++ [flags])), (app_assoc ((h ++ [flags]) ++ _)).
  rewrite (be_at_app (((h ++ [flags]) ++ _) ++ _) _ _ o (o + 4)) by (unfold o; zlen_lia).
  rewrite be_uint_be_bytes, wrapU_small by (change (2 ^ _) with (2 ^ 32); lia). cbn [mbind outcome_bind].
  rewrite (app_assoc (((_ ++ _) ++ _) ++ extra)), (be_at_app ((((_ ++ _) ++ _) ++ extra) ++ _) _ _ (o + 4) (o + 4 + 2)) by (unfold o; zlen_lia).
  rewrite be_uint_be_bytes, wrapU_small by (change (2 ^ _) with (2 ^ 16); lia). cbn [mbind outcome_bind].
  rewrite (app_assoc ((((_ ++ _) ++ _) ++ extra) ++ _)), (be_at_app (((((_ ++ _) ++ _) ++ extra) ++ _) ++ _) _ _ (o + 4 + 2) (o + 4 + 2 + 4))
    by (unfold o; zlen_lia).
  rewrite be_uint_be_bytes, wrapU_small by (change (2 ^ _) with (2 ^ 32); lia). cbn [mbind outcome_bind].
  rewrite (proj2 (Z.ltb_ge _ (_ + zlen (Data f)))) by (unfold o; zlen_lia).
  rewrite (app_assoc (((((_ ++ _) ++ _) ++ extra) ++ _) ++ _)), slice_app by (unfold o; zlen_lia).
  reflexivity.
Qed.

Lemma parseFragment_roundtrip_witness :
  parseFragment 5 (fragment_datagram [x84; x01; x00; x00] x50 [x00; x00; x00]
    {| SplitID := 7; SplitIndex := 0; SplitCount := 2; Data := [x41; x42]; Received := 0 |} [xff])
  = Ret {| SplitID := 7; SplitIndex := 0; SplitCount := 2; Data := [x41; x42]; Received := 5 |}.
Proof.
  apply (parseFragment_roundtrip 5 x84 [x01; x00; x00] x50 [x00; x00; x00]
    {| SplitID := 7; SplitIndex := 0; SplitCount := 2; Data := [x41; x42]; Received := 0 |} [xff]);
    try reflexivity; cbn; lia.
Defined.

(** ** Incremental assembly *)

(** The packets delivered by a sequence of fragments, with their split
    identifiers, and the final assembler. *)
Fixpoint deliver (fa : FragmentAssembler) (l : list Fragment)
  : FragmentAssembler * list (Z * bytes) :=
  match l with
  | [] => (fa, [])
  | f :: l =>
      let '(fa, r) := AddFragment fa f in
      let '(fa, rs) := deliver fa l in
      (fa, match r with Some p => (SplitID f, p) :: rs | None => rs end)
  end.

Definition of_split (id : Z) (l : list (Z * bytes)) : list (Z * bytes) :=
  filter (fun p => p.1 = id) l.

(** A fragment of another packet changes neither the state nor the deliveries of
    packet [id]. *)
Lemma AddFragment_other fa f id :
  SplitID f <> id -> fragments (AddFragment fa f).1 !! id = fragments fa !! id.
Proof.
  intros Hf. unfold AddFragment. destruct (_ =? _); cbn [fst fragments].
  - by rewrite lookup_delete_ne.
  - by rewrite lookup_insert_ne.
Qed.

Lemma deliver_none fa l id :
  filter (fun f => SplitID f = id) l = [] ->
  fragments (deliver fa l).1 !! id = fragments fa !! id /\ of_split id (deliver fa l).2 = [].
Proof.
  revert fa. induction l as [|f l IH]; intros fa Hl; [done|]. cbn [deliver].
  rewrite filter_cons in Hl. case_decide as Hf; [done|].
  pose proof (AddFragment_other fa f id Hf) as Ha.
  destruct (AddFragment fa f) as [fa1 r]. cbn in Ha.
  destruct (IH fa1 Hl) as [IH1 IH2]. destruct (deliver fa1 l) as [fa2 rs]. cbn [fst snd] in *.
  split; [congruence|]. destruct r; [|done]. unfold of_split. by rewrite filter_cons_False.
Qed.

(** The state of packet [id] after some of its fragments. *)
Definition holds (fa : FragmentAssembler) (id : Z) (got : list Fragment) : Prop :=
  fragments fa !!! id = list_to_map (keyed got).

(** One more fragment of the packet, not the last one, and the last one. *)
Lemma AddFragment_more fa id frags got f rest :
  packet_fragments id frags -> got ++ f :: rest ≡ₚ frags -> rest <> [] -> holds fa id got ->
  exists fa', AddFragment fa f = (fa', None) /\ holds fa' id (f :: got).
Proof.
  intros Hp Hperm Hne Hh.
  destruct (packet_fragments_elem id frags f Hp) as (Hid & Hc & _); [rewrite <- Hperm; set_solver|].
  unfold AddFragment. rewrite Hid, Hh. change (<[SplitIndex f:=f]> (list_to_map (keyed got)))
    with (list_to_map (keyed (f :: got)) : gmap Z Fragment).
  assert (NoDup (SplitIndex <$> f :: got)) as Hnd.
  { assert (NoDup (SplitIndex <$> got ++ f :: rest)) as Hnd
      by (rewrite Hperm, (pf_index _ _ Hp); apply NoDup_seqZ).
    rewrite <- Permutation_middle, app_comm_cons, fmap_app in Hnd. by apply NoDup_app in Hnd as [? _]. }
  rewrite size_keyed, Hc by done.
  apply Permutation_length in Hperm as Hlen. rewrite length_app in Hlen. cbn [length] in Hlen.
  assert (length rest <> 0%nat) by (by destruct rest).
  pose proof (pf_width _ _ Hp) as Hw. unfold zlen in *. cbn [length].
  rewrite wrapU_small by lia. rewrite (proj2 (Z.eqb_neq _ _)) by lia.
  eexists; split; [done|]. unfold holds. cbn [fragments]. by rewrite lookup_total_insert_eq.
Qed.

Lemma AddFragment_last fa id frags got f :
  packet_fragments id frags -> f :: got ≡ₚ frags -> holds fa id got ->
  exists fa', AddFragment fa f = (fa', Some (concat (Data <$> frags))) /\ fragments fa' !! id = None.
Proof.
  intros Hp Hperm Hh.
  destruct (packet_fragments_elem id frags f Hp) as (Hid & Hc & _); [rewrite <- Hperm; set_solver|].
  unfold AddFragment. rewrite Hid, Hh. change (<[SplitIndex f:=f]> (list_to_map (keyed got)))
    with (list_to_map (keyed (f :: got)) : gmap Z Fragment).
  rewrite (packet_size id frags), Hc by done. pose proof (pf_width _ _ Hp).
  rewrite wrapU_small, Z.eqb_refl by zlen_lia.
  rewrite (assemble_perm frags) by first [apply Hp | done].
  eexists; split; [done|]. cbn. apply lookup_delete_eq.
Qed.

Lemma deliver_packet id frags l fa got :
  packet_fragments id frags ->
  got ++ filter (fun f => SplitID f = id) l ≡ₚ frags ->
  filter (fun f => SplitID f = id) l <> [] ->
  holds fa id got ->
  of_split id (deliver fa l).2 = [(id, concat (Data <$> frags))] /\
  fragments (deliver fa l).1 !! id = None.
Proof.
  intros Hp. revert fa got. induction l as [|f l IH]; intros fa got Hperm Hne Hh; [done|].
  rewrite filter_cons in Hperm, Hne. cbn [deliver]. case_decide as Hf.
  - destruct (decide (filter (fun f => SplitID f = id) l = [])) as [Hl|Hl].
    + rewrite Hl in Hperm. rewrite (Permutation_app_comm got [f]) in Hperm.
      destruct (AddFragment_last fa id frags got f) as (fa1 & -> & Hn); [done..|].
      destruct (deliver_none fa1 l id Hl) as [H1 H2]. destruct (deliver fa1 l) as [fa2 rs].
      cbn [fst snd] in *. unfold of_split in *. rewrite filter_cons_True by done. rewrite H2, Hf.
      split; [done|congruence].
    + destruct (AddFragment_more fa id frags got f (filter (fun f => SplitID f = id) l))
        as (fa1 & -> & Hh1); [done..|].
      specialize (IH fa1 (f :: got)). destruct (deliver fa1 l) as [fa2 rs]. apply IH; [|done|done].
      rewrite <- Hperm. cbn. apply Permutation_middle.
  - pose proof (AddFragment_other fa f id Hf) as Ha.
    destruct (AddFragment fa f) as [fa1 r]. cbn in Ha.
    assert (holds fa1 id got) as Hh1 by (unfold holds, lookup_total, map_lookup_total in *; by rewrite Ha).
    specialize (IH fa1 got Hperm Hne Hh1). destruct (deliver fa1 l) as [fa2 rs]. cbn [fst snd] in *.
    destruct r; [|done]. unfold of_split in *. by rewrite filter_cons_False.
Qed.

(** However the fragments of a packet are ordered and interleaved with fragments of
    other packets, [AddFragment] delivers the packet exactly once, reassembled in
    order, and keeps nothing of it. *)
Theorem AddFragment_interleaved (fa : FragmentAssembler) (id : Z) (frags l : list Fragment) :
  packet_fragments id frags -> fragments fa !! id = None ->
  filter (fun f => SplitID f = id) l ≡ₚ frags ->
  of_split id (deliver fa l).2 = [(id, concat (Data <$> frags))] /\
  fragments (deliver fa l).1 !! id = None.
Proof.
  intros Hp Hn Hl. apply (deliver_packet id frags l fa []); [done|done| |].
  - intros E. rewrite E in Hl. by apply Permutation_nil_l, symmetry in Hl; destruct Hp.
  - unfold holds, lookup_total, map_lookup_total. by rewrite Hn.
Qed.

Lemma AddFragment_interleaved_witness :
  let f id i d := {| SplitID := id; SplitIndex := i; SplitCount := 2; Data := [d]; Received := 0 |} in
  of_split 7 (deliver (fragmentAssembler (NewRakNetHandler 1 "x"))
    [f 7 1 x42; f 8 0 x43; f 7 0 x41; f 8 1 x44]).2 = [(7, [x41; x42])].
Proof.
  intros f.
  refine (proj1 (AddFragment_interleaved _ 7 [f 7 0 x41; f 7 1 x42] _ _ _ _)).
  - split; [done|by repeat constructor|by repeat constructor|reflexivity|reflexivity].
  - reflexivity.
  - apply (perm_swap (f 7 0 x41) (f 7 1 x42)).
Defined.

(** Unlike [ReassembleFragments], [AddFragment] counts a fragment whose index is not
    below the split count: here the packet is delivered without its fragment 0. *)
Example AddFragment_index_unchecked :
  let f i d := {| SplitID := 7; SplitIndex := i; SplitCount := 2; Data := [d]; Received := 0 |} in
  (deliver (fragmentAssembler (NewRakNetHandler 1 "x")) [f 1 x42; f 9 x43]).2 = [(7, [x42; x43])].
Proof. vm_compute. reflexivity. Qed.

(** [Cleanup] keeps exactly the splits none of whose fragments is older than the
    timeout, unchanged. *)
Theorem Cleanup_spec (now : gotime) (fa : FragmentAssembler) (id : Z) (m : gmap Z Fragment) :
  fragments (Cleanup now fa) !! id = Some m <->
  fragments fa !! id = Some m /\ ~ stale now fa m.
Proof.
  unfold Cleanup. cbn [fragments]. rewrite map_lookup_filter_Some. cbn [snd].
  assert (stale_b now fa m = true <-> stale now fa m) as Hs.
  { unfold stale_b, stale. rewrite existsb_exists. split.
    - intros ([i f] & Hin & ?). bool_prop. exists i, f.
      apply list_elem_of_In, elem_of_map_to_list in Hin. auto.
    - intros (i & f & Hin & ?). exists (i, f). split.
      + by apply list_elem_of_In, elem_of_map_to_list.
      + by apply Z.ltb_lt. }
  destruct (stale_b now fa m); naive_solver.
Qed.

(** ** Ping and handshake *)

(** The ping of a client. *)
Definition ping_packet (id : byte) (timestamp guid : Z) (rest : bytes) : bytes :=
  [id] ++ be_bytes 8 timestamp ++ RakNetMagic ++ be_bytes 8 guid ++ rest.

(** A client's reading of a pong: timestamp, server GUID, magic and server identifier. *)
Definition read_pong (data : bytes) : outcome proto_err (byte * Z * Z * bytes * string) :=
  id ← index data 0;
  ts ← be_at data 1 9;
  guid ← be_at data 9 17;
  magic ← slice data 17 33;
  n ← be_at data 33 35;
  name ← slice data 35 (35 + n);
  Ret (id, i64 ts, i64 guid, magic, string_of name).

Lemma read_pong_build rh ts :
  - 2 ^ 63 <= ts < 2 ^ 63 -> - 2 ^ 63 <= ServerGUID rh < 2 ^ 63 -> slen (ServerID rh) < 2 ^ 16 ->
  read_pong (buildUnconnectedPong rh ts)
  = Ret (IDUnconnectedPong, ts, ServerGUID rh, RakNetMagic, ServerID rh).
Proof.
  intros Hts Hg Hl. pose proof (zlen_nonneg (bytes_of (ServerID rh))) as Hn.
  unfold read_pong, buildUnconnectedPong, slen in *.
  rewrite (wrapU_small 16) by (change (2 ^ 16) with 65536 in *; lia).
  set (s := bytes_of (ServerID rh)) in *. change (zlen RakNetMagic) with 16.
  set (m := RakNetMagic). assert (zlen m = 16) as Hm by done.
  change (index ([IDUnconnectedPong] ++ ?k) 0) with (Ret (E := proto_err) IDUnconnectedPong). cbn [mbind outcome_bind].
  rewrite (be_at_app [_] _ _ 1 9) by zlen_lia. cbn [mbind outcome_bind].
  rewrite (app_assoc [_]), (be_at_app ([_] ++ _) _ _ 9 17) by zlen_lia. cbn [mbind outcome_bind].
  rewrite (app_assoc ([_] ++ _)), (slice_app (([_] ++ _) ++ _) m _ 17 33) by zlen_lia.
  cbn [mbind outcome_bind].
  rewrite (app_assoc (([_] ++ _) ++ _)), (be_at_app ((([_] ++ _) ++ _) ++ m) _ _ 33 35) by zlen_lia.
  cbn [mbind outcome_bind].
  rewrite (be_uint_be_bytes 2), (wrapU_small _ (zlen s)) by (change (2 ^ (8 * Z.of_nat 2)) with (2 ^ 16); lia).
  rewrite (app_assoc ((([_] ++ _) ++ _) ++ m)), <- (app_nil_r s), slice_app by zlen_lia.
  cbn [mbind outcome_bind]. rewrite !be_uint_be_bytes.
  change (8 * Z.of_nat 8) with 64. rewrite !wrapS_wrapU, !wrapS_small by (change (64 - 1) with 63; lia).
  unfold s. by rewrite string_of_bytes_of.
Qed.

(** A ping is answered by a pong in which a client reads its own timestamp, the
    server's GUID, the magic and the whole server identifier. *)
Theorem HandleUnconnectedPing_pong (rh : RakNetHandler) (id : byte) (ts guid : Z) (rest : bytes) :
  id = IDUnconnectedPing \/ id = IDUnconnectedPingOpenConn ->
  - 2 ^ 63 <= ts < 2 ^ 63 -> - 2 ^ 63 <= ServerGUID rh < 2 ^ 63 -> slen (ServerID rh) < 2 ^ 16 ->
  exists pong,
    HandleUnconnectedPing rh (ping_packet id ts guid rest) = Ret pong /\
    read_pong pong = Ret (IDUnconnectedPong, ts, ServerGUID rh, RakNetMagic, ServerID rh).
Proof.
  intros Hid Hts Hg Hl. eexists; split; [|by apply read_pong_build].
  unfold HandleUnconnectedPing, ping_packet.
  set (m := RakNetMagic). assert (zlen m = 16) as Hm by done.
  rewrite (proj2 (Z.ltb_ge _ 33)) by zlen_lia.
  change (index ([id] ++ ?k) 0) with (Ret (E := proto_err) id). cbn [mbind outcome_bind].
  replace (bool_decide (id <> IDUnconnectedPing) && bool_decide (id <> IDUnconnectedPingOpenConn))
    with false by (by destruct Hid as [-> | ->]).
  rewrite (be_at_app [id] _ _ 1 9) by zlen_lia.
  rewrite (app_assoc [id]), (slice_app ([id] ++ _) m _ 9 25) by zlen_lia. cbn [mbind outcome_bind].
  rewrite decide_True by done. rewrite be_uint_be_bytes.
  change (8 * Z.of_nat 8) with 64. by rewrite wrapS_wrapU, wrapS_small.
Qed.

Lemma HandleUnconnectedPing_pong_witness :
  exists pong,
    HandleUnconnectedPing (NewRakNetHandler 99 "MCPE") (ping_packet x01 (-3) 7 []) = Ret pong /\
    read_pong pong = Ret (IDUnconnectedPong, -3, 99, RakNetMagic, "MCPE").
Proof.
  apply (HandleUnconnectedPing_pong (NewRakNetHandler 99 "MCPE") x01 (-3) 7 []); [by left|lia|cbn; lia|reflexivity].
Defined.

(** [HandleConnectionRequest] never panics and answers every well-formed handshake
    packet with the reply of the next step: the first reply carries the
    datagram's length plus 28 as MTU, the second the client's MTU, the last one the
    client's timestamp. *)
Theorem HandleConnectionRequest_replies (rh : RakNetHandler) (now : gotime) :
  (forall data, safe (HandleConnectionRequest rh now data)) /\
  (forall version padding,
     HandleConnectionRequest rh now ([IDOpenConnectionRequest1] ++ RakNetMagic ++ [version] ++ padding)
     = Ret (Some (buildOpenConnectionReply1 rh (u16 (46 + zlen padding))))) /\
  (forall address mtu guid rest, zlen address = 7 -> 0 <= mtu < 2 ^ 16 -> - 2 ^ 63 <= guid < 2 ^ 63 ->
     HandleConnectionRequest rh now
       ([IDOpenConnectionRequest2] ++ RakNetMagic ++ address ++ be_bytes 2 mtu ++ be_bytes 8 guid ++ rest)
     = Ret (Some (buildOpenConnectionReply2 rh mtu guid))) /\
  (forall guid ts rest, - 2 ^ 63 <= guid < 2 ^ 63 -> - 2 ^ 63 <= ts < 2 ^ 63 -> 1 <= zlen rest ->
     HandleConnectionRequest rh now ([IDConnectionRequest] ++ be_bytes 8 guid ++ be_bytes 8 ts ++ rest)
     = Ret (Some (buildConnectionRequestAccepted now guid ts))).
Proof.
  set (m := RakNetMagic). assert (zlen m = 16) as Hm by done.
  split; [apply HandleConnectionRequest_total|]. unfold HandleConnectionRequest.
  split; [|split].
  - intros version padding. rewrite (proj2 (Z.ltb_ge _ 1)) by zlen_lia.
    change (index ([IDOpenConnectionRequest1] ++ ?k) 0) with (Ret (E := proto_err) IDOpenConnectionRequest1). cbn [mbind outcome_bind].
    rewrite decide_True by done. unfold handleOpenConnectionRequest1.
    rewrite (proj2 (Z.ltb_ge _ 18)) by zlen_lia.
    rewrite slice_app by zlen_lia. cbn [mbind outcome_bind]. rewrite decide_True by done.
    cbn [mbind outcome_bind]. 
    match goal with |- context [zlen ?l + 28] =>
      by replace (zlen l + 28) with (46 + zlen padding) by zlen_lia end.
  - intros address mtu guid rest Ha Hu Hg. rewrite (proj2 (Z.ltb_ge _ 1)) by zlen_lia.
    change (index ([IDOpenConnectionRequest2] ++ ?k) 0) with (Ret (E := proto_err) IDOpenConnectionRequest2). cbn [mbind outcome_bind].
    rewrite decide_False, decide_True by done. unfold handleOpenConnectionRequest2.
    rewrite (proj2 (Z.ltb_ge _ 34)) by zlen_lia.
    rewrite slice_app by zlen_lia. cbn [mbind outcome_bind]. rewrite decide_True by done.
    rewrite (app_assoc [_]), (app_assoc ([_] ++ _)), (be_at_app (([_] ++ _) ++ _) _ _ 24 26) by zlen_lia.
    cbn [mbind outcome_bind].
    rewrite (app_assoc (([_] ++ _) ++ _)), be_at_app by zlen_lia. cbn [mbind outcome_bind].
    rewrite !be_uint_be_bytes, (wrapU_small _ mtu) by (change (2 ^ _) with (2 ^ 16); lia).
    change (8 * Z.of_nat 8) with 64. by rewrite wrapS_wrapU, wrapS_small.
  - intros guid ts rest Hg Ht Hr. rewrite (proj2 (Z.ltb_ge _ 1)) by zlen_lia.
    change (index ([IDConnectionRequest] ++ ?k) 0) with (Ret (E := proto_err) IDConnectionRequest). cbn [mbind outcome_bind].
    rewrite decide_False, decide_False, decide_True by done. unfold handleConnectionRequest.
    rewrite (proj2 (Z.ltb_ge _ 18)) by zlen_lia.
    rewrite (be_at_app [_] _ _ 1 9) by zlen_lia. cbn [mbind outcome_bind].
    rewrite (app_assoc [_]), be_at_app by zlen_lia. cbn [mbind outcome_bind].
    rewrite !be_uint_be_bytes. change (8 * Z.of_nat 8) with 64.
    by rewrite !wrapS_wrapU, !wrapS_small.
Qed.
