(* ===== verification/Session.v ===== *)
(** * A client session: [internal/session/session.go]

    The fields of [Session] and its locked operations.  The two mutexes of a
    session make each operation one step on the record; [forwardMu] protects no
    field.  The login buffer is [None] when it is [nil]. *)

From S2P Require Import Prelude GoBytes GoString.

(** A [*net.UDPConn], by identity. *)
Abbreviation udp_conn := nat (only parsing).

Record Session := {
  ID : string;
  ClientAddr : string;
  RemoteConn : option udp_conn;
  ServerID : string;
  UUID : string;
  DisplayName : string;
  XUID : string;
  BytesUp : Z;
  BytesDown : Z;
  StartTime : gotime;
  LastSeen : gotime;
  LoginBuffer : option bytes;
  LoginExtracted : bool;
  DisconnectStatus : string;
  DisconnectReason : string;
}.

Record SessionSnapshot := {
  snap_ID : string;
  snap_ClientAddr : string;
  snap_ServerID : string;
  snap_UUID : string;
  snap_DisplayName : string;
  snap_XUID : string;
  snap_BytesUp : Z;
  snap_BytesDown : Z;
  snap_StartTime : gotime;
  snap_LastSeen : gotime;
  snap_DisconnectStatus : string;
  snap_DisconnectReason : string;
}.

Record SessionDTO := {
  dto_ID : string;
  dto_ClientAddr : string;
  dto_ServerID : string;
  dto_UUID : string;
  dto_DisplayName : string;
  dto_XUID : string;
  dto_BytesUp : Z;
  dto_BytesDown : Z;
  dto_StartTime : gotime;
  dto_Duration : Z;
}.

(** The arguments of [logger.LogPlayerConnect]. *)
Record player_connect := {
  pc_name : string;
  pc_uuid : string;
  pc_xuid : string;
  pc_client : string;
}.

Definition Snapshot (s : Session) : SessionSnapshot :=
  {| snap_ID := ID s; snap_ClientAddr := ClientAddr s; snap_ServerID := ServerID s;
     snap_UUID := UUID s; snap_DisplayName := DisplayName s; snap_XUID := XUID s;
     snap_BytesUp := BytesUp s; snap_BytesDown := BytesDown s;
     snap_StartTime := StartTime s; snap_LastSeen := LastSeen s;
     snap_DisconnectStatus := DisconnectStatus s; snap_DisconnectReason := DisconnectReason s |}.

(** Field updates. *)
Definition with_bytes (up down : Z) (s : Session) : Session :=
  {| ID := ID s; ClientAddr := ClientAddr s; RemoteConn := RemoteConn s; ServerID := ServerID s;
     UUID := UUID s; DisplayName := DisplayName s; XUID := XUID s;
     BytesUp := up; BytesDown := down; StartTime := StartTime s; LastSeen := LastSeen s;
     LoginBuffer := LoginBuffer s; LoginExtracted := LoginExtracted s;
     DisconnectStatus := DisconnectStatus s; DisconnectReason := DisconnectReason s |}.

Definition with_times (start seen : gotime) (s : Session) : Session :=
  {| ID := ID s; ClientAddr := ClientAddr s; RemoteConn := RemoteConn s; ServerID := ServerID s;
     UUID := UUID s; DisplayName := DisplayName s; XUID := XUID s;
     BytesUp := BytesUp s; BytesDown := BytesDown s; StartTime := start; LastSeen := seen;
     LoginBuffer := LoginBuffer s; LoginExtracted := LoginExtracted s;
     DisconnectStatus := DisconnectStatus s; DisconnectReason := DisconnectReason s |}.

Definition with_player (uuid name xuid : string) (s : Session) : Session :=
  {| ID := ID s; ClientAddr := ClientAddr s; RemoteConn := RemoteConn s; ServerID := ServerID s;
     UUID := uuid; DisplayName := name; XUID := xuid;
     BytesUp := BytesUp s; BytesDown := BytesDown s; StartTime := StartTime s; LastSeen := LastSeen s;
     LoginBuffer := LoginBuffer s; LoginExtracted := true;
     DisconnectStatus := DisconnectStatus s; DisconnectReason := DisconnectReason s |}.

Definition with_buffer (b : option bytes) (s : Session) : Session :=
  {| ID := ID s; ClientAddr := ClientAddr s; RemoteConn := RemoteConn s; ServerID := ServerID s;
     UUID := UUID s; DisplayName := DisplayName s; XUID := XUID s;
     BytesUp := BytesUp s; BytesDown := BytesDown s; StartTime := StartTime s; LastSeen := LastSeen s;
     LoginBuffer := b; LoginExtracted := LoginExtracted s;
     DisconnectStatus := DisconnectStatus s; DisconnectReason := DisconnectReason s |}.

Definition with_conn (c : option udp_conn) (s : Session) : Session :=
  {| ID := ID s; ClientAddr := ClientAddr s; RemoteConn := c; ServerID := ServerID s;
     UUID := UUID s; DisplayName := DisplayName s; XUID := XUID s;
     BytesUp := BytesUp s; BytesDown := BytesDown s; StartTime := StartTime s; LastSeen := LastSeen s;
     LoginBuffer := LoginBuffer s; LoginExtracted := LoginExtracted s;
     DisconnectStatus := DisconnectStatus s; DisconnectReason := DisconnectReason s |}.

(** ** Operations *)

Definition AddBytesUp (n : Z) (s : Session) : Session :=
  with_bytes (i64 (BytesUp s + n)) (BytesDown s) s.

Definition AddBytesDown (n : Z) (s : Session) : Session :=
  with_bytes (BytesUp s) (i64 (BytesDown s + n)) s.

Definition UpdateLastSeen (now : gotime) (s : Session) : Session :=
  with_times (StartTime s) now s.

Definition AdvanceLastSeen (t : gotime) (s : Session) : Session :=
  if is_zero_time t then s else
  if LastSeen s <? t then with_times (StartTime s) t s else s.

Definition BackdateStartTime (t : gotime) (s : Session) : Session :=
  if is_zero_time t then s else
  if t <? StartTime s then with_times t (LastSeen s) s else s.

Definition AddBytesUpAndUpdateLastSeen (now : gotime) (n : Z) (s : Session) : Session :=
  UpdateLastSeen now (if 0 <? n then AddBytesUp n s else s).

Definition AddBytesDownAndUpdateLastSeen (now : gotime) (n : Z) (s : Session) : Session :=
  UpdateLastSeen now (if 0 <? n then AddBytesDown n s else s).

(** The [bool] test of both [SetPlayerInfo] functions, and what they log. *)
Definition first_player_info (uuid : string) (s : Session) : bool :=
  String.eqb (UUID s) "" && negb (String.eqb uuid "").

Definition SetPlayerInfo (uuid displayName : string) (s : Session)
  : Session * option player_connect :=
  (with_player uuid displayName (XUID s) s,
   if first_player_info uuid s
   then Some {| pc_name := displayName; pc_uuid := uuid; pc_xuid := ""; pc_client := ClientAddr s |}
   else None).

Definition SetPlayerInfoWithXUID (uuid displayName xuid : string) (s : Session)
  : Session * option player_connect :=
  (with_player uuid displayName xuid s,
   if first_player_info uuid s
   then Some {| pc_name := displayName; pc_uuid := uuid; pc_xuid := xuid; pc_client := ClientAddr s |}
   else None).

Definition GetXUID (s : Session) : string := XUID s.
Definition GetDisplayName (s : Session) : string := DisplayName s.
Definition IsLoginExtracted (s : Session) : bool := LoginExtracted s.

(** [append] of no bytes leaves a [nil] buffer [nil]. *)
Definition AppendLoginData (data : bytes) (s : Session) : Session :=
  match LoginBuffer s, data with
  | None, [] => s
  | _, _ => with_buffer (Some (default [] (LoginBuffer s) ++ data)) s
  end.

Definition GetLoginBuffer (s : Session) : option bytes := LoginBuffer s.
Definition ClearLoginBuffer (s : Session) : Session := with_buffer None s.

Definition SetDisconnectStatus (status reason : string) (s : Session) : Session :=
  {| ID := ID s; ClientAddr := ClientAddr s; RemoteConn := RemoteConn s; ServerID := ServerID s;
     UUID := UUID s; DisplayName := DisplayName s; XUID := XUID s;
     BytesUp := BytesUp s; BytesDown := BytesDown s; StartTime := StartTime s; LastSeen := LastSeen s;
     LoginBuffer := LoginBuffer s; LoginExtracted := LoginExtracted s;
     DisconnectStatus := status; DisconnectReason := reason |}.

(** [int64(time.Since(start).Seconds())]: whole seconds, towards zero. *)
Definition ToDTO (now : gotime) (s : Session) : SessionDTO :=
  {| dto_ID := ID s; dto_ClientAddr := ClientAddr s; dto_ServerID := ServerID s;
     dto_UUID := UUID s; dto_DisplayName := DisplayName s; dto_XUID := XUID s;
     dto_BytesUp := BytesUp s; dto_BytesDown := BytesDown s; dto_StartTime := StartTime s;
     dto_Duration := Z.quot (time_sub now (StartTime s)) second |}.

(** ** Properties *)

(** The updates of a session that other goroutines make through its pointer. *)
Inductive session_op :=
| OpAddBytesUp (n : Z)
| OpAddBytesDown (n : Z)
| OpUpdateLastSeen (now : gotime)
| OpAdvanceLastSeen (t : gotime)
| OpBackdateStartTime (t : gotime)
| OpBytesUpSeen (now : gotime) (n : Z)
| OpBytesDownSeen (now : gotime) (n : Z)
| OpSetPlayerInfo (uuid name : string)
| OpSetPlayerInfoWithXUID (uuid name xuid : string)
| OpAppendLoginData (data : bytes)
| OpClearLoginBuffer
| OpSetDisconnectStatus (status reason : string).

Definition run_session_op (o : session_op) (s : Session) : Session :=
  match o with
  | OpAddBytesUp n => AddBytesUp n s
  | OpAddBytesDown n => AddBytesDown n s
  | OpUpdateLastSeen now => UpdateLastSeen now s
  | OpAdvanceLastSeen t => AdvanceLastSeen t s
  | OpBackdateStartTime t => BackdateStartTime t s
  | OpBytesUpSeen now n => AddBytesUpAndUpdateLastSeen now n s
  | OpBytesDownSeen now n => AddBytesDownAndUpdateLastSeen now n s
  | OpSetPlayerInfo u n => (SetPlayerInfo u n s).1
  | OpSetPlayerInfoWithXUID u n x => (SetPlayerInfoWithXUID u n x s).1
  | OpAppendLoginData d => AppendLoginData d s
  | OpClearLoginBuffer => ClearLoginBuffer s
  | OpSetDisconnectStatus a b => SetDisconnectStatus a b s
  end.

(** The identity of a session never changes. *)
Lemma run_session_op_identity o s :
  ID (run_session_op o s) = ID s /\ ClientAddr (run_session_op o s) = ClientAddr s /\
  ServerID (run_session_op o s) = ServerID s /\ RemoteConn (run_session_op o s) = RemoteConn s.
Proof.
  destruct o; cbn; try done;
    unfold AdvanceLastSeen, BackdateStartTime, AddBytesUpAndUpdateLastSeen,
      AddBytesDownAndUpdateLastSeen, AppendLoginData; repeat case_match; done.
Qed.

Definition advance (l : list gotime) (s : Session) : Session :=
  fold_left (fun s t => AdvanceLastSeen t s) l s.

Definition backdate (l : list gotime) (s : Session) : Session :=
  fold_left (fun s t => BackdateStartTime t s) l s.

Lemma AdvanceLastSeen_max t s : 0 <= LastSeen s -> 0 <= t -> LastSeen (AdvanceLastSeen t s) = Z.max (LastSeen s) t.
Proof. intros. unfold AdvanceLastSeen, is_zero_time. bool_cases; cbn; lia. Qed.

(** Whatever the order in which traffic timestamps arrive, [AdvanceLastSeen] leaves
    [LastSeen] at the latest of them and of its initial value, and changes
    nothing else. *)
Theorem AdvanceLastSeen_latest (l : list gotime) (s : Session) :
  0 <= LastSeen s -> Forall (fun t => 0 <= t) l ->
  LastSeen (advance l s) = foldr Z.max (LastSeen s) l /\
  advance l s = with_times (StartTime s) (LastSeen (advance l s)) s.
Proof.
  unfold advance. intros Hs Hl. revert s Hs.
  induction Hl as [|t l Ht Hl IH]; intros s Hs; cbn [fold_left foldr]; [by destruct s|].
  pose proof (AdvanceLastSeen_max t s Hs Ht) as Hm.
  destruct (IH (AdvanceLastSeen t s)) as [IH1 IH2]; [lia|]. split.
  - rewrite IH1, Hm. clear. induction l as [|x l IHl]; cbn; lia.
  - rewrite IH2 at 1. unfold AdvanceLastSeen. repeat case_match; done.
Qed.

Definition example_session : Session :=
  {| ID := "a"; ClientAddr := "1.2.3.4:5"; RemoteConn := None; ServerID := "lobby"; UUID := "";
     DisplayName := ""; XUID := ""; BytesUp := 0; BytesDown := 0; StartTime := 100; LastSeen := 100;
     LoginBuffer := None; LoginExtracted := false; DisconnectStatus := ""; DisconnectReason := "" |}.

Lemma AdvanceLastSeen_latest_witness :
  LastSeen (advance [50; 300; 200; 0] example_session) = 300.
Proof.
  apply (proj1 (AdvanceLastSeen_latest [50; 300; 200; 0] example_session
    ltac:(cbn; lia) ltac:(repeat constructor; lia))).
Defined.

Lemma backdate_earliest l s :
  0 <= StartTime s -> Forall (fun t => 0 <= t) l ->
  StartTime (backdate l s) = foldr Z.min (StartTime s) (filter (fun t => t <> 0) l).
Proof.
  unfold backdate. intros Hs Hl. revert s Hs.
  induction Hl as [|t l Ht Hl IH]; intros s Hs; cbn [fold_left]; [done|].
  assert (StartTime (BackdateStartTime t s) = if t =? 0 then StartTime s else Z.min (StartTime s) t) as Hm
    by (unfold BackdateStartTime, is_zero_time; bool_cases; cbn; lia).
  rewrite IH by (rewrite Hm; bool_cases; lia). rewrite Hm, filter_cons.
  destruct (Z.eqb_spec t 0) as [->|]; case_decide; try done.
  cbn [foldr]. clear. induction (filter _ l) as [|x k IHk]; cbn [foldr]; lia.
Qed.

(** ** Traffic accounting *)

(** What an operation adds to the upload and download counters. *)
Definition up_of (o : session_op) : Z :=
  match o with
  | OpAddBytesUp n => n
  | OpBytesUpSeen _ n => Z.max 0 n
  | _ => 0
  end.

Definition down_of (o : session_op) : Z :=
  match o with
  | OpAddBytesDown n => n
  | OpBytesDownSeen _ n => Z.max 0 n
  | _ => 0
  end.

Definition run_session (l : list session_op) (s : Session) : Session :=
  fold_left (fun s o => run_session_op o s) l s.

Definition sum_of (f : session_op -> Z) (l : list session_op) : Z := foldr (fun o n => f o + n) 0 l.

Lemma i64_add a b : i64 (i64 a + b) = i64 (a + b).
Proof.
  unfold wrapS. rewrite <- (Zplus_mod_idemp_l (a + b)), <- (Zplus_mod_idemp_l (_ + b)).
  set (k := 2 ^ (64 - 1)). set (m := 2 ^ 64).
  rewrite !Zplus_mod_idemp_l. replace ((a + k) mod m - k + b + k) with ((a + k) mod m + b) by lia.
  rewrite Zplus_mod_idemp_l. do 2 f_equal. lia.
Qed.

Lemma i64_idemp z : i64 (i64 z) = i64 z.
Proof. apply wrapS_small; [lia|]. apply wrapS_range. lia. Qed.

Lemma run_session_op_bytes o s :
  i64 (BytesUp s) = BytesUp s -> i64 (BytesDown s) = BytesDown s ->
  BytesUp (run_session_op o s) = i64 (BytesUp s + up_of o) /\
  BytesDown (run_session_op o s) = i64 (BytesDown s + down_of o).
Proof.
  intros Hu Hd.
  destruct o; cbn; unfold AdvanceLastSeen, BackdateStartTime, AddBytesUpAndUpdateLastSeen,
      AddBytesDownAndUpdateLastSeen, AppendLoginData; repeat case_match; cbn; bool_prop;
      rewrite ?Z.max_r, ?Z.max_l, ?Z.add_0_r by lia; done.
Qed.

(** After any sequence of operations through the session's pointer the byte
    counters are the initial counters plus the traffic of both kinds, modulo the
    wrap-around of [int64]; the order of the operations does not matter. *)
Theorem session_traffic (l : list session_op) (s : Session) :
  - 2 ^ 63 <= BytesUp s < 2 ^ 63 -> - 2 ^ 63 <= BytesDown s < 2 ^ 63 ->
  BytesUp (run_session l s) = i64 (BytesUp s + sum_of up_of l) /\
  BytesDown (run_session l s) = i64 (BytesDown s + sum_of down_of l).
Proof.
  intros Hu Hd. apply (wrapS_small 64) in Hu, Hd; try lia.
  revert s Hu Hd. induction l as [|o l IH]; intros s Hu Hd; cbn [run_session fold_left sum_of foldr].
  { by rewrite !Z.add_0_r. }
  destruct (run_session_op_bytes o s Hu Hd) as [E1 E2].
  destruct (IH (run_session_op o s)) as [IH1 IH2].
  - by rewrite E1, i64_idemp.
  - by rewrite E2, i64_idemp.
  - unfold run_session in *. rewrite IH1, IH2, E1, E2, !i64_add. unfold sum_of.
    split; f_equal; cbn [foldr]; lia.
Qed.

Lemma session_traffic_witness :
  BytesUp (run_session [OpAddBytesUp 10; OpSetPlayerInfo "u" "n"; OpBytesUpSeen 5 (-7); OpBytesUpSeen 6 20]
    example_session) = 30.
Proof.
  rewrite (proj1 (session_traffic _ example_session
    ltac:(split; [discriminate|reflexivity]) ltac:(split; [discriminate|reflexivity]))).
  reflexivity.
Defined.
