(* ===== verification/SessionManager.v ===== *)
(** * The session table: [internal/session/manager.go]

    [Session] values are shared through pointers: the heap is the list of the
    sessions ever allocated and a pointer is a position in it, so that an update
    through a pointer is seen by the table.  A Go map is iterated in an
    unspecified order, which is an argument of the operations that iterate.  The
    connections closed and the calls of [OnSessionEnd] are recorded in order.
    [uuid.New] is an argument of [GetOrCreate]. *)

From S2P Require Import Prelude GoBytes GoString Session.

Abbreviation session_ptr := nat (only parsing).

Inductive sm_event :=
| ConnClosed (c : udp_conn)
| SessionEnded (l : session_ptr).

Inductive sm_err := ErrSessionNotFound (clientAddr : string).

Record SessionManager := {
  heap : list Session;
  sessions : gmap string session_ptr;
  idleTimeout : Z;
  idleTimeoutFunc : option (Session -> Z);
  OnSessionEnd : bool;
  events : list sm_event;
}.

Definition NewSessionManager (timeout : Z) : SessionManager :=
  {| heap := []; sessions := ∅; idleTimeout := timeout; idleTimeoutFunc := None;
     OnSessionEnd := false; events := [] |}.

Definition set_heap (h : list Session) (sm : SessionManager) : SessionManager :=
  {| heap := h; sessions := sessions sm; idleTimeout := idleTimeout sm;
     idleTimeoutFunc := idleTimeoutFunc sm; OnSessionEnd := OnSessionEnd sm; events := events sm |}.

Definition set_sessions (m : gmap string session_ptr) (sm : SessionManager) : SessionManager :=
  {| heap := heap sm; sessions := m; idleTimeout := idleTimeout sm;
     idleTimeoutFunc := idleTimeoutFunc sm; OnSessionEnd := OnSessionEnd sm; events := events sm |}.

Definition add_events (l : list sm_event) (sm : SessionManager) : SessionManager :=
  {| heap := heap sm; sessions := sessions sm; idleTimeout := idleTimeout sm;
     idleTimeoutFunc := idleTimeoutFunc sm; OnSessionEnd := OnSessionEnd sm;
     events := events sm ++ l |}.

Definition SetIdleTimeoutFunc (f : option (Session -> Z)) (sm : SessionManager) : SessionManager :=
  {| heap := heap sm; sessions := sessions sm; idleTimeout := idleTimeout sm;
     idleTimeoutFunc := f; OnSessionEnd := OnSessionEnd sm; events := events sm |}.

Definition getIdleTimeout (sm : SessionManager) (s : Session) : Z :=
  match idleTimeoutFunc sm with
  | Some f => if 0 <? f s then f s else idleTimeout sm
  | None => idleTimeout sm
  end.

(** A method of [Session] called through a pointer. *)
Definition via_ptr (l : session_ptr) (f : Session -> Session) (sm : SessionManager) : SessionManager :=
  set_heap (alter f l (heap sm)) sm.

(** ** Lookup and creation *)

Definition Get (sm : SessionManager) (clientAddr : string) : option session_ptr :=
  sessions sm !! clientAddr.

Definition new_session (newID clientAddr serverID : string) (now : gotime) : Session :=
  {| ID := newID; ClientAddr := clientAddr; RemoteConn := None; ServerID := serverID;
     UUID := ""; DisplayName := ""; XUID := ""; BytesUp := 0; BytesDown := 0;
     StartTime := now; LastSeen := now; LoginBuffer := None; LoginExtracted := false;
     DisconnectStatus := ""; DisconnectReason := "" |}.

(** The section under the write lock. *)
Definition create_locked (sm : SessionManager) (now : gotime) (newID clientAddr serverID : string)
  : SessionManager * (session_ptr * bool) :=
  match sessions sm !! clientAddr with
  | Some l => (sm, (l, false))
  | None =>
      let l := length (heap sm) in
      (set_sessions (<[clientAddr := l]> (sessions sm))
         (set_heap (heap sm ++ [new_session newID clientAddr serverID now]) sm),
       (l, true))
  end.

(** The section under the read lock, then the section under the write lock. *)
Definition GetOrCreate (sm : SessionManager) (now : gotime) (newID clientAddr serverID : string)
  : SessionManager * (session_ptr * bool) :=
  match Get sm clientAddr with
  | Some l => (sm, (l, false))
  | None => create_locked sm now newID clientAddr serverID
  end.

(** ** Removal *)

(** Closing the remote connection and calling [OnSessionEnd]. *)
Definition end_events (sm : SessionManager) (l : session_ptr) : list sm_event :=
  match heap sm !! l with
  | Some s => match RemoteConn s with Some c => [ConnClosed c] | None => [] end
  | None => []
  end ++ (if OnSessionEnd sm then [SessionEnded l] else []).

Definition end_session (sm : SessionManager) (l : session_ptr) : SessionManager :=
  add_events (end_events sm l) sm.

Definition Remove (sm : SessionManager) (clientAddr : string)
  : SessionManager * outcome sm_err unit :=
  match sessions sm !! clientAddr with
  | None => (sm, Err (ErrSessionNotFound clientAddr))
  | Some l =>
      (end_session (set_sessions (delete clientAddr (sessions sm)) sm) l, Ret tt)
  end.

(** The session registered at an address satisfies [p]. *)
Definition at_addr (sm : SessionManager) (p : Session -> bool) (addr : string) : bool :=
  match sessions sm !! addr with
  | Some l => match heap sm !! l with Some s => p s | None => false end
  | None => false
  end.

(** The addresses, in iteration order, whose session satisfies [p]. *)
Definition collect (sm : SessionManager) (order : list string) (p : Session -> bool) : list string :=
  List.filter (at_addr sm p) order.

Definition RemoveByID (sm : SessionManager) (order : list string) (sessionID : string)
  : SessionManager * bool :=
  match List.find (at_addr sm (fun s => String.eqb (ID s) sessionID)) order with
  | None => (sm, false)
  | Some addr =>
      match sessions sm !! addr with
      | None => (sm, false)
      | Some l => (end_session (set_sessions (delete addr (sessions sm)) sm) l, true)
      end
  end.

(** The second half of [RemoveByPlayerName] and [RemoveByXUID]: the deletions
    under the lock, then the ends of the removed sessions. *)
Definition remove_batch (sm : SessionManager) (toRemove : list string) : SessionManager :=
  let removed := omap (fun addr => sessions sm !! addr) toRemove in
  fold_left end_session removed
    (set_sessions (fold_left (fun m addr => delete addr m) toRemove (sessions sm)) sm).

Definition RemoveByPlayerName (sm : SessionManager) (order : list string) (displayName : string)
  : SessionManager * Z :=
  if String.eqb displayName "" then (sm, 0) else
  let toRemove := collect sm order (fun s => String.eqb (DisplayName s) displayName) in
  (remove_batch sm toRemove, zlen toRemove).

Definition RemoveByXUID (sm : SessionManager) (order : list string) (xuid : string)
  : SessionManager * Z :=
  if String.eqb xuid "" then (sm, 0) else
  let toRemove := collect sm order (fun s => String.eqb (XUID s) xuid) in
  (remove_batch sm toRemove, zlen toRemove).

(** ** Activity and cleanup *)

Definition UpdateActivity (sm : SessionManager) (now : gotime) (clientAddr : string) : SessionManager :=
  match sessions sm !! clientAddr with
  | Some l => via_ptr l (UpdateLastSeen now) sm
  | None => sm
  end.

Definition GetAllSessions (sm : SessionManager) (order : list string) : list session_ptr :=
  omap (fun addr => sessions sm !! addr) order.

Definition Count (sm : SessionManager) : Z := Z.of_nat (size (sessions sm)).

Definition SetRemoteConn (sm : SessionManager) (clientAddr : string) (c : option udp_conn)
  : SessionManager * outcome sm_err unit :=
  match sessions sm !! clientAddr with
  | None => (sm, Err (ErrSessionNotFound clientAddr))
  | Some l => (via_ptr l (with_conn c) sm, Ret tt)
  end.

Definition idle (sm : SessionManager) (now : gotime) (s : Session) : bool :=
  (0 <? getIdleTimeout sm s) && (getIdleTimeout sm s <? time_sub now (LastSeen s)).

(** The first pass, under the read lock, and the second pass. *)
Definition cleanup_collect (sm : SessionManager) (now : gotime) (order : list string) : list string :=
  collect sm order (idle sm now).

Definition remove_all (sm : SessionManager) (toRemove : list string) : SessionManager :=
  fold_left (fun sm addr => (Remove sm addr).1) toRemove sm.

Definition cleanupIdleSessions (sm : SessionManager) (now : gotime) (order : list string) : SessionManager :=
  remove_all sm (cleanup_collect sm now order).

Definition CleanupNow (sm : SessionManager) (now : gotime) (order : list string)
  : SessionManager * Z :=
  let toRemove := cleanup_collect sm now order in
  (remove_all sm toRemove, zlen toRemove).

Definition GetIdleSessions (sm : SessionManager) (now : gotime) (idleThreshold : Z) (order : list string)
  : list session_ptr :=
  omap (fun addr => sessions sm !! addr)
    (collect sm order (fun s => (0 <? idleThreshold) && (idleThreshold <? time_sub now (LastSeen s)))).

(** ** Operations as steps

    [order] is an iteration order of the table at the time of the operation. *)

Definition iteration_order (sm : SessionManager) (order : list string) : Prop :=
  order ≡ₚ (map_to_list (sessions sm)).*1.

Inductive sm_step : SessionManager -> SessionManager -> Prop :=
| step_GetOrCreate sm now newID addr server :
    sm_step sm (GetOrCreate sm now newID addr server).1
| step_Remove sm addr : sm_step sm (Remove sm addr).1
| step_RemoveByID sm order id : iteration_order sm order -> sm_step sm (RemoveByID sm order id).1
| step_RemoveByPlayerName sm order name :
    iteration_order sm order -> sm_step sm (RemoveByPlayerName sm order name).1
| step_RemoveByXUID sm order xuid :
    iteration_order sm order -> sm_step sm (RemoveByXUID sm order xuid).1
| step_UpdateActivity sm now addr : sm_step sm (UpdateActivity sm now addr)
| step_SetRemoteConn sm addr c : sm_step sm (SetRemoteConn sm addr c).1
| step_CleanupNow sm now order : iteration_order sm order -> sm_step sm (CleanupNow sm now order).1
| step_SetIdleTimeoutFunc sm f : sm_step sm (SetIdleTimeoutFunc f sm)
| step_session_op sm l o : sm_step sm (via_ptr l (run_session_op o) sm).

(** Two goroutines can be between the two sections of [GetOrCreate]. *)

Inductive goc_pc := GocStart | GocMissed | GocDone (l : session_ptr) (created : bool).

Record goc_call := {
  goc_addr : string;
  goc_server : string;
  goc_id : string;
  goc_state : goc_pc;
}.

Definition set_pc (pc : goc_pc) (c : goc_call) : goc_call :=
  {| goc_addr := goc_addr c; goc_server := goc_server c; goc_id := goc_id c; goc_state := pc |}.

Inductive goc_step : SessionManager * list goc_call -> SessionManager * list goc_call -> Prop :=
| goc_read sm ts i c :
    ts !! i = Some c -> goc_state c = GocStart ->
    goc_step (sm, ts)
      (sm, <[i := set_pc (match Get sm (goc_addr c) with
                          | Some l => GocDone l false
                          | None => GocMissed
                          end) c]> ts)
| goc_write sm ts i c now sm' l b :
    ts !! i = Some c -> goc_state c = GocMissed ->
    create_locked sm now (goc_id c) (goc_addr c) (goc_server c) = (sm', (l, b)) ->
    goc_step (sm, ts) (sm', <[i := set_pc (GocDone l b) c]> ts).

(** * Facts *)

(** The sessions [OnSessionEnd] was called on, in order. *)
Definition ended (sm : SessionManager) : list session_ptr :=
  omap (fun e => match e with SessionEnded l => Some l | ConnClosed _ => None end) (events sm).

(** Every registered pointer is allocated and its session carries the address it
    is registered at; a session is ended at most once and never while it is
    registered; with a callback, every session ever allocated is registered or
    ended. *)
Record sm_inv (sm : SessionManager) : Prop := {
  inv_addr : forall a l, sessions sm !! a = Some l ->
    exists s, heap sm !! l = Some s /\ ClientAddr s = a;
  inv_ended : forall l, l ∈ ended sm ->
    (l < length (heap sm))%nat /\ forall a, sessions sm !! a <> Some l;
  inv_once : NoDup (ended sm);
  inv_accounted : OnSessionEnd sm = true -> forall l, (l < length (heap sm))%nat ->
    (exists a, sessions sm !! a = Some l) \/ l ∈ ended sm;
}.

Lemma sm_inv_inj sm a b l :
  sm_inv sm -> sessions sm !! a = Some l -> sessions sm !! b = Some l -> a = b.
Proof.
  intros [Ha _ _ _] (s & Hs & <-)%Ha (s' & Hs' & <-)%Ha. congruence.
Qed.

Lemma ended_end_session sm l :
  ended (end_session sm l) = ended sm ++ (if OnSessionEnd sm then [l] else []).
Proof.
  unfold end_session, end_events, ended, add_events. cbn [events].
  rewrite !omap_app. f_equal.
  destruct (heap sm !! l) as [s|]; [destruct (RemoteConn s)|]; by destruct (OnSessionEnd sm).
Qed.

Lemma inv_create_locked sm now newID addr server :
  sm_inv sm -> sm_inv (create_locked sm now newID addr server).1.
Proof.
  intros [Ha He Hn Hc]. unfold create_locked.
  destruct (sessions sm !! addr) as [l|] eqn:E; cbn [fst]; [by split|].
  split; cbn [sessions heap set_sessions set_heap]; unfold ended in *; cbn [events set_sessions set_heap].
  - intros a l. destruct (decide (a = addr)) as [->|].
    + rewrite lookup_insert_eq. intros [= <-]. eexists. split; [by apply list_lookup_middle|done].
    + rewrite lookup_insert_ne by done. intros (s & Hs & ?)%Ha. exists s. split; [|done].
      by apply lookup_app_l_Some.
  - intros l (Hl & Hne)%He. rewrite length_app. split; [cbn; lia|]. intros a.
    destruct (decide (a = addr)) as [->|].
    + rewrite lookup_insert_eq. intros [= <-]. lia.
    + rewrite lookup_insert_ne by done. apply Hne.
  - done.
  - cbn. rewrite length_app. cbn. intros Hcb l Hl.
    destruct (decide (l = length (heap sm))) as [->|].
    + left. exists addr. by rewrite lookup_insert_eq.
    + destruct (Hc Hcb l) as [[a Hal]|]; [lia| |by right]. left. exists a.
      rewrite lookup_insert_ne by congruence. done.
Qed.

Lemma inv_via_ptr sm l f :
  (forall s, ClientAddr (f s) = ClientAddr s) -> sm_inv sm -> sm_inv (via_ptr l f sm).
Proof.
  intros Hf [Ha He Hn Hc].
  split; unfold ended in *; cbn [sessions heap via_ptr set_heap events OnSessionEnd] in *.
  - intros a k (s & Hs & Hk)%Ha. destruct (decide (k = l)) as [->|].
    + exists (f s). by rewrite list_lookup_alter_eq, Hs, Hf.
    + exists s. by rewrite list_lookup_alter_ne.
  - intros k Hk. rewrite length_alter. by apply He.
  - done.
  - rewrite length_alter. done.
Qed.

(** A session leaves the table and is ended. *)
Lemma inv_drop sm a l :
  sm_inv sm -> sessions sm !! a = Some l ->
  sm_inv (end_session (set_sessions (delete a (sessions sm)) sm) l).
Proof.
  intros Hinv Hal. pose proof Hinv as [Ha He Hn Hc].
  assert (l ∉ ended sm) as Hl by (intros Hin; by apply (proj2 (He l Hin) a)).
  split; rewrite ?ended_end_session; change (ended (set_sessions _ sm)) with (ended sm);
    cbn [sessions heap end_session add_events set_sessions OnSessionEnd].
  - intros b k Hb. apply lookup_delete_Some in Hb as [_ Hb]. by apply Ha.
  - intros k [Hk|Hk]%elem_of_app.
    + destruct (He k Hk) as [? Hne]. split; [done|]. intros b.
      rewrite lookup_delete_Some. naive_solver.
    + destruct (OnSessionEnd sm); [|by apply not_elem_of_nil in Hk].
      apply list_elem_of_singleton in Hk as ->. destruct (Ha _ _ Hal) as (s & Hs & _).
      split; [by eapply lookup_lt_Some|]. intros b [Hne Hb]%lookup_delete_Some.
      apply Hne. by eapply sm_inv_inj.
  - destruct (OnSessionEnd sm); [|by rewrite app_nil_r].
    apply NoDup_app. split; [done|]. split; [|apply NoDup_singleton].
    intros k Hk Hk'. apply list_elem_of_singleton in Hk' as ->. done.
  - intros Hcb k Hk. rewrite Hcb. rewrite elem_of_app, list_elem_of_singleton.
    destruct (Hc Hcb k Hk) as [[b Hb]|]; [|by auto].
    destruct (decide (b = a)) as [->|]; [right; right; congruence|].
    left. exists b. by rewrite lookup_delete_ne.
Qed.

Lemma inv_Remove sm addr : sm_inv sm -> sm_inv (Remove sm addr).1.
Proof.
  intros H. unfold Remove. destruct (sessions sm !! addr) as [l|] eqn:E; [|done].
  by apply inv_drop.
Qed.

Lemma inv_remove_all sm addrs : sm_inv sm -> sm_inv (remove_all sm addrs).
Proof.
  unfold remove_all. revert sm. induction addrs as [|a addrs IH]; intros sm H; [done|].
  cbn. by apply IH, inv_Remove.
Qed.

(** Deleting first and ending the sessions afterwards is ending them one by one. *)
Lemma end_session_set_sessions m sm l :
  end_session (set_sessions m sm) l = set_sessions m (end_session sm l).
Proof. reflexivity. Qed.

Lemma fold_end_set_sessions ls m sm :
  fold_left end_session ls (set_sessions m sm) = set_sessions m (fold_left end_session ls sm).
Proof. revert sm. induction ls as [|l ls IH]; intros sm; [done|]. cbn. apply (IH (end_session sm l)). Qed.

Lemma fold_end_sessions ls sm : sessions (fold_left end_session ls sm) = sessions sm.
Proof. revert sm. induction ls as [|l ls IH]; intros sm; [done|]. cbn. by rewrite IH. Qed.

Lemma remove_batch_all sm addrs : NoDup addrs -> remove_batch sm addrs = remove_all sm addrs.
Proof.
  unfold remove_batch, remove_all. intros Hnd. revert sm.
  induction Hnd as [|a addrs Ha Hnd IH]; intros sm; [by destruct sm|].
  cbn [fold_left omap list_omap]. rewrite <- IH. unfold Remove.
  destruct (sessions sm !! a) as [l|] eqn:E; cbn [fst].
  - cbn [fold_left]. change (sessions (end_session (set_sessions ?m sm) l)) with m.
    replace (omap (fun addr => sessions sm !! addr) addrs)
      with (omap (fun addr => delete a (sessions sm) !! addr) addrs); [done|].
    apply list_omap_ext, Forall_Forall2_diag, Forall_forall. intros b Hb.
    rewrite lookup_delete_ne; [done|]. by intros ->.
  - by rewrite delete_id.
Qed.

(** ** The invariant in every reachable state *)

Lemma NoDup_order sm order : iteration_order sm order -> NoDup order.
Proof. intros ->. apply NoDup_fst_map_to_list. Qed.

Lemma NoDup_collect sm order p : iteration_order sm order -> NoDup (collect sm order p).
Proof.
  intros H%NoDup_order. unfold collect. apply NoDup_ListNoDup, List.NoDup_filter.
  by apply NoDup_ListNoDup.
Qed.

Lemma elem_of_collect sm order p a :
  a ∈ collect sm order p <-> a ∈ order /\ at_addr sm p a = true.
Proof. unfold collect. rewrite !list_elem_of_In. apply List.filter_In. Qed.

Lemma iteration_order_elem sm order a :
  iteration_order sm order -> a ∈ order <-> is_Some (sessions sm !! a).
Proof.
  intros ->. rewrite list_elem_of_fmap. split.
  - intros ([b l] & -> & H%elem_of_map_to_list). by exists l.
  - intros [l H]. exists (a, l). split; [done|]. by apply elem_of_map_to_list.
Qed.

Lemma inv_step sm sm' : sm_step sm sm' -> sm_inv sm -> sm_inv sm'.
Proof.
  intros [] Hinv.
  - unfold GetOrCreate. destruct (Get _ _); [done|]. by apply inv_create_locked.
  - by apply inv_Remove.
  - unfold RemoveByID. destruct (List.find _ _) as [addr|]; [|done].
    destruct (sessions sm0 !! addr) as [l|] eqn:E; [|done]. by apply inv_drop.
  - unfold RemoveByPlayerName. destruct (String.eqb _ _); [done|]. cbn [fst].
    rewrite remove_batch_all by (by apply NoDup_collect). by apply inv_remove_all.
  - unfold RemoveByXUID. destruct (String.eqb _ _); [done|]. cbn [fst].
    rewrite remove_batch_all by (by apply NoDup_collect). by apply inv_remove_all.
  - unfold UpdateActivity. destruct (sessions sm0 !! addr); [|done]. by apply inv_via_ptr.
  - unfold SetRemoteConn. destruct (sessions sm0 !! addr); [|done]. by apply inv_via_ptr.
  - by apply inv_remove_all.
  - by destruct Hinv; split.
  - apply inv_via_ptr; [|done]. intros s. apply run_session_op_identity.
Qed.

(** A manager before any session, with or without the persistence callback. *)
Definition initial (timeout : Z) (cb : bool) : SessionManager :=
  {| heap := []; sessions := ∅; idleTimeout := timeout; idleTimeoutFunc := None;
     OnSessionEnd := cb; events := [] |}.

Lemma inv_initial timeout cb : sm_inv (initial timeout cb).
Proof.
  split; cbn.
  - intros a l. by rewrite lookup_empty.
  - intros l Hl. by apply not_elem_of_nil in Hl.
  - constructor.
  - lia.
Qed.

Lemma step_callback sm sm' : sm_step sm sm' -> OnSessionEnd sm' = OnSessionEnd sm.
Proof.
  assert (forall ls sm, OnSessionEnd (fold_left end_session ls sm) = OnSessionEnd sm) as He.
  { intros ls. induction ls as [|l ls IH]; intros sm1; [done|]. cbn. by rewrite IH. }
  assert (forall addrs sm, OnSessionEnd (remove_all sm addrs) = OnSessionEnd sm) as Ha.
  { unfold remove_all. intros addrs. induction addrs as [|a addrs IH]; intros sm1; [done|]. cbn. rewrite IH.
    unfold Remove. by destruct (sessions sm1 !! a). }
  intros []; cbn; try done;
    unfold GetOrCreate, create_locked, Remove, RemoveByID, RemoveByPlayerName, RemoveByXUID,
      UpdateActivity, SetRemoteConn, remove_batch; repeat case_match; cbn; try done;
    by rewrite ?He, ?Ha.
Qed.

(** C11: in every state reachable by any sequence of operations, in any order and with
    any map iteration order: a session is ended at most once and only after it
    has left the table, two addresses never share a session, and with a callback
    every session ever created is either registered or has been ended. *)
Theorem session_lifecycle (timeout : Z) (cb : bool) (sm : SessionManager) :
  rtc sm_step (initial timeout cb) sm ->
  NoDup (ended sm) /\
  (forall a l, sessions sm !! a = Some l -> l ∉ ended sm /\ (l < length (heap sm))%nat) /\
  (forall a b l, sessions sm !! a = Some l -> sessions sm !! b = Some l -> a = b) /\
  (cb = true -> forall l, (l < length (heap sm))%nat ->
     (exists a, sessions sm !! a = Some l) \/ l ∈ ended sm).
Proof.
  intros Hr.
  assert (sm_inv sm /\ OnSessionEnd sm = cb) as [Hinv Hcb].
  { remember (initial timeout cb) as sm0 eqn:E.
    assert (sm_inv sm0 /\ OnSessionEnd sm0 = cb) as H0.
    { subst. split; [apply inv_initial|done]. }
    clear E. induction Hr as [|x y z Hxy Hyz IH]; [done|]. apply IH.
    destruct H0. split; [by eapply inv_step|]. by rewrite (step_callback _ _ Hxy). }
  pose proof Hinv as [Ha He Hn Hc].
  split; [done|]. split; [|split].
  - intros a l Hal. split; [intros Hl; by apply (proj2 (He l Hl) a)|].
    destruct (Ha _ _ Hal) as (s & Hs & _). by eapply lookup_lt_Some.
  - intros a b l. by apply sm_inv_inj.
  - intros ->. by apply Hc.
Qed.

Lemma session_lifecycle_witness :
  let sm1 := (GetOrCreate (initial 60 true) 100 "id" "a" "lobby").1 in
  NoDup (ended (Remove sm1 "a").1) /\ ended (Remove sm1 "a").1 = [0%nat].
Proof.
  intros sm1. split; [|reflexivity]. apply (session_lifecycle 60 true).
  eapply rtc_l; [apply (step_GetOrCreate _ 100 "id" "a" "lobby")|].
  eapply rtc_l; [apply (step_Remove _ "a")|apply rtc_refl].
Defined.

(** ** What the removals leave *)

Lemma remove_all_lookup sm addrs a :
  sessions (remove_all sm addrs) !! a = if decide (a ∈ addrs) then None else sessions sm !! a.
Proof.
  unfold remove_all. revert sm. induction addrs as [|b addrs IH]; intros sm.
  { cbn. case_decide as H; [by apply not_elem_of_nil in H|done]. }
  cbn [fold_left]. rewrite IH.
  assert (sessions (Remove sm b).1 = delete b (sessions sm)) as ->.
  { unfold Remove. destruct (sessions sm !! b) eqn:E; [done|]. cbn. by rewrite delete_id. }
  destruct (decide (a = b)) as [->|].
  - rewrite lookup_delete_eq. repeat case_decide; set_solver.
  - rewrite lookup_delete_ne by done. repeat case_decide; set_solver.
Qed.

Lemma remove_all_heap sm addrs : heap (remove_all sm addrs) = heap sm.
Proof.
  unfold remove_all. revert sm. induction addrs as [|b addrs IH]; intros sm; [done|].
  cbn. rewrite IH. unfold Remove. by destruct (sessions sm !! b).
Qed.

(** The ended sessions, after the removals, in order. *)
Lemma remove_all_ended sm addrs :
  NoDup addrs -> OnSessionEnd sm = true ->
  ended (remove_all sm addrs) = ended sm ++ omap (fun a => sessions sm !! a) addrs.
Proof.
  intros Hnd Hcb. rewrite <- remove_batch_all by done. unfold remove_batch.
  rewrite fold_end_set_sessions. change (ended (set_sessions ?m ?s)) with (ended s).
  generalize (omap (fun a => sessions sm !! a) addrs). clear Hnd. intros ls. revert sm Hcb.
  induction ls as [|l ls IH]; intros sm Hcb; cbn; [by rewrite app_nil_r|].
  rewrite IH by done. by rewrite ended_end_session, Hcb, <- app_assoc.
Qed.

(** The sessions that satisfy [p] leave the table, the others stay. *)
Lemma remove_collect_lookup sm order p a l :
  sm_inv sm -> iteration_order sm order ->
  sessions (remove_all sm (collect sm order p)) !! a = Some l <->
  sessions sm !! a = Some l /\ forall s, heap sm !! l = Some s -> p s = false.
Proof.
  intros Hinv Hord. rewrite remove_all_lookup. case_decide as Hc.
  - split; [done|]. intros [Hal Hp]. apply elem_of_collect in Hc as [_ Hat].
    unfold at_addr in Hat. rewrite Hal in Hat.
    destruct (heap sm !! l) as [s|]; [|done]. by rewrite (Hp s) in Hat.
  - split; [|naive_solver]. intros Hal. split; [done|]. intros s Hs.
    destruct (p s) eqn:Hp; [|done]. contradict Hc. apply elem_of_collect. split.
    + apply (iteration_order_elem sm); [done|by exists l].
    + unfold at_addr. by rewrite Hal, Hs.
Qed.

(** [CleanupNow] removes exactly the sessions idle for longer than their timeout,
    leaves every other session registered, calls [OnSessionEnd] exactly once on
    each removed session and returns their number, for every iteration order. *)
Theorem CleanupNow_exact (sm : SessionManager) (now : gotime) (order : list string) :
  sm_inv sm -> iteration_order sm order -> OnSessionEnd sm = true ->
  (forall a l, sessions (CleanupNow sm now order).1 !! a = Some l <->
     sessions sm !! a = Some l /\ forall s, heap sm !! l = Some s -> idle sm now s = false) /\
  exists removed,
    ended (CleanupNow sm now order).1 = ended sm ++ removed /\ NoDup removed /\
    zlen removed = (CleanupNow sm now order).2 /\
    forall l, l ∈ removed <->
      exists a s, sessions sm !! a = Some l /\ heap sm !! l = Some s /\ idle sm now s = true.
Proof.
  intros Hinv Hord Hcb. pose proof (NoDup_collect sm order (idle sm now) Hord) as Hnd. split.
  { intros a l. by apply remove_collect_lookup. }
  exists (omap (fun a => sessions sm !! a) (cleanup_collect sm now order)).
  unfold CleanupNow, cleanup_collect. cbn [fst snd].
  pose proof (remove_all_ended sm _ Hnd Hcb) as He. split; [done|]. split; [|split].
  - pose proof (inv_once _ (inv_remove_all sm (collect sm order (idle sm now)) Hinv)) as Hn.
    rewrite He in Hn. by apply NoDup_app in Hn as (_ & _ & ?).
  - assert (forall a, a ∈ collect sm order (idle sm now) -> is_Some (sessions sm !! a)) as Hs.
    { intros a [Ha _]%elem_of_collect. by apply (iteration_order_elem sm order). }
    unfold zlen. f_equal. clear -Hs. induction (collect _ _ _) as [|a k IH]; [done|]. cbn.
    destruct (Hs a) as [l ->]; [left|]. cbn. rewrite IH; [done|]. intros b Hb. apply Hs. by right.
  - intros l. rewrite list_elem_of_omap. split.
    + intros (a & [Ho Hat]%elem_of_collect & Hal). unfold at_addr in Hat. rewrite Hal in Hat.
      destruct (heap sm !! l) as [s|] eqn:Hs; [|done]. by exists a, s.
    + intros (a & s & Hal & Hs & Hi). exists a. split; [|done]. apply elem_of_collect. split.
      * apply (iteration_order_elem sm); [done|by exists l].
      * unfold at_addr. by rewrite Hal, Hs.
Qed.

(** The two passes of [cleanupIdleSessions] are not one step: an address collected
    by the first pass is removed by the second one whatever happened in between,
    also when its session has just been active or has been replaced. *)
Theorem cleanup_ignores_activity (sm sm' : SessionManager) (now : gotime) (order : list string) (a : string) :
  a ∈ cleanup_collect sm now order ->
  sessions (remove_all sm' (cleanup_collect sm now order)) !! a = None.
Proof. intros Ha. rewrite remove_all_lookup. by case_decide. Qed.

(** A session active one nanosecond before the second pass is removed. *)
Lemma cleanup_ignores_activity_witness :
  let sm := (GetOrCreate (initial (60 * second) true) 1 "id" "a" "lobby").1 in
  let now := 61 * second + 1 in
  let sm' := UpdateActivity sm now "a" in
  cleanup_collect sm' now ["a"] = [] /\
  sessions (remove_all sm' (cleanup_collect sm now ["a"])) !! "a" = None.
Proof.
  intros sm now sm'. split; [reflexivity|].
  apply cleanup_ignores_activity. vm_compute. left.
Defined.

(** [RemoveByPlayerName] and [RemoveByXUID] leave no session of the player, keep all
    others and do nothing for an empty name or XUID. *)
Theorem RemoveByPlayer_exact (sm : SessionManager) (order : list string) (key : string) :
  sm_inv sm -> iteration_order sm order ->
  (forall a l, sessions (RemoveByPlayerName sm order key).1 !! a = Some l <->
     sessions sm !! a = Some l /\
     (key = ""%string \/ forall s, heap sm !! l = Some s -> DisplayName s <> key)) /\
  (forall a l, sessions (RemoveByXUID sm order key).1 !! a = Some l <->
     sessions sm !! a = Some l /\
     (key = ""%string \/ forall s, heap sm !! l = Some s -> XUID s <> key)).
Proof.
  intros Hinv Hord. unfold RemoveByPlayerName, RemoveByXUID.
  destruct (String.eqb_spec key "") as [->|Hk]; cbn [fst]; [split; intros a l; naive_solver|].
  split; intros a l; rewrite remove_batch_all by (by apply NoDup_collect);
    rewrite remove_collect_lookup by done; split; intros [Hal Hp]; split; try done.
  - right. intros s Hs E. specialize (Hp s Hs). by apply String.eqb_neq in Hp.
  - destruct Hp as [|Hp]; [done|]. intros s Hs. apply String.eqb_neq. by apply Hp.
  - right. intros s Hs E. specialize (Hp s Hs). by apply String.eqb_neq in Hp.
  - destruct Hp as [|Hp]; [done|]. intros s Hs. apply String.eqb_neq. by apply Hp.
Qed.

Lemma RemoveByPlayer_exact_witness :
  let sm := (GetOrCreate (initial 60 true) 100 "id" "a" "lobby").1 in
  let sm := via_ptr 0 (run_session_op (OpSetPlayerInfo "u" "Steve")) sm in
  sessions (RemoveByPlayerName sm ["a"] "Steve").1 !! "a" = None.
Proof.
  intros sm0 sm. destruct (sessions (RemoveByPlayerName sm ["a"] "Steve").1 !! "a") as [l|] eqn:E; [|done].
  assert (sm_inv sm) as Hinv.
  { apply inv_via_ptr; [intros s; apply (run_session_op_identity (OpSetPlayerInfo "u" "Steve") s)|]. apply inv_create_locked, inv_initial. }
  apply (RemoveByPlayer_exact sm ["a"] "Steve" Hinv ltac:(apply Permutation_refl)) in E as [Hal [?|Hp]]; [done|].
  vm_compute in Hal. injection Hal as <-. by destruct (Hp _ eq_refl).
Defined.

(** ** Concurrent creation *)

(** The calls that are done agree with the table, and at most one call per address
    created its session. *)
Record goc_inv (m0 : gmap string session_ptr) (st : SessionManager * list goc_call) : Prop := {
  goc_agree : forall i c l b, st.2 !! i = Some c -> goc_state c = GocDone l b ->
    sessions st.1 !! goc_addr c = Some l;
  goc_one : forall i j c d l k, st.2 !! i = Some c -> st.2 !! j = Some d ->
    goc_addr c = goc_addr d -> goc_state c = GocDone l true -> goc_state d = GocDone k true -> i = j;
  goc_kept : forall a l, m0 !! a = Some l -> sessions st.1 !! a = Some l;
  goc_creator : forall a l, sessions st.1 !! a = Some l -> m0 !! a = None ->
    exists i c, st.2 !! i = Some c /\ goc_addr c = a /\ goc_state c = GocDone l true;
  goc_old : forall i c l, st.2 !! i = Some c -> goc_state c = GocDone l true -> m0 !! goc_addr c = None;
}.

Lemma lookup_update {A} (l : list A) i j x y :
  <[i := x]> l !! j = Some y -> (i = j /\ y = x /\ (i < length l)%nat) \/ (i <> j /\ l !! j = Some y).
Proof. rewrite list_lookup_insert_Some. naive_solver. Qed.

Lemma goc_inv_read m0 sm ts i c :
  ts !! i = Some c -> goc_state c = GocStart -> goc_inv m0 (sm, ts) ->
  goc_inv m0 (sm, <[i := set_pc (match Get sm (goc_addr c) with
                                 | Some l => GocDone l false
                                 | None => GocMissed
                                 end) c]> ts).
Proof.
  intros Hi Hc [Ha Ho Hk Hcr Hold]; split; cbn [fst snd] in *; try done.
  - intros j d l b [(-> & -> & _)|[_ Hj]]%lookup_update Hd; [|by eapply Ha].
    cbn in *. unfold Get in Hd. destruct (sessions sm !! goc_addr c); naive_solver.
  - intros j k d e l l' Hj%lookup_update Hk'%lookup_update Hde Hd He.
    destruct Hj as [(-> & -> & _)|[_ Hj]], Hk' as [(? & -> & _)|[_ Hk']]; try done;
      cbn in *; unfold Get in *; repeat case_match; try done. by eapply (Ho j k d e).
  - intros a l Hal Hm. destruct (Hcr a l Hal Hm) as (j & d & Hj & Hd1 & Hd2). exists j, d.
    rewrite list_lookup_insert_ne; [done|]. intros ->. congruence.
  - intros j d l [(-> & -> & _)|[_ Hj]]%lookup_update Hd; [|by eapply Hold].
    cbn in *. unfold Get in Hd. by destruct (sessions sm !! goc_addr c).
Qed.

Lemma goc_inv_write m0 sm ts i c now sm' l b :
  ts !! i = Some c -> goc_state c = GocMissed ->
  create_locked sm now (goc_id c) (goc_addr c) (goc_server c) = (sm', (l, b)) ->
  goc_inv m0 (sm, ts) -> goc_inv m0 (sm', <[i := set_pc (GocDone l b) c]> ts).
Proof.
  intros Hi Hc Hw [Ha Ho Hk Hcr Hold]. unfold create_locked in Hw.
  assert (i < length ts)%nat as Hlt by (by eapply lookup_lt_Some).
  destruct (sessions sm !! goc_addr c) as [l0|] eqn:E; injection Hw as <- <- <-;
    split; cbn [fst snd sessions set_sessions set_heap] in *; try done.
  - intros j d k b [(-> & -> & _)|[_ Hj]]%lookup_update Hd; [|by eapply Ha].
    cbn in *. congruence.
  - intros j k d e l l' Hj%lookup_update Hk'%lookup_update Hde Hd He.
    destruct Hj as [(-> & -> & _)|[_ Hj]], Hk' as [(? & -> & _)|[_ Hk']]; try done.
    by eapply (Ho j k d e).
  - intros a k Hal Hm. destruct (Hcr a k Hal Hm) as (j & d & Hj & Hd1 & Hd2). exists j, d.
    rewrite list_lookup_insert_ne; [done|]. intros ->. congruence.
  - intros j d k [(-> & -> & _)|[_ Hj]]%lookup_update Hd; [done|by eapply Hold].
  - intros j d k b [(-> & -> & _)|[_ Hj]]%lookup_update Hd; cbn in *.
    + injection Hd as <- _. by rewrite lookup_insert_eq.
    + rewrite lookup_insert_ne; [by eapply Ha|]. intros Hadr.
      rewrite Hadr in E. by rewrite (Ha j d k b) in E.
  - intros j k d e l l' Hj%lookup_update Hk'%lookup_update Hde Hd He.
    destruct Hj as [(-> & -> & _)|[_ Hj]], Hk' as [(? & -> & _)|[_ Hk']]; try done.
    + cbn in *. rewrite Hde in E. by rewrite (Ha k e l' true) in E.
    + cbn in *. rewrite <- Hde in E. by rewrite (Ha j d l true) in E.
    + by eapply (Ho j k d e).
  - intros a k Hk'. rewrite lookup_insert_ne; [by apply Hk|]. intros <-. apply Hk in Hk'. congruence.
  - intros a k Hal Hm. destruct (decide (a = goc_addr c)) as [->|Hne].
    + rewrite lookup_insert_eq in Hal. injection Hal as <-. exists i. eexists.
      by rewrite list_lookup_insert_eq.
    + rewrite lookup_insert_ne in Hal by done.
      destruct (Hcr a k Hal Hm) as (j & d & Hj & Hd1 & Hd2). exists j, d.
      rewrite list_lookup_insert_ne; [done|]. intros ->. congruence.
  - intros j d k [(-> & -> & _)|[_ Hj]]%lookup_update Hd; [|by eapply Hold].
    cbn in *. destruct (m0 !! goc_addr c) as [l0|] eqn:Hm; [|done]. apply Hk in Hm. congruence.
Qed.

(** C33: however the read and write sections of concurrent [GetOrCreate] calls
    interleave, all calls for one address return the same session, at most one of
    them reports a creation, and exactly one does when the address was new. *)
Theorem GetOrCreate_concurrent (sm sm' : SessionManager) (ts ts' : list goc_call) :
  Forall (fun c => goc_state c = GocStart) ts ->
  rtc goc_step (sm, ts) (sm', ts') ->
  (forall i j c d l k b1 b2, ts' !! i = Some c -> ts' !! j = Some d -> goc_addr c = goc_addr d ->
     goc_state c = GocDone l b1 -> goc_state d = GocDone k b2 ->
     l = k /\ (b1 = true -> b2 = true -> i = j)) /\
  (forall i c l b, ts' !! i = Some c -> goc_state c = GocDone l b ->
     sessions sm !! goc_addr c = None ->
     exists j d, ts' !! j = Some d /\ goc_addr d = goc_addr c /\ goc_state d = GocDone l true) /\
  (forall i c l b, ts' !! i = Some c -> goc_state c = GocDone l b ->
     is_Some (sessions sm !! goc_addr c) -> b = false).
Proof.
  intros Hts Hr.
  assert (goc_inv (sessions sm) (sm', ts')) as [Ha Ho Hk Hcr Hold].
  { change sm with (sm, ts).1 at 1. remember (sm, ts) as st eqn:E.
    remember (sm', ts') as st' eqn:E'. clear E'.
    assert (goc_inv (sessions st.1) st) as H0.
    { subst st. assert (forall i c l b, ts !! i = Some c -> goc_state c = GocDone l b -> False) as Hno.
      { intros i c l b Hi Hc. eapply Forall_lookup_1 in Hts; [|done]. cbn in Hts. congruence. }
      split; cbn [fst snd]; naive_solver. }
    clear E Hts. revert H0. generalize (sessions st.1) as m0. intros m0 H0.
    induction Hr as [|x y z Hxy Hyz IH]; [done|]. apply IH. clear IH Hyz.
    destruct Hxy; [by apply goc_inv_read|by eapply goc_inv_write]. }
  cbn [fst snd] in *. split; [|split].
  - intros i j c d l k b1 b2 Hi Hj Hcd Hc Hd. split.
    + pose proof (Ha i c l b1 Hi Hc) as H1. pose proof (Ha j d k b2 Hj Hd) as H2.
      rewrite Hcd in H1. congruence.
    + intros -> ->. by eapply Ho.
  - intros i c l b Hi Hc Hn. by apply (Hcr _ _ (Ha i c l b Hi Hc)).
  - intros i c l b Hi Hc [k Hs]. destruct b; [|done].
    rewrite (Hold i c l Hi Hc) in Hs. done.
Qed.

(** Both calls miss under the read lock; one creates the session. *)
Lemma GetOrCreate_concurrent_witness :
  let c := {| goc_addr := "a"; goc_server := "s"; goc_id := "x"; goc_state := GocStart |} in
  let d := {| goc_addr := "a"; goc_server := "s"; goc_id := "y"; goc_state := GocStart |} in
  exists sm' l k b1 b2,
    rtc goc_step (initial 60 true, [c; d]) (sm', [set_pc (GocDone l b1) c; set_pc (GocDone k b2) d]) /\
    l = k /\ b1 = true /\ b2 = false.
Proof.
  intros c d.
  assert (rtc goc_step (initial 60 true, [c; d])
    ((create_locked (initial 60 true) 5 "x" "a" "s").1,
     [set_pc (GocDone 0 true) c; set_pc (GocDone 0 false) d])) as Hr.
  { eapply rtc_l; [by apply (goc_read _ _ 0 c)|].
    eapply rtc_l; [by apply (goc_read _ _ 1 d)|].
    eapply rtc_l; [by apply (goc_write _ _ 0 (set_pc GocMissed c) 5)|].
    eapply rtc_l; [by apply (goc_write _ _ 1 (set_pc GocMissed d) 6)|]. apply rtc_refl. }
  do 5 eexists. split; [exact Hr|]. split; [|done].
  apply (proj1 (GetOrCreate_concurrent _ _ [c; d] _ ltac:(repeat constructor) Hr)
    0%nat 1%nat (set_pc (GocDone 0 true) c) (set_pc (GocDone 0 false) d) 0%nat 0%nat true false); done.
Defined.
