(* ===== verification/Outbound.v ===== *)
(** * Outbound nodes: [internal/config/proxy_outbound.go]

    [ProxyOutbound] holds every field of the structure except its mutexes.  The
    runtime state behind the [runtime] pointer is shared between an outbound and
    its clones, so it lives in a heap: the list of the runtimes allocated, a
    pointer being a position.  A [nil] runtime reads as the zero runtime; it is
    allocated by the first operation that writes through it and by [Clone].  The
    [*bool] and [*time.Time] fields are never written through, so they are
    options. *)

From Stdlib Require Import Strings.String Strings.Ascii.
From S2P Require Import Prelude GoBytes GoString.

(** ** Data *)

Definition ProtocolShadowsocks : string := "shadowsocks".
Definition ProtocolVMess : string := "vmess".
Definition ProtocolTrojan : string := "trojan".
Definition ProtocolVLESS : string := "vless".
Definition ProtocolSOCKS5 : string := "socks5".
Definition ProtocolHTTP : string := "http".
Definition ProtocolHysteria2 : string := "hysteria2".
Definition ProtocolAnyTLS : string := "anytls".

Definition supportedSSMethods : list string :=
  ["aes-128-gcm"; "aes-256-gcm"; "chacha20-ietf-poly1305"; "2022-blake3-aes-128-gcm";
   "2022-blake3-aes-256-gcm"; "2022-blake3-chacha20-poly1305"]%string.

Record proxyOutboundRuntime := {
  healthy : bool;
  lastCheck : gotime;
  latency : Z;
  connCount : Z;
  lastError : string;
  bytesUp : Z;
  bytesDown : Z;
  lastActive : gotime;
  activeSince : gotime;
  activeDuration : Z;
}.

Definition zero_runtime : proxyOutboundRuntime :=
  {| healthy := false; lastCheck := 0; latency := 0; connCount := 0; lastError := "";
     bytesUp := 0; bytesDown := 0; lastActive := 0; activeSince := 0; activeDuration := 0 |}.

Abbreviation runtime_ptr := nat (only parsing).
Abbreviation runtime_heap := (list proxyOutboundRuntime) (only parsing).

Record ProxyOutbound := {
  Name : string;
  Type_ : string;
  Server : string;
  Port : Z;
  Enabled : bool;
  Group : string;
  SubscriptionID : string;
  SubscriptionName : string;
  SubscriptionNodeID : string;
  Username : string;
  Method : string;
  Password : string;
  UUID : string;
  AlterID : Z;
  Security : string;
  Flow : string;
  Obfs : string;
  ObfsPassword : string;
  PortHopping : string;
  HopInterval : Z;
  UpMbps : Z;
  DownMbps : Z;
  ALPN : string;
  CertFingerprint : string;
  DisableMTU : bool;
  IdleSessionCheckInterval : Z;
  IdleSessionTimeout : Z;
  MinIdleSession : Z;
  TLS : bool;
  SNI : string;
  Insecure : bool;
  Fingerprint : string;
  Reality : bool;
  RealityPublicKey : string;
  RealityShortID : string;
  Network : string;
  WSPath : string;
  WSHost : string;
  XHTTPMode : string;
  GRPCServiceName : string;
  GRPCAuthority : string;
  TCPLatencyMs : Z;
  HTTPLatencyMs : Z;
  UDPAvailable : option bool;
  UDPLatencyMs : Z;
  AutoSelectBlocked : bool;
  AutoSelectBlockReason : string;
  AutoSelectBlockExpiresAt : option gotime;
  runtime : option runtime_ptr;
}.

#[export] Instance ProxyOutbound_eq_dec : EqDecision ProxyOutbound.
Proof. solve_decision. Defined.

(** The composite literal with every field zero. *)
Definition zero_outbound : ProxyOutbound :=
  {| Name := ""; Type_ := ""; Server := ""; Port := 0; Enabled := false; Group := "";
     SubscriptionID := ""; SubscriptionName := ""; SubscriptionNodeID := ""; Username := "";
     Method := ""; Password := ""; UUID := ""; AlterID := 0; Security := ""; Flow := "";
     Obfs := ""; ObfsPassword := ""; PortHopping := ""; HopInterval := 0; UpMbps := 0;
     DownMbps := 0; ALPN := ""; CertFingerprint := ""; DisableMTU := false;
     IdleSessionCheckInterval := 0; IdleSessionTimeout := 0; MinIdleSession := 0; TLS := false;
     SNI := ""; Insecure := false; Fingerprint := ""; Reality := false; RealityPublicKey := "";
     RealityShortID := ""; Network := ""; WSPath := ""; WSHost := ""; XHTTPMode := "";
     GRPCServiceName := ""; GRPCAuthority := ""; TCPLatencyMs := 0; HTTPLatencyMs := 0;
     UDPAvailable := None; UDPLatencyMs := 0; AutoSelectBlocked := false;
     AutoSelectBlockReason := ""; AutoSelectBlockExpiresAt := None; runtime := None |}.

Definition with_runtime (r : option runtime_ptr) (p : ProxyOutbound) : ProxyOutbound :=
  {| Name := Name p; Type_ := Type_ p; Server := Server p; Port := Port p;
     Enabled := Enabled p; Group := Group p; SubscriptionID := SubscriptionID p;
     SubscriptionName := SubscriptionName p; SubscriptionNodeID := SubscriptionNodeID p;
     Username := Username p; Method := Method p; Password := Password p; UUID := UUID p;
     AlterID := AlterID p; Security := Security p; Flow := Flow p; Obfs := Obfs p;
     ObfsPassword := ObfsPassword p; PortHopping := PortHopping p;
     HopInterval := HopInterval p; UpMbps := UpMbps p; DownMbps := DownMbps p; ALPN := ALPN p;
     CertFingerprint := CertFingerprint p; DisableMTU := DisableMTU p;
     IdleSessionCheckInterval := IdleSessionCheckInterval p;
     IdleSessionTimeout := IdleSessionTimeout p; MinIdleSession := MinIdleSession p;
     TLS := TLS p; SNI := SNI p; Insecure := Insecure p; Fingerprint := Fingerprint p;
     Reality := Reality p; RealityPublicKey := RealityPublicKey p;
     RealityShortID := RealityShortID p; Network := Network p; WSPath := WSPath p;
     WSHost := WSHost p; XHTTPMode := XHTTPMode p; GRPCServiceName := GRPCServiceName p;
     GRPCAuthority := GRPCAuthority p; TCPLatencyMs := TCPLatencyMs p;
     HTTPLatencyMs := HTTPLatencyMs p; UDPAvailable := UDPAvailable p;
     UDPLatencyMs := UDPLatencyMs p; AutoSelectBlocked := AutoSelectBlocked p;
     AutoSelectBlockReason := AutoSelectBlockReason p;
     AutoSelectBlockExpiresAt := AutoSelectBlockExpiresAt p; runtime := r |}.

(** ** Validation *)

(** The errors of [Validate], by the field they name. *)
Inductive validate_err :=
| MissingField (field : string)
| InvalidField (field : string).

Definition when_empty (s : string) (e : validate_err) (rest : option validate_err) : option validate_err :=
  if String.eqb s "" then Some e else rest.

Definition validateShadowsocks (p : ProxyOutbound) : option validate_err :=
  when_empty (Method p) (MissingField "method") (
  if negb (existsb (String.eqb (Method p)) supportedSSMethods) then Some (InvalidField "method") else
  when_empty (Password p) (MissingField "password") None).

Definition validateVMess (p : ProxyOutbound) : option validate_err :=
  when_empty (UUID p) (MissingField "uuid") None.

Definition validateTrojan (p : ProxyOutbound) : option validate_err :=
  when_empty (Password p) (MissingField "password") None.

Definition validateHysteria2 (p : ProxyOutbound) : option validate_err :=
  when_empty (Password p) (MissingField "password") None.

Definition validateOptionalUsernamePassword (p : ProxyOutbound) : option validate_err :=
  if negb (String.eqb (Password p) "") && String.eqb (Username p) ""
  then Some (MissingField "username") else None.

Definition validateSOCKS5 (p : ProxyOutbound) : option validate_err :=
  validateOptionalUsernamePassword p.

Definition validateHTTP (p : ProxyOutbound) : option validate_err :=
  validateOptionalUsernamePassword p.

Definition validateAnyTLS (p : ProxyOutbound) : option validate_err :=
  when_empty (Password p) (MissingField "password") (
  if negb (TLS p) then Some (MissingField "tls") else
  if Reality p && String.eqb (RealityPublicKey p) "" then Some (MissingField "reality_public_key") else
  if IdleSessionCheckInterval p <? 0 then Some (InvalidField "idle_session_check_interval") else
  if IdleSessionTimeout p <? 0 then Some (InvalidField "idle_session_timeout") else
  if MinIdleSession p <? 0 then Some (InvalidField "min_idle_session") else None).

Section validate.
Context `{Unicode}.

Definition validateTransport (p : ProxyOutbound) : option validate_err :=
  let network := to_lower (trim_space (Network p)) in
  if existsb (String.eqb network) ["";"tcp";"ws";"httpupgrade";"http-upgrade";"xhttp"]%string
  then None
  else if String.eqb network "grpc" then
    if String.eqb (trim_space (GRPCServiceName p)) "" then Some (MissingField "grpc_service_name")
    else None
  else Some (InvalidField "network").

Definition validateVLESS (p : ProxyOutbound) : option validate_err :=
  when_empty (UUID p) (MissingField "uuid") (
  if Reality p && String.eqb (RealityPublicKey p) "" then Some (MissingField "reality_public_key")
  else validateTransport p).

(** [None] is the [nil] error. *)
Definition Validate (p : ProxyOutbound) : option validate_err :=
  when_empty (Name p) (MissingField "name") (
  when_empty (Type_ p) (MissingField "type") (
  when_empty (Server p) (MissingField "server") (
  if (Port p <=? 0) || (65535 <? Port p) then Some (InvalidField "port") else
  let t := to_lower (Type_ p) in
  if String.eqb t ProtocolShadowsocks then validateShadowsocks p else
  if String.eqb t ProtocolVMess then validateVMess p else
  if String.eqb t ProtocolTrojan then validateTrojan p else
  if String.eqb t ProtocolVLESS then validateVLESS p else
  if String.eqb t ProtocolSOCKS5 then validateSOCKS5 p else
  if String.eqb t ProtocolHTTP then validateHTTP p else
  if String.eqb t ProtocolHysteria2 then validateHysteria2 p else
  if String.eqb t ProtocolAnyTLS then validateAnyTLS p else
  Some (InvalidField "type")))).
End validate.

(** ** Runtime state *)

(** The runtime seen through an outbound. *)
Definition runtime_of (h : runtime_heap) (p : ProxyOutbound) : proxyOutboundRuntime :=
  match runtime p with
  | Some r => default zero_runtime (h !! r)
  | None => zero_runtime
  end.

(** The pointer, the outbound with its [runtime] field set, and the heap. *)
Definition runtimeState (h : runtime_heap) (p : ProxyOutbound)
  : runtime_ptr * ProxyOutbound * runtime_heap :=
  match runtime p with
  | Some r => (r, p, h)
  | None => (length h, with_runtime (Some (length h)) p, h ++ [zero_runtime])
  end.

(** A locked update of the runtime. *)
Definition on_runtime (f : proxyOutboundRuntime -> proxyOutboundRuntime) (h : runtime_heap)
    (p : ProxyOutbound) : ProxyOutbound * runtime_heap :=
  let '(r, p, h) := runtimeState h p in (p, alter f r h).

Definition set_health (ok : bool) (err : string) (check : gotime) (lat : Z) (rt : proxyOutboundRuntime)
  : proxyOutboundRuntime :=
  {| healthy := ok; lastCheck := check; latency := lat; connCount := connCount rt; lastError := err;
     bytesUp := bytesUp rt; bytesDown := bytesDown rt; lastActive := lastActive rt;
     activeSince := activeSince rt; activeDuration := activeDuration rt |}.

Definition set_conn (count : Z) (active since : gotime) (dur : Z) (rt : proxyOutboundRuntime)
  : proxyOutboundRuntime :=
  {| healthy := healthy rt; lastCheck := lastCheck rt; latency := latency rt; connCount := count;
     lastError := lastError rt; bytesUp := bytesUp rt; bytesDown := bytesDown rt;
     lastActive := active; activeSince := since; activeDuration := dur |}.

Definition set_bytes (up down : Z) (active : gotime) (rt : proxyOutboundRuntime) : proxyOutboundRuntime :=
  {| healthy := healthy rt; lastCheck := lastCheck rt; latency := latency rt; connCount := connCount rt;
     lastError := lastError rt; bytesUp := up; bytesDown := down;
     lastActive := active; activeSince := activeSince rt; activeDuration := activeDuration rt |}.

Definition rt_SetHealthy (b : bool) (rt : proxyOutboundRuntime) : proxyOutboundRuntime :=
  set_health b (lastError rt) (lastCheck rt) (latency rt) rt.
Definition rt_SetLastCheck (t : gotime) (rt : proxyOutboundRuntime) : proxyOutboundRuntime :=
  set_health (healthy rt) (lastError rt) t (latency rt) rt.
Definition rt_SetLatency (d : Z) (rt : proxyOutboundRuntime) : proxyOutboundRuntime :=
  set_health (healthy rt) (lastError rt) (lastCheck rt) d rt.
Definition rt_SetLastError (e : string) (rt : proxyOutboundRuntime) : proxyOutboundRuntime :=
  set_health (healthy rt) e (lastCheck rt) (latency rt) rt.

Definition rt_IncrConnCount (now : gotime) (rt : proxyOutboundRuntime) : proxyOutboundRuntime :=
  let since := if connCount rt =? 0 then now else activeSince rt in
  set_conn (i64 (connCount rt + 1)) now since (activeDuration rt) rt.

Definition rt_DecrConnCount (now : gotime) (rt : proxyOutboundRuntime) : proxyOutboundRuntime :=
  if 0 <? connCount rt then
    let count := connCount rt - 1 in
    if (count =? 0) && negb (is_zero_time (activeSince rt))
    then set_conn count now 0 (i64 (activeDuration rt + time_sub now (activeSince rt))) rt
    else set_conn count now (activeSince rt) (activeDuration rt) rt
  else rt.

Definition rt_AddBytesUp (now : gotime) (n : Z) (rt : proxyOutboundRuntime) : proxyOutboundRuntime :=
  set_bytes (i64 (bytesUp rt + n)) (bytesDown rt) now rt.
Definition rt_AddBytesDown (now : gotime) (n : Z) (rt : proxyOutboundRuntime) : proxyOutboundRuntime :=
  set_bytes (bytesUp rt) (i64 (bytesDown rt + n)) now rt.

Definition SetHealthy (b : bool) := on_runtime (rt_SetHealthy b).
Definition SetLastCheck (t : gotime) := on_runtime (rt_SetLastCheck t).
Definition SetLatency (d : Z) := on_runtime (rt_SetLatency d).
Definition SetLastError (e : string) := on_runtime (rt_SetLastError e).
Definition IncrConnCount (now : gotime) := on_runtime (rt_IncrConnCount now).
Definition DecrConnCount (now : gotime) := on_runtime (rt_DecrConnCount now).

Definition AddBytesUp (now : gotime) (n : Z) (h : runtime_heap) (p : ProxyOutbound)
  : ProxyOutbound * runtime_heap :=
  if n <=? 0 then (p, h) else on_runtime (rt_AddBytesUp now n) h p.
Definition AddBytesDown (now : gotime) (n : Z) (h : runtime_heap) (p : ProxyOutbound)
  : ProxyOutbound * runtime_heap :=
  if n <=? 0 then (p, h) else on_runtime (rt_AddBytesDown now n) h p.

Definition GetHealthy (h : runtime_heap) (p : ProxyOutbound) : bool := healthy (runtime_of h p).
Definition GetLastCheck (h : runtime_heap) (p : ProxyOutbound) : gotime := lastCheck (runtime_of h p).
Definition GetLatency (h : runtime_heap) (p : ProxyOutbound) : Z := latency (runtime_of h p).
Definition GetConnCount (h : runtime_heap) (p : ProxyOutbound) : Z := connCount (runtime_of h p).
Definition GetLastError (h : runtime_heap) (p : ProxyOutbound) : string := lastError (runtime_of h p).
Definition GetBytesUp (h : runtime_heap) (p : ProxyOutbound) : Z := bytesUp (runtime_of h p).
Definition GetBytesDown (h : runtime_heap) (p : ProxyOutbound) : Z := bytesDown (runtime_of h p).
Definition GetLastActive (h : runtime_heap) (p : ProxyOutbound) : gotime := lastActive (runtime_of h p).

Definition rt_active_duration (now : gotime) (rt : proxyOutboundRuntime) : Z :=
  if (0 <? connCount rt) && negb (is_zero_time (activeSince rt))
  then i64 (activeDuration rt + time_sub now (activeSince rt))
  else activeDuration rt.

Definition GetActiveDuration (now : gotime) (h : runtime_heap) (p : ProxyOutbound) : Z :=
  rt_active_duration now (runtime_of h p).

(** ** Test results *)

Definition with_tests (tcp http : Z) (udp : option bool) (udpms : Z) (p : ProxyOutbound) : ProxyOutbound :=
  {| Name := Name p; Type_ := Type_ p; Server := Server p; Port := Port p;
     Enabled := Enabled p; Group := Group p; SubscriptionID := SubscriptionID p;
     SubscriptionName := SubscriptionName p; SubscriptionNodeID := SubscriptionNodeID p;
     Username := Username p; Method := Method p; Password := Password p; UUID := UUID p;
     AlterID := AlterID p; Security := Security p; Flow := Flow p; Obfs := Obfs p;
     ObfsPassword := ObfsPassword p; PortHopping := PortHopping p;
     HopInterval := HopInterval p; UpMbps := UpMbps p; DownMbps := DownMbps p; ALPN := ALPN p;
     CertFingerprint := CertFingerprint p; DisableMTU := DisableMTU p;
     IdleSessionCheckInterval := IdleSessionCheckInterval p;
     IdleSessionTimeout := IdleSessionTimeout p; MinIdleSession := MinIdleSession p;
     TLS := TLS p; SNI := SNI p; Insecure := Insecure p; Fingerprint := Fingerprint p;
     Reality := Reality p; RealityPublicKey := RealityPublicKey p;
     RealityShortID := RealityShortID p; Network := Network p; WSPath := WSPath p;
     WSHost := WSHost p; XHTTPMode := XHTTPMode p; GRPCServiceName := GRPCServiceName p;
     GRPCAuthority := GRPCAuthority p; TCPLatencyMs := tcp; HTTPLatencyMs := http;
     UDPAvailable := udp; UDPLatencyMs := udpms; AutoSelectBlocked := AutoSelectBlocked p;
     AutoSelectBlockReason := AutoSelectBlockReason p;
     AutoSelectBlockExpiresAt := AutoSelectBlockExpiresAt p; runtime := runtime p |}.

Definition GetTCPLatencyMs (p : ProxyOutbound) : Z := TCPLatencyMs p.
Definition SetTCPLatencyMs (ms : Z) (p : ProxyOutbound) : ProxyOutbound :=
  with_tests ms (HTTPLatencyMs p) (UDPAvailable p) (UDPLatencyMs p) p.
Definition GetHTTPLatencyMs (p : ProxyOutbound) : Z := HTTPLatencyMs p.
Definition SetHTTPLatencyMs (ms : Z) (p : ProxyOutbound) : ProxyOutbound :=
  with_tests (TCPLatencyMs p) ms (UDPAvailable p) (UDPLatencyMs p) p.
Definition GetUDPAvailable (p : ProxyOutbound) : option bool := UDPAvailable p.
Definition SetUDPAvailable (b : option bool) (p : ProxyOutbound) : ProxyOutbound :=
  with_tests (TCPLatencyMs p) (HTTPLatencyMs p) b (UDPLatencyMs p) p.
Definition GetUDPLatencyMs (p : ProxyOutbound) : Z := UDPLatencyMs p.
Definition SetUDPLatencyMs (ms : Z) (p : ProxyOutbound) : ProxyOutbound :=
  with_tests (TCPLatencyMs p) (HTTPLatencyMs p) (UDPAvailable p) ms p.

(** ** Automatic-selection block *)

Definition isAutoSelectBlockedLocked (now : gotime) (p : ProxyOutbound) : bool :=
  AutoSelectBlocked p &&
  match AutoSelectBlockExpiresAt p with
  | None => true
  | Some t => now <? t
  end.

Definition IsAutoSelectBlocked (now : gotime) (p : ProxyOutbound) : bool :=
  isAutoSelectBlockedLocked now p.

Definition GetEffectiveAutoSelectBlock (now : gotime) (p : ProxyOutbound)
  : bool * string * option gotime :=
  if isAutoSelectBlockedLocked now p
  then (true, AutoSelectBlockReason p, AutoSelectBlockExpiresAt p)
  else (false, ""%string, None).

(** ** Clone and Equal *)

(** The clone, the original with its runtime set, and the heap.  The literal
    lists the fields the code lists, then the two pointers it copies. *)
Definition Clone (h : runtime_heap) (p : ProxyOutbound)
  : ProxyOutbound * ProxyOutbound * runtime_heap :=
  let '(r, p, h) := runtimeState h p in
  let clone :=
    {| Name := Name p; Type_ := Type_ p; Server := Server p; Port := Port p;
       Enabled := Enabled p; Group := Group p; AutoSelectBlocked := AutoSelectBlocked p;
       AutoSelectBlockReason := AutoSelectBlockReason p; SubscriptionID := SubscriptionID p;
       SubscriptionName := SubscriptionName p; SubscriptionNodeID := SubscriptionNodeID p;
       Username := Username p; Method := Method p; Password := Password p; UUID := UUID p;
       AlterID := AlterID p; Security := Security p; Flow := Flow p; Obfs := Obfs p;
       ObfsPassword := ObfsPassword p; PortHopping := PortHopping p;
       HopInterval := HopInterval p; UpMbps := UpMbps p; DownMbps := DownMbps p; ALPN := ALPN p;
       CertFingerprint := CertFingerprint p; DisableMTU := DisableMTU p;
       IdleSessionCheckInterval := IdleSessionCheckInterval p;
       IdleSessionTimeout := IdleSessionTimeout p; MinIdleSession := MinIdleSession p;
       TLS := TLS p; SNI := SNI p; Insecure := Insecure p; Fingerprint := Fingerprint p;
       Reality := Reality p; RealityPublicKey := RealityPublicKey p;
       RealityShortID := RealityShortID p; Network := Network p; WSPath := WSPath p;
       WSHost := WSHost p; XHTTPMode := XHTTPMode p; GRPCServiceName := GRPCServiceName p;
       GRPCAuthority := GRPCAuthority p; TCPLatencyMs := TCPLatencyMs p;
       HTTPLatencyMs := HTTPLatencyMs p; UDPLatencyMs := UDPLatencyMs p; runtime := Some r;
       UDPAvailable := UDPAvailable p; AutoSelectBlockExpiresAt := AutoSelectBlockExpiresAt p |} in
  (clone, p, h).

Definition Equal (p other : ProxyOutbound) : bool :=
  String.eqb (Name p) (Name other) &&
  String.eqb (Type_ p) (Type_ other) &&
  String.eqb (Server p) (Server other) &&
  (Port p =? Port other) &&
  Bool.eqb (Enabled p) (Enabled other) &&
  String.eqb (Group p) (Group other) &&
  String.eqb (Username p) (Username other) &&
  String.eqb (Method p) (Method other) &&
  String.eqb (Password p) (Password other) &&
  String.eqb (UUID p) (UUID other) &&
  (AlterID p =? AlterID other) &&
  String.eqb (Security p) (Security other) &&
  String.eqb (Flow p) (Flow other) &&
  String.eqb (Obfs p) (Obfs other) &&
  String.eqb (ObfsPassword p) (ObfsPassword other) &&
  String.eqb (PortHopping p) (PortHopping other) &&
  (HopInterval p =? HopInterval other) &&
  (UpMbps p =? UpMbps other) &&
  (DownMbps p =? DownMbps other) &&
  String.eqb (ALPN p) (ALPN other) &&
  String.eqb (CertFingerprint p) (CertFingerprint other) &&
  Bool.eqb (DisableMTU p) (DisableMTU other) &&
  (IdleSessionCheckInterval p =? IdleSessionCheckInterval other) &&
  (IdleSessionTimeout p =? IdleSessionTimeout other) &&
  (MinIdleSession p =? MinIdleSession other) &&
  Bool.eqb (TLS p) (TLS other) &&
  String.eqb (SNI p) (SNI other) &&
  Bool.eqb (Insecure p) (Insecure other) &&
  String.eqb (Fingerprint p) (Fingerprint other) &&
  Bool.eqb (Reality p) (Reality other) &&
  String.eqb (RealityPublicKey p) (RealityPublicKey other) &&
  String.eqb (RealityShortID p) (RealityShortID other) &&
  String.eqb (Network p) (Network other) &&
  String.eqb (WSPath p) (WSPath other) &&
  String.eqb (WSHost p) (WSHost other) &&
  String.eqb (XHTTPMode p) (XHTTPMode other) &&
  String.eqb (GRPCServiceName p) (GRPCServiceName other) &&
  String.eqb (GRPCAuthority p) (GRPCAuthority other).

(** * Facts *)

Definition wf_ptr (h : runtime_heap) (p : ProxyOutbound) : Prop :=
  forall r, runtime p = Some r -> (r < length h)%nat.

Lemma runtimeState_spec h p r p' h' :
  wf_ptr h p -> runtimeState h p = (r, p', h') ->
  p' = with_runtime (Some r) p /\ (r < length h')%nat /\ h' !! r = Some (runtime_of h p) /\
  (forall k rt, h !! k = Some rt -> h' !! k = Some rt) /\ (length h <= length h')%nat.
Proof.
  intros Hw. unfold runtimeState, runtime_of. destruct (runtime p) as [k|] eqn:E; intros [= <- <- <-].
  - specialize (Hw k E). destruct (lookup_lt_is_Some_2 h k Hw) as [rt Hrt].
    split; [destruct p; cbn in *; by subst|]. by rewrite Hrt.
  - split; [done|]. rewrite length_app. split; [cbn; lia|].
    split; [by apply list_lookup_middle|]. split; [|lia].
    intros k rt. apply lookup_app_l_Some.
Qed.

(** What [Equal] compares: the configuration without the test results, the
    automatic-selection block, the subscription and the runtime. *)
Definition config_of  (p : ProxyOutbound) : ProxyOutbound :=
  {| Name := Name p; Type_ := Type_ p; Server := Server p; Port := Port p;
     Enabled := Enabled p; Group := Group p; SubscriptionID := ""; SubscriptionName := "";
     SubscriptionNodeID := ""; Username := Username p; Method := Method p;
     Password := Password p; UUID := UUID p; AlterID := AlterID p; Security := Security p;
     Flow := Flow p; Obfs := Obfs p; ObfsPassword := ObfsPassword p;
     PortHopping := PortHopping p; HopInterval := HopInterval p; UpMbps := UpMbps p;
     DownMbps := DownMbps p; ALPN := ALPN p; CertFingerprint := CertFingerprint p;
     DisableMTU := DisableMTU p; IdleSessionCheckInterval := IdleSessionCheckInterval p;
     IdleSessionTimeout := IdleSessionTimeout p; MinIdleSession := MinIdleSession p;
     TLS := TLS p; SNI := SNI p; Insecure := Insecure p; Fingerprint := Fingerprint p;
     Reality := Reality p; RealityPublicKey := RealityPublicKey p;
     RealityShortID := RealityShortID p; Network := Network p; WSPath := WSPath p;
     WSHost := WSHost p; XHTTPMode := XHTTPMode p; GRPCServiceName := GRPCServiceName p;
     GRPCAuthority := GRPCAuthority p; TCPLatencyMs := 0; HTTPLatencyMs := 0;
     UDPAvailable := None; UDPLatencyMs := 0; AutoSelectBlocked := false;
     AutoSelectBlockReason := ""; AutoSelectBlockExpiresAt := None; runtime := None |}.

Lemma bool_eqb_iff a b : Bool.eqb a b = true <-> a = b.
Proof. apply Bool.eqb_true_iff. Qed.

(** [Clone] copies every field: the clone differs from the original at most in the
    runtime pointer, both end up with the same runtime, and no runtime changes. *)
Theorem Clone_complete (h : runtime_heap) (p : ProxyOutbound) :
  wf_ptr h p ->
  exists c p' h' r,
    Clone h p = (c, p', h') /\ c = p' /\ c = with_runtime (Some r) p /\
    runtime_of h' c = runtime_of h p /\
    (forall k rt, h !! k = Some rt -> h' !! k = Some rt) /\ wf_ptr h' c.
Proof.
  intros Hw. unfold Clone. destruct (runtimeState h p) as [[r p1] h1] eqn:E.
  apply runtimeState_spec in E as (-> & Hr & Hl & Hh & _); [|done].
  do 4 eexists. split; [done|]. split; [by destruct p|]. split; [by destruct p|].
  split; [|split; [done|]].
  - unfold runtime_of at 1. cbn [runtime with_runtime]. by rewrite Hl.
  - intros k. cbn. by intros [= <-].
Qed.

Lemma Clone_complete_witness :
  exists r, (Clone [] zero_outbound).1.1 = with_runtime (Some r) zero_outbound.
Proof.
  destruct (Clone_complete [] zero_outbound) as (c & p' & h' & r & E & _ & Hc & _); [done|].
  exists r. by rewrite E.
Defined.

(** [Equal] decides equality of the configurations proper, so it is an equivalence
    relation, and a node is equal to its clone. *)
Theorem Equal_config (p q : ProxyOutbound) :
  (Equal p q = true <-> config_of p = config_of q) /\
  (forall h, wf_ptr h p -> Equal p (Clone h p).1.1 = true).
Proof.
  assert (forall q, Equal p q = true <-> config_of p = config_of q) as Hiff.
  { intros o. unfold Equal, config_of. rewrite !andb_true_iff, !String.eqb_eq, !Z.eqb_eq, !bool_eqb_iff.
    split; [intros H; decompose [and] H; f_equal; done|intros [=]; repeat split; done]. }
  split; [apply Hiff|]. intros h Hw. apply Hiff.
  unfold Clone. destruct (runtimeState h p) as [[r p1] h1] eqn:E.
  apply runtimeState_spec in E as (-> & _); [|done]. by destruct p.
Qed.


(** ** Validation *)

(** What each protocol requires of a node. *)
Section valid.
Context `{Unicode}.

Definition transport_ok (p : ProxyOutbound) : Prop :=
  let n := to_lower (trim_space (Network p)) in
  n ∈ [""; "tcp";"ws";"httpupgrade";"http-upgrade";"xhttp"]%string \/
  (n = "grpc"%string /\ trim_space (GRPCServiceName p) <> ""%string).

Definition reality_ok (p : ProxyOutbound) : Prop :=
  Reality p = true -> RealityPublicKey p <> ""%string.

Inductive protocol_ok (p : ProxyOutbound) : string -> Prop :=
| ok_shadowsocks : Method p ∈ supportedSSMethods -> Password p <> ""%string ->
    protocol_ok p ProtocolShadowsocks
| ok_vmess : UUID p <> ""%string -> protocol_ok p ProtocolVMess
| ok_trojan : Password p <> ""%string -> protocol_ok p ProtocolTrojan
| ok_vless : UUID p <> ""%string -> reality_ok p -> transport_ok p -> protocol_ok p ProtocolVLESS
| ok_socks5 : (Password p <> ""%string -> Username p <> ""%string) -> protocol_ok p ProtocolSOCKS5
| ok_http : (Password p <> ""%string -> Username p <> ""%string) -> protocol_ok p ProtocolHTTP
| ok_hysteria2 : Password p <> ""%string -> protocol_ok p ProtocolHysteria2
| ok_anytls : Password p <> ""%string -> TLS p = true -> reality_ok p ->
    0 <= IdleSessionCheckInterval p -> 0 <= IdleSessionTimeout p -> 0 <= MinIdleSession p ->
    protocol_ok p ProtocolAnyTLS.

Lemma when_empty_None s e rest : when_empty s e rest = None <-> s <> ""%string /\ rest = None.
Proof. unfold when_empty. destruct (String.eqb_spec s ""); naive_solver. Qed.

Lemma existsb_eqb s l : existsb (String.eqb s) l = true <-> s ∈ l.
Proof.
  rewrite existsb_exists. split.
  - intros (x & Hx & ->%String.eqb_eq). by apply list_elem_of_In.
  - intros Hs. exists s. rewrite String.eqb_refl. split; [by apply list_elem_of_In|done].
Qed.

Lemma reality_ok_b p : (Reality p && String.eqb (RealityPublicKey p) "") = false <-> reality_ok p.
Proof.
  unfold reality_ok. destruct (Reality p); cbn; [|naive_solver].
  rewrite String.eqb_neq. naive_solver.
Qed.

Lemma validateShadowsocks_ok p :
  validateShadowsocks p = None <-> Method p ∈ supportedSSMethods /\ Password p <> ""%string.
Proof.
  unfold validateShadowsocks. rewrite when_empty_None.
  destruct (existsb _ _) eqn:E; cbn [negb].
  - rewrite when_empty_None. apply existsb_eqb in E.
    split; [naive_solver|]. intros [Hm ?]. split; [|done]. intros E0. by rewrite E0 in Hm; vm_compute in Hm;
      repeat (apply elem_of_cons in Hm as [Hm|Hm]; [done|]); apply not_elem_of_nil in Hm.
  - split; [naive_solver|]. intros [Hm _]. apply existsb_eqb in Hm. congruence.
Qed.

Lemma validateAuth_ok p :
  validateOptionalUsernamePassword p = None <-> (Password p <> ""%string -> Username p <> ""%string).
Proof.
  unfold validateOptionalUsernamePassword.
  destruct (String.eqb_spec (Password p) ""), (String.eqb_spec (Username p) ""); cbn; naive_solver.
Qed.

Lemma validateTransport_ok p : validateTransport p = None <-> transport_ok p.
Proof.
  unfold validateTransport, transport_ok. set (n := to_lower _).
  destruct (existsb _ _) eqn:E.
  - apply existsb_eqb in E. naive_solver.
  - assert (n ∉ ["";"tcp";"ws";"httpupgrade";"http-upgrade";"xhttp"]%string) as Hn.
    { intros Hn. apply existsb_eqb in Hn. congruence. }
    destruct (String.eqb_spec n "grpc"); [|naive_solver].
    destruct (String.eqb_spec (trim_space (GRPCServiceName p)) ""); naive_solver.
Qed.

Lemma validateVLESS_ok p :
  validateVLESS p = None <-> UUID p <> ""%string /\ reality_ok p /\ transport_ok p.
Proof.
  unfold validateVLESS. rewrite when_empty_None, <- reality_ok_b, <- validateTransport_ok.
  destruct (_ && _); naive_solver.
Qed.

Lemma validateAnyTLS_ok p :
  validateAnyTLS p = None <->
  Password p <> ""%string /\ TLS p = true /\ reality_ok p /\
  0 <= IdleSessionCheckInterval p /\ 0 <= IdleSessionTimeout p /\ 0 <= MinIdleSession p.
Proof.
  unfold validateAnyTLS. rewrite when_empty_None, <- reality_ok_b.
  destruct (TLS p); cbn [negb]; [|naive_solver]. destruct (Reality p && _); [naive_solver|].
  bool_cases; naive_solver lia.
Qed.

(** C35: [Validate] accepts exactly the nodes with a name, a server, a port between 1
    and 65535 and a known protocol, in any case, whose requirements hold. *)
Theorem Validate_spec (p : ProxyOutbound) :
  Validate p = None <->
  Name p <> ""%string /\ Type_ p <> ""%string /\ Server p <> ""%string /\ 1 <= Port p <= 65535 /\
  protocol_ok p (to_lower (Type_ p)).
Proof.
  unfold Validate. rewrite !when_empty_None.
  destruct ((Port p <=? 0) || (65535 <? Port p)) eqn:Hport.
  { apply orb_true_iff in Hport. rewrite Z.leb_le, Z.ltb_lt in Hport. naive_solver lia. }
  bool_prop. set (t := to_lower (Type_ p)).
  enough (
    (if String.eqb t ProtocolShadowsocks then validateShadowsocks p else
     if String.eqb t ProtocolVMess then validateVMess p else
     if String.eqb t ProtocolTrojan then validateTrojan p else
     if String.eqb t ProtocolVLESS then validateVLESS p else
     if String.eqb t ProtocolSOCKS5 then validateSOCKS5 p else
     if String.eqb t ProtocolHTTP then validateHTTP p else
     if String.eqb t ProtocolHysteria2 then validateHysteria2 p else
     if String.eqb t ProtocolAnyTLS then validateAnyTLS p else
     Some (InvalidField "type")) = None <-> protocol_ok p t) by naive_solver lia.
  repeat match goal with
  | |- context [String.eqb t ?c] =>
      destruct (String.eqb_spec t c) as [->|];
      [clear; unfold validateVMess, validateTrojan, validateSOCKS5, validateHTTP, validateHysteria2;
       rewrite ?validateShadowsocks_ok, ?validateVLESS_ok, ?validateAnyTLS_ok, ?validateAuth_ok,
         ?when_empty_None;
       split; [intros; constructor; naive_solver|inversion 1; naive_solver]|]
  end.
  split; [done|]. inversion 1; congruence.
Qed.
End valid.

(** ** Connection accounting *)

(** Connections opened ([true]) and closed ([false]) at given times. *)
Definition conn_event : Type := gotime * bool.

Definition run_conn (l : list conn_event) (rt : proxyOutboundRuntime) : proxyOutboundRuntime :=
  fold_left (fun rt (e : conn_event) => if e.2 then rt_IncrConnCount e.1 rt else rt_DecrConnCount e.1 rt) l rt.

(** The number of open connections; a close without an open one is ignored. *)
Definition open_count (l : list conn_event) (c : Z) : Z :=
  fold_left (fun c (e : conn_event) => if e.2 then c + 1 else Z.max 0 (c - 1)) l c.

(** The time during which at least one connection was open, up to [now]. *)
Fixpoint busy_time (c : Z) (since : gotime) (l : list conn_event) (now : gotime) : Z :=
  match l with
  | [] => if 0 <? c then now - since else 0
  | (t, up) :: l =>
      (if 0 <? c then t - since else 0)
      + busy_time (if up : bool then c + 1 else Z.max 0 (c - 1)) t l now
  end.

(** Times between two bounds, in order. *)
Fixpoint ordered_from (lo : gotime) (l : list conn_event) (hi : gotime) : Prop :=
  match l with
  | [] => lo <= hi
  | (t, _) :: l => lo <= t /\ ordered_from t l hi
  end.

Lemma ordered_from_le lo l hi : ordered_from lo l hi -> lo <= hi.
Proof. revert lo. induction l as [|[t up] l IH]; intros lo; cbn; [done|]. intros [? H%IH]. lia. Qed.

(** The runtime has [c] open connections, the last event was at [last] and the
    busy time until then is [acc]. *)
Definition conn_state (rt : proxyOutboundRuntime) (c : Z) (last : gotime) (acc : Z) : Prop :=
  connCount rt = c /\ 0 <= c /\ 0 <= activeDuration rt /\
  if 0 <? c
  then 0 < activeSince rt <= last /\ activeDuration rt + (last - activeSince rt) = acc
  else activeDuration rt = acc.

Lemma i64_small z : - 2 ^ 63 <= z < 2 ^ 63 -> i64 z = z.
Proof. intros. apply wrapS_small; lia. Qed.

Lemma conn_state_incr rt c last acc t :
  conn_state rt c last acc -> c < 2 ^ 62 -> 0 < t -> last <= t ->
  conn_state (rt_IncrConnCount t rt) (c + 1) t (acc + if 0 <? c then t - last else 0).
Proof.
  intros (Hc & Hc0 & Hd & Hs) Hb Ht Hl. unfold conn_state, rt_IncrConnCount. cbn.
  rewrite Hc, i64_small by lia. rewrite (proj2 (Z.ltb_lt 0 (c + 1))) by lia.
  revert Hs. destruct (Z.ltb_spec 0 c), (Z.eqb_spec c 0); lia.
Qed.

Lemma conn_state_decr rt c last acc t :
  conn_state rt c last acc -> 0 < t < 2 ^ 62 -> last <= t -> 0 <= acc < 2 ^ 62 ->
  conn_state (rt_DecrConnCount t rt) (Z.max 0 (c - 1)) t (acc + if 0 <? c then t - last else 0).
Proof.
  intros (Hc & Hc0 & Hd & Hs) Ht Hl Ha. unfold conn_state, rt_DecrConnCount, is_zero_time, time_sub.
  rewrite Hc. revert Hs. destruct (Z.ltb_spec 0 c) as [Hp|Hp]; intros Hs.
  - rewrite (Z.max_r 0 (c - 1)) by lia. destruct (Z.eqb_spec (c - 1) 0) as [E|E]; cbn [andb].
    + rewrite (proj2 (Z.eqb_neq _ 0)) by lia. cbn. rewrite E. rewrite i64_small by lia.
      change (0 <? 0) with false. lia.
    + cbn. rewrite (proj2 (Z.ltb_lt 0 (c - 1))) by lia. cbv iota. lia.
  - assert (c = 0) as -> by lia. cbn [Z.sub Z.max]. rewrite Hc. change (0 <? Z.max 0 _) with false. lia.
Qed.

Lemma run_conn_busy l rt c last acc now :
  conn_state rt c last acc -> 0 < last -> now < 2 ^ 61 -> 0 <= acc -> acc + (now - last) < 2 ^ 61 ->
  c + zlen l < 2 ^ 61 -> ordered_from last l now ->
  connCount (run_conn l rt) = open_count l c /\
  rt_active_duration now (run_conn l rt) = acc + busy_time c last l now.
Proof.
  revert rt c last acc. induction l as [|[t up] l IH]; intros rt c last acc Hst Hl0 Hn Ha Hb Hz Ho;
    cbn [run_conn fold_left open_count busy_time].
  - destruct Hst as (Hc & Hc0 & Hd & Hs). split; [done|].
    unfold rt_active_duration, is_zero_time, time_sub. cbn in Ho. rewrite Hc. revert Hs.
    destruct (Z.ltb_spec 0 c); cbn [andb]; intros Hs; [|lia].
    rewrite (proj2 (Z.eqb_neq _ 0)) by lia. cbn [negb]. rewrite i64_small by lia. lia.
  - cbn in Ho. destruct Ho as [Ht Ho]. pose proof (ordered_from_le _ _ _ Ho).
    rewrite zlen_cons in Hz. pose proof (zlen_nonneg l).
    assert (0 <= c) by (destruct Hst as (_ & ? & _); done).
    rewrite Z.add_assoc.
    destruct up; cbn [fst snd].
    + apply (IH _ _ t); try (destruct (Z.ltb_spec 0 c); lia); [|done].
      apply conn_state_incr; try lia. done.
    + apply (IH _ _ t); try (destruct (Z.ltb_spec 0 c); lia); [|done].
      apply conn_state_decr; try lia. done.
Qed.

(** Over any sequence of openings and closings at increasing times the connection
    count is the number of open connections, never negative, and the active
    duration is exactly the time during which a connection was open. *)
Theorem connection_accounting (l : list conn_event) (start now : gotime) :
  0 < start -> ordered_from start l now -> now < 2 ^ 61 -> zlen l < 2 ^ 60 ->
  connCount (run_conn l zero_runtime) = open_count l 0 /\
  0 <= connCount (run_conn l zero_runtime) /\
  rt_active_duration now (run_conn l zero_runtime) = busy_time 0 start l now.
Proof.
  intros Hs Ho Hn Hl.
  destruct (run_conn_busy l zero_runtime 0 start 0 now) as [Hc Hd]; try lia; [|done|].
  { done. }
  rewrite Hc, Hd. split; [done|]. split; [|done].
  assert (forall c, 0 <= c -> 0 <= open_count l c) as Hpos.
  { unfold open_count. clear. induction l as [|[t up] l IH]; intros c H0; cbn; [done|].
    apply IH. destruct up; lia. }
  by apply Hpos.
Qed.

(** Two overlapping connections and a later one: busy from 10 to 30 and from 50. *)
Lemma connection_accounting_witness :
  rt_active_duration 60
    (run_conn [(10, true); (20, true); (25, false); (30, false); (40, false); (50, true)] zero_runtime)
  = 30.
Proof.
  rewrite (proj2 (proj2 (connection_accounting
    [(10, true); (20, true); (25, false); (30, false); (40, false); (50, true)] 5 60
    ltac:(lia) ltac:(cbn; lia) ltac:(lia) ltac:(reflexivity)))).
  reflexivity.
Defined.
