(* ===== verification/LoadBalancer.v ===== *)
(** * Load balancing: [internal/proxy/load_balancer.go]

    The four strategies over a list of candidate nodes.  [nil] is [Ret None]; an
    index expression out of range would be [Panic].  [rand.Intn] is the argument
    [intn]; the connection counts are read from the runtime heap. *)

From Stdlib Require Import Strings.String.
From S2P Require Import Prelude GoBytes GoString Outbound.

Definition LoadBalanceLeastLatency : string := "least-latency".
Definition LoadBalanceRoundRobin : string := "round-robin".
Definition LoadBalanceRandom : string := "random".
Definition LoadBalanceLeastConnections : string := "least-connections".

Definition LoadBalanceSortUDP : string := "udp".
Definition LoadBalanceSortTCP : string := "tcp".
Definition LoadBalanceSortHTTP : string := "http".

(** [roundRobinIndex]; a missing key reads as zero. *)
Record LoadBalancer := { roundRobinIndex : gmap string Z }.

Definition NewLoadBalancer : LoadBalancer := {| roundRobinIndex := ∅ |}.

(** No error is ever returned. *)
Inductive no_error : Set := .

Definition node_latency (sortBy : string) (node : ProxyOutbound) : Z :=
  if String.eqb sortBy LoadBalanceSortTCP then TCPLatencyMs node
  else if String.eqb sortBy LoadBalanceSortHTTP then HTTPLatencyMs node
  else UDPLatencyMs node.

(** The loop with the variables [selected] and [minLatency]. *)
Fixpoint least_latency_loop (lat : ProxyOutbound -> Z) (nodes : list ProxyOutbound)
    (selected : option ProxyOutbound) (minLatency : Z) : option ProxyOutbound * Z :=
  match nodes with
  | [] => (selected, minLatency)
  | node :: nodes =>
      let latency := lat node in
      if latency <=? 0 then least_latency_loop lat nodes selected minLatency else
      if (minLatency <? 0) || (latency <? minLatency)
      then least_latency_loop lat nodes (Some node) latency
      else least_latency_loop lat nodes selected minLatency
  end.

Definition selectLeastLatency (nodes : list ProxyOutbound) (sortBy : string) : option ProxyOutbound :=
  match nodes with
  | [] => None
  | first :: _ =>
      match (least_latency_loop (node_latency sortBy) nodes None (-1)).1 with
      | Some node => Some node
      | None => Some first
      end
  end.

Definition selectRoundRobin (lb : LoadBalancer) (nodes : list ProxyOutbound) (groupKey : string)
  : LoadBalancer * outcome no_error (option ProxyOutbound) :=
  if zlen nodes =? 0 then (lb, Ret None) else
  let i := default 0 (roundRobinIndex lb !! groupKey) in
  let i := if zlen nodes <=? i then 0 else i in
  match index nodes i with
  | Ret selected =>
      ({| roundRobinIndex := <[groupKey := Z.rem (i + 1) (zlen nodes)]> (roundRobinIndex lb) |},
       Ret (Some selected))
  | Err e => (lb, Err e)
  | Panic => (lb, Panic)
  end.

Definition selectRandom (intn : Z -> Z) (nodes : list ProxyOutbound)
  : outcome no_error (option ProxyOutbound) :=
  if zlen nodes =? 0 then Ret None else
  n ← index nodes (intn (zlen nodes)); Ret (Some n).

Fixpoint least_connections_loop (count : ProxyOutbound -> Z) (nodes : list ProxyOutbound)
    (selected : option ProxyOutbound) (minConns : Z) : option ProxyOutbound :=
  match nodes with
  | [] => selected
  | node :: nodes =>
      let connCount := count node in
      if (minConns <? 0) || (connCount <? minConns)
      then least_connections_loop count nodes (Some node) connCount
      else least_connections_loop count nodes selected minConns
  end.

Definition selectLeastConnections (h : runtime_heap) (nodes : list ProxyOutbound)
  : option ProxyOutbound :=
  match nodes with
  | [] => None
  | _ => least_connections_loop (GetConnCount h) nodes None (-1)
  end.

Definition Select (lb : LoadBalancer) (intn : Z -> Z) (h : runtime_heap)
    (nodes : list ProxyOutbound) (strategy sortBy groupKey : string)
  : LoadBalancer * outcome no_error (option ProxyOutbound) :=
  match nodes with
  | [] => (lb, Ret None)
  | [node] => (lb, Ret (Some node))
  | _ =>
      if String.eqb strategy LoadBalanceLeastLatency then (lb, Ret (selectLeastLatency nodes sortBy)) else
      if String.eqb strategy LoadBalanceRoundRobin then selectRoundRobin lb nodes groupKey else
      if String.eqb strategy LoadBalanceRandom then (lb, selectRandom intn nodes) else
      if String.eqb strategy LoadBalanceLeastConnections then (lb, Ret (selectLeastConnections h nodes))
      else (lb, Ret (selectLeastLatency nodes sortBy))
  end.

Definition ResetRoundRobin (lb : LoadBalancer) (groupKey : string) : LoadBalancer :=
  {| roundRobinIndex := delete groupKey (roundRobinIndex lb) |}.

Definition ResetAllRoundRobin (lb : LoadBalancer) : LoadBalancer := {| roundRobinIndex := ∅ |}.

Definition GetRoundRobinIndex (lb : LoadBalancer) (groupKey : string) : Z :=
  default 0 (roundRobinIndex lb !! groupKey).

(** * Facts *)

(** Every index of the table is non-negative. *)
Definition lb_wf (lb : LoadBalancer) : Prop :=
  forall k i, roundRobinIndex lb !! k = Some i -> 0 <= i.

(** [rand.Intn n] is below [n]. *)
Definition intn_ok (intn : Z -> Z) : Prop := forall n, 0 < n -> 0 <= intn n < n.

Lemma lb_wf_index lb k : lb_wf lb -> 0 <= default 0 (roundRobinIndex lb !! k).
Proof. intros H. destruct (_ !! _) eqn:E; cbn; [by eapply H|lia]. Qed.

Lemma index_In {E A} (l : list A) i x : index (E := E) l i = Ret x -> x ∈ l.
Proof.
  unfold index. destruct (0 <=? i); [|done]. destruct (l !! _) eqn:H; [|done].
  intros [= <-]. by eapply list_elem_of_lookup_2.
Qed.

Lemma index_in_range {E A} (l : list A) i :
  0 <= i < zlen l -> exists x, index (E := E) l i = Ret x /\ l !! Z.to_nat i = Some x.
Proof.
  intros [Hi Hl]. unfold zlen in Hl.
  destruct (lookup_lt_is_Some_2 l (Z.to_nat i)) as [x Hx]; [lia|].
  exists x. split; [by apply index_ok|done].
Qed.

(** The loop keeps the first node of least positive latency. *)
Lemma least_latency_loop_spec lat nodes sel m :
  (sel = None /\ m = -1 \/ exists s, sel = Some s /\ m = lat s /\ 0 < m) ->
  match least_latency_loop lat nodes sel m with
  | (None, m') => m' = -1 /\ sel = None /\ forall x, x ∈ nodes -> lat x <= 0
  | (Some s, m') =>
      m' = lat s /\ 0 < lat s /\ (Some s = sel \/ s ∈ nodes) /\
      (forall x, x ∈ nodes -> 0 < lat x -> lat s <= lat x) /\ (sel <> None -> lat s <= m)
  end.
Proof.
  revert sel m. induction nodes as [|n nodes IH]; intros sel m Hs; cbn [least_latency_loop].
  { destruct Hs as [[-> ->]|(s & -> & -> & ?)].
    - split; [done|]. split; [done|]. intros x Hx. by apply not_elem_of_nil in Hx.
    - split; [done|]. split; [done|]. split; [by left|]. split; [|lia].
      intros x Hx. by apply not_elem_of_nil in Hx. }
  destruct (Z.leb_spec (lat n) 0) as [Hn|Hn].
  - specialize (IH sel m Hs). destruct (least_latency_loop lat nodes sel m) as [[s|] m'].
    + destruct IH as (-> & ? & Hin & Hmin & Hle). split; [done|]. split; [done|]. split; [set_solver|].
      split; [|done]. intros x [->|Hx]%elem_of_cons; [lia|by apply Hmin].
    + destruct IH as (-> & -> & Hall). split; [done|]. split; [done|].
      intros x [->|Hx]%elem_of_cons; [lia|by apply Hall].
  - destruct ((m <? 0) || (lat n <? m)) eqn:Hb.
    + specialize (IH (Some n) (lat n) ltac:(right; exists n; auto)).
      destruct (least_latency_loop lat nodes (Some n) (lat n)) as [[s|] m']; [|by destruct IH as (_ & ? & _)].
      destruct IH as (-> & Hs0 & Hin & Hmin & Hle). specialize (Hle ltac:(done)).
      split; [done|]. split; [done|]. split.
      { destruct Hin as [[= ->]|]; set_solver. }
      split.
      * intros x [->|Hx]%elem_of_cons ?; [done|by apply Hmin].
      * intros Hne. destruct Hs as [[-> ->]|(s0 & -> & -> & ?)]; [done|].
        apply orb_true_iff in Hb. rewrite !Z.ltb_lt in Hb. lia.
    + bool_prop. destruct Hs as [[-> ->]|(s0 & -> & -> & ?)]; [lia|].
      specialize (IH (Some s0) (lat s0) ltac:(right; exists s0; auto)).
      destruct (least_latency_loop lat nodes (Some s0) (lat s0)) as [[s|] m']; [|by destruct IH as (_ & ? & _)].
      destruct IH as (-> & Hs0 & Hin & Hmin & Hle). specialize (Hle ltac:(done)).
      split; [done|]. split; [done|]. split; [set_solver|].
      split; [|done]. intros x [->|Hx]%elem_of_cons ?; [lia|by apply Hmin].
Qed.

Lemma least_connections_loop_spec count nodes sel m :
  (forall x, x ∈ nodes -> 0 <= count x) ->
  (sel = None /\ m = -1 \/ exists s, sel = Some s /\ m = count s /\ 0 <= m) ->
  (sel <> None \/ nodes <> []) ->
  exists s, least_connections_loop count nodes sel m = Some s /\ (Some s = sel \/ s ∈ nodes) /\
    (forall x, x ∈ nodes -> count s <= count x) /\ (sel <> None -> count s <= m).
Proof.
  revert sel m. induction nodes as [|n nodes IH]; intros sel m Hc Hs Hne; cbn [least_connections_loop].
  { destruct Hs as [[-> ->]|(s & -> & -> & ?)]; [naive_solver|]. exists s.
    split; [done|]. split; [by left|]. split; [|lia]. intros x Hx. by apply not_elem_of_nil in Hx. }
  assert (0 <= count n) as Hn by (apply Hc; left).
  destruct ((m <? 0) || (count n <? m)) eqn:Hb.
  - destruct (IH (Some n) (count n)) as (s & -> & Hin & Hmin & Hle); [set_solver|right; eauto|by left|].
    specialize (Hle ltac:(done)). exists s. split; [done|]. split.
    { destruct Hin as [[= ->]|]; set_solver. }
    split.
    + intros x [->|Hx]%elem_of_cons; [done|by apply Hmin].
    + intros Hne'. destruct Hs as [[-> ->]|(s0 & -> & -> & ?)]; [done|].
      apply orb_true_iff in Hb. rewrite !Z.ltb_lt in Hb. lia.
  - bool_prop. destruct Hs as [[-> ->]|(s0 & -> & -> & ?)]; [lia|].
    destruct (IH (Some s0) (count s0)) as (s & -> & Hin & Hmin & Hle); [set_solver|right; eauto|by left|].
    specialize (Hle ltac:(done)). exists s. split; [done|]. split; [set_solver|].
    split; [|done]. intros x [->|Hx]%elem_of_cons; [lia|by apply Hmin].
Qed.

(** The least-latency strategy returns a node of least latency among the measured
    ones, and the first node when none is measured. *)
Theorem selectLeastLatency_min (nodes : list ProxyOutbound) (sortBy : string) (s : ProxyOutbound) :
  selectLeastLatency nodes sortBy = Some s ->
  s ∈ nodes /\
  ((0 < node_latency sortBy s /\
    forall x, x ∈ nodes -> 0 < node_latency sortBy x -> node_latency sortBy s <= node_latency sortBy x)
   \/ (head nodes = Some s /\ forall x, x ∈ nodes -> node_latency sortBy x <= 0)).
Proof.
  unfold selectLeastLatency. destruct nodes as [|n nodes]; [done|].
  pose proof (least_latency_loop_spec (node_latency sortBy) (n :: nodes) None (-1) ltac:(by left)) as H.
  destruct (least_latency_loop _ _ _ _) as [[s'|] m]; intros [= <-].
  - destruct H as (_ & Hs & Hin & Hmin & _). split; [by destruct Hin|]. left. auto.
  - destruct H as (_ & _ & Hall). split; [left|]. right. auto.
Qed.

Definition example_node (name : string) (ms : Z) : ProxyOutbound :=
  {| Name := name; Type_ := "socks5"; Server := "s"; Port := 1; Enabled := true; Group := "g";
     SubscriptionID := ""; SubscriptionName := ""; SubscriptionNodeID := ""; Username := ""; Method := "";
     Password := ""; UUID := ""; AlterID := 0; Security := ""; Flow := ""; Obfs := ""; ObfsPassword := "";
     PortHopping := ""; HopInterval := 0; UpMbps := 0; DownMbps := 0; ALPN := ""; CertFingerprint := "";
     DisableMTU := false; IdleSessionCheckInterval := 0; IdleSessionTimeout := 0; MinIdleSession := 0;
     TLS := false; SNI := ""; Insecure := false; Fingerprint := ""; Reality := false;
     RealityPublicKey := ""; RealityShortID := ""; Network := ""; WSPath := ""; WSHost := "";
     XHTTPMode := ""; GRPCServiceName := ""; GRPCAuthority := ""; TCPLatencyMs := 0; HTTPLatencyMs := 0;
     UDPAvailable := None; UDPLatencyMs := ms; AutoSelectBlocked := false; AutoSelectBlockReason := "";
     AutoSelectBlockExpiresAt := None; runtime := None |}.

Lemma selectLeastLatency_min_witness :
  node_latency "udp" (example_node "b" 20) <= node_latency "udp" (example_node "a" 50).
Proof.
  destruct (selectLeastLatency_min [example_node "c" 0; example_node "a" 50; example_node "b" 20] "udp"
    (example_node "b" 20) eq_refl) as (_ & [[_ H]|[H _]]); [|done].
  apply H; [right; left|reflexivity].
Defined.

(** The least-connections strategy returns a node with as few open connections as
    any other. *)
Theorem selectLeastConnections_min (h : runtime_heap) (nodes : list ProxyOutbound) :
  nodes <> [] -> (forall x, x ∈ nodes -> 0 <= GetConnCount h x) ->
  exists s, selectLeastConnections h nodes = Some s /\ s ∈ nodes /\
    forall x, x ∈ nodes -> GetConnCount h s <= GetConnCount h x.
Proof.
  intros Hne Hc. unfold selectLeastConnections. destruct nodes as [|n nodes]; [done|].
  destruct (least_connections_loop_spec (GetConnCount h) (n :: nodes) None (-1))
    as (s & -> & Hin & Hmin & _); [done|by left|by right|].
  exists s. by destruct Hin.
Qed.

Lemma conn_count_empty x : GetConnCount [] x = 0.
Proof. unfold GetConnCount, runtime_of. by destruct (runtime x) as [[|r]|]. Qed.

Lemma selectLeastConnections_min_witness :
  exists s, selectLeastConnections [] [example_node "a" 50; example_node "b" 20] = Some s.
Proof.
  destruct (selectLeastConnections_min [] [example_node "a" 50; example_node "b" 20]) as (s & Hs & _).
  - done.
  - intros x _. by rewrite conn_count_empty.
  - by exists s.
Defined.

(** Whatever the strategy, [Select] never panics, returns [nil] only for an empty
    list and otherwise a node of the list, and keeps the round-robin table
    valid. *)
Lemma Select_ok (lb : LoadBalancer) (intn : Z -> Z) (h : runtime_heap)
    (nodes : list ProxyOutbound) (strategy sortBy groupKey : string) :
  lb_wf lb -> intn_ok intn -> (forall x, x ∈ nodes -> 0 <= GetConnCount h x) ->
  lb_wf (Select lb intn h nodes strategy sortBy groupKey).1 /\
  match (Select lb intn h nodes strategy sortBy groupKey).2 with
  | Ret None => nodes = []
  | Ret (Some s) => s ∈ nodes
  | Err _ => False
  | Panic => False
  end.
Proof.
  intros Hwf Hi Hc. unfold Select.
  destruct nodes as [|a [|b nodes]]; [done|split; [done|left]|].
  set (l := a :: b :: nodes) in *. assert (0 < zlen l) as Hl by (unfold l; zlen_lia).
  assert (match selectLeastLatency l sortBy with Some s => s ∈ l | None => l = [] end) as Hlat.
  { unfold selectLeastLatency. fold l. unfold l at 2. cbn iota.
    pose proof (least_latency_loop_spec (node_latency sortBy) l None (-1) ltac:(by left)) as H.
    destruct (least_latency_loop _ _ _ _) as [[s|] m]; cbn; [|left]. destruct H as (_ & _ & [?|?] & _); done. }
  destruct (String.eqb strategy _); [by destruct (selectLeastLatency l sortBy)|].
  destruct (String.eqb strategy _).
  { unfold selectRoundRobin. rewrite (proj2 (Z.eqb_neq _ 0)) by lia.
    pose proof (lb_wf_index lb groupKey Hwf). set (i := default 0 _) in *.
    set (j := if _ <=? i then _ else _). assert (0 <= j < zlen l) as Hj by (unfold j; bool_cases; lia).
    destruct (index_in_range (E := no_error) l j Hj) as (x & -> & Hx). cbn [fst snd].
    split; [|by eapply list_elem_of_lookup_2]. intros k v. cbn.
    destruct (decide (k = groupKey)) as [->|]; [|rewrite lookup_insert_ne by done; apply Hwf].
    rewrite lookup_insert_eq. intros [= <-]. apply Z.rem_nonneg; lia. }
  destruct (String.eqb strategy _).
  { split; [done|]. unfold selectRandom. rewrite (proj2 (Z.eqb_neq _ 0)) by lia.
    destruct (index_in_range (E := no_error) l (intn (zlen l)) (Hi _ Hl)) as (x & -> & Hx).
    cbn. by eapply list_elem_of_lookup_2. }
  destruct (String.eqb strategy _); [|by destruct (selectLeastLatency l sortBy)].
  split; [done|]. cbn [snd]. unfold selectLeastConnections. fold l. unfold l at 1. cbn iota.
  destruct (least_connections_loop_spec (GetConnCount h) l None (-1)) as (s & -> & Hin & _);
    [done|by left|by right|by destruct Hin].
Qed.

(** ** Rotation *)

(** The nodes selected by [k] consecutive calls on the same list. *)
Fixpoint rotate (k : nat) (lb : LoadBalancer) (nodes : list ProxyOutbound) (groupKey : string)
  : list (outcome no_error (option ProxyOutbound)) :=
  match k with
  | O => []
  | S k =>
      let '(lb, r) := selectRoundRobin lb nodes groupKey in
      r :: rotate k lb nodes groupKey
  end.

Lemma rotate_nth k lb nodes key i :
  nodes <> [] -> GetRoundRobinIndex lb key = i -> 0 <= i < zlen nodes ->
  forall j, (j < k)%nat ->
  exists x, rotate k lb nodes key !! j = Some (Ret (Some x)) /\
    nodes !! Z.to_nat ((i + Z.of_nat j) mod zlen nodes) = Some x.
Proof.
  intros Hne. revert lb i. induction k as [|k IH]; intros lb i Hi Hr j Hj; [lia|].
  cbn [rotate]. unfold selectRoundRobin, GetRoundRobinIndex in *.
  rewrite (proj2 (Z.eqb_neq _ 0)) by lia. rewrite Hi, (proj2 (Z.leb_gt _ i)) by lia.
  destruct (index_in_range (E := no_error) nodes i Hr) as (x & -> & Hx).
  destruct j as [|j].
  - exists x. rewrite Z.add_0_r, Z.mod_small by lia. done.
  - rewrite Z.rem_mod_nonneg by lia.
    destruct (IH {| roundRobinIndex := <[key := (i + 1) mod zlen nodes]> (roundRobinIndex lb) |}
      ((i + 1) mod zlen nodes)) with (j := j) as (y & Hy & Hn).
    + cbn. by rewrite lookup_insert_eq.
    + apply Z.mod_pos_bound. lia.
    + lia.
    + exists y. split; [done|]. rewrite <- Hn. do 2 f_equal. rewrite Zplus_mod_idemp_l. f_equal. lia.
Qed.

(** C34: on a stable list of [n] nodes the round-robin strategy visits the nodes in
    cyclic order from the stored index, so [n] consecutive selections return each
    position exactly once. *)
Theorem round_robin_cycle (lb : LoadBalancer) (nodes : list ProxyOutbound) (groupKey : string)
    (k j : nat) :
  nodes <> [] -> 0 <= GetRoundRobinIndex lb groupKey < zlen nodes -> (j < k)%nat ->
  exists x, rotate k lb nodes groupKey !! j = Some (Ret (Some x)) /\
    nodes !! Z.to_nat ((GetRoundRobinIndex lb groupKey + Z.of_nat j) mod zlen nodes) = Some x.
Proof. intros Hne Hr Hj. by eapply rotate_nth. Qed.

Lemma round_robin_cycle_witness :
  exists x, rotate 5 NewLoadBalancer [example_node "a" 50; example_node "b" 20] "g" !! 3%nat
              = Some (Ret (Some x)) /\ Name x = "b"%string.
Proof.
  destruct (round_robin_cycle NewLoadBalancer [example_node "a" 50; example_node "b" 20] "g" 5 3)
    as (x & Hx & Hn); [done|by split|lia|].
  exists x. split; [exact Hx|]. cbn in Hn. by injection Hn as <-.
Defined.
