(* ===== verification/Config.v ===== *)
(** * Server and global configuration: [internal/config/config.go]

    The configuration of a proxied server with its validation, normalisation and
    defaults, the table of servers of [ConfigManager], and the global
    configuration.  [time.Parse("15:04", s)] and [net.SplitHostPort] are modelled
    as far as their success; DNS resolution and the outcome of writing the file
    are arguments.  Field names carry the prefix of their structure. *)

From Stdlib Require Import Strings.String Strings.Ascii.
From stdpp Require Import pretty.
From S2P Require Import Prelude GoBytes GoString.

(** ** Constants *)

Definition AutoPingFullScanModeDisabled : string := "".
Definition AutoPingFullScanModeDaily : string := "daily".
Definition AutoPingFullScanModeInterval : string := "interval".

Definition defaultAutoPingIntervalMinutes : Z := 10.
Definition defaultAutoPingTopCandidates : Z := 10.
Definition defaultAutoPingFullScanTime : string := "04:00".
Definition defaultAutoPingFullScanIntervalHr : Z := 24.
Definition defaultLatencyHistoryMinIntervalMinute : Z := 10.
Definition defaultLatencyHistoryRenderLimit : Z := 100.
Definition defaultLatencyHistoryStorageLimit : Z := 1000.
Definition defaultLatencyHistoryRetentionDays : Z := 5.

Definition ProxyModeTransparent : string := "transparent".
Definition ProxyModePassthrough : string := "passthrough".
Definition ProxyModeRakNet : string := "raknet".
Definition ProxyModeRawUDP : string := "raw_udp".
Definition ProxyModeMITM : string := "mitm".

Definition LatencyModeNormal : string := "normal".
Definition LatencyModeAggressive : string := "aggressive".
Definition LatencyModeFECTunnel : string := "fec_tunnel".

Definition RawUDPKickStrategyDisconnectOnly : string := "disconnect_only".
Definition raw_udp_kick_strategies : list string :=
  [""; "disconnect_raknet"; "disconnect_only"; "playstatus_disconnect"; "playstatus_disconnect_raknet";
   "compressed_disconnect_only"; "compressed_disconnect_raknet"; "raw_batch_disconnect_only";
   "raw_batch_disconnect_raknet"; "legacy_disconnect_only"; "legacy_disconnect_raknet"]%string.

(** ** Data *)

Record NodeAutoSelectBlock := {
  nb_Reason : string;
  nb_BlockedAt : gotime;
  nb_ExpiresAt : option gotime;
}.

Record UDPSpeederConfig := {
  us_Enabled : bool;
  us_BinaryPath : string;
  us_LocalListenAddr : string;
  us_RemoteAddr : string;
  us_FEC : string;
  us_Key : string;
  us_Mode : Z;
  us_TimeoutMs : Z;
  us_MTU : Z;
  us_DisableObscure : bool;
  us_DisableChecksum : bool;
  us_ExtraArgs : list string;
}.

Record ServerConfig := {
  sc_ID : string;
  sc_Name : string;
  sc_Target : string;
  sc_Port : Z;
  sc_ListenAddr : string;
  sc_Protocol : string;
  sc_Enabled : bool;
  sc_Hidden : bool;
  sc_LegacyDisabled : option bool;
  sc_UDPSpeeder : option UDPSpeederConfig;
  sc_SendRealIP : bool;
  sc_ResolveInterval : Z;
  sc_IdleTimeout : Z;
  sc_BufferSize : Z;
  sc_UDPSocketBufferSize : Z;
  sc_DisabledMessage : string;
  sc_CustomMOTD : string;
  sc_ProxyMode : string;
  sc_ACLServerID : string;
  sc_RawUDPKickStrategy : string;
  sc_XboxAuthEnabled : bool;
  sc_XboxTokenPath : string;
  sc_ProxyOutbound : string;
  sc_ShowRealLatency : bool;
  sc_LoadBalance : string;
  sc_LoadBalanceSort : string;
  sc_ProtocolVersion : Z;
  sc_LatencyMode : string;
  sc_AutoPingEnabled : bool;
  sc_AutoPingIntervalMinutes : Z;
  sc_AutoPingTopCandidates : Z;
  sc_AutoPingFullScanMode : string;
  sc_AutoPingFullScanTime : string;
  sc_AutoPingFullScanIntervalHours : Z;
  sc_AutoSelectBlockedNodes : gmap string (option NodeAutoSelectBlock);
  sc_resolvedIP : string;
  sc_lastResolved : gotime;
}.

Record GlobalConfig := {
  gc_MaxSessionRecords : Z;
  gc_MaxAccessLogRecords : Z;
  gc_APIPort : Z;
  gc_APIKey : string;
  gc_APIEntryPath : string;
  gc_DatabasePath : string;
  gc_DebugMode : bool;
  gc_LogDir : string;
  gc_LogRetentionDays : Z;
  gc_LogMaxSizeMB : Z;
  gc_AuthVerifyEnabled : bool;
  gc_AuthVerifyURL : string;
  gc_AuthCacheMinutes : Z;
  gc_ProxyPortsEnabled : bool;
  gc_PassthroughIdleTimeout : Z;
  gc_PublicPingTimeoutSeconds : Z;
  gc_ServerAutoPingIntervalMinutesDefault : Z;
  gc_ServerAutoPingTopCandidatesDefault : Z;
  gc_ServerAutoPingFullScanModeDefault : string;
  gc_ServerAutoPingFullScanTimeDefault : string;
  gc_ServerAutoPingFullScanIntervalHoursDefault : Z;
  gc_ProxyPortAutoPingIntervalMinutesDefault : Z;
  gc_ProxyPortAutoPingTopCandidatesDefault : Z;
  gc_ProxyPortAutoPingFullScanModeDefault : string;
  gc_ProxyPortAutoPingFullScanTimeDefault : string;
  gc_ProxyPortAutoPingFullScanIntervalHoursDefault : Z;
  gc_LatencyHistoryMinIntervalMinutes : Z;
  gc_LatencyHistoryRenderLimit : Z;
  gc_LatencyHistoryStorageLimit : Z;
  gc_LatencyHistoryRetentionDays : Z;
}.

Definition DefaultGlobalConfig : GlobalConfig :=
  {| gc_MaxSessionRecords := 100; gc_MaxAccessLogRecords := 100; gc_APIPort := 8080;
     gc_APIKey := ""; gc_APIEntryPath := "/mcpe-admin"; gc_DatabasePath := "data.db";
     gc_DebugMode := false; gc_LogDir := "logs"; gc_LogRetentionDays := 7;
     gc_LogMaxSizeMB := 100; gc_AuthVerifyEnabled := false; gc_AuthVerifyURL := "";
     gc_AuthCacheMinutes := 15; gc_ProxyPortsEnabled := true; gc_PassthroughIdleTimeout := 30;
     gc_PublicPingTimeoutSeconds := 5;
     gc_ServerAutoPingIntervalMinutesDefault := defaultAutoPingIntervalMinutes;
     gc_ServerAutoPingTopCandidatesDefault := defaultAutoPingTopCandidates;
     gc_ServerAutoPingFullScanModeDefault := AutoPingFullScanModeDisabled;
     gc_ServerAutoPingFullScanTimeDefault := defaultAutoPingFullScanTime;
     gc_ServerAutoPingFullScanIntervalHoursDefault := defaultAutoPingFullScanIntervalHr;
     gc_ProxyPortAutoPingIntervalMinutesDefault := defaultAutoPingIntervalMinutes;
     gc_ProxyPortAutoPingTopCandidatesDefault := defaultAutoPingTopCandidates;
     gc_ProxyPortAutoPingFullScanModeDefault := AutoPingFullScanModeDisabled;
     gc_ProxyPortAutoPingFullScanTimeDefault := defaultAutoPingFullScanTime;
     gc_ProxyPortAutoPingFullScanIntervalHoursDefault := defaultAutoPingFullScanIntervalHr;
     gc_LatencyHistoryMinIntervalMinutes := defaultLatencyHistoryMinIntervalMinute;
     gc_LatencyHistoryRenderLimit := defaultLatencyHistoryRenderLimit;
     gc_LatencyHistoryStorageLimit := defaultLatencyHistoryStorageLimit;
     gc_LatencyHistoryRetentionDays := defaultLatencyHistoryRetentionDays |}.

(** The errors, by the field or the server they name. *)
Inductive cfg_err :=
| CfgRequired (field : string)
| CfgInvalid (field : string)
| CfgUnsupported (field : string)
| ErrServerExists (id : string)
| ErrServerNotFound (id : string)
| ErrSave.

(** ** Standard library: [net.SplitHostPort] and [time.Parse("15:04", _)] *)

(** The position of a byte in a string, and of its last occurrence. *)
Fixpoint index_byte (s : string) (c : ascii) (pos : nat) : option nat :=
  match s with
  | EmptyString => None
  | String a r => if Ascii.eqb a c then Some pos else index_byte r c (S pos)
  end.

Fixpoint last_index_byte (s : string) (c : ascii) (pos : nat) : option nat :=
  match s with
  | EmptyString => None
  | String a r =>
      match last_index_byte r c (S pos) with
      | Some i => Some i
      | None => if Ascii.eqb a c then Some pos else None
      end
  end.

Definition str_from (s : string) (i : nat) : string := String.substring i (String.length s - i) s.

(** Whether [net.SplitHostPort] returns a [nil] error. *)
Definition split_host_port_ok (hostport : string) : bool :=
  match last_index_byte hostport ":" 0 with
  | None => false
  | Some i =>
      match hostport with
      | String "[" _ =>
          match index_byte hostport "]" 0 with
          | None => false
          | Some e =>
              Nat.eqb (S e) i
              && negb (contains1 (str_from hostport 1) "[")
              && negb (contains1 (str_from hostport (S e)) "]")
          end
      | _ =>
          negb (contains1 (String.substring 0 i hostport) ":")
          && negb (contains1 hostport "[") && negb (contains1 hostport "]")
      end
  end.

Definition digit (a : ascii) : option Z :=
  let z := Z.of_nat (nat_of_ascii a) in
  if (48 <=? z) && (z <=? 57) then Some (z - 48) else None.

(** One or two digits of an hour, a colon, two digits of a minute, nothing more. *)
Definition parse_clock (value : string) : option (Z * Z) :=
  let minute (h : Z) (s : string) : option (Z * Z) :=
    match s with
    | String a (String b (String c EmptyString)) =>
        if Ascii.eqb a ":" then
          match digit b, digit c with
          | Some m1, Some m2 =>
              if (h <? 24) && (10 * m1 + m2 <? 60) then Some (h, 10 * m1 + m2) else None
          | _, _ => None
          end
        else None
    | _ => None
    end in
  match value with
  | String a (String b r) =>
      match digit a, digit b with
      | Some h1, Some h2 => minute (10 * h1 + h2) r
      | Some h1, None => minute h1 (String b r)
      | None, _ => None
      end
  | _ => None
  end.

Section config.
Context `{Unicode}.

Definition lower_trim (s : string) : string := to_lower (trim_space s).

(** ** Normalisation *)

Definition normalizeProtocol (protocol : string) : string := lower_trim protocol.
Definition normalizeProxyOutboundValue (proxyOutbound : string) : string := trim_space proxyOutbound.

Definition normalizeServerProxyMode (protocol mode : string) : string :=
  let normalizedProtocol := normalizeProtocol protocol in
  if negb (String.eqb normalizedProtocol "") && negb (String.eqb normalizedProtocol ProxyModeRakNet)
  then ""%string else
  let normalizedMode := lower_trim mode in
  if existsb (String.eqb normalizedMode)
       [ProxyModePassthrough; ProxyModeRakNet; ProxyModeRawUDP; ProxyModeMITM]
  then normalizedMode else ""%string.

Definition normalizeLatencyMode (mode : string) : string :=
  let v := lower_trim mode in if String.eqb v "" then LatencyModeNormal else v.

Definition isValidLatencyMode (mode : string) : bool :=
  existsb (String.eqb (normalizeLatencyMode mode))
    [LatencyModeNormal; LatencyModeAggressive; LatencyModeFECTunnel].

Definition isValidRawUDPKickStrategy (strategy : string) : bool :=
  existsb (String.eqb (lower_trim strategy)) raw_udp_kick_strategies.

Definition normalizeAutoPingFullScanMode (mode : string) : string := lower_trim mode.

Definition parseAutoPingClock (value : string) : option (Z * Z) := parse_clock (trim_space value).

(** ** Accessors of [ServerConfig] *)

Definition GetProxyMode (sc : ServerConfig) : string :=
  let mode := normalizeServerProxyMode (sc_Protocol sc) (sc_ProxyMode sc) in
  if String.eqb mode "" then ProxyModeTransparent else mode.

Definition GetLatencyMode (sc : ServerConfig) : string :=
  let mode := normalizeLatencyMode (sc_LatencyMode sc) in
  if existsb (String.eqb mode) [LatencyModeNormal; LatencyModeAggressive; LatencyModeFECTunnel]
  then mode else LatencyModeNormal.

Definition IsAggressiveLatency (sc : ServerConfig) : bool :=
  String.eqb (GetLatencyMode sc) LatencyModeAggressive.
Definition IsFECTunnelLatency (sc : ServerConfig) : bool :=
  String.eqb (GetLatencyMode sc) LatencyModeFECTunnel.

Definition GetTargetAddr (sc : ServerConfig) : string :=
  let ip := if String.eqb (sc_resolvedIP sc) "" then sc_Target sc else sc_resolvedIP sc in
  (ip ++ ":" ++ pretty (sc_Port sc))%string.

Definition GetBufferSize (sc : ServerConfig) : Z :=
  if sc_BufferSize sc =? 0 then -1 else sc_BufferSize sc.
Definition GetDisabledMessage (sc : ServerConfig) : string :=
  if String.eqb (sc_DisabledMessage sc) "" then "Server is currently disabled"%string
  else sc_DisabledMessage sc.
Definition GetXboxTokenPath (sc : ServerConfig) : string :=
  if String.eqb (sc_XboxTokenPath sc) "" then "xbox_token.json"%string else sc_XboxTokenPath sc.

Definition GetProxyOutbound (sc : ServerConfig) : string :=
  normalizeProxyOutboundValue (sc_ProxyOutbound sc).

Definition IsDirectConnection (sc : ServerConfig) : bool :=
  let p := GetProxyOutbound sc in String.eqb p "" || equal_fold p "direct".

Definition IsGroupSelection (sc : ServerConfig) : bool := has_prefix (GetProxyOutbound sc) "@".

Definition IsMultiNodeSelection (sc : ServerConfig) : bool :=
  let p := GetProxyOutbound sc in
  if String.eqb p "" || equal_fold p "direct" then false
  else if has_prefix p "@" then false
  else contains1 p ",".

Definition GetNodeList (sc : ServerConfig) : list string :=
  if negb (IsMultiNodeSelection sc) then [] else
  List.filter (fun s => negb (String.eqb s "")) (trim_space <$> split1 "," (GetProxyOutbound sc)).

Definition GetGroupName (sc : ServerConfig) : string :=
  if IsGroupSelection sc then trim_prefix1 (GetProxyOutbound sc) "@" else ""%string.

Definition SupportsAutoPing (sc : ServerConfig) : bool :=
  if IsGroupSelection sc then true else 1 <? zlen (GetNodeList sc).

Definition IsAutoPingEnabled (sc : ServerConfig) : bool :=
  sc_AutoPingEnabled sc && SupportsAutoPing sc.

Definition GetAutoPingIntervalMinutes (sc : ServerConfig) : Z :=
  if sc_AutoPingIntervalMinutes sc <=? 0 then defaultAutoPingIntervalMinutes
  else sc_AutoPingIntervalMinutes sc.

Definition GetACLServerID (sc : ServerConfig) : string :=
  let aclServerID := trim_space (sc_ACLServerID sc) in
  if String.eqb aclServerID "" then sc_ID sc else aclServerID.

Definition GetRawUDPKickStrategy (sc : ServerConfig) : string :=
  let strategy := lower_trim (sc_RawUDPKickStrategy sc) in
  if String.eqb strategy "" then RawUDPKickStrategyDisconnectOnly else strategy.

Definition sc_GetLoadBalance (sc : ServerConfig) : string :=
  if String.eqb (sc_LoadBalance sc) "" then "least-latency"%string else sc_LoadBalance sc.
Definition sc_GetLoadBalanceSort (sc : ServerConfig) : string :=
  if String.eqb (sc_LoadBalanceSort sc) "" then "udp"%string else sc_LoadBalanceSort sc.

(** A ban that is present and has not expired. *)
Definition block_active (now : gotime) (b : option NodeAutoSelectBlock) : bool :=
  match b with
  | None => false
  | Some b => match nb_ExpiresAt b with None => true | Some t => now <? t end
  end.

Definition IsNodeAutoSelectBlocked (now : gotime) (sc : ServerConfig) (name : string) : bool :=
  match sc_AutoSelectBlockedNodes sc !! trim_space name with
  | None => false
  | Some b => block_active now b
  end.

Definition ActiveBlockedNodes (now : gotime) (sc : ServerConfig) : gmap string NodeAutoSelectBlock :=
  omap (fun b => if block_active now b then b else None) (sc_AutoSelectBlockedNodes sc).

Definition GetAutoPingTopCandidates (sc : ServerConfig) : Z :=
  if sc_AutoPingTopCandidates sc <? 0 then 0
  else if sc_AutoPingTopCandidates sc =? 0 then defaultAutoPingTopCandidates
  else sc_AutoPingTopCandidates sc.

Definition GetAutoPingFullScanMode (sc : ServerConfig) : string :=
  normalizeAutoPingFullScanMode (sc_AutoPingFullScanMode sc).

Definition GetAutoPingFullScanTime (sc : ServerConfig) : string :=
  if String.eqb (trim_space (sc_AutoPingFullScanTime sc)) "" then defaultAutoPingFullScanTime
  else trim_space (sc_AutoPingFullScanTime sc).

Definition GetAutoPingFullScanIntervalHours (sc : ServerConfig) : Z :=
  if sc_AutoPingFullScanIntervalHours sc <=? 0 then defaultAutoPingFullScanIntervalHr
  else sc_AutoPingFullScanIntervalHours sc.

(** ** Validation *)

Definition speeder_Validate (c : UDPSpeederConfig) : option cfg_err :=
  if negb (us_Enabled c) then None else
  if String.eqb (us_RemoteAddr c) "" then Some (CfgRequired "udp_speeder.remote_addr") else
  if negb (split_host_port_ok (us_RemoteAddr c)) then Some (CfgInvalid "udp_speeder.remote_addr") else
  if negb (String.eqb (us_LocalListenAddr c) "") && negb (split_host_port_ok (us_LocalListenAddr c))
  then Some (CfgInvalid "udp_speeder.local_listen_addr") else
  if us_Mode c <? 0 then Some (CfgInvalid "udp_speeder.mode") else
  if us_TimeoutMs c <? 0 then Some (CfgInvalid "udp_speeder.timeout_ms") else
  if us_MTU c <? 0 then Some (CfgInvalid "udp_speeder.mtu") else None.

(** The checks shared by servers and global defaults: mode, time of day, hours. *)
Definition scan_Validate (mode time : string) (hours : Z) : option cfg_err :=
  if String.eqb mode AutoPingFullScanModeDisabled then None else
  if String.eqb mode AutoPingFullScanModeDaily then
    match parseAutoPingClock time with
    | Some _ => None
    | None => Some (CfgInvalid "auto_ping_full_scan_time")
    end
  else if String.eqb mode AutoPingFullScanModeInterval then
    if hours <? 1 then Some (CfgInvalid "auto_ping_full_scan_interval_hours") else None
  else Some (CfgInvalid "auto_ping_full_scan_mode").

Definition first_error (l : list (option cfg_err)) : option cfg_err :=
  foldr (fun e rest => match e with Some _ => e | None => rest end) None l.

Definition check (b : bool) (e : cfg_err) : option cfg_err := if b then Some e else None.

Definition speeder_enabled (sc : ServerConfig) : bool :=
  match sc_UDPSpeeder sc with Some c => us_Enabled c | None => false end.

(** The checks in the order of the code; the first that fails is returned. *)
Definition sc_Validate (sc : ServerConfig) : option cfg_err :=
  let protocol := normalizeProtocol (sc_Protocol sc) in
  let tcp_like := String.eqb protocol "tcp" || String.eqb protocol "tcp_udp" in
  let mode := normalizeLatencyMode (sc_LatencyMode sc) in
  first_error [
    check (String.eqb (sc_ID sc) "") (CfgRequired "id");
    check (String.eqb (sc_Name sc) "") (CfgRequired "name");
    check (String.eqb (sc_Target sc) "") (CfgRequired "target");
    check ((sc_Port sc <=? 0) || (65535 <? sc_Port sc)) (CfgInvalid "port");
    check (String.eqb (sc_ListenAddr sc) "") (CfgRequired "listen_addr");
    check (String.eqb protocol "") (CfgRequired "protocol");
    check (sc_UDPSocketBufferSize sc <? -1) (CfgInvalid "udp_socket_buffer_size");
    check (sc_AutoPingTopCandidates sc <? 0) (CfgInvalid "auto_ping_top_candidates");
    scan_Validate (normalizeAutoPingFullScanMode (sc_AutoPingFullScanMode sc))
      (GetAutoPingFullScanTime sc) (GetAutoPingFullScanIntervalHours sc);
    check (negb (isValidRawUDPKickStrategy (sc_RawUDPKickStrategy sc)))
      (CfgInvalid "raw_udp_kick_strategy");
    (match sc_UDPSpeeder sc with
     | Some c =>
         if us_Enabled c then
           if tcp_like then Some (CfgUnsupported "udp_speeder") else speeder_Validate c
         else None
     | None => None
     end);
    check (negb (isValidLatencyMode (sc_LatencyMode sc))) (CfgInvalid "latency_mode");
    (if String.eqb mode LatencyModeAggressive then
       check (String.eqb protocol "tcp") (CfgUnsupported "latency_mode")
     else if String.eqb mode LatencyModeFECTunnel then
       if tcp_like then Some (CfgUnsupported "latency_mode")
       else check (negb (speeder_enabled sc)) (CfgRequired "udp_speeder")
     else None)].

(** ** Normalisation of a server *)

Definition sc_normalized (hidden : bool) (protocol outbound mode : string) (sc : ServerConfig) : ServerConfig :=
  {| sc_ID := sc_ID sc; sc_Name := sc_Name sc; sc_Target := sc_Target sc;
     sc_Port := sc_Port sc; sc_ListenAddr := sc_ListenAddr sc; sc_Protocol := protocol;
     sc_Enabled := sc_Enabled sc; sc_Hidden := hidden; sc_LegacyDisabled := None;
     sc_UDPSpeeder := sc_UDPSpeeder sc; sc_SendRealIP := sc_SendRealIP sc;
     sc_ResolveInterval := sc_ResolveInterval sc; sc_IdleTimeout := sc_IdleTimeout sc;
     sc_BufferSize := sc_BufferSize sc; sc_UDPSocketBufferSize := sc_UDPSocketBufferSize sc;
     sc_DisabledMessage := sc_DisabledMessage sc; sc_CustomMOTD := sc_CustomMOTD sc;
     sc_ProxyMode := mode; sc_ACLServerID := sc_ACLServerID sc;
     sc_RawUDPKickStrategy := sc_RawUDPKickStrategy sc;
     sc_XboxAuthEnabled := sc_XboxAuthEnabled sc; sc_XboxTokenPath := sc_XboxTokenPath sc;
     sc_ProxyOutbound := outbound; sc_ShowRealLatency := sc_ShowRealLatency sc;
     sc_LoadBalance := sc_LoadBalance sc; sc_LoadBalanceSort := sc_LoadBalanceSort sc;
     sc_ProtocolVersion := sc_ProtocolVersion sc; sc_LatencyMode := sc_LatencyMode sc;
     sc_AutoPingEnabled := sc_AutoPingEnabled sc;
     sc_AutoPingIntervalMinutes := sc_AutoPingIntervalMinutes sc;
     sc_AutoPingTopCandidates := sc_AutoPingTopCandidates sc;
     sc_AutoPingFullScanMode := normalizeAutoPingFullScanMode (sc_AutoPingFullScanMode sc);
     sc_AutoPingFullScanTime := sc_AutoPingFullScanTime sc;
     sc_AutoPingFullScanIntervalHours := sc_AutoPingFullScanIntervalHours sc;
     sc_AutoSelectBlockedNodes := sc_AutoSelectBlockedNodes sc;
     sc_resolvedIP := sc_resolvedIP sc; sc_lastResolved := sc_lastResolved sc |}.

Definition sc_no_auto_ping  (sc : ServerConfig) : ServerConfig :=
  {| sc_ID := sc_ID sc; sc_Name := sc_Name sc; sc_Target := sc_Target sc;
     sc_Port := sc_Port sc; sc_ListenAddr := sc_ListenAddr sc; sc_Protocol := sc_Protocol sc;
     sc_Enabled := sc_Enabled sc; sc_Hidden := sc_Hidden sc;
     sc_LegacyDisabled := sc_LegacyDisabled sc; sc_UDPSpeeder := sc_UDPSpeeder sc;
     sc_SendRealIP := sc_SendRealIP sc; sc_ResolveInterval := sc_ResolveInterval sc;
     sc_IdleTimeout := sc_IdleTimeout sc; sc_BufferSize := sc_BufferSize sc;
     sc_UDPSocketBufferSize := sc_UDPSocketBufferSize sc;
     sc_DisabledMessage := sc_DisabledMessage sc; sc_CustomMOTD := sc_CustomMOTD sc;
     sc_ProxyMode := sc_ProxyMode sc; sc_ACLServerID := sc_ACLServerID sc;
     sc_RawUDPKickStrategy := sc_RawUDPKickStrategy sc;
     sc_XboxAuthEnabled := sc_XboxAuthEnabled sc; sc_XboxTokenPath := sc_XboxTokenPath sc;
     sc_ProxyOutbound := sc_ProxyOutbound sc; sc_ShowRealLatency := sc_ShowRealLatency sc;
     sc_LoadBalance := sc_LoadBalance sc; sc_LoadBalanceSort := sc_LoadBalanceSort sc;
     sc_ProtocolVersion := sc_ProtocolVersion sc; sc_LatencyMode := sc_LatencyMode sc;
     sc_AutoPingEnabled := false; sc_AutoPingIntervalMinutes := sc_AutoPingIntervalMinutes sc;
     sc_AutoPingTopCandidates := sc_AutoPingTopCandidates sc;
     sc_AutoPingFullScanMode := AutoPingFullScanModeDisabled;
     sc_AutoPingFullScanTime := sc_AutoPingFullScanTime sc;
     sc_AutoPingFullScanIntervalHours := sc_AutoPingFullScanIntervalHours sc;
     sc_AutoSelectBlockedNodes := sc_AutoSelectBlockedNodes sc;
     sc_resolvedIP := sc_resolvedIP sc; sc_lastResolved := sc_lastResolved sc |}.

Definition Normalize (sc : ServerConfig) : ServerConfig :=
  let hidden := match sc_LegacyDisabled sc with Some true => true | _ => sc_Hidden sc end in
  let protocol := normalizeProtocol (sc_Protocol sc) in
  let sc :=
    sc_normalized hidden protocol (normalizeProxyOutboundValue (sc_ProxyOutbound sc))
      (normalizeServerProxyMode protocol (sc_ProxyMode sc)) sc in
  if SupportsAutoPing sc then sc else sc_no_auto_ping sc.

Definition SetResolvedIP (now : gotime) (ip : string) (sc : ServerConfig) : ServerConfig :=
  {| sc_ID := sc_ID sc; sc_Name := sc_Name sc; sc_Target := sc_Target sc;
     sc_Port := sc_Port sc; sc_ListenAddr := sc_ListenAddr sc; sc_Protocol := sc_Protocol sc;
     sc_Enabled := sc_Enabled sc; sc_Hidden := sc_Hidden sc;
     sc_LegacyDisabled := sc_LegacyDisabled sc; sc_UDPSpeeder := sc_UDPSpeeder sc;
     sc_SendRealIP := sc_SendRealIP sc; sc_ResolveInterval := sc_ResolveInterval sc;
     sc_IdleTimeout := sc_IdleTimeout sc; sc_BufferSize := sc_BufferSize sc;
     sc_UDPSocketBufferSize := sc_UDPSocketBufferSize sc;
     sc_DisabledMessage := sc_DisabledMessage sc; sc_CustomMOTD := sc_CustomMOTD sc;
     sc_ProxyMode := sc_ProxyMode sc; sc_ACLServerID := sc_ACLServerID sc;
     sc_RawUDPKickStrategy := sc_RawUDPKickStrategy sc;
     sc_XboxAuthEnabled := sc_XboxAuthEnabled sc; sc_XboxTokenPath := sc_XboxTokenPath sc;
     sc_ProxyOutbound := sc_ProxyOutbound sc; sc_ShowRealLatency := sc_ShowRealLatency sc;
     sc_LoadBalance := sc_LoadBalance sc; sc_LoadBalanceSort := sc_LoadBalanceSort sc;
     sc_ProtocolVersion := sc_ProtocolVersion sc; sc_LatencyMode := sc_LatencyMode sc;
     sc_AutoPingEnabled := sc_AutoPingEnabled sc;
     sc_AutoPingIntervalMinutes := sc_AutoPingIntervalMinutes sc;
     sc_AutoPingTopCandidates := sc_AutoPingTopCandidates sc;
     sc_AutoPingFullScanMode := sc_AutoPingFullScanMode sc;
     sc_AutoPingFullScanTime := sc_AutoPingFullScanTime sc;
     sc_AutoPingFullScanIntervalHours := sc_AutoPingFullScanIntervalHours sc;
     sc_AutoSelectBlockedNodes := sc_AutoSelectBlockedNodes sc; sc_resolvedIP := ip;
     sc_lastResolved := now |}.

Definition set_outbound (o lb sort : string) (sc : ServerConfig) : ServerConfig :=
  {| sc_ID := sc_ID sc; sc_Name := sc_Name sc; sc_Target := sc_Target sc;
     sc_Port := sc_Port sc; sc_ListenAddr := sc_ListenAddr sc; sc_Protocol := sc_Protocol sc;
     sc_Enabled := sc_Enabled sc; sc_Hidden := sc_Hidden sc;
     sc_LegacyDisabled := sc_LegacyDisabled sc; sc_UDPSpeeder := sc_UDPSpeeder sc;
     sc_SendRealIP := sc_SendRealIP sc; sc_ResolveInterval := sc_ResolveInterval sc;
     sc_IdleTimeout := sc_IdleTimeout sc; sc_BufferSize := sc_BufferSize sc;
     sc_UDPSocketBufferSize := sc_UDPSocketBufferSize sc;
     sc_DisabledMessage := sc_DisabledMessage sc; sc_CustomMOTD := sc_CustomMOTD sc;
     sc_ProxyMode := sc_ProxyMode sc; sc_ACLServerID := sc_ACLServerID sc;
     sc_RawUDPKickStrategy := sc_RawUDPKickStrategy sc;
     sc_XboxAuthEnabled := sc_XboxAuthEnabled sc; sc_XboxTokenPath := sc_XboxTokenPath sc;
     sc_ProxyOutbound := o; sc_ShowRealLatency := sc_ShowRealLatency sc; sc_LoadBalance := lb;
     sc_LoadBalanceSort := sort; sc_ProtocolVersion := sc_ProtocolVersion sc;
     sc_LatencyMode := sc_LatencyMode sc; sc_AutoPingEnabled := sc_AutoPingEnabled sc;
     sc_AutoPingIntervalMinutes := sc_AutoPingIntervalMinutes sc;
     sc_AutoPingTopCandidates := sc_AutoPingTopCandidates sc;
     sc_AutoPingFullScanMode := sc_AutoPingFullScanMode sc;
     sc_AutoPingFullScanTime := sc_AutoPingFullScanTime sc;
     sc_AutoPingFullScanIntervalHours := sc_AutoPingFullScanIntervalHours sc;
     sc_AutoSelectBlockedNodes := sc_AutoSelectBlockedNodes sc;
     sc_resolvedIP := sc_resolvedIP sc; sc_lastResolved := sc_lastResolved sc |}.

(** ** The table of servers

    [cm_disk] is the content of the last successful write; [save_ok] says
    whether the write of the operation succeeds and [resolve] is the DNS
    resolver. *)

Record ConfigManager := {
  cm_servers : gmap string ServerConfig;
  cm_disk : gmap string ServerConfig;
}.

Definition NewConfigManager : ConfigManager := {| cm_servers := ∅; cm_disk := ∅ |}.

Definition saveToFile (save_ok : bool) (cm : ConfigManager) : ConfigManager * option cfg_err :=
  if save_ok then ({| cm_servers := cm_servers cm; cm_disk := cm_servers cm |}, None)
  else (cm, Some ErrSave).

Definition with_servers (m : gmap string ServerConfig) (cm : ConfigManager) : ConfigManager :=
  {| cm_servers := m; cm_disk := cm_disk cm |}.

Definition resolved (resolve : string -> option string) (now : gotime) (sc : ServerConfig) : ServerConfig :=
  match resolve (sc_Target sc) with Some ip => SetResolvedIP now ip sc | None => sc end.

Definition GetServer (cm : ConfigManager) (id : string) : option ServerConfig := cm_servers cm !! id.

Definition GetAllServers (cm : ConfigManager) (order : list string) : list ServerConfig :=
  omap (fun id => cm_servers cm !! id) order.

Definition AddServer (resolve : string -> option string) (now : gotime) (save_ok : bool)
    (cm : ConfigManager) (config : ServerConfig) : ConfigManager * option cfg_err :=
  let config := Normalize config in
  match sc_Validate config with
  | Some e => (cm, Some e)
  | None =>
      match cm_servers cm !! sc_ID config with
      | Some _ => (cm, Some (ErrServerExists (sc_ID config)))
      | None =>
          saveToFile save_ok
            (with_servers (<[sc_ID config := resolved resolve now config]> (cm_servers cm)) cm)
      end
  end.

Definition UpdateServer (resolve : string -> option string) (now : gotime) (save_ok : bool)
    (cm : ConfigManager) (id : string) (config : ServerConfig) : ConfigManager * option cfg_err :=
  let config := Normalize config in
  match sc_Validate config with
  | Some e => (cm, Some e)
  | None =>
      match cm_servers cm !! id with
      | None => (cm, Some (ErrServerNotFound id))
      | Some _ =>
          let m := if negb (String.eqb id (sc_ID config)) then delete id (cm_servers cm) else cm_servers cm in
          saveToFile save_ok (with_servers (<[sc_ID config := resolved resolve now config]> m) cm)
      end
  end.

Definition DeleteServer (save_ok : bool) (cm : ConfigManager) (id : string)
  : ConfigManager * option cfg_err :=
  match cm_servers cm !! id with
  | None => (cm, Some (ErrServerNotFound id))
  | Some _ => saveToFile save_ok (with_servers (delete id (cm_servers cm)) cm)
  end.

Definition UpdateServerProxyOutbound (save_ok : bool) (cm : ConfigManager) (serverID proxyOutbound : string)
  : ConfigManager * option cfg_err :=
  match cm_servers cm !! serverID with
  | None => (cm, Some (ErrServerNotFound serverID))
  | Some server =>
      let server :=
        if String.eqb proxyOutbound "" || String.eqb proxyOutbound "direct"
        then set_outbound proxyOutbound "" "" server
        else set_outbound proxyOutbound (sc_LoadBalance server) (sc_LoadBalanceSort server) server in
      saveToFile save_ok (with_servers (<[serverID := server]> (cm_servers cm)) cm)
  end.

Definition RefreshDNS (resolve : string -> option string) (now : gotime) (cm : ConfigManager)
  : ConfigManager :=
  with_servers
    ((fun server =>
        if sc_ResolveInterval server <=? 0 then server else
        if i64 (sc_ResolveInterval server * second) <=? time_sub now (sc_lastResolved server)
        then resolved resolve now server else server) <$> cm_servers cm) cm.

(** [Load]: the decoded list of the file. *)
Definition load_servers (resolve : string -> option string) (now : gotime) (configs : list ServerConfig)
  : gmap string ServerConfig :=
  fold_left (fun m sc => <[sc_ID sc := resolved resolve now sc]> m) configs ∅.

Definition Load (resolve : string -> option string) (now : gotime) (cm : ConfigManager)
    (configs : list ServerConfig) : ConfigManager * option cfg_err :=
  let configs := Normalize <$> configs in
  match first_error (sc_Validate <$> configs) with
  | Some e => (cm, Some e)
  | None => (with_servers (load_servers resolve now configs) cm, None)
  end.

Definition ServerCount (cm : ConfigManager) : Z := Z.of_nat (size (cm_servers cm)).

(** ** The global configuration

    The getters of a nil configuration return the default. *)

Definition positive_or (d : Z) (f : GlobalConfig -> Z) (gc : option GlobalConfig) : Z :=
  match gc with
  | Some gc => if f gc <=? 0 then d else f gc
  | None => d
  end.

Definition time_or_default (f : GlobalConfig -> string) (gc : option GlobalConfig) : string :=
  match gc with
  | Some gc =>
      if String.eqb (trim_space (f gc)) "" then defaultAutoPingFullScanTime else trim_space (f gc)
  | None => defaultAutoPingFullScanTime
  end.

Definition mode_or_default (f : GlobalConfig -> string) (gc : option GlobalConfig) : string :=
  match gc with
  | Some gc => normalizeAutoPingFullScanMode (f gc)
  | None => AutoPingFullScanModeDisabled
  end.

Definition GetServerAutoPingIntervalMinutesDefault :=
  positive_or defaultAutoPingIntervalMinutes gc_ServerAutoPingIntervalMinutesDefault.
Definition GetServerAutoPingTopCandidatesDefault :=
  positive_or defaultAutoPingTopCandidates gc_ServerAutoPingTopCandidatesDefault.
Definition GetServerAutoPingFullScanModeDefault := mode_or_default gc_ServerAutoPingFullScanModeDefault.
Definition GetServerAutoPingFullScanTimeDefault := time_or_default gc_ServerAutoPingFullScanTimeDefault.
Definition GetServerAutoPingFullScanIntervalHoursDefault :=
  positive_or defaultAutoPingFullScanIntervalHr gc_ServerAutoPingFullScanIntervalHoursDefault.
Definition GetProxyPortAutoPingIntervalMinutesDefault :=
  positive_or defaultAutoPingIntervalMinutes gc_ProxyPortAutoPingIntervalMinutesDefault.
Definition GetProxyPortAutoPingTopCandidatesDefault :=
  positive_or defaultAutoPingTopCandidates gc_ProxyPortAutoPingTopCandidatesDefault.
Definition GetProxyPortAutoPingFullScanModeDefault := mode_or_default gc_ProxyPortAutoPingFullScanModeDefault.
Definition GetProxyPortAutoPingFullScanTimeDefault := time_or_default gc_ProxyPortAutoPingFullScanTimeDefault.
Definition GetProxyPortAutoPingFullScanIntervalHoursDefault :=
  positive_or defaultAutoPingFullScanIntervalHr gc_ProxyPortAutoPingFullScanIntervalHoursDefault.
Definition GetLatencyHistoryMinIntervalMinutes :=
  positive_or defaultLatencyHistoryMinIntervalMinute gc_LatencyHistoryMinIntervalMinutes.
Definition GetLatencyHistoryRenderLimit :=
  positive_or defaultLatencyHistoryRenderLimit gc_LatencyHistoryRenderLimit.
Definition GetLatencyHistoryStorageLimit :=
  positive_or defaultLatencyHistoryStorageLimit gc_LatencyHistoryStorageLimit.
Definition GetLatencyHistoryRetentionDays :=
  positive_or defaultLatencyHistoryRetentionDays gc_LatencyHistoryRetentionDays.

Definition gc_Validate (gc : GlobalConfig) : option cfg_err :=
  let g := Some gc in
  first_error [
    check (gc_MaxSessionRecords gc <? 0) (CfgInvalid "max_session_records");
    check (gc_MaxAccessLogRecords gc <? 0) (CfgInvalid "max_access_log_records");
    check ((gc_APIPort gc <? 0) || (65535 <? gc_APIPort gc)) (CfgInvalid "api_port");
    check (gc_PassthroughIdleTimeout gc <? 0) (CfgInvalid "passthrough_idle_timeout");
    check (gc_PublicPingTimeoutSeconds gc <? 0) (CfgInvalid "public_ping_timeout_seconds");
    check (GetServerAutoPingIntervalMinutesDefault g <? 1)
      (CfgInvalid "server_auto_ping_interval_minutes_default");
    check (GetServerAutoPingTopCandidatesDefault g <? 0)
      (CfgInvalid "server_auto_ping_top_candidates_default");
    scan_Validate (GetServerAutoPingFullScanModeDefault g) (GetServerAutoPingFullScanTimeDefault g)
      (GetServerAutoPingFullScanIntervalHoursDefault g);
    check (GetProxyPortAutoPingIntervalMinutesDefault g <? 1)
      (CfgInvalid "proxy_port_auto_ping_interval_minutes_default");
    check (GetProxyPortAutoPingTopCandidatesDefault g <? 0)
      (CfgInvalid "proxy_port_auto_ping_top_candidates_default");
    scan_Validate (GetProxyPortAutoPingFullScanModeDefault g) (GetProxyPortAutoPingFullScanTimeDefault g)
      (GetProxyPortAutoPingFullScanIntervalHoursDefault g);
    check (GetLatencyHistoryMinIntervalMinutes g <? 1) (CfgInvalid "latency_history_min_interval_minutes");
    check (GetLatencyHistoryRenderLimit g <? 1) (CfgInvalid "latency_history_render_limit");
    check (GetLatencyHistoryStorageLimit g <? 1) (CfgInvalid "latency_history_storage_limit");
    check (GetLatencyHistoryStorageLimit g <? GetLatencyHistoryRenderLimit g)
      (CfgInvalid "latency_history_render_limit");
    check (GetLatencyHistoryRetentionDays g <? 1) (CfgInvalid "latency_history_retention_days")].

(** The defaults that [LoadGlobalConfig] applies to the decoded file. *)
Definition or_default (v d : Z) : Z := if v <=? 0 then d else v.

Definition apply_defaults (gc : GlobalConfig) : GlobalConfig :=
  {| gc_MaxSessionRecords := or_default (gc_MaxSessionRecords gc) 100;
     gc_MaxAccessLogRecords := or_default (gc_MaxAccessLogRecords gc) 100;
     gc_APIPort := gc_APIPort gc; gc_APIKey := gc_APIKey gc;
     gc_APIEntryPath := gc_APIEntryPath gc; gc_DatabasePath := gc_DatabasePath gc;
     gc_DebugMode := gc_DebugMode gc;
     gc_LogDir := if String.eqb (gc_LogDir gc) "" then "logs"%string else gc_LogDir gc;
     gc_LogRetentionDays := or_default (gc_LogRetentionDays gc) 7;
     gc_LogMaxSizeMB := or_default (gc_LogMaxSizeMB gc) 100;
     gc_AuthVerifyEnabled := gc_AuthVerifyEnabled gc; gc_AuthVerifyURL := gc_AuthVerifyURL gc;
     gc_AuthCacheMinutes := or_default (gc_AuthCacheMinutes gc) 15;
     gc_ProxyPortsEnabled := gc_ProxyPortsEnabled gc;
     gc_PassthroughIdleTimeout := gc_PassthroughIdleTimeout gc;
     gc_PublicPingTimeoutSeconds := gc_PublicPingTimeoutSeconds gc;
     gc_ServerAutoPingIntervalMinutesDefault := or_default (gc_ServerAutoPingIntervalMinutesDefault gc) defaultAutoPingIntervalMinutes;
     gc_ServerAutoPingTopCandidatesDefault := or_default (gc_ServerAutoPingTopCandidatesDefault gc) defaultAutoPingTopCandidates;
     gc_ServerAutoPingFullScanModeDefault := normalizeAutoPingFullScanMode (gc_ServerAutoPingFullScanModeDefault gc);
     gc_ServerAutoPingFullScanTimeDefault := if String.eqb (trim_space (gc_ServerAutoPingFullScanTimeDefault gc)) "" then defaultAutoPingFullScanTime else gc_ServerAutoPingFullScanTimeDefault gc;
     gc_ServerAutoPingFullScanIntervalHoursDefault := or_default (gc_ServerAutoPingFullScanIntervalHoursDefault gc) defaultAutoPingFullScanIntervalHr;
     gc_ProxyPortAutoPingIntervalMinutesDefault := or_default (gc_ProxyPortAutoPingIntervalMinutesDefault gc) defaultAutoPingIntervalMinutes;
     gc_ProxyPortAutoPingTopCandidatesDefault := or_default (gc_ProxyPortAutoPingTopCandidatesDefault gc) defaultAutoPingTopCandidates;
     gc_ProxyPortAutoPingFullScanModeDefault := normalizeAutoPingFullScanMode (gc_ProxyPortAutoPingFullScanModeDefault gc);
     gc_ProxyPortAutoPingFullScanTimeDefault := if String.eqb (trim_space (gc_ProxyPortAutoPingFullScanTimeDefault gc)) "" then defaultAutoPingFullScanTime else gc_ProxyPortAutoPingFullScanTimeDefault gc;
     gc_ProxyPortAutoPingFullScanIntervalHoursDefault := or_default (gc_ProxyPortAutoPingFullScanIntervalHoursDefault gc) defaultAutoPingFullScanIntervalHr;
     gc_LatencyHistoryMinIntervalMinutes := or_default (gc_LatencyHistoryMinIntervalMinutes gc) defaultLatencyHistoryMinIntervalMinute;
     gc_LatencyHistoryRenderLimit := or_default (gc_LatencyHistoryRenderLimit gc) defaultLatencyHistoryRenderLimit;
     gc_LatencyHistoryStorageLimit := or_default (gc_LatencyHistoryStorageLimit gc) defaultLatencyHistoryStorageLimit;
     gc_LatencyHistoryRetentionDays := or_default (gc_LatencyHistoryRetentionDays gc) defaultLatencyHistoryRetentionDays |}.
End config.

#[global] Arguments sc_Validate : simpl never.
#[global] Arguments Normalize : simpl never.

(** * Facts *)

Lemma first_error_None l : first_error l = None <-> Forall (fun e => e = None) l.
Proof.
  induction l as [|e l IH]; cbn; [by split; [constructor|]|].
  rewrite Forall_cons. destruct e; naive_solver.
Qed.

Lemma check_None b e : check b e = None <-> b = false.
Proof. by destruct b. Qed.

Section config_facts.
Context `{Unicode}.

Lemma lower_trim_twice s : is_ascii s = true -> lower_trim (lower_trim s) = lower_trim s.
Proof. apply lower_trim_idemp. Qed.

Lemma normalizeServerProxyMode_idemp p m :
  is_ascii m = true ->
  normalizeServerProxyMode p (normalizeServerProxyMode p m) = normalizeServerProxyMode p m.
Proof.
  intros Hm. unfold normalizeServerProxyMode.
  destruct (negb _ && negb _); [done|].
  destruct (existsb (String.eqb (lower_trim m)) _) eqn:E.
  - by rewrite lower_trim_twice, E.
  - reflexivity.
Qed.

Lemma SupportsAutoPing_outbound sc sc' :
  GetProxyOutbound sc = GetProxyOutbound sc' -> SupportsAutoPing sc = SupportsAutoPing sc'.
Proof.
  intros E. unfold SupportsAutoPing, IsGroupSelection, GetNodeList, IsMultiNodeSelection. by rewrite E.
Qed.

(** The normal forms. *)
Record normal_server (sc : ServerConfig) : Prop := {
  nf_legacy : sc_LegacyDisabled sc = None;
  nf_protocol : normalizeProtocol (sc_Protocol sc) = sc_Protocol sc;
  nf_outbound : normalizeProxyOutboundValue (sc_ProxyOutbound sc) = sc_ProxyOutbound sc;
  nf_mode : normalizeServerProxyMode (sc_Protocol sc) (sc_ProxyMode sc) = sc_ProxyMode sc;
  nf_scan : normalizeAutoPingFullScanMode (sc_AutoPingFullScanMode sc) = sc_AutoPingFullScanMode sc;
  nf_ping : SupportsAutoPing sc = true \/
    (sc_AutoPingEnabled sc = false /\ sc_AutoPingFullScanMode sc = AutoPingFullScanModeDisabled);
}.

Lemma Normalize_normal sc : normal_server sc -> Normalize sc = sc.
Proof.
  intros [Hl Hp Ho Hm Hs Ha]. unfold Normalize. rewrite Hl, Hp, Ho, Hm. cbv zeta iota.
  assert (sc_normalized (sc_Hidden sc) (sc_Protocol sc) (sc_ProxyOutbound sc) (sc_ProxyMode sc) sc = sc)
    as -> by (unfold sc_normalized; rewrite Hs; destruct sc; cbn in *; by subst).
  destruct (SupportsAutoPing sc); [done|]. destruct Ha as [|[Ha1 Ha2]]; [done|].
  unfold sc_no_auto_ping. destruct sc; cbn in *. by subst.
Qed.

Lemma Normalize_twice sc :
  is_ascii (sc_Protocol sc) = true -> is_ascii (sc_ProxyMode sc) = true ->
  is_ascii (sc_AutoPingFullScanMode sc) = true ->
  Normalize (Normalize sc) = Normalize sc.
Proof.
  intros Hp Hm Hf. apply Normalize_normal. unfold Normalize. cbv zeta.
  set (s1 := sc_normalized _ _ _ _ sc).
  assert (sc_Protocol s1 = lower_trim (sc_Protocol sc)) as Ep by done.
  assert (sc_ProxyMode s1 = normalizeServerProxyMode (sc_Protocol s1) (sc_ProxyMode sc)) as Em by done.
  assert (sc_AutoPingFullScanMode s1 = lower_trim (sc_AutoPingFullScanMode sc)) as Ef by done.
  assert (sc_ProxyOutbound s1 = trim_space (sc_ProxyOutbound sc)) as Eo by done.
  assert (sc_LegacyDisabled s1 = None) as El by done. clearbody s1.
  assert (SupportsAutoPing (sc_no_auto_ping s1) = SupportsAutoPing s1) as Ea
    by by apply SupportsAutoPing_outbound.
  destruct (SupportsAutoPing s1) eqn:Ha; split; try done;
    try (change (sc_Protocol (sc_no_auto_ping s1)) with (sc_Protocol s1);
         change (sc_ProxyOutbound (sc_no_auto_ping s1)) with (sc_ProxyOutbound s1);
         change (sc_ProxyMode (sc_no_auto_ping s1)) with (sc_ProxyMode s1)).
  all: try (rewrite Ep; by apply lower_trim_twice).
  all: try (rewrite Ef; by apply lower_trim_twice).
  all: try (rewrite Eo; apply trim_space_idemp).
  all: try (rewrite Em; by apply normalizeServerProxyMode_idemp).
  all: auto.
Qed.

(** ** The server table *)

(** Every server is stored under its own identifier and is valid. *)
Definition cm_wf (cm : ConfigManager) : Prop :=
  forall id sc, cm_servers cm !! id = Some sc -> sc_ID sc = id /\ sc_Validate sc = None.

Lemma Validate_resolved resolve now sc :
  sc_Validate (resolved resolve now sc) = sc_Validate sc /\ sc_ID (resolved resolve now sc) = sc_ID sc.
Proof. unfold resolved. by destruct (resolve _). Qed.

Lemma cm_wf_insert (m : gmap string ServerConfig) sc :
  (forall id s, m !! id = Some s -> sc_ID s = id /\ sc_Validate s = None) -> sc_Validate sc = None ->
  forall id s, <[sc_ID sc := sc]> m !! id = Some s -> sc_ID s = id /\ sc_Validate s = None.
Proof. intros Hm Hv id s [[<- <-]|[_ Hs]]%lookup_insert_Some; [done|by apply Hm]. Qed.

Inductive cm_op :=
| OpAdd (resolve : string -> option string) (now : gotime) (save_ok : bool) (sc : ServerConfig)
| OpUpdate (resolve : string -> option string) (now : gotime) (save_ok : bool) (id : string) (sc : ServerConfig)
| OpDelete (save_ok : bool) (id : string)
| OpSetOutbound (save_ok : bool) (id outbound : string)
| OpRefresh (resolve : string -> option string) (now : gotime)
| OpLoad (resolve : string -> option string) (now : gotime) (configs : list ServerConfig).

Definition run_cm_op (o : cm_op) (cm : ConfigManager) : ConfigManager :=
  match o with
  | OpAdd r now ok sc => (AddServer r now ok cm sc).1
  | OpUpdate r now ok id sc => (UpdateServer r now ok cm id sc).1
  | OpDelete ok id => (DeleteServer ok cm id).1
  | OpSetOutbound ok id o => (UpdateServerProxyOutbound ok cm id o).1
  | OpRefresh r now => RefreshDNS r now cm
  | OpLoad r now l => (Load r now cm l).1
  end.

Lemma saveToFile_servers ok cm : cm_servers (saveToFile ok cm).1 = cm_servers cm.
Proof. by destruct ok. Qed.

Lemma load_servers_wf resolve now l :
  Forall (fun sc => sc_Validate sc = None) l ->
  forall id s, load_servers resolve now l !! id = Some s -> sc_ID s = id /\ sc_Validate s = None.
Proof.
  unfold load_servers. intros Hl. assert (forall m : gmap string ServerConfig,
    (forall id s, m !! id = Some s -> sc_ID s = id /\ sc_Validate s = None) ->
    forall id s, fold_left (fun m sc => <[sc_ID sc := resolved resolve now sc]> m) l m !! id = Some s ->
      sc_ID s = id /\ sc_Validate s = None) as Hf.
  { induction Hl as [|sc l Hsc Hl IH]; [done|]. intros m Hm. cbn [fold_left]. apply IH.
    destruct (Validate_resolved resolve now sc) as [E1 E2].
    rewrite <- E2. apply cm_wf_insert; [done|congruence]. }
  apply Hf. intros id s. by rewrite lookup_empty.
Qed.

Lemma run_cm_op_wf o cm : cm_wf cm -> cm_wf (run_cm_op o cm).
Proof.
  intros Hwf. unfold cm_wf in *. destruct o as [r now ok sc|r now ok id sc|ok id|ok id o|r now|r now l]; cbn.
  - unfold AddServer. destruct (sc_Validate (Normalize sc)) eqn:Hv; [done|].
    destruct (cm_servers cm !! _); [done|]. rewrite saveToFile_servers. cbn [cm_servers with_servers].
    destruct (Validate_resolved r now (Normalize sc)) as [E1 E2]. rewrite <- E2.
    apply cm_wf_insert; [done|congruence].
  - unfold UpdateServer. destruct (sc_Validate (Normalize sc)) eqn:Hv; [done|].
    destruct (cm_servers cm !! id) as [old|]; [|done]. rewrite saveToFile_servers. cbn [cm_servers with_servers].
    destruct (Validate_resolved r now (Normalize sc)) as [E1 E2]. rewrite <- E2.
    apply cm_wf_insert; [|congruence]. intros id' s. destruct (negb _); [|apply Hwf].
    intros [_ Hs]%lookup_delete_Some. by apply Hwf.
  - unfold DeleteServer. destruct (cm_servers cm !! id) as [old|]; [|done]. rewrite saveToFile_servers.
    cbn [cm_servers with_servers]. intros id' s [_ Hs]%lookup_delete_Some. by apply Hwf.
  - unfold UpdateServerProxyOutbound. destruct (cm_servers cm !! id) as [s|] eqn:Hs; [|done].
    rewrite saveToFile_servers. cbn [cm_servers with_servers]. apply Hwf in Hs as [Hid Hv].
    subst id. destruct (_ || _).
    + apply (cm_wf_insert _ (set_outbound o "" "" s)); done.
    + apply (cm_wf_insert _ (set_outbound o (sc_LoadBalance s) (sc_LoadBalanceSort s) s)); done.
  - intros id s1. rewrite lookup_fmap. intros (s0 & Hs0 & ->)%fmap_Some. apply Hwf in Hs0.
    destruct (Validate_resolved r now s0) as [E1 E2].
    destruct (sc_ResolveInterval s0 <=? 0); [done|]. destruct (i64 _ <=? _); [|done].
    by rewrite E1, E2.
  - unfold Load. destruct (first_error _) eqn:Hv; [done|]. cbn [fst cm_servers with_servers].
    apply load_servers_wf. apply first_error_None in Hv. by rewrite Forall_fmap in Hv.
Qed.
End config_facts.

(** ** Properties *)

Section config_theorems.
Context `{Unicode}.

(** After any sequence of loads, additions, updates, deletions, DNS refreshes and
    cascade updates, whether or not the file can be written, every server of the
    table is valid and stored under its own identifier. *)
Theorem ConfigManager_wf (l : list cm_op) (id : string) (sc : ServerConfig) :
  cm_servers (fold_left (fun cm o => run_cm_op o cm) l NewConfigManager) !! id = Some sc ->
  sc_ID sc = id /\ sc_Validate sc = None.
Proof.
  enough (cm_wf (fold_left (fun cm o => run_cm_op o cm) l NewConfigManager)) as Hwf by apply Hwf.
  assert (cm_wf NewConfigManager) as H0 by (intros i s; cbn; by rewrite lookup_empty).
  revert H0. generalize NewConfigManager.
  induction l as [|o l IH]; intros cm Hcm; [done|]. cbn. by apply IH, run_cm_op_wf.
Qed.

(** [Normalize] is idempotent on configurations written in ASCII: a saved and
    reloaded server is the same server. *)
Theorem Normalize_idempotent (sc : ServerConfig) :
  is_ascii (sc_Protocol sc) = true -> is_ascii (sc_ProxyMode sc) = true ->
  is_ascii (sc_AutoPingFullScanMode sc) = true ->
  Normalize (Normalize sc) = Normalize sc.
Proof. apply Normalize_twice. Qed.

(** An update that changes the identifier of a server to that of another server
    succeeds and replaces the other one: two servers become one. *)
Theorem UpdateServer_overwrites (resolve : string -> option string) (now : gotime) (cm : ConfigManager)
    (id : string) (config old other : ServerConfig) :
  let new := Normalize config in
  sc_Validate new = None -> id <> sc_ID new ->
  cm_servers cm !! id = Some old -> cm_servers cm !! sc_ID new = Some other ->
  (UpdateServer resolve now true cm id config).2 = None /\
  cm_servers (UpdateServer resolve now true cm id config).1
    = <[sc_ID new := resolved resolve now new]> (delete id (cm_servers cm)) /\
  ServerCount (UpdateServer resolve now true cm id config).1 = ServerCount cm - 1.
Proof.
  intros new Hv Hne Hold Hother. unfold UpdateServer. fold new. rewrite Hv, Hold. cbn [fst snd].
  rewrite (proj2 (String.eqb_neq id _)) by done. cbn [negb].
  split; [done|]. split; [done|]. unfold ServerCount. cbn.
  rewrite map_size_insert_Some.
  - rewrite map_size_delete_Some by (by eexists).
    assert (size (cm_servers cm) <> 0%nat).
    { intros E. apply map_size_empty_inv in E. by rewrite E in Hold. }
    lia.
  - exists other. by rewrite lookup_delete_ne.
Qed.

(** The global configuration is rejected exactly for a negative limit or timeout, a
    port out of range, an invalid full scan or a render limit above the storage
    limit: the other checks of [Validate] can never fail, because the getters
    they test have already replaced the values they reject. *)
Theorem gc_Validate_reachable (gc : GlobalConfig) :
  gc_Validate gc = None <->
  0 <= gc_MaxSessionRecords gc /\ 0 <= gc_MaxAccessLogRecords gc /\ 0 <= gc_APIPort gc <= 65535 /\
  0 <= gc_PassthroughIdleTimeout gc /\ 0 <= gc_PublicPingTimeoutSeconds gc /\
  (forall pre, pre = true \/ pre = false ->
     let mode := if pre then GetServerAutoPingFullScanModeDefault (Some gc)
                 else GetProxyPortAutoPingFullScanModeDefault (Some gc) in
     let time := if pre then GetServerAutoPingFullScanTimeDefault (Some gc)
                 else GetProxyPortAutoPingFullScanTimeDefault (Some gc) in
     mode = AutoPingFullScanModeDisabled \/ mode = AutoPingFullScanModeInterval \/
     (mode = AutoPingFullScanModeDaily /\ is_Some (parseAutoPingClock time))) /\
  GetLatencyHistoryRenderLimit (Some gc) <= GetLatencyHistoryStorageLimit (Some gc).
Proof.
  assert (forall mode time hours, 1 <= hours -> scan_Validate mode time hours = None <->
    mode = AutoPingFullScanModeDisabled \/ mode = AutoPingFullScanModeInterval \/
    (mode = AutoPingFullScanModeDaily /\ is_Some (parseAutoPingClock time))) as Hscan.
  { intros mode time hours Hh. unfold scan_Validate.
    destruct (String.eqb_spec mode AutoPingFullScanModeDisabled) as [->|]; [naive_solver|].
    destruct (String.eqb_spec mode AutoPingFullScanModeDaily) as [->|].
    { destruct (parseAutoPingClock time); [naive_solver|].
      split; [done|]. intros [?|[?|[_ [? ?]]]]; done. }
    destruct (String.eqb_spec mode AutoPingFullScanModeInterval) as [->|]; [|naive_solver].
    rewrite (proj2 (Z.ltb_ge _ _)) by lia. naive_solver. }
  assert (forall d f, 1 <= d -> 1 <= positive_or d f (Some gc)) as Hpos.
  { intros d f Hd. unfold positive_or. bool_cases; lia. }
  unfold gc_Validate. rewrite first_error_None, !Forall_cons, !check_None, !Hscan by (by apply Hpos).
  rewrite !Z.ltb_ge, orb_false_iff, !Z.ltb_ge.
  pose proof (Hpos _ gc_ServerAutoPingIntervalMinutesDefault : 1 <= defaultAutoPingIntervalMinutes -> _).
  pose proof (Hpos _ gc_ServerAutoPingTopCandidatesDefault : 1 <= defaultAutoPingTopCandidates -> _).
  pose proof (Hpos _ gc_ProxyPortAutoPingIntervalMinutesDefault : 1 <= defaultAutoPingIntervalMinutes -> _).
  pose proof (Hpos _ gc_ProxyPortAutoPingTopCandidatesDefault : 1 <= defaultAutoPingTopCandidates -> _).
  pose proof (Hpos _ gc_LatencyHistoryMinIntervalMinutes : 1 <= defaultLatencyHistoryMinIntervalMinute -> _).
  pose proof (Hpos _ gc_LatencyHistoryRenderLimit : 1 <= defaultLatencyHistoryRenderLimit -> _).
  pose proof (Hpos _ gc_LatencyHistoryStorageLimit : 1 <= defaultLatencyHistoryStorageLimit -> _).
  pose proof (Hpos _ gc_LatencyHistoryRetentionDays : 1 <= defaultLatencyHistoryRetentionDays -> _).
  split.
  - intros (? & ? & ? & ? & ? & ? & ? & Hs & ? & ? & Hp & ? & ? & ? & ? & ? & _).
    repeat (split; [lia || done|]). split; [|done]. intros pre [-> | ->]; [exact Hs|exact Hp].
  - intros (? & ? & ? & ? & ? & Hm & ?).
    pose proof (Hm true ltac:(by left)). pose proof (Hm false ltac:(by right)).
    unfold GetServerAutoPingIntervalMinutesDefault, GetServerAutoPingTopCandidatesDefault,
      GetProxyPortAutoPingIntervalMinutesDefault, GetProxyPortAutoPingTopCandidatesDefault,
      GetLatencyHistoryMinIntervalMinutes, GetLatencyHistoryRenderLimit,
      GetLatencyHistoryStorageLimit, GetLatencyHistoryRetentionDays in *.
    repeat split; try done; try (apply Forall_nil; done);
      try (etrans; [|apply Hpos]; done || lia); lia.
Qed.
End config_theorems.

Definition example_server (id : string) : ServerConfig :=
  {| sc_ID := id; sc_Name := "lobby"; sc_Target := "play.example"; sc_Port := 19132;
     sc_ListenAddr := "0.0.0.0:19132"; sc_Protocol := " RakNet"; sc_Enabled := true;
     sc_Hidden := false; sc_LegacyDisabled := Some true; sc_UDPSpeeder := None;
     sc_SendRealIP := false; sc_ResolveInterval := 0; sc_IdleTimeout := 0; sc_BufferSize := 0;
     sc_UDPSocketBufferSize := 0; sc_DisabledMessage := ""; sc_CustomMOTD := "";
     sc_ProxyMode := "Raw_UDP"; sc_ACLServerID := ""; sc_RawUDPKickStrategy := "";
     sc_XboxAuthEnabled := false; sc_XboxTokenPath := ""; sc_ProxyOutbound := " @hk ";
     sc_ShowRealLatency := false; sc_LoadBalance := ""; sc_LoadBalanceSort := "";
     sc_ProtocolVersion := 0; sc_LatencyMode := ""; sc_AutoPingEnabled := true;
     sc_AutoPingIntervalMinutes := 0; sc_AutoPingTopCandidates := 0;
     sc_AutoPingFullScanMode := ""; sc_AutoPingFullScanTime := "";
     sc_AutoPingFullScanIntervalHours := 0; sc_AutoSelectBlockedNodes := ∅;
     sc_resolvedIP := ""; sc_lastResolved := 0 |}.

Lemma ConfigManager_wf_witness :
  let cm := run_cm_op (H := ascii_unicode) (OpAdd (fun _ => None) 5 false (example_server "a"))
              NewConfigManager in
  exists sc, cm_servers cm !! "a"%string = Some sc /\ sc_Validate (H := ascii_unicode) sc = None.
Proof.
  intros cm. destruct (cm_servers cm !! "a"%string) as [sc|] eqn:E; [|vm_compute in E; discriminate].
  exists sc. split; [done|].
  apply (ConfigManager_wf (H := ascii_unicode) [OpAdd (fun _ => None) 5 false (example_server "a")] "a" sc E).
Defined.

Lemma Normalize_idempotent_witness :
  sc_ProxyMode (Normalize (H := ascii_unicode) (Normalize (H := ascii_unicode) (example_server "a")))
  = "raw_udp"%string.
Proof.
  rewrite (Normalize_idempotent (H := ascii_unicode) (example_server "a") eq_refl eq_refl eq_refl).
  vm_compute. reflexivity.
Defined.

Lemma UpdateServer_overwrites_witness :
  let A := OpAdd (fun _ => None) 5 true (example_server "a") in
  let B := OpAdd (fun _ => None) 5 true (example_server "b") in
  let cm := run_cm_op (H := ascii_unicode) B (run_cm_op (H := ascii_unicode) A NewConfigManager) in
  ServerCount cm = 2 /\
  ServerCount (UpdateServer (H := ascii_unicode) (fun _ => None) 6 true cm "a" (example_server "b")).1 = 1.
Proof.
  intros A B cm. split; [vm_compute; reflexivity|].
  destruct (cm_servers cm !! "a"%string) as [old|] eqn:Ea; [|vm_compute in Ea; discriminate].
  destruct (cm_servers cm !! "b"%string) as [other|] eqn:Eb; [|vm_compute in Eb; discriminate].
  rewrite (proj2 (proj2 (UpdateServer_overwrites (H := ascii_unicode) (fun _ => None) 6 cm "a"
    (example_server "b") old other ltac:(vm_compute; reflexivity) ltac:(done) Ea Eb))).
  vm_compute. reflexivity.
Defined.
