(* ===== verification/NetIP.v ===== *)
(** * Go's [net.IP], as far as the program uses it

    Addresses are lists of octets, four or sixteen of them, as in Go;
    [net.ParseIP] returns the sixteen-octet form.  [ParseIP], [ParseCIDR],
    [IPNet.Contains], [IP.String] and [JoinHostPort] follow the standard library;
    a zone ("%eth0") is refused by both parsers, as there. *)

From Stdlib Require Import Strings.Ascii Strings.String.
From stdpp Require Import pretty.
From S2P Require Import Prelude GoBytes GoString Config.

Abbreviation octets := (list Z) (only parsing).

Definition code (a : ascii) : Z := Z.of_nat (nat_of_ascii a).

Definition hex_digit (a : ascii) : option Z :=
  let z := code a in
  if (48 <=? z) && (z <=? 57) then Some (z - 48)
  else if (97 <=? z) && (z <=? 102) then Some (z - 87)
  else if (65 <=? z) && (z <=? 70) then Some (z - 55)
  else None.

(** ** [netip.ParseAddr] *)

(** [parseIPv4Fields]: [cur] is the value of the octet being read with its number of
    digits, [fields] the octets already read. *)
Fixpoint ipv4_fields (s : string) (cur : option (Z * Z)) (fields : octets) : option octets :=
  match s with
  | EmptyString =>
      match cur with
      | Some (val, _) => if zlen fields <? 3 then None else Some (fields ++ [val])
      | None => None
      end
  | String a r =>
      match digit a with
      | Some d =>
          match cur with
          | None => ipv4_fields r (Some (d, 1)) fields
          | Some (val, len) =>
              if (len =? 1) && (val =? 0) then None
              else if 255 <? val * 10 + d then None
              else ipv4_fields r (Some (val * 10 + d, len + 1)) fields
          end
      | None =>
          if Ascii.eqb a "." then
            match cur with
            | Some (val, _) =>
                if String.eqb r "" then None
                else if zlen fields =? 3 then None
                else ipv4_fields r None (fields ++ [val])
            | None => None
            end
          else None
      end
  end.

Definition parseIPv4 (s : string) : option octets := ipv4_fields s None [].

(** The hexadecimal digits at the start: value, number of digits and rest;
    [None] for more than four. *)
Fixpoint hex_group (s : string) (off acc : Z) : option (Z * Z * string) :=
  match s with
  | EmptyString => Some (acc, off, s)
  | String a r =>
      match hex_digit a with
      | Some d => if 3 <? off then None else hex_group r (off + 1) (acc * 16 + d)
      | None => Some (acc, off, s)
      end
  end.

(** The groups of an IPv6 address, the octets read so far and the position of the
    ellipsis; each round reads at least a digit, so the length is enough fuel. *)
Fixpoint ipv6_groups (fuel : nat) (s : string) (ip : octets) (ellipsis : option nat)
  : option (octets * option nat * string) :=
  match fuel with
  | O => None
  | S fuel =>
      if negb (zlen ip <? 16) then Some (ip, ellipsis, s) else
      match hex_group s 0 0 with
      | None => None
      | Some (acc, off, rest) =>
          if off =? 0 then None else
          if has_prefix rest "." then
            if bool_decide (ellipsis = None) && negb (zlen ip =? 12) then None
            else if 16 <? zlen ip + 4 then None
            else match parseIPv4 s with
                 | Some fields => Some (ip ++ fields, ellipsis, ""%string)
                 | None => None
                 end
          else
          let ip := ip ++ [acc / 256; acc mod 256] in
          match rest with
          | EmptyString => Some (ip, ellipsis, rest)
          | String c s =>
              if negb (Ascii.eqb c ":") || String.eqb s "" then None else
              match s with
              | String ":" s' =>
                  match ellipsis with
                  | Some _ => None
                  | None =>
                      let ellipsis := Some (List.length ip) in
                      if String.eqb s' "" then Some (ip, ellipsis, s') else ipv6_groups fuel s' ip ellipsis
                  end
              | _ => ipv6_groups fuel s ip ellipsis
              end
          end
      end
  end.

Definition parseIPv6 (s : string) : option octets :=
  let '(body, ellipsis) :=
    match s with
    | String ":" (String ":" r) => (r, Some 0%nat)
    | _ => (s, None)
    end in
  let groups :=
    if bool_decide (ellipsis <> None) && String.eqb body "" then Some ([], ellipsis, ""%string)
    else ipv6_groups (S (String.length body)) body [] ellipsis in
  match groups with
  | Some (ip, ellipsis, EmptyString) =>
      if zlen ip <? 16 then
        match ellipsis with
        | None => None
        | Some e => Some (take e ip ++ replicate (16 - List.length ip) 0 ++ drop e ip)
        end
      else match ellipsis with None => Some ip | Some _ => None end
  | _ => None
  end.

(** The first of ".", ":" and "%" decides the family. *)
Fixpoint addr_family (s : string) : option ascii :=
  match s with
  | EmptyString => None
  | String a r => if existsb (Ascii.eqb a) ["."; ":"; "%"]%char then Some a else addr_family r
  end.

Definition v4InV6Prefix : octets := [0; 0; 0; 0; 0; 0; 0; 0; 0; 0; 0xff; 0xff].

(** The address and its number of bits. *)
Definition parse_addr (s : string) : option (octets * Z) :=
  match addr_family s with
  | Some "."%char => (fun ip => (v4InV6Prefix ++ ip, 32)) <$> parseIPv4 s
  | Some ":"%char => (fun ip => (ip, 128)) <$> parseIPv6 s
  | _ => None
  end.

Definition ParseIP (s : string) : option octets := fst <$> parse_addr s.

Definition To4 (ip : octets) : option octets :=
  if zlen ip =? 4 then Some ip
  else if (zlen ip =? 16) && bool_decide (take 12 ip = v4InV6Prefix) then Some (drop 12 ip)
  else None.

(** ** Masks and networks *)

Record IPNet := { net_IP : octets; net_Mask : octets }.

(** The octet with its [n] highest bits set. *)
Definition mask_octet (n : Z) : Z := if 8 <=? n then 255 else if n <=? 0 then 0 else 256 - 2 ^ (8 - n).

Fixpoint mask_octets (count : nat) (ones : Z) : octets :=
  match count with
  | O => []
  | S count => mask_octet ones :: mask_octets count (ones - 8)
  end.

(** [net.CIDRMask(ones, bits)] for 32 and 128 bits. *)
Definition CIDRMask (ones bits : Z) : octets := mask_octets (Z.to_nat (bits / 8)) ones.

(** [ip.Mask(mask)] for a sixteen-octet address. *)
Definition ip_mask (ip mask : octets) : octets :=
  let ip := if (zlen mask =? 4) && bool_decide (take 12 ip = v4InV6Prefix) then drop 12 ip else ip in
  zip_with Z.land ip mask.

(** [dtoi]: decimal digits only, below 0xFFFFFF. *)
Fixpoint dtoi (s : string) (n : Z) : option Z :=
  match s with
  | EmptyString => Some n
  | String a r =>
      match digit a with
      | Some d => if 0xFFFFFF <=? n * 10 + d then None else dtoi r (n * 10 + d)
      | None => None
      end
  end.

(** The part before the first "/" and the part after it. *)
Definition cut (c : ascii) (s : string) : option (string * string) :=
  match index_byte s c 0 with
  | None => None
  | Some i => Some (String.substring 0 i s, str_from s (S i))
  end.

Definition ParseCIDR (s : string) : option IPNet :=
  match cut "/" s with
  | None => None
  | Some (addr, mask) =>
      match parse_addr addr with
      | None => None
      | Some (ip, bits) =>
          if String.eqb mask "" then None else
          match dtoi mask 0 with
          | None => None
          | Some n =>
              if bits <? n then None
              else let m := CIDRMask n bits in Some {| net_IP := ip_mask ip m; net_Mask := m |}
          end
      end
  end.

Definition networkNumberAndMask (n : IPNet) : option (octets * octets) :=
  match (match To4 (net_IP n) with
         | Some ip => Some ip
         | None => if zlen (net_IP n) =? 16 then Some (net_IP n) else None
         end) with
  | None => None
  | Some ip =>
      if zlen (net_Mask n) =? 4 then if zlen ip =? 4 then Some (ip, net_Mask n) else None
      else if zlen (net_Mask n) =? 16 then
        Some (ip, if zlen ip =? 4 then drop 12 (net_Mask n) else net_Mask n)
      else None
  end.

Definition masked (ip m : octets) : octets := zip_with Z.land ip m.

Definition net_Contains (n : IPNet) (ip : octets) : bool :=
  match networkNumberAndMask n with
  | None => false
  | Some (nn, m) =>
      let ip := default ip (To4 ip) in
      (zlen ip =? zlen nn) && bool_decide (masked nn m = masked ip m)
  end.

(** ** Printing *)

Definition hex_char (d : Z) : ascii := ascii_of_nat (Z.to_nat (if d <? 10 then d + 48 else d + 87)).

(** [appendHex]: no leading zeros. *)
Definition append_hex (x : Z) : string :=
  let d i := String (hex_char (x / 16 ^ i mod 16)) EmptyString in
  let when (b : bool) s := if b then s else ""%string in
  (when (0x1000 <=? x)%Z (d 3%Z) ++ when (0x100 <=? x)%Z (d 2%Z) ++ when (0x10 <=? x)%Z (d 1%Z) ++ d 0%Z)%string.

Definition ipv4_string (ip : octets) : string := join1 "." (pretty <$> ip).

Fixpoint groups_of (ip : octets) : list Z :=
  match ip with
  | a :: b :: r => (a * 256 + b) :: groups_of r
  | _ => []
  end.

Fixpoint zeros (g : list Z) : nat :=
  match g with
  | 0 :: r => S (zeros r)
  | _ => O
  end.

(** The first of the longest runs of at least two zero groups. *)
Fixpoint longest_zeros (g : list Z) (i : nat) (best : nat * nat) : nat * nat :=
  match g with
  | [] => best
  | _ :: r =>
      longest_zeros r (S i) (if (2 <=? zeros g)%nat && (snd best <? zeros g)%nat then (i, zeros g) else best)
  end.

Definition ipv6_string (ip : octets) : string :=
  let g := groups_of ip in
  let '(start, len) := longest_zeros g 0 (0, 0)%nat in
  let hex l := join1 ":" (append_hex <$> l) in
  if (len =? 0)%nat then hex g
  else (hex (take start g) ++ "::" ++ hex (drop (start + len) g))%string.

(** [ip.String()] of four or sixteen octets. *)
Definition ip_String (ip : octets) : string :=
  match To4 ip with
  | Some ip => ipv4_string ip
  | None => ipv6_string ip
  end.

(** [net.JoinHostPort]: an IPv6 literal, or any host with a colon, is bracketed. *)
Definition JoinHostPort (host port : string) : string :=
  if contains1 host ":" then ("[" ++ host ++ "]:" ++ port)%string
  else (host ++ ":" ++ port)%string.

(** The host of [net.SplitHostPort], when it succeeds. *)
Definition split_host (hostport : string) : option string :=
  if negb (split_host_port_ok hostport) then None else
  match last_index_byte hostport ":" 0 with
  | None => None
  | Some i =>
      match hostport with
      | String "[" r =>
          match index_byte hostport "]" 0 with
          | Some e => Some (String.substring 1 (e - 1) hostport)
          | None => None
          end
      | _ => Some (String.substring 0 i hostport)
      end
  end.

(** The port of [net.SplitHostPort], when it succeeds. *)
Definition split_port (hostport : string) : option string :=
  if negb (split_host_port_ok hostport) then None else
  match last_index_byte hostport ":" 0 with
  | None => None
  | Some i => Some (str_from hostport (S i))
  end.

(** [parsePort]: the value, or [None] when the name has to be looked up.  The loop
    stops at 2^30 with the largest 32-bit value. *)
Fixpoint port_digits (s : string) (n : Z) : option Z :=
  match s with
  | EmptyString => Some n
  | String a r =>
      match digit a with
      | None => None
      | Some d =>
          if 2 ^ 30 <=? n then Some (2 ^ 32 - 1)
          else if 2 ^ 32 <=? n * 10 + d then Some (2 ^ 32 - 1)
          else port_digits r (n * 10 + d)
      end
  end.

Definition parsePort (service : string) : option Z :=
  match service with
  | String "+" r => (fun n => Z.min n (2 ^ 30 - 1)) <$> port_digits r 0
  | String "-" r => (fun n => - Z.min n (2 ^ 30)) <$> port_digits r 0
  | _ => (fun n => Z.min n (2 ^ 30 - 1)) <$> port_digits service 0
  end.

(** [net.LookupPort]; [services] are the service names of the system. *)
Definition LookupPort (services : string -> option Z) (service : string) : option Z :=
  match parsePort service with
  | Some port => if (0 <=? port) && (port <=? 65535) then Some port else None
  | None =>
      match services service with
      | Some port => if (0 <=? port) && (port <=? 65535) then Some port else None
      | None => None
      end
  end.

#[global] Arguments ParseIP : simpl never.
#[global] Arguments ParseCIDR : simpl never.

(** * Facts *)

Definition octet (x : Z) : Prop := 0 <= x < 256.

(** The number an address stands for. *)
Fixpoint addr_value (ip : octets) : Z :=
  match ip with
  | [] => 0
  | x :: r => x * 2 ^ (8 * zlen r) + addr_value r
  end.

Lemma addr_value_range ip : Forall octet ip -> 0 <= addr_value ip < 2 ^ (8 * zlen ip).
Proof.
  induction 1 as [|x r Hx Hr IH]; cbn [addr_value]; [by cbn|].
  rewrite zlen_cons. unfold octet in Hx. pose proof (zlen_nonneg r).
  replace (8 * (1 + zlen r)) with (8 + 8 * zlen r) by lia.
  rewrite Z.pow_add_r by lia. change (2 ^ 8) with 256. nia.
Qed.

Lemma length_mask_octets count n : List.length (mask_octets count n) = count.
Proof. revert n. induction count as [|count IH]; intros n; cbn; [done|]. by rewrite IH. Qed.

(** One octet: masking keeps the quotient by the power of two below the mask. *)
Definition octet_list : list Z := Z.of_nat <$> seq 0 256.

Lemma octet_list_spec x : octet x -> x ∈ octet_list.
Proof.
  intros [? ?]. unfold octet_list. apply list_elem_of_fmap. exists (Z.to_nat x).
  split; [lia|]. apply elem_of_seq. lia.
Qed.

Definition mask_table : bool :=
  forallb (fun n => forallb (fun x =>
    Z.land x (mask_octet n) =? x / 2 ^ (8 - n) * 2 ^ (8 - n)) octet_list) [0; 1; 2; 3; 4; 5; 6; 7; 8].

Lemma mask_table_checked : mask_table = true.
Proof. by vm_compute. Qed.

Lemma mask_octet_land x n : octet x -> 0 <= n <= 8 -> Z.land x (mask_octet n) = x / 2 ^ (8 - n) * 2 ^ (8 - n).
Proof.
  intros Hx Hn. pose proof mask_table_checked as H. unfold mask_table in H.
  rewrite forallb_forall in H.
  assert (In n [0; 1; 2; 3; 4; 5; 6; 7; 8]) as Hin by (cbn; lia).
  specialize (H n Hin). rewrite forallb_forall in H.
  apply Z.eqb_eq, H, list_elem_of_In, octet_list_spec, Hx.
Qed.

Lemma mask_octet_full n : 8 <= n -> mask_octet n = mask_octet 8.
Proof. intros. unfold mask_octet. by rewrite (proj2 (Z.leb_le 8 n)) by lia. Qed.

Lemma mask_octet_none n : n <= 0 -> mask_octet n = mask_octet 0.
Proof.
  intros. unfold mask_octet. rewrite (proj2 (Z.leb_gt 8 n)), (proj2 (Z.leb_le n 0)) by lia. done.
Qed.

Lemma masked_none count n a : n <= 0 -> Forall octet a -> List.length a = count ->
  masked a (mask_octets count n) = replicate count 0.
Proof.
  intros Hn Ha. revert count n Hn. induction Ha as [|x r Hx Hr IH]; intros count n Hn <-; cbn; [done|].
  rewrite (mask_octet_none n), (mask_octet_land x 0) by (done || lia).
  unfold octet in Hx. rewrite Z.div_small by (cbn; lia). cbn.
  f_equal. apply IH; [lia|done].
Qed.

(** Equality under the mask of [n] bits is equality of the [n] highest bits. *)
Lemma masked_prefix a b n :
  Forall octet a -> Forall octet b -> List.length a = List.length b -> 0 <= n <= 8 * zlen a ->
  masked a (mask_octets (List.length a) n) = masked b (mask_octets (List.length a) n) <->
  addr_value a / 2 ^ (8 * zlen a - n) = addr_value b / 2 ^ (8 * zlen a - n).
Proof.
  intros Ha. revert b n. induction Ha as [|x r Hx Hr IH]; intros b n Hb Hl Hn.
  { by destruct b. }
  destruct Hb as [|y k Hy Hk]; [done|]. injection Hl as Hl.
  rewrite zlen_cons in Hn |- *. cbn [List.length mask_octets addr_value].
  unfold masked in IH |- *. cbn [zip_with].
  assert (zlen k = zlen r) as -> by (unfold zlen; by rewrite Hl).
  pose proof (addr_value_range r Hr) as Br. pose proof (addr_value_range k Hk) as Bk.
  assert (zlen k = zlen r) as E by (unfold zlen; by rewrite Hl). rewrite E in Bk.
  pose proof (zlen_nonneg r) as H0.
  destruct (Z.le_gt_cases 8 n) as [H8|H8].
  - rewrite mask_octet_full, !mask_octet_land by (done || lia). cbn [Z.sub]. change (2 ^ (8 - 8)) with 1.
    rewrite !Z.div_1_r, !Z.mul_1_r.
    specialize (IH k (n - 8) Hk Hl ltac:(lia)).
    replace (8 * (1 + zlen r) - n) with (8 * zlen r - (n - 8)) by lia.
    set (d := 8 * zlen r - (n - 8)) in *.
    assert (2 ^ (8 * zlen r) = 2 ^ (n - 8) * 2 ^ d) as Ep
      by (rewrite <- Z.pow_add_r by (unfold d; lia); f_equal; unfold d; lia).
    assert (0 < 2 ^ d) as Hd by (apply Z.pow_pos_nonneg; unfold d; lia).
    assert (forall z v, (z * 2 ^ (8 * zlen r) + v) / 2 ^ d = z * 2 ^ (n - 8) + v / 2 ^ d) as Eq
      by (intros z v; rewrite Ep, Z.mul_assoc, Z.div_add_l; lia).
    rewrite !Eq.
    assert (forall v, 0 <= v < 2 ^ (8 * zlen r) -> 0 <= v / 2 ^ d < 2 ^ (n - 8)) as Hq.
    { intros v Hv. split; [apply Z.div_pos; lia|]. apply Z.div_lt_upper_bound; [lia|].
      rewrite Z.mul_comm, <- Ep. lia. }
    pose proof (Hq _ Br). pose proof (Hq _ Bk). split.
    + intros [= -> Hm]. apply IH in Hm. by rewrite Hm.
    + intros Hm. assert (x = y) as -> by nia. f_equal. apply IH. lia.
  - rewrite !(masked_none _ (n - 8)) by (done || lia).
    rewrite !mask_octet_land by (done || lia).
    replace (8 * (1 + zlen r) - n) with (8 * zlen r + (8 - n)) by lia.
    assert (0 < 2 ^ (8 * zlen r)) by (apply Z.pow_pos_nonneg; lia).
    assert (0 < 2 ^ (8 - n)) by (apply Z.pow_pos_nonneg; lia).
    rewrite Z.pow_add_r, <- !Z.div_div by lia.
    rewrite !Z.div_add_l, !(Z.div_small (addr_value _)), !Z.add_0_r by lia.
    split; [intros [= ?]; nia|]. by intros ->.
Qed.

(** ** Printing and reading back an IPv4 address *)

(** The state of [ipv4_fields] after the digits of [s]. *)
Fixpoint octet_digits (s : string) (cur : option (Z * Z)) : option (option (Z * Z)) :=
  match s with
  | EmptyString => Some cur
  | String a r =>
      match digit a with
      | None => None
      | Some d =>
          match cur with
          | None => octet_digits r (Some (d, 1))
          | Some (val, len) =>
              if ((len =? 1) && (val =? 0)) || (255 <? val * 10 + d) then None
              else octet_digits r (Some (val * 10 + d, len + 1))
          end
      end
  end.

Lemma ipv4_fields_digits s rest cur cur' fields :
  octet_digits s cur = Some cur' -> ipv4_fields (s ++ rest) cur fields = ipv4_fields rest cur' fields.
Proof.
  revert cur. induction s as [|a s IH]; intros cur; [by intros [= ->]|].
  change (String a s ++ rest)%string with (String a (s ++ rest)). cbn [octet_digits ipv4_fields].
  destruct (digit a) as [d|]; [|done]. destruct cur as [[val len]|]; [|apply IH].
  destruct ((len =? 1) && (val =? 0)); [done|]. cbn [orb]. destruct (255 <? _); [done|]. apply IH.
Qed.

Definition octet_table : bool :=
  forallb (fun x => match octet_digits (pretty x) None with
                    | Some (Some (v, _)) => v =? x
                    | _ => false
                    end) octet_list.

Lemma octet_table_checked : octet_table = true.
Proof. by vm_compute. Qed.

Lemma octet_digits_pretty x : octet x -> exists len, octet_digits (pretty x) None = Some (Some (x, len)).
Proof.
  intros Hx. pose proof octet_table_checked as H. unfold octet_table in H. rewrite forallb_forall in H.
  specialize (H x). rewrite <- list_elem_of_In in H. specialize (H (octet_list_spec x Hx)).
  destruct (octet_digits (pretty x) None) as [[[v len]|]|]; try done.
  apply Z.eqb_eq in H as ->. by exists len.
Qed.

Lemma ipv4_field_dot x rest fields : octet x -> zlen fields < 3 -> rest <> ""%string ->
  ipv4_fields (pretty x ++ String "." rest) None fields = ipv4_fields rest None (fields ++ [x]).
Proof.
  intros Hx Hf Hr. destruct (octet_digits_pretty x Hx) as [len E].
  rewrite (ipv4_fields_digits _ _ _ _ _ E). cbn.
  rewrite (proj2 (String.eqb_neq _ _)) by done. by rewrite (proj2 (Z.eqb_neq (zlen fields) 3)) by lia.
Qed.

Lemma pretty_octet_nonempty x r : octet x -> (pretty x ++ r)%string <> ""%string.
Proof.
  intros Hx E. destruct (octet_digits_pretty x Hx) as [len H]. by destruct (pretty x).
Qed.

Lemma parseIPv4_string a b c d : octet a -> octet b -> octet c -> octet d ->
  parseIPv4 (ipv4_string [a; b; c; d]) = Some [a; b; c; d].
Proof.
  intros Ha Hb Hc Hd. unfold parseIPv4, ipv4_string. cbn [fmap list_fmap join1].
  assert (pretty d <> ""%string) as Hne.
  { intros E. apply (pretty_octet_nonempty d ""); [done|]. by rewrite E. }
  rewrite !ipv4_field_dot; try done; try (by apply pretty_octet_nonempty).
  destruct (octet_digits_pretty d Hd) as [len E].
  assert ((pretty d ++ "")%string = pretty d) as E0 by (clear; induction (pretty d) as [|q r IH]; [done|]; apply (f_equal (String q)), IH).
  rewrite <- E0.
  rewrite (ipv4_fields_digits _ _ _ _ _ E). reflexivity.
Qed.

Lemma digit_family a : is_Some (digit a) -> existsb (Ascii.eqb a) ["."; ":"; "%"]%char = false.
Proof.
  intros [d Hd]. destruct (existsb _ _) eqn:Hx; [|done]. apply existsb_exists in Hx as (x & Hx & ->%Ascii.eqb_eq).
  cbn in Hx. by destruct Hx as [<-|[<-|[<-|[]]]].
Qed.

Lemma addr_family_digits s cur rest : is_Some (octet_digits s cur) ->
  addr_family (s ++ rest) = addr_family rest.
Proof.
  revert cur. induction s as [|a s IH]; intros cur Hs; [done|].
  change (String a s ++ rest)%string with (String a (s ++ rest)). cbn [addr_family].
  cbn [octet_digits] in Hs. destruct (digit a) as [d|] eqn:E; [|by destruct Hs].
  rewrite digit_family by (by rewrite E). destruct cur as [[val len]|]; [|by eapply IH].
  destruct (_ || _); [by destruct Hs|]. by eapply IH.
Qed.

Lemma ParseIP_string a b c d : octet a -> octet b -> octet c -> octet d ->
  ParseIP (ipv4_string [a; b; c; d]) = Some (v4InV6Prefix ++ [a; b; c; d]).
Proof.
  intros Ha Hb Hc Hd. unfold ParseIP, parse_addr.
  assert (addr_family (ipv4_string [a; b; c; d]) = Some "."%char) as ->.
  { unfold ipv4_string. cbn [fmap list_fmap join1]. destruct (octet_digits_pretty a Ha) as [len E].
    erewrite addr_family_digits by (by rewrite E). done. }
  by rewrite parseIPv4_string.
Qed.

(** ** Networks of IPv4 addresses *)

Lemma To4_v4 ip : List.length ip = 4%nat -> To4 ip = Some ip.
Proof. intros Hl. unfold To4, zlen. by rewrite Hl. Qed.

Lemma To4_mapped ip : List.length ip = 4%nat -> To4 (v4InV6Prefix ++ ip) = Some ip.
Proof.
  intros Hl. unfold To4, zlen. rewrite length_app, Hl. change (take 12 (v4InV6Prefix ++ ip)) with v4InV6Prefix.
  rewrite bool_decide_true by done. done.
Qed.

Lemma masked_octets a m : Forall octet a -> List.length a = List.length m ->
  Forall (fun x => exists n, 0 <= n <= 8 /\ x = mask_octet n) m -> Forall octet (masked a m).
Proof.
  intros Ha. revert m. induction Ha as [|x r Hx Hr IH]; intros m Hl Hm; [done|].
  destruct m as [|y k]; [done|]. injection Hl as Hl. apply Forall_cons in Hm as [(n & Hn & ->) Hm].
  constructor; [|by apply IH]. rewrite mask_octet_land by done. unfold octet in *.
  assert (0 < 2 ^ (8 - n)) by (apply Z.pow_pos_nonneg; lia).
  pose proof (Z.mul_div_le x (2 ^ (8 - n))). pose proof (Z.div_pos x (2 ^ (8 - n))). nia.
Qed.

Lemma masked_twice a m : masked (masked a m) m = masked a m.
Proof.
  revert m. induction a as [|x a IH]; intros [|y m]; try done. unfold masked in *. cbn [zip_with].
  rewrite IH. by rewrite <- Z.land_assoc, Z.land_diag.
Qed.

(** The network written "a.b.c.d/n" holds an address exactly when both have the
    same [n] highest bits. *)
Lemma net_Contains_v4 net addr n :
  Forall octet net -> Forall octet addr -> List.length net = 4%nat -> List.length addr = 4%nat -> 0 <= n <= 32 ->
  let m := CIDRMask n 32 in
  net_Contains {| net_IP := ip_mask (v4InV6Prefix ++ net) m; net_Mask := m |} (v4InV6Prefix ++ addr) = true <->
  addr_value addr / 2 ^ (32 - n) = addr_value net / 2 ^ (32 - n).
Proof.
  intros Hn Ha Ln La Hb m.
  assert (List.length m = 4%nat) as Lm by apply length_mask_octets.
  assert (ip_mask (v4InV6Prefix ++ net) m = masked net m) as ->.
  { unfold ip_mask, zlen. rewrite Lm. change (take 12 (v4InV6Prefix ++ net)) with v4InV6Prefix.
    by rewrite bool_decide_true. }
  assert (List.length (masked net m) = 4%nat) as Lk
    by (unfold masked; rewrite length_zip_with, Ln, Lm; done).
  unfold net_Contains, networkNumberAndMask. cbn [net_IP net_Mask].
  rewrite To4_v4, To4_mapped by done. unfold zlen. rewrite Lm, Lk. cbn [default id].
  change (Z.of_nat 4 =? 4) with true. cbv iota beta. unfold id. rewrite La, Lk. cbn [andb Z.eqb Z.of_nat].
  rewrite Z.eqb_refl, andb_true_l.
  rewrite bool_decide_eq_true, masked_twice. change m with (mask_octets 4 n). rewrite <- Ln.
  assert (zlen net = 4) as E by (unfold zlen; by rewrite Ln).
  rewrite masked_prefix by (done || lia || congruence). rewrite E. split; intros Hq; by symmetry.
Qed.

(** ** The text of networks and of host:port pairs *)

Lemma append_cons a s t : (String a s ++ t)%string = String a (s ++ t).
Proof. done. Qed.

Lemma append_empty t : ("" ++ t)%string = t.
Proof. done. Qed.

Lemma contains1_app s t c : contains1 (s ++ t) c = contains1 s c || contains1 t c.
Proof. induction s as [|a s IH]; [done|]. rewrite append_cons. cbn [contains1]. by rewrite IH, orb_assoc. Qed.

Lemma index_byte_app a b c p : contains1 a c = false -> index_byte (a ++ String c b) c p = Some (p + String.length a)%nat.
Proof.
  revert p. induction a as [|x a IH]; intros p; rewrite ?append_cons, ?append_empty; cbn.
  - by rewrite Ascii.eqb_refl, Nat.add_0_r.
  - destruct (Ascii.eqb x c) eqn:E; [by rewrite orb_true_l|]. cbn. intros Ha. rewrite IH by done. f_equal. lia.
Qed.

Lemma last_index_byte_none b c p : contains1 b c = false -> last_index_byte b c p = None.
Proof.
  revert p. induction b as [|x b IH]; intros p; [done|]. cbn. intros [Hx Hb]%orb_false_iff.
  rewrite IH by done. by rewrite Hx.
Qed.

Lemma last_index_byte_app a b c p : contains1 b c = false ->
  last_index_byte (a ++ String c b) c p = Some (p + String.length a)%nat.
Proof.
  intros Hb. revert p. induction a as [|x a IH]; intros p; rewrite ?append_cons, ?append_empty; cbn.
  - rewrite last_index_byte_none by done. by rewrite Ascii.eqb_refl, Nat.add_0_r.
  - rewrite IH. f_equal. lia.
Qed.

Lemma substring_prefix a b : String.substring 0 (String.length a) (a ++ b) = a.
Proof. induction a as [|x a IH]; [by destruct b|]. rewrite append_cons. cbn. by rewrite IH. Qed.

Lemma substring_whole b : String.substring 0 (String.length b) b = b.
Proof. induction b as [|x b IH]; cbn; [done|]. by rewrite IH. Qed.

Lemma substring_drop a b n : String.substring (String.length a) n (a ++ b) = String.substring 0 n b.
Proof. induction a as [|x a IH]; [done|]. rewrite append_cons. exact IH. Qed.

Lemma string_length_app a b : String.length (a ++ b) = (String.length a + String.length b)%nat.
Proof. induction a as [|x a IH]; [done|]. rewrite append_cons. cbn. by rewrite IH. Qed.

Lemma str_from_app a c b : str_from (a ++ String c b) (S (String.length a)) = b.
Proof.
  unfold str_from. rewrite string_length_app. cbn [String.length].
  replace (String.length a + S (String.length b) - S (String.length a))%nat with (String.length b) by lia.
  assert ((a ++ String c b)%string = ((a ++ String c "") ++ b)%string) as ->
    by (clear; induction a as [|x a IH]; [done|]; rewrite !append_cons; by rewrite IH).
  assert (S (String.length a) = String.length (a ++ String c "")) as -> by (rewrite string_length_app; cbn; lia).
  by rewrite substring_drop, substring_whole.
Qed.

Lemma cut_app a c b : contains1 a c = false -> cut c (a ++ String c b) = Some (a, b).
Proof.
  intros Ha. unfold cut. rewrite index_byte_app by done. cbn. by rewrite substring_prefix, str_from_app.
Qed.

Definition octet_text (x : Z) : bool :=
  let s := pretty x in
  String.eqb (trim_space s) s && negb (String.eqb s "")
  && forallb (fun c => negb (contains1 s c)) [" "; "/"; ":"; "["; "]"; "."]%char
  && match dtoi s 0 with Some v => v =? x | None => false end.

Lemma octet_text_checked : forallb octet_text octet_list = true.
Proof. by vm_compute. Qed.

Lemma octet_text_spec x : octet x ->
  piece (pretty x) /\ Forall (fun c => contains1 (pretty x) c = false) [" "; "/"; ":"; "["; "]"; "."]%char /\
  dtoi (pretty x) 0 = Some x.
Proof.
  intros Hx. pose proof octet_text_checked as H. rewrite forallb_forall in H. specialize (H x).
  rewrite <- list_elem_of_In in H. specialize (H (octet_list_spec x Hx)). unfold octet_text in H.
  rewrite !andb_true_iff in H. destruct H as [[[Ht Hn] Hc] Hd]. split; [|split].
  - split; [by apply String.eqb_eq|]. by apply String.eqb_neq, negb_true_iff.
  - apply Forall_forall. intros c Hin. rewrite forallb_forall in Hc. apply negb_true_iff, Hc. by apply list_elem_of_In.
  - destruct (dtoi (pretty x) 0) as [v|]; [|done]. by apply Z.eqb_eq in Hd as ->.
Qed.

Lemma ipv4_string_text ip : Forall octet ip -> ip <> [] ->
  piece (ipv4_string ip) /\ Forall (fun c => contains1 (ipv4_string ip) c = false) [" "; "/"; ":"; "["; "]"]%char.
Proof.
  intros Hip Hne. split.
  - apply join1_trimmed; [done| |by destruct ip]. apply Forall_fmap. eapply Forall_impl; [exact Hip|].
    intros x Hx. by apply octet_text_spec.
  - apply Forall_forall. intros c Hc. unfold ipv4_string. clear Hne.
    assert (c <> "."%char) as Hdot by (intros ->; repeat (apply elem_of_cons in Hc as [?|Hc]; [discriminate|]); by apply elem_of_nil in Hc).
    induction Hip as [|x l Hx Hl IH]; [done|]. destruct (octet_text_spec x Hx) as (_ & Ht & _).
    rewrite Forall_forall in Ht. specialize (Ht c). assert (contains1 (pretty x) c = false) as Hxc
      by (apply Ht; repeat (apply elem_of_cons in Hc as [->|Hc]; [repeat constructor|]); by apply elem_of_nil in Hc).
    destruct l as [|y l]; [done|]. change (join1 "." (pretty <$> x :: y :: l)) with
      (pretty x ++ String "." (join1 "." (pretty <$> y :: l)))%string.
    rewrite contains1_app, Hxc. cbn [contains1 orb]. rewrite IH. by destruct (Ascii.eqb_spec "." c) as [<-|].
Qed.

(** "a.b.c.d/n" *)
Definition cidr_string (ip : octets) (n : Z) : string := (ipv4_string ip ++ String "/" (pretty n))%string.

Lemma parse_addr_string ip : Forall octet ip -> List.length ip = 4%nat ->
  parse_addr (ipv4_string ip) = Some (v4InV6Prefix ++ ip, 32).
Proof.
  intros Hip Hl. destruct ip as [|a [|b [|c [|d [|]]]]]; try discriminate Hl.
  rewrite !Forall_cons in Hip. destruct Hip as (Ha & Hb & Hc & Hd & _).
  pose proof (ParseIP_string a b c d Ha Hb Hc Hd) as E. unfold ParseIP, parse_addr in *.
  destruct (addr_family (ipv4_string [a; b; c; d])) as [f|] eqn:Ef; [|done].
  assert (f = "."%char) as ->.
  { unfold ipv4_string in Ef. cbn [fmap list_fmap join1] in Ef. destruct (octet_digits_pretty a Ha) as [len Ea].
    erewrite addr_family_digits in Ef by (by rewrite Ea). cbn in Ef. by injection Ef as <-. }
  by rewrite parseIPv4_string.
Qed.

Lemma ParseCIDR_string ip n : Forall octet ip -> List.length ip = 4%nat -> 0 <= n <= 32 ->
  ParseCIDR (cidr_string ip n) = Some {| net_IP := ip_mask (v4InV6Prefix ++ ip) (CIDRMask n 32); net_Mask := CIDRMask n 32 |}.
Proof.
  intros Hip Hl Hn. assert (octet n) as Ho by (unfold octet; lia).
  destruct (ipv4_string_text ip Hip) as [_ Ht]; [by destruct ip|].
  destruct (octet_text_spec n Ho) as ([_ Hne] & _ & Hd).
  unfold ParseCIDR, cidr_string. rewrite cut_app.
  - rewrite parse_addr_string, Hd by done. rewrite (proj2 (String.eqb_neq _ _)) by done.
    by rewrite (proj2 (Z.ltb_ge 32 n)) by lia.
  - rewrite Forall_forall in Ht. apply Ht. set_solver.
Qed.

Lemma cidr_string_trimmed ip n : Forall octet ip -> List.length ip = 4%nat -> 0 <= n <= 32 -> piece (cidr_string ip n).
Proof.
  intros Hip Hl Hn. assert (octet n) as Ho by (unfold octet; lia).
  destruct (ipv4_string_text ip Hip) as [[Ht Hne] _]; [by destruct ip|].
  destruct (octet_text_spec n Ho) as ([Hp Hpe] & _ & _). split.
  - apply trimmed_app; try done. by apply trimmed_spec in Hp as [_ ?].
  - unfold cidr_string. by destruct (ipv4_string ip).
Qed.

(** The host of a remote address "a.b.c.d:port". *)
Lemma split_host_v4 ip port : Forall octet ip -> List.length ip = 4%nat ->
  Forall (fun c => contains1 port c = false) [":"; "["; "]"]%char ->
  split_host (ipv4_string ip ++ String ":" port) = Some (ipv4_string ip).
Proof.
  intros Hip Hl Hp. destruct (ipv4_string_text ip Hip) as [_ Ht]; [by destruct ip|].
  rewrite !Forall_cons in Ht. rewrite !Forall_cons in Hp. destruct Ht as (_ & _ & Hc & Ho & Hcl & _). destruct Hp as (Pc & Po & Pcl & _).
  assert (forall c, c = "["%char \/ c = "]"%char -> contains1 (ipv4_string ip ++ String ":" port) c = false) as Hb.
  { intros c [-> | ->]; rewrite contains1_app; cbn [contains1]; [rewrite Ho|rewrite Hcl]; cbn; [by rewrite Po|by rewrite Pcl]. }
  unfold split_host, split_host_port_ok. rewrite last_index_byte_app by done. cbn [plus Nat.add].
  rewrite substring_prefix. rewrite !Hb by auto.
  assert (forall q, ipv4_string ip <> String "["%char q) as Hne
    by (intros q E; rewrite E in Ho; done).
  destruct (ipv4_string ip) as [|x q] eqn:E; [by destruct ip as [|a [|]]; try discriminate Hl; unfold ipv4_string in E; cbn in E; destruct (pretty a)|].
  rewrite append_cons. destruct (Ascii.eqb_spec x "["%char) as [->|Hx]; [by destruct (Hne q)|].
  rewrite Hc. clear -Hx. destruct x as [[] [] [] [] [] [] [] []]; try done.
Qed.
