(* ===== verification/NetIPText.v ===== *)
(** * The text of an IP address and its reading: [net.IP.String] and [net.ParseIP]

    The address a host name resolved to is handed on as text; what reads it gets the
    same address.  [NetIP] has the two functions. *)

From Stdlib Require Import Strings.Ascii Strings.String.
From stdpp Require Import pretty.
From S2P Require Import Prelude GoBytes GoString Config NetIP.

Lemma string_app_assoc (a b c : string) : (a ++ b ++ c)%string = ((a ++ b) ++ c)%string.
Proof. induction a as [|x a IH]; [done|]. rewrite !append_cons. by rewrite IH. Qed.

Lemma string_app_nil (a : string) : (a ++ "")%string = a.
Proof. induction a as [|x a IH]; [done|]. rewrite append_cons. by rewrite IH. Qed.

Lemma has_prefix_cons c a r : has_prefix (String a r) (String c "") = Ascii.eqb c a.
Proof.
  unfold has_prefix. change (String.prefix (String c "") (String a r)) with (if ascii_dec c a then String.prefix "" r else false).
  destruct (Ascii.eqb_spec c a), (ascii_dec c a); try done. by destruct r.
Qed.

(** ** Groups of hexadecimal digits *)

(** Digits read by [hex_group]: their number and their value. *)
Fixpoint hex_run (s : string) (off acc : Z) : option (Z * Z) :=
  match s with
  | EmptyString => Some (off, acc)
  | String a r => match hex_digit a with
                  | Some d => if 3 <? off then None else hex_run r (off + 1) (acc * 16 + d)
                  | None => None
                  end
  end.

Lemma hex_group_run s rest off acc off' acc' :
  hex_run s off acc = Some (off', acc') -> hex_group (s ++ rest) off acc = hex_group rest off' acc'.
Proof.
  revert off acc. induction s as [|a s IH]; intros off acc; rewrite ?append_cons, ?append_empty; cbn; [by intros [= -> ->]|].
  destruct (hex_digit a); [|done]. destruct (3 <? off); [done|]. apply IH.
Qed.

Lemma hex_digit_char d : 0 <= d < 16 -> hex_digit (hex_char d) = Some d.
Proof.
  intros Hd. assert (In (Z.to_nat d) (seq 0 16)) as Hin by (apply in_seq; lia).
  pose proof (proj1 (forallb_forall (fun n => bool_decide (hex_digit (hex_char (Z.of_nat n)) = Some (Z.of_nat n))) (seq 0 16))
    ltac:(by vm_compute) _ Hin) as Hc. apply bool_decide_eq_true in Hc. by rewrite Z2Nat.id in Hc by lia.
Qed.

Lemma hex_run_char d r off acc : 0 <= d < 16 -> off <= 3 ->
  hex_run (String (hex_char d) r) off acc = hex_run r (off + 1) (acc * 16 + d).
Proof. intros Hd Ho. cbn [hex_run]. rewrite hex_digit_char by done. by rewrite (proj2 (Z.ltb_ge 3 off)). Qed.

Lemma hex_text_spec x : 0 <= x < 65536 -> exists off, 0 < off /\ hex_run (append_hex x) 0 0 = Some (off, x).
Proof.
  intros Hx. unfold append_hex. change (16 ^ 3) with 4096. change (16 ^ 2) with 256. change (16 ^ 1) with 16. change (16 ^ 0) with 1.
  assert (forall k, 0 <= x / k mod 16 < 16) as Hm by (intros k; apply Z.mod_pos_bound; lia).
  destruct (Z.leb_spec 4096 x); [|destruct (Z.leb_spec 256 x); [|destruct (Z.leb_spec 16 x)]];
    repeat rewrite (proj2 (Z.leb_le _ _)) by lia; rewrite ?append_cons, ?append_empty;
    rewrite !hex_run_char by (apply Hm || lia); cbn [hex_run]; eexists; (split; [|f_equal; f_equal]); try reflexivity; try lia.
  all: Z.div_mod_to_equations; lia.
Qed.

Definition not_hex (rest : string) : Prop := match rest with String a _ => hex_digit a = None | EmptyString => True end.

Lemma hex_group_text x rest : 0 <= x < 65536 -> not_hex rest ->
  exists off, 0 < off /\ hex_group (append_hex x ++ rest) 0 0 = Some (x, off, rest).
Proof.
  intros Hx Hr. destruct (hex_text_spec x Hx) as (off & Ho & E). exists off. split; [done|].
  rewrite (hex_group_run _ rest _ _ _ _ E). destruct rest as [|a r]; [done|]. cbn in Hr |- *. by rewrite Hr.
Qed.

Definition octets_of (g : list Z) : octets := concat ((fun x => [x / 256; x mod 256]) <$> g).

Lemma octets_of_cons x g : octets_of (x :: g) = [x / 256; x mod 256] ++ octets_of g.
Proof. done. Qed.

Lemma length_octets_of g : List.length (octets_of g) = (2 * List.length g)%nat.
Proof. induction g as [|x g IH]; [done|]. rewrite octets_of_cons, length_app, IH. cbn. lia. Qed.

Lemma octets_of_app g k : octets_of (g ++ k) = octets_of g ++ octets_of k.
Proof. unfold octets_of. by rewrite fmap_app, concat_app. Qed.

Lemma octets_of_groups ip n : Forall octet ip -> List.length ip = (2 * n)%nat ->
  octets_of (groups_of ip) = ip /\ Forall (fun x => 0 <= x < 65536) (groups_of ip) /\ List.length (groups_of ip) = n.
Proof.
  revert ip. induction n as [|n IH]; intros ip Hip Hl.
  { destruct ip; [by split_and!|done]. }
  destruct ip as [|a [|b r]]; [done|cbn in Hl; lia|]. rewrite !Forall_cons in Hip. destruct Hip as (Ha & Hb & Hr).
  destruct (IH r Hr) as (E & F & L); [cbn in Hl; lia|]. unfold octet in Ha, Hb. cbn [groups_of]. split_and!.
  - rewrite octets_of_cons, E. cbn [app]. f_equal; [|f_equal].
    + rewrite Z.div_add_l, (Z.div_small b) by lia. lia.
    + rewrite (Z.add_comm _ b), Z.mod_add, Z.mod_small by lia. done.
  - constructor; [lia|done].
  - cbn. lia.
Qed.

Definition hex_list (g : list Z) : string := join1 ":" (append_hex <$> g).

Lemma hex_list_cons x y g : hex_list (x :: y :: g) = (append_hex x ++ String ":" (hex_list (y :: g)))%string.
Proof. done. Qed.

Lemma hex_list_nonempty x g : 0 <= x < 65536 -> hex_list (x :: g) <> ""%string /\ has_prefix (hex_list (x :: g)) ":" = false.
Proof.
  intros Hx. destruct (hex_text_spec x Hx) as (off & Ho & E).
  assert (exists a r, append_hex x = String a r /\ hex_digit a <> None) as (a & r & Ex & Ha).
  { destruct (append_hex x) as [|a r]; [cbn in E; injection E; lia|]. exists a, r. split; [done|]. cbn in E. by destruct (hex_digit a). }
  assert (exists r, hex_list (x :: g) = String a r) as [r' ->].
  { destruct g as [|y g]; [exists r; unfold hex_list; cbn [fmap list_fmap join1]; by rewrite Ex|]. rewrite hex_list_cons, Ex. by eexists. }
  split; [done|]. rewrite has_prefix_cons. destruct (Ascii.eqb_spec ":" a) as [<-|Hne]; [by destruct Ha|done].
Qed.

(** One group before ":" and more. *)
Lemma ipv6_groups_step fuel x rest ip e :
  0 <= x < 65536 -> zlen ip < 16 -> rest <> ""%string -> has_prefix rest ":" = false ->
  ipv6_groups (S fuel) (append_hex x ++ String ":" rest) ip e = ipv6_groups fuel rest (ip ++ [x / 256; x mod 256]) e.
Proof.
  intros Hx Hip Hne Hp. destruct (hex_group_text x (String ":" rest) Hx) as (off & Ho & E); [done|].
  cbn [ipv6_groups]. rewrite (proj2 (Z.ltb_lt _ _)) by done. cbn [negb]. rewrite E.
  rewrite (proj2 (Z.eqb_neq off 0)) by lia.
  change (has_prefix (String ":" rest) ".") with false. cbv iota. rewrite (proj2 (String.eqb_neq _ _)) by done.
  change (negb (Ascii.eqb ":" ":")) with false. cbn [orb].
  destruct rest as [|a r]; [done|]. rewrite has_prefix_cons in Hp. apply Ascii.eqb_neq in Hp as Ha.
  clear -Ha. destruct a as [[] [] [] [] [] [] [] []]; try done.
Qed.

Lemma ipv6_groups_last fuel x ip e : 0 <= x < 65536 -> zlen ip < 16 ->
  ipv6_groups (S fuel) (append_hex x) ip e = Some (ip ++ [x / 256; x mod 256], e, ""%string).
Proof.
  intros Hx Hip. destruct (hex_group_text x "" Hx) as (off & Ho & E); [done|].
  rewrite string_app_nil in E. cbn [ipv6_groups]. rewrite (proj2 (Z.ltb_lt _ _)) by done. cbn [negb]. rewrite E.
  by rewrite (proj2 (Z.eqb_neq off 0)) by lia.
Qed.

Lemma ipv6_groups_list g fuel ip e : g <> [] -> Forall (fun x => 0 <= x < 65536) g ->
  (List.length g <= fuel)%nat -> zlen ip + 2 * zlen g <= 16 ->
  ipv6_groups fuel (hex_list g) ip e = Some (ip ++ octets_of g, e, ""%string).
Proof.
  intros Hne Hg. revert fuel ip Hne. induction Hg as [|x g Hx Hg IH]; intros fuel ip Hne Hf Hl; [done|].
  rewrite zlen_cons in Hl. pose proof (zlen_nonneg g). destruct fuel as [|fuel]; [cbn in Hf; lia|].
  destruct g as [|y g].
  - unfold hex_list. cbn [fmap list_fmap join1]. apply ipv6_groups_last; [done|lia].
  - rewrite hex_list_cons. destruct (hex_list_nonempty y g) as [H1 H2]; [by apply Forall_cons in Hg as [? _]|].
    rewrite ipv6_groups_step by (done || lia). rewrite IH; [|done|cbn in Hf |- *; lia|unfold zlen in *; rewrite length_app; cbn [List.length] in *; lia].
    by rewrite (octets_of_cons x), app_assoc.
Qed.

(** The groups before "::" and those after it. *)
Lemma ipv6_groups_gap g k fuel ip : g <> [] -> Forall (fun x => 0 <= x < 65536) g -> Forall (fun x => 0 <= x < 65536) k ->
  (List.length g + List.length k <= fuel)%nat -> zlen ip + 2 * zlen g + 2 * zlen k <= 16 ->
  ipv6_groups fuel (hex_list g ++ String ":" (String ":" (hex_list k))) ip None
  = Some (ip ++ octets_of g ++ octets_of k, Some (List.length ip + 2 * List.length g)%nat, ""%string).
Proof.
  intros Hne Hg Hk. revert fuel ip Hne. induction Hg as [|x g Hx Hg IH]; intros fuel ip Hne Hf Hl; [done|].
  rewrite zlen_cons in Hl. pose proof (zlen_nonneg g). pose proof (zlen_nonneg k). destruct fuel as [|fuel]; [cbn in Hf; lia|].
  destruct g as [|y g].
  - unfold hex_list at 1. cbn [fmap list_fmap join1].
    destruct (hex_group_text x (String ":" (String ":" (hex_list k))) Hx) as (off & Ho & E); [done|].
    cbn [ipv6_groups]. rewrite (proj2 (Z.ltb_lt _ _)) by lia. cbn [negb]. rewrite E.
    rewrite (proj2 (Z.eqb_neq off 0)) by lia.
    change (has_prefix (String ":" (String ":" (hex_list k))) ".") with false. cbv iota.
    change (negb (Ascii.eqb ":" ":") || String.eqb (String ":" (hex_list k)) "") with false. cbv iota.
    rewrite length_app. cbn [List.length]. destruct k as [|z k].
    + unfold hex_list. cbn [fmap list_fmap join1]. change (String.eqb "" "") with true. cbv iota.
      change (octets_of []) with (@nil Z). by rewrite app_nil_r.
    + destruct (hex_list_nonempty z k) as [H1 H2]; [by apply Forall_cons in Hk as [? _]|].
      rewrite (proj2 (String.eqb_neq _ _)) by done. rewrite ipv6_groups_list; [|done|done|cbn in Hf |- *; lia|unfold zlen in *; rewrite length_app; cbn [List.length] in *; lia].
      by rewrite <- !app_assoc.
  - rewrite hex_list_cons, <- string_app_assoc, append_cons. destruct (hex_list_nonempty y g) as [H1 H2]; [by apply Forall_cons in Hg as [? _]|].
    rewrite ipv6_groups_step; [|done|lia| |].
    + rewrite IH; [|done|cbn in Hf |- *; lia|unfold zlen in *; rewrite length_app; cbn [List.length] in *; lia].
      rewrite (octets_of_cons x), <- !app_assoc. do 2 f_equal. apply (f_equal2 pair); [done|].
      f_equal. rewrite length_app. cbn [List.length]. lia.
    + by destruct (hex_list (y :: g)).
    + destruct (hex_list (y :: g)) as [|a r]; [done|]. by rewrite append_cons, has_prefix_cons in *.
Qed.

(** The run of zero groups that is left out. *)
Definition zero_run (g : list Z) (i : nat) (r : nat * nat) : Prop :=
  r.2 = 0%nat \/ ((2 <= r.2)%nat /\ exists a b, g = a ++ replicate r.2 0 ++ b /\ (i + List.length a = r.1)%nat).

Lemma zeros_split g : exists b, g = replicate (zeros g) 0 ++ b.
Proof.
  induction g as [|x g [b IH]]; [by exists []|]. cbn. destruct x as [|p|p]; [|by eexists|by eexists].
  exists b. cbn. by rewrite <- IH.
Qed.

Lemma longest_zeros_run g i best : forall whole pre, whole = pre ++ g -> List.length pre = i -> zero_run whole 0 best ->
  zero_run whole 0 (longest_zeros g i best).
Proof.
  revert i best. induction g as [|x g IH]; intros i best whole pre Hw Hi Hb; [done|]. cbn [longest_zeros].
  apply (IH (S i) _ whole (pre ++ [x])); [by rewrite <- app_assoc|rewrite length_app; cbn; lia|].
  destruct (_ && _) eqn:E; [|done]. apply andb_true_iff in E as [E%Nat.leb_le _].
  right. cbn [fst snd]. split; [done|]. destruct (zeros_split (x :: g)) as [b Hz]. exists pre, b. by rewrite <- Hz.
Qed.

(** ** Sixteen octets *)

Definition group_ok (x : Z) : Prop := 0 <= x < 65536.

Lemma hex_list_length g : Forall group_ok g -> (List.length g <= S (String.length (hex_list g)))%nat.
Proof.
  induction 1 as [|x g Hx Hg IH]; [cbn; lia|]. destruct g as [|y g]; [cbn; lia|].
  rewrite hex_list_cons, string_length_app. cbn [String.length List.length] in *. lia.
Qed.

Lemma no_leading_gap {A} s (f : string -> A) k : has_prefix s ":" = false ->
  match s with String ":" (String ":" r) => f r | _ => k end = k.
Proof.
  intros Hp. destruct s as [|c r]; [done|]. rewrite has_prefix_cons in Hp. apply Ascii.eqb_neq in Hp.
  clear -Hp. destruct c as [[] [] [] [] [] [] [] []]; try done.
Qed.

Lemma parseIPv6_gap a b : Forall group_ok a -> Forall group_ok b -> (List.length a + List.length b < 8)%nat ->
  parseIPv6 (hex_list a ++ String ":" (String ":" (hex_list b)))
  = Some (octets_of a ++ replicate (16 - 2 * (List.length a + List.length b)) 0 ++ octets_of b).
Proof.
  intros Ha Hb Hl. unfold parseIPv6.
  assert (take (List.length (octets_of a)) (octets_of a ++ octets_of b) = octets_of a) as Et by apply take_app_length.
  assert (drop (List.length (octets_of a)) (octets_of a ++ octets_of b) = octets_of b) as Ed by apply drop_app_length.
  rewrite length_octets_of in Et, Ed.
  assert (zlen (octets_of a ++ octets_of b) <? 16 = true) as Hlt
    by (apply Z.ltb_lt; unfold zlen; rewrite length_app, !length_octets_of; lia).
  assert (16 - List.length (octets_of a ++ octets_of b) = 16 - 2 * (List.length a + List.length b))%nat as En
    by (rewrite length_app, !length_octets_of; lia).
  destruct a as [|x a].
  - change (hex_list []) with ""%string. rewrite append_empty. cbv iota.
    destruct b as [|y b].
    + change (hex_list []) with ""%string. cbn [negb]. reflexivity.
    + destruct (hex_list_nonempty y b) as [Hne _]; [by apply Forall_cons in Hb as [? _]|].
      rewrite (proj2 (String.eqb_neq _ _)), andb_false_r by done. cbv iota.
      rewrite ipv6_groups_list; [|done|done| |unfold zlen in *; cbn in *; lia].
      * cbn [app] in *. change (octets_of []) with (@nil Z) in *. cbn [app List.length] in *.
        rewrite Hlt. by rewrite En.
      * cbn [List.length]. pose proof (hex_list_length (y :: b) Hb). cbn [List.length] in *. lia.
  - destruct (hex_list_nonempty x a) as [Hne Hp]; [by apply Forall_cons in Ha as [? _]|].
    rewrite no_leading_gap by (destruct (hex_list (x :: a)); [done|by rewrite append_cons, has_prefix_cons in *]). cbv iota.
    rewrite bool_decide_false by (intros Hf; by apply Hf). cbn [andb].
    pose proof (hex_list_length (x :: a) Ha) as La. pose proof (hex_list_length b Hb) as Lb.
    rewrite ipv6_groups_gap; [|done|done|done| |unfold zlen in *; cbn [List.length] in *; lia].
    + cbn [app]. rewrite Hlt. cbv iota. rewrite En. cbn [List.length] in Et, Ed |- *.
      by rewrite (Nat.add_0_l (2 * _)), Et, Ed.
    + rewrite string_length_app. cbn [String.length]. lia.
Qed.

Lemma parseIPv6_full g : Forall group_ok g -> List.length g = 8%nat -> parseIPv6 (hex_list g) = Some (octets_of g).
Proof.
  intros Hg Hl. destruct g as [|x g]; [done|]. destruct (hex_list_nonempty x g) as [Hne Hp]; [by apply Forall_cons in Hg as [? _]|].
  pose proof (hex_list_length _ Hg) as Ll. unfold parseIPv6.
  rewrite no_leading_gap by done. rewrite bool_decide_false by (intros Hf; by apply Hf). cbn [andb].
  rewrite ipv6_groups_list; [|done|done|lia|unfold zlen; cbn [List.length] in *; lia]. cbn [app].
  assert (zlen (octets_of (x :: g)) = 16) as -> by (unfold zlen; rewrite length_octets_of, Hl; done). done.
Qed.

Lemma parseIPv6_string ip : Forall octet ip -> List.length ip = 16%nat -> parseIPv6 (ipv6_string ip) = Some ip.
Proof.
  intros Hip Hl. destruct (octets_of_groups ip 8 Hip Hl) as (E & Hg & Ll). unfold ipv6_string.
  destruct (longest_zeros (groups_of ip) 0 (0, 0)%nat) as [start len] eqn:El.
  pose proof (longest_zeros_run (groups_of ip) 0 (0, 0)%nat (groups_of ip) [] eq_refl eq_refl (or_introl eq_refl)) as Hz.
  rewrite El in Hz. unfold zero_run in Hz. cbn [fst snd] in Hz. fold (hex_list (groups_of ip)).
  destruct Hz as [->|(Hlen & a & b & Ha & Hs)]; [by rewrite Nat.eqb_refl, parseIPv6_full, E|].
  rewrite (proj2 (Nat.eqb_neq len 0)) by lia. cbn in Hs. subst start.
  assert (take (List.length a) (groups_of ip) = a) as -> by (rewrite Ha; apply take_app_length).
  assert (drop (List.length a + len) (groups_of ip) = b) as ->.
  { rewrite Ha, app_assoc. rewrite drop_app_length'; [done|]. by rewrite length_app, length_replicate. }
  fold (hex_list a) (hex_list b). change ("::" ++ hex_list b)%string with (String ":" (String ":" (hex_list b))).
  assert (List.length a + (len + List.length b) = 8)%nat as Lab by (rewrite <- Ll, Ha, !length_app, length_replicate; lia).
  rewrite Ha in Hg. apply Forall_app in Hg as [Hga Hg]. apply Forall_app in Hg as [_ Hgb].
  rewrite parseIPv6_gap by (done || lia). f_equal. rewrite <- E at 1. rewrite Ha, !octets_of_app. do 2 f_equal.
  replace (16 - 2 * (List.length a + List.length b))%nat with (2 * len)%nat by lia.
  clear. induction len as [|n IH]; [done|]. replace (2 * S n)%nat with (S (S (2 * n))) by lia.
  cbn [replicate]. rewrite octets_of_cons, <- IH. done.
Qed.

(** ** Addresses and their "host:port" *)

Lemma hex_run_chars s c off acc r : hex_run s off acc = Some r -> hex_digit c = None -> contains1 s c = false.
Proof.
  revert off acc. induction s as [|a s IH]; intros off acc; [done|]. cbn. destruct (hex_digit a) eqn:Ea; [|done].
  destruct (3 <? off); [done|]. intros Hr Hc. rewrite (IH _ _ Hr Hc), orb_false_r. apply Ascii.eqb_neq. congruence.
Qed.

Lemma addr_family_hex s rest off acc r : hex_run s off acc = Some r -> addr_family (s ++ rest) = addr_family rest.
Proof.
  revert off acc. induction s as [|a s IH]; intros off acc; rewrite ?append_cons, ?append_empty; [done|]. cbn [hex_run].
  destruct (hex_digit a) eqn:Ea; [|done]. destruct (3 <? off); [done|]. intros Hr. cbn [addr_family].
  rewrite (IH _ _ Hr). cbn [existsb]. destruct (Ascii.eqb_spec a "."%char) as [->|_]; [done|].
  destruct (Ascii.eqb_spec a ":"%char) as [->|_]; [done|]. by destruct (Ascii.eqb_spec a "%"%char) as [->|_].
Qed.

Lemma hex_list_chars g c : Forall group_ok g -> hex_digit c = None -> c <> ":"%char -> contains1 (hex_list g) c = false.
Proof.
  intros Hg Hc Hn. induction Hg as [|x g Hx Hg IH]; [done|]. destruct (hex_text_spec x Hx) as (off & _ & E).
  destruct g as [|y g]; [unfold hex_list; cbn [fmap list_fmap join1]; by eapply hex_run_chars|].
  rewrite hex_list_cons, contains1_app, (hex_run_chars _ _ _ _ _ E Hc). cbn [contains1 orb]. rewrite IH.
  by destruct (Ascii.eqb_spec ":" c) as [<-|].
Qed.

Lemma ipv6_string_shape ip : Forall octet ip -> List.length ip = 16%nat ->
  exists g r, Forall group_ok g /\ (List.length g <= 1)%nat /\ ipv6_string ip = (hex_list g ++ String ":" r)%string /\
    forall c, hex_digit c = None -> c <> ":"%char -> contains1 (ipv6_string ip) c = false.
Proof.
  intros Hip Hl. destruct (octets_of_groups ip 8 Hip Hl) as (E & Hg & Ll). unfold ipv6_string.
  destruct (longest_zeros (groups_of ip) 0 (0, 0)%nat) as [start len]. fold (hex_list (groups_of ip)).
  destruct (Nat.eqb_spec len 0) as [_|_].
  - destruct (groups_of ip) as [|x [|y g]]; [done|done|]. exists [x], (hex_list (y :: g)).
    split_and!; [by apply Forall_cons in Hg as [? _]; constructor|cbn; lia|by rewrite hex_list_cons|].
    intros c Hc Hn. by apply hex_list_chars.
  - assert (Forall group_ok (take start (groups_of ip)) /\ Forall group_ok (drop (start + len) (groups_of ip))) as [Ht Hd]
      by (split; [by apply Forall_take|by apply Forall_drop]).
    fold (hex_list (take start (groups_of ip))) (hex_list (drop (start + len) (groups_of ip))).
    assert (forall c, hex_digit c = None -> c <> ":"%char ->
      contains1 (hex_list (take start (groups_of ip)) ++ "::" ++ hex_list (drop (start + len) (groups_of ip))) c = false) as Hc.
    { intros c Hc Hn. rewrite !contains1_app, !hex_list_chars by done. cbn. by destruct (Ascii.eqb_spec ":" c) as [<-|]. }
    destruct (take start (groups_of ip)) as [|x [|y g]].
    + exists [], (":" ++ hex_list (drop (start + len) (groups_of ip)))%string. by split_and!; [|cbn; lia| |].
    + exists [x], (":" ++ hex_list (drop (start + len) (groups_of ip)))%string. by split_and!; [|cbn; lia| |].
    + exists [x], (hex_list (y :: g) ++ "::" ++ hex_list (drop (start + len) (groups_of ip)))%string.
      split_and!; [apply Forall_cons in Ht as [? _]; by constructor|cbn; lia| |done].
      rewrite hex_list_cons. unfold hex_list at 3. cbn [fmap list_fmap join1]. rewrite <- !string_app_assoc. done.
Qed.

(** The sixteen octets of an address. *)
Definition To16 (ip : octets) : octets := match To4 ip with Some ip4 => v4InV6Prefix ++ ip4 | None => ip end.

Lemma To4_length ip ip4 : To4 ip = Some ip4 -> List.length ip4 = 4%nat.
Proof.
  unfold To4, zlen. destruct (Z.eqb_spec (Z.of_nat (List.length ip)) 4) as [|_]; [intros [= <-]; lia|].
  destruct (Z.eqb_spec (Z.of_nat (List.length ip)) 16) as [|_]; [|done]. destruct (bool_decide _); [|done]. cbn.
  intros [= <-]. rewrite length_drop. lia.
Qed.

Lemma To4_octets ip ip4 : Forall octet ip -> To4 ip = Some ip4 -> Forall octet ip4.
Proof.
  intros Hip. unfold To4. destruct (_ =? 4); [by intros [= <-]|]. destruct (_ && _); [|done]. intros [= <-]. by apply Forall_drop.
Qed.

Definition ip_ok (ip : octets) : Prop := Forall octet ip /\ (List.length ip = 4%nat \/ List.length ip = 16%nat).

Lemma ip_no4 ip : ip_ok ip -> To4 ip = None -> List.length ip = 16%nat.
Proof. intros [_ [Hl|Hl]] Hn; [by rewrite To4_v4 in Hn|done]. Qed.

(** [net.ParseIP(ip.String())] *)
Lemma ParseIP_ip_String ip : ip_ok ip -> ParseIP (ip_String ip) = Some (To16 ip).
Proof.
  intros Hok. unfold ip_String, To16, ParseIP. destruct (To4 ip) as [ip4|] eqn:E4.
  - rewrite parse_addr_string; [done|by eapply To4_octets; [apply Hok|]|by eapply To4_length].
  - pose proof (ip_no4 ip Hok E4) as Hl. destruct Hok as [Hip _]. unfold parse_addr.
    assert (addr_family (ipv6_string ip) = Some ":"%char) as ->.
    { destruct (ipv6_string_shape ip Hip Hl) as (g & r & Hg & Hlg & -> & _). destruct g as [|x [|]]; [done| |cbn in Hlg; lia].
      apply Forall_cons in Hg as [Hx _]. destruct (hex_text_spec x Hx) as (off & _ & E).
      unfold hex_list. cbn [fmap list_fmap join1]. by rewrite (addr_family_hex _ _ _ _ _ E). }
    by rewrite parseIPv6_string.
Qed.

Definition plain_port (port : string) : Prop := Forall (fun c => contains1 port c = false) [":"; "["; "]"]%char.

(** [net.SplitHostPort(net.JoinHostPort(ip.String(), port))] *)
Lemma split_join_ip ip port : ip_ok ip -> plain_port port ->
  split_host (JoinHostPort (ip_String ip) port) = Some (ip_String ip) /\
  split_port (JoinHostPort (ip_String ip) port) = Some port.
Proof.
  intros Hok Hp. pose proof Hp as Hp'. unfold plain_port in Hp'. rewrite !Forall_cons in Hp'. destruct Hp' as (Pc & Po & Pcl & _).
  unfold ip_String. destruct (To4 ip) as [ip4|] eqn:E4.
  - assert (Forall octet ip4 /\ List.length ip4 = 4%nat) as [H4 L4] by (split; [by eapply To4_octets; [apply Hok|]|by eapply To4_length]).
    destruct (ipv4_string_text ip4 H4) as [_ Ht]; [by destruct ip4|]. rewrite !Forall_cons in Ht. destruct Ht as (_ & _ & Hc & _).
    unfold JoinHostPort. rewrite Hc. change (ipv4_string ip4 ++ ":" ++ port)%string with (ipv4_string ip4 ++ String ":" port)%string.
    pose proof (split_host_v4 ip4 port H4 L4 Hp) as Hs. split; [done|].
    unfold split_port. unfold split_host in Hs. destruct (split_host_port_ok _); [|done]. cbn [negb] in *.
    rewrite last_index_byte_app by done. cbn [Nat.add]. by rewrite str_from_app.
  - pose proof (ip_no4 ip Hok E4) as Hl. destruct Hok as [Hip _].
    destruct (ipv6_string_shape ip Hip Hl) as (g & r & Hg & Hlg & Es & Hch).
    assert (contains1 (ipv6_string ip) "[" = false /\ contains1 (ipv6_string ip) "]" = false) as [Ho Hcl] by (split; by apply Hch).
    unfold JoinHostPort. assert (contains1 (ipv6_string ip) ":" = true) as -> by (rewrite Es, contains1_app; cbn; by rewrite orb_true_r).
    set (h := ipv6_string ip) in *. change ("[" ++ h ++ "]:" ++ port)%string with (String "[" (h ++ String "]" (String ":" port))).
    assert (last_index_byte (String "[" (h ++ String "]" (String ":" port))) ":" 0 = Some (S (S (String.length h)))) as El.
    { rewrite <- (append_cons "["). change (String "]" (String ":" port)) with ("]" ++ String ":" port)%string.
      rewrite string_app_assoc, last_index_byte_app by done. rewrite string_length_app. cbn. f_equal. lia. }
    assert (index_byte (String "[" (h ++ String "]" (String ":" port))) "]" 0 = Some (S (String.length h))) as Ei.
    { rewrite <- (append_cons "["), index_byte_app; [cbn; f_equal; lia|]. cbn. by rewrite Hcl. }
    assert (str_from (String "[" (h ++ String "]" (String ":" port))) 1 = (h ++ String "]" (String ":" port))%string) as E1
      by (change (String "[" (h ++ String "]" (String ":" port))) with ("" ++ String "[" (h ++ String "]" (String ":" port)))%string; by rewrite (str_from_app "")).
    assert (str_from (String "[" (h ++ String "]" (String ":" port))) (S (S (String.length h))) = String ":" port) as E2.
    { rewrite <- (append_cons "["). by rewrite (str_from_app (String "[" h)). }
    assert (str_from (String "[" (h ++ String "]" (String ":" port))) (S (S (S (String.length h)))) = port) as E3.
    { rewrite <- (append_cons "["). change (String "]" (String ":" port)) with ("]" ++ String ":" port)%string.
      rewrite string_app_assoc. pose proof (str_from_app (String "[" h ++ "]") ":" port) as Hf.
      rewrite string_length_app in Hf. cbn [String.length] in Hf. by rewrite Nat.add_1_r in Hf. }
    assert (split_host_port_ok (String "[" (h ++ String "]" (String ":" port))) = true) as Ek.
    { unfold split_host_port_ok. rewrite El, Ei, Nat.eqb_refl, E1, E2, contains1_app. cbn [contains1]. rewrite Ho, Po, Pcl. done. }
    unfold split_host, split_port. rewrite Ek, El, Ei. cbn [negb]. split; [|by rewrite E3].
    f_equal. cbn [Nat.sub String.substring]. rewrite Nat.sub_0_r. apply substring_prefix.
Qed.

(** ** What is read is an address *)

Lemma ipv4_fields_ok s cur fields ip :
  ipv4_fields s cur fields = Some ip -> Forall octet fields -> zlen fields <= 3 ->
  (forall v n, cur = Some (v, n) -> octet v) -> Forall octet ip /\ List.length ip = 4%nat.
Proof.
  revert cur fields. induction s as [|a s IH]; intros cur fields Hr Hf Hl Hc; cbn [ipv4_fields] in Hr.
  - destruct cur as [[v n]|]; [|done]. destruct (Z.ltb_spec (zlen fields) 3); [done|]. injection Hr as <-.
    split; [apply Forall_app; split; [done|]; constructor; [by eapply Hc|done]|]. unfold zlen in *. rewrite length_app. cbn. lia.
  - destruct (digit a) as [d|] eqn:Ed.
    + assert (0 <= d < 10) as Hd by (unfold digit in Ed; destruct (_ && _) eqn:Eb; [|done]; injection Ed as <-; lia).
      destruct cur as [[v n]|].
      * destruct (_ && _); [done|]. destruct (Z.ltb_spec 255 (v * 10 + d)); [done|]. eapply IH; [exact Hr|done|done|].
        intros v' n' [= <- _]. specialize (Hc v n eq_refl). unfold octet in *. lia.
      * eapply IH; [exact Hr|done|done|]. intros v' n' [= <- _]. unfold octet. lia.
    + destruct (Ascii.eqb a "."); [|done]. destruct cur as [[v n]|]; [|done]. destruct (String.eqb s ""); [done|].
      destruct (Z.eqb_spec (zlen fields) 3); [done|]. eapply IH; [exact Hr| | |done].
      * apply Forall_app. split; [done|]. constructor; [by eapply Hc|done].
      * rewrite zlen_app. change (zlen [v]) with 1. lia.
Qed.

Lemma parseIPv4_ok s ip : parseIPv4 s = Some ip -> Forall octet ip /\ List.length ip = 4%nat.
Proof. intros Hp. eapply ipv4_fields_ok; [exact Hp|by apply Forall_nil|done|done]. Qed.

Lemma hex_digit_range a d : hex_digit a = Some d -> 0 <= d < 16.
Proof.
  unfold hex_digit. cbv zeta. destruct ((48 <=? code a) && (code a <=? 57)) eqn:E1; [intros [= <-]; lia|].
  destruct ((97 <=? code a) && (code a <=? 102)) eqn:E2; [intros [= <-]; lia|].
  destruct ((65 <=? code a) && (code a <=? 70)) eqn:E3; [intros [= <-]; lia|done].
Qed.

Lemma hex_group_ok s off acc x off' rest : hex_group s off acc = Some (x, off', rest) -> 0 <= off <= 4 -> 0 <= acc < 16 ^ off -> group_ok x.
Proof.
  revert off acc. induction s as [|a s IH]; intros off acc Hr Ho Ha; cbn [hex_group] in Hr.
  - injection Hr as <- _ _. pose proof (Z.pow_le_mono_r 16 off 4). unfold group_ok. change (16 ^ 4) with 65536 in *. lia.
  - destruct (hex_digit a) as [d|] eqn:Ed.
    + destruct (Z.ltb_spec 3 off); [done|]. apply (IH _ _ Hr); [lia|]. rewrite Z.pow_add_r by lia. change (16 ^ 1) with 16.
      pose proof (hex_digit_range a d Ed). nia.
    + injection Hr as <- _ _. pose proof (Z.pow_le_mono_r 16 off 4). unfold group_ok. change (16 ^ 4) with 65536 in *. lia.
Qed.

(** The octets read so far: an even number, at most sixteen. *)
Definition part_ok (ip : octets) (e : option nat) : Prop :=
  Forall octet ip /\ zlen ip <= 16 /\ zlen ip mod 2 = 0 /\ forall n, e = Some n -> (n <= List.length ip)%nat.

Lemma part_ok_group ip e x : part_ok ip e -> group_ok x -> zlen ip < 16 -> part_ok (ip ++ [x / 256; x mod 256]) e.
Proof.
  intros (Ho & Hl & Hm & He) Hx Hlt. unfold group_ok in Hx. split_and!.
  - apply Forall_app. split; [done|]. repeat constructor; [apply Z.div_pos|apply Z.div_lt_upper_bound|apply Z.mod_pos_bound..]; lia.
  - rewrite zlen_app. change (zlen [x / 256; x mod 256]) with 2. Z.div_mod_to_equations. lia.
  - rewrite zlen_app. change (zlen [x / 256; x mod 256]) with (1 * 2). by rewrite Z.mod_add.
  - intros n Hn. specialize (He n Hn). rewrite length_app. lia.
Qed.

Lemma ipv6_groups_ok fuel s ip e ip' e' rest :
  ipv6_groups fuel s ip e = Some (ip', e', rest) -> part_ok ip e -> part_ok ip' e'.
Proof.
  revert s ip e. induction fuel as [|fuel IH]; intros s ip e Hr Hok; [done|]. cbn [ipv6_groups] in Hr.
  destruct (Z.ltb_spec (zlen ip) 16) as [Hlt|]; cbn [negb] in Hr; [|by injection Hr as <- <- _].
  destruct (hex_group s 0 0) as [[[x off] r]|] eqn:Eg; [|done].
  pose proof (hex_group_ok _ _ _ _ _ _ Eg ltac:(lia) ltac:(cbn; lia)) as Hx.
  destruct (off =? 0); [done|]. destruct (has_prefix r ".").
  - destruct (_ && _); [done|]. destruct (Z.ltb_spec 16 (zlen ip + 4)); [done|].
    destruct (parseIPv4 s) as [f|] eqn:Ef; [|done]. injection Hr as <- <- _. destruct (parseIPv4_ok s f Ef) as [Hf Lf].
    destruct Hok as (Ho & Hl & Hm & He). assert (zlen f = 2 * 2) as Zf by (unfold zlen; rewrite Lf; done).
    split_and!; [by apply Forall_app|rewrite zlen_app; lia|rewrite zlen_app, Zf; by rewrite Z.mod_add|].
    intros n Hn. specialize (He n Hn). rewrite length_app. lia.
  - pose proof (part_ok_group ip e x Hok Hx Hlt) as Hok'. destruct r as [|c r]; [by injection Hr as <- <- _|].
    set (q := ip ++ [x / 256; x mod 256]) in *. assert (part_ok q (Some (List.length q))) as Hend
      by (destruct Hok' as (? & ? & ? & _); split_and!; try done; by intros n [= <-]).
    destruct (_ || _); [done|]. assert (ipv6_groups fuel r q e = Some (ip', e', rest) -> part_ok ip' e') as Hgo by (intros Hq; by eapply IH).
    destruct r as [|b r]; [by apply Hgo|]. destruct (Ascii.eqb_spec b ":"%char) as [->|Hb].
    + destruct e; [done|]. destruct (String.eqb r ""); [by injection Hr as <- <- _|]. by eapply IH.
    + apply Hgo. rewrite <- Hr. clear -Hb. by destruct b as [[] [] [] [] [] [] [] []].
Qed.

Lemma gap_start s body n : match s with String ":" (String ":" r) => (r, Some 0%nat) | _ => (s, None) end = (body, Some n) -> n = 0%nat.
Proof.
  destruct (has_prefix s ":") eqn:Hp; [|by rewrite no_leading_gap]. destruct s as [|a s]; [done|]. rewrite has_prefix_cons in Hp.
  apply Ascii.eqb_eq in Hp as <-. destruct s as [|b s]; [done|]. destruct (Ascii.eqb_spec b ":"%char) as [->|Hb]; [congruence|].
  intros E. exfalso. clear -E Hb. by destruct b as [[] [] [] [] [] [] [] []].
Qed.

Lemma parseIPv6_ok s ip : parseIPv6 s = Some ip -> Forall octet ip /\ List.length ip = 16%nat.
Proof.
  unfold parseIPv6.
  destruct (match s with String ":" (String ":" r) => (r, Some 0%nat) | _ => (s, None) end) as [body e] eqn:Eb.
  assert (part_ok [] e) as H0.
  { split_and!; [by apply Forall_nil|done|done|]. intros n ->. clear -Eb.
    assert (n = 0%nat) as -> by (by apply (gap_start s body)). lia. }
  assert (forall g, (g = (if bool_decide (e <> None) && String.eqb body "" then Some ([], e, ""%string)
                      else ipv6_groups (S (String.length body)) body [] e)) ->
    forall p e' r, g = Some (p, e', r) -> part_ok p e') as Hg.
  { intros g -> p e' r. destruct (_ && _); [by intros [= <- <- _]|]. intros Hr. by eapply ipv6_groups_ok. }
  specialize (Hg _ eq_refl). revert Hg. generalize (if bool_decide (e <> None) && String.eqb body "" then Some ([], e, ""%string)
    else ipv6_groups (S (String.length body)) body [] e). intros [[[p e'] r]|] Hg; [|done].
  destruct (Hg _ _ _ eq_refl) as (Ho & Hl & _ & He). destruct r; [|done].
  destruct (Z.ltb_spec (zlen p) 16) as [Hlt|Hge].
  - destruct e' as [n|]; [|done]. intros [= <-]. specialize (He n eq_refl). split.
    + repeat (apply Forall_app; split); [by apply Forall_take|apply Forall_replicate; unfold octet; lia|by apply Forall_drop].
    + rewrite !length_app, length_take, length_replicate, length_drop. unfold zlen in Hlt. lia.
  - destruct e'; [done|]. intros [= <-]. split; [done|]. unfold zlen in *. lia.
Qed.

Lemma ParseIP_ok s ip : ParseIP s = Some ip -> ip_ok ip.
Proof.
  unfold ParseIP, parse_addr. destruct (addr_family s) as [f|]; [|done].
  assert (forall o : option (octets * Z), (fst <$> o = Some ip -> exists b, o = Some (ip, b))) as Hf
    by (intros [[k b]|]; [intros [= ->]; by eexists|done]).
  intros Hp. apply Hf in Hp as [b Hp].
  assert ((exists k, parseIPv4 s = Some k /\ ip = v4InV6Prefix ++ k) \/ parseIPv6 s = Some ip) as [(k & Hk & ->)|Hk].
  { destruct f as [[] [] [] [] [] [] [] []]; try discriminate Hp.
    - left. destruct (parseIPv4 s) as [k|]; [|done]. injection Hp as <- _. by exists k.
    - right. destruct (parseIPv6 s); [|done]. by injection Hp as -> _. }
  - destruct (parseIPv4_ok s k Hk) as [Ho Hl]. split; [|right; by rewrite length_app, Hl].
    apply Forall_app. split; [|done]. repeat constructor; unfold octet; lia.
  - destruct (parseIPv6_ok s ip Hk). by split; [|right].
Qed.

(** ** The port of "host:port" *)

Lemma last_index_byte_split s c p i : last_index_byte s c p = Some i ->
  exists a b, s = (a ++ String c b)%string /\ contains1 b c = false /\ i = (p + String.length a)%nat.
Proof.
  revert p. induction s as [|x s IH]; intros p; [done|]. cbn. destruct (last_index_byte s c (S p)) as [j|] eqn:E.
  - intros [= <-]. destruct (IH _ E) as (a & b & -> & Hb & ->). exists (String x a), b. split_and!; [by rewrite append_cons|done|cbn; lia].
  - destruct (Ascii.eqb_spec x c) as [->|]; [|done]. intros [= <-]. exists "", s. split_and!; [done| |cbn; lia].
    destruct (contains1 s c) eqn:Ec; [|done]. exfalso. clear IH. revert p E. induction s as [|y s IHs]; intros p E; [done|].
    cbn in E, Ec. destruct (last_index_byte s c (S (S p))) eqn:El; [done|]. destruct (Ascii.eqb y c); [done|]. by eapply IHs.
Qed.

Lemma str_from_length a b : str_from (a ++ b) (String.length a) = b.
Proof.
  unfold str_from. rewrite string_length_app. replace (String.length a + String.length b - String.length a)%nat with (String.length b) by lia.
  by rewrite substring_drop, substring_whole.
Qed.

Lemma no_bracket {A} s (f : string -> A) k : has_prefix s "[" = false -> match s with String "[" r => f r | _ => k end = k.
Proof.
  intros Hp. destruct s as [|c r]; [done|]. rewrite has_prefix_cons in Hp. apply Ascii.eqb_neq in Hp.
  clear -Hp. by destruct c as [[] [] [] [] [] [] [] []].
Qed.

Lemma contains1_suffix a x b c : contains1 (a ++ String x b) c = false -> contains1 b c = false.
Proof. rewrite contains1_app. cbn. by intros [_ [_ ?]%orb_false_iff]%orb_false_iff. Qed.

(** What [SplitHostPort] accepts has no bracket after its last colon. *)
Lemma split_ok_port a b : contains1 b ":" = false -> split_host_port_ok (a ++ String ":" b) = true ->
  contains1 b "[" = false /\ contains1 b "]" = false.
Proof.
  intros Hb. unfold split_host_port_ok. rewrite last_index_byte_app by done. cbn [Nat.add].
  destruct (has_prefix (a ++ String ":" b) "[") eqn:Hp.
  - destruct a as [|x a]; [done|]. rewrite append_cons in *. rewrite has_prefix_cons in Hp. apply Ascii.eqb_eq in Hp as <-.
    destruct (index_byte _ "]" 0) as [e|]; [|done]. rewrite !andb_true_iff, !negb_true_iff. intros [[He%Nat.eqb_eq H1] H2].
    rewrite He in H2. rewrite <- (append_cons "[" a), str_from_length in H2. cbn in H2.
    change (String "[" (a ++ String ":" b)) with ("" ++ String "[" (a ++ String ":" b))%string in H1.
    rewrite (str_from_app "") in H1. split; [by eapply contains1_suffix|]. done.
  - rewrite no_bracket by done. rewrite !andb_true_iff, !negb_true_iff. intros [[_ H1] H2]. split; by eapply contains1_suffix.
Qed.

Lemma split_port_plain s port : split_port s = Some port -> plain_port port.
Proof.
  unfold split_port. destruct (split_host_port_ok s) eqn:Ek; [|done]. cbn [negb].
  destruct (last_index_byte s ":" 0) as [i|] eqn:El; [|done].
  destruct (last_index_byte_split _ _ _ _ El) as (a & b & -> & Hb & ->). cbn [Nat.add]. rewrite str_from_app. intros [= <-].
  destruct (split_ok_port a b Hb Ek). unfold plain_port. by repeat constructor.
Qed.
