(* ===== verification/NetURL.v ===== *)
(** * Go's [net/url] and [strconv.Atoi], as far as the program uses them

    [url.Parse] with the accessors of the result, [url.ParseQuery] and
    [url.QueryUnescape].  A host in brackets is an IPv6 literal; one with a zone
    ("%25eth0") is refused.  Errors are [None]. *)

From Stdlib Require Import Strings.Ascii Strings.String.
From stdpp Require Import pretty.
From S2P Require Import Prelude GoBytes GoString Config NetIP.

(** ** Percent-encoding *)

Inductive encoding := encodePath | encodeHost | encodeUserPassword | encodeQueryComponent | encodeFragment.

Definition is_letter (a : ascii) : bool :=
  let z := code a in ((97 <=? z) && (z <=? 122)) || ((65 <=? z) && (z <=? 90)).
Definition is_digit (a : ascii) : bool := let z := code a in (48 <=? z) && (z <=? 57).
Definition one_of (a : ascii) (l : list ascii) : bool := existsb (Ascii.eqb a) l.

(** The ASCII characters allowed in a host. *)
Definition host_char (a : ascii) : bool :=
  is_letter a || is_digit a
  || one_of a ["!"; "$"; "&"; "'"; "("; ")"; "*"; "+"; ","; ";"; "="; ":"; "["; "]"; "<"; ">"; "-"; "_"; "."; "~"]%char
  || (code a =? 34).

Fixpoint unescape (mode : encoding) (s : string) : option string :=
  match s with
  | EmptyString => Some EmptyString
  | String a r =>
      if Ascii.eqb a "%" then
        match r with
        | String x (String y r) =>
            match hex_digit x, hex_digit y with
            | Some h, Some l =>
                let c := h * 16 + l in
                match mode with
                | encodeHost =>
                    if (h <? 8) && negb (c =? 37) then None
                    else String (ascii_of_nat (Z.to_nat c)) <$> unescape mode r
                | _ => String (ascii_of_nat (Z.to_nat c)) <$> unescape mode r
                end
            | _, _ => None
            end
        | _ => None
        end
      else match mode with
      | encodeHost => if (code a <? 128) && negb (host_char a) then None else String a <$> unescape mode r
      | encodeQueryComponent => String (if Ascii.eqb a "+" then " "%char else a) <$> unescape mode r
      | _ => String a <$> unescape mode r
      end
  end.

Definition QueryUnescape : string -> option string := unescape encodeQueryComponent.

(** ** Parts of a URL *)

Record URL := {
  u_Scheme : string;
  u_Username : string;
  u_Password : string;
  u_Host : string;
  u_Path : string;
  u_RawQuery : string;
  u_Fragment : string;
}.

Definition contains_ctl (s : string) : bool :=
  existsb (fun a => (code a <? 32) || (code a =? 127)) (list_ascii_of_string s).

(** The scheme and the rest; [Some ("", s)] when there is none. *)
Fixpoint get_scheme (s : string) (first : bool) (whole : string) : option (string * string) :=
  match s with
  | EmptyString => Some (EmptyString, whole)
  | String a r =>
      if is_letter a then
        match get_scheme r false whole with
        | Some (sch, rest) => if String.eqb rest whole then Some (EmptyString, whole) else Some (String a sch, rest)
        | None => None
        end
      else if is_digit a || one_of a ["+"; "-"; "."]%char then
        if first then Some (EmptyString, whole)
        else match get_scheme r false whole with
             | Some (sch, rest) => if String.eqb rest whole then Some (EmptyString, whole) else Some (String a sch, rest)
             | None => None
             end
      else if Ascii.eqb a ":" then if first then None else Some (EmptyString, r)
      else Some (EmptyString, whole)
  end.

Definition getScheme (s : string) : option (string * string) := get_scheme s true s.

(** Before and after the first [c]; the second part is empty without it. *)
Definition cut_or (c : ascii) (s : string) : string * string :=
  match cut c s with Some p => p | None => (s, EmptyString) end.

Definition all_digits (s : string) : bool := forallb is_digit (list_ascii_of_string s).

Definition validOptionalPort (port : string) : bool :=
  match port with
  | EmptyString => true
  | String a r => Ascii.eqb a ":" && all_digits r
  end.

Definition validUserinfo (s : string) : bool :=
  forallb (fun a => is_letter a || is_digit a
    || one_of a ["-"; "."; "_"; ":"; "~"; "!"; "$"; "&"; "'"; "("; ")"; "*"; "+"; ","; ";"; "="; "%"; "@"]%char)
    (list_ascii_of_string s).

Definition parseHost (host : string) : option string :=
  match host with
  | String "[" body =>
      match last_index_byte body "]" 0 with
      | None => None
      | Some i =>
          let ip := String.substring 0 i body in
          let port := str_from body (S i) in
          if negb (validOptionalPort port) then None else
          match parse_addr ip with
          | Some (_, bits) => if bits =? 128 then Some host else None
          | None => None
          end
      end
  | _ =>
      match last_index_byte host ":" 0 with
      | Some i => if validOptionalPort (str_from host i) then unescape encodeHost host else None
      | None => unescape encodeHost host
      end
  end.

(** User, password and host. *)
Definition parseAuthority (authority : string) : option (string * string * string) :=
  match last_index_byte authority "@" 0 with
  | None => (fun host => (EmptyString, EmptyString, host)) <$> parseHost authority
  | Some i =>
      let userinfo := String.substring 0 i authority in
      match parseHost (str_from authority (S i)) with
      | None => None
      | Some host =>
          if negb (validUserinfo userinfo) then None else
          let '(user, pass) := cut_or ":" userinfo in
          match unescape encodeUserPassword user, unescape encodeUserPassword pass with
          | Some user, Some pass => Some (user, pass, host)
          | _, _ => None
          end
      end
  end.

(** The query is cut at the first "?"; a single final "?" is dropped. *)
Definition parse_hier (scheme rest : string) : option URL :=
  let '(rest, query) := cut_or "?" rest in
  match rest with
  | String "/" (String "/" body) =>
      let '(authority, path) :=
        match index_byte body "/" 0 with
        | Some i => (String.substring 0 i body, str_from body i)
        | None => (body, EmptyString)
        end in
      match parseAuthority authority, unescape encodePath path with
      | Some (user, pass, host), Some path =>
          Some {| u_Scheme := scheme; u_Username := user; u_Password := pass; u_Host := host; u_Path := path;
                  u_RawQuery := query; u_Fragment := EmptyString |}
      | _, _ => None
      end
  | String "/" _ =>
      (fun path => {| u_Scheme := scheme; u_Username := EmptyString; u_Password := EmptyString; u_Host := EmptyString;
                      u_Path := path; u_RawQuery := query; u_Fragment := EmptyString |}) <$> unescape encodePath rest
  | _ =>
      if negb (String.eqb scheme "") then
        Some {| u_Scheme := scheme; u_Username := EmptyString; u_Password := EmptyString; u_Host := EmptyString;
                u_Path := EmptyString; u_RawQuery := query; u_Fragment := EmptyString |}
      else if contains1 (cut_or "/" rest).1 ":" then None
      else (fun path => {| u_Scheme := scheme; u_Username := EmptyString; u_Password := EmptyString; u_Host := EmptyString;
                           u_Path := path; u_RawQuery := query; u_Fragment := EmptyString |}) <$> unescape encodePath rest
  end.

Definition with_fragment (frag : string) (u : URL) : URL :=
  {| u_Scheme := u_Scheme u; u_Username := u_Username u; u_Password := u_Password u; u_Host := u_Host u;
     u_Path := u_Path u; u_RawQuery := u_RawQuery u; u_Fragment := frag |}.

(** [url.Parse] *)
Definition url_Parse (raw : string) : option URL :=
  let '(u, frag) := cut_or "#" raw in
  if contains_ctl u then None else
  if String.eqb u "*" then
    Some {| u_Scheme := EmptyString; u_Username := EmptyString; u_Password := EmptyString; u_Host := EmptyString;
            u_Path := "*"; u_RawQuery := EmptyString; u_Fragment := default EmptyString (unescape encodeFragment frag) |}
  else
  match getScheme u with
  | None => None
  | Some (scheme, rest) =>
      match parse_hier (ascii_lower scheme) rest, unescape encodeFragment frag with
      | Some url, Some frag => Some (with_fragment frag url)
      | _, _ => None
      end
  end.

(** [Hostname] and [Port] *)
Definition url_splitHostPort (hostPort : string) : string * string :=
  let '(host, port) :=
    match last_index_byte hostPort ":" 0 with
    | Some i => if validOptionalPort (str_from hostPort i)
                then (String.substring 0 i hostPort, str_from hostPort (S i)) else (hostPort, EmptyString)
    | None => (hostPort, EmptyString)
    end in
  match host with
  | String "[" body =>
      match last_index_byte body "]" 0 with
      | Some i => if Nat.eqb (S i) (String.length body) then (String.substring 0 i body, port) else (host, port)
      | None => (host, port)
      end
  | _ => (host, port)
  end.

Definition Hostname (u : URL) : string := (url_splitHostPort (u_Host u)).1.
Definition url_Port (u : URL) : string := (url_splitHostPort (u_Host u)).2.

(** ** Queries: the pairs in order *)

Definition Values : Type := list (string * string).

(** [url.ParseQuery]: the pairs, and whether every part was well formed. *)
Definition parse_pair (part : string) : option (option (string * string)) :=
  if contains1 part ";" then None
  else if String.eqb part "" then Some None
  else
    let '(key, value) := cut_or "=" part in
    match QueryUnescape key, QueryUnescape value with
    | Some k, Some v => Some (Some (k, v))
    | _, _ => None
    end.

Definition ParseQuery (query : string) : Values * bool :=
  if String.eqb query "" then ([], true) else
  let parts := map parse_pair (split1 "&" query) in
  (omap (fun p => match p with Some (Some kv) => Some kv | _ => None end) parts,
   forallb (fun p => match p with Some _ => true | None => false end) parts).

Definition Query (u : URL) : Values := (ParseQuery (u_RawQuery u)).1.

(** [values.Get(key)] *)
Definition values_Get (values : Values) (key : string) : string :=
  match List.find (fun kv => String.eqb kv.1 key) values with
  | Some (_, v) => v
  | None => EmptyString
  end.

(** ** [strconv.Atoi] and [strconv.ParseInt(_, 10, 64)]

    The value and whether the error is [nil]: zero on a syntax error, the nearest
    64-bit value when out of range. *)

Fixpoint digits_value (s : string) (n : Z) : option Z :=
  match s with
  | EmptyString => Some n
  | String a r => match digit a with Some d => digits_value r (n * 10 + d) | None => None end
  end.

Definition ParseInt (s : string) : Z * bool :=
  let '(neg, body) :=
    match s with
    | String "-" r => (true, r)
    | String "+" r => (false, r)
    | _ => (false, s)
    end in
  if String.eqb body "" then (0, false) else
  match digits_value body 0 with
  | None => (0, false)
  | Some n =>
      let v := if neg : bool then - n else n in
      if v <? - 2 ^ 63 then (- 2 ^ 63, false) else if 2 ^ 63 <=? v then (2 ^ 63 - 1, false) else (v, true)
  end.

Definition Atoi (s : string) : Z := (ParseInt s).1.

Example url_Parse_example :
  url_Parse "trojan://a%20b@example.org:443?sni=x&fp=chrome#my+node" =
  Some {| u_Scheme := "trojan"; u_Username := "a b"; u_Password := ""; u_Host := "example.org:443"; u_Path := "";
          u_RawQuery := "sni=x&fp=chrome"; u_Fragment := "my+node" |}.
Proof. by vm_compute. Qed.

Example url_Parse_ipv6 :
  (fun u => (Hostname u, url_Port u)) <$> url_Parse "ss://[2001:db8::1]:8388/" = Some ("2001:db8::1", "8388")%string.
Proof. by vm_compute. Qed.

(** ** Decimal text *)

Fixpoint str_all (f : ascii -> bool) (s : string) : bool :=
  match s with EmptyString => true | String a r => f a && str_all f r end.

(** No character of the string is [c]. *)
Lemma str_all_contains1 f s c : str_all f s = true -> f c = false -> contains1 s c = false.
Proof.
  intros Hs Hc. induction s as [|a s IH]; [done|]. cbn [str_all contains1] in *. apply andb_true_iff in Hs as [Ha Hs].
  rewrite IH by done. destruct (Ascii.eqb_spec a c) as [->|]; [congruence|done].
Qed.

Lemma pretty_char_digit x : (x < 10)%N ->
  is_digit (pretty_N_char x) = true /\ digit (pretty_N_char x) = Some (Z.of_N x).
Proof.
  intros Hx. assert (x = 0 \/ x = 1 \/ x = 2 \/ x = 3 \/ x = 4 \/ x = 5 \/ x = 6 \/ x = 7 \/ x = 8 \/ x = 9)%N as Hc by lia.
  repeat destruct Hc as [->|Hc]; try done. by subst.
Qed.

Lemma pretty_go_text x s :
  str_all is_digit s = true ->
  str_all is_digit (pretty_N_go x s) = true /\
  digits_value (pretty_N_go x s) 0 = digits_value s (Z.of_N x) /\ (pretty_N_go x s = ""%string -> x = 0%N).
Proof.
  revert s. induction (N.lt_wf_0 x) as [x _ IH]. intros s Hs.
  destruct (decide (x = 0)%N) as [->|Hx]; [by rewrite pretty_N_go_0|].
  rewrite pretty_N_go_step by lia. destruct (pretty_char_digit (x mod 10)) as [Hd Hv]; [by apply N.mod_lt|].
  destruct (IH (x / 10)%N) with (s := String (pretty_N_char (x mod 10)) s) as (H1 & H2 & H3);
    [by apply N.div_lt; lia|cbn; by rewrite Hd|]. split; [done|]. split.
  - rewrite H2. cbn [digits_value]. rewrite Hv. f_equal. rewrite N2Z.inj_div, N2Z.inj_mod.
    pose proof (Z.div_mod (Z.of_N x) 10). lia.
  - intros E. exfalso. pose proof (H3 E) as E0. rewrite E0, pretty_N_go_0 in E. done.
Qed.

(** Decimal text is digits, is not empty, and is read back. *)
Lemma pretty_text n : 0 <= n ->
  str_all is_digit (pretty n) = true /\ pretty n <> ""%string /\ digits_value (pretty n) 0 = Some n.
Proof.
  intros Hn. destruct n as [|p|p]; [done| |lia].
  change (pretty (Z.pos p)) with (pretty (N.pos p)). unfold pretty, pretty_N. rewrite decide_False by done.
  destruct (pretty_go_text (N.pos p) "") as (H1 & H2 & H3); [done|]. split; [done|]. split; [by intros E%H3|done].
Qed.

Lemma ParseInt_pretty n : 0 <= n < 2 ^ 63 -> ParseInt (pretty n) = (n, true).
Proof.
  intros Hn. destruct (pretty_text n ltac:(lia)) as (Hd & Hne & Hv). unfold ParseInt.
  assert ((match pretty n with String "-" r => (true, r) | String "+" r => (false, r) | _ => (false, pretty n) end)
          = (false, pretty n)) as ->.
  { destruct (pretty n) as [|a r]; [done|]. cbn in Hd. apply andb_true_iff in Hd as [Hd _].
    destruct a as [[] [] [] [] [] [] [] []]; done. }
  rewrite (proj2 (String.eqb_neq _ _)), Hv by done.
  rewrite (proj2 (Z.ltb_ge n (- 2 ^ 63))), (proj2 (Z.leb_gt (2 ^ 63) n)) by lia. done.
Qed.

Lemma Atoi_pretty n : 0 <= n < 2 ^ 63 -> Atoi (pretty n) = n.
Proof. intros Hn. unfold Atoi. by rewrite ParseInt_pretty. Qed.
