(* ===== verification/ProxyPort.v ===== *)
(** * Proxy ports: [internal/config/proxy_port.go], [proxy_port_manager.go]

    [ProxyPortConfig] (fields [pp_], methods [pp_]) with its defaults and checks, and
    the table [ProxyPortConfigManager] of ports by identifier.

    [Validate] fills in the defaults of the configuration it is given, so it returns
    the new configuration with the error.  The table stores clones: no two entries
    and no caller share a configuration.  A nil entry of a list is [None].
    [services] are the names [net.LookupPort] finds on the host and [save_ok] says
    whether the file can be written. *)

From Stdlib Require Import Strings.Ascii Strings.String.
From S2P Require Import Prelude GoBytes GoString Config NetIP LoadBalancer.

Definition ProxyPortTypeHTTP : string := "http".
Definition ProxyPortTypeSocks5 : string := "socks5".
Definition ProxyPortTypeSocks4 : string := "socks4".
Definition ProxyPortTypeMixed : string := "mixed".
Definition ProxyPortTypeSock : string := "sock".

Record ProxyPortConfig := {
  pp_ID : string;
  pp_Name : string;
  pp_ListenAddr : string;
  pp_Type : string;
  pp_Enabled : bool;
  pp_Username : string;
  pp_Password : string;
  pp_ProxyOutbound : string;
  pp_LoadBalance : string;
  pp_LoadBalanceSort : string;
  pp_AutoPingEnabled : bool;
  pp_AutoPingIntervalMinutes : Z;
  pp_AutoPingTopCandidates : Z;
  pp_AutoPingFullScanMode : string;
  pp_AutoPingFullScanTime : string;
  pp_AutoPingFullScanIntervalHours : Z;
  pp_AllowList : list string;
}.

Section port_config.
Context `{Unicode}.

Definition pp_ApplyDefaults (pc : ProxyPortConfig) : ProxyPortConfig :=
  let type := lower_trim (pp_Type pc) in
  let top := pp_AutoPingTopCandidates pc in
  let top := if top =? 0 then defaultAutoPingTopCandidates else top in
  {| pp_ID := if String.eqb (pp_ID pc) "" && negb (String.eqb (pp_Name pc) "") then pp_Name pc else pp_ID pc;
     pp_Name := pp_Name pc; pp_ListenAddr := pp_ListenAddr pc;
     pp_Type := if String.eqb type ProxyPortTypeSock then ProxyPortTypeSocks4 else type;
     pp_Enabled := pp_Enabled pc; pp_Username := pp_Username pc; pp_Password := pp_Password pc;
     pp_ProxyOutbound := pp_ProxyOutbound pc; pp_LoadBalance := pp_LoadBalance pc;
     pp_LoadBalanceSort := pp_LoadBalanceSort pc; pp_AutoPingEnabled := pp_AutoPingEnabled pc;
     pp_AutoPingIntervalMinutes :=
       if pp_AutoPingIntervalMinutes pc <=? 0 then 10 else pp_AutoPingIntervalMinutes pc;
     pp_AutoPingTopCandidates := if top <? 0 then 0 else top;
     pp_AutoPingFullScanMode := normalizeAutoPingFullScanMode (pp_AutoPingFullScanMode pc);
     pp_AutoPingFullScanTime :=
       if String.eqb (trim_space (pp_AutoPingFullScanTime pc)) "" then defaultAutoPingFullScanTime
       else pp_AutoPingFullScanTime pc;
     pp_AutoPingFullScanIntervalHours :=
       if pp_AutoPingFullScanIntervalHours pc <=? 0 then defaultAutoPingFullScanIntervalHr
       else pp_AutoPingFullScanIntervalHours pc;
     pp_AllowList := match pp_AllowList pc with [] => ["0.0.0.0/0"%string] | l => l end |}.

(** ** Accessors *)

Definition pp_IsDirectConnection (pc : ProxyPortConfig) : bool :=
  String.eqb (pp_ProxyOutbound pc) "" || String.eqb (pp_ProxyOutbound pc) "direct".

Definition pp_IsGroupSelection (pc : ProxyPortConfig) : bool := has_prefix (pp_ProxyOutbound pc) "@".

Definition pp_IsMultiNodeSelection (pc : ProxyPortConfig) : bool :=
  if String.eqb (pp_ProxyOutbound pc) "" || String.eqb (pp_ProxyOutbound pc) "direct" then false
  else if has_prefix (pp_ProxyOutbound pc) "@" then false
  else contains1 (pp_ProxyOutbound pc) ",".

Definition pp_GetNodeList (pc : ProxyPortConfig) : list string :=
  if negb (pp_IsMultiNodeSelection pc) then [] else
  List.filter (fun s => negb (String.eqb s "")) (trim_space <$> split1 "," (pp_ProxyOutbound pc)).

Definition pp_GetGroupName (pc : ProxyPortConfig) : string :=
  if pp_IsGroupSelection pc then trim_prefix1 (pp_ProxyOutbound pc) "@" else ""%string.

Definition pp_GetLoadBalance (pc : ProxyPortConfig) : string :=
  if String.eqb (pp_LoadBalance pc) "" then LoadBalanceLeastLatency else pp_LoadBalance pc.

Definition pp_GetLoadBalanceSort (pc : ProxyPortConfig) : string :=
  if String.eqb (pp_LoadBalanceSort pc) "" then LoadBalanceSortTCP else pp_LoadBalanceSort pc.

Definition pp_GetAutoPingTopCandidates (pc : ProxyPortConfig) : Z :=
  if pp_AutoPingTopCandidates pc <? 0 then 0
  else if pp_AutoPingTopCandidates pc =? 0 then defaultAutoPingTopCandidates
  else pp_AutoPingTopCandidates pc.

Definition pp_GetAutoPingFullScanMode (pc : ProxyPortConfig) : string :=
  normalizeAutoPingFullScanMode (pp_AutoPingFullScanMode pc).

Definition pp_GetAutoPingFullScanTime (pc : ProxyPortConfig) : string :=
  if String.eqb (trim_space (pp_AutoPingFullScanTime pc)) "" then defaultAutoPingFullScanTime
  else trim_space (pp_AutoPingFullScanTime pc).

Definition pp_GetAutoPingFullScanIntervalHours (pc : ProxyPortConfig) : Z :=
  if pp_AutoPingFullScanIntervalHours pc <=? 0 then defaultAutoPingFullScanIntervalHr
  else pp_AutoPingFullScanIntervalHours pc.

(** ** Validation *)

(** The check of one entry of the allow list; a blank one is skipped. *)
Definition allow_entry_ok (entry : string) : bool :=
  let entry := trim_space entry in
  if String.eqb entry "" then true
  else if contains1 entry "/" then bool_decide (is_Some (ParseCIDR entry))
  else bool_decide (is_Some (ParseIP entry)).

Definition validateCIDRList (list : list string) : option cfg_err :=
  if forallb allow_entry_ok list then None else Some (CfgInvalid "allow_list").

Definition listen_addr_check (services : string -> option Z) (addr : string) : option cfg_err :=
  match split_port addr with
  | None => Some (CfgInvalid "listen_addr")
  | Some portStr =>
      if String.eqb portStr "" then Some (CfgRequired "listen_addr port") else
      match LookupPort services portStr with
      | Some port => if (port <=? 0) || (65535 <? port) then Some (CfgInvalid "listen_addr port") else None
      | None => Some (CfgInvalid "listen_addr port")
      end
  end.

(** The checks on a configuration that has its defaults. *)
Definition pp_check (services : string -> option Z) (pc : ProxyPortConfig) : option cfg_err :=
  first_error [
    check (String.eqb (pp_ID pc) "") (CfgRequired "id");
    check (String.eqb (pp_Name pc) "") (CfgRequired "name");
    check (String.eqb (pp_ListenAddr pc) "") (CfgRequired "listen_addr");
    listen_addr_check services (pp_ListenAddr pc);
    check (negb (existsb (String.eqb (pp_Type pc))
             [ProxyPortTypeHTTP; ProxyPortTypeSocks5; ProxyPortTypeSocks4; ProxyPortTypeMixed]))
      (CfgInvalid "type");
    check (pp_AutoPingIntervalMinutes pc <? 1) (CfgInvalid "auto_ping_interval_minutes");
    check (pp_AutoPingTopCandidates pc <? 0) (CfgInvalid "auto_ping_top_candidates");
    scan_Validate (normalizeAutoPingFullScanMode (pp_AutoPingFullScanMode pc))
      (pp_GetAutoPingFullScanTime pc) (pp_GetAutoPingFullScanIntervalHours pc);
    validateCIDRList (pp_AllowList pc)].

Definition pp_Validate (services : string -> option Z) (pc : ProxyPortConfig)
  : ProxyPortConfig * option cfg_err :=
  let pc := pp_ApplyDefaults pc in (pc, pp_check services pc).

(** ** The table of ports *)

Inductive port_err :=
| PortNil
| PortListEmpty
| PortInvalid (e : cfg_err)
| PortIDExists (id : string)
| PortListenExists (addr : string)
| PortNotFound (id : string)
| PortSave.

Record ProxyPortConfigManager := {
  pm_ports : gmap string ProxyPortConfig;
  pm_disk : gmap string ProxyPortConfig;
}.

Definition NewProxyPortConfigManager : ProxyPortConfigManager := {| pm_ports := ∅; pm_disk := ∅ |}.

Definition pm_saveToFile (save_ok : bool) (m : ProxyPortConfigManager)
  : ProxyPortConfigManager * option port_err :=
  if save_ok then ({| pm_ports := pm_ports m; pm_disk := pm_ports m |}, None) else (m, Some PortSave).

Definition with_ports (ports : gmap string ProxyPortConfig) (m : ProxyPortConfigManager) : ProxyPortConfigManager :=
  {| pm_ports := ports; pm_disk := pm_disk m |}.

Definition normalizeProxyPortListenAddr (addr : string) : string := lower_trim addr.

(** [Load] of the decoded file: the ports read so far and the addresses they use. *)
Fixpoint load_ports (services : string -> option Z) (configs : list (option ProxyPortConfig))
    (ports : gmap string ProxyPortConfig) (seen : gmap string string)
  : outcome port_err (gmap string ProxyPortConfig) :=
  match configs with
  | [] => Ret ports
  | None :: rest => load_ports services rest ports seen
  | Some cfg :: rest =>
      let '(cfg, err) := pp_Validate services cfg in
      match err with
      | Some e => Err (PortInvalid e)
      | None =>
          match ports !! pp_ID cfg with
          | Some _ => Err (PortIDExists (pp_ID cfg))
          | None =>
              let listenAddr := normalizeProxyPortListenAddr (pp_ListenAddr cfg) in
              match seen !! listenAddr with
              | Some _ => Err (PortListenExists (pp_ListenAddr cfg))
              | None =>
                  load_ports services rest (<[pp_ID cfg := cfg]> ports) (<[listenAddr := pp_ID cfg]> seen)
              end
          end
      end
  end.

Definition pm_Load (services : string -> option Z) (m : ProxyPortConfigManager)
    (configs : list (option ProxyPortConfig)) : ProxyPortConfigManager * option port_err :=
  match load_ports services configs ∅ ∅ with
  | Ret ports => (with_ports ports m, None)
  | Err e => (m, Some e)
  | Panic => (m, None)
  end.

Definition GetPort (m : ProxyPortConfigManager) (id : string) : option ProxyPortConfig := pm_ports m !! id.

Definition GetAllPorts (m : ProxyPortConfigManager) (order : list string) : list ProxyPortConfig :=
  omap (fun id => pm_ports m !! id) order.

(** Another port than [existingID] that listens on the same address. *)
Definition listen_addr_taken (ports : gmap string ProxyPortConfig) (existingID listenAddr : string) : bool :=
  existsb (fun '(id, existing) =>
    negb (String.eqb id existingID)
    && String.eqb (normalizeProxyPortListenAddr (pp_ListenAddr existing)) listenAddr) (map_to_list ports).

(** The error, if any, and the staged addresses. *)
Definition ensurePortUniqueLocked (m : ProxyPortConfigManager) (cfg : ProxyPortConfig) (existingID : string)
    (staged : option (gmap string string)) : option port_err * option (gmap string string) :=
  if String.eqb (pp_ID cfg) "" then (Some (PortInvalid (CfgRequired "id")), staged) else
  if bool_decide (is_Some (pm_ports m !! pp_ID cfg))
     && (String.eqb existingID "" || negb (String.eqb (pp_ID cfg) existingID))
  then (Some (PortIDExists (pp_ID cfg)), staged) else
  let listenAddr := normalizeProxyPortListenAddr (pp_ListenAddr cfg) in
  if listen_addr_taken (pm_ports m) existingID listenAddr
  then (Some (PortListenExists (pp_ListenAddr cfg)), staged) else
  match staged with
  | None => (None, None)
  | Some st =>
      match st !! listenAddr with
      | Some owner =>
          if negb (String.eqb owner (pp_ID cfg)) then (Some (PortListenExists (pp_ListenAddr cfg)), staged)
          else (None, Some (<[listenAddr := pp_ID cfg]> st))
      | None => (None, Some (<[listenAddr := pp_ID cfg]> st))
      end
  end.

Definition AddPort (services : string -> option Z) (save_ok : bool) (m : ProxyPortConfigManager)
    (cfg : option ProxyPortConfig) : ProxyPortConfigManager * option port_err :=
  match cfg with
  | None => (m, Some PortNil)
  | Some cfg =>
      let '(cfg, err) := pp_Validate services cfg in
      match err with
      | Some e => (m, Some (PortInvalid e))
      | None =>
          match (ensurePortUniqueLocked m cfg "" None).1 with
          | Some e => (m, Some e)
          | None => pm_saveToFile save_ok (with_ports (<[pp_ID cfg := cfg]> (pm_ports m)) m)
          end
      end
  end.

(** The clones with their defaults, or the first error. *)
Fixpoint prepare_ports (services : string -> option Z) (cfgs : list (option ProxyPortConfig))
    (seenIDs : gset string) : outcome port_err (list ProxyPortConfig) :=
  match cfgs with
  | [] => Ret []
  | None :: _ => Err PortNil
  | Some cfg :: rest =>
      let '(clone, err) := pp_Validate services cfg in
      match err with
      | Some e => Err (PortInvalid e)
      | None =>
          if decide (pp_ID clone ∈ seenIDs) then Err (PortIDExists (pp_ID clone))
          else prepared ← prepare_ports services rest ({[pp_ID clone]} ∪ seenIDs); Ret (clone :: prepared)
      end
  end.

Fixpoint ensure_all (m : ProxyPortConfigManager) (prepared : list ProxyPortConfig)
    (staged : option (gmap string string)) : option port_err :=
  match prepared with
  | [] => None
  | cfg :: rest =>
      let '(err, staged) := ensurePortUniqueLocked m cfg "" staged in
      match err with Some e => Some e | None => ensure_all m rest staged end
  end.

Definition insert_ports (prepared : list ProxyPortConfig) (ports : gmap string ProxyPortConfig)
  : gmap string ProxyPortConfig := fold_left (fun ports cfg => <[pp_ID cfg := cfg]> ports) prepared ports.

Definition AddPorts (services : string -> option Z) (save_ok : bool) (m : ProxyPortConfigManager)
    (cfgs : list (option ProxyPortConfig)) : ProxyPortConfigManager * option port_err :=
  match cfgs with
  | [] => (m, Some PortListEmpty)
  | _ =>
      match prepare_ports services cfgs ∅ with
      | Ret prepared =>
          match ensure_all m prepared (Some ∅) with
          | Some e => (m, Some e)
          | None => pm_saveToFile save_ok (with_ports (insert_ports prepared (pm_ports m)) m)
          end
      | Err e => (m, Some e)
      | Panic => (m, None)
      end
  end.

Definition UpdatePort (services : string -> option Z) (save_ok : bool) (m : ProxyPortConfigManager)
    (id : string) (cfg : option ProxyPortConfig) : ProxyPortConfigManager * option port_err :=
  match cfg with
  | None => (m, Some PortNil)
  | Some cfg =>
      let '(cfg, err) := pp_Validate services cfg in
      match err with
      | Some e => (m, Some (PortInvalid e))
      | None =>
          match pm_ports m !! id with
          | None => (m, Some (PortNotFound id))
          | Some _ =>
              match (ensurePortUniqueLocked m cfg id None).1 with
              | Some e => (m, Some e)
              | None =>
                  let ports := if negb (String.eqb id (pp_ID cfg)) then delete id (pm_ports m) else pm_ports m in
                  pm_saveToFile save_ok (with_ports (<[pp_ID cfg := cfg]> ports) m)
              end
          end
      end
  end.

Definition DeletePort (save_ok : bool) (m : ProxyPortConfigManager) (id : string)
  : ProxyPortConfigManager * option port_err :=
  match pm_ports m !! id with
  | None => (m, Some (PortNotFound id))
  | Some _ => pm_saveToFile save_ok (with_ports (delete id (pm_ports m)) m)
  end.
End port_config.

#[global] Arguments pp_ApplyDefaults : simpl never.
#[global] Arguments pp_check : simpl never.

(** * Facts *)

Section port_facts.
Context `{Unicode} (services : string -> option Z).

Definition listen_key (p : ProxyPortConfig) : string := normalizeProxyPortListenAddr (pp_ListenAddr p).

(** Entries are stored under their identifier, which is not empty, hold a validated
    configuration with its defaults, and listen on different addresses. *)
Definition ports_wf (ports : gmap string ProxyPortConfig) : Prop :=
  (forall id p, ports !! id = Some p -> pp_ID p = id /\ exists cfg, pp_Validate services cfg = (p, None)) /\
  unique_by listen_key ports.

Lemma pp_Validate_id cfg p : pp_Validate services cfg = (p, None) -> pp_ID p <> ""%string.
Proof.
  unfold pp_Validate. generalize (pp_ApplyDefaults cfg). intros q. cbv zeta. intros [= -> Hv] Hid.
  unfold pp_check in Hv. rewrite Hid in Hv. discriminate Hv.
Qed.

Lemma ports_wf_empty : ports_wf ∅.
Proof. split; [intros id p; by rewrite lookup_empty|apply unique_by_empty]. Qed.

Lemma ports_wf_delete ports id : ports_wf ports -> ports_wf (delete id ports).
Proof.
  intros [Hp Hu]. split; [|by apply unique_by_delete]. intros i p [_ Hi]%lookup_delete_Some. by apply Hp.
Qed.

Lemma ports_wf_insert ports cfg p :
  ports_wf ports -> pp_Validate services cfg = (p, None) ->
  (forall i q, ports !! i = Some q -> listen_key q = listen_key p -> i = pp_ID p) ->
  ports_wf (<[pp_ID p := p]> ports).
Proof.
  intros [Hp Hu] Hv Hk. split; [|by apply unique_by_insert].
  intros i q [[<- <-]|[_ Hi]]%lookup_insert_Some; [by eauto|by apply Hp].
Qed.

Lemma ports_wf_id ports id p : ports_wf ports -> ports !! id = Some p -> id <> ""%string.
Proof.
  intros [Hp _] Hi. destruct (Hp id p Hi) as [<- [cfg Hc]]. by eapply pp_Validate_id.
Qed.

Lemma listen_addr_taken_spec ports existingID addr :
  listen_addr_taken ports existingID addr = false <->
  forall i q, ports !! i = Some q -> listen_key q = addr -> i = existingID.
Proof.
  unfold listen_addr_taken. rewrite <- not_true_iff_false, existsb_exists. split.
  - intros Hn i q Hi Hk. destruct (decide (i = existingID)) as [|Hne]; [done|]. destruct Hn.
    exists (i, q). rewrite <- list_elem_of_In, elem_of_map_to_list. split; [done|].
    rewrite (proj2 (String.eqb_neq _ _)) by done. by apply String.eqb_eq.
  - intros Ha ([i q] & Hin & Hb). rewrite <- list_elem_of_In, elem_of_map_to_list in Hin. bool_prop.
    apply String.eqb_neq in H0. apply String.eqb_eq in H1. by apply H0, (Ha i q).
Qed.

(** What the uniqueness check says when it passes. *)
Lemma ensure_unique_None m cfg existingID staged staged' :
  ensurePortUniqueLocked m cfg existingID staged = (None, staged') ->
  (forall q, pm_ports m !! pp_ID cfg = Some q -> pp_ID cfg = existingID /\ existingID <> ""%string) /\
  (forall i q, pm_ports m !! i = Some q -> listen_key q = listen_key cfg -> i = existingID) /\
  match staged with
  | None => staged' = None
  | Some st => staged' = Some (<[listen_key cfg := pp_ID cfg]> st) /\
      forall owner, st !! listen_key cfg = Some owner -> owner = pp_ID cfg
  end.
Proof.
  unfold ensurePortUniqueLocked. fold (listen_key cfg).
  destruct (String.eqb (pp_ID cfg) "") eqn:E0; [done|].
  destruct (_ && _) eqn:E1; [done|]. destruct (listen_addr_taken _ _ _) eqn:E2; [done|].
  rewrite listen_addr_taken_spec in E2. intros E3. split; [|split; [exact E2|]].
  - intros q Hq. rewrite bool_decide_true in E1 by done. cbn [andb] in E1. bool_prop.
    apply String.eqb_neq in H0. apply String.eqb_eq in H1. done.
  - destruct staged as [st|]; [|by injection E3].
    destruct (st !! listen_key cfg) as [o|]; [|by injection E3 as <-].
    destruct (String.eqb o (pp_ID cfg)) eqn:Eo; [|done]. apply String.eqb_eq in Eo as ->.
    injection E3 as <-. split; [done|]. by intros ? [= ->].
Qed.

Lemma load_ports_wf configs ports seen ports' :
  ports_wf ports -> (forall i p, ports !! i = Some p -> is_Some (seen !! listen_key p)) ->
  load_ports services configs ports seen = Ret ports' -> ports_wf ports'.
Proof.
  revert ports seen. induction configs as [|[cfg|] rest IH]; intros ports seen Hwf Hseen; cbn [load_ports].
  - by intros [= <-].
  - destruct (pp_Validate services cfg) as [p [e|]] eqn:Hv; [done|].
    destruct (ports !! pp_ID p) eqn:Hid; [done|]. fold (listen_key p).
    destruct (seen !! listen_key p) eqn:Hs; [done|]. apply IH.
    + eapply ports_wf_insert; [done|done|]. intros i q Hi Hk. apply Hseen in Hi as [o Ho].
      rewrite Hk, Hs in Ho. discriminate Ho.
    + intros i q [[_ <-]|[_ Hi]]%lookup_insert_Some.
      * by rewrite lookup_insert_eq.
      * apply Hseen in Hi. destruct (decide (listen_key q = listen_key p)) as [->|];
          [by rewrite lookup_insert_eq|by rewrite lookup_insert_ne].
  - by apply IH.
Qed.

(** The clones that [AddPorts] prepares are valid and have different identifiers. *)
Lemma prepare_ports_spec cfgs seen prepared :
  prepare_ports services cfgs seen = Ret prepared ->
  Forall (fun p => (exists cfg, pp_Validate services cfg = (p, None)) /\ pp_ID p ∉ seen) prepared /\
  NoDup (pp_ID <$> prepared).
Proof.
  revert seen prepared. induction cfgs as [|[cfg|] rest IH]; intros seen prepared; cbn [prepare_ports]; [|..|done].
  { intros [= <-]. split; constructor. }
  destruct (pp_Validate services cfg) as [p [e|]] eqn:Hv; [done|].
  destruct (decide (pp_ID p ∈ seen)) as [|Hn]; [done|].
  intros (l & Hl & [= <-])%bind_Ret_inv. apply IH in Hl as [Hf Hd].
  rewrite fmap_cons. split.
  - constructor; [by eauto|]. eapply Forall_impl; [exact Hf|]. set_solver.
  - constructor; [|done]. intros (q & E & Hq)%list_elem_of_fmap.
    rewrite Forall_forall in Hf. apply Hf in Hq as [_ Hq]. set_solver.
Qed.

(** The batch is consistent with the table and with itself. *)
Lemma ensure_all_wf m prepared st acc :
  ports_wf (pm_ports m) -> ports_wf acc ->
  Forall (fun p => exists cfg, pp_Validate services cfg = (p, None)) prepared ->
  NoDup (pp_ID <$> prepared) ->
  (forall a, default ""%string (st !! a) ∉ pp_ID <$> prepared) ->
  (forall i p, acc !! i = Some p -> pm_ports m !! i = Some p \/ st !! listen_key p = Some i) ->
  ensure_all m prepared (Some st) = None -> ports_wf (insert_ports prepared acc).
Proof.
  intros Hm. revert st acc. induction prepared as [|p rest IH]; intros st acc Hacc Hv Hd Hdis Hsrc He; [done|].
  cbn [ensure_all] in He. destruct (ensurePortUniqueLocked m p "" (Some st)) as [[e|] st'] eqn:Eu; [done|].
  apply ensure_unique_None in Eu as (_ & Htab & -> & Hown).
  apply Forall_cons in Hv as [[cfg Hc] Hv]. rewrite fmap_cons in Hd. apply NoDup_cons in Hd as [Hnew Hd].
  cbn [insert_ports fold_left]. apply (IH (<[listen_key p := pp_ID p]> st)); try done.
  - eapply ports_wf_insert; [done|done|]. intros i q Hi Hk. destruct (Hsrc i q Hi) as [Hin|Hst].
    + exfalso. eapply ports_wf_id; [exact Hm|exact Hin|]. by eapply Htab.
    + rewrite Hk in Hst. by apply Hown.
  - intros a. destruct (decide (a = listen_key p)) as [->|].
    + by rewrite lookup_insert_eq.
    + rewrite lookup_insert_ne by done. specialize (Hdis a). rewrite fmap_cons, elem_of_cons in Hdis. tauto.
  - intros i q [[<- <-]|[_ Hi]]%lookup_insert_Some; [right; by rewrite lookup_insert_eq|].
    destruct (Hsrc i q Hi) as [|Hst]; [by left|right].
    destruct (decide (listen_key q = listen_key p)) as [E|]; [|by rewrite lookup_insert_ne].
    rewrite E, lookup_insert_eq. f_equal. symmetry. apply Hown. by rewrite <- E.
Qed.
End port_facts.

Inductive port_op :=
| PortLoad (configs : list (option ProxyPortConfig))
| PortAdd (save_ok : bool) (cfg : option ProxyPortConfig)
| PortAddAll (save_ok : bool) (cfgs : list (option ProxyPortConfig))
| PortUpdate (save_ok : bool) (id : string) (cfg : option ProxyPortConfig)
| PortDelete (save_ok : bool) (id : string).

Section port_theorems.
Context `{Unicode} (services : string -> option Z).

Definition run_port_op (m : ProxyPortConfigManager) (o : port_op) : ProxyPortConfigManager :=
  match o with
  | PortLoad configs => (pm_Load services m configs).1
  | PortAdd ok cfg => (AddPort services ok m cfg).1
  | PortAddAll ok cfgs => (AddPorts services ok m cfgs).1
  | PortUpdate ok id cfg => (UpdatePort services ok m id cfg).1
  | PortDelete ok id => (DeletePort ok m id).1
  end.

Lemma pm_saveToFile_ports ok m : pm_ports (pm_saveToFile ok m).1 = pm_ports m.
Proof. by destruct ok. Qed.

Lemma AddPorts_wf ok m cfgs : ports_wf services (pm_ports m) -> ports_wf services (pm_ports (AddPorts services ok m cfgs).1).
Proof.
  intros Hm. unfold AddPorts. destruct cfgs as [|c cfgs]; [done|].
  destruct (prepare_ports services (c :: cfgs) ∅) as [l|e|] eqn:Ep; [|done..].
  destruct (ensure_all m l (Some ∅)) as [e|] eqn:Ee; [done|].
  rewrite pm_saveToFile_ports. apply prepare_ports_spec in Ep as [Hf Hd].
  eapply (ensure_all_wf services m l ∅); try done.
  - eapply Forall_impl; [exact Hf|]. by intros p [? _].
  - intros a. rewrite lookup_empty. cbn. intros (p & E & Hp)%list_elem_of_fmap.
    rewrite Forall_forall in Hf. destruct (Hf p Hp) as [[cfg Hc] _]. by eapply pp_Validate_id.
  - intros i p Hi. by left.
Qed.

Lemma run_port_op_wf m o : ports_wf services (pm_ports m) -> ports_wf services (pm_ports (run_port_op m o)).
Proof.
  intros Hm. destruct o as [configs|ok cfg|ok cfgs|ok id cfg|ok id]; cbn [run_port_op]; [| |by apply AddPorts_wf|..].
  - unfold pm_Load. destruct (load_ports _ _ _ _) as [ports|e|] eqn:El; [|done..].
    eapply load_ports_wf; [apply ports_wf_empty| |exact El]. intros i p. by rewrite lookup_empty.
  - unfold AddPort. destruct cfg as [cfg|]; [|done].
    destruct (pp_Validate services cfg) as [p [e|]] eqn:Hv; [done|].
    destruct (ensurePortUniqueLocked m p "" None) as [[e|] st] eqn:Eu; [done|].
    apply ensure_unique_None in Eu as (_ & Htab & _). cbn [fst]. rewrite pm_saveToFile_ports.
    eapply ports_wf_insert; [done|done|]. intros i q Hi Hk. exfalso.
    eapply ports_wf_id; [exact Hm|exact Hi|]. by eapply Htab.
  - unfold UpdatePort. destruct cfg as [cfg|]; [|done].
    destruct (pp_Validate services cfg) as [p [e|]] eqn:Hv; [done|].
    destruct (pm_ports m !! id) as [old|] eqn:Hold; [|done].
    destruct (ensurePortUniqueLocked m p id None) as [[e|] st] eqn:Eu; [done|].
    apply ensure_unique_None in Eu as (Hid & Htab & _). cbn [fst]. rewrite pm_saveToFile_ports.
    cbn [pm_ports with_ports]. destruct (String.eqb_spec id (pp_ID p)) as [->|Hne]; cbn [negb].
    + by eapply ports_wf_insert.
    + eapply ports_wf_insert; [by apply ports_wf_delete|done|].
      intros i q [Hi Hq]%lookup_delete_Some Hk. destruct Hi. symmetry. by eapply Htab.
  - unfold DeletePort. destruct (pm_ports m !! id); [|done]. rewrite pm_saveToFile_ports.
    by apply ports_wf_delete.
Qed.

(** After any sequence of loads, additions (one or a batch), updates and deletions of
    proxy ports, whether or not the file can be written: every port of the table is
    stored under its own non-empty identifier, is a validated configuration with its
    defaults, and no two ports listen on the same address. *)
Theorem proxy_ports_invariant (l : list port_op) :
  let ports := pm_ports (fold_left run_port_op l NewProxyPortConfigManager) in
  (forall id p, ports !! id = Some p ->
     pp_ID p = id /\ id <> ""%string /\ exists cfg, p = pp_ApplyDefaults cfg /\ pp_check services p = None) /\
  (forall i j p q, ports !! i = Some p -> ports !! j = Some q ->
     normalizeProxyPortListenAddr (pp_ListenAddr p) = normalizeProxyPortListenAddr (pp_ListenAddr q) -> i = j).
Proof.
  intros ports. assert (ports_wf services ports) as Hwf.
  { unfold ports. assert (ports_wf services (pm_ports NewProxyPortConfigManager)) as H0 by apply ports_wf_empty.
    revert H0. generalize NewProxyPortConfigManager. induction l as [|o l IH]; intros m Hm; [done|].
    by apply IH, run_port_op_wf. }
  split; [|apply Hwf]. intros id p Hi. pose proof (ports_wf_id _ _ _ _ Hwf Hi) as Hne.
  destruct Hwf as [Hp _]. destruct (Hp id p Hi) as [Hid [cfg Hc]]. unfold pp_Validate in Hc.
  injection Hc as Hc1 Hc2. split; [done|]. split; [done|]. exists cfg. by rewrite <- Hc1.
Qed.

Lemma prepare_ports_result cfgs seen :
  match prepare_ports services cfgs seen with
  | Ret prepared => (fun c => pp_ApplyDefaults <$> c) <$> cfgs = Some <$> prepared
  | Err e => e <> PortSave
  | Panic => False
  end.
Proof.
  revert seen. induction cfgs as [|[cfg|] l IH]; intros s; cbn [prepare_ports]; try done.
  unfold pp_Validate. cbv zeta. destruct (pp_check services (pp_ApplyDefaults cfg)) as [e|]; [done|].
  destruct (decide _); [done|]. specialize (IH ({[pp_ID (pp_ApplyDefaults cfg)]} ∪ s)).
  destruct (prepare_ports services l _) as [q|e|]; cbn; [|done..].
  by rewrite IH.
Qed.

Lemma ensure_all_result m l st :
  match ensure_all m l st with
  | None => Forall (fun p => pm_ports m !! pp_ID p = None) l
  | Some e => e <> PortSave
  end.
Proof.
  revert st. induction l as [|p l IH]; intros st; cbn [ensure_all]; [constructor|].
  destruct (ensurePortUniqueLocked m p "" st) as [[e|] st'] eqn:Eu.
  - intros ->. revert Eu. unfold ensurePortUniqueLocked. by repeat case_match.
  - apply ensure_unique_None in Eu as (Hid & _). specialize (IH st'). destruct (ensure_all m l st'); [done|].
    constructor; [|done]. destruct (pm_ports m !! pp_ID p) as [q|]; [|done].
    destruct (Hid q eq_refl) as [? Hne]. done.
Qed.

Lemma insert_ports_lookup l ports id :
  NoDup (pp_ID <$> l) ->
  insert_ports l ports !! id =
    match list_find (fun p => pp_ID p = id) l with Some (_, p) => Some p | None => ports !! id end.
Proof.
  revert ports. induction l as [|p l IH]; intros ports Hd; [done|].
  rewrite fmap_cons in Hd. apply NoDup_cons in Hd as [Hn Hd]. cbn [insert_ports fold_left].
  change (fold_left _ l ?q) with (insert_ports l q). rewrite IH by done. cbn [list_find].
  destruct (decide (pp_ID p = id)) as [<-|Hne].
  - destruct (list_find _ l) as [[i q]|] eqn:E; [|by rewrite lookup_insert_eq].
    apply list_find_Some in E as (Hq & Hi & _). destruct Hn. rewrite <- Hi.
    by eapply list_elem_of_fmap_2, list_elem_of_lookup_2.
  - destruct (list_find _ l) as [[i q]|]; [done|]. by rewrite lookup_insert_ne.
Qed.

(** A batch of ports is added completely or not at all: on an error other than that
    of the final write the table is unchanged, and otherwise every configuration of the
    batch is stored under its identifier, beside the ports of before. *)
Theorem AddPorts_atomic (save_ok : bool) (m : ProxyPortConfigManager) (cfgs : list (option ProxyPortConfig)) :
  let r := AddPorts services save_ok m cfgs in
  (r.2 <> None /\ r.2 <> Some PortSave /\ r.1 = m) \/
  exists prepared,
    (fun c => pp_ApplyDefaults <$> c) <$> cfgs = Some <$> prepared /\
    (forall p, p ∈ prepared -> pm_ports r.1 !! pp_ID p = Some p /\ pm_ports m !! pp_ID p = None) /\
    (forall id, id ∉ pp_ID <$> prepared -> pm_ports r.1 !! id = pm_ports m !! id) /\
    r.2 = (if save_ok then None else Some PortSave) /\
    (save_ok = true -> pm_disk r.1 = pm_ports r.1).
Proof.
  intros r. unfold r, AddPorts. destruct cfgs as [|c cfgs]; [by left|].
  pose proof (prepare_ports_result (c :: cfgs) ∅) as Hp.
  destruct (prepare_ports services (c :: cfgs) ∅) as [l|e|] eqn:Ep; [|left; cbn; naive_solver|done].
  apply prepare_ports_spec in Ep as [_ Hd].
  pose proof (ensure_all_result m l (Some ∅)) as He.
  destruct (ensure_all m l (Some ∅)) as [e|]; [left; cbn; naive_solver|].
  rewrite Forall_forall in He. right. exists l. rewrite pm_saveToFile_ports. cbn [pm_ports with_ports].
  split; [done|]. split; [|split; [|by destruct save_ok]].
  - intros p Hin. split; [|by apply He]. rewrite insert_ports_lookup by done.
    destruct (list_find _ l) as [[i q]|] eqn:E.
    + apply list_find_Some in E as (Hq & Hi & _). f_equal.
      apply list_elem_of_lookup_1 in Hin as [j Hj].
      assert (i = j) as ->; [|congruence]. eapply (NoDup_lookup (pp_ID <$> l)); [done|..].
      * by rewrite list_lookup_fmap, Hq.
      * by rewrite list_lookup_fmap, Hj, Hi.
    + apply list_find_None in E. rewrite Forall_forall in E. by destruct (E p Hin).
  - intros id Hid. rewrite insert_ports_lookup by done. destruct (list_find _ l) as [[i q]|] eqn:E; [|done].
    apply list_find_Some in E as (Hq & <- & _). destruct Hid.
    by eapply list_elem_of_fmap_2, list_elem_of_lookup_2.
Qed.

(** The configuration that a port stores is saved and loaded as itself, except when
    it was given a negative number of candidates: the defaults turn that into 0, and
    the next load turns 0 into 10. *)
Theorem pp_ApplyDefaults_stable (pc : ProxyPortConfig) :
  is_ascii (pp_Type pc) = true -> is_ascii (pp_AutoPingFullScanMode pc) = true ->
  (pp_ApplyDefaults (pp_ApplyDefaults pc) = pp_ApplyDefaults pc <-> 0 <= pp_AutoPingTopCandidates pc) /\
     (pp_AutoPingTopCandidates pc < 0 ->
     pp_AutoPingTopCandidates (pp_ApplyDefaults pc) = 0 /\
     pp_AutoPingTopCandidates (pp_ApplyDefaults (pp_ApplyDefaults pc)) = 10).
Proof.
  intros Ht Hm.
  assert (pp_AutoPingTopCandidates pc < 0 -> pp_AutoPingTopCandidates (pp_ApplyDefaults pc) = 0 /\
     pp_AutoPingTopCandidates (pp_ApplyDefaults (pp_ApplyDefaults pc)) = 10) as H1.
  { intros Hz. unfold pp_ApplyDefaults. cbn [pp_AutoPingTopCandidates]. change defaultAutoPingTopCandidates with 10.
    by bool_cases; try lia. }
  split; [|exact H1]. split.
  - intros E. destruct (Z.le_gt_cases 0 (pp_AutoPingTopCandidates pc)) as [|Hz]; [done|].
    destruct (H1 Hz) as [E1 E2]. rewrite E, E1 in E2. done.
  - clear H1. intros Hz. unfold pp_ApplyDefaults.
    cbn [pp_ID pp_Name pp_ListenAddr pp_Type pp_Enabled pp_Username pp_Password pp_ProxyOutbound pp_LoadBalance
      pp_LoadBalanceSort pp_AutoPingEnabled pp_AutoPingIntervalMinutes pp_AutoPingTopCandidates
      pp_AutoPingFullScanMode pp_AutoPingFullScanTime pp_AutoPingFullScanIntervalHours pp_AllowList].
    f_equal.
    + destruct (String.eqb (pp_ID pc) "" && negb (String.eqb (pp_Name pc) "")) eqn:E; [|by rewrite E].
      by case_match.
    + destruct (String.eqb (lower_trim (pp_Type pc)) ProxyPortTypeSock) eqn:E; [done|].
      by rewrite lower_trim_twice, E by done.
    + bool_cases; lia.
    + change defaultAutoPingTopCandidates with 10. bool_cases; lia.
    + unfold normalizeAutoPingFullScanMode. by rewrite lower_trim_twice.
    + destruct (String.eqb (trim_space (pp_AutoPingFullScanTime pc)) "") eqn:E; [done|by rewrite E].
    + change defaultAutoPingFullScanIntervalHr with 24. bool_cases; lia.
    + by destruct (pp_AllowList pc).
Qed.
End port_theorems.
