(* ===== verification/Latency.v ===== *)
(** * Latency histories: [outbound_latency_history.go] and [outbound_manager.go]

    The bounded history of latency samples of a node, kept twice by the code with
    the same three methods: per outbound ([outboundLatencyHistory]) and per server
    and node ([serverNodeLatencyHistory]).  A [nil] history is an empty one. *)

From Stdlib Require Import Strings.String.
From S2P Require Import Prelude GoBytes GoString.

Record LatencySample := {
  Timestamp : Z;
  LatencyMs : Z;
  OK : bool;
}.

Abbreviation history := (list LatencySample) (only parsing).

(** [time.UnixMilli(ts).Add(-retention).UnixMilli()] *)
Definition cutoff_of (ts retention : Z) : Z := unix_milli (of_unix_milli ts - retention).

Definition filtered (h : history) (cutoff : Z) : history :=
  List.filter (fun s => negb (Timestamp s <? cutoff)) h.

(** [filtered[lastIndex] = sample] *)
Definition replace_last (h : history) (sample : LatencySample) : history :=
  <[pred (length h) := sample]> h.

Definition history_append (h : history) (sample : LatencySample)
    (retention minIntervalMs storageLimit : Z) : history :=
  let kept := filtered h (cutoff_of (Timestamp sample) retention) in
  match last kept with
  | Some z =>
      if (0 <? minIntervalMs) && (Timestamp sample - Timestamp z <? minIntervalMs)
      then replace_last kept sample
      else
        let kept := kept ++ [sample] in
        if (0 <? storageLimit) && (storageLimit <? zlen kept)
        then drop (Z.to_nat (zlen kept - storageLimit)) kept else kept
  | None =>
      let kept := kept ++ [sample] in
      if (0 <? storageLimit) && (storageLimit <? zlen kept)
      then drop (Z.to_nat (zlen kept - storageLimit)) kept else kept
  end.

(** The compacted history and whether nothing is left. *)
Definition compact (h : history) (cutoff : Z) : history * bool :=
  match h with
  | [] => ([], true)
  | _ => let kept := filtered h cutoff in
         match kept with [] => ([], true) | _ => (kept, false) end
  end.

(** The second copy of the code. *)
Definition serverNode_append := history_append.
Definition serverNode_filtered := filtered.
Definition serverNode_compact := compact.

(** * Facts *)

(** [b] is at least [g] milliseconds after [a]. *)
Definition after (g : Z) (a b : LatencySample) : Prop := Timestamp a + g <= Timestamp b.

(** A history whose samples are [g] apart, all recent, at most [limit] many, the
    last one taken at [t]. *)
Record history_ok (retention g limit t : Z) (h : history) : Prop := {
  ho_sorted : StronglySorted (after (Z.max 0 g)) h;
  ho_recent : Forall (fun s => cutoff_of t retention <= Timestamp s) h;
  ho_length : 0 < limit -> zlen h <= limit;
  ho_last : exists s, last h = Some s /\ Timestamp s = t;
}.

Lemma cutoff_mono a b r : a <= b -> cutoff_of a r <= cutoff_of b r.
Proof.
  intros. unfold cutoff_of, unix_milli, of_unix_milli. apply Z.div_le_mono; [done|].
  assert (0 < millisecond) by done. nia.
Qed.

Lemma cutoff_le a r : 0 <= r -> cutoff_of a r <= a.
Proof.
  intros. rewrite <- (unix_milli_of_unix_milli a) at 2. unfold cutoff_of, unix_milli.
  apply Z.div_le_mono; [done|]. lia.
Qed.

Lemma StronglySorted_filter {A} (R : A -> A -> Prop) p l :
  StronglySorted R l -> StronglySorted R (List.filter p l).
Proof.
  induction 1 as [|x l Hl IH Hx]; [constructor|]. cbn. destruct (p x); [|done].
  constructor; [done|]. rewrite Forall_forall in *. intros y Hy. apply Hx.
  rewrite list_elem_of_In in *. by apply List.filter_In in Hy as [? _].
Qed.

Lemma StronglySorted_snoc {A} (R : A -> A -> Prop) l x :
  StronglySorted R l -> Forall (fun y => R y x) l -> StronglySorted R (l ++ [x]).
Proof.
  induction 1 as [|y l Hl IH Hy]; intros Hx; [repeat constructor|].
  apply Forall_cons in Hx as [? ?]. cbn. constructor; [by apply IH|].
  apply Forall_app. split; [done|]. by constructor.
Qed.

Lemma StronglySorted_app_l {A} (R : A -> A -> Prop) l k : StronglySorted R (l ++ k) -> StronglySorted R l.
Proof.
  induction l as [|x l IH]; intros Hs; [constructor|]. inversion_clear Hs as [|? ? H1 H2].
  apply Forall_app in H2 as [? _]. constructor; auto.
Qed.

Lemma StronglySorted_drop {A} (R : A -> A -> Prop) n l : StronglySorted R l -> StronglySorted R (drop n l).
Proof.
  revert n. induction l as [|x l IH]; intros [|n] Hs; [done..|]. inversion_clear Hs. cbn. by apply IH.
Qed.

Lemma StronglySorted_last {A} (R : A -> A -> Prop) l x :
  StronglySorted R (l ++ [x]) -> Forall (fun y => R y x) l.
Proof.
  induction l as [|y l IH]; intros Hs; [constructor|]. inversion_clear Hs as [|? ? H1 H2].
  apply Forall_app in H2 as [_ H2]. inversion_clear H2. constructor; [done|by apply IH].
Qed.

Lemma last_snoc_inv {A} (l : list A) z : last l = Some z -> exists k, l = k ++ [z].
Proof. intros H. apply last_Some in H as [k ->]. by exists k. Qed.

Lemma replace_last_snoc k z s : replace_last (k ++ [z]) s = k ++ [s].
Proof.
  unfold replace_last. rewrite length_app. cbn. rewrite Nat.add_1_r. cbn.
  by rewrite insert_app_r_alt, Nat.sub_diag by lia.
Qed.

Lemma length_filter_le {A} p (l : list A) : (length (List.filter p l) <= length l)%nat.
Proof. induction l as [|x l IH]; cbn; [done|]. destruct (p x); cbn; lia. Qed.

Lemma elem_filtered h c s : s ∈ filtered h c <-> s ∈ h /\ c <= Timestamp s.
Proof.
  unfold filtered. rewrite !list_elem_of_In, List.filter_In, negb_true_iff, Z.ltb_ge. done.
Qed.

(** Appending and cutting at the limit. *)
Definition push (limit : Z) (h : history) (s : LatencySample) : history :=
  let k := h ++ [s] in
  if (0 <? limit) && (limit <? zlen k) then drop (Z.to_nat (zlen k - limit)) k else k.

Lemma push_last limit h s : last (push limit h s) = Some s.
Proof.
  unfold push. destruct (_ && _) eqn:E; [|by rewrite last_snoc]. bool_prop.
  unfold zlen in *. rewrite length_app in *. cbn in *.
  rewrite drop_app_le by lia. by rewrite last_snoc.
Qed.

Lemma push_length limit h s : 0 < limit -> zlen (push limit h s) <= limit.
Proof.
  intros Hl. unfold push. destruct (_ && _) eqn:E.
  - bool_prop. unfold zlen in *. rewrite length_drop. lia.
  - rewrite (proj2 (Z.ltb_lt 0 limit)) in E by lia. cbn in E. bool_prop. lia.
Qed.

Lemma push_sub limit h s x : x ∈ push limit h s -> x ∈ h ++ [s].
Proof.
  unfold push. destruct (_ && _); [|done]. intros Hx. rewrite <- (take_drop (Z.to_nat (zlen (h ++ [s]) - limit)) (h ++ [s])).
  apply elem_of_app. by right.
Qed.

Lemma push_sorted R limit h s :
  StronglySorted R h -> Forall (fun y => R y s) h -> StronglySorted R (push limit h s).
Proof.
  intros Hh Hs. unfold push. destruct (_ && _); [apply StronglySorted_drop|]; by apply StronglySorted_snoc.
Qed.

Lemma history_append_cases h s r g limit :
  (exists k z, filtered h (cutoff_of (Timestamp s) r) = k ++ [z] /\ 0 < g /\ Timestamp s - Timestamp z < g /\
     history_append h s r g limit = k ++ [s]) \/
  ((forall z, last (filtered h (cutoff_of (Timestamp s) r)) = Some z -> g <= 0 \/ g <= Timestamp s - Timestamp z) /\
   history_append h s r g limit = push limit (filtered h (cutoff_of (Timestamp s) r)) s).
Proof.
  unfold history_append. set (k := filtered h _). destruct (last k) as [z|] eqn:Hz; [|right; split; [done|done]].
  destruct ((0 <? g) && (Timestamp s - Timestamp z <? g)) eqn:E.
  - left. bool_prop. apply last_snoc_inv in Hz as [k' Hk]. exists k', z. rewrite Hk, replace_last_snoc. auto.
  - right. split; [|done]. intros z' [= <-]. apply andb_false_iff in E as [E|E]; bool_prop; lia.
Qed.

Lemma history_append_ok r g limit t h s :
  0 <= r -> (h = [] \/ history_ok r g limit t h) -> t <= Timestamp s ->
  history_ok r g limit (Timestamp s) (history_append h s r g limit).
Proof.
  intros Hr Hh Ht. set (c := cutoff_of (Timestamp s) r).
  assert (StronglySorted (after (Z.max 0 g)) h /\ (0 < limit -> zlen h <= limit) /\
    forall x, x ∈ h -> Timestamp x <= t) as (Hs & Hl & Hle).
  { destruct Hh as [->|[Hs _ Hl (z & Hz & <-)]].
    - split; [constructor|]. split; [intros; rewrite zlen_nil; lia|]. intros x Hx. by apply not_elem_of_nil in Hx.
    - split; [done|]. split; [done|]. apply last_snoc_inv in Hz as [k ->].
      apply StronglySorted_last in Hs. rewrite Forall_forall in Hs.
      intros x [Hx|Hx]%elem_of_app; [apply Hs in Hx; unfold after in Hx; lia|].
      apply list_elem_of_singleton in Hx as ->. lia. }
  assert (StronglySorted (after (Z.max 0 g)) (filtered h c)) as Hf by by apply StronglySorted_filter.
  assert (zlen (filtered h c) <= zlen h) as Hfl
    by (unfold zlen; pose proof (length_filter_le (fun s => negb (Timestamp s <? c)) h) as L;
        fold (filtered h c) in L; lia).
  assert (c <= Timestamp s) as Hc by by apply cutoff_le.
  pose proof (history_append_cases h s r g limit) as Hcases. fold c in Hcases.
  destruct Hcases as [(k & z & Hk & Hg & Hgap & ->)|[Hgap ->]].
  - rewrite Hk in *. split.
    + apply StronglySorted_snoc; [by eapply StronglySorted_app_l|].
      apply StronglySorted_last in Hf as Hz. rewrite Forall_forall in *. intros x Hx.
      specialize (Hz x Hx). unfold after in *.
      assert (Timestamp z <= t) by (apply Hle, (elem_filtered h c); rewrite Hk; set_solver). lia.
    + apply Forall_app. split; [|by constructor]. apply Forall_forall. intros x Hx.
      apply (elem_filtered h c). rewrite Hk. set_solver.
    + intros Hlim. specialize (Hl Hlim). rewrite zlen_app in *. rewrite zlen_cons, zlen_nil in *. lia.
    + exists s. by rewrite last_snoc.
  - split.
    + apply push_sorted; [done|]. destruct (last (filtered h c)) as [z|] eqn:Hz.
      * specialize (Hgap z eq_refl). apply last_snoc_inv in Hz as [k Hk]. rewrite Hk in *.
        apply StronglySorted_last in Hf. rewrite Forall_forall in *.
        assert (Timestamp z <= t) by (apply Hle, (elem_filtered h c); rewrite Hk; set_solver).
        intros x [Hx|Hx]%elem_of_app; [apply Hf in Hx|apply list_elem_of_singleton in Hx as ->];
          unfold after in *; lia.
      * apply last_None in Hz as ->. constructor.
    + apply Forall_forall. intros x Hx%push_sub.
      apply elem_of_app in Hx as [Hx|Hx]; [by apply elem_filtered in Hx as [_ ?]|].
      apply list_elem_of_singleton in Hx as ->. done.
    + apply push_length.
    + exists s. split; [apply push_last|done].
Qed.

(** Samples taken one after another. *)
Fixpoint increasing_from (t : Z) (l : list LatencySample) : Prop :=
  match l with [] => True | s :: l => t <= Timestamp s /\ increasing_from (Timestamp s) l end.

Definition append_all (r g limit : Z) (l : list LatencySample) (h : history) : history :=
  fold_left (fun h s => history_append h s r g limit) l h.

Lemma append_all_ok r g limit l t h :
  0 <= r -> history_ok r g limit t h -> increasing_from t l ->
  exists t', history_ok r g limit t' (append_all r g limit l h) /\
    last (h ++ l) = last (append_all r g limit l h) /\ t <= t'.
Proof.
  intros Hr. revert t h. induction l as [|s l IH]; intros t h Hh Hl.
  { exists t. rewrite app_nil_r. split; [done|]. split; [done|]. lia. }
  cbn in Hl. destruct Hl as [Ht Hl]. cbn [append_all fold_left].
  pose proof (history_append_ok r g limit t h s Hr (or_intror Hh) Ht) as Hs.
  destruct (IH _ _ Hs Hl) as (t' & H1 & H2 & H3). exists t'. split; [done|]. split; [|lia].
  unfold append_all in *. rewrite <- H2. destruct (ho_last _ _ _ _ _ Hs) as (z & Hz & _).
  destruct l as [|y l].
  - rewrite app_nil_r. rewrite Hz. rewrite last_snoc. f_equal.
    destruct (history_append_cases h s r g limit) as [(k & z' & _ & _ & _ & E)|[_ E]]; rewrite E in Hz.
    + by rewrite last_snoc in Hz; injection Hz.
    + by rewrite push_last in Hz; injection Hz.
  - rewrite !last_app. cbn. by destruct (last (y :: l)) eqn:E; [|apply last_None in E].
Qed.

(** After any series of samples taken at increasing times, a latency history is
    ordered with at least the minimal interval between samples, holds only
    samples of the retention period, never exceeds the storage limit and ends
    with the newest sample. *)
Theorem history_invariant (retention minIntervalMs storageLimit : Z) (s : LatencySample)
    (l : list LatencySample) :
  0 <= retention -> increasing_from (Timestamp s) l ->
  let h := append_all retention minIntervalMs storageLimit (s :: l) [] in
  StronglySorted (after (Z.max 0 minIntervalMs)) h /\
  (0 < storageLimit -> zlen h <= storageLimit) /\
  last h = last (s :: l) /\
  exists newest, last h = Some newest /\
    Forall (fun x => cutoff_of (Timestamp newest) retention <= Timestamp x) h.
Proof.
  intros Hr Hl h. unfold h. cbn [append_all fold_left].
  pose proof (history_append_ok retention minIntervalMs storageLimit (Timestamp s) [] s Hr
    (or_introl eq_refl) ltac:(lia)) as Hs.
  destruct (append_all_ok retention minIntervalMs storageLimit l (Timestamp s)
    (history_append [] s retention minIntervalMs storageLimit) Hr Hs Hl) as (t & Hok & Hlast & _).
  pose proof Hok as [Hso Hre Hle (z & Hz & <-)].
  split; [done|]. split; [done|]. split; [|by exists z].
  unfold append_all in Hlast. rewrite <- Hlast.
  destruct (ho_last _ _ _ _ _ Hs) as (z' & Hz' & _).
  destruct l as [|y l].
  - rewrite app_nil_r. unfold history_append. cbn. by destruct (_ && _) eqn:E; [|done];
      bool_prop; unfold zlen in *; cbn in *; lia.
  - rewrite last_app. change (last (s :: y :: l)) with (last (y :: l)).
    by destruct (last (y :: l)) eqn:E; [|apply last_None in E].
Qed.

Lemma history_invariant_witness :
  let mk t := {| Timestamp := t; LatencyMs := 20; OK := true |} in
  zlen (append_all (10 * second) 1000 3 [mk 0; mk 500; mk 2000; mk 4000; mk 6000] []) <= 3.
Proof.
  intros mk. apply (history_invariant (10 * second) 1000 3 (mk 0) [mk 500; mk 2000; mk 4000; mk 6000]).
  - done.
  - cbn. lia.
  - lia.
Defined.
