(* ===== verification/NodeFile.v ===== *)
(** * The node file: [internal/config/proxy_outbound_manager.go]

    The table of nodes behind the configuration file of the outbound nodes, which the
    API and the subscription service change.  Unlike the outbound manager, whose table
    dials, this one only stores.  Both share the runtimes of the nodes, so every
    operation takes the heap of runtimes ([Outbound]) and returns it.

    A stored node has its runtime set: [Load] sets those of the nodes it decodes, which
    the code does at their first clone.  The file is the table it was last written from,
    without runtimes; [save_ok] says whether the write succeeds.  The watcher and the
    callback are not modelled. *)

From Stdlib Require Import Strings.String.
From S2P Require Import Prelude GoBytes GoString Outbound.

Inductive node_err :=
| NodeNil
| NodeInvalid (e : validate_err)
| NodeExists (name : string)
| NodeDuplicate (name : string)
| NodeNotFound (name : string)
| NodeSubscriptionID
| NodeMismatch (name subscriptionID : string)
| NodeSave.

Record ProxyOutboundConfigManager := {
  oc_outbounds : gmap string ProxyOutbound;
  oc_disk : gmap string ProxyOutbound;
}.

Definition NewProxyOutboundConfigManager : ProxyOutboundConfigManager := {| oc_outbounds := ∅; oc_disk := ∅ |}.

Definition set_table (nodes : gmap string ProxyOutbound) (m : ProxyOutboundConfigManager)
  : ProxyOutboundConfigManager := {| oc_outbounds := nodes; oc_disk := oc_disk m |}.

Definition oc_saveToFile (save_ok : bool) (m : ProxyOutboundConfigManager)
  : ProxyOutboundConfigManager * option node_err :=
  if save_ok then ({| oc_outbounds := oc_outbounds m; oc_disk := with_runtime None <$> oc_outbounds m |}, None)
  else (m, Some NodeSave).

(** The clone of a node the table takes, with the heap. *)
Definition take_clone (h : runtime_heap) (p : ProxyOutbound) : ProxyOutbound * runtime_heap :=
  let '(clone, _, h) := Clone h p in (clone, h).

Section node_file.
Context `{Unicode}.

(** The checks of [Load]; [null] in the file is a nil pointer, on which [Validate]
    panics. *)
Fixpoint check_nodes (configs : list (option ProxyOutbound)) (seenNames : gset string)
  : outcome node_err (list ProxyOutbound) :=
  match configs with
  | [] => Ret []
  | None :: _ => Panic
  | Some p :: rest =>
      match Validate p with
      | Some e => Err (NodeInvalid e)
      | None =>
          if decide (Name p ∈ seenNames) then Err (NodeDuplicate (Name p))
          else nodes ← check_nodes rest ({[Name p]} ∪ seenNames); Ret (p :: nodes)
      end
  end.

Definition store_node (acc : gmap string ProxyOutbound * runtime_heap) (p : ProxyOutbound)
  : gmap string ProxyOutbound * runtime_heap :=
  let '(clone, h) := take_clone acc.2 p in (<[Name p := clone]> acc.1, h).

Definition oc_Load (h : runtime_heap) (m : ProxyOutboundConfigManager) (configs : list (option ProxyOutbound))
  : outcome node_err (ProxyOutboundConfigManager * runtime_heap) :=
  nodes ← check_nodes configs ∅;
  let '(t, h) := fold_left store_node nodes (∅, h) in
  Ret (set_table t m, h).

(** The clones of stored nodes are the nodes; [order] is the iteration order. *)
Definition oc_GetOutbound (m : ProxyOutboundConfigManager) (name : string) : option ProxyOutbound :=
  oc_outbounds m !! name.

Definition oc_GetAllOutbounds (m : ProxyOutboundConfigManager) (order : list string) : list ProxyOutbound :=
  omap (fun name => oc_outbounds m !! name) order.

Definition oc_GetByGroup (m : ProxyOutboundConfigManager) (order : list string) (group : string) : list ProxyOutbound :=
  List.filter (fun o => String.eqb (Group o) group) (oc_GetAllOutbounds m order).

Definition GetBySubscriptionID (m : ProxyOutboundConfigManager) (order : list string) (subscriptionID : string)
  : list ProxyOutbound :=
  List.filter (fun o => String.eqb (SubscriptionID o) subscriptionID) (oc_GetAllOutbounds m order).

Definition OutboundCount (m : ProxyOutboundConfigManager) : Z := Z.of_nat (size (oc_outbounds m)).

(** The clones, checked. *)
Fixpoint prepare_nodes (h : runtime_heap) (subscriptionID : string) (outbounds : list (option ProxyOutbound))
    (seenNames : gset string) : outcome node_err (list ProxyOutbound) * runtime_heap :=
  match outbounds with
  | [] => (Ret [], h)
  | None :: _ => (Err NodeNil, h)
  | Some p :: rest =>
      let '(clone, h) := take_clone h p in
      if negb (String.eqb (SubscriptionID clone) subscriptionID)
      then (Err (NodeMismatch (Name clone) (SubscriptionID clone)), h)
      else match Validate clone with
      | Some e => (Err (NodeInvalid e), h)
      | None =>
          if decide (Name clone ∈ seenNames) then (Err (NodeDuplicate (Name clone)), h)
          else let '(r, h) := prepare_nodes h subscriptionID rest ({[Name clone]} ∪ seenNames) in
               (prepared ← r; Ret (clone :: prepared), h)
      end
  end.

(** The insertion of the prepared nodes, or the first name that is taken. *)
Fixpoint add_prepared (next : gmap string ProxyOutbound) (prepared : list ProxyOutbound)
  : outcome node_err (gmap string ProxyOutbound) :=
  match prepared with
  | [] => Ret next
  | p :: rest =>
      match next !! Name p with
      | Some _ => Err (NodeExists (Name p))
      | None => add_prepared (<[Name p := p]> next) rest
      end
  end.

Definition other_nodes (subscriptionID : string) (t : gmap string ProxyOutbound) : gmap string ProxyOutbound :=
  filter (fun kv => SubscriptionID kv.2 <> subscriptionID) t.

Definition ReplaceSubscriptionOutbounds (save_ok : bool) (h : runtime_heap) (m : ProxyOutboundConfigManager)
    (subscriptionID : string) (outbounds : list (option ProxyOutbound))
  : ProxyOutboundConfigManager * runtime_heap * option node_err :=
  if String.eqb subscriptionID "" then (m, h, Some NodeSubscriptionID) else
  let '(r, h) := prepare_nodes h subscriptionID outbounds ∅ in
  match r with
  | Ret prepared =>
      match add_prepared (other_nodes subscriptionID (oc_outbounds m)) prepared with
      | Ret next => let '(m, e) := oc_saveToFile save_ok (set_table next m) in (m, h, e)
      | Err e => (m, h, Some e)
      | Panic => (m, h, None)
      end
  | Err e => (m, h, Some e)
  | Panic => (m, h, None)
  end.

Definition oc_AddOutbound (save_ok : bool) (h : runtime_heap) (m : ProxyOutboundConfigManager) (config : ProxyOutbound)
  : ProxyOutboundConfigManager * runtime_heap * option node_err :=
  match Validate config with
  | Some e => (m, h, Some (NodeInvalid e))
  | None =>
      match oc_outbounds m !! Name config with
      | Some _ => (m, h, Some (NodeExists (Name config)))
      | None =>
          let '(clone, h) := take_clone h config in
          let '(m, e) := oc_saveToFile save_ok (set_table (<[Name config := clone]> (oc_outbounds m)) m) in
          (m, h, e)
      end
  end.

Definition oc_UpdateOutbound (save_ok : bool) (h : runtime_heap) (m : ProxyOutboundConfigManager) (name : string)
    (config : ProxyOutbound) : ProxyOutboundConfigManager * runtime_heap * option node_err :=
  match Validate config with
  | Some e => (m, h, Some (NodeInvalid e))
  | None =>
      match oc_outbounds m !! name with
      | None => (m, h, Some (NodeNotFound name))
      | Some _ =>
          let t := if negb (String.eqb name (Name config)) then delete name (oc_outbounds m) else oc_outbounds m in
          let '(clone, h) := take_clone h config in
          let '(m, e) := oc_saveToFile save_ok (set_table (<[Name config := clone]> t) m) in
          (m, h, e)
      end
  end.

(** [update] writes through the pointer of the table; the file is not written. *)
Definition UpdateOutboundRuntime (h : runtime_heap) (m : ProxyOutboundConfigManager) (name : string)
    (update : option (runtime_heap -> ProxyOutbound -> ProxyOutbound * runtime_heap))
  : ProxyOutboundConfigManager * runtime_heap * option node_err :=
  match oc_outbounds m !! name with
  | None => (m, h, Some (NodeNotFound name))
  | Some p =>
      match update with
      | None => (m, h, None)
      | Some f => let '(p, h) := f h p in (set_table (<[name := p]> (oc_outbounds m)) m, h, None)
      end
  end.

Definition oc_DeleteOutbound (save_ok : bool) (m : ProxyOutboundConfigManager) (name : string)
  : ProxyOutboundConfigManager * option node_err :=
  match oc_outbounds m !! name with
  | None => (m, Some (NodeNotFound name))
  | Some _ => oc_saveToFile save_ok (set_table (delete name (oc_outbounds m)) m)
  end.
End node_file.

(** * Facts *)

Section node_file_facts.
Context `{Unicode}.

(** Every node is stored under its name, is valid and has its runtime. *)
Definition node_ok (h : runtime_heap) (name : string) (p : ProxyOutbound) : Prop :=
  Name p = name /\ Validate p = None /\ exists r, runtime p = Some r /\ (r < List.length h)%nat.

Definition table_wf (h : runtime_heap) (t : gmap string ProxyOutbound) : Prop :=
  forall name p, t !! name = Some p -> node_ok h name p.

Lemma Validate_runtime r p : Validate (with_runtime r p) = Validate p.
Proof. by destruct p. Qed.

Lemma Validate_name p : Validate p = None -> Name p <> ""%string.
Proof. unfold Validate. by intros [? _]%when_empty_None. Qed.

(** What [take_clone] gives. *)
Lemma take_clone_spec h p c h' : wf_ptr h p -> take_clone h p = (c, h') ->
  exists r, c = with_runtime (Some r) p /\ (r < List.length h')%nat /\ (List.length h <= List.length h')%nat /\
    (forall k rt, h !! k = Some rt -> h' !! k = Some rt) /\ runtime_of h' c = runtime_of h p /\
    (forall k, runtime p = Some k -> r = k /\ h' = h).
Proof.
  intros Hw. unfold take_clone, Clone. destruct (runtimeState h p) as [[r p1] h1] eqn:E.
  pose proof E as E'. apply runtimeState_spec in E as (-> & Hr & Hl & Hk & Hlen); [|done]. intros [= <- <-].
  exists r. split; [by destruct p|]. split; [done|]. split; [done|]. split; [done|]. split.
  - unfold runtime_of at 1. cbn [runtime with_runtime]. by rewrite Hl.
  - intros k Hp. unfold runtimeState in E'. rewrite Hp in E'. by injection E' as <- _ <-.
Qed.

Lemma take_clone_stored h p r : runtime p = Some r -> take_clone h p = (p, h).
Proof. intros Hr. unfold take_clone, Clone, runtimeState. rewrite Hr. destruct p; cbn in *; by subst. Qed.

Lemma node_ok_mono h h' name p : (List.length h <= List.length h')%nat -> node_ok h name p -> node_ok h' name p.
Proof. intros Hl (Hn & Hv & r & Hr & Hlt). split_and!; [done..|]. exists r. split; [done|lia]. Qed.

Lemma table_wf_mono h h' t : (List.length h <= List.length h')%nat -> table_wf h t -> table_wf h' t.
Proof. intros Hl Ht name p Hp. eapply node_ok_mono; [exact Hl|by apply Ht]. Qed.

Lemma table_wf_insert h t p : table_wf h t -> node_ok h (Name p) p -> table_wf h (<[Name p := p]> t).
Proof. intros Ht Hp name q [[<- <-]|[_ Hq]]%lookup_insert_Some; [done|by apply Ht]. Qed.

Lemma table_wf_delete h t name : table_wf h t -> table_wf h (delete name t).
Proof. intros Ht n p [_ Hp]%lookup_delete_Some. by apply Ht. Qed.

Lemma table_wf_other h t id : table_wf h t -> table_wf h (other_nodes id t).
Proof. intros Ht n p [Hp _]%map_lookup_filter_Some. by apply Ht. Qed.

Lemma take_clone_node h p c h' : wf_ptr h p -> Validate p = None -> take_clone h p = (c, h') ->
  node_ok h' (Name p) c /\ Name c = Name p /\ (List.length h <= List.length h')%nat.
Proof.
  intros Hw Hv Hc. destruct (take_clone_spec h p c h' Hw Hc) as (r & -> & Hr & Hl & _).
  split; [|done]. split; [done|]. rewrite Validate_runtime. split; [done|]. by exists r.
Qed.

Lemma oc_saveToFile_table ok m : oc_outbounds (oc_saveToFile ok m).1 = oc_outbounds m.
Proof. by destruct ok. Qed.

(** The clones that a replacement prepares. *)
Lemma prepare_nodes_spec outbounds h id seen :
  Forall (fun o => forall p, o = Some p -> wf_ptr h p) outbounds ->
  let '(r, h') := prepare_nodes h id outbounds seen in
  (List.length h <= List.length h')%nat /\
  match r with
  | Ret prepared =>
      Forall2 (fun o c => exists p r, o = Some p /\ c = with_runtime (Some r) p /\
                 (forall k, runtime p = Some k -> r = k)) outbounds prepared /\
      Forall (fun c => node_ok h' (Name c) c /\ SubscriptionID c = id /\ Name c ∉ seen) prepared /\
      NoDup (Name <$> prepared)
  | Err e => e <> NodeSave
  | Panic => False
  end.
Proof.
  revert h seen. induction outbounds as [|[p|] rest IH]; intros h seen Hw; cbn [prepare_nodes]; [|..|done].
  { split; [done|]. split_and!; constructor. }
  apply Forall_cons in Hw as [Hp Hw]. specialize (Hp p eq_refl).
  destruct (take_clone h p) as [c h1] eqn:Ec. destruct (take_clone_spec _ _ _ _ Hp Ec) as (r & -> & Hr & Hl & _ & _ & Hk).
  destruct (String.eqb_spec (SubscriptionID (with_runtime (Some r) p)) id) as [Hid|]; cbn [negb]; [|done].
  destruct (Validate (with_runtime (Some r) p)) eqn:Hv; [done|].
  destruct (decide (Name (with_runtime (Some r) p) ∈ seen)) as [|Hn]; [done|].
  assert (Forall (fun o => forall p, o = Some p -> wf_ptr h1 p) rest) as Hw1.
  { eapply Forall_impl; [exact Hw|]. intros o Ho q Hq k Hkq. specialize (Ho q Hq k Hkq). lia. }
  specialize (IH h1 ({[Name (with_runtime (Some r) p)]} ∪ seen) Hw1).
  destruct (prepare_nodes h1 id rest _) as [[l|e|] h2]; cbn [mbind outcome_bind]; [|by destruct IH; split; [lia|]|by destruct IH].
  destruct IH as (Hl2 & Hf2 & Hall & Hd). split; [lia|]. split; [|split].
  - constructor; [|done]. exists p, r. split_and!; [done..|]. intros k Hkk. by destruct (Hk k Hkk).
  - constructor.
    + split; [|done]. split; [done|]. split; [done|]. exists r. split; [done|lia].
    + eapply Forall_impl; [exact Hall|]. intros q (Hq & Hs & Hni). split_and!; [done..|]. set_solver.
  - rewrite fmap_cons. constructor; [|done]. intros (q & E & Hq)%list_elem_of_fmap.
    rewrite Forall_forall in Hall. destruct (Hall q Hq) as (_ & _ & Hni). set_solver.
Qed.

Lemma add_prepared_spec prepared next :
  NoDup (Name <$> prepared) ->
  match add_prepared next prepared with
  | Ret t => Forall (fun p => next !! Name p = None /\ t !! Name p = Some p) prepared /\
      forall name, name ∉ Name <$> prepared -> t !! name = next !! name
  | Err e => exists name, e = NodeExists name /\ is_Some (next !! name) /\ name ∈ Name <$> prepared
  | Panic => False
  end.
Proof.
  revert next. induction prepared as [|p rest IH]; intros next Hd; cbn [add_prepared].
  { split; [constructor|done]. }
  rewrite fmap_cons in Hd |- *. apply NoDup_cons in Hd as [Hn Hd]. destruct (next !! Name p) as [q|] eqn:E.
  { exists (Name p). split_and!; [done|by rewrite E|by left]. }
  specialize (IH (<[Name p := p]> next) Hd). destruct (add_prepared _ rest) as [t|e|]; [|..|done].
  - destruct IH as [Hall Hoth]. split.
    + constructor.
      * split; [done|]. by rewrite Hoth, lookup_insert_eq.
      * rewrite Forall_forall in Hall |- *. intros q Hq. destruct (Hall q Hq) as [H1 H2]. split; [|done].
        rewrite lookup_insert_ne in H1; [done|]. intros E2. apply Hn. rewrite E2. by apply list_elem_of_fmap_2.
    + intros name [Hne Hin]%not_elem_of_cons. rewrite Hoth, lookup_insert_ne; done.
  - destruct IH as (name & -> & [q Hq] & Hin). exists name. split; [done|]. split; [|by right].
    apply lookup_insert_Some in Hq as [[<- _]|[_ Hq]]; [|by exists q]. done.
Qed.
End node_file_facts.

(** ** Theorems *)

Section node_file_theorems.
Context `{Unicode}.

(** A write through the pointer of the table that keeps what the node dials through: the
    setters of the test results and of the runtime. *)
Definition keeps_config (f : runtime_heap -> ProxyOutbound -> ProxyOutbound * runtime_heap) : Prop :=
  forall h name p, node_ok h name p -> let '(p', h') := f h p in
    node_ok h' name p' /\ (List.length h <= List.length h')%nat.

(** The pointers of the configurations a caller passes exist. *)
Definition allocated (h : runtime_heap) (l : list (option ProxyOutbound)) : Prop :=
  Forall (fun o => forall p, o = Some p -> wf_ptr h p) l.

Inductive node_step : runtime_heap * ProxyOutboundConfigManager -> runtime_heap * ProxyOutboundConfigManager -> Prop :=
| step_load h m configs m' h' :
    allocated h configs -> oc_Load h m configs = Ret (m', h') -> node_step (h, m) (h', m')
| step_add ok h m p : wf_ptr h p -> node_step (h, m) ((oc_AddOutbound ok h m p).1.2, (oc_AddOutbound ok h m p).1.1)
| step_update ok h m name p : wf_ptr h p ->
    node_step (h, m) ((oc_UpdateOutbound ok h m name p).1.2, (oc_UpdateOutbound ok h m name p).1.1)
| step_delete ok h m name : node_step (h, m) (h, (oc_DeleteOutbound ok m name).1)
| step_replace ok h m id l : allocated h l ->
    node_step (h, m) ((ReplaceSubscriptionOutbounds ok h m id l).1.2, (ReplaceSubscriptionOutbounds ok h m id l).1.1)
| step_runtime h m name f : (forall g, f = Some g -> keeps_config g) ->
    node_step (h, m) ((UpdateOutboundRuntime h m name f).1.2, (UpdateOutboundRuntime h m name f).1.1)
| step_elsewhere h h' m : (List.length h <= List.length h')%nat -> node_step (h, m) (h', m).

Definition state_wf (s : runtime_heap * ProxyOutboundConfigManager) : Prop := table_wf s.1 (oc_outbounds s.2).

Lemma check_nodes_spec configs seen nodes :
  check_nodes configs seen = Ret nodes ->
  configs = Some <$> nodes /\ Forall (fun p => Validate p = None /\ Name p ∉ seen) nodes /\ NoDup (Name <$> nodes).
Proof.
  revert seen nodes. induction configs as [|[p|] rest IH]; intros seen nodes; cbn [check_nodes]; [|..|done].
  { intros [= <-]. split_and!; constructor. }
  destruct (Validate p) eqn:Hv; [done|]. destruct (decide (Name p ∈ seen)) as [|Hn]; [done|].
  intros (l & Hl & [= <-])%bind_Ret_inv. apply IH in Hl as (-> & Hf & Hd). split; [done|]. split.
  - constructor; [done|]. eapply Forall_impl; [exact Hf|]. intros q [? ?]. split; [done|set_solver].
  - rewrite fmap_cons. constructor; [|done]. intros (q & E & Hq)%list_elem_of_fmap.
    rewrite Forall_forall in Hf. destruct (Hf q Hq) as [_ Hni]. set_solver.
Qed.

Lemma store_nodes_wf nodes t h :
  table_wf h t -> Forall (fun p => Validate p = None /\ wf_ptr h p) nodes ->
  let '(t', h') := fold_left store_node nodes (t, h) in table_wf h' t' /\ (List.length h <= List.length h')%nat.
Proof.
  revert t h. induction nodes as [|p nodes IH]; intros t h Ht Hall; [done|].
  apply Forall_cons in Hall as [[Hv Hw] Hall]. cbn [fold_left]. unfold store_node at 2. cbn [fst snd].
  destruct (take_clone h p) as [c h1] eqn:Ec. destruct (take_clone_node _ _ _ _ Hw Hv Ec) as (Hc & En & Hl).
  assert (table_wf h1 (<[Name p := c]> t)) as Ht1.
  { rewrite <- En in Hc |- *. apply table_wf_insert; [by eapply table_wf_mono|done]. }
  specialize (IH _ h1 Ht1). assert (Forall (fun p => Validate p = None /\ wf_ptr h1 p) nodes) as Hall1.
  { eapply Forall_impl; [exact Hall|]. intros q [? Hq]. split; [done|]. intros k Hk. specialize (Hq k Hk). lia. }
  specialize (IH Hall1). destruct (fold_left store_node nodes _) as [t' h']. split; [apply IH|]. destruct IH. lia.
Qed.

Lemma node_step_wf s s' : node_step s s' -> state_wf s -> state_wf s' /\ (List.length s.1 <= List.length s'.1)%nat.
Proof.
  destruct 1 as [h m configs m' h' Ha Hl|ok h m p Hw|ok h m name p Hw|ok h m name|ok h m id l Ha|h m name f Hf|h h' m Hl];
    unfold state_wf; cbn [fst snd]; intros Ht.
  - unfold oc_Load in Hl. apply bind_Ret_inv in Hl as (nodes & Hn & Hl). apply check_nodes_spec in Hn as (-> & Hv & _).
    assert (Forall (fun p => Validate p = None /\ wf_ptr h p) nodes) as Hall.
    { rewrite Forall_forall in Hv |- *. intros p Hp. split; [by apply Hv|].
      unfold allocated in Ha. rewrite Forall_forall in Ha. apply (Ha (Some p)); [|done]. by apply list_elem_of_fmap_2. }
    assert (table_wf h (∅ : gmap string ProxyOutbound)) as H0 by (intros n p; by rewrite lookup_empty).
    pose proof (store_nodes_wf nodes ∅ h H0 Hall) as Hs.
    destruct (fold_left store_node nodes (∅, h)) as [t h1]. by injection Hl as <- <-.
  - unfold oc_AddOutbound. destruct (Validate p) eqn:Hv; [done|]. destruct (oc_outbounds m !! Name p); [done|].
    destruct (take_clone h p) as [c h1] eqn:Ec. destruct (take_clone_node _ _ _ _ Hw Hv Ec) as (Hc & En & Hlen).
    destruct (oc_saveToFile ok _) as [m' e] eqn:Es. cbn [fst snd]. apply (f_equal fst) in Es. cbn in Es. subst m'.
    rewrite oc_saveToFile_table. cbn [oc_outbounds set_table]. split; [|done].
    rewrite <- En in Hc |- *. apply table_wf_insert; [by eapply table_wf_mono|done].
  - unfold oc_UpdateOutbound. destruct (Validate p) eqn:Hv; [done|]. destruct (oc_outbounds m !! name); [|done].
    destruct (take_clone h p) as [c h1] eqn:Ec. destruct (take_clone_node _ _ _ _ Hw Hv Ec) as (Hc & En & Hlen).
    destruct (oc_saveToFile ok _) as [m' e] eqn:Es. cbn [fst snd]. apply (f_equal fst) in Es. cbn in Es. subst m'.
    rewrite oc_saveToFile_table. cbn [oc_outbounds set_table]. split; [|done].
    rewrite <- En in Hc |- *. apply table_wf_insert; [|done]. eapply table_wf_mono; [exact Hlen|].
    destruct (negb _); [by apply table_wf_delete|done].
  - unfold oc_DeleteOutbound. destruct (oc_outbounds m !! name); [|done]. rewrite oc_saveToFile_table.
    split; [by apply table_wf_delete|done].
  - unfold ReplaceSubscriptionOutbounds. destruct (String.eqb id ""); [done|].
    pose proof (prepare_nodes_spec l h id ∅ Ha) as Hp. destruct (prepare_nodes h id l ∅) as [[prep|e|] h1];
      [|split; [eapply table_wf_mono; [|exact Ht]|]; apply Hp|by destruct Hp].
    destruct Hp as (Hl & _ & Hall & Hd). pose proof (add_prepared_spec prep (other_nodes id (oc_outbounds m)) Hd) as Ha2.
    destruct (add_prepared _ prep) as [t|e|]; [|by split; [eapply table_wf_mono|]|done].
    destruct (oc_saveToFile ok _) as [m' e] eqn:Es. cbn [fst snd]. apply (f_equal fst) in Es. cbn in Es. subst m'.
    rewrite oc_saveToFile_table. cbn [oc_outbounds set_table]. split; [|done].
    destruct Ha2 as [Hin Hoth]. intros name q Hq. destruct (decide (name ∈ Name <$> prep)) as [(c & -> & Hc)%list_elem_of_fmap|Hni].
    + rewrite Forall_forall in Hin, Hall. destruct (Hin c Hc) as [_ E]. rewrite E in Hq. injection Hq as <-. by apply Hall.
    + rewrite Hoth in Hq by done. by apply (table_wf_mono h h1 _ Hl (table_wf_other _ _ id Ht)).
  - unfold UpdateOutboundRuntime. destruct (oc_outbounds m !! name) as [p|] eqn:Hp; [|done]. destruct f as [g|]; [|done].
    specialize (Hf g eq_refl h name p (Ht name p Hp)). destruct (g h p) as [p' h']. destruct Hf as [Hok Hl]. cbn [fst snd].
    split; [|done]. cbn [oc_outbounds set_table]. intros n q [[<- <-]|[_ Hq]]%lookup_insert_Some; [done|].
    eapply node_ok_mono; [exact Hl|by apply Ht].
  - split; [by eapply table_wf_mono|done].
Qed.

(** In every state of the node file that loads, additions, updates, deletions, replacements of
    a subscription and writes of test results reach, whether or not the file can be
    written: each node is stored under its own name, is valid, and its runtime exists. *)
Theorem node_file_invariant (h0 : runtime_heap) (h : runtime_heap) (m : ProxyOutboundConfigManager)
    (name : string) (p : ProxyOutbound) :
  rtc node_step (h0, NewProxyOutboundConfigManager) (h, m) -> oc_GetOutbound m name = Some p ->
  Name p = name /\ name <> ""%string /\ Validate p = None /\ exists r, runtime p = Some r /\ (r < List.length h)%nat.
Proof.
  intros Hr Hp. assert (state_wf (h, m)) as Hwf.
  { remember (h0, NewProxyOutboundConfigManager) as s0 eqn:E0. remember (h, m) as s eqn:E. clear E Hp.
    assert (state_wf s0) as H0 by (subst; intros n q; cbn; by rewrite lookup_empty). clear E0.
    induction Hr as [|s1 s2 s3 Hs _ IH]; [done|]. apply IH. by apply node_step_wf in Hs as [? _]. }
  destruct (Hwf name p Hp) as (Hn & Hv & Hrt). split; [done|]. split; [|done]. rewrite <- Hn. by apply Validate_name.
Qed.
End node_file_theorems.

Section node_file_theorems2.
Context `{Unicode}.

(** Replacing the nodes of a subscription is all or nothing: on an error other than that of the
    final write the table is unchanged; otherwise the nodes of the subscription are
    exactly the given ones, which carry its identifier, under distinct names that no
    other node has, each keeping its runtime when it has one, and the nodes of the
    other subscriptions are untouched. *)
Theorem ReplaceSubscriptionOutbounds_spec (save_ok : bool) (h : runtime_heap) (m : ProxyOutboundConfigManager)
    (id : string) (outbounds : list (option ProxyOutbound)) :
  table_wf h (oc_outbounds m) -> allocated h outbounds ->
  let '(m', h', err) := ReplaceSubscriptionOutbounds save_ok h m id outbounds in
  (err <> None /\ err <> Some NodeSave /\ m' = m) \/
  exists stored,
    Forall2 (fun o c => exists p r, o = Some p /\ c = with_runtime (Some r) p /\
               (forall k, runtime p = Some k -> r = k)) outbounds stored /\
    Forall (fun c => SubscriptionID c = id /\ Validate c = None) stored /\ NoDup (Name <$> stored) /\
    (forall c, c ∈ stored <-> oc_outbounds m' !! Name c = Some c /\ SubscriptionID c = id) /\
    (forall name q, SubscriptionID q <> id ->
       oc_outbounds m' !! name = Some q <-> oc_outbounds m !! name = Some q) /\
    err = (if save_ok then None else Some NodeSave) /\
    (save_ok = true -> oc_disk m' = with_runtime None <$> oc_outbounds m').
Proof.
  intros Ht Ha. unfold ReplaceSubscriptionOutbounds. destruct (String.eqb id ""); [by left|].
  pose proof (prepare_nodes_spec outbounds h id ∅ Ha) as Hp. destruct (prepare_nodes h id outbounds ∅) as [[prep|e|] h1];
    [|left; destruct Hp as [_ Hp]; split_and!; [done|congruence|done]|by destruct Hp].
  destruct Hp as (_ & Hf2 & Hall & Hd). pose proof (add_prepared_spec prep (other_nodes id (oc_outbounds m)) Hd) as Hadd.
  destruct (add_prepared _ prep) as [t|e|]; [|left; by destruct Hadd as (n & -> & _)|done].
  destruct Hadd as [Hin Hoth].
  assert (exists m', oc_saveToFile save_ok (set_table t m) = (m', if save_ok then None else Some NodeSave) /\
    oc_outbounds m' = t /\ (save_ok = true -> oc_disk m' = with_runtime None <$> t)) as (m' & -> & Et & Edisk)
    by (destruct save_ok; eexists; split_and!; done).
  right. exists prep. rewrite Et. rewrite Forall_forall in Hin. rewrite Forall_forall in Hall. split; [done|]. split.
  { apply Forall_forall. intros c Hc. destruct (Hall c Hc) as ((_ & Hv & _) & Hs & _). done. }
  split; [done|]. split; [|split; [|done]].
  - intros c. split.
    + intros Hc. destruct (Hin c Hc) as [_ E]. split; [done|]. by apply Hall.
    + intros [Hc Hs]. destruct (decide (Name c ∈ Name <$> prep)) as [(c' & E & Hc')%list_elem_of_fmap|Hni].
      * destruct (Hin c' Hc') as [_ E']. rewrite <- E, Hc in E'. by injection E' as ->.
      * rewrite Hoth in Hc by done. apply map_lookup_filter_Some in Hc as [_ Hne]. by destruct Hne.
  - intros name q Hne. destruct (decide (name ∈ Name <$> prep)) as [(c & -> & Hc)%list_elem_of_fmap|Hni].
    + destruct (Hin c Hc) as [Hno E]. rewrite E. split.
      * intros [= ->]. destruct (Hall q Hc) as (_ & Hs & _). done.
      * intros Hq. assert (other_nodes id (oc_outbounds m) !! Name c = Some q) as E2
          by by apply map_lookup_filter_Some. congruence.
    + rewrite Hoth by done. unfold other_nodes. rewrite map_lookup_filter_Some. naive_solver.
Qed.

(** A node renamed to a name in use replaces the node that has it, without an error. *)
Theorem oc_UpdateOutbound_overwrites (h : runtime_heap) (m : ProxyOutboundConfigManager) (name : string)
    (p q old : ProxyOutbound) :
  Validate p = None -> wf_ptr h p -> name <> Name p ->
  oc_outbounds m !! name = Some old -> oc_outbounds m !! Name p = Some q ->
  let '(m', h', err) := oc_UpdateOutbound true h m name p in
  err = None /\ oc_outbounds m' !! name = None /\
  (exists c, oc_outbounds m' !! Name p = Some c /\ config_of c = config_of p) /\
  S (size (oc_outbounds m')) = size (oc_outbounds m).
Proof.
  intros Hv Hw Hne Hold Hq. unfold oc_UpdateOutbound. rewrite Hv, Hold.
  destruct (take_clone h p) as [c h'] eqn:Ec. destruct (take_clone_spec _ _ _ _ Hw Ec) as (r & -> & _).
  rewrite (proj2 (String.eqb_neq _ _)) by done. cbn [negb oc_saveToFile set_table oc_outbounds].
  split; [done|]. split; [by rewrite lookup_insert_ne, lookup_delete_eq by done|]. split.
  - eexists. split; [by rewrite lookup_insert_eq|]. by destruct p.
  - rewrite map_size_insert_Some by (rewrite lookup_delete_ne by done; by exists q).
    rewrite map_size_delete_Some by (by exists old).
    assert (size (oc_outbounds m) <> 0%nat); [|lia]. intros E%map_size_empty_iff. by rewrite E, lookup_empty in Hold.
Qed.

Lemma check_nodes_ok nodes seen :
  Forall (fun p => Validate p = None /\ Name p ∉ seen) nodes -> NoDup (Name <$> nodes) ->
  check_nodes (Some <$> nodes) seen = Ret nodes.
Proof.
  revert seen. induction nodes as [|p nodes IH]; intros seen Hall Hd; [done|].
  apply Forall_cons in Hall as [[Hv Hn] Hall]. rewrite fmap_cons in Hd. apply NoDup_cons in Hd as [Hnew Hd].
  rewrite fmap_cons. cbn [check_nodes]. rewrite Hv. destruct (decide (Name p ∈ seen)) as [|_]; [done|].
  rewrite IH; [done| |done]. rewrite Forall_forall in Hall |- *. intros q Hq. destruct (Hall q Hq) as [? Hni].
  split; [done|]. apply not_elem_of_union. split; [|done]. intros E%elem_of_singleton. apply Hnew. rewrite <- E.
  by apply list_elem_of_fmap_2.
Qed.

Lemma store_nodes_lookup nodes t h :
  NoDup (Name <$> nodes) -> Forall (wf_ptr h) nodes ->
  (forall p, p ∈ nodes -> exists r, (fold_left store_node nodes (t, h)).1 !! Name p = Some (with_runtime (Some r) p)) /\
  (forall name, name ∉ Name <$> nodes -> (fold_left store_node nodes (t, h)).1 !! name = t !! name).
Proof.
  revert t h. induction nodes as [|p nodes IH]; intros t h Hd Hw; [split; [by intros p ?%elem_of_nil|done]|].
  rewrite fmap_cons in Hd. apply NoDup_cons in Hd as [Hnew Hd]. apply Forall_cons in Hw as [Hp Hw].
  cbn [fold_left]. destruct (take_clone h p) as [c h1] eqn:Ec.
  assert (store_node (t, h) p = (<[Name p := c]> t, h1)) as -> by (unfold store_node; cbn [fst snd]; by rewrite Ec).
  destruct (take_clone_spec _ _ _ _ Hp Ec) as (r & -> & _ & Hl & _).
  destruct (IH (<[Name p := with_runtime (Some r) p]> t) h1 Hd) as [IH1 IH2].
  { eapply Forall_impl; [exact Hw|]. intros q Hq k Hk. specialize (Hq k Hk). lia. }
  split.
  - intros q [->|Hq]%elem_of_cons; [|by apply IH1]. exists r. by rewrite IH2, lookup_insert_eq.
  - intros name [Hne Hni]%not_elem_of_cons. rewrite IH2 by done. by rewrite lookup_insert_ne.
Qed.

(** What is written is read back: after a successful write of a well-formed table, loading the
    nodes of the file, in any order, succeeds and gives the table that was written, up
    to the runtimes, which are new. *)
Theorem node_file_roundtrip (h h2 : runtime_heap) (m m2 : ProxyOutboundConfigManager) (file : list ProxyOutbound) :
  table_wf h (oc_outbounds m) ->
  file ≡ₚ (map_to_list (oc_disk (oc_saveToFile true m).1)).*2 ->
  exists m' h', oc_Load h2 m2 (Some <$> file) = Ret (m', h') /\
    with_runtime None <$> oc_outbounds m' = with_runtime None <$> oc_outbounds m.
Proof.
  intros Ht Hf. cbn [oc_saveToFile fst oc_disk] in Hf. set (t := oc_outbounds m) in *.
  assert (forall p, p ∈ file <-> exists name q, t !! name = Some q /\ p = with_runtime None q) as Hin.
  { intros p. rewrite Hf, list_elem_of_fmap. split.
    - intros ([name x] & -> & Hx). apply elem_of_map_to_list in Hx. apply lookup_fmap_Some in Hx as (q & <- & Hq).
      by exists name, q.
    - intros (name & q & Hq & ->). exists (name, with_runtime None q). split; [done|]. apply elem_of_map_to_list.
      by rewrite lookup_fmap, Hq. }
  assert (NoDup (Name <$> file)) as Hd.
  { rewrite Hf. rewrite <- list_fmap_compose.
    assert ((Name ∘ snd) <$> map_to_list (with_runtime None <$> t) = fst <$> map_to_list (with_runtime None <$> t)) as ->;
      [|apply NoDup_fst_map_to_list].
    apply list_fmap_ext. intros i [name x] Hx%list_elem_of_lookup_2%elem_of_map_to_list. cbn.
    apply lookup_fmap_Some in Hx as (q & <- & Hq). by apply Ht in Hq as [? _]. }
  assert (check_nodes (Some <$> file) ∅ = Ret file) as Hc.
  { apply check_nodes_ok; [|done]. apply Forall_forall. intros p (name & q & Hq & ->)%Hin.
    apply Ht in Hq as (_ & Hv & _). rewrite Validate_runtime. split; [done|set_solver]. }
  unfold oc_Load. rewrite Hc. cbn [mbind outcome_bind].
  destruct (store_nodes_lookup file ∅ h2 Hd) as [H1 H2].
  { apply Forall_forall. intros p (name & q & _ & ->)%Hin. by intros k. }
  destruct (fold_left store_node file (∅, h2)) as [t' h']. exists (set_table t' m2), h'. split; [done|].
  cbn [fst] in H1, H2. cbn [oc_outbounds set_table]. apply map_eq. intros name. rewrite !lookup_fmap.
  destruct (t !! name) as [q|] eqn:Hq.
  - assert (with_runtime None q ∈ file) as Hqf by (apply Hin; by exists name, q). destruct (Ht name q Hq) as [Hn _].
    destruct (H1 _ Hqf) as [r Hr]. change (Name (with_runtime None q)) with (Name q) in Hr. rewrite Hn in Hr.
    rewrite Hr. by destruct q.
  - rewrite H2; [done|]. intros (p & -> & (n & q & Hq2 & ->)%Hin)%list_elem_of_fmap.
    change (Name (with_runtime None q)) with (Name q) in Hq. destruct (Ht n q Hq2) as [Hn _]. congruence.
Qed.
End node_file_theorems2.

(** ** Witnesses *)

#[local] Existing Instance ascii_unicode.

Definition file_node (name subscription : string) (r : option runtime_ptr) : ProxyOutbound :=
  {| Name := name; Type_ := "shadowsocks"; Server := "a.example"; Port := 443; Enabled := true; Group := "g";
     SubscriptionID := subscription; SubscriptionName := ""; SubscriptionNodeID := ""; Username := "";
     Method := "aes-256-gcm"; Password := "p"; UUID := ""; AlterID := 0; Security := ""; Flow := ""; Obfs := "";
     ObfsPassword := ""; PortHopping := ""; HopInterval := 0; UpMbps := 0; DownMbps := 0; ALPN := "";
     CertFingerprint := ""; DisableMTU := false; IdleSessionCheckInterval := 0; IdleSessionTimeout := 0;
     MinIdleSession := 0; TLS := false; SNI := ""; Insecure := false; Fingerprint := ""; Reality := false;
     RealityPublicKey := ""; RealityShortID := ""; Network := ""; WSPath := ""; WSHost := ""; XHTTPMode := "";
     GRPCServiceName := ""; GRPCAuthority := ""; TCPLatencyMs := 0; HTTPLatencyMs := 0; UDPAvailable := None;
     UDPLatencyMs := 0; AutoSelectBlocked := false; AutoSelectBlockReason := ""; AutoSelectBlockExpiresAt := None;
     runtime := r |}.

(** Two nodes, one of a subscription. *)
Definition two_node_file : ProxyOutboundConfigManager :=
  {| oc_outbounds := {[ "own" := file_node "own" "" (Some 0%nat); "old" := file_node "old" "s" (Some 1%nat) ]}%string;
     oc_disk := ∅ |}.

Definition two_runtimes : runtime_heap := [zero_runtime; zero_runtime].

Lemma two_node_file_wf : table_wf two_runtimes (oc_outbounds two_node_file).
Proof.
  intros name p Hp. unfold two_node_file in Hp. cbn [oc_outbounds] in Hp.
  apply lookup_insert_Some in Hp as [[<- <-]|[_ [<- <-]%lookup_singleton_Some]].
  - split; [done|]. split; [by vm_compute|]. exists 0%nat. split; [done|cbn; lia].
  - split; [done|]. split; [by vm_compute|]. exists 1%nat. split; [done|cbn; lia].
Qed.

Lemma wf_ptr_none h p : runtime p = None -> wf_ptr h p.
Proof. intros E k. by rewrite E. Qed.

Lemma node_file_invariant_witness :
  Validate (file_node "own" "" (Some 0%nat)) = None /\
  oc_GetOutbound (oc_AddOutbound true [] NewProxyOutboundConfigManager (file_node "own" "" None)).1.1 "own"
    = Some (file_node "own" "" (Some 0%nat)).
Proof.
  assert (oc_GetOutbound (oc_AddOutbound true [] NewProxyOutboundConfigManager (file_node "own" "" None)).1.1 "own"
    = Some (file_node "own" "" (Some 0%nat))) as E by by vm_compute.
  split; [|exact E].
  assert (node_step ([], NewProxyOutboundConfigManager)
    ((oc_AddOutbound true [] NewProxyOutboundConfigManager (file_node "own" "" None)).1.2,
     (oc_AddOutbound true [] NewProxyOutboundConfigManager (file_node "own" "" None)).1.1)) as Hs
    by by apply step_add, wf_ptr_none.
  destruct (node_file_invariant [] _ _ "own" _ (rtc_once _ _ Hs) E) as (_ & _ & Hv & _). exact Hv.
Defined.

Lemma ReplaceSubscriptionOutbounds_spec_witness :
  let '(m, h, err) := ReplaceSubscriptionOutbounds true two_runtimes two_node_file "s" [Some (file_node "new" "s" None)] in
  err = None /\ oc_outbounds m !! "own" = Some (file_node "own" "" (Some 0%nat)) /\ oc_outbounds m !! "old" = None.
Proof.
  pose proof (ReplaceSubscriptionOutbounds_spec true two_runtimes two_node_file "s" [Some (file_node "new" "s" None)]
    two_node_file_wf) as Hs.
  destruct (ReplaceSubscriptionOutbounds _ _ _ _ _) as [[m h] err] eqn:E.
  destruct Hs as [(Hne & _)|(stored & Hf2 & _ & _ & Hst & Hoth & He & _)].
  - constructor; [|constructor]. intros p [= <-]. by apply wf_ptr_none.
  - by vm_compute in E; injection E as _ _ <-.
  - split; [done|]. split; [by apply Hoth|].
    vm_compute in E. injection E as <- _ _. by vm_compute.
Defined.

Lemma node_file_roundtrip_witness :
  exists m' h', oc_Load [] NewProxyOutboundConfigManager
      [Some (file_node "old" "s" None); Some (file_node "own" "" None)] = Ret (m', h') /\
    with_runtime None <$> oc_outbounds m' = with_runtime None <$> oc_outbounds two_node_file.
Proof.
  apply (node_file_roundtrip two_runtimes [] two_node_file NewProxyOutboundConfigManager
    [file_node "old" "s" None; file_node "own" "" None] two_node_file_wf).
  vm_compute. apply perm_swap || reflexivity.
Defined.
