(* ===== verification/SubConfig.v ===== *)
(** * The subscription file: [internal/config/proxy_subscription.go] and
    [internal/config/proxy_subscription_manager.go]

    Normalisation and validation of a subscription and the table behind its file, keyed
    by identifier; no two subscriptions have the same name up to case and outer white
    space.  The file is the table it was last written from; [save_ok] says whether the
    write succeeds. *)

From Stdlib Require Import Strings.String.
From S2P Require Import Prelude GoBytes GoString Config NetURL.

Definition ProxySubscriptionAutoUpdateModeDaily : string := "daily".
Definition ProxySubscriptionAutoUpdateModeInterval : string := "interval".
Definition defaultProxySubscriptionAutoUpdateTime : string := "04:00".
Definition defaultProxySubscriptionAutoUpdateIntervalDays : Z := 1.

Record ProxySubscription := {
  sb_ID : string;
  sb_Name : string;
  sb_URL : string;
  sb_Enabled : bool;
  sb_Group : string;
  sb_ProxyName : string;
  sb_UserAgent : string;
  sb_AutoUpdateEnabled : option bool;
  sb_AutoUpdateMode : string;
  sb_AutoUpdateTime : string;
  sb_AutoUpdateIntervalDays : Z;
  sb_LastAttemptAt : gotime;
  sb_LastUpdatedAt : gotime;
  sb_LastNodeCount : Z;
  sb_LastAdded : Z;
  sb_LastUpdated : Z;
  sb_LastRemoved : Z;
  sb_LastUploadBytes : Z;
  sb_LastDownloadBytes : Z;
  sb_LastTotalBytes : Z;
  sb_LastExpireAt : gotime;
  sb_LastError : string;
}.

Section subscription.
Context `{Unicode}.

Definition normalizeProxySubscriptionAutoUpdateMode (mode : string) : string :=
  let m := lower_trim mode in
  if String.eqb m "" || String.eqb m ProxySubscriptionAutoUpdateModeDaily then ProxySubscriptionAutoUpdateModeDaily else m.

Definition normalizeProxySubscriptionAutoUpdateTime (value : string) : string :=
  let trimmed := trim_space value in
  if String.eqb trimmed "" then defaultProxySubscriptionAutoUpdateTime else trimmed.

Definition parseProxySubscriptionAutoUpdateTime (value : string) : option (Z * Z) := parse_clock (trim_space value).

Definition sb_ApplyDefaults (s : ProxySubscription) : ProxySubscription :=
  {| sb_ID := trim_space (sb_ID s); sb_Name := trim_space (sb_Name s); sb_URL := trim_space (sb_URL s);
     sb_Enabled := sb_Enabled s; sb_Group := trim_space (sb_Group s); sb_ProxyName := trim_space (sb_ProxyName s);
     sb_UserAgent := if String.eqb (trim_space (sb_UserAgent s)) "" then "Mozilla/5.0" else trim_space (sb_UserAgent s);
     sb_AutoUpdateEnabled := sb_AutoUpdateEnabled s;
     sb_AutoUpdateMode := normalizeProxySubscriptionAutoUpdateMode (sb_AutoUpdateMode s);
     sb_AutoUpdateTime := normalizeProxySubscriptionAutoUpdateTime (sb_AutoUpdateTime s);
     sb_AutoUpdateIntervalDays :=
       if sb_AutoUpdateIntervalDays s <=? 0 then defaultProxySubscriptionAutoUpdateIntervalDays else sb_AutoUpdateIntervalDays s;
     sb_LastAttemptAt := sb_LastAttemptAt s; sb_LastUpdatedAt := sb_LastUpdatedAt s; sb_LastNodeCount := sb_LastNodeCount s;
     sb_LastAdded := sb_LastAdded s; sb_LastUpdated := sb_LastUpdated s; sb_LastRemoved := sb_LastRemoved s;
     sb_LastUploadBytes := sb_LastUploadBytes s; sb_LastDownloadBytes := sb_LastDownloadBytes s;
     sb_LastTotalBytes := sb_LastTotalBytes s; sb_LastExpireAt := sb_LastExpireAt s; sb_LastError := sb_LastError s |}.

Definition IsAutoUpdateEnabled (s : ProxySubscription) : bool := default true (sb_AutoUpdateEnabled s).

Definition GetAutoUpdateMode (s : ProxySubscription) : string :=
  normalizeProxySubscriptionAutoUpdateMode (sb_AutoUpdateMode s).

Definition GetAutoUpdateTime (s : ProxySubscription) : string :=
  normalizeProxySubscriptionAutoUpdateTime (sb_AutoUpdateTime s).

Definition GetAutoUpdateIntervalDays (s : ProxySubscription) : Z :=
  if sb_AutoUpdateIntervalDays s <=? 0 then defaultProxySubscriptionAutoUpdateIntervalDays else sb_AutoUpdateIntervalDays s.

Definition url_check (value : string) : option cfg_err :=
  match url_Parse value with
  | None => Some (CfgInvalid "url")
  | Some u =>
      if negb (String.eqb (u_Scheme u) "http") && negb (String.eqb (u_Scheme u) "https") then Some (CfgInvalid "url scheme")
      else if String.eqb (u_Host u) "" then Some (CfgRequired "url host") else None
  end.

Definition update_mode_check (s : ProxySubscription) : option cfg_err :=
  if String.eqb (GetAutoUpdateMode s) ProxySubscriptionAutoUpdateModeDaily then
    match parseProxySubscriptionAutoUpdateTime (GetAutoUpdateTime s) with
    | Some _ => None
    | None => Some (CfgInvalid "auto_update_time")
    end
  else if String.eqb (GetAutoUpdateMode s) ProxySubscriptionAutoUpdateModeInterval then
    check (GetAutoUpdateIntervalDays s <? 1) (CfgInvalid "auto_update_interval_days")
  else Some (CfgInvalid "auto_update_mode").

Definition sb_check (s : ProxySubscription) : option cfg_err :=
  first_error [
    check (String.eqb (sb_ID s) "") (CfgRequired "id");
    check (String.eqb (sb_Name s) "") (CfgRequired "name");
    check (String.eqb (sb_URL s) "") (CfgRequired "url");
    url_check (sb_URL s);
    update_mode_check s].

Definition sb_Validate (s : ProxySubscription) : ProxySubscription * option cfg_err :=
  let s := sb_ApplyDefaults s in (s, sb_check s).

(** ** The table *)

Inductive sub_err :=
| SubNil
| SubInvalid (e : cfg_err)
| SubIDExists (id : string)
| SubNameExists (name : string)
| SubNotFound (id : string)
| SubSave.

Record ProxySubscriptionConfigManager := {
  sm_subs : gmap string ProxySubscription;
  sm_disk : gmap string ProxySubscription;
}.

Definition NewProxySubscriptionConfigManager : ProxySubscriptionConfigManager := {| sm_subs := ∅; sm_disk := ∅ |}.

Definition sm_saveToFile (save_ok : bool) (m : ProxySubscriptionConfigManager)
  : ProxySubscriptionConfigManager * option sub_err :=
  if save_ok then ({| sm_subs := sm_subs m; sm_disk := sm_subs m |}, None) else (m, Some SubSave).

Definition with_subs (subs : gmap string ProxySubscription) (m : ProxySubscriptionConfigManager)
  : ProxySubscriptionConfigManager := {| sm_subs := subs; sm_disk := sm_disk m |}.

Definition normalizeProxySubscriptionName (name : string) : string := lower_trim name.

(** [Load] of the decoded file. *)
Fixpoint load_subs (configs : list (option ProxySubscription)) (loaded : gmap string ProxySubscription)
    (seenNames : gset string) : outcome sub_err (gmap string ProxySubscription) :=
  match configs with
  | [] => Ret loaded
  | None :: rest => load_subs rest loaded seenNames
  | Some cfg :: rest =>
      let '(cfg, err) := sb_Validate cfg in
      match err with
      | Some e => Err (SubInvalid e)
      | None =>
          match loaded !! sb_ID cfg with
          | Some _ => Err (SubIDExists (sb_ID cfg))
          | None =>
              let key := normalizeProxySubscriptionName (sb_Name cfg) in
              if decide (key ∈ seenNames) then Err (SubNameExists (sb_Name cfg))
              else load_subs rest (<[sb_ID cfg := cfg]> loaded) ({[key]} ∪ seenNames)
          end
      end
  end.

Definition sm_Load (m : ProxySubscriptionConfigManager) (configs : list (option ProxySubscription))
  : ProxySubscriptionConfigManager * option sub_err :=
  match load_subs configs ∅ ∅ with
  | Ret subs => (with_subs subs m, None)
  | Err e => (m, Some e)
  | Panic => (m, None)
  end.

Definition GetSubscription (m : ProxySubscriptionConfigManager) (id : string) : option ProxySubscription := sm_subs m !! id.

(** Sorted by name in lower case; [order] is the order [sort.Slice] gives. *)
Definition GetAllSubscriptions (m : ProxySubscriptionConfigManager) (order : list string) : list ProxySubscription :=
  omap (fun id => sm_subs m !! id) order.

Definition name_taken (subs : gmap string ProxySubscription) (existingID key : string) : bool :=
  existsb (fun '(id, s) => negb (String.eqb id existingID)
                           && String.eqb (normalizeProxySubscriptionName (sb_Name s)) key) (map_to_list subs).

Definition ensureUniqueLocked (m : ProxySubscriptionConfigManager) (cfg : ProxySubscription) (existingID : string)
  : option sub_err :=
  if String.eqb (sb_ID cfg) "" then Some (SubInvalid (CfgRequired "id")) else
  if bool_decide (is_Some (sm_subs m !! sb_ID cfg))
     && (String.eqb existingID "" || negb (String.eqb (sb_ID cfg) existingID))
  then Some (SubIDExists (sb_ID cfg)) else
  if name_taken (sm_subs m) existingID (normalizeProxySubscriptionName (sb_Name cfg))
  then Some (SubNameExists (sb_Name cfg)) else None.

Definition AddSubscription (save_ok : bool) (m : ProxySubscriptionConfigManager) (cfg : option ProxySubscription)
  : ProxySubscriptionConfigManager * option sub_err :=
  match cfg with
  | None => (m, Some SubNil)
  | Some cfg =>
      let '(clone, err) := sb_Validate cfg in
      match err with
      | Some e => (m, Some (SubInvalid e))
      | None =>
          match ensureUniqueLocked m clone "" with
          | Some e => (m, Some e)
          | None => sm_saveToFile save_ok (with_subs (<[sb_ID clone := clone]> (sm_subs m)) m)
          end
      end
  end.

Definition sm_UpdateSubscription (save_ok : bool) (m : ProxySubscriptionConfigManager) (id : string)
    (cfg : option ProxySubscription) : ProxySubscriptionConfigManager * option sub_err :=
  match cfg with
  | None => (m, Some SubNil)
  | Some cfg =>
      let '(clone, err) := sb_Validate cfg in
      match err with
      | Some e => (m, Some (SubInvalid e))
      | None =>
          match sm_subs m !! id with
          | None => (m, Some (SubNotFound id))
          | Some _ =>
              match ensureUniqueLocked m clone id with
              | Some e => (m, Some e)
              | None =>
                  let subs := if negb (String.eqb id (sb_ID clone)) then delete id (sm_subs m) else sm_subs m in
                  sm_saveToFile save_ok (with_subs (<[sb_ID clone := clone]> subs) m)
              end
          end
      end
  end.

Definition DeleteSubscription (save_ok : bool) (m : ProxySubscriptionConfigManager) (id : string)
  : ProxySubscriptionConfigManager * option sub_err :=
  match sm_subs m !! id with
  | None => (m, Some (SubNotFound id))
  | Some _ => sm_saveToFile save_ok (with_subs (delete id (sm_subs m)) m)
  end.
End subscription.

#[global] Arguments sb_ApplyDefaults : simpl never.
#[global] Arguments sb_check : simpl never.

(** * Facts *)

Section sub_facts.
Context `{Unicode}.

Definition name_key (s : ProxySubscription) : string := normalizeProxySubscriptionName (sb_Name s).

Definition subs_wf (subs : gmap string ProxySubscription) : Prop :=
  (forall id s, subs !! id = Some s -> sb_ID s = id /\ exists cfg, sb_Validate cfg = (s, None)) /\
  unique_by name_key subs.

Lemma sb_Validate_id cfg s : sb_Validate cfg = (s, None) -> sb_ID s <> ""%string.
Proof.
  unfold sb_Validate. generalize (sb_ApplyDefaults cfg). intros q. cbv zeta. intros [= -> Hv] Hid.
  unfold sb_check in Hv. rewrite Hid in Hv. discriminate Hv.
Qed.

Lemma subs_wf_insert subs cfg s :
  subs_wf subs -> sb_Validate cfg = (s, None) ->
  (forall i q, subs !! i = Some q -> name_key q = name_key s -> i = sb_ID s) -> subs_wf (<[sb_ID s := s]> subs).
Proof.
  intros [Hs Hu] Hv Hk. split; [|by apply unique_by_insert].
  intros i q [[<- <-]|[_ Hi]]%lookup_insert_Some; [by eauto|by apply Hs].
Qed.

Lemma subs_wf_delete subs id : subs_wf subs -> subs_wf (delete id subs).
Proof.
  intros [Hs Hu]. split; [|by apply unique_by_delete]. intros i s [_ Hi]%lookup_delete_Some. by apply Hs.
Qed.

Lemma name_taken_spec subs existingID key :
  name_taken subs existingID key = false <-> forall i q, subs !! i = Some q -> name_key q = key -> i = existingID.
Proof.
  unfold name_taken. rewrite <- not_true_iff_false, existsb_exists. split.
  - intros Hn i q Hi Hk. destruct (decide (i = existingID)) as [|Hne]; [done|]. destruct Hn.
    exists (i, q). rewrite <- list_elem_of_In, elem_of_map_to_list. split; [done|].
    rewrite (proj2 (String.eqb_neq _ _)) by done. by apply String.eqb_eq.
  - intros Ha ([i q] & Hin & Hb). rewrite <- list_elem_of_In, elem_of_map_to_list in Hin.
    apply andb_true_iff in Hb as [Hne%negb_true_iff%String.eqb_neq Hk%String.eqb_eq]. by apply Hne, (Ha i q).
Qed.

Lemma ensureUnique_None m cfg existingID :
  ensureUniqueLocked m cfg existingID = None ->
  (is_Some (sm_subs m !! sb_ID cfg) -> sb_ID cfg = existingID) /\
  (forall i q, sm_subs m !! i = Some q -> name_key q = name_key cfg -> i = existingID).
Proof.
  unfold ensureUniqueLocked. destruct (String.eqb (sb_ID cfg) ""); [done|].
  destruct (bool_decide (is_Some _) && _) eqn:E1; [done|]. destruct (name_taken _ _ _) eqn:E2; [done|]. intros _.
  rewrite name_taken_spec in E2. split; [|exact E2]. intros Hs. rewrite bool_decide_true in E1 by done.
  apply orb_false_iff in E1 as [_ E1%negb_false_iff%String.eqb_eq]. exact E1.
Qed.

Lemma load_subs_wf configs loaded seen subs :
  subs_wf loaded -> (forall i s, loaded !! i = Some s -> name_key s ∈ seen) ->
  load_subs configs loaded seen = Ret subs -> subs_wf subs.
Proof.
  revert loaded seen. induction configs as [|[cfg|] rest IH]; intros loaded seen Hwf Hseen; cbn [load_subs].
  - by intros [= <-].
  - destruct (sb_Validate cfg) as [s [e|]] eqn:Hv; [done|]. destruct (loaded !! sb_ID s) eqn:Hid; [done|].
    fold (name_key s). destruct (decide (name_key s ∈ seen)) as [|Hn]; [done|]. apply IH.
    + eapply subs_wf_insert; [done|done|]. intros i q Hi Hk. apply Hseen in Hi. congruence.
    + intros i q [[_ <-]|[_ Hi]]%lookup_insert_Some; [set_solver|]. apply Hseen in Hi. set_solver.
  - by apply IH.
Qed.

Lemma sm_saveToFile_subs ok m : sm_subs (sm_saveToFile ok m).1 = sm_subs m.
Proof. by destruct ok. Qed.

Lemma subs_wf_empty : subs_wf ∅.
Proof. split; [|apply unique_by_empty]. intros i s Hi. by rewrite lookup_empty in Hi. Qed.

Inductive sub_op :=
| SubLoad (configs : list (option ProxySubscription))
| SubAdd (save_ok : bool) (cfg : option ProxySubscription)
| SubUpdate (save_ok : bool) (id : string) (cfg : option ProxySubscription)
| SubDelete (save_ok : bool) (id : string).

Definition run_sub_op (m : ProxySubscriptionConfigManager) (o : sub_op) : ProxySubscriptionConfigManager :=
  match o with
  | SubLoad configs => (sm_Load m configs).1
  | SubAdd ok cfg => (AddSubscription ok m cfg).1
  | SubUpdate ok id cfg => (sm_UpdateSubscription ok m id cfg).1
  | SubDelete ok id => (DeleteSubscription ok m id).1
  end.

Lemma run_sub_op_wf m o : subs_wf (sm_subs m) -> subs_wf (sm_subs (run_sub_op m o)).
Proof.
  intros Hm. destruct o as [configs|ok cfg|ok id cfg|ok id]; cbn [run_sub_op].
  - unfold sm_Load. destruct (load_subs configs ∅ ∅) as [subs|e|] eqn:El; [|done..].
    apply (load_subs_wf configs ∅ ∅ subs subs_wf_empty); [|exact El]. intros i s Hi. by rewrite lookup_empty in Hi.
  - unfold AddSubscription. destruct cfg as [cfg|]; [|done]. destruct (sb_Validate cfg) as [s [e|]] eqn:Hv; [done|].
    destruct (ensureUniqueLocked m s "") as [e|] eqn:Eu; [done|]. apply ensureUnique_None in Eu as [_ Hk].
    rewrite sm_saveToFile_subs. eapply subs_wf_insert; [done|done|]. intros i q Hi Hkey. exfalso.
    destruct Hm as [Hs _]. destruct (Hs i q Hi) as [E [c Hc]]. pose proof (sb_Validate_id _ _ Hc) as Hne.
    apply Hne. rewrite E. by eapply Hk.
  - unfold sm_UpdateSubscription. destruct cfg as [cfg|]; [|done]. destruct (sb_Validate cfg) as [s [e|]] eqn:Hv; [done|].
    destruct (sm_subs m !! id) as [old|] eqn:Hold; [|done]. destruct (ensureUniqueLocked m s id) as [e|] eqn:Eu; [done|].
    apply ensureUnique_None in Eu as [_ Hk]. rewrite sm_saveToFile_subs. cbn [sm_subs with_subs].
    destruct (String.eqb_spec id (sb_ID s)) as [->|Hne]; cbn [negb]; [by eapply subs_wf_insert|].
    eapply subs_wf_insert; [by apply subs_wf_delete|done|].
    intros i q [Hi Hq]%lookup_delete_Some Hkey. destruct Hi. symmetry. by eapply Hk.
  - unfold DeleteSubscription. destruct (sm_subs m !! id); [|done]. rewrite sm_saveToFile_subs. by apply subs_wf_delete.
Qed.

(** After any sequence of loads, additions, updates and deletions of subscriptions, whether or
    not the file can be written: each is stored under its own non-empty identifier, is
    valid with its defaults, and no two have the same name up to case and outer space. *)
Theorem subscriptions_invariant (l : list sub_op) :
  let subs := sm_subs (fold_left run_sub_op l NewProxySubscriptionConfigManager) in
  (forall id s, subs !! id = Some s ->
     sb_ID s = id /\ id <> ""%string /\ exists cfg, s = sb_ApplyDefaults cfg /\ sb_check s = None) /\
  (forall i j s q, subs !! i = Some s -> subs !! j = Some q ->
     normalizeProxySubscriptionName (sb_Name s) = normalizeProxySubscriptionName (sb_Name q) -> i = j).
Proof.
  intros subs. assert (subs_wf subs) as Hwf.
  { unfold subs. assert (subs_wf (sm_subs NewProxySubscriptionConfigManager)) as H0 by apply subs_wf_empty.
    revert H0. generalize NewProxySubscriptionConfigManager. induction l as [|o l IH]; intros m Hm; [done|].
    by apply IH, run_sub_op_wf. }
  split; [|apply Hwf]. intros id s Hi. destruct Hwf as [Hs _]. destruct (Hs id s Hi) as [Hid [cfg Hc]].
  pose proof (sb_Validate_id _ _ Hc) as Hne. unfold sb_Validate in Hc. injection Hc as Hc1 Hc2.
  split; [done|]. split; [congruence|]. exists cfg. by rewrite <- Hc1.
Qed.
End sub_facts.
