(* ===== verification/OutboundManager.v ===== *)
(** * The outbound manager: [internal/proxy/outbound_manager.go]

    The state of [outboundManagerImpl], the table of nodes (addition, update,
    deletion with the cascade to the server configurations), the latency tables,
    the pinned nodes and the group statistics.  Dialling and the
    creation of sing-box outbounds are in [Dial.v], the selection of a node in
    [Selection.v].

    Every operation that holds a mutex is one step.  A stored node is its
    structure; its runtime is reached through the runtime heap, so that clones
    and tracked connections see the same counters.  Sing-box outbounds are
    identified by a number; closing one is recorded.  Each operation reads the
    clock once. *)

From Stdlib Require Import Strings.String Strings.Ascii.
From S2P Require Import Prelude GoBytes GoString Config Outbound LoadBalancer Latency.

(** ** Constants and errors *)

Definition DirectNodeName : string := "direct".

Definition OutboundIdleTimeout : Z := 5 * minute.
Definition serverNodeLatencyCacheTTL : Z := 30 * minute.
Definition serverNodeLatencyHistoryRetention : Z := 5 * 24 * hour.
Definition serverNodeLatencyHistoryLimit : Z := 1000.

Inductive om_err :=
| ErrNilConfig
| ErrValidate (e : validate_err)
| ErrOutboundNotFound
| ErrOutboundExists
| ErrOutboundUnhealthy
| ErrOutboundDisabled
| ErrGroupNotFound
| ErrNoHealthyNodes
| ErrAllFailoversFailed.

(** ** Names that are subscription metadata

    The regular expression
    [(?i)^(word|...)\s*[:]] with an ASCII or full-width colon, on UTF-8 bytes. *)

Definition metadata_words : list string :=
  ["剩余流量"; "套餐到期"; "到期时间"; "过期时间"; "流量重置"; "订阅信息"; "订阅更新时间"; "更新时间";
   "使用说明"; "官网"; "公告"; "客服"; "telegram"; "tg"; "email"; "邮箱"]%string.

(** The rest of the bytes after a word, ignoring the case of ASCII letters. *)
Fixpoint strip_word (w s : bytes) : option bytes :=
  match w, s with
  | [], _ => Some s
  | a :: w, b :: s => if decide (lower_byte a = lower_byte b) then strip_word w s else None
  | _ :: _, [] => None
  end.

(** [\s] is a tab, a line feed, a form feed, a carriage return or a space. *)
Definition regexp_space (b : byte) : bool :=
  existsb (Z.eqb (b2z b)) [9; 10; 12; 13; 32].

Fixpoint colon_after_space (s : bytes) : bool :=
  match s with
  | [] => false
  | a :: r =>
      (b2z a =? 58)
      || match r with
         | b :: c :: _ => (b2z a =? 0xef) && (b2z b =? 0xbc) && (b2z c =? 0x9a)
         | _ => false
         end
      || (regexp_space a && colon_after_space r)
  end.

Definition isMetadataLikeOutboundName (name : string) : bool :=
  let s := bytes_of (trim_space name) in
  existsb (fun w => match strip_word (bytes_of w) s with
                    | Some rest => colon_after_space rest
                    | None => false
                    end) metadata_words.

(** ** State *)

Abbreviation singbox_id := nat (only parsing).

(** Server, node and sort. *)
Abbreviation node_key := (string * string * string)%type (only parsing).

Record latency_value := { lv_latencyMs : Z; lv_updatedAt : gotime }.

Record outboundManagerImpl := {
  om_globalConfig : option GlobalConfig;
  om_outbounds : gmap string ProxyOutbound;
  om_runtimes : runtime_heap;
  om_singbox : gmap string singbox_id;
  om_singboxLastUsed : gmap string gotime;
  om_closed : list singbox_id;
  om_serverNodeLatency : gmap node_key latency_value;
  om_serverNodeHistory : gmap node_key history;
  om_outboundHistory : gmap (string * string) history;
  om_serverSelectedNode : gmap string string;
  om_serverManualNode : gmap string bool;
}.

Definition NewOutboundManager (gc : option GlobalConfig) : outboundManagerImpl :=
  {| om_globalConfig := gc; om_outbounds := ∅; om_runtimes := []; om_singbox := ∅;
     om_singboxLastUsed := ∅; om_closed := []; om_serverNodeLatency := ∅; om_serverNodeHistory := ∅;
     om_outboundHistory := ∅; om_serverSelectedNode := ∅; om_serverManualNode := ∅ |}.

Definition set_nodes (nodes : gmap string ProxyOutbound) (h : runtime_heap) (m : outboundManagerImpl)
  : outboundManagerImpl :=
  {| om_globalConfig := om_globalConfig m; om_outbounds := nodes; om_runtimes := h;
     om_singbox := om_singbox m; om_singboxLastUsed := om_singboxLastUsed m; om_closed := om_closed m;
     om_serverNodeLatency := om_serverNodeLatency m; om_serverNodeHistory := om_serverNodeHistory m;
     om_outboundHistory := om_outboundHistory m; om_serverSelectedNode := om_serverSelectedNode m;
     om_serverManualNode := om_serverManualNode m |}.

Definition set_singbox (sb : gmap string singbox_id) (used : gmap string gotime) (closed : list singbox_id)
    (m : outboundManagerImpl) : outboundManagerImpl :=
  {| om_globalConfig := om_globalConfig m; om_outbounds := om_outbounds m; om_runtimes := om_runtimes m;
     om_singbox := sb; om_singboxLastUsed := used; om_closed := closed;
     om_serverNodeLatency := om_serverNodeLatency m; om_serverNodeHistory := om_serverNodeHistory m;
     om_outboundHistory := om_outboundHistory m; om_serverSelectedNode := om_serverSelectedNode m;
     om_serverManualNode := om_serverManualNode m |}.

Definition set_latency (v : gmap node_key latency_value) (hs : gmap node_key history)
    (ho : gmap (string * string) history) (m : outboundManagerImpl) : outboundManagerImpl :=
  {| om_globalConfig := om_globalConfig m; om_outbounds := om_outbounds m; om_runtimes := om_runtimes m;
     om_singbox := om_singbox m; om_singboxLastUsed := om_singboxLastUsed m; om_closed := om_closed m;
     om_serverNodeLatency := v; om_serverNodeHistory := hs; om_outboundHistory := ho;
     om_serverSelectedNode := om_serverSelectedNode m; om_serverManualNode := om_serverManualNode m |}.

Definition set_pins (sel : gmap string string) (man : gmap string bool) (m : outboundManagerImpl)
  : outboundManagerImpl :=
  {| om_globalConfig := om_globalConfig m; om_outbounds := om_outbounds m; om_runtimes := om_runtimes m;
     om_singbox := om_singbox m; om_singboxLastUsed := om_singboxLastUsed m; om_closed := om_closed m;
     om_serverNodeLatency := om_serverNodeLatency m; om_serverNodeHistory := om_serverNodeHistory m;
     om_outboundHistory := om_outboundHistory m; om_serverSelectedNode := sel;
     om_serverManualNode := man |}.

(** ** The server configurations, as the manager sees them

    [GetServer] is the optional interface [serverConfigGetter]; the manager also
    works without a [ServerConfigUpdater]. *)

Class ServerConfigUpdater (S : Type) := {
  scu_servers : S -> gmap string ServerConfig;
  scu_UpdateServerProxyOutbound : S -> string -> string -> S * option cfg_err;
  scu_update_present : forall s id o sc, scu_servers s !! id = Some sc ->
    exists sc', scu_servers (scu_UpdateServerProxyOutbound s id o).1 = <[id := sc']> (scu_servers s) /\
      sc_ProxyOutbound sc' = o /\ sc_ID sc' = sc_ID sc;
  scu_update_absent : forall s id o, scu_servers s !! id = None ->
    scu_servers (scu_UpdateServerProxyOutbound s id o).1 = scu_servers s;
}.

Abbreviation server_getter := (string -> option ServerConfig) (only parsing).

Section manager.
Context `{Unicode}.

(** ** Latency tables *)

Definition latencyHistoryRetention (m : outboundManagerImpl) : Z :=
  match om_globalConfig m with
  | None => serverNodeLatencyHistoryRetention
  | gc => i64 (GetLatencyHistoryRetentionDays gc * (24 * hour))
  end.

Definition latencyHistoryStorageLimit (m : outboundManagerImpl) : Z :=
  match om_globalConfig m with
  | None => serverNodeLatencyHistoryLimit
  | gc => GetLatencyHistoryStorageLimit gc
  end.

Definition latencyHistoryMinIntervalMs (m : outboundManagerImpl) : Z :=
  match om_globalConfig m with
  | None => 0
  | gc => Z.quot (i64 (GetLatencyHistoryMinIntervalMinutes gc * minute)) millisecond
  end.

Definition coalesceLatencyHistoryMinIntervalMs (defaultMinGapMs overrideMs : Z) : Z :=
  if overrideMs <=? 0 then defaultMinGapMs
  else if (defaultMinGapMs <=? 0) || (overrideMs <? defaultMinGapMs) then overrideMs
  else defaultMinGapMs.

Definition serverLatencyHistoryMinIntervalMs (getter : option server_getter) (m : outboundManagerImpl)
    (serverID : string) : Z :=
  let base := latencyHistoryMinIntervalMs m in
  match getter with
  | None => base
  | Some get =>
      let serverID := trim_space serverID in
      if String.eqb serverID "" || has_prefix serverID "proxy-port:" then base else
      match get serverID with
      | None => base
      | Some sc =>
          if negb (IsAutoPingEnabled sc) then base else
          let minutes := sc_AutoPingIntervalMinutes sc in
          let minutes :=
            if (minutes <=? 0) && bool_decide (is_Some (om_globalConfig m))
            then GetServerAutoPingIntervalMinutesDefault (om_globalConfig m) else minutes in
          if minutes <=? 0 then base else
          coalesceLatencyHistoryMinIntervalMs base (Z.quot (i64 (minutes * minute)) millisecond)
      end
  end.

Definition normalizeSortBy (sortBy : string) : string :=
  let s := to_lower (trim_space sortBy) in
  if String.eqb s LoadBalanceSortTCP then LoadBalanceSortTCP
  else if String.eqb s LoadBalanceSortHTTP then LoadBalanceSortHTTP
  else LoadBalanceSortUDP.

Definition outboundSupportsUDP (o : ProxyOutbound) : bool := negb (String.eqb (Type_ o) ProtocolHTTP).

Definition outboundSupportsSort (o : ProxyOutbound) (sortBy : string) : bool :=
  if String.eqb (normalizeSortBy sortBy) LoadBalanceSortUDP then outboundSupportsUDP o else true.

(** [recordedAt] is the clock when it is the zero time. *)
Definition recorded (now recordedAt : gotime) : gotime :=
  if is_zero_time recordedAt then now else recordedAt.

Definition setServerNodeLatencyAt (getter : option server_getter) (now : gotime) (m : outboundManagerImpl)
    (serverID nodeName sortBy : string) (latencyMs : Z) (recordedAt : gotime) : outboundManagerImpl :=
  let serverID := trim_space serverID in
  let nodeName := trim_space nodeName in
  if String.eqb serverID "" || String.eqb nodeName "" then m else
  let sortBy := normalizeSortBy sortBy in
  let recordedAt := recorded now recordedAt in
  let key := (serverID, nodeName, sortBy) in
  let h := history_append (default [] (om_serverNodeHistory m !! key))
             {| Timestamp := unix_milli recordedAt; LatencyMs := latencyMs; OK := 0 <? latencyMs |}
             (latencyHistoryRetention m) (serverLatencyHistoryMinIntervalMs getter m serverID)
             (latencyHistoryStorageLimit m) in
  set_latency
    (<[key := {| lv_latencyMs := latencyMs; lv_updatedAt := recordedAt |}]> (om_serverNodeLatency m))
    (<[key := h]> (om_serverNodeHistory m)) (om_outboundHistory m) m.

Definition SetServerNodeLatency (getter : option server_getter) (now : gotime) (m : outboundManagerImpl)
    (serverID nodeName sortBy : string) (latencyMs : Z) : outboundManagerImpl :=
  setServerNodeLatencyAt getter now m serverID nodeName sortBy latencyMs now.

(** [None] is [(0, false)]. *)
Definition GetServerNodeLatency (now : gotime) (m : outboundManagerImpl)
    (serverID nodeName sortBy : string) : option Z :=
  let serverID := trim_space serverID in
  let nodeName := trim_space nodeName in
  if String.eqb serverID "" || String.eqb nodeName "" then None else
  match om_serverNodeLatency m !! (serverID, nodeName, normalizeSortBy sortBy) with
  | None => None
  | Some v =>
      if negb (is_zero_time (lv_updatedAt v))
         && (serverNodeLatencyCacheTTL <? time_sub now (lv_updatedAt v)) then None
      else if lv_latencyMs v <=? 0 then None
      else Some (lv_latencyMs v)
  end.

(** The samples to show and the history to keep. *)
Definition read_history (now : gotime) (m : outboundManagerImpl) (h : history)
  : list LatencySample * option history :=
  let cutoff := unix_milli (now - latencyHistoryRetention m) in
  match filtered h cutoff with
  | [] => ([], None)
  | samples => (samples, if (compact h cutoff).2 then None else Some (compact h cutoff).1)
  end.

Definition GetServerNodeLatencyHistory (now : gotime) (m : outboundManagerImpl)
    (serverID nodeName sortBy : string) : outboundManagerImpl * list LatencySample :=
  let serverID := trim_space serverID in
  let nodeName := trim_space nodeName in
  if String.eqb serverID "" || String.eqb nodeName "" then (m, []) else
  let key := (serverID, nodeName, normalizeSortBy sortBy) in
  match om_serverNodeHistory m !! key with
  | None => (m, [])
  | Some h =>
      let '(samples, keep) := read_history now m h in
      (set_latency (om_serverNodeLatency m) (partial_alter (fun _ => keep) key (om_serverNodeHistory m))
         (om_outboundHistory m) m, samples)
  end.

(** [compact] on every history; the empty ones are deleted. *)
Definition compact_opt (cutoff : Z) (h : history) : option history :=
  let '(h, empty) := compact h cutoff in if empty then None else Some h.

Definition cleanupExpiredServerNodeLatencyHistory (now : gotime) (m : outboundManagerImpl)
  : outboundManagerImpl :=
  let cutoff := unix_milli (now - latencyHistoryRetention m) in
  set_latency (om_serverNodeLatency m) (omap (compact_opt cutoff) (om_serverNodeHistory m))
    (om_outboundHistory m) m.

Definition setOutboundLatencyAt (now : gotime) (m : outboundManagerImpl) (name sortBy : string)
    (latencyMs : Z) (recordedAt : gotime) (minIntervalOverrideMs : Z) : outboundManagerImpl :=
  let name := trim_space name in
  if String.eqb name "" then m else
  let key := (name, normalizeSortBy sortBy) in
  let recordedAt := recorded now recordedAt in
  let latencyMs := if latencyMs <? 0 then 0 else latencyMs in
  let h := history_append (default [] (om_outboundHistory m !! key))
             {| Timestamp := unix_milli recordedAt; LatencyMs := latencyMs; OK := 0 <? latencyMs |}
             (latencyHistoryRetention m)
             (coalesceLatencyHistoryMinIntervalMs (latencyHistoryMinIntervalMs m) minIntervalOverrideMs)
             (latencyHistoryStorageLimit m) in
  set_latency (om_serverNodeLatency m) (om_serverNodeHistory m) (<[key := h]> (om_outboundHistory m)) m.

Definition SetOutboundLatency (now : gotime) (m : outboundManagerImpl) (name sortBy : string)
    (latencyMs : Z) : outboundManagerImpl :=
  setOutboundLatencyAt now m name sortBy latencyMs now 0.

Definition GetOutboundLatencyHistory (now : gotime) (m : outboundManagerImpl) (name sortBy : string)
  : outboundManagerImpl * list LatencySample :=
  let name := trim_space name in
  if String.eqb name "" then (m, []) else
  let key := (name, normalizeSortBy sortBy) in
  match om_outboundHistory m !! key with
  | None => (m, [])
  | Some h =>
      let '(samples, keep) := read_history now m h in
      (set_latency (om_serverNodeLatency m) (om_serverNodeHistory m)
         (partial_alter (fun _ => keep) key (om_outboundHistory m)) m, samples)
  end.

Definition cleanupExpiredOutboundLatencyHistory (now : gotime) (m : outboundManagerImpl)
  : outboundManagerImpl :=
  let cutoff := unix_milli (now - latencyHistoryRetention m) in
  set_latency (om_serverNodeLatency m) (om_serverNodeHistory m)
    (omap (compact_opt cutoff) (om_outboundHistory m)) m.

(** ** Pinned nodes *)

Definition GetServerSelectedNode (m : outboundManagerImpl) (serverID : string) : option string :=
  let serverID := trim_space serverID in
  if String.eqb serverID "" then None else
  match om_serverSelectedNode m !! serverID with
  | Some node => if String.eqb node "" then None else Some node
  | None => None
  end.

Definition SetServerSelectedNode (m : outboundManagerImpl) (serverID nodeName : string)
  : outboundManagerImpl :=
  let serverID := trim_space serverID in
  if String.eqb serverID "" then m else
  set_pins
    (if String.eqb nodeName "" then delete serverID (om_serverSelectedNode m)
     else <[serverID := nodeName]> (om_serverSelectedNode m))
    (delete serverID (om_serverManualNode m)) m.

Definition SetServerSelectedNodeManual (m : outboundManagerImpl) (serverID nodeName : string)
  : outboundManagerImpl :=
  let serverID := trim_space serverID in
  if String.eqb serverID "" then m else
  if String.eqb nodeName ""
  then set_pins (delete serverID (om_serverSelectedNode m)) (delete serverID (om_serverManualNode m)) m
  else set_pins (<[serverID := nodeName]> (om_serverSelectedNode m))
         (<[serverID := true]> (om_serverManualNode m)) m.

Definition IsServerNodeManual (m : outboundManagerImpl) (serverID : string) : bool :=
  let serverID := trim_space serverID in
  if String.eqb serverID "" then false else default false (om_serverManualNode m !! serverID).

(** ** The table of nodes *)

(** The caller's structure is returned with its runtime set. *)
Definition AddOutbound (m : outboundManagerImpl) (cfg : option ProxyOutbound)
  : outboundManagerImpl * option ProxyOutbound * option om_err :=
  match cfg with
  | None => (m, cfg, Some ErrNilConfig)
  | Some p =>
      match Validate p with
      | Some e => (m, cfg, Some (ErrValidate e))
      | None =>
          match om_outbounds m !! Name p with
          | Some _ => (m, cfg, Some ErrOutboundExists)
          | None =>
              let '(clone, p, h) := Clone (om_runtimes m) p in
              (set_nodes (<[Name p := clone]> (om_outbounds m)) h m, Some p, None)
          end
      end
  end.

Definition GetOutbound (m : outboundManagerImpl) (name : string)
  : outboundManagerImpl * option ProxyOutbound :=
  match om_outbounds m !! name with
  | None => (m, None)
  | Some o =>
      let '(clone, o, h) := Clone (om_runtimes m) o in
      (set_nodes (<[name := o]> (om_outbounds m)) h m, Some clone)
  end.

(** Closing and forgetting the sing-box outbound of a name. *)
Definition drop_singbox (name : string) (m : outboundManagerImpl) : outboundManagerImpl :=
  match om_singbox m !! name with
  | Some sb =>
      set_singbox (delete name (om_singbox m)) (delete name (om_singboxLastUsed m))
        (om_closed m ++ [sb]) m
  | None => m
  end.

Definition DeleteOutboundNoCascade (m : outboundManagerImpl) (name : string)
  : outboundManagerImpl * option om_err :=
  match om_outbounds m !! name with
  | None => (m, Some ErrOutboundNotFound)
  | Some _ =>
      let m := drop_singbox name m in
      (set_nodes (delete name (om_outbounds m)) (om_runtimes m) m, None)
  end.

Definition UpdateOutbound (m : outboundManagerImpl) (name : string) (cfg : option ProxyOutbound)
  : outboundManagerImpl * option ProxyOutbound * option om_err :=
  match cfg with
  | None => (m, cfg, Some ErrNilConfig)
  | Some p =>
      match Validate p with
      | Some e => (m, cfg, Some (ErrValidate e))
      | None =>
          match om_outbounds m !! name with
          | None => (m, cfg, Some ErrOutboundNotFound)
          | Some _ =>
              let renamed := negb (String.eqb name (Name p)) in
              if renamed && bool_decide (is_Some (om_outbounds m !! Name p))
              then (m, cfg, Some ErrOutboundExists)
              else
                let nodes := if renamed then delete name (om_outbounds m) else om_outbounds m in
                let m := drop_singbox name m in
                let '(clone, p, h) := Clone (om_runtimes m) p in
                (set_nodes (<[Name p := clone]> nodes) h m, Some p, None)
          end
      end
  end.

(** Clones in iteration order; the runtimes of stored nodes are set. *)
Definition ListOutbounds (m : outboundManagerImpl) (order : list string) : list ProxyOutbound :=
  omap (fun name => om_outbounds m !! name) order.

Definition GetOutboundsByGroup (m : outboundManagerImpl) (order : list string) (groupName : string)
  : list ProxyOutbound :=
  List.filter (fun o => String.eqb (Group o) groupName && negb (isMetadataLikeOutboundName (Name o)))
    (ListOutbounds m order).

Definition GetActiveConnectionCount (m : outboundManagerImpl) (order : list string) : Z :=
  fold_left (fun total o => i64 (total + GetConnCount (om_runtimes m) o)) (ListOutbounds m order) 0.

(** ** Cascade of a deletion *)

(** The selector of a server after a deletion; [empty_group] says that no node of
    a group remains. *)
Definition cascade_next (deletedName deletedGroup : string) (empty_group : string -> bool)
    (current : string) : string :=
  if String.eqb current deletedName then DirectNodeName
  else if has_prefix current "@" then
    let group := trim_prefix1 current "@" in
    if String.eqb group deletedGroup && empty_group group then DirectNodeName else current
  else if contains1 current "," then
    let nodes := List.filter (fun n => negb (String.eqb n "")) (trim_space <$> split1 "," current) in
    let kept := List.filter (fun n => negb (String.eqb n deletedName)) nodes in
    if Nat.eqb (length kept) (length nodes) then current
    else match kept with
         | [] => DirectNodeName
         | [n] => n
         | _ => join1 "," kept
         end
  else current.

Definition group_empty (m : outboundManagerImpl) (group : string) : bool :=
  forallb (fun kv => negb (String.eqb (Group kv.2) group)) (map_to_list (om_outbounds m)).

Section cascade.
Context {S : Type} `{!ServerConfigUpdater S}.

(** One server of the snapshot of [GetAllServers]. *)
Definition cascade_server (deletedName deletedGroup : string) (empty_group : string -> bool)
    (s : S) (server : ServerConfig) : S :=
  let current := trim_space (sc_ProxyOutbound server) in
  if String.eqb current "" || String.eqb current "direct" then s else
  let next := cascade_next deletedName deletedGroup empty_group current in
  if String.eqb next current then s
  else (scu_UpdateServerProxyOutbound s (sc_ID server) next).1.

Definition cascadeUpdateServerConfigs (m : outboundManagerImpl) (s : S) (order : list string)
    (deletedName deletedGroup : string) : S :=
  fold_left (cascade_server deletedName deletedGroup (group_empty m))
    (omap (fun id => scu_servers s !! id) order) s.

Definition DeleteOutbound (m : outboundManagerImpl) (s : option S) (order : list string) (name : string)
  : outboundManagerImpl * option S * option om_err :=
  match om_outbounds m !! name with
  | None => (m, s, Some ErrOutboundNotFound)
  | Some deleted =>
      let m := drop_singbox name m in
      let m := set_nodes (delete name (om_outbounds m)) (om_runtimes m) m in
      (m, (fun s => cascadeUpdateServerConfigs m s order name (Group deleted)) <$> s, None)
  end.
End cascade.

(** ** Health and statistics *)

Record HealthStatus := {
  hs_Healthy : bool;
  hs_Latency : Z;
  hs_LastCheck : gotime;
  hs_ConnCount : Z;
  hs_LastError : string;
  hs_BytesUp : Z;
  hs_BytesDown : Z;
  hs_LastActive : gotime;
  hs_ActiveDuration : Z;
}.

Definition GetHealthStatus (now : gotime) (m : outboundManagerImpl) (name : string) : option HealthStatus :=
  match om_outbounds m !! name with
  | None => None
  | Some o =>
      let h := om_runtimes m in
      Some {| hs_Healthy := GetHealthy h o; hs_Latency := GetLatency h o; hs_LastCheck := GetLastCheck h o;
              hs_ConnCount := GetConnCount h o; hs_LastError := GetLastError h o;
              hs_BytesUp := GetBytesUp h o; hs_BytesDown := GetBytesDown h o;
              hs_LastActive := GetLastActive h o; hs_ActiveDuration := GetActiveDuration now h o |}
  end.

Record GroupStats := {
  gs_Name : string;
  gs_TotalCount : Z;
  gs_HealthyCount : Z;
  gs_UDPAvailable : Z;
  gs_AvgTCPLatency : Z;
  gs_AvgUDPLatency : Z;
  gs_AvgHTTPLatency : Z;
  gs_MinTCPLatency : Z;
  gs_MinUDPLatency : Z;
  gs_MinHTTPLatency : Z;
}.

(** The three variables of one latency: total, count and minimum. *)
Definition latency_step (lat : ProxyOutbound -> Z) (acc : Z * Z * Z) (node : ProxyOutbound) : Z * Z * Z :=
  let '(total, count, min) := acc in
  if 0 <? lat node then
    (i64 (total + lat node), count + 1,
     if (min <? 0) || (lat node <? min) then lat node else min)
  else acc.

Definition latency_stats (lat : ProxyOutbound -> Z) (nodes : list ProxyOutbound) : Z * Z :=
  let '(total, count, min) := fold_left (latency_step lat) nodes (0, 0, -1) in
  (if 0 <? count then Z.quot total count else 0, if min <? 0 then 0 else min).

Definition count_of (p : ProxyOutbound -> bool) (nodes : list ProxyOutbound) : Z :=
  zlen (List.filter p nodes).

Definition calculateGroupStats (m : outboundManagerImpl) (order : list string) (groupName : string)
  : option GroupStats :=
  match GetOutboundsByGroup m order groupName with
  | [] => None
  | nodes =>
      let '(avgTCP, minTCP) := latency_stats TCPLatencyMs nodes in
      let '(avgUDP, minUDP) := latency_stats UDPLatencyMs nodes in
      let '(avgHTTP, minHTTP) := latency_stats HTTPLatencyMs nodes in
      Some {| gs_Name := groupName; gs_TotalCount := zlen nodes;
              gs_HealthyCount := count_of (GetHealthy (om_runtimes m)) nodes;
              gs_UDPAvailable := count_of (fun o => default false (UDPAvailable o)) nodes;
              gs_AvgTCPLatency := avgTCP; gs_AvgUDPLatency := avgUDP; gs_AvgHTTPLatency := avgHTTP;
              gs_MinTCPLatency := minTCP; gs_MinUDPLatency := minUDP; gs_MinHTTPLatency := minHTTP |}
  end.

Definition GetGroupStats := calculateGroupStats.

(** The groups in the order [groups] of the set of group names. *)
Definition ListGroups (m : outboundManagerImpl) (order groups : list string) : list GroupStats :=
  omap (calculateGroupStats m order) groups.
End manager.

(** * Facts *)

(** ** The table of nodes *)

(** A node is stored under its name, is valid, and its runtime exists. *)
Section table.
Context `{Unicode}.

Definition stored_ok (h : runtime_heap) (name : string) (o : ProxyOutbound) : Prop :=
  Name o = name /\ Validate o = None /\ wf_ptr h o /\ is_Some (runtime o).

Definition om_wf (m : outboundManagerImpl) : Prop :=
  (forall name o, om_outbounds m !! name = Some o -> stored_ok (om_runtimes m) name o) /\
  (forall name, is_Some (om_singboxLastUsed m !! name) -> is_Some (om_singbox m !! name)).

Lemma Validate_with_runtime r p : Validate (with_runtime r p) = Validate p.
Proof. reflexivity. Qed.

Lemma Clone_spec h p :
  wf_ptr h p ->
  exists r h', Clone h p = (with_runtime (Some r) p, with_runtime (Some r) p, h') /\
    (r < length h')%nat /\ h' !! r = Some (runtime_of h p) /\
    (forall k rt, h !! k = Some rt -> h' !! k = Some rt) /\ (length h <= length h')%nat.
Proof.
  intros Hw. unfold Clone. destruct (runtimeState h p) as [[r p1] h1] eqn:E.
  apply runtimeState_spec in E as (-> & ? & ? & ? & ?); [|done].
  exists r, h1. split; [by destruct p|done].
Qed.

Lemma runtimeState_shared h p r :
  runtime p = Some r -> runtimeState h p = (r, p, h).
Proof. unfold runtimeState. by intros ->. Qed.

(** The clone of a node with a runtime is the node. *)
Lemma Clone_stored h o : is_Some (runtime o) -> Clone h o = (o, o, h).
Proof.
  intros [r Hr]. unfold Clone. rewrite (runtimeState_shared _ _ r) by done. by destruct o; cbn in *; subst.
Qed.

Lemma stored_ok_mono h h' name o :
  (length h <= length h')%nat -> stored_ok h name o -> stored_ok h' name o.
Proof.
  intros Hl (Hn & Hv & Hp & Hr). split; [done|]. split; [done|]. split; [|done].
  intros r Er. specialize (Hp r Er). lia.
Qed.

Lemma stored_ok_new h r p :
  Validate p = None -> (r < length h)%nat -> stored_ok h (Name p) (with_runtime (Some r) p).
Proof.
  intros Hv Hr. split; [done|]. split; [done|]. split; [|done]. cbn. by intros ? [= <-].
Qed.

Lemma om_outbounds_drop name m : om_outbounds (drop_singbox name m) = om_outbounds m.
Proof. unfold drop_singbox. by destruct (_ !! _). Qed.

Lemma om_runtimes_drop name m : om_runtimes (drop_singbox name m) = om_runtimes m.
Proof. unfold drop_singbox. by destruct (_ !! _). Qed.

Lemma om_singbox_drop name m : om_singbox (drop_singbox name m) = delete name (om_singbox m).
Proof. unfold drop_singbox. destruct (_ !! _) eqn:E; [done|]. by rewrite delete_id. Qed.

Lemma om_wf_drop name m : om_wf m -> om_wf (drop_singbox name m).
Proof.
  intros [Ht Hs]. unfold drop_singbox. destruct (_ !! _) eqn:E; [|done]. split; [done|].
  cbn. intros x. rewrite !lookup_delete_is_Some. naive_solver.
Qed.

Lemma om_wf_set_nodes nodes h m :
  om_wf m -> (forall name o, nodes !! name = Some o -> stored_ok h name o) ->
  om_wf (set_nodes nodes h m).
Proof. by intros [_ Hs] Hn. Qed.

Lemma om_wf_delete name m : om_wf m -> om_wf (set_nodes (delete name (om_outbounds m)) (om_runtimes m) m).
Proof.
  intros Hw. apply om_wf_set_nodes; [done|]. intros n o [_ Ho]%lookup_delete_Some. by apply Hw.
Qed.

(** Storing a clone of a valid node. *)
Lemma om_wf_store nodes m p r h' :
  om_wf m -> (forall name o, nodes !! name = Some o -> om_outbounds m !! name = Some o) ->
  Validate p = None -> (r < length h')%nat -> (length (om_runtimes m) <= length h')%nat ->
  om_wf (set_nodes (<[Name p := with_runtime (Some r) p]> nodes) h' m).
Proof.
  intros Hw Hsub Hv Hr Hl. apply om_wf_set_nodes; [done|].
  intros n o [[<- <-]|[_ Ho]]%lookup_insert_Some; [by apply stored_ok_new|].
  eapply stored_ok_mono; [done|]. apply Hw. by apply Hsub.
Qed.

(** Steps of clients: a node given to the manager has a runtime of the heap or none. *)
Inductive om_step : outboundManagerImpl -> outboundManagerImpl -> Prop :=
| step_add m p : wf_ptr (om_runtimes m) p -> om_step m (AddOutbound m (Some p)).1.1
| step_get m name : om_step m (GetOutbound m name).1
| step_update m name p :
    wf_ptr (om_runtimes m) p -> om_step m (UpdateOutbound m name (Some p)).1.1
| step_delete m name : om_step m (DeleteOutboundNoCascade m name).1
| step_use m (f : proxyOutboundRuntime -> proxyOutboundRuntime) r :
    om_step m (set_nodes (om_outbounds m) (alter f r (om_runtimes m)) m).

Lemma AddOutbound_wf m p : om_wf m -> wf_ptr (om_runtimes m) p -> om_wf (AddOutbound m (Some p)).1.1.
Proof.
  intros Hw Hp. unfold AddOutbound. destruct (Validate p) eqn:Hv; [done|].
  destruct (_ !! _) eqn:E; [done|].
  destruct (Clone_spec _ _ Hp) as (r & h' & -> & Hr & _ & _ & Hl). by apply (om_wf_store _ m p r h').
Qed.

Lemma UpdateOutbound_wf m name p :
  om_wf m -> wf_ptr (om_runtimes m) p -> om_wf (UpdateOutbound m name (Some p)).1.1.
Proof.
  intros Hw Hp. unfold UpdateOutbound. destruct (Validate p) eqn:Hv; [done|].
  destruct (om_outbounds m !! name) eqn:E; [|done]. destruct (_ && _); [done|].
  rewrite om_runtimes_drop. destruct (Clone_spec _ _ Hp) as (r & h' & -> & Hr & _ & _ & Hl).
  apply (om_wf_store _ (drop_singbox name m) p r h'); rewrite ?om_runtimes_drop; auto using om_wf_drop.
  intros n o. rewrite om_outbounds_drop. destruct (negb _); [|done]. by intros [_ ?]%lookup_delete_Some.
Qed.

Lemma GetOutbound_wf m name : om_wf m -> om_wf (GetOutbound m name).1.
Proof.
  intros Hw. unfold GetOutbound. destruct (_ !! _) as [o|] eqn:E; [|done].
  pose proof (proj1 Hw name o E) as (Hn & Hv & Hp & Hr).
  destruct (Clone_spec _ _ Hp) as (r & h' & -> & ? & _ & _ & ?).
  subst name. by apply (om_wf_store _ m o r h').
Qed.

Lemma om_step_wf m m' : om_step m m' -> om_wf m -> om_wf m'.
Proof.
  intros [ | | | | ] Hw; auto using AddOutbound_wf, UpdateOutbound_wf, GetOutbound_wf.
  - unfold DeleteOutboundNoCascade. destruct (_ !! _); [|done]. by apply om_wf_delete, om_wf_drop.
  - apply om_wf_set_nodes; [done|]. intros n1 o Ho.
    apply (stored_ok_mono (om_runtimes m0)); [by rewrite length_alter|by apply Hw].
Qed.

Definition no_node_config (m : outboundManagerImpl) (name : string) : option ProxyOutbound :=
  config_of <$> om_outbounds m !! name.

(** Whatever sequence of additions, reads, updates, deletions and uses of shared
    runtimes happened, every node is stored under its own name, is valid, and
    has a runtime that exists. *)
Theorem outbound_table_invariant (gc : option GlobalConfig) (m : outboundManagerImpl)
    (name : string) (o : ProxyOutbound) :
  rtc om_step (NewOutboundManager gc) m -> om_outbounds m !! name = Some o ->
  Name o = name /\ Validate o = None /\
  exists r, runtime o = Some r /\ (r < length (om_runtimes m))%nat.
Proof.
  intros Hs Ho. assert (om_wf m) as Hw.
  { assert (om_wf (NewOutboundManager gc)) as H0
      by (split; [intros ??|intros ?]; cbn; rewrite lookup_empty; [done|by intros [??]]).
    induction Hs; [done|]. eauto using om_step_wf. }
  destruct (proj1 Hw name o Ho) as (? & ? & Hp & [r Hr]). eauto 6.
Qed.

Lemma lookup_insert_config (nodes : gmap string ProxyOutbound) p r :
  config_of <$> (<[Name p := with_runtime (Some r) p]> nodes) !! Name p = Some (config_of p).
Proof. by rewrite lookup_insert_eq. Qed.

(** [UpdateOutbound] succeeds exactly on a valid node, an existing name and, when the
    name changes, a free new name.  Then the new name holds the new
    configuration, an old name that changed is gone, every other node is
    untouched, the cached sing-box outbound is closed and forgotten; an error
    leaves the manager as it was. *)
Theorem UpdateOutbound_spec (m : outboundManagerImpl) (name : string) (p : ProxyOutbound) :
  om_wf m -> wf_ptr (om_runtimes m) p ->
  let '(m', _, err) := UpdateOutbound m name (Some p) in
  (err = None <-> Validate p = None /\ is_Some (om_outbounds m !! name) /\
     (Name p = name \/ om_outbounds m !! Name p = None)) /\
  (err <> None -> m' = m) /\
  (err = None ->
     no_node_config m' (Name p) = Some (config_of p) /\
     (Name p <> name -> om_outbounds m' !! name = None) /\
     (forall k, k <> name -> k <> Name p -> om_outbounds m' !! k = om_outbounds m !! k) /\
     om_singbox m' = delete name (om_singbox m) /\
     (forall sb, om_singbox m !! name = Some sb -> sb ∈ om_closed m')).
Proof.
  intros Hw Hp. unfold UpdateOutbound. destruct (Validate p) eqn:Hv; [naive_solver|].
  destruct (om_outbounds m !! name) as [o|] eqn:Ho.
  2: { split; [|done]. split; [done|]. by intros (_ & [] & _). }
  destruct (String.eqb_spec name (Name p)) as [Hn|Hn]; cbn [negb andb].
  2: destruct (bool_decide _) eqn:Hb; bool_prop.
  2: { split; [|done]. split; [done|]. intros (_ & _ & [?|E]); [done|]. rewrite E in Hb. by destruct Hb. }
  all: rewrite om_runtimes_drop; destruct (Clone_spec _ _ Hp) as (r & h' & -> & _).
  all: split; [split; [|done]; intros _|split; [done|intros _]].
  1,3: split; [done|]; split; [done|]; auto. 1: right; by apply eq_None_not_Some.
  all: cbn; split; [apply lookup_insert_config|]; rewrite om_singbox_drop.
  all: split; [|split; [|split; [done|]]].
  all: try (intros sb Hsb; unfold drop_singbox; rewrite Hsb; cbn; set_solver).
  - done.
  - intros k ? ?. by rewrite lookup_insert_ne.
  - intros ?. by rewrite lookup_insert_ne, lookup_delete_eq.
  - intros k ? ?. by rewrite lookup_insert_ne, lookup_delete_ne.
Qed.

(** [AddOutbound] succeeds exactly on a valid node with a free name; the clone that
    [GetOutbound] then returns has the configuration added and the very runtime
    of the caller's node, so both see the same counters; an error changes
    nothing. *)
Theorem AddOutbound_spec (m : outboundManagerImpl) (p : ProxyOutbound) :
  om_wf m -> wf_ptr (om_runtimes m) p ->
  let '(m', cfg, err) := AddOutbound m (Some p) in
  (err = None <-> Validate p = None /\ om_outbounds m !! Name p = None) /\
  (err <> None -> m' = m) /\
  (err = None -> exists c p',
     GetOutbound m' (Name p) = (m', Some c) /\ cfg = Some p' /\ c = p' /\
     c = with_runtime (runtime c) p /\ runtime_of (om_runtimes m') c = runtime_of (om_runtimes m) p).
Proof.
  intros Hw Hp. unfold AddOutbound. destruct (Validate p) eqn:Hv; [naive_solver|].
  destruct (_ !! _) eqn:E; [naive_solver|].
  destruct (Clone_spec _ _ Hp) as (r & h' & -> & Hr & Hl & _).
  split; [done|]. split; [done|]. intros _. exists (with_runtime (Some r) p), (with_runtime (Some r) p).
  split; [|split; [done|split; [done|split; [done|]]]].
  - unfold GetOutbound. cbn [om_outbounds set_nodes]. rewrite lookup_insert_eq.
    unfold Clone. rewrite (runtimeState_shared _ _ r) by done.
    f_equal. unfold set_nodes. cbn. by rewrite insert_insert_eq.
  - unfold runtime_of at 1. cbn. by rewrite Hl.
Qed.
End table.

(** ** The cascade *)

#[export] Instance ConfigManager_updater (save_ok : bool) : ServerConfigUpdater ConfigManager.
Proof.
  refine {| scu_servers := cm_servers; scu_UpdateServerProxyOutbound := UpdateServerProxyOutbound save_ok |}.
  - intros s id o sc Hs. unfold UpdateServerProxyOutbound. rewrite Hs, saveToFile_servers.
    cbn [cm_servers with_servers]. eexists. split; [done|]. by destruct (_ || _).
  - intros s id o Hs. unfold UpdateServerProxyOutbound. by rewrite Hs.
Defined.

(** The nodes that a selector lists. *)
Definition selector_nodes (sel : string) : list string :=
  if has_prefix (trim_space sel) "@" then [] else trim_space <$> split1 "," (trim_space sel).

(** A name that a selector can refer to. *)
Definition node_name (name : string) : Prop :=
  name <> ""%string /\ name <> DirectNodeName /\ contains1 name "," = false.

Section cascade_facts.
Context {S : Type} `{!ServerConfigUpdater S}.
Variables (name group : string) (empty_group : string -> bool).

(** The selector of a server after the cascade. *)
Definition cascaded (sel : string) : string :=
  let current := trim_space sel in
  if String.eqb current "" || String.eqb current "direct" then sel
  else let next := cascade_next name group empty_group current in
    if String.eqb next current then sel else next.

Lemma cascade_server_self s sc :
  scu_servers s !! sc_ID sc = Some sc ->
  exists sc', scu_servers (cascade_server name group empty_group s sc) = <[sc_ID sc := sc']> (scu_servers s) /\
    sc_ProxyOutbound sc' = cascaded (sc_ProxyOutbound sc) /\ sc_ID sc' = sc_ID sc.
Proof.
  intros Hs. unfold cascade_server, cascaded.
  assert (exists sc', scu_servers s = <[sc_ID sc := sc']> (scu_servers s) /\
    sc_ProxyOutbound sc' = sc_ProxyOutbound sc /\ sc_ID sc' = sc_ID sc) as Hid.
  { exists sc. by rewrite insert_id. }
  destruct (_ || _); [done|]. destruct (String.eqb _ _); [done|]. by apply scu_update_present.
Qed.

Lemma cascade_fold l s :
  NoDup (sc_ID <$> l) -> (forall sc, sc ∈ l -> scu_servers s !! sc_ID sc = Some sc) ->
  let s' := fold_left (cascade_server name group empty_group) l s in
  (forall sc, sc ∈ l -> exists sc', scu_servers s' !! sc_ID sc = Some sc' /\
     sc_ProxyOutbound sc' = cascaded (sc_ProxyOutbound sc)) /\
  (forall id, id ∉ sc_ID <$> l -> scu_servers s' !! id = scu_servers s !! id).
Proof.
  revert s. induction l as [|sc l IH]; intros s Hnd Hl; cbn [fold_left].
  { split; [|done]. intros sc Hsc. by apply not_elem_of_nil in Hsc. }
  apply NoDup_cons in Hnd as [Hni Hnd].
  destruct (cascade_server_self s sc ltac:(apply Hl; left)) as (sc' & Hs & Ho & Hi).
  destruct (IH (cascade_server name group empty_group s sc) Hnd) as [H1 H2].
  { intros x Hx. rewrite Hs, lookup_insert_ne; [apply Hl; by right|].
    intros E. apply Hni. rewrite E. by apply list_elem_of_fmap_2. }
  split.
  - intros x [->|Hx]%elem_of_cons; [|by apply H1]. exists sc'. by rewrite H2, Hs, lookup_insert_eq.
  - intros id [Hne Hid]%not_elem_of_cons. rewrite H2, Hs by done. by rewrite lookup_insert_ne.
Qed.


Lemma selector_nodes_trim sel : selector_nodes (trim_space sel) = selector_nodes sel.
Proof. unfold selector_nodes. by rewrite trim_space_idemp. Qed.

Lemma selector_nodes_direct : node_name name -> name ∉ selector_nodes DirectNodeName.
Proof.
  intros (_ & Hd & _). change (selector_nodes DirectNodeName) with [DirectNodeName]. set_solver.
Qed.

Lemma selector_nodes_join l x :
  Forall piece l -> Forall (fun n => contains1 n "," = false) l -> l <> [] ->
  x ∈ selector_nodes (join1 "," l) -> x ∈ l.
Proof.
  intros Hp Hc Hne. unfold selector_nodes.
  destruct (join1_trimmed "," l eq_refl Hp Hne) as [Ht _]. unfold trimmed in Ht. rewrite !Ht. clear Ht.
  destruct (has_prefix _ _); [by intros ?%not_elem_of_nil|]. rewrite split1_join1 by done.
  intros (y & -> & Hy)%list_elem_of_fmap. rewrite Forall_forall in Hp.
  by destruct (Hp y Hy) as [-> _].
Qed.

Lemma filter_length_all {A} (p : A -> bool) l :
  length (List.filter p l) = length l -> forall x, x ∈ l -> p x = true.
Proof.
  induction l as [|a l IH]; cbn; [by intros _ x ?%not_elem_of_nil|].
  pose proof (filter_length_le p l) as Hle. destruct (p a) eqn:E; cbn; [|lia].
  intros [= H] x [->|Hx]%elem_of_cons; auto.
Qed.

(** The nodes that the code takes from a list of names. *)
Lemma list_nodes_spec current x :
  x ∈ List.filter (fun n => negb (String.eqb n "")) (trim_space <$> split1 "," current) ->
  piece x /\ contains1 x "," = false.
Proof.
  intros (Hx & Hn)%list_elem_of_In%filter_In.
  apply list_elem_of_In, list_elem_of_fmap in Hx as (y & -> & Hy).
  pose proof (split1_pieces "," current) as Hf. rewrite Forall_forall in Hf.
  split; [split; [apply trim_space_idemp|]|by apply contains1_trim, Hf].
  by apply negb_true_iff, String.eqb_neq in Hn.
Qed.

Lemma cascade_next_nodes current :
  trimmed current -> node_name name -> name ∉ selector_nodes (cascade_next name group empty_group current).
Proof.
  intros Ht Hn. pose proof (selector_nodes_direct Hn) as Hd. pose proof Hn as (Hn0 & Hnd & Hnc).
  unfold cascade_next. destruct (String.eqb_spec current name) as [|Hne]; [done|].
  destruct (has_prefix current "@") eqn:Hp.
  { destruct (_ && _); [done|]. unfold selector_nodes. rewrite Ht, Hp. set_solver. }
  assert (selector_nodes current = trim_space <$> split1 "," current) as Hs
    by (unfold selector_nodes; by rewrite Ht, Hp).
  destruct (contains1 current ",") eqn:Hc.
  2: { rewrite Hs, split1_no_sep by done. cbn. rewrite Ht. set_solver. }
  set (nodes := List.filter _ (trim_space <$> _)). set (kept := List.filter _ nodes).
  destruct (Nat.eqb_spec (length kept) (length nodes)) as [E|_].
  { rewrite Hs. intros Hin. assert (name ∈ nodes) as Hin'.
    { apply list_elem_of_In, filter_In. split; [by apply list_elem_of_In|].
      by apply negb_true_iff, String.eqb_neq. }
    apply (filter_length_all _ _ E) in Hin'. by rewrite String.eqb_refl in Hin'. }
  assert (forall x, x ∈ kept -> (piece x /\ contains1 x "," = false) /\ x <> name) as Hk.
  { intros x (Hx & Hx')%list_elem_of_In%filter_In. split; [by apply (list_nodes_spec current), list_elem_of_In|].
    by apply negb_true_iff, String.eqb_neq in Hx'. }
  clearbody kept. destruct kept as [|n kept]; [done|].
  assert (name ∉ selector_nodes (join1 "," (n :: kept))) as Hj.
  { intros Hj%selector_nodes_join; [by apply Hk in Hj as [_ ?]|..]; [..|done];
      apply Forall_forall; intros x Hx; apply Hk, Hx. }
  by destruct kept.
Qed.

Lemma cascaded_nodes sel : node_name name -> name ∉ selector_nodes (cascaded sel).
Proof.
  intros Hn. unfold cascaded. pose proof Hn as (Hn0 & Hnd & _).
  destruct (String.eqb_spec (trim_space sel) "") as [E|_]; cbn [orb].
  { unfold selector_nodes. rewrite E. cbn. set_solver. }
  destruct (String.eqb_spec (trim_space sel) "direct") as [E|_].
  { rewrite <- selector_nodes_trim, E. by apply selector_nodes_direct. }
  pose proof (cascade_next_nodes (trim_space sel) (trim_space_trimmed sel) Hn) as Hc.
  destruct (String.eqb_spec (cascade_next name group empty_group (trim_space sel)) (trim_space sel)) as [E|_];
    [|done].
  by rewrite <- selector_nodes_trim, <- E.
Qed.
End cascade_facts.

Section cascade_theorems.
Context `{Unicode} {S : Type} `{!ServerConfigUpdater S}.

Lemma filter_all_length {A} (p : A -> bool) l :
  (forall x, x ∈ l -> p x = true) -> length (List.filter p l) = length l.
Proof.
  intros Hp. induction l as [|a l IH]; cbn; [done|].
  rewrite Hp by left. cbn. f_equal. apply IH. intros x Hx. apply Hp. by right.
Qed.

(** A selector of nodes that does not list the name stays. *)
Lemma cascaded_other name group eg sel :
  node_name name -> has_prefix (trim_space sel) "@" = false -> name ∉ selector_nodes sel ->
  cascaded name group eg sel = sel.
Proof.
  intros (_ & _ & Hnc) Hp. unfold selector_nodes. rewrite Hp. intros Hn. unfold cascaded.
  destruct (_ || _); [done|]. unfold cascade_next. rewrite Hp.
  destruct (String.eqb_spec (trim_space sel) name) as [E|Hne].
  { destruct Hn. rewrite E, split1_no_sep, <- E by done. cbn. rewrite trim_space_idemp. set_solver. }
  destruct (contains1 (trim_space sel) ",") eqn:Hc; [|by rewrite String.eqb_refl].
  rewrite filter_all_length, Nat.eqb_refl, String.eqb_refl; [done|].
  intros x (Hx & _)%list_elem_of_In%filter_In. apply negb_true_iff, String.eqb_neq. intros ->.
  by apply list_elem_of_In in Hx.
Qed.

Lemma cascaded_group name group eg sel :
  node_name name -> trim_space sel = String "@" group -> trim_space sel <> name -> eg group = true ->
  cascaded name group eg sel = DirectNodeName.
Proof.
  intros (_ & _ & Hnc) Hs Hne He. unfold cascaded, cascade_next. rewrite Hs in *.
  assert (String.eqb (String "@" group) "" || String.eqb (String "@" group) "direct" = false) as -> by done.
  assert (has_prefix (String "@" group) "@" = true) as -> by (by destruct group).
  assert (trim_prefix1 (String "@" group) "@" = group) as -> by (by destruct group).
  rewrite (proj2 (String.eqb_neq _ name)), String.eqb_refl, He by done. done.
Qed.

Lemma group_empty_spec m group :
  group_empty m group = true <-> forall k o, om_outbounds m !! k = Some o -> Group o <> group.
Proof.
  unfold group_empty. rewrite forallb_forall. split.
  - intros Ha k o Ho Hg. specialize (Ha (k, o) ltac:(by apply list_elem_of_In, elem_of_map_to_list)).
    cbn in Ha. by rewrite Hg, String.eqb_refl in Ha.
  - intros Ha [k o] Hin%list_elem_of_In%elem_of_map_to_list. apply negb_true_iff, String.eqb_neq. eauto.
Qed.

Lemma snapshot_ids (m : gmap string ServerConfig) order :
  order ≡ₚ (map_to_list m).*1 -> (forall id sc, m !! id = Some sc -> sc_ID sc = id) ->
  sc_ID <$> omap (fun id => m !! id) order = order /\
  forall sc, sc ∈ omap (fun id => m !! id) order <-> m !! sc_ID sc = Some sc.
Proof.
  intros Ho Hid. split.
  - assert (Forall (fun id => is_Some (m !! id)) order) as Hall.
    { apply Forall_forall. intros id. rewrite Ho. intros ([k x] & -> & Hx)%list_elem_of_fmap.
      apply elem_of_map_to_list in Hx. eauto. }
    clear Ho. induction Hall as [|id order [sc Hsc] Hall IH]; [done|]. cbn. rewrite Hsc. cbn.
    by rewrite (Hid id sc Hsc), IH.
  - intros sc. rewrite list_elem_of_omap. split.
    + intros (id & _ & Hs). by rewrite (Hid id sc Hs).
    + intros Hs. exists (sc_ID sc). split; [|done]. rewrite Ho.
      apply list_elem_of_fmap. exists (sc_ID sc, sc). split; [done|]. by apply elem_of_map_to_list.
Qed.

End cascade_theorems.

(** ** Statistics *)

Definition measured (lat : ProxyOutbound -> Z) (nodes : list ProxyOutbound) : list Z :=
  List.filter (Z.ltb 0) (lat <$> nodes).

Definition sum_list_Z (l : list Z) : Z := foldr Z.add 0 l.

Lemma sum_list_nonneg l : Forall (Z.lt 0) l -> 0 <= sum_list_Z l.
Proof. induction 1; cbn; [done|]. unfold sum_list_Z in *. lia. Qed.

Lemma measured_pos lat nodes : Forall (Z.lt 0) (measured lat nodes).
Proof. apply Forall_forall. intros x (_ & Hx)%list_elem_of_In%filter_In. by apply Z.ltb_lt. Qed.

(** The least of a list of positive latencies; -1 for none, as in the code. *)
Definition least_of (min : Z) (l : list Z) : Z :=
  fold_left (fun m x => if (m <? 0) || (x <? m) then x else m) l min.

Lemma least_of_spec l m :
  Forall (Z.lt 0) l -> (m = -1 \/ 0 < m) ->
  let r := least_of m l in
  (r = -1 <-> m = -1 /\ l = []) /\ (r = -1 \/ 0 < r) /\ (r <> -1 -> r = m \/ r ∈ l) /\
  (forall x, x ∈ l -> r <= x) /\ (0 < m -> r <= m).
Proof.
  intros Hl. revert m. induction Hl as [|x l Hx Hl IH]; intros m Hm; cbn.
  { split; [naive_solver|]. split; [done|]. split; [auto|]. split; [|lia].
    intros x Hx. by apply not_elem_of_nil in Hx. }
  set (m' := if (m <? 0) || (x <? m) then x else m).
  assert (0 < m' /\ m' <= x /\ (m' = m \/ m' = x) /\ (0 < m -> m' <= m)) as (Hm' & Hmx & Hor & Hmm).
  { unfold m'. destruct (Z.ltb_spec m 0), (Z.ltb_spec x m); cbn; lia. }
  destruct (IH m' (or_intror Hm')) as (H1 & H2 & H3 & H4 & H5). unfold least_of in *.
  split; [split; [intros E; lia|naive_solver]|]. split; [done|]. split.
  { intros Hne. destruct (H3 Hne) as [->|]; [destruct Hor as [->| ->]|]; set_solver. }
  split; [|lia]. intros y [->|Hy]%elem_of_cons; [lia|auto].
Qed.

Lemma latency_fold lat nodes total count min :
  0 <= total -> total + sum_list_Z (measured lat nodes) < 2 ^ 63 ->
  fold_left (latency_step lat) nodes (total, count, min) =
    (total + sum_list_Z (measured lat nodes), count + zlen (measured lat nodes),
     least_of min (measured lat nodes)).
Proof.
  revert total count min. unfold measured.
  induction nodes as [|n nodes IH]; intros total count min Ht Hs; cbn [fold_left fmap list_fmap List.filter].
  { change (sum_list_Z []) with 0. change (zlen (@nil Z)) with 0. by rewrite (Z.add_0_r total), (Z.add_0_r count). }
  unfold latency_step at 2. cbn [List.filter fmap list_fmap] in Hs. destruct (Z.ltb_spec 0 (lat n)).
  - cbn [sum_list_Z foldr] in *. pose proof (sum_list_nonneg _ (measured_pos lat nodes)) as Hp.
    unfold measured, sum_list_Z in *. rewrite i64_small by lia. rewrite IH by lia. rewrite zlen_cons.
    cbn [least_of fold_left]. f_equal. f_equal; lia.
  - by rewrite IH.
Qed.

(** The average and the minimum of the positive latencies, both zero for none. *)
Lemma latency_stats_spec lat nodes :
  sum_list_Z (measured lat nodes) < 2 ^ 63 ->
  let '(avg, min) := latency_stats lat nodes in
  let l := measured lat nodes in
  (l = [] -> avg = 0 /\ min = 0) /\
  (l <> [] -> min ∈ l /\ (forall x, x ∈ l -> min <= x) /\ avg = sum_list_Z l / zlen l /\ min <= avg).
Proof.
  intros Hs. unfold latency_stats. rewrite latency_fold by lia. rewrite !Z.add_0_l.
  pose proof (measured_pos lat nodes) as Hp. set (l := measured lat nodes) in *. clearbody l.
  destruct (least_of_spec l (-1) Hp ltac:(lia)) as (H1 & H2 & H3 & H4 & _).
  split; [by intros ->|]. intros Hne.
  assert (least_of (-1) l <> -1) as Hn by naive_solver. destruct (H3 Hn) as [?|Hin]; [done|].
  rewrite (proj2 (Z.ltb_ge (least_of (-1) l) 0)) by lia.
  assert (0 < zlen l) as Hz by (destruct l; [done|]; zlen_lia).
  rewrite (proj2 (Z.ltb_lt _ _)) by lia. split; [done|]. split; [done|].
  pose proof (sum_list_nonneg l Hp) as Hsn. rewrite Z.quot_div_nonneg by lia. split; [done|].
  apply Z.div_le_lower_bound; [lia|]. clear -H4. revert H4. generalize (least_of (-1) l). intros k Hk.
  induction l as [|x l IH]; [change (zlen (@nil Z)) with 0; change (sum_list_Z []) with 0; lia|].
  cbn [sum_list_Z foldr]. rewrite zlen_cons.
  specialize (Hk x ltac:(left)) as Hx. specialize (IH (fun y Hy => Hk y ltac:(by right))).
  unfold sum_list_Z in *. lia.
Qed.

Section stats_theorems.
Context `{Unicode}.

(** The statistics of a group cover the nodes of the group without the metadata
    entries: the count is positive, at most that many nodes are healthy or have
    UDP, and for each protocol the minimum is the least measured latency and the
    average the truncated mean of the measured ones, so never below it; both are
    zero when nothing is measured. *)
Theorem calculateGroupStats_spec (m : outboundManagerImpl) (order : list string) (group : string)
    (st : GroupStats) :
  let nodes := GetOutboundsByGroup m order group in
  (forall lat, lat ∈ [TCPLatencyMs; UDPLatencyMs; HTTPLatencyMs] ->
     sum_list_Z (measured lat nodes) < 2 ^ 63) ->
  calculateGroupStats m order group = Some st ->
  (forall o, o ∈ nodes -> Group o = group /\ isMetadataLikeOutboundName (Name o) = false) /\
  gs_TotalCount st = zlen nodes /\ 0 < gs_TotalCount st /\
  0 <= gs_HealthyCount st <= gs_TotalCount st /\ 0 <= gs_UDPAvailable st <= gs_TotalCount st /\
  (forall lat avg min,
     (lat, avg, min) ∈ [(TCPLatencyMs, gs_AvgTCPLatency st, gs_MinTCPLatency st);
                        (UDPLatencyMs, gs_AvgUDPLatency st, gs_MinUDPLatency st);
                        (HTTPLatencyMs, gs_AvgHTTPLatency st, gs_MinHTTPLatency st)] ->
     (measured lat nodes = [] -> avg = 0 /\ min = 0) /\
     (measured lat nodes <> [] ->
        min ∈ measured lat nodes /\ (forall x, x ∈ measured lat nodes -> min <= x) /\
        avg = sum_list_Z (measured lat nodes) / zlen (measured lat nodes) /\ min <= avg)).
Proof.
  intros nodes Hsum. unfold calculateGroupStats. fold nodes.
  assert (forall lat, lat ∈ [TCPLatencyMs; UDPLatencyMs; HTTPLatencyMs] -> _) as Hl
    by (intros lat Hlat; exact (latency_stats_spec lat nodes (Hsum lat Hlat))).
  assert (forall o, o ∈ nodes -> Group o = group /\ isMetadataLikeOutboundName (Name o) = false) as Hn.
  { intros o (_ & Ho)%list_elem_of_In%filter_In. bool_prop. split; [|done]. by apply String.eqb_eq. }
  assert (forall p, 0 <= count_of p nodes <= zlen nodes) as Hc.
  { intros p. unfold count_of, zlen. pose proof (filter_length_le p nodes). lia. }
  clearbody nodes. destruct nodes as [|n nodes]; [done|].
  pose proof (Hl TCPLatencyMs ltac:(set_solver)) as H1.
  pose proof (Hl UDPLatencyMs ltac:(set_solver)) as H2.
  pose proof (Hl HTTPLatencyMs ltac:(set_solver)) as H3.
  destruct (latency_stats TCPLatencyMs _) as [avg1 min1], (latency_stats UDPLatencyMs _) as [avg2 min2],
    (latency_stats HTTPLatencyMs _) as [avg3 min3]. intros [= <-]. cbn [gs_TotalCount gs_HealthyCount
    gs_UDPAvailable gs_AvgTCPLatency gs_MinTCPLatency gs_AvgUDPLatency gs_MinUDPLatency gs_AvgHTTPLatency
    gs_MinHTTPLatency].
  split; [done|]. split; [done|]. split; [zlen_lia|]. split; [apply Hc|]. split; [apply Hc|].
  intros lat avg min Hin. rewrite !elem_of_cons, elem_of_nil in Hin.
  destruct Hin as [[= -> -> ->]|[[= -> -> ->]|[[= -> -> ->]|[]]]]; done.
Qed.
End stats_theorems.

(** ** Pinned nodes *)

(** The two maps of the code against one map from a server to its node and
    whether an operator chose it. *)
Section pins.
Inductive pin_op := PinAuto (server node : string) | PinManual (server node : string).

Definition run_pin (m : outboundManagerImpl) (o : pin_op) : outboundManagerImpl :=
  match o with
  | PinAuto s n => SetServerSelectedNode m s n
  | PinManual s n => SetServerSelectedNodeManual m s n
  end.

Abbreviation pin_table := (gmap string (string * bool)) (only parsing).

Definition spec_pin (t : pin_table) (o : pin_op) : pin_table :=
  let '(s, n, manual) := match o with PinAuto s n => (s, n, false) | PinManual s n => (s, n, true) end in
  let s := trim_space s in
  if String.eqb s "" then t else if String.eqb n "" then delete s t else <[s := (n, manual)]> t.

Definition pins_refine (m : outboundManagerImpl) (t : pin_table) : Prop :=
  om_serverSelectedNode m = fst <$> t /\
  om_serverManualNode m = omap (fun p : string * bool => if p.2 then Some true else None) t /\
  map_Forall (fun _ p => p.1 <> ""%string) t.

Lemma spec_pin_refine m t o : pins_refine m t -> pins_refine (run_pin m o) (spec_pin t o).
Proof.
  intros (Hs & Hm & Ht).
  destruct o as [s n|s n]; cbn; unfold SetServerSelectedNode, SetServerSelectedNodeManual;
    destruct (String.eqb (trim_space s) ""); try done; destruct (String.eqb_spec n ""); cbn;
    unfold pins_refine; cbn; rewrite Hs, Hm.
  all: repeat split; try (by apply map_Forall_delete); try (by apply map_Forall_insert_2).
  all: rewrite ?fmap_delete, ?fmap_insert, ?omap_delete, ?omap_insert; done.
Qed.

(** The pinned nodes implement one table from a server to a node and a manual flag:
    whatever automatic and manual selections were made, reading the node and the
    flag of a server reads that table, so a server whose flag is set has a
    pinned node, and an automatic selection always clears the flag. *)
Theorem pins_refinement (gc : option GlobalConfig) (l : list pin_op) (server : string) :
  let m := fold_left run_pin l (NewOutboundManager gc) in
  let t := fold_left spec_pin l ∅ in
  let entry := if String.eqb (trim_space server) "" then None else t !! trim_space server in
  GetServerSelectedNode m server = fst <$> entry /\
  IsServerNodeManual m server = default false (snd <$> entry) /\
  (forall node, IsServerNodeManual (SetServerSelectedNode m server node) server = false).
Proof.
  intros m t entry. assert (pins_refine m t) as Hr.
  { assert (pins_refine (NewOutboundManager gc) ∅) as H0.
    { split; [by rewrite fmap_empty|]. split; [by rewrite omap_empty|]. apply map_Forall_empty. }
    subst m t. clear entry. revert H0. generalize (NewOutboundManager gc) (∅ : pin_table).
    induction l as [|o l IH]; [done|]. intros m t Ht. cbn. by apply IH, spec_pin_refine. }
  assert (forall m t, pins_refine m t ->
    IsServerNodeManual m server =
      default false (snd <$> if String.eqb (trim_space server) "" then None else t !! trim_space server)) as Hman.
  { clear. intros m t (_ & Hm & _). unfold IsServerNodeManual. rewrite Hm.
    destruct (String.eqb _ _); [done|]. rewrite lookup_omap. by destruct (t !! _) as [[n []]|]. }
  split; [|split; [by apply Hman|]].
  - destruct Hr as (Hs & _ & Ht). unfold GetServerSelectedNode, entry. rewrite Hs.
    destruct (String.eqb _ _); [done|]. rewrite lookup_fmap.
    destruct (t !! _) as [[n b]|] eqn:E; [|done]. cbn.
    by rewrite (proj2 (String.eqb_neq n "")) by apply (Ht _ _ E).
  - intros node. change (SetServerSelectedNode m server node) with (run_pin m (PinAuto server node)).
    rewrite (Hman _ _ (spec_pin_refine _ _ (PinAuto server node) Hr)). cbn.
    destruct (String.eqb (trim_space server) ""); [done|].
    destruct (String.eqb node ""); [by rewrite lookup_delete_eq|by rewrite lookup_insert_eq].
Qed.
End pins.

(** ** The latency of a node for a server *)

Section latency_theorems.
Context `{Unicode}.

(** A latency that was recorded is read back, for the same server, node and sort up
    to white space and case, until it is more than thirty minutes old or
    was not positive; recording it changes no other entry. *)
Theorem server_latency_roundtrip (getter : option server_getter) (m : outboundManagerImpl)
    (t now : gotime) (server node sort server' node' sort' : string) (ms : Z) :
  trim_space server <> ""%string -> trim_space node <> ""%string -> t <> 0 ->
  let m' := SetServerNodeLatency getter t m server node sort ms in
  let same := trim_space server' = trim_space server /\ trim_space node' = trim_space node /\
              normalizeSortBy sort' = normalizeSortBy sort in
  (same -> GetServerNodeLatency now m' server' node' sort' =
     if (t + serverNodeLatencyCacheTTL <? now) || (ms <=? 0) then None else Some ms) /\
  (~ same -> GetServerNodeLatency now m' server' node' sort' = GetServerNodeLatency now m server' node' sort').
Proof.
  intros Hs Hn Ht m' same. unfold m', SetServerNodeLatency, setServerNodeLatencyAt.
  rewrite (proj2 (String.eqb_neq (trim_space server) "")), (proj2 (String.eqb_neq (trim_space node) "")) by done.
  cbn [orb]. unfold GetServerNodeLatency, recorded, is_zero_time, set_latency. cbn [om_serverNodeLatency].
  split.
  - intros (-> & -> & ->). rewrite (proj2 (String.eqb_neq (trim_space server) "")),
      (proj2 (String.eqb_neq (trim_space node) "")) by done. cbn [orb].
    rewrite lookup_insert_eq. cbn [lv_updatedAt lv_latencyMs]. rewrite !(proj2 (Z.eqb_neq t 0)) by done.
    cbn [negb andb]. rewrite time_sub_gt; [|by vm_compute]. destruct (_ <? now); [done|]. by destruct (ms <=? 0).
  - intros Hne. destruct (_ || _); [done|]. rewrite lookup_insert_ne; [done|]. intros [=]. by apply Hne.
Qed.
End latency_theorems.

(** ** Witnesses *)

Definition example_group_node (name group : string) : ProxyOutbound :=
  {| Name := name; Type_ := "trojan"; Server := "s"; Port := 443; Enabled := true; Group := group;
     SubscriptionID := ""; SubscriptionName := ""; SubscriptionNodeID := ""; Username := ""; Method := "";
     Password := "p"; UUID := ""; AlterID := 0; Security := ""; Flow := ""; Obfs := ""; ObfsPassword := "";
     PortHopping := ""; HopInterval := 0; UpMbps := 0; DownMbps := 0; ALPN := ""; CertFingerprint := "";
     DisableMTU := false; IdleSessionCheckInterval := 0; IdleSessionTimeout := 0; MinIdleSession := 0;
     TLS := false; SNI := ""; Insecure := false; Fingerprint := ""; Reality := false;
     RealityPublicKey := ""; RealityShortID := ""; Network := ""; WSPath := ""; WSHost := "";
     XHTTPMode := ""; GRPCServiceName := ""; GRPCAuthority := ""; TCPLatencyMs := 40; HTTPLatencyMs := 0;
     UDPAvailable := Some true; UDPLatencyMs := 25; AutoSelectBlocked := false; AutoSelectBlockReason := "";
     AutoSelectBlockExpiresAt := None; runtime := None |}.

(** A manager with nodes added to the empty one. *)
Definition example_manager (nodes : list ProxyOutbound) : outboundManagerImpl :=
  fold_left (fun m p => (AddOutbound (H := ascii_unicode) m (Some p)).1.1) nodes (NewOutboundManager None).

Definition two_nodes : outboundManagerImpl :=
  example_manager [example_group_node "hk" "asia"; example_group_node "us" "west"].

Lemma example_manager_wf nodes :
  Forall (fun p => runtime p = None) nodes -> om_wf (H := ascii_unicode) (example_manager nodes).
Proof.
  intros Hn. unfold example_manager.
  assert (om_wf (H := ascii_unicode) (NewOutboundManager None)) as H0
    by (split; [intros ??|intros ?]; cbn; rewrite lookup_empty; [done|by intros [??]]).
  revert H0. generalize (NewOutboundManager None).
  induction Hn as [|p nodes Hp Hn IH]; intros m Hm; [done|]. cbn. apply IH, AddOutbound_wf; [done|].
  intros r. by rewrite Hp.
Qed.

Lemma two_nodes_wf : om_wf (H := ascii_unicode) two_nodes.
Proof. apply example_manager_wf. repeat constructor. Qed.

Lemma outbound_table_invariant_witness :
  let m := (AddOutbound (H := ascii_unicode) (NewOutboundManager None)
              (Some (example_group_node "hk" "asia"))).1.1 in
  exists o, om_outbounds m !! "hk"%string = Some o /\ Name o = "hk"%string.
Proof.
  intros m. destruct (om_outbounds m !! "hk"%string) as [o|] eqn:E; [|vm_compute in E; discriminate].
  exists o. split; [done|].
  refine (proj1 (outbound_table_invariant (H := ascii_unicode) None m "hk" o _ E)).
  apply rtc_once. apply (step_add (H := ascii_unicode)). intros r. discriminate.
Defined.

Lemma UpdateOutbound_spec_witness :
  let r := UpdateOutbound (H := ascii_unicode) two_nodes "hk" (Some (example_group_node "hk2" "asia")) in
  r.2 = None /\ om_outbounds r.1.1 !! "hk"%string = None /\
  om_outbounds r.1.1 !! "us"%string = om_outbounds two_nodes !! "us"%string.
Proof.
  pose proof (UpdateOutbound_spec (H := ascii_unicode) two_nodes "hk" (example_group_node "hk2" "asia")
    two_nodes_wf ltac:(intros r; discriminate)) as H.
  intros r. fold r in H. destruct r as [[m' c] err]. destruct H as (Hiff & _ & Hok).
  assert (err = None) as E.
  { apply Hiff. split; [vm_compute; reflexivity|].
    split; [vm_compute; eauto|right; vm_compute; reflexivity]. }
  split; [done|]. destruct (Hok E) as (_ & H1 & H2 & _). split; [by apply H1|by apply H2].
Defined.

Lemma AddOutbound_spec_witness :
  let r := AddOutbound (H := ascii_unicode) two_nodes (Some (example_group_node "jp" "asia")) in
  r.2 = None /\ exists c, GetOutbound r.1.1 "jp" = (r.1.1, Some c).
Proof.
  pose proof (AddOutbound_spec (H := ascii_unicode) two_nodes (example_group_node "jp" "asia")
    two_nodes_wf ltac:(intros r; discriminate)) as H.
  intros r. fold r in H. destruct r as [[m' c] err]. destruct H as (Hiff & _ & Hok).
  assert (err = None) as E by (apply Hiff; split; vm_compute; reflexivity).
  split; [done|]. destruct (Hok E) as (d & p' & H1 & _). by exists d.
Defined.

(** Two servers: one lists the node, the other selects its group. *)
Definition server_with (id sel : string) : ServerConfig := set_outbound sel "" "" (example_server id).

Definition example_configs : ConfigManager :=
  {| cm_servers := {["a" := server_with "a" "hk, us "; "b" := server_with "b" "@asia"]}; cm_disk := ∅ |}.


Lemma calculateGroupStats_spec_witness :
  exists st, calculateGroupStats two_nodes ["us"; "hk"]%string "asia" = Some st /\ 0 < gs_TotalCount st.
Proof.
  destruct (calculateGroupStats two_nodes ["us"; "hk"]%string "asia") as [st|] eqn:E;
    [|vm_compute in E; discriminate].
  exists st. split; [done|].
  refine (proj1 (proj2 (proj2 (calculateGroupStats_spec two_nodes ["us"; "hk"]%string "asia" st _ E)))).
  intros lat Hl. rewrite !elem_of_cons, elem_of_nil in Hl.
  destruct Hl as [->|[->|[->|[]]]]; vm_compute; reflexivity.
Defined.

Lemma server_latency_roundtrip_witness :
  let m := SetServerNodeLatency (H := ascii_unicode) None hour two_nodes "lobby" " hk" "UDP" 35 in
  GetServerNodeLatency (H := ascii_unicode) (hour + minute) m "lobby " "hk" "udp" = Some 35.
Proof.
  refine (eq_trans (proj1 (server_latency_roundtrip (H := ascii_unicode) None two_nodes hour (hour + minute)
    "lobby" " hk" "UDP" "lobby " "hk" "udp" 35 _ _ _) _) _); [by vm_compute..| |reflexivity].
  repeat split; vm_compute; reflexivity.
Defined.
