(* ===== verification/Dial.v ===== *)
(** * Dialling through a node: the rest of [internal/proxy/outbound_manager.go]

    Sing-box outbounds are created on first use, cached by node name, shared by
    concurrent calls and closed by deletions, updates, the idle cleanup, Reload
    and Stop.  [getOrCreateSingboxOutbound] and [recreateSingboxOutbound] are made
    of lock sections; [thread_step] runs one section of a call, and [dial_step]
    interleaves any number of calls with every other operation of the manager.
    The [singleflight.Group] that joins concurrent calls for one name only removes
    interleavings, so it does not appear.

    The creation of an outbound and the listening on it are library calls: their
    results are arguments, [None] for success and the text of the error
    otherwise.  Each attempt reads the clock once. *)

From Stdlib Require Import Strings.String.
From S2P Require Import Prelude GoBytes GoString Outbound OutboundManager.

(** ** Constants and errors *)

Definition MaxRetryAttempts : Z := 2.
Definition InitialRetryDelay : Z := 50 * millisecond.
Definition MaxRetryDelay : Z := 1 * second.
Definition RetryBackoffMultiple : Z := 2.

Inductive dial_err :=
| DialNotFound
| DialDisabled
| DialNoUDP
| DialUnhealthy (lastErr : string)
| DialNotRecreated (e : dial_err)
| DialFactory (text : string)
| DialNotCreated (e : dial_err)
| DialListen (text : string)
| DialMarkedUnhealthy (attempt : Z)
| DialAllRetriesFailed (lastErr : option dial_err)
| DialCancelled.

(** [Error()] of what [getOrCreateSingboxOutbound] returns. *)
Definition create_error_text (e : dial_err) : string :=
  match e with
  | DialFactory text => text
  | _ => "proxy outbound not found"
  end.

(** ** State

    The manager, the configuration each sing-box outbound was created from, by
    identifier, and the tracked connections. *)

Record trackedPacketConn := {
  tc_name : string;
  tc_cfg : ProxyOutbound;
  tc_closed : bool;
}.

Record dial_world := {
  dw_m : outboundManagerImpl;
  dw_made : list ProxyOutbound;
  dw_conns : list trackedPacketConn;
}.

Definition with_m (m : outboundManagerImpl) (w : dial_world) : dial_world :=
  {| dw_m := m; dw_made := dw_made w; dw_conns := dw_conns w |}.

(** The call of [singboxFactory.CreateUDPOutbound]. *)
Definition CreateUDPOutbound (r : option string) (cfg : ProxyOutbound) (w : dial_world)
  : dial_world * (singbox_id + dial_err) :=
  match r with
  | Some text => (w, inr (DialFactory text))
  | None =>
      ({| dw_m := dw_m w; dw_made := dw_made w ++ [cfg]; dw_conns := dw_conns w |},
       inl (length (dw_made w)))
  end.

(** A locked update of the runtime of a stored node. *)
Definition on_stored (f : proxyOutboundRuntime -> proxyOutboundRuntime) (name : string)
    (m : outboundManagerImpl) : outboundManagerImpl :=
  match om_outbounds m !! name with
  | None => m
  | Some cfg =>
      let '(cfg, h) := on_runtime f (om_runtimes m) cfg in
      set_nodes (<[name := cfg]> (om_outbounds m)) h m
  end.

(** [SetHealthy(false)], [SetLastError] and [SetLastCheck]. *)
Definition rt_failed (now : gotime) (text : string) (rt : proxyOutboundRuntime) : proxyOutboundRuntime :=
  rt_SetLastCheck now (rt_SetLastError text (rt_SetHealthy false rt)).

(** [SetHealthy(true)], [SetLastError("")] and [SetLastCheck]. *)
Definition rt_recovered (now : gotime) (rt : proxyOutboundRuntime) : proxyOutboundRuntime :=
  rt_SetLastCheck now (rt_SetLastError "" (rt_SetHealthy true rt)).

(** ** The lock sections of the sing-box cache *)

(** Under the write lock: the outbound, marked as used. *)
Definition touch_singbox (now : gotime) (name : string) (m : outboundManagerImpl)
  : outboundManagerImpl * option singbox_id :=
  match om_singbox m !! name with
  | Some current =>
      (set_singbox (om_singbox m) (<[name := now]> (om_singboxLastUsed m)) (om_closed m) m, Some current)
  | None => (m, None)
  end.

Definition close_singbox (sb : option singbox_id) (m : outboundManagerImpl) : outboundManagerImpl :=
  match sb with
  | Some sb => set_singbox (om_singbox m) (om_singboxLastUsed m) (om_closed m ++ [sb]) m
  | None => m
  end.

(** After a creation: the outbound that came first wins, the other is closed. *)
Definition insert_singbox (now : gotime) (name : string) (sb : singbox_id) (m : outboundManagerImpl)
  : outboundManagerImpl * singbox_id :=
  match om_singbox m !! name with
  | Some existing =>
      (close_singbox (Some sb)
         (set_singbox (om_singbox m) (<[name := now]> (om_singboxLastUsed m)) (om_closed m) m), existing)
  | None =>
      (set_singbox (<[name := sb]> (om_singbox m)) (<[name := now]> (om_singboxLastUsed m))
         (om_closed m) m, sb)
  end.

(** The first section of [recreateSingboxOutbound]: a copy of the configuration and
    the cached outbound, which leaves the cache. *)
Definition recreate_begin (name : string) (m : outboundManagerImpl)
  : outboundManagerImpl * option (ProxyOutbound * option singbox_id) :=
  match om_outbounds m !! name with
  | None => (m, None)
  | Some cfg =>
      let '(cfgCopy, cfg, h) := Clone (om_runtimes m) cfg in
      let existing := om_singbox m !! name in
      let m := set_nodes (<[name := cfg]> (om_outbounds m)) h m in
      (set_singbox (delete name (om_singbox m)) (delete name (om_singboxLastUsed m)) (om_closed m) m,
       Some (cfgCopy, existing))
  end.

(** [currentCfg] and its clone. *)
Definition load_config (name : string) (m : outboundManagerImpl)
  : outboundManagerImpl * option ProxyOutbound :=
  match om_outbounds m !! name with
  | None => (m, None)
  | Some cfg =>
      let '(clone, cfg, h) := Clone (om_runtimes m) cfg in
      (set_nodes (<[name := cfg]> (om_outbounds m)) h m, Some clone)
  end.

(** ** Calls as threads *)

Inductive pc :=
| PCheck (first : bool) (name : string)
| PTouch (first : bool) (name : string)
| PLoad (name : string)
| PRecreate (name : string)
| PClose (name : string) (cfg : ProxyOutbound) (existing : option singbox_id)
| PCreate (name : string) (cfg : ProxyOutbound)
| PInsert (name : string) (sb : singbox_id)
| PDone (result : singbox_id + dial_err).

(** After a miss: the second look at the cache, then the creation. *)
Definition missed (first : bool) (name : string) : pc :=
  if first then PCheck false name else PLoad name.

Definition thread_step (now : gotime) (r : option string) (p : pc) (w : dial_world) : pc * dial_world :=
  match p with
  | PCheck first name =>
      (if bool_decide (is_Some (om_singbox (dw_m w) !! name)) then PTouch first name
       else missed first name, w)
  | PTouch first name =>
      match touch_singbox now name (dw_m w) with
      | (m, Some sb) => (PDone (inl sb), with_m m w)
      | (m, None) => (missed first name, with_m m w)
      end
  | PLoad name =>
      match load_config name (dw_m w) with
      | (m, Some cfg) => (PCreate name cfg, with_m m w)
      | (m, None) => (PDone (inr DialNotFound), with_m m w)
      end
  | PRecreate name =>
      match recreate_begin name (dw_m w) with
      | (m, Some (cfg, existing)) => (PClose name cfg existing, with_m m w)
      | (m, None) => (PDone (inr DialNotFound), with_m m w)
      end
  | PClose name cfg existing => (PCreate name cfg, with_m (close_singbox existing (dw_m w)) w)
  | PCreate name cfg =>
      match CreateUDPOutbound r cfg w with
      | (w, inl sb) => (PInsert name sb, w)
      | (w, inr e) => (PDone (inr e), w)
      end
  | PInsert name sb =>
      let '(m, sb) := insert_singbox now name sb (dw_m w) in (PDone (inl sb), with_m m w)
  | PDone result => (p, w)
  end.

(** ** Calls without interference *)

(** A look at the cache under the read lock, then under the write lock. *)
Definition find_singbox (now : gotime) (name : string) (m : outboundManagerImpl)
  : outboundManagerImpl * option singbox_id :=
  if bool_decide (is_Some (om_singbox m !! name)) then touch_singbox now name m else (m, None).

Definition create_and_insert (now : gotime) (r : option string) (name : string) (cfg : ProxyOutbound)
    (w : dial_world) : dial_world * (singbox_id + dial_err) :=
  match CreateUDPOutbound r cfg w with
  | (w, inr e) => (w, inr e)
  | (w, inl sb) => let '(m, sb) := insert_singbox now name sb (dw_m w) in (with_m m w, inl sb)
  end.

Definition getOrCreateSingboxOutbound (now : gotime) (r : option string) (cfg : ProxyOutbound)
    (w : dial_world) : dial_world * (singbox_id + dial_err) :=
  let name := Name cfg in
  match find_singbox now name (dw_m w) with
  | (m, Some existing) => (with_m m w, inl existing)
  | (m, None) =>
      match find_singbox now name m with
      | (m, Some existing) => (with_m m w, inl existing)
      | (m, None) =>
          match load_config name m with
          | (m, None) => (with_m m w, inr DialNotFound)
          | (m, Some currentCfg) => create_and_insert now r name currentCfg (with_m m w)
          end
      end
  end.

Definition recreateSingboxOutbound (now : gotime) (r : option string) (name : string) (w : dial_world)
  : dial_world * (singbox_id + dial_err) :=
  match recreate_begin name (dw_m w) with
  | (m, None) => (with_m m w, inr DialNotFound)
  | (m, Some (cfgCopy, existing)) =>
      create_and_insert now r name cfgCopy (with_m (close_singbox existing m) w)
  end.

(** ** Connections *)

(** What follows [success:]. *)
Definition dial_success (now : gotime) (outboundName : string) (cfg : ProxyOutbound) (w : dial_world)
  : dial_world * (nat + dial_err) :=
  match om_outbounds (dw_m w) !! outboundName with
  | Some _ =>
      let m := on_stored (fun rt => rt_recovered now (rt_IncrConnCount now rt)) outboundName (dw_m w) in
      ({| dw_m := m; dw_made := dw_made w;
          dw_conns := dw_conns w ++ [{| tc_name := outboundName; tc_cfg := cfg; tc_closed := false |}] |},
       inl (length (dw_conns w)))
  | None => (w, inr DialNotFound)
  end.

(** [trackedPacketConn.Close], which acts once. *)
Definition Close (now : gotime) (i : nat) (w : dial_world) : dial_world :=
  match dw_conns w !! i with
  | Some c =>
      if tc_closed c then w else
      {| dw_m := on_stored (rt_DecrConnCount now) (tc_name c) (dw_m w); dw_made := dw_made w;
         dw_conns := <[i := {| tc_name := tc_name c; tc_cfg := tc_cfg c; tc_closed := true |}]> (dw_conns w) |}
  | None => w
  end.

(** The accounting of [trackedPacketConn.ReadFrom] and [WriteTo]; [n] is what the
    connection below returned. *)
Definition count_traffic (add : runtime_heap -> ProxyOutbound -> ProxyOutbound * runtime_heap)
    (i : nat) (n : Z) (w : dial_world) : dial_world :=
  match dw_conns w !! i with
  | Some c =>
      if 0 <? n then
        let '(cfg, h) := add (om_runtimes (dw_m w)) (tc_cfg c) in
        {| dw_m := set_nodes (om_outbounds (dw_m w)) h (dw_m w); dw_made := dw_made w;
           dw_conns := <[i := {| tc_name := tc_name c; tc_cfg := cfg; tc_closed := tc_closed c |}]> (dw_conns w) |}
      else w
  | None => w
  end.

Definition ReadFrom (now : gotime) (i : nat) (n : Z) : dial_world -> dial_world :=
  count_traffic (AddBytesDown now n) i n.
Definition WriteTo (now : gotime) (i : nat) (n : Z) : dial_world -> dial_world :=
  count_traffic (AddBytesUp now n) i n.

(** ** Dialling *)

Section dial.
Context `{Unicode}.

Definition shouldRecreateSingboxUDPOutbound (cfg : ProxyOutbound) (err : string) : bool :=
  let errText := to_lower err in
  if String.eqb (Type_ cfg) ProtocolHysteria2 then
    contains errText "connection closed" || contains errText "closed" || contains errText "eof"
    || contains errText "after retries"
  else if String.eqb (Type_ cfg) ProtocolAnyTLS then
    contains errText "connection closed" || contains errText "closed" || contains errText "eof"
    || contains errText "broken pipe" || contains errText "reset by peer"
  else false.

(** The clock and the library results of one attempt; [at_done] and [at_done_wait] say
    that the context is cancelled before the attempt and during the wait. *)
Record attempt := {
  at_now : gotime;
  at_done : bool;
  at_create : option string;
  at_listen : option string;
  at_recreate : option string;
  at_relisten : option string;
  at_done_wait : bool;
}.

Definition dialPacketConnOnce (a : attempt) (outboundName : string) (w : dial_world)
  : dial_world * (nat + dial_err) :=
  let now := at_now a in
  match om_outbounds (dw_m w) !! outboundName with
  | None => (w, inr DialNotFound)
  | Some cfg =>
      match getOrCreateSingboxOutbound now (at_create a) cfg w with
      | (w, inr err) =>
          (with_m (on_stored (rt_failed now (create_error_text err)) outboundName (dw_m w)) w,
           inr (DialNotCreated err))
      | (w, inl _) =>
          match at_listen a with
          | None => dial_success now outboundName cfg w
          | Some err =>
              if shouldRecreateSingboxUDPOutbound cfg err then
                let '(w, recreated) := recreateSingboxOutbound now (at_recreate a) outboundName w in
                let failed err :=
                  (with_m (on_stored (rt_SetLastCheck now) outboundName (dw_m w)) w,
                   inr (DialListen err)) in
                match recreated with
                | inl _ =>
                    match at_relisten a with
                    | None => dial_success now outboundName cfg w
                    | Some err => failed err
                    end
                | inr _ => failed err
                end
              else
                (with_m (on_stored (rt_failed now err) outboundName (dw_m w)) w, inr (DialListen err))
          end
      end
  end.

(** [r] is the result of a creation. *)
Definition prepareDialPacketConn (now : gotime) (r : option string) (outboundName : string)
    (w : dial_world) : dial_world * option dial_err :=
  match om_outbounds (dw_m w) !! outboundName with
  | None => (w, Some DialNotFound)
  | Some cfg =>
      if negb (Enabled cfg) then (w, Some DialDisabled) else
      if negb (outboundSupportsUDP cfg) then (w, Some DialNoUDP) else
      let h := om_runtimes (dw_m w) in
      let lastErr := GetLastError h cfg in
      if negb (GetHealthy h cfg) && negb (String.eqb lastErr "") then
        if time_sub now (GetLastCheck h cfg) <? 30 * second then (w, Some (DialUnhealthy lastErr)) else
        match recreateSingboxOutbound now r outboundName w with
        | (w, inr err) => (w, Some (DialNotRecreated err))
        | (w, inl _) => (w, None)
        end
      else (w, None)
  end.

(** The loop [for attempt := 1; attempt <= MaxRetryAttempts; attempt++]; [fuel] is the
    number of attempts left.  The delays waited are returned too. *)
Fixpoint retry_loop (fuel : nat) (attempts : Z -> attempt) (outboundName : string) (attempt retryDelay : Z)
    (lastErr : option dial_err) (w : dial_world) : dial_world * (nat + dial_err) * list Z :=
  match fuel with
  | O => (w, inr (DialAllRetriesFailed lastErr), [])
  | S fuel =>
      let a := attempts attempt in
      if at_done a then (w, inr DialCancelled, []) else
      match dialPacketConnOnce a outboundName w with
      | (w, inl conn) => (w, inl conn, [])
      | (w, inr err) =>
          match om_outbounds (dw_m w) !! outboundName with
          | None => (w, inr DialNotFound, [])
          | Some cfg =>
              let h := om_runtimes (dw_m w) in
              if negb (GetHealthy h cfg) && negb (String.eqb (GetLastError h cfg) "")
              then (w, inr (DialMarkedUnhealthy attempt), [])
              else if attempt =? MaxRetryAttempts then (w, inr (DialAllRetriesFailed (Some err)), [])
              else if at_done_wait a then (w, inr DialCancelled, [])
              else
                let next := Z.min (retryDelay * RetryBackoffMultiple) MaxRetryDelay in
                let '(w, result, waits) :=
                  retry_loop fuel attempts outboundName (attempt + 1) next (Some err) w in
                (w, result, retryDelay :: waits)
          end
      end
  end.

Definition dialWithRetry (attempts : Z -> attempt) (outboundName : string) (w : dial_world)
  : dial_world * (nat + dial_err) * list Z :=
  retry_loop (Z.to_nat MaxRetryAttempts) attempts outboundName 1 InitialRetryDelay None w.

(** The clock and the creation of the preparation, and the attempts. *)
Definition DialPacketConn (now : gotime) (r : option string) (attempts : Z -> attempt)
    (outboundName : string) (w : dial_world) : dial_world * (nat + dial_err) * list Z :=
  match prepareDialPacketConn now r outboundName w with
  | (w, Some err) => (w, inr err, [])
  | (w, None) => dialWithRetry attempts outboundName w
  end.

Definition DialPacketConnNoRetry (now : gotime) (r : option string) (a : attempt)
    (outboundName : string) (w : dial_world) : dial_world * (nat + dial_err) :=
  match prepareDialPacketConn now r outboundName w with
  | (w, Some err) => (w, inr err)
  | (w, None) => dialPacketConnOnce a outboundName w
  end.

(** ** Health checks *)

Inductive check_err := CheckNotFound | CheckNotCreated (text : string) | CheckNoConnection (text : string).

(** The two library calls are made without the lock; [create] and [dial] are their
    results, [now] the clock at the end and [latency] the time elapsed. *)
Definition check_end (now : gotime) (latency : Z) (create dial : option string) (name : string)
    (m : outboundManagerImpl) : outboundManagerImpl * option check_err :=
  match create with
  | Some text =>
      (on_stored (fun rt => rt_SetLatency 0
                    (rt_failed now (append "failed to create outbound: " text) rt)) name m,
       Some (CheckNotCreated text))
  | None =>
      match om_outbounds m !! name with
      | None => (m, Some CheckNotFound)
      | Some _ =>
          let m := on_stored (fun rt => rt_SetLatency latency (rt_SetLastCheck now rt)) name m in
          match dial with
          | Some text =>
              (on_stored (fun rt => rt_SetLastError (append "connection failed: " text)
                            (rt_SetHealthy false rt)) name m, Some (CheckNoConnection text))
          | None => (on_stored (rt_recovered now) name m, None)
          end
      end
  end.

Definition CheckHealth (now : gotime) (latency : Z) (create dial : option string) (name : string)
    (m : outboundManagerImpl) : outboundManagerImpl * option check_err :=
  match om_outbounds m !! name with
  | None => (m, Some CheckNotFound)
  | Some cfg =>
      if isMetadataLikeOutboundName (Name cfg) then (m, Some CheckNotFound)
      else check_end now latency create dial name m
  end.

(** ** Idle cleanup, Reload and Stop *)

Definition busy (m : outboundManagerImpl) (name : string) : bool :=
  match om_outbounds m !! name with
  | Some cfg => 0 <? GetConnCount (om_runtimes m) cfg
  | None => false
  end.

(** One name of the range over [singboxLastUsed]. *)
Definition close_idle (now : gotime) (m : outboundManagerImpl) (name : string) : outboundManagerImpl :=
  match om_singboxLastUsed m !! name with
  | None => m
  | Some lastUsed =>
      if busy m name then m
      else if OutboundIdleTimeout <? time_sub now lastUsed then drop_singbox name m
      else m
  end.

(** One tick of [cleanupIdleOutbounds]; [order] is the iteration order. *)
Definition cleanup_tick (now : gotime) (order : list string) (m : outboundManagerImpl)
  : outboundManagerImpl :=
  cleanupExpiredOutboundLatencyHistory now
    (cleanupExpiredServerNodeLatencyHistory now (fold_left (close_idle now) order m)).

(** One node of the first loop of [Reload]; [r] gives the result of the creation for a name. *)
Definition reload_node (now : gotime) (r : string -> option string) (w : dial_world) (name : string)
  : dial_world :=
  match om_outbounds (dw_m w) !! name with
  | None => w
  | Some cfg =>
      if negb (Enabled cfg) then with_m (drop_singbox name (dw_m w)) w else
      match om_singbox (dw_m w) !! name with
      | Some _ => w
      | None =>
          match CreateUDPOutbound (r name) cfg w with
          | (w, inr e) =>
              let text := append "failed to create outbound: " (create_error_text e) in
              with_m (on_stored (rt_failed now text) name (dw_m w)) w
          | (w, inl sb) =>
              let m := dw_m w in
              let m := set_singbox (<[name := sb]> (om_singbox m)) (<[name := now]> (om_singboxLastUsed m))
                         (om_closed m) m in
              with_m (on_stored (rt_recovered now) name m) w
          end
      end
  end.

(** One name of the second loop of [Reload]. *)
Definition reload_removed (m : outboundManagerImpl) (name : string) : outboundManagerImpl :=
  match om_outbounds m !! name with
  | None => drop_singbox name m
  | Some _ => m
  end.

Definition Reload (now : gotime) (r : string -> option string) (nodes cached : list string) (w : dial_world)
  : dial_world :=
  let w := fold_left (reload_node now r) nodes w in
  with_m (fold_left reload_removed cached (dw_m w)) w.

(** The wait of [Stop] for at most 10 s: [active k] is the number of connections at the
    [k]-th look.  The number of looks that found some. *)
Fixpoint stop_wait (fuel : nat) (active : nat -> Z) (k : nat) (waited : Z) : nat :=
  match fuel with
  | O => k
  | S fuel =>
      if waited <? 10 * second then
        if active k =? 0 then k
        else stop_wait fuel active (S k) (waited + 100 * millisecond)
      else k
  end.

(** The last section of [Stop]. *)
Definition stop_close (order : list string) (m : outboundManagerImpl) : outboundManagerImpl :=
  set_singbox ∅ ∅ (om_closed m ++ omap (fun name => om_singbox m !! name) order) m.

(** ** Interleavings *)

Inductive dial_step : dial_world * list pc -> dial_world * list pc -> Prop :=
| step_manager w ts m' : om_step (dw_m w) m' -> dial_step (w, ts) (with_m m' w, ts)
| step_call_get w ts name : dial_step (w, ts) (w, ts ++ [PCheck true name])
| step_call_recreate w ts name : dial_step (w, ts) (w, ts ++ [PRecreate name])
| step_thread w ts i p now r :
    ts !! i = Some p ->
    dial_step (w, ts) ((thread_step now r p w).2, <[i := (thread_step now r p w).1]> ts)
| step_open w ts now name cfg : dial_step (w, ts) ((dial_success now name cfg w).1, ts)
| step_close w ts now i : dial_step (w, ts) (Close now i w, ts)
| step_read w ts now i n : dial_step (w, ts) (ReadFrom now i n w, ts)
| step_write w ts now i n : dial_step (w, ts) (WriteTo now i n w, ts)
| step_check w ts now latency create dial name :
    dial_step (w, ts) (with_m (CheckHealth now latency create dial name (dw_m w)).1 w, ts)
| step_tick w ts now order : dial_step (w, ts) (with_m (cleanup_tick now order (dw_m w)) w, ts)
| step_reload w ts now r nodes cached : dial_step (w, ts) (Reload now r nodes cached w, ts)
| step_stop w ts order :
    order ≡ₚ (map_to_list (om_singbox (dw_m w))).*1 ->
    dial_step (w, ts) (with_m (stop_close order (dw_m w)) w, ts).

Definition dial_initial (gc : option Config.GlobalConfig) : dial_world :=
  {| dw_m := NewOutboundManager gc; dw_made := []; dw_conns := [] |}.
End dial.

(** * Facts *)

(** ** Sections on a well-formed manager *)

Section sections.
Context `{Unicode}.

Lemma set_nodes_id m : set_nodes (om_outbounds m) (om_runtimes m) m = m.
Proof. by destruct m. Qed.

Lemma load_config_stored name m : om_wf m -> load_config name m = (m, om_outbounds m !! name).
Proof.
  intros [Ht _]. unfold load_config. destruct (om_outbounds m !! name) as [o|] eqn:E; [|done].
  destruct (Ht name o E) as (_ & _ & _ & Hr).
  by rewrite Clone_stored, insert_id, set_nodes_id.
Qed.

(** What [recreate_begin] leaves: the cached outbound is out of the cache, not closed. *)
Definition uncached (name : string) (m : outboundManagerImpl) : outboundManagerImpl :=
  set_singbox (delete name (om_singbox m)) (delete name (om_singboxLastUsed m)) (om_closed m) m.

Lemma recreate_begin_stored name m :
  om_wf m ->
  recreate_begin name m =
    match om_outbounds m !! name with
    | None => (m, None)
    | Some cfg => (uncached name m, Some (cfg, om_singbox m !! name))
    end.
Proof.
  intros [Ht _]. unfold recreate_begin, uncached. destruct (om_outbounds m !! name) as [o|] eqn:E; [|done].
  destruct (Ht name o E) as (_ & _ & _ & Hr).
  by rewrite Clone_stored, insert_id, set_nodes_id.
Qed.

(** A use of a stored node changes its runtime only. *)
Lemma on_stored_use f name m o r :
  om_outbounds m !! name = Some o -> runtime o = Some r ->
  on_stored f name m = set_nodes (om_outbounds m) (alter f r (om_runtimes m)) m.
Proof.
  intros E Hr. unfold on_stored, on_runtime.
  by rewrite E, (runtimeState_shared _ o r Hr), insert_id.
Qed.

Lemma on_stored_step f name m : om_wf m -> om_step m (on_stored f name m) \/ on_stored f name m = m.
Proof.
  intros [Ht _]. destruct (om_outbounds m !! name) as [o|] eqn:E.
  - destruct (Ht name o E) as (_ & _ & _ & [r Hr]). left.
    rewrite (on_stored_use f name m o r E Hr). constructor.
  - right. unfold on_stored. by rewrite E.
Qed.

Lemma on_stored_wf f name m : om_wf m -> om_wf (on_stored f name m).
Proof. intros Hw. destruct (on_stored_step f name m Hw) as [Hs| ->]; eauto using om_step_wf. Qed.

(** The managers that have the cache of [m]. *)
Definition same_cache (m m' : outboundManagerImpl) : Prop :=
  om_singbox m' = om_singbox m /\ om_singboxLastUsed m' = om_singboxLastUsed m /\
  om_closed m' = om_closed m.

Lemma on_stored_cache f name m : same_cache m (on_stored f name m).
Proof.
  unfold on_stored. destruct (om_outbounds m !! name); [|done]. by destruct (on_runtime _ _ _).
Qed.

Lemma on_stored_nodes f name m : om_wf m -> om_outbounds (on_stored f name m) = om_outbounds m.
Proof.
  intros [Ht _]. destruct (om_outbounds m !! name) as [o|] eqn:E.
  - destruct (Ht name o E) as (_ & _ & _ & [r Hr]). by rewrite (on_stored_use f name m o r E Hr).
  - unfold on_stored. by rewrite E.
Qed.

Lemma om_step_cache m m' : om_step m m' -> exists name, same_cache m m' \/ same_cache (drop_singbox name m) m'.
Proof.
  destruct 1 as [m p _|m name|m name p _|m name|m f r].
  - exists ""%string. left. unfold AddOutbound. destruct (Validate p); [done|].
    destruct (om_outbounds m !! Name p); [done|]. by destruct (Clone _ _) as [[??]?].
  - exists ""%string. left. unfold GetOutbound. destruct (om_outbounds m !! name); [|done].
    by destruct (Clone _ _) as [[??]?].
  - exists name. unfold UpdateOutbound. destruct (Validate p); [by left|].
    destruct (om_outbounds m !! name); [|by left]. destruct (_ && _); [by left|]. right.
    by destruct (Clone _ _) as [[??]?].
  - exists name. unfold DeleteOutboundNoCascade. destruct (om_outbounds m !! name); [by right|by left].
  - exists ""%string. by left.
Qed.

(** ** A call alone is a run of its sections *)

Lemma find_singbox_touch now name m : find_singbox now name m = touch_singbox now name m.
Proof.
  unfold find_singbox, touch_singbox. destruct (om_singbox m !! name); [done|].
  by rewrite bool_decide_eq_false_2 by (by intros []).
Qed.

Lemma with_m_dw w : with_m (dw_m w) w = w.
Proof. by destruct w. Qed.

Fixpoint run_alone (sections : nat) (now : gotime) (r : option string) (p : pc) (w : dial_world)
  : pc * dial_world :=
  match sections with
  | O => (p, w)
  | S k => let '(p, w) := thread_step now r p w in run_alone k now r p w
  end.

Lemma run_alone_done k now r result w : run_alone k now r (PDone result) w = (PDone result, w).
Proof. by induction k. Qed.

Lemma run_alone_S k now r p w :
  run_alone (S k) now r p w = run_alone k now r (thread_step now r p w).1 (thread_step now r p w).2.
Proof. cbn [run_alone]. by destruct (thread_step now r p w). Qed.

Lemma run_alone_create k now r name cfg w :
  run_alone (S (S k)) now r (PCreate name cfg) w =
    (let '(w', result) := create_and_insert now r name cfg w in (PDone result, w')).
Proof.
  unfold create_and_insert. rewrite run_alone_S. cbn [thread_step].
  destruct (CreateUDPOutbound r cfg w) as [w1 [sb|e]]; cbn [fst snd].
  - rewrite run_alone_S. cbn [thread_step]. destruct (insert_singbox now name sb (dw_m w1)).
    apply run_alone_done.
  - apply run_alone_done.
Qed.

(** A call that nothing interrupts, run section by section, ends in at most five
    sections with the result and the state of [getOrCreateSingboxOutbound] or
    [recreateSingboxOutbound]. *)
Theorem calls_run_to_end (now : gotime) (r : option string) (cfg : ProxyOutbound) (name : string)
    (w : dial_world) :
  run_alone 5 now r (PCheck true (Name cfg)) w =
    (let '(w', result) := getOrCreateSingboxOutbound now r cfg w in (PDone result, w')) /\
  run_alone 5 now r (PRecreate name) w =
    (let '(w', result) := recreateSingboxOutbound now r name w in (PDone result, w')).
Proof.
  split.
  - unfold getOrCreateSingboxOutbound. rewrite !find_singbox_touch, run_alone_S. unfold touch_singbox.
    cbn [thread_step]. destruct (om_singbox (dw_m w) !! Name cfg) as [sb|] eqn:E.
    + rewrite bool_decide_eq_true_2 by done. rewrite run_alone_S. cbn [thread_step fst snd].
      unfold touch_singbox. rewrite E. apply run_alone_done.
    + rewrite find_singbox_touch. unfold touch_singbox. rewrite E.
      rewrite bool_decide_eq_false_2 by (by intros []). cbn [fst snd missed].
      rewrite run_alone_S. cbn [thread_step fst snd].
      rewrite E, bool_decide_eq_false_2 by (by intros []). cbn [missed].
      rewrite run_alone_S. cbn [thread_step fst snd].
      destruct (load_config (Name cfg) (dw_m w)) as [m [c|]]; [|apply run_alone_done].
      apply run_alone_create.
  - unfold recreateSingboxOutbound. rewrite run_alone_S. cbn [thread_step].
    destruct (recreate_begin name (dw_m w)) as [m [[c ex]|]]; [|apply run_alone_done].
    rewrite run_alone_S. cbn [thread_step fst snd]. apply run_alone_create.
Qed.
End sections.

(** ** Ownership of the sing-box outbounds *)

Section ownership.
Context `{Unicode}.

Definition cached (m : outboundManagerImpl) : list singbox_id := (map_to_list (om_singbox m)).*2.

(** The outbound a call has created and not yet put in the cache, or taken out of the
    cache and not yet closed. *)
Definition pc_held (p : pc) : list singbox_id :=
  match p with
  | PClose _ _ (Some sb) => [sb]
  | PInsert _ sb => [sb]
  | _ => []
  end.

Definition held (ts : list pc) : list singbox_id := ts ≫= pc_held.

(** [sb] was created from a valid configuration of the node [name]. *)
Definition made_for (made : list ProxyOutbound) (name : string) (sb : singbox_id) : Prop :=
  exists cfg, made !! sb = Some cfg /\ Name cfg = name /\ Validate cfg = None.

Definition pc_ok (made : list ProxyOutbound) (p : pc) : Prop :=
  match p with
  | PClose name cfg _ | PCreate name cfg => Name cfg = name /\ Validate cfg = None
  | PInsert name sb => made_for made name sb
  | _ => True
  end.

Record cache_inv (st : dial_world * list pc) : Prop := {
  ci_table : om_wf (dw_m st.1);
  ci_used : forall name, is_Some (om_singbox (dw_m st.1) !! name) ->
    is_Some (om_singboxLastUsed (dw_m st.1) !! name);
  ci_owned : cached (dw_m st.1) ++ held st.2 ++ om_closed (dw_m st.1) ≡ₚ seq 0 (length (dw_made st.1));
  ci_named : forall name sb, om_singbox (dw_m st.1) !! name = Some sb -> made_for (dw_made st.1) name sb;
  ci_calls : Forall (pc_ok (dw_made st.1)) st.2;
}.

Lemma cached_delete m name sb (m' : outboundManagerImpl) :
  om_singbox m !! name = Some sb -> om_singbox m' = delete name (om_singbox m) ->
  cached m ≡ₚ sb :: cached m'.
Proof.
  intros E E'. unfold cached. rewrite E'.
  by rewrite <- (map_to_list_delete _ _ _ E).
Qed.

Lemma cached_insert m name sb (m' : outboundManagerImpl) :
  om_singbox m !! name = None -> om_singbox m' = <[name := sb]> (om_singbox m) ->
  cached m' ≡ₚ sb :: cached m.
Proof. intros E E'. unfold cached. rewrite E'. by rewrite map_to_list_insert. Qed.

(** Replacing one call. *)
Lemma held_insert ts i p :
  ts !! i = Some p ->
  exists rest, held ts ≡ₚ pc_held p ++ rest /\ forall q, held (<[i := q]> ts) ≡ₚ pc_held q ++ rest.
Proof.
  intros E. exists (held (take i ts) ++ held (drop (S i) ts)).
  assert (forall q l k, held (l ++ q :: k) ≡ₚ pc_held q ++ held l ++ held k) as Hp.
  { intros q l k. unfold held. rewrite bind_app. cbn. rewrite !app_assoc. f_equiv. apply Permutation_app_comm. }
  split.
  - rewrite <- (take_drop_middle ts i p E) at 1. apply Hp.
  - intros q. rewrite insert_take_drop by (by eapply lookup_lt_Some). apply Hp.
Qed.

Lemma held_same ts i p q : ts !! i = Some p -> pc_held q = pc_held p -> held (<[i := q]> ts) ≡ₚ held ts.
Proof. intros E Eq. destruct (held_insert ts i p E) as (rest & -> & ->). by rewrite Eq. Qed.

(** A step that leaves the cache alone. *)
Lemma inv_same m' w ts :
  cache_inv (w, ts) -> om_wf m' -> same_cache (dw_m w) m' -> cache_inv (with_m m' w, ts).
Proof.
  intros [Ht Hu Ho Hn Hc] Hw (E1 & E2 & E3). split; cbn in *; unfold cached in *; rewrite ?E1, ?E2, ?E3; done.
Qed.

(** Several lists of identifiers make one: count each of them. *)
Ltac count_ids :=
  rewrite ?(Permutation_count_occ Nat.eq_dec) in *;
  let x := fresh "x" in intros x;
  repeat match goal with H : forall _ : nat, _ = _ |- _ => specialize (H x) end;
  cbn [app] in *;
  rewrite ?count_occ_app in *; cbn [count_occ] in *;
  rewrite ?count_occ_app in *; cbn [count_occ] in *;
  repeat match goal with |- context [Nat.eq_dec ?a ?b] => destruct (Nat.eq_dec a b) end;
  repeat match goal with H : context [Nat.eq_dec ?a ?b] |- _ => destruct (Nat.eq_dec a b) end;
  lia.

Lemma inv_drop_singbox name w ts : cache_inv (w, ts) -> cache_inv (with_m (drop_singbox name (dw_m w)) w, ts).
Proof.
  intros [Ht Hu Ho Hn Hc].
  pose proof (om_wf_drop name _ Ht) as Hw. pose proof (om_singbox_drop name (dw_m w)) as Hs.
  unfold drop_singbox in *. cbn [fst snd] in *.
  destruct (om_singbox (dw_m w) !! name) as [sb|] eqn:E; [|by rewrite with_m_dw].
  split; cbn [fst snd with_m dw_m dw_made]; [done| | | |done].
  - cbn. intros n. rewrite !lookup_delete_is_Some. naive_solver.
  - pose proof (cached_delete _ name sb _ E Hs) as Hp. cbn [om_closed set_singbox] in *. count_ids.
  - cbn. intros n s [_ ?]%lookup_delete_Some. auto.
Qed.

Lemma made_for_app made cfg name sb : made_for made name sb -> made_for (made ++ [cfg]) name sb.
Proof. intros (c & Hc & ?). exists c. split; [|done]. by apply lookup_app_l_Some. Qed.

Lemma pc_ok_app made cfg p : pc_ok made p -> pc_ok (made ++ [cfg]) p.
Proof. destruct p; cbn; auto using made_for_app. Qed.

Lemma made_for_new made cfg name :
  Name cfg = name -> Validate cfg = None -> made_for (made ++ [cfg]) name (length made).
Proof. intros. exists cfg. split; [|done]. by rewrite list_lookup_middle. Qed.

(** A step of a call that only moves it on. *)
Lemma inv_moved w ts i p q :
  cache_inv (w, ts) -> ts !! i = Some p -> pc_held q = pc_held p -> pc_ok (dw_made w) q ->
  cache_inv (w, <[i := q]> ts).
Proof.
  intros [Ht Hu Ho Hn Hc] E Eq Hq. split; cbn in *; try done.
  - by rewrite (held_same ts i p q E Eq).
  - by apply Forall_insert.
Qed.

(** Marking the last use of a cached outbound. *)
Lemma inv_used name now w ts :
  cache_inv (w, ts) -> is_Some (om_singbox (dw_m w) !! name) ->
  cache_inv (with_m (set_singbox (om_singbox (dw_m w)) (<[name := now]> (om_singboxLastUsed (dw_m w)))
                       (om_closed (dw_m w)) (dw_m w)) w, ts).
Proof.
  intros [[Ht1 Ht2] Hu Ho Hn Hc] Hs. split; cbn in *; try done.
  - split; [done|]. cbn. intros n. rewrite lookup_insert_is_Some. intros [<-|[_ ?]]; auto.
  - intros n ?. rewrite lookup_insert_is_Some. destruct (decide (name = n)); auto.
Qed.

Lemma inv_touch w ts i first name now r :
  cache_inv (w, ts) -> ts !! i = Some (PTouch first name) ->
  cache_inv ((thread_step now r (PTouch first name) w).2,
             <[i := (thread_step now r (PTouch first name) w).1]> ts).
Proof.
  intros Hi E. cbn [thread_step]. unfold touch_singbox.
  destruct (om_singbox (dw_m w) !! name) as [sb|] eqn:Es; cbn [fst snd].
  - apply (inv_moved _ _ i (PTouch first name)); try done. by apply inv_used.
  - rewrite with_m_dw. apply (inv_moved _ _ i (PTouch first name)); try done; by destruct first.
Qed.

Lemma inv_recreate w ts i name now r :
  cache_inv (w, ts) -> ts !! i = Some (PRecreate name) ->
  cache_inv ((thread_step now r (PRecreate name) w).2, <[i := (thread_step now r (PRecreate name) w).1]> ts).
Proof.
  intros [[Ht1 Ht2] Hu Ho Hn Hc] E. cbn [thread_step fst snd] in *.
  rewrite recreate_begin_stored by done.
  destruct (om_outbounds (dw_m w) !! name) as [cfg|] eqn:Ec; cbn [fst snd].
  2: { rewrite with_m_dw. by apply (inv_moved _ _ i (PRecreate name)). }
  destruct (Ht1 name cfg Ec) as (Hname & Hv & _).
  split; cbn [fst snd with_m dw_m dw_made].
  - split; [done|]. cbn. intros n. rewrite !lookup_delete_is_Some. naive_solver.
  - cbn. intros n. rewrite !lookup_delete_is_Some. naive_solver.
  - destruct (held_insert ts i _ E) as (rest & Hr & Hi). rewrite Hi. cbn [pc_held app] in *.
    destruct (om_singbox (dw_m w) !! name) as [sb|] eqn:Es.
    + pose proof (cached_delete _ name sb (uncached name (dw_m w)) Es eq_refl) as Hp.
      cbn [om_closed set_singbox uncached] in *. count_ids.
    + unfold cached in *. cbn. rewrite delete_id by done. by rewrite Hr in Ho.
  - cbn. intros n sb [_ ?]%lookup_delete_Some. auto.
  - by apply Forall_insert.
Qed.

Lemma inv_close_existing w ts i name cfg existing now r :
  cache_inv (w, ts) -> ts !! i = Some (PClose name cfg existing) ->
  cache_inv ((thread_step now r (PClose name cfg existing) w).2,
             <[i := (thread_step now r (PClose name cfg existing) w).1]> ts).
Proof.
  intros [Ht Hu Ho Hn Hc] E. cbn [thread_step fst snd] in *.
  pose proof (Forall_lookup_1 _ _ _ _ Hc E) as Hp.
  destruct (held_insert ts i _ E) as (rest & Hr & Hi).
  split; cbn [fst snd with_m dw_m dw_made].
  1,2,4: by destruct existing.
  - rewrite Hi. destruct existing as [sb|]; cbn [pc_held close_singbox om_closed set_singbox app] in *.
    + unfold cached in *. cbn [om_singbox set_singbox]. count_ids.
    + by rewrite Hr in Ho.
  - by apply Forall_insert.
Qed.

Lemma inv_create w ts i name cfg now r :
  cache_inv (w, ts) -> ts !! i = Some (PCreate name cfg) ->
  cache_inv ((thread_step now r (PCreate name cfg) w).2,
             <[i := (thread_step now r (PCreate name cfg) w).1]> ts).
Proof.
  intros Hw E. cbn [thread_step]. unfold CreateUDPOutbound.
  destruct r as [text|]; cbn [fst snd].
  { by apply (inv_moved _ _ i (PCreate name cfg)). }
  destruct Hw as [Ht Hu Ho Hn Hc]. destruct (Forall_lookup_1 _ _ _ _ Hc E) as [Hname Hv].
  split; cbn [fst snd dw_m dw_made] in *; [done|done| | |].
  - destruct (held_insert ts i _ E) as (rest & Hr & Hi). rewrite Hi, length_app. cbn [pc_held length] in *.
    rewrite Nat.add_1_r, seq_S. cbn [Nat.add]. count_ids.
  - eauto using made_for_app.
  - apply Forall_insert; [|by apply made_for_new]. eapply Forall_impl; [done|]. auto using pc_ok_app.
Qed.

Lemma inv_insert w ts i name sb now r :
  cache_inv (w, ts) -> ts !! i = Some (PInsert name sb) ->
  cache_inv ((thread_step now r (PInsert name sb) w).2,
             <[i := (thread_step now r (PInsert name sb) w).1]> ts).
Proof.
  intros [[Ht1 Ht2] Hu Ho Hn Hc] E. cbn [thread_step fst snd] in *. unfold insert_singbox.
  destruct (held_insert ts i _ E) as (rest & Hr & Hi).
  pose proof (Forall_lookup_1 _ _ _ _ Hc E) as Hmade. cbn [pc_held pc_ok] in *.
  destruct (om_singbox (dw_m w) !! name) as [ex|] eqn:Es; cbn [fst snd].
  all: split; cbn [fst snd with_m dw_m dw_made]; [split; [done|]| | | |by apply Forall_insert].
  - cbn. intros n. rewrite lookup_insert_is_Some. intros [<-|[_ ?]]; [by rewrite Es|auto].
  - cbn. intros n ?. rewrite lookup_insert_is_Some. destruct (decide (name = n)); auto.
  - rewrite Hi. unfold cached in *. cbn [om_singbox om_closed set_singbox close_singbox pc_held] in *. count_ids.
  - done.
  - cbn. intros n. rewrite !lookup_insert_is_Some. intros [<-|[? ?]]; auto.
  - cbn. intros n. rewrite !lookup_insert_is_Some. intros [<-|[? ?]]; auto.
  - rewrite Hi.
    match goal with |- cached ?m' ++ _ ≡ₚ _ =>
      pose proof (cached_insert (dw_m w) name sb m' Es eq_refl) as Hp end.
    cbn [om_closed set_singbox pc_held] in *. count_ids.
  - cbn. intros n s [[<- <-]|[_ ?]]%lookup_insert_Some; auto.
Qed.

Lemma inv_thread w ts i p now r :
  cache_inv (w, ts) -> ts !! i = Some p ->
  cache_inv ((thread_step now r p w).2, <[i := (thread_step now r p w).1]> ts).
Proof.
  intros Hi E.
  destruct p; auto using inv_touch, inv_recreate, inv_close_existing, inv_create, inv_insert.
  - cbn [thread_step fst snd]. apply (inv_moved _ _ i _ _ Hi E); by destruct (bool_decide _), first.
  - cbn [thread_step]. pose proof (ci_table _ Hi) as Ht. rewrite load_config_stored by done.
    destruct (om_outbounds (dw_m w) !! name) as [cfg|] eqn:Ec; cbn [fst snd]; rewrite with_m_dw;
      apply (inv_moved _ _ i _ _ Hi E); try done.
    destruct (proj1 Ht name cfg Ec) as (? & ? & _). done.
  - cbn [thread_step fst snd]. by apply (inv_moved _ _ i _ _ Hi E).
Qed.
End ownership.

Section reachable.
Context `{Unicode}.

Lemma inv_on_stored f name w ts : cache_inv (w, ts) -> cache_inv (with_m (on_stored f name (dw_m w)) w, ts).
Proof.
  intros Hi. apply inv_same; [done|apply on_stored_wf, (ci_table _ Hi)|apply on_stored_cache].
Qed.

(** Tracked connections own nothing. *)
Lemma inv_conns m conns w ts :
  cache_inv (with_m m w, ts) -> cache_inv ({| dw_m := m; dw_made := dw_made w; dw_conns := conns |}, ts).
Proof. intros [? ? ? ? ?]. by split. Qed.

Lemma inv_traffic add i n w ts :
  (forall h p, (length h <= length (add h p).2)%nat) ->
  cache_inv (w, ts) -> cache_inv (count_traffic add i n w, ts).
Proof.
  intros Hadd Hi. unfold count_traffic. destruct (dw_conns w !! i) as [c|]; [|done].
  destruct (0 <? n); [|done]. specialize (Hadd (om_runtimes (dw_m w)) (tc_cfg c)).
  destruct (add _ _) as [cfg h]. apply inv_conns, inv_same; [done| |done].
  pose proof (ci_table _ Hi) as Ht. apply om_wf_set_nodes; [done|].
  intros name o Ho. apply (stored_ok_mono (om_runtimes (dw_m w))); [done|by apply Ht].
Qed.

Lemma on_runtime_grows f h p : (length h <= length (on_runtime f h p).2)%nat.
Proof.
  unfold on_runtime, runtimeState. destruct (runtime p); cbn; rewrite length_alter; [done|].
  rewrite length_app. lia.
Qed.

Lemma inv_fold {A} (f : dial_world -> A -> dial_world) ts :
  (forall w x, cache_inv (w, ts) -> cache_inv (f w x, ts)) ->
  forall l w, cache_inv (w, ts) -> cache_inv (fold_left f l w, ts).
Proof. intros Hf l. induction l; cbn; auto. Qed.

Lemma inv_fold_m {A} (f : outboundManagerImpl -> A -> outboundManagerImpl) w ts :
  (forall m x, cache_inv (with_m m w, ts) -> cache_inv (with_m (f m x) w, ts)) ->
  forall l m, cache_inv (with_m m w, ts) -> cache_inv (with_m (fold_left f l m) w, ts).
Proof. intros Hf l. induction l; cbn; auto. Qed.

Lemma inv_drop_m name m w ts : cache_inv (with_m m w, ts) -> cache_inv (with_m (drop_singbox name m) w, ts).
Proof. apply (inv_drop_singbox name (with_m m w)). Qed.

Lemma inv_close_idle now m w ts name :
  cache_inv (with_m m w, ts) -> cache_inv (with_m (close_idle now m name) w, ts).
Proof.
  intros Hi. unfold close_idle. destruct (om_singboxLastUsed m !! name); [|done].
  destruct (busy m name); [done|]. destruct (_ <? _); [|done]. by apply inv_drop_m.
Qed.

Lemma inv_reload_node now r w ts name : cache_inv (w, ts) -> cache_inv (reload_node now r w name, ts).
Proof.
  intros Hi. unfold reload_node. destruct (om_outbounds (dw_m w) !! name) as [cfg|] eqn:Ec; [|done].
  destruct (negb (Enabled cfg)); [by apply inv_drop_singbox|].
  destruct (om_singbox (dw_m w) !! name) as [sb|] eqn:Es; [done|].
  unfold CreateUDPOutbound. destruct (r name); [by apply inv_on_stored|].
  apply (inv_on_stored (rt_recovered now) name
    {| dw_m := set_singbox (<[name := length (dw_made w)]> (om_singbox (dw_m w)))
                 (<[name := now]> (om_singboxLastUsed (dw_m w))) (om_closed (dw_m w)) (dw_m w);
       dw_made := dw_made w ++ [cfg]; dw_conns := dw_conns w |}).
  destruct Hi as [[Ht1 Ht2] Hu Ho Hn Hc]. destruct (Ht1 name cfg Ec) as (Hname & Hv & _).
  split; cbn [fst snd with_m dw_m dw_made] in *.
  - split; [done|]. cbn. intros n. rewrite !lookup_insert_is_Some. intros [<-|[? ?]]; auto.
  - cbn. intros n. rewrite !lookup_insert_is_Some. intros [<-|[? ?]]; auto.
  - match goal with |- cached ?m' ++ _ ≡ₚ _ =>
      pose proof (cached_insert (dw_m w) name (length (dw_made w)) m' Es eq_refl) as Hp end.
    rewrite Hp, length_app. cbn [om_closed set_singbox length] in *.
    rewrite Nat.add_1_r, seq_S. cbn [Nat.add]. rewrite <- Ho. cbn [app].
    apply Permutation_cons_append.
  - cbn. intros n s [[<- <-]|[_ ?]]%lookup_insert_Some; [by apply made_for_new|eauto using made_for_app].
  - eapply Forall_impl; [done|]. auto using pc_ok_app.
Qed.

Lemma inv_stop order w ts :
  order ≡ₚ (map_to_list (om_singbox (dw_m w))).*1 -> cache_inv (w, ts) ->
  cache_inv (with_m (stop_close order (dw_m w)) w, ts).
Proof.
  intros Hord [[Ht1 Ht2] Hu Ho Hn Hc]. split; cbn [fst snd with_m dw_m dw_made] in *; try done.
  - split; [done|]. cbn. intros n. by rewrite lookup_empty.
  - cbn. intros n. rewrite lookup_empty. by intros [].
  - assert (omap (fun name => om_singbox (dw_m w) !! name) order ≡ₚ cached (dw_m w)) as Hp.
    { rewrite Hord. unfold cached.
      assert (forall l, (forall kv, kv ∈ l -> om_singbox (dw_m w) !! kv.1 = Some kv.2) ->
        omap (fun name => om_singbox (dw_m w) !! name) l.*1 = l.*2) as Hl.
      { intros l. induction l as [|[k v] l IH]; intros Hk; [done|]. cbn.
        pose proof (Hk (k, v) ltac:(set_solver)) as E. cbn in E. rewrite E. cbn. f_equal.
        apply IH. set_solver. }
      rewrite Hl; [done|]. intros [k v] Hkv. by apply elem_of_map_to_list in Hkv. }
    unfold cached at 1. cbn [stop_close om_singbox om_closed set_singbox]. rewrite map_to_list_empty, Hp.
    rewrite <- Ho. cbn [fmap list_fmap app]. rewrite (Permutation_app_comm (om_closed _)), !app_assoc.
    f_equiv. apply Permutation_app_comm.
Qed.

Lemma same_cache_trans a b c : same_cache a b -> same_cache b c -> same_cache a c.
Proof. intros (? & ? & ?) (? & ? & ?). repeat split; congruence. Qed.

Lemma CheckHealth_uses now latency create dial name m :
  om_wf m -> om_wf (CheckHealth now latency create dial name m).1 /\
  same_cache m (CheckHealth now latency create dial name m).1.
Proof.
  intros Hw. unfold CheckHealth, check_end. destruct (om_outbounds m !! name) as [o|]; [|done].
  destruct (isMetadataLikeOutboundName _); [done|].
  destruct create; [|destruct dial]; cbn [fst]; split; auto using on_stored_wf, on_stored_cache.
  all: first [apply on_stored_cache | eapply same_cache_trans; [|apply on_stored_cache]; apply on_stored_cache].
Qed.

Lemma dial_step_inv st st' : dial_step st st' -> cache_inv st -> cache_inv st'.
Proof.
  destruct 1 as [w ts m' Hs|w ts name|w ts name|w ts i p now r E|w ts now name cfg|w ts now i|w ts now i n
    |w ts now i n|w ts now lat cr di name|w ts now order|w ts now r nodes cachd|w ts order Hord]; intros Hi.
  - destruct (om_step_cache _ _ Hs) as (name & Hc). pose proof (om_step_wf _ _ Hs (ci_table _ Hi)) as Hw.
    destruct Hc as [Hc|Hc]; [by apply inv_same|].
    apply (inv_same m' (with_m (drop_singbox name (dw_m w)) w)); [by apply inv_drop_singbox|done|done].
  - destruct Hi as [? ? Ho ? ?]. split; cbn in *; try done.
    + unfold held in *. by rewrite bind_app, app_nil_r.
    + apply Forall_app. split; [done|]. by constructor.
  - destruct Hi as [? ? Ho ? ?]. split; cbn in *; try done.
    + unfold held in *. by rewrite bind_app, app_nil_r.
    + apply Forall_app. split; [done|]. by constructor.
  - by apply inv_thread.
  - unfold dial_success. destruct (om_outbounds _ !! name); [|done]. by apply inv_conns, inv_on_stored.
  - unfold Close. destruct (dw_conns w !! i) as [c|]; [|done]. destruct (tc_closed c); [done|].
    by apply inv_conns, inv_on_stored.
  - apply inv_traffic; [|done]. intros h p.
    unfold AddBytesDown. destruct (n <=? 0); [done|]. apply on_runtime_grows.
  - apply inv_traffic; [|done]. intros h p.
    unfold AddBytesUp. destruct (n <=? 0); [done|]. apply on_runtime_grows.
  - destruct (CheckHealth_uses now lat cr di name (dw_m w) (ci_table _ Hi)). by apply inv_same.
  - assert (cache_inv (with_m (fold_left (close_idle now) order (dw_m w)) w, ts)) as Hf.
    { apply inv_fold_m; [intros; by apply inv_close_idle|by rewrite with_m_dw]. }
    apply (inv_same _ (with_m (fold_left (close_idle now) order (dw_m w)) w)); [done| |done].
    exact (ci_table _ Hf).
  - unfold Reload. apply inv_fold_m.
    + intros m x Hm. unfold reload_removed. destruct (om_outbounds m !! x); [done|]. by apply inv_drop_m.
    + rewrite with_m_dw. apply inv_fold; [|done]. intros. by apply inv_reload_node.
  - by apply inv_stop.
Qed.

Lemma dial_inv_reachable gc st : rtc dial_step (dial_initial gc, []) st -> cache_inv st.
Proof.
  assert (cache_inv (dial_initial gc, [])) as H0.
  { split; cbn; try done.
    - split; [intros ??|intros ?]; cbn; rewrite lookup_empty; [done|by intros []].
    - intros ?. rewrite lookup_empty. by intros []. }
  intros Hr. revert H0. induction Hr; eauto using dial_step_inv.
Qed.

(** C10: whatever the interleaving of creations, recreations, updates, deletions,
    idle cleanups, reloads and stops, every sing-box outbound that was created is
    in exactly one place: cached under one name, held by one call that is about
    to cache it or close it, or closed, once.  In particular a cached outbound
    is never a closed one, and when no call is under way nothing leaks.  A cached
    outbound was created from a valid configuration of the name it is cached
    under, and has a time of last use. *)
Theorem singbox_ownership (gc : option Config.GlobalConfig) (w : dial_world) (ts : list pc) :
  rtc dial_step (dial_initial gc, []) (w, ts) ->
  cached (dw_m w) ++ held ts ++ om_closed (dw_m w) ≡ₚ seq 0 (length (dw_made w)) /\
  NoDup (om_closed (dw_m w)) /\
  (forall name sb, om_singbox (dw_m w) !! name = Some sb ->
     sb ∉ om_closed (dw_m w) /\ made_for (dw_made w) name sb /\
     is_Some (om_singboxLastUsed (dw_m w) !! name) /\
     forall other, om_singbox (dw_m w) !! other = Some sb -> other = name).
Proof.
  intros [[Ht1 Ht2] Hu Ho Hn Hc]%dial_inv_reachable. cbn [fst snd] in *.
  assert (NoDup (cached (dw_m w) ++ held ts ++ om_closed (dw_m w))) as Hnd
    by (rewrite Ho; apply NoDup_seq).
  apply NoDup_app in Hnd as (Hca & Hdis & (_ & _ & Hcl)%NoDup_app).
  split; [done|]. split; [done|]. intros name sb Hs.
  assert (forall k, om_singbox (dw_m w) !! k = Some sb -> (k, sb) ∈ map_to_list (om_singbox (dw_m w))) as Hin
    by (intros k; apply elem_of_map_to_list).
  split; [|split; [eauto|split; [eauto|]]].
  - intros Hclosed. apply (Hdis sb); [|set_solver]. unfold cached. apply list_elem_of_fmap.
    by exists (name, sb); eauto.
  - intros other Ho'. pose proof (Hin _ Hs) as [i Hi]%list_elem_of_lookup_1.
    pose proof (Hin _ Ho') as [j Hj]%list_elem_of_lookup_1.
    assert (i = j) as <-; [|congruence].
    eapply (NoDup_lookup (cached (dw_m w))); [done| |]; unfold cached; rewrite list_lookup_fmap;
      [by rewrite Hi|by rewrite Hj].
Qed.

(** A successful update under the same name. *)
Lemma UpdateOutbound_same m o p :
  wf_ptr (om_runtimes m) p -> om_outbounds m !! Name p = Some o -> Validate p = None ->
  exists r h p', UpdateOutbound m (Name p) (Some p) =
    (set_nodes (<[Name p := with_runtime (Some r) p]> (om_outbounds m)) h (drop_singbox (Name p) m),
     Some p', None).
Proof.
  intros Hp Ho Hv. destruct (Clone_spec _ _ Hp) as (r & h' & E & _).
  exists r, h', (with_runtime (Some r) p). unfold UpdateOutbound.
  by rewrite Hv, Ho, String.eqb_refl, om_runtimes_drop, E.
Qed.

(** [getOrCreateSingboxOutbound] reads the configuration, creates the outbound without
    the lock and caches it without looking at the node again.  When the node is
    updated in between, the outbound made from the old configuration is cached
    under the updated node, where the later calls find it. *)
Theorem update_races_creation (w : dial_world) (name : string) (o p : ProxyOutbound) (now : gotime) :
  om_wf (dw_m w) -> wf_ptr (om_runtimes (dw_m w)) p ->
  om_outbounds (dw_m w) !! name = Some o -> om_singbox (dw_m w) !! name = None ->
  Validate p = None -> Name p = name ->
  exists w' sb,
    rtc dial_step (w, [PCheck true name]) (w', [PDone (inl sb)]) /\
    no_node_config (dw_m w') name = Some (config_of p) /\
    om_singbox (dw_m w') !! name = Some sb /\ dw_made w' !! sb = Some o /\
    getOrCreateSingboxOutbound now None p w' =
      (with_m (touch_singbox now name (dw_m w')).1 w', inl sb).
Proof.
  intros Hw Hp Ho Hs Hv Hn.
  subst name. destruct (UpdateOutbound_same (dw_m w) o p Hp Ho Hv) as (r & h & p' & Eu).
  set (name := Name p) in *.
  set (m' := set_nodes _ _ _) in Eu.
  assert (om_singbox m' !! name = None) as Hs' by (cbn; by rewrite om_singbox_drop, lookup_delete_eq).
  set (w1 := with_m m' w).
  set (w2 := {| dw_m := m'; dw_made := dw_made w ++ [o]; dw_conns := dw_conns w |}).
  set (w3 := with_m (insert_singbox now name (length (dw_made w)) m').1 w2).
  exists w3, (length (dw_made w)).
  assert (om_singbox (dw_m w3) !! name = Some (length (dw_made w))) as Hs3.
  { cbn. unfold insert_singbox. rewrite Hs'. cbn. by rewrite lookup_insert_eq. }
  split; [|split; [|split; [done|split]]].
  - assert (forall w0, om_singbox (dw_m w0) !! name = None -> forall first,
      dial_step (w0, [PCheck first name]) (w0, [missed first name])) as Hmiss.
    { intros w0 E first. pose proof (step_thread w0 [PCheck first name] 0 _ now None eq_refl) as Ht.
      cbn [thread_step fst snd] in Ht. rewrite E, bool_decide_eq_false_2 in Ht by (by intros []). done. }
    eapply rtc_l; [by apply (Hmiss w Hs true)|].
    eapply rtc_l; [by apply (Hmiss w Hs false)|].
    eapply rtc_l; [apply (step_thread _ [PLoad name] 0 (PLoad name) now None eq_refl)|].
    cbn [thread_step]. rewrite load_config_stored, Ho by done. cbn [fst snd list_insert]. rewrite with_m_dw.
    eapply rtc_l. { apply (step_manager _ _ m'). pose proof (step_update (dw_m w) name p Hp) as E. by rewrite Eu in E. }
    fold w1. eapply rtc_l; [apply (step_thread _ [PCreate name o] 0 (PCreate name o) now None eq_refl)|].
    cbn [thread_step CreateUDPOutbound fst snd list_insert]. change (dw_made w1) with (dw_made w).
    change (dw_m w1) with m'. change (dw_conns w1) with (dw_conns w). fold w2.
    eapply rtc_l; [apply (step_thread _ [PInsert name (length (dw_made w))] 0 _ now None eq_refl)|].
    cbn [thread_step]. change (dw_m w2) with m'. unfold w3, insert_singbox. rewrite Hs'. apply rtc_refl.
  - cbn [w3 with_m dw_m]. unfold insert_singbox, no_node_config. rewrite Hs'. apply lookup_insert_config.
  - cbn. by rewrite list_lookup_middle.
  - unfold getOrCreateSingboxOutbound. rewrite find_singbox_touch.
    unfold touch_singbox. change (Name p) with name. rewrite Hs3. done.
Qed.
End reachable.

(** ** Idle cleanup, Reload and Stop *)

(** The wait of [Stop] ends after at most a hundred looks, early only when no
    connection is active; 101 units of fuel are enough. *)
Lemma stop_wait_ends (active : nat -> Z) :
  let k := stop_wait 101 active 0 0 in (k <= 100)%nat /\ (k = 100%nat \/ active k = 0).
Proof.
  assert (forall fuel k, (fuel + k = 101)%nat -> (k <= 100)%nat ->
    let n := stop_wait fuel active k (Z.of_nat k * (100 * millisecond)) in
    (n <= 100)%nat /\ (n = 100%nat \/ active n = 0)) as Hw.
  { intros fuel. induction fuel as [|fuel IH]; intros k Hf Hk; [cbn; lia|]. cbn [stop_wait].
    unfold second, millisecond in *. destruct (Z.ltb_spec (Z.of_nat k * (100 * 10 ^ 6)) (10 * 10 ^ 9)); [|cbn; lia].
    destruct (Z.eqb_spec (active k) 0); [cbn; lia|].
    replace (Z.of_nat k * (100 * 10 ^ 6) + 100 * 10 ^ 6) with (Z.of_nat (S k) * (100 * 10 ^ 6)) by lia.
    apply IH; lia. }
  apply (Hw 101%nat 0%nat); lia.
Qed.

Section upkeep.
Context `{Unicode}.

(** An iteration order of a Go map visits its keys. *)
Lemma keys_in {A} (m : gmap string A) l n : l ≡ₚ (map_to_list m).*1 -> n ∈ l <-> is_Some (m !! n).
Proof.
  intros ->. rewrite list_elem_of_fmap. split.
  - intros ([k t] & -> & Hk%elem_of_map_to_list). by exists t.
  - intros [t Ht]. exists (n, t). by rewrite elem_of_map_to_list.
Qed.

Lemma busy_drop name m n : busy (drop_singbox name m) n = busy m n.
Proof. unfold busy. by rewrite om_outbounds_drop, om_runtimes_drop. Qed.

Lemma drop_singbox_used name m n :
  n <> name -> om_singboxLastUsed (drop_singbox name m) !! n = om_singboxLastUsed m !! n.
Proof. intros. unfold drop_singbox. destruct (_ !! name); [|done]. cbn. by rewrite lookup_delete_ne. Qed.

Lemma drop_singbox_closed name m sb :
  sb ∈ om_closed (drop_singbox name m) <-> sb ∈ om_closed m \/ om_singbox m !! name = Some sb.
Proof. unfold drop_singbox. destruct (om_singbox m !! name) eqn:E; cbn; set_solver. Qed.

(** The outbound of [name] has no connection and was used last before the timeout. *)
Definition idle_outbound (now : gotime) (m : outboundManagerImpl) (name : string) : bool :=
  match om_singboxLastUsed m !! name with
  | None => false
  | Some lastUsed => negb (busy m name) && (OutboundIdleTimeout <? time_sub now lastUsed)
  end.

Lemma close_idle_eq now m name : close_idle now m name = if idle_outbound now m name then drop_singbox name m else m.
Proof.
  unfold close_idle, idle_outbound. destruct (_ !! name); [|done]. destruct (busy m name); [done|].
  by destruct (_ <? _).
Qed.

(** What a pass over [order] has done so far. *)
Lemma close_idle_pass now order m :
  let m' := fold_left (close_idle now) order m in
  om_outbounds m' = om_outbounds m /\ om_runtimes m' = om_runtimes m /\
  (forall n sb, om_singbox m' !! n = Some sb <->
     om_singbox m !! n = Some sb /\ ~ (n ∈ order /\ idle_outbound now m n = true)) /\
  (forall sb, sb ∈ om_closed m' <->
     sb ∈ om_closed m \/ exists n, n ∈ order /\ idle_outbound now m n = true /\ om_singbox m !! n = Some sb).
Proof.
  revert m. induction order as [|name order IH]; intros m; cbn; [set_solver|].
  destruct (IH (close_idle now m name)) as (Ho & Hr & Hs & Hc). clear IH.
  rewrite close_idle_eq in *. destruct (idle_outbound now m name) eqn:Ei.
  - rewrite om_outbounds_drop in Ho. rewrite om_runtimes_drop in Hr. split; [done|]. split; [done|].
    assert (forall n, n <> name -> idle_outbound now (drop_singbox name m) n = idle_outbound now m n) as Hid.
    { intros n Hn. unfold idle_outbound. by rewrite drop_singbox_used, busy_drop. }
    split.
    + intros n sb. rewrite Hs, om_singbox_drop, lookup_delete_Some.
      destruct (decide (n = name)) as [->|Hn]; [set_solver|]. rewrite (Hid n Hn). set_solver.
    + intros sb. rewrite Hc, drop_singbox_closed, om_singbox_drop. split.
      * intros [[?|?]|(n & Hn & Hi & [Hne Hs']%lookup_delete_Some)]; [by left|right..].
        -- exists name. set_solver.
        -- exists n. rewrite (Hid n) in Hi by done. set_solver.
      * intros [?|(n & Hn & Hi & Hs')]; [auto|]. destruct (decide (n = name)) as [->|Hne]; [auto|].
        right. exists n. rewrite (Hid n), lookup_delete_ne by done. set_solver.
  - split; [done|]. split; [done|]. split.
    + intros n sb. rewrite Hs. destruct (decide (n = name)) as [->|]; [rewrite Ei|]; set_solver.
    + intros sb. rewrite Hc. split; (intros [?|(n & Hn & Hi & ?)]; [by left|right; exists n]).
      * set_solver.
      * destruct (decide (n = name)) as [->|]; [congruence|set_solver].
Qed.

(** A tick of the cleanup closes and forgets exactly the sing-box outbounds whose
    node has no connection (or is gone) and whose last use is more than five
    minutes old, whatever the iteration order; the nodes are untouched. *)
Theorem idle_cleanup_exact (m : outboundManagerImpl) (now : gotime) (order : list string) :
  order ≡ₚ (map_to_list (om_singboxLastUsed m)).*1 ->
  let m' := cleanup_tick now order m in
  om_outbounds m' = om_outbounds m /\ om_runtimes m' = om_runtimes m /\
  (forall name sb, om_singbox m' !! name = Some sb <->
     om_singbox m !! name = Some sb /\
     forall t, om_singboxLastUsed m !! name = Some t ->
       busy m name = true \/ time_sub now t <= 5 * minute) /\
  (forall sb, sb ∈ om_closed m' <->
     sb ∈ om_closed m \/
     exists name t, om_singbox m !! name = Some sb /\ om_singboxLastUsed m !! name = Some t /\
       busy m name = false /\ 5 * minute < time_sub now t).
Proof.
  intros Hord. destruct (close_idle_pass now order m) as (Ho & Hr & Hs & Hc).
  assert (forall n, n ∈ order <-> is_Some (om_singboxLastUsed m !! n)) as Hin
    by (intros n; by apply keys_in).
  assert (forall n, idle_outbound now m n = true <->
    exists t, om_singboxLastUsed m !! n = Some t /\ busy m n = false /\ 5 * minute < time_sub now t) as Hidle.
  { intros n. unfold idle_outbound, OutboundIdleTimeout. destruct (om_singboxLastUsed m !! n) as [t|]; [|naive_solver].
    rewrite andb_true_iff, negb_true_iff, Z.ltb_lt. naive_solver. }
  split; [done|]. split; [done|]. split.
  - intros n sb. cbn [cleanup_tick cleanupExpiredOutboundLatencyHistory
      cleanupExpiredServerNodeLatencyHistory set_latency om_singbox]. rewrite Hs, Hin, Hidle. split.
    + intros [? Hn]. split; [done|]. intros t Ht. destruct (busy m n) eqn:Eb; [by left|right].
      destruct (Z.le_gt_cases (time_sub now t) (5 * minute)); [done|]. destruct Hn. eauto 6.
    + intros [? Hn]. split; [done|]. intros (_ & t & Ht & Hb & Hlt). destruct (Hn t Ht); [congruence|lia].
  - intros sb. cbn [cleanup_tick cleanupExpiredOutboundLatencyHistory
      cleanupExpiredServerNodeLatencyHistory set_latency om_closed]. rewrite Hc.
    split; (intros [?|Hx]; [by left|right]).
    + destruct Hx as (n & _ & (t & ? & ? & ?)%Hidle & ?). eauto 8.
    + destruct Hx as (n & t & ? & ? & ? & ?). exists n. rewrite Hin, Hidle. eauto 8.
Qed.

(** What a pass of [Reload] over other names keeps for [n]. *)
Record kept (n : string) (w w' : dial_world) : Prop := {
  kept_nodes : om_outbounds (dw_m w') = om_outbounds (dw_m w);
  kept_wf : om_wf (dw_m w');
  kept_made : dw_made w `prefix_of` dw_made w';
  kept_closed : forall sb, sb ∈ om_closed (dw_m w) -> sb ∈ om_closed (dw_m w');
  kept_entry : om_singbox (dw_m w') !! n = om_singbox (dw_m w) !! n;
}.

#[local] Instance kept_transitive n : Transitive (kept n).
Proof. intros a b c [] []. split; try congruence; auto. by etrans. Qed.

Lemma kept_on_stored f name w n :
  om_wf (dw_m w) -> kept n w (with_m (on_stored f name (dw_m w)) w).
Proof.
  intros Hw. pose proof (on_stored_cache f name (dw_m w)) as (E1 & E2 & E3).
  split; cbn; rewrite ?E1, ?E3; try done; [by apply on_stored_nodes|by apply on_stored_wf].
Qed.

Lemma kept_drop name w n : om_wf (dw_m w) -> n <> name -> kept n w (with_m (drop_singbox name (dw_m w)) w).
Proof.
  intros Hw Hn. split; cbn; auto using om_outbounds_drop, om_wf_drop.
  - intros sb ?. apply drop_singbox_closed. by left.
  - by rewrite om_singbox_drop, lookup_delete_ne.
Qed.

(** A creation under [name], as [Reload] makes it. *)
Definition reload_created (now : gotime) (name : string) (cfg : ProxyOutbound) (w : dial_world) : dial_world :=
  {| dw_m := set_singbox (<[name := length (dw_made w)]> (om_singbox (dw_m w)))
               (<[name := now]> (om_singboxLastUsed (dw_m w))) (om_closed (dw_m w)) (dw_m w);
     dw_made := dw_made w ++ [cfg]; dw_conns := dw_conns w |}.

Lemma reload_created_wf now name cfg w : om_wf (dw_m w) -> om_wf (dw_m (reload_created now name cfg w)).
Proof.
  intros [Ht1 Ht2]. split; [done|]. cbn. intros n. rewrite !lookup_insert_is_Some.
  intros [<-|[? ?]]; auto.
Qed.

(** The node of a name, seen by the first loop. *)
Lemma reload_node_eq now r w name :
  reload_node now r w name =
    match om_outbounds (dw_m w) !! name with
    | None => w
    | Some cfg =>
        if negb (Enabled cfg) then with_m (drop_singbox name (dw_m w)) w else
        match om_singbox (dw_m w) !! name, r name with
        | Some _, _ => w
        | None, Some text =>
            with_m (on_stored (rt_failed now (append "failed to create outbound: " text)) name (dw_m w)) w
        | None, None =>
            let w := reload_created now name cfg w in
            with_m (on_stored (rt_recovered now) name (dw_m w)) w
        end
    end.
Proof.
  unfold reload_node. destruct (om_outbounds (dw_m w) !! name); [|done]. destruct (negb _); [done|].
  destruct (om_singbox (dw_m w) !! name); [done|]. by destruct (r name).
Qed.

Lemma reload_node_kept now r w name n :
  om_wf (dw_m w) -> n <> name -> kept n w (reload_node now r w name).
Proof.
  intros Hw Hn. assert (kept n w w) as Hrefl by (by split). rewrite reload_node_eq.
  destruct (om_outbounds (dw_m w) !! name) as [cfg|] eqn:Ec; [|done].
  destruct (negb (Enabled cfg)); [by apply kept_drop|].
  destruct (om_singbox (dw_m w) !! name) as [sb|] eqn:Es; [done|].
  destruct (r name); [by apply kept_on_stored|].
  assert (kept n w (reload_created now name cfg w)) as Hc.
  { split; try done.
    - by apply reload_created_wf.
    - by apply prefix_app_r.
    - cbn. by rewrite lookup_insert_ne. }
  etrans; [exact Hc|]. apply (kept_on_stored (rt_recovered now) name (reload_created now name cfg w)), Hc.
Qed.

Lemma reload_nodes_kept now r l w n :
  om_wf (dw_m w) -> n ∉ l -> kept n w (fold_left (reload_node now r) l w).
Proof.
  revert w. induction l as [|name l IH]; intros w Hw Hn; [by split|]. cbn.
  apply not_elem_of_cons in Hn as [Hn Hl]. pose proof (reload_node_kept now r w name n Hw Hn) as Hk.
  etrans; [exact Hk|]. apply IH; [apply Hk|done].
Qed.

Lemma reload_nodes_stay now r l w :
  om_wf (dw_m w) -> om_outbounds (dw_m (fold_left (reload_node now r) l w)) = om_outbounds (dw_m w).
Proof.
  revert w. induction l as [|name l IH]; intros w Hw; [done|]. cbn.
  pose proof (reload_node_kept now r w name (fresh [name]) Hw) as [Hn Hw' _ _ _].
  { pose proof (infinite_is_fresh [name]). set_solver. }
  by rewrite IH.
Qed.

(** What [Reload] promises for one name, from [w] to [w']. *)
Definition reloaded (r : string -> option string) (name : string) (w w' : dial_world) : Prop :=
  match om_outbounds (dw_m w) !! name with
  | Some cfg =>
      if Enabled cfg then
        match om_singbox (dw_m w) !! name, r name with
        | Some sb, _ => om_singbox (dw_m w') !! name = Some sb
        | None, None =>
            exists sb, om_singbox (dw_m w') !! name = Some sb /\ (length (dw_made w) <= sb)%nat /\
              dw_made w' !! sb = Some cfg
        | None, Some _ => om_singbox (dw_m w') !! name = None
        end
      else om_singbox (dw_m w') !! name = None /\
           forall sb, om_singbox (dw_m w) !! name = Some sb -> sb ∈ om_closed (dw_m w')
  | None => om_singbox (dw_m w') !! name = None /\
            forall sb, om_singbox (dw_m w) !! name = Some sb -> sb ∈ om_closed (dw_m w')
  end.

Lemma reload_node_own now r w name cfg :
  om_wf (dw_m w) -> om_outbounds (dw_m w) !! name = Some cfg ->
  let w' := reload_node now r w name in
  om_wf (dw_m w') /\ reloaded r name w w'.
Proof.
  intros Hw Ec. rewrite reload_node_eq. unfold reloaded. rewrite Ec.
  destruct (Enabled cfg); cbn [negb].
  - destruct (om_singbox (dw_m w) !! name) as [sb|] eqn:Es; [done|]. destruct (r name); cbn zeta.
    + split; [by apply on_stored_wf|]. cbn. by destruct (on_stored_cache
        (rt_failed now (append "failed to create outbound: " s)) name (dw_m w)) as (-> & _).
    + pose proof (kept_on_stored (rt_recovered now) name (reload_created now name cfg w) name
        (reload_created_wf now name cfg w Hw)) as [_ Hk _ _ He]. split; [exact Hk|].
      exists (length (dw_made w)). split; [|split; [done|cbn; by rewrite list_lookup_middle]].
      rewrite He. cbn. by rewrite lookup_insert_eq.
  - split; [by apply om_wf_drop|]. cbn. rewrite om_singbox_drop, lookup_delete_eq. split; [done|].
    intros sb ?. apply drop_singbox_closed. by right.
Qed.

(** The other names before and after do not disturb the promise. *)
Lemma reloaded_kept r name w0 w1 w2 w3 :
  kept name w0 w1 -> reloaded r name w1 w2 -> kept name w2 w3 -> reloaded r name w0 w3.
Proof.
  intros [N1 _ M1 C1 E1] Hr [_ _ M2 C2 E2]. unfold reloaded in *. rewrite N1, E1 in Hr.
  destruct (om_outbounds (dw_m w0) !! name) as [cfg|].
  2: { rewrite E2. destruct Hr. auto. }
  destruct (Enabled cfg). 2: { rewrite E2. destruct Hr. auto. }
  destruct (om_singbox (dw_m w0) !! name); [congruence|]. destruct (r name); [congruence|].
  destruct Hr as (sb & Hs & Hl & Hm). exists sb. split; [congruence|].
  apply prefix_length in M1. split; [lia|]. by eapply prefix_lookup_Some.
Qed.

Lemma reload_removed_pass l m :
  let m' := fold_left reload_removed l m in
  om_outbounds m' = om_outbounds m /\
  (forall n, n ∉ l \/ is_Some (om_outbounds m !! n) -> om_singbox m' !! n = om_singbox m !! n) /\
  (forall n, n ∈ l -> om_outbounds m !! n = None -> om_singbox m' !! n = None) /\
  (forall sb, sb ∈ om_closed m -> sb ∈ om_closed m') /\
  (forall n sb, om_singbox m !! n = Some sb -> om_singbox m' !! n = Some sb \/ sb ∈ om_closed m').
Proof.
  revert m. induction l as [|name l IH]; intros m; cbn; [set_solver|].
  destruct (IH (reload_removed m name)) as (Ho & Hs & Hn & Hc & Hd). clear IH. unfold reload_removed in *.
  destruct (om_outbounds m !! name) as [o|] eqn:Eo.
  { split; [done|]. split; [|split; [|done]].
    - intros n [?|?]; apply Hs; set_solver.
    - intros n Hi Hno. apply Hn; [|done]. set_solver. }
  rewrite om_outbounds_drop in *. rewrite om_singbox_drop in *. split; [done|]. split; [|split; [|split]].
  - intros n Hni. assert (n <> name) by (destruct Hni as [?|[? ?]]; [set_solver|congruence]).
    rewrite Hs by set_solver. by rewrite lookup_delete_ne.
  - intros n Hi Hno. destruct (decide (n ∈ l)); [by apply Hn|].
    assert (n = name) as -> by set_solver. rewrite Hs by auto. apply lookup_delete_eq.
  - intros sb Hsb. apply Hc, drop_singbox_closed. by left.
  - intros n sb Hsb. destruct (decide (n = name)) as [->|Hne].
    + right. apply Hc, drop_singbox_closed. by right.
    + apply Hd. by rewrite lookup_delete_ne.
Qed.

Lemma reload_first_pass now r w nodes name cfg :
  om_wf (dw_m w) -> nodes ≡ₚ (map_to_list (om_outbounds (dw_m w))).*1 ->
  om_outbounds (dw_m w) !! name = Some cfg ->
  reloaded r name w (fold_left (reload_node now r) nodes w).
Proof.
  intros Hw Hnodes Ecfg. pose proof (proj2 (keys_in _ _ name Hnodes) (ex_intro _ _ Ecfg)) as Hi.
  assert (NoDup nodes) as Hnd by (rewrite Hnodes; apply NoDup_fst_map_to_list).
  apply list_elem_of_split in Hi as (l1 & l2 & ->).
  apply NoDup_app in Hnd as (_ & Hd1 & [Hd2 _]%NoDup_cons).
  assert (name ∉ l1) as Hd0 by (intros ?; by apply (Hd1 name); [done|left]).
  rewrite fold_left_app. cbn [fold_left].
  pose proof (reload_nodes_kept now r l1 w name Hw Hd0) as K1. set (a := fold_left _ l1 w) in *.
  assert (om_outbounds (dw_m a) !! name = Some cfg) as Ea by (by rewrite (kept_nodes _ _ _ K1)).
  destruct (reload_node_own now r a name cfg (kept_wf _ _ _ K1) Ea) as [Hwb Hr]. cbn zeta in *.
  pose proof (reload_nodes_kept now r l2 _ name Hwb Hd2) as K2. by eapply reloaded_kept.
Qed.

Lemma reload_removed_wf l m : om_wf m -> om_wf (fold_left reload_removed l m).
Proof.
  revert m. induction l as [|name l IH]; intros m Hw; [done|]. apply IH. unfold reload_removed.
  destruct (om_outbounds m !! name); [done|]. by apply om_wf_drop.
Qed.

(** [Reload] leaves a sing-box outbound cached for exactly the enabled nodes, except those
    whose creation failed: one that was cached is kept, a missing one is created
    from the node, and the outbounds of disabled and removed nodes are closed; the
    nodes stay.  This holds for every iteration order.  It never looks whether a
    cached outbound matches its node. *)
Theorem reload_exact (w : dial_world) (now : gotime) (r : string -> option string)
    (nodes cachedNames : list string) :
  om_wf (dw_m w) ->
  nodes ≡ₚ (map_to_list (om_outbounds (dw_m w))).*1 ->
  cachedNames ≡ₚ (map_to_list (om_singbox (dw_m (fold_left (reload_node now r) nodes w)))).*1 ->
  let w' := Reload now r nodes cachedNames w in
  om_outbounds (dw_m w') = om_outbounds (dw_m w) /\ forall name, reloaded r name w w'.
Proof.
  intros Hw Hnodes Hcached w'.
  set (w1 := fold_left (reload_node now r) nodes w) in *.
  destruct (reload_removed_pass cachedNames (dw_m w1)) as (Ho & Hs & Hn & Hc & Hd).
  split.
  { unfold w', Reload. cbn [with_m dw_m]. fold w1. rewrite Ho. by apply reload_nodes_stay. }
  assert (om_wf (dw_m w1)) as Hw1.
  { apply (kept_wf (fresh nodes) w), reload_nodes_kept; [done|]. apply infinite_is_fresh. }
  intros name. destruct (om_outbounds (dw_m w) !! name) as [cfg|] eqn:Ec.
  - apply (reloaded_kept r name w w w1); [by split|by eapply reload_first_pass|].
    split; [done|by apply reload_removed_wf|done|done|].
    cbn. apply Hs. right. unfold w1. by rewrite reload_nodes_stay, Ec.
  - assert (name ∉ nodes) as Hni by (rewrite (keys_in _ _ name Hnodes), Ec; by intros []).
    pose proof (reload_nodes_kept now r nodes w name Hw Hni) as [Hk _ _ _ He]. fold w1 in Hk, He.
    unfold reloaded. rewrite Ec.
    assert (om_singbox (dw_m w') !! name = None) as Hnone.
    { cbn. fold w1. destruct (decide (name ∈ cachedNames)) as [Hi|Hi]; [apply Hn; [done|by rewrite Hk]|].
      rewrite Hs by auto. apply eq_None_not_Some. by rewrite <- (keys_in _ _ name Hcached). }
    split; [done|]. intros sb Hsb. destruct (Hd name sb) as [E|?]; [by rewrite He| |done].
    cbn in Hnone. fold w1 in Hnone. congruence.
Qed.
End upkeep.

(** ** Dialling *)

Section dialling.
Context `{Unicode}.

Definition counts (h : runtime_heap) : list Z := connCount <$> h.

(** A part of a dial that opens nothing: the nodes, the tracked connections and the
    connection counts stay. *)
Record quiet (w w' : dial_world) : Prop := {
  quiet_nodes : om_outbounds (dw_m w') = om_outbounds (dw_m w);
  quiet_wf : om_wf (dw_m w');
  quiet_conns : dw_conns w' = dw_conns w;
  quiet_counts : counts (om_runtimes (dw_m w')) = counts (om_runtimes (dw_m w));
}.

#[export] Instance quiet_transitive : Transitive quiet.
Proof. intros a b c [] []. split; congruence. Qed.

Lemma quiet_refl w : om_wf (dw_m w) -> quiet w w.
Proof. by split. Qed.

Lemma counts_alter f g r h :
  (forall rt, connCount (f rt) = g (connCount rt)) -> counts (alter f r h) = alter g r (counts h).
Proof. intros Hf. unfold counts. apply list_fmap_alter. apply Forall_true. auto. Qed.

Lemma counts_same f r h : (forall rt, connCount (f rt) = connCount rt) -> counts (alter f r h) = counts h.
Proof. intros Hf. rewrite (counts_alter f id) by done. apply list_alter_id. done. Qed.

Lemma quiet_on_stored f name w :
  om_wf (dw_m w) -> (forall rt, connCount (f rt) = connCount rt) ->
  quiet w (with_m (on_stored f name (dw_m w)) w).
Proof.
  intros Hw Hf. split; cbn; [by apply on_stored_nodes|by apply on_stored_wf|done|].
  destruct (om_outbounds (dw_m w) !! name) as [o|] eqn:E.
  - destruct (proj1 Hw name o E) as (_ & _ & _ & [r Hr]).
    rewrite (on_stored_use f name _ o r E Hr). by apply counts_same.
  - unfold on_stored. by rewrite E.
Qed.

(** A change of the cache under which the table stays well formed. *)
Lemma quiet_cache m w :
  om_wf m -> om_outbounds m = om_outbounds (dw_m w) -> om_runtimes m = om_runtimes (dw_m w) ->
  quiet w (with_m m w).
Proof. intros ? ? E. split; cbn; try done. by rewrite E. Qed.

Lemma wf_used name now m sb :
  om_wf m -> om_wf (set_singbox (<[name := sb]> (om_singbox m)) (<[name := now]> (om_singboxLastUsed m)) (om_closed m) m).
Proof.
  intros [Ht1 Ht2]. split; [done|]. cbn. intros n. rewrite !lookup_insert_is_Some. intros [<-|[? ?]]; auto.
Qed.

Lemma touch_quiet now name w m sb :
  om_wf (dw_m w) -> touch_singbox now name (dw_m w) = (m, Some sb) ->
  quiet w (with_m m w) /\ om_singbox m !! name = Some sb.
Proof.
  intros Hw. unfold touch_singbox. destruct (om_singbox (dw_m w) !! name) as [s|] eqn:E; [|done].
  intros [= <- <-]. split; [|done]. apply quiet_cache; [|done|done].
  pose proof (wf_used name now (dw_m w) s Hw) as Hu. by rewrite insert_id in Hu.
Qed.

Lemma create_and_insert_quiet now r name cfg w :
  om_wf (dw_m w) ->
  let '(w', result) := create_and_insert now r name cfg w in
  quiet w w' /\ forall sb, result = inl sb -> om_singbox (dw_m w') !! name = Some sb.
Proof.
  intros Hw. unfold create_and_insert, CreateUDPOutbound. destruct r as [text|].
  { split; [by apply quiet_refl|done]. }
  unfold insert_singbox. cbn [dw_m]. destruct (om_singbox (dw_m w) !! name) as [s|] eqn:E.
  - split; [|by intros ? [= <-]]. split; try done. cbn.
    pose proof (wf_used name now (dw_m w) s Hw) as Hu. by rewrite insert_id in Hu.
  - split; [split; try done; by apply wf_used|]. intros sb [= <-]. cbn. by rewrite lookup_insert_eq.
Qed.

Lemma getOrCreate_quiet now r cfg w :
  om_wf (dw_m w) ->
  let '(w', result) := getOrCreateSingboxOutbound now r cfg w in
  quiet w w' /\ forall sb, result = inl sb -> om_singbox (dw_m w') !! Name cfg = Some sb.
Proof.
  intros Hw. unfold getOrCreateSingboxOutbound. rewrite find_singbox_touch.
  destruct (touch_singbox now (Name cfg) (dw_m w)) as [m [sb|]] eqn:Et.
  { destruct (touch_quiet _ _ _ _ _ Hw Et). split; [done|]. by intros ? [= <-]. }
  assert (m = dw_m w) as ->.
  { unfold touch_singbox in Et. destruct (om_singbox _ !! _); congruence. }
  rewrite find_singbox_touch, Et, load_config_stored, with_m_dw by done.
  destruct (om_outbounds (dw_m w) !! Name cfg); [by apply create_and_insert_quiet|].
  split; [by apply quiet_refl|done].
Qed.

Lemma recreate_quiet now r name w :
  om_wf (dw_m w) ->
  let '(w', result) := recreateSingboxOutbound now r name w in
  quiet w w' /\ forall sb, result = inl sb -> om_singbox (dw_m w') !! name = Some sb.
Proof.
  intros Hw. unfold recreateSingboxOutbound. rewrite recreate_begin_stored by done.
  destruct (om_outbounds (dw_m w) !! name) as [cfg|] eqn:E.
  2: { rewrite with_m_dw. split; [by apply quiet_refl|done]. }
  set (w1 := with_m (close_singbox _ _) w).
  assert (quiet w w1) as Hq.
  { unfold w1. destruct (om_singbox (dw_m w) !! name); apply quiet_cache; try done.
    all: split; [apply Hw|]; cbn; intros x; rewrite !lookup_delete_is_Some; destruct Hw as [_ ?]; naive_solver. }
  pose proof (create_and_insert_quiet now r name cfg w1 (quiet_wf _ _ Hq)) as Hc.
  destruct (create_and_insert _ _ _ _ w1). destruct Hc as [? ?]. split; [by etrans|done].
Qed.

(** A dial that succeeded. *)
Definition opened (name : string) (w w' : dial_world) (conn : nat) : Prop :=
  exists cfg rid,
    om_outbounds (dw_m w) !! name = Some cfg /\ runtime cfg = Some rid /\
    om_outbounds (dw_m w') = om_outbounds (dw_m w) /\ om_wf (dw_m w') /\
    conn = length (dw_conns w) /\
    dw_conns w' = dw_conns w ++ [{| tc_name := name; tc_cfg := cfg; tc_closed := false |}] /\
    counts (om_runtimes (dw_m w')) = alter (fun c => i64 (c + 1)) rid (counts (om_runtimes (dw_m w))) /\
    GetHealthy (om_runtimes (dw_m w')) cfg = true /\ GetLastError (om_runtimes (dw_m w')) cfg = ""%string /\
    is_Some (om_singbox (dw_m w') !! name).

Definition accounted (name : string) (w w' : dial_world) (result : nat + dial_err) : Prop :=
  match result with
  | inl conn => opened name w w' conn
  | inr _ => quiet w w'
  end.

Lemma accounted_after name w w1 w2 result :
  quiet w w1 -> accounted name w1 w2 result -> accounted name w w2 result.
Proof.
  intros [N1 _ C1 K1]. destruct result as [conn|e]; cbn.
  - intros (cfg & rid & Hc). exists cfg, rid. by rewrite N1, C1, K1 in Hc.
  - intros []. split; congruence.
Qed.

Lemma dial_success_accounted now name cfg w :
  om_wf (dw_m w) -> om_outbounds (dw_m w) !! name = Some cfg -> is_Some (om_singbox (dw_m w) !! name) ->
  accounted name w (dial_success now name cfg w).1 (dial_success now name cfg w).2.
Proof.
  intros Hw E Hs. unfold dial_success. rewrite E. cbn [fst snd accounted].
  destruct (proj1 Hw name cfg E) as (_ & _ & Hp & [r Hr]). exists cfg, r.
  set (f := fun rt => rt_recovered now (rt_IncrConnCount now rt)).
  pose proof (on_stored_wf f name _ Hw) as Hwf.
  cbn [dw_m dw_conns]. rewrite (on_stored_use f name _ cfg r E Hr) in *.
  assert (exists rt, om_runtimes (dw_m w) !! r = Some rt) as [rt Hrt] by (apply lookup_lt_is_Some, Hp, Hr).
  unfold GetHealthy, GetLastError, runtime_of. rewrite Hr. cbn [om_runtimes om_outbounds set_nodes om_singbox].
  rewrite list_lookup_alter_eq, Hrt. split_and!; try done. by apply counts_alter.
Qed.

Lemma dialOnce_accounted a name w :
  om_wf (dw_m w) ->
  accounted name w (dialPacketConnOnce a name w).1 (dialPacketConnOnce a name w).2.
Proof.
  intros Hw. unfold dialPacketConnOnce.
  destruct (om_outbounds (dw_m w) !! name) as [cfg|] eqn:E; [|by apply quiet_refl].
  destruct (proj1 Hw name cfg E) as (Hn & _).
  pose proof (getOrCreate_quiet (at_now a) (at_create a) cfg w Hw) as Hg.
  destruct (getOrCreateSingboxOutbound _ _ cfg w) as [w1 [sb|err]]; destruct Hg as [Hq1 Hs1].
  2: { cbn. etrans; [done|]. by apply quiet_on_stored; [apply Hq1|]. }
  specialize (Hs1 sb eq_refl). rewrite Hn in Hs1. pose proof (quiet_wf _ _ Hq1) as Hw1.
  assert (om_outbounds (dw_m w1) !! name = Some cfg) as E1 by (by rewrite (quiet_nodes _ _ Hq1)).
  destruct (at_listen a) as [err|].
  2: { apply (accounted_after name w w1); [done|]. apply dial_success_accounted; eauto. }
  destruct (shouldRecreateSingboxUDPOutbound cfg err).
  2: { cbn. etrans; [done|]. by apply quiet_on_stored. }
  pose proof (recreate_quiet (at_now a) (at_recreate a) name w1 Hw1) as Hr.
  destruct (recreateSingboxOutbound _ _ name w1) as [w2 [sb2|err2]]; destruct Hr as [Hq2 Hs2].
  2: { cbn. etrans; [done|]. etrans; [done|]. by apply quiet_on_stored; [apply Hq2|]. }
  destruct (at_relisten a) as [err3|].
  { cbn. etrans; [done|]. etrans; [done|]. by apply quiet_on_stored; [apply Hq2|]. }
  apply (accounted_after name w w1); [done|]. apply (accounted_after name w1 w2); [done|].
  apply dial_success_accounted; [apply Hq2| |eauto]. by rewrite (quiet_nodes _ _ Hq2).
Qed.

Lemma prepare_quiet now r name w :
  om_wf (dw_m w) ->
  let '(w', err) := prepareDialPacketConn now r name w in
  quiet w w' /\
  (err = None -> exists cfg, om_outbounds (dw_m w) !! name = Some cfg /\
     Enabled cfg = true /\ outboundSupportsUDP cfg = true).
Proof.
  intros Hw. unfold prepareDialPacketConn.
  destruct (om_outbounds (dw_m w) !! name) as [cfg|] eqn:E; [|by split; [apply quiet_refl|]].
  destruct (Enabled cfg) eqn:Ee; cbn [negb]; [|by split; [apply quiet_refl|]].
  destruct (outboundSupportsUDP cfg) eqn:Eu; cbn [negb]; [|by split; [apply quiet_refl|]].
  destruct (negb _ && _); [|split; [by apply quiet_refl|eauto]].
  destruct (_ <? _); [by split; [apply quiet_refl|]|].
  pose proof (recreate_quiet now r name w Hw) as Hr.
  destruct (recreateSingboxOutbound now r name w) as [w1 [sb|e]]; destruct Hr as [Hq _]; split; eauto; done.
Qed.

Lemma retry_loop_accounted fuel attempts name k delay lastErr w :
  om_wf (dw_m w) ->
  let '(w', result, _) := retry_loop fuel attempts name k delay lastErr w in
  accounted name w w' result.
Proof.
  revert k delay lastErr w. induction fuel as [|fuel IH]; intros k delay lastErr w Hw; [by apply quiet_refl|].
  cbn [retry_loop]. destruct (at_done _); [by apply quiet_refl|].
  pose proof (dialOnce_accounted (attempts k) name w Hw) as Ha.
  destruct (dialPacketConnOnce (attempts k) name w) as [w1 [conn|err]]; cbn [fst snd] in Ha; [done|].
  destruct (om_outbounds (dw_m w1) !! name); [|done]. destruct (_ && _); [done|].
  destruct (k =? MaxRetryAttempts); [done|]. destruct (at_done_wait _); [done|].
  specialize (IH (k + 1) (Z.min (delay * RetryBackoffMultiple) MaxRetryDelay) (Some err) w1 (quiet_wf _ _ Ha)).
  destruct (retry_loop _ _ _ _ _ _ w1) as [[w2 result] waits]. by eapply accounted_after.
Qed.

(** C21: [DialPacketConn] gives a connection only through a node that exists, is enabled
    and carries UDP; then it tracks exactly one more connection, adds one to the
    count of that node and to no other, leaves the node healthy and its sing-box
    outbound cached.  An error, after whatever attempts and recreations, changes
    no count and tracks nothing.  It waits at most once, for 50 ms. *)
Theorem DialPacketConn_accounted (w : dial_world) (now : gotime) (r : option string)
    (attempts : Z -> attempt) (name : string) :
  om_wf (dw_m w) ->
  let '(w', result, waits) := DialPacketConn now r attempts name w in
  match result with
  | inl conn => opened name w w' conn /\ exists cfg, om_outbounds (dw_m w) !! name = Some cfg /\
                  Enabled cfg = true /\ Type_ cfg <> ProtocolHTTP
  | inr _ => quiet w w'
  end /\
  (waits = [] \/ waits = [InitialRetryDelay]).
Proof.
  intros Hw. unfold DialPacketConn. pose proof (prepare_quiet now r name w Hw) as Hp.
  destruct (prepareDialPacketConn now r name w) as [w1 [err|]]; destruct Hp as [Hq Hok]; [by auto|].
  destruct (Hok eq_refl) as (cfg & Ec & Ee & Eu).
  pose proof (retry_loop_accounted (Z.to_nat MaxRetryAttempts) attempts name 1 InitialRetryDelay None w1
    (quiet_wf _ _ Hq)) as Ha. fold (dialWithRetry attempts name w1) in Ha.
  assert ((dialWithRetry attempts name w1).2 = [] \/ (dialWithRetry attempts name w1).2 = [InitialRetryDelay]) as Hwt.
  { unfold dialWithRetry. change (Z.to_nat MaxRetryAttempts) with 2%nat. cbn [retry_loop].
    repeat (case_match; subst; simplify_eq/=; auto). }
  destruct (dialWithRetry attempts name w1) as [[w2 result] waits]. split; [|done].
  pose proof (accounted_after name w w1 w2 result Hq Ha) as Hall. destruct result; [|done].
  split; [done|]. exists cfg. split_and!; try done. unfold outboundSupportsUDP in Eu.
  apply negb_true_iff, String.eqb_neq in Eu. done.
Qed.
End dialling.

(** ** Nodes that fail *)

Section failing.
Context `{Unicode}.

(** The protocols whose connections are recreated. *)
Definition reconnecting (cfg : ProxyOutbound) : bool :=
  String.eqb (Type_ cfg) ProtocolHysteria2 || String.eqb (Type_ cfg) ProtocolAnyTLS.

Lemma should_recreate_reconnecting cfg err :
  shouldRecreateSingboxUDPOutbound cfg err = true -> reconnecting cfg = true.
Proof.
  unfold shouldRecreateSingboxUDPOutbound, reconnecting.
  destruct (String.eqb (Type_ cfg) ProtocolHysteria2); [done|].
  by destruct (String.eqb (Type_ cfg) ProtocolAnyTLS).
Qed.

(** The text a failure leaves in the node. *)
Definition failure_text (e : dial_err) : string :=
  match e with
  | DialNotCreated e => create_error_text e
  | DialListen text => text
  | _ => ""
  end.

Definition marked (now : gotime) (text : string) (name : string) (m : outboundManagerImpl) : Prop :=
  forall cfg, om_outbounds m !! name = Some cfg ->
    GetHealthy (om_runtimes m) cfg = false /\ GetLastError (om_runtimes m) cfg = text /\
    GetLastCheck (om_runtimes m) cfg = now.

Lemma rt_failed_marks now text name m : om_wf m -> marked now text name (on_stored (rt_failed now text) name m).
Proof.
  intros Hw cfg E. rewrite on_stored_nodes in E by done.
  destruct (proj1 Hw name cfg E) as (_ & _ & Hp & [r Hr]). rewrite (on_stored_use _ name _ cfg r E Hr).
  destruct (lookup_lt_is_Some_2 _ _ (Hp r Hr)) as [rt Hrt].
  unfold GetHealthy, GetLastError, GetLastCheck, runtime_of. rewrite Hr. cbn [om_runtimes set_nodes].
  by rewrite list_lookup_alter_eq, Hrt.
Qed.

Lemma dialOnce_marks a name w cfg w1 err :
  om_wf (dw_m w) -> om_outbounds (dw_m w) !! name = Some cfg ->
  dialPacketConnOnce a name w = (w1, inr err) ->
  reconnecting cfg = false \/ (exists e, err = DialNotCreated e) ->
  om_wf (dw_m w1) /\ marked (at_now a) (failure_text err) name (dw_m w1).
Proof.
  intros Hw E Ed Hc. unfold dialPacketConnOnce in Ed. rewrite E in Ed.
  pose proof (getOrCreate_quiet (at_now a) (at_create a) cfg w Hw) as Hg.
  destruct (getOrCreateSingboxOutbound _ _ cfg w) as [w2 [sb|e]]; destruct Hg as [Hq _].
  2: { injection Ed as <- <-. split; [apply on_stored_wf|apply rt_failed_marks]; apply Hq. }
  destruct (at_listen a) as [text|].
  2: { unfold dial_success in Ed. by rewrite (quiet_nodes _ _ Hq), E in Ed. }
  destruct (shouldRecreateSingboxUDPOutbound cfg text) eqn:Es.
  - apply should_recreate_reconnecting in Es. destruct Hc as [Hc|[e ->]]; [congruence|].
    destruct (recreateSingboxOutbound _ _ name w2) as [w3 [sb3|e3]]; [|done].
    destruct (at_relisten a); [done|]. unfold dial_success in Ed. by destruct (om_outbounds (dw_m w3) !! name).
  - injection Ed as <- <-. split; [apply on_stored_wf|apply rt_failed_marks]; apply Hq.
Qed.

(** An attempt that fails marks the node, except an interrupted connection of the two
    protocols that reconnect.  A marked node is not retried, and for thirty seconds
    every [DialPacketConn] on it fails at once, touching neither the node nor the
    sing-box cache. *)
Theorem failed_node_fails_fast (w w1 : dial_world) (attempts others : Z -> attempt) (name : string)
    (cfg : ProxyOutbound) (err : dial_err) (now : gotime) (r : option string) :
  om_wf (dw_m w) -> om_outbounds (dw_m w) !! name = Some cfg ->
  Enabled cfg = true -> outboundSupportsUDP cfg = true -> at_done (attempts 1) = false ->
  dialPacketConnOnce (attempts 1) name w = (w1, inr err) ->
  reconnecting cfg = false \/ (exists e, err = DialNotCreated e) ->
  failure_text err <> ""%string ->
  dialWithRetry attempts name w = (w1, inr (DialMarkedUnhealthy 1), []) /\
  (now - at_now (attempts 1) < 30 * second ->
   DialPacketConn now r others name w1 = (w1, inr (DialUnhealthy (failure_text err)), [])).
Proof.
  intros Hw E Ee Eu Ec Ed Hc Ht.
  destruct (dialOnce_marks (attempts 1) name w cfg w1 err Hw E Ed Hc) as [Hw1 Hm].
  pose proof (dialOnce_accounted (attempts 1) name w Hw) as Ha. rewrite Ed in Ha. cbn in Ha.
  assert (om_outbounds (dw_m w1) !! name = Some cfg) as E1 by (by rewrite (quiet_nodes _ _ Ha)).
  destruct (Hm cfg E1) as (Hh & Hl & Hk). apply String.eqb_neq in Ht. split.
  - unfold dialWithRetry. change (Z.to_nat MaxRetryAttempts) with 2%nat. cbn [retry_loop].
    by rewrite Ec, Ed, E1, Hh, Hl, Ht.
  - intros Hnow. unfold DialPacketConn, prepareDialPacketConn. rewrite E1, Ee, Eu, Hh, Hl, Ht, Hk.
    cbn [negb andb]. rewrite (proj2 (Z.ltb_lt _ _)); [done|]. unfold time_sub, second in *. lia.
Qed.
End failing.

(** ** Counting connections *)

Section counting.
Context `{Unicode}.

Definition open_on (name : string) (c : trackedPacketConn) : Prop := tc_name c = name /\ tc_closed c = false.

#[local] Instance open_on_dec name c : Decision (open_on name c).
Proof. apply and_dec; apply _. Defined.

Definition open_conns (w : dial_world) (name : string) : Z := zlen (filter (open_on name) (dw_conns w)).

(** Steps of a manager whose nodes are added with runtimes of their own and stay. *)
Inductive conn_step : dial_world -> dial_world -> Prop :=
| conn_dial w now r attempts name : conn_step w (DialPacketConn now r attempts name w).1.1
| conn_close w now i : conn_step w (Close now i w)
| conn_add w p : runtime p = None -> conn_step w (with_m (AddOutbound (dw_m w) (Some p)).1.1 w)
| conn_get w name : conn_step w (with_m (GetOutbound (dw_m w) name).1 w)
| conn_tick w now order : conn_step w (with_m (cleanup_tick now order (dw_m w)) w)
| conn_check w now latency create dial name :
    conn_step w (with_m (CheckHealth now latency create dial name (dw_m w)).1 w).

Record count_inv (w : dial_world) : Prop := {
  cn_wf : om_wf (dw_m w);
  cn_own : forall n k o p, om_outbounds (dw_m w) !! n = Some o -> om_outbounds (dw_m w) !! k = Some p ->
    runtime o = runtime p -> n = k;
  cn_named : Forall (fun c => is_Some (om_outbounds (dw_m w) !! tc_name c)) (dw_conns w);
  cn_count : zlen (dw_conns w) < 2 ^ 62 ->
    forall name o r, om_outbounds (dw_m w) !! name = Some o -> runtime o = Some r ->
      counts (om_runtimes (dw_m w)) !! r = Some (open_conns w name);
}.

Lemma count_inv_quiet w w' : quiet w w' -> count_inv w -> count_inv w'.
Proof.
  intros [N W C K] [Hw Ho Hn Hc]. split; [done| | |].
  - by rewrite N.
  - by rewrite N, C.
  - unfold open_conns. rewrite N, C, K. exact Hc.
Qed.

Lemma open_conns_bound w name : 0 <= open_conns w name <= zlen (dw_conns w).
Proof. unfold open_conns, zlen. pose proof (length_filter (open_on name) (dw_conns w)). lia. Qed.

Lemma open_conns_app w w' c name :
  dw_conns w' = dw_conns w ++ [c] ->
  open_conns w' name = open_conns w name + (if decide (open_on name c) then 1 else 0).
Proof.
  intros E. unfold open_conns. rewrite E, filter_app, zlen_app, filter_cons.
  by destruct (decide (open_on name c)).
Qed.

Lemma open_conns_close w w' i c name :
  dw_conns w !! i = Some c -> tc_closed c = false ->
  dw_conns w' = <[i := {| tc_name := tc_name c; tc_cfg := tc_cfg c; tc_closed := true |}]> (dw_conns w) ->
  open_conns w' name = open_conns w name - (if decide (tc_name c = name) then 1 else 0).
Proof.
  intros E Ho E'. unfold open_conns. rewrite E', insert_take_drop by (by eapply lookup_lt_Some).
  rewrite <- (take_drop_middle (dw_conns w) i c E) at 3.
  rewrite !filter_app, !zlen_app, !filter_cons.
  rewrite (decide_False (P := open_on name {| tc_name := _; tc_cfg := _; tc_closed := true |})) by (by intros []).
  destruct (decide (tc_name c = name)).
  - rewrite decide_True by done. rewrite zlen_cons. lia.
  - rewrite decide_False by (by intros []). lia.
Qed.

Lemma count_inv_opened name w w' conn : opened name w w' conn -> count_inv w -> count_inv w'.
Proof.
  intros (cfg & rid & E & Hr & N & W & _ & C & K & _) [Hw Ho Hn Hc]. split; [done| | |].
  - by rewrite N.
  - rewrite N, C. apply Forall_app. split; [done|]. constructor; [by eexists|done].
  - rewrite C, zlen_app. change (zlen [_]) with 1. intros Hb k o r Eo Er. rewrite N in Eo.
    specialize (Hc ltac:(lia) k o r Eo Er). rewrite K, (open_conns_app w w' _ k C).
    pose proof (open_conns_bound w k). destruct (decide (r = rid)) as [->|Hne].
    + assert (k = name) as -> by (eapply Ho; [done..|congruence]).
      rewrite list_lookup_alter_eq, Hc, decide_True by done. cbn. f_equal. apply i64_small. lia.
    + rewrite list_lookup_alter_ne, Hc by done. rewrite decide_False; [f_equal; lia|].
      intros [Hk _]. cbn in Hk. subst k. congruence.
Qed.

Lemma count_inv_close now i w : count_inv w -> count_inv (Close now i w).
Proof.
  intros [Hw Ho Hn Hc]. unfold Close. destruct (dw_conns w !! i) as [c|] eqn:E; [|done].
  destruct (tc_closed c) eqn:Ec; [done|].
  destruct (Forall_lookup_1 _ _ _ _ Hn E) as [cfg Ecfg].
  destruct (proj1 Hw _ cfg Ecfg) as (_ & _ & _ & [rid Hr]).
  split; cbn [dw_m dw_conns]; [by apply on_stored_wf| | |].
  - by rewrite on_stored_nodes.
  - rewrite on_stored_nodes by done. apply Forall_insert; [done|]. by eexists.
  - unfold zlen. rewrite length_insert. intros Hb k o r Eo Er. rewrite on_stored_nodes in Eo by done.
    specialize (Hc Hb k o r Eo Er). rewrite (on_stored_use _ _ _ cfg rid Ecfg Hr).
    match goal with |- context [open_conns ?w' k] =>
      rewrite (open_conns_close w w' i c k E Ec eq_refl) end. cbn [om_runtimes set_nodes].
    rewrite (counts_alter _ (fun n => if 0 <? n then n - 1 else n)).
    2: { intros rt. unfold rt_DecrConnCount. destruct (0 <? connCount rt); [|done]. by destruct (_ && _). }
    destruct (decide (r = rid)) as [->|Hne].
    + assert (k = tc_name c) as -> by (eapply Ho; [done..|congruence]).
      rewrite list_lookup_alter_eq, Hc, decide_True by done. cbn.
      assert (0 < open_conns w (tc_name c)) as Hpos.
      { unfold open_conns, zlen. enough (c ∈ filter (open_on (tc_name c)) (dw_conns w)) as Hin.
        { destruct (filter _ _); [by apply not_elem_of_nil in Hin|cbn; lia]. }
        apply list_elem_of_filter. split; [done|]. by eapply list_elem_of_lookup_2. }
      by rewrite (proj2 (Z.ltb_lt _ _)).
    + rewrite list_lookup_alter_ne, Hc by done. rewrite decide_False; [f_equal; lia|].
      intros <-. congruence.
Qed.

Lemma AddOutbound_new m p :
  runtime p = None -> Validate p = None -> om_outbounds m !! Name p = None ->
  (AddOutbound m (Some p)).1.1 =
    set_nodes (<[Name p := with_runtime (Some (length (om_runtimes m))) p]> (om_outbounds m))
      (om_runtimes m ++ [zero_runtime]) m.
Proof.
  intros Hp Hv E. unfold AddOutbound, Clone, runtimeState. rewrite Hv, E, Hp. by destruct p.
Qed.

Lemma open_conns_none w name :
  Forall (fun c => is_Some (om_outbounds (dw_m w) !! tc_name c)) (dw_conns w) ->
  om_outbounds (dw_m w) !! name = None -> open_conns w name = 0.
Proof.
  intros Hn E. unfold open_conns. destruct (filter _ _) as [|c l] eqn:Ef; [done|].
  assert (c ∈ filter (open_on name) (dw_conns w)) as [[Hc _] Hin]%list_elem_of_filter by (rewrite Ef; left).
  rewrite Forall_forall in Hn. destruct (Hn c Hin) as [o Ho]. congruence.
Qed.

Lemma count_inv_add w p :
  runtime p = None -> count_inv w -> count_inv (with_m (AddOutbound (dw_m w) (Some p)).1.1 w).
Proof.
  intros Hp Hi. pose proof Hi as [Hw Ho Hn Hc].
  assert (om_wf (AddOutbound (dw_m w) (Some p)).1.1) as Hw'.
  { apply AddOutbound_wf; [done|]. intros r Hr. congruence. }
  destruct (Validate p) eqn:Hv; [unfold AddOutbound; rewrite Hv; cbn [fst]; by rewrite with_m_dw|].
  destruct (om_outbounds (dw_m w) !! Name p) as [o|] eqn:E.
  { unfold AddOutbound. rewrite Hv, E. cbn [fst]. by rewrite with_m_dw. }
  rewrite (AddOutbound_new _ p Hp Hv E) in *.
  assert (forall n o r, om_outbounds (dw_m w) !! n = Some o -> runtime o = Some r ->
    (r < length (om_runtimes (dw_m w)))%nat) as Hold.
  { intros n o r Eo Hr. destruct (proj1 Hw n o Eo) as (_ & _ & Hptr & _). auto. }
  assert (forall n o, om_outbounds (dw_m w) !! n = Some o ->
    runtime o <> Some (length (om_runtimes (dw_m w)))) as Hfresh.
  { intros n o Eo Hr. specialize (Hold n o _ Eo Hr). lia. }
  split; cbn [dw_m dw_conns with_m om_outbounds om_runtimes set_nodes]; [done| | |].
  - intros n k o q [[<- <-]|[_ Eo]]%lookup_insert_Some [[<- <-]|[_ Eq]]%lookup_insert_Some Hs; try done; eauto.
    + by destruct (Hfresh _ _ Eq).
    + by destruct (Hfresh _ _ Eo).
  - eapply Forall_impl; [done|]. intros d Hd. cbn in *. rewrite lookup_insert_is_Some.
    destruct (decide (Name p = tc_name d)); auto.
  - intros Hb name o r [[<- <-]|[Hne Eo]]%lookup_insert_Some Hr; unfold counts; rewrite fmap_app.
    + injection Hr as <-. rewrite lookup_app_r by (by rewrite length_fmap).
      rewrite length_fmap, Nat.sub_diag. cbn. f_equal. symmetry.
      by apply (open_conns_none w).
    + rewrite lookup_app_l by (rewrite length_fmap; eauto). by eapply Hc.
Qed.

Lemma cleanup_tick_quiet now order w :
  om_wf (dw_m w) -> quiet w (with_m (cleanup_tick now order (dw_m w)) w).
Proof.
  intros Hw. destruct (close_idle_pass now order (dw_m w)) as (Ho & Hr & _).
  apply quiet_cache; [|done|done].
  enough (om_wf (fold_left (close_idle now) order (dw_m w))) as Hf by exact Hf.
  clear Ho Hr. revert Hw. generalize (dw_m w). induction order as [|n order IH]; intros m Hw; [done|].
  apply IH. rewrite close_idle_eq. destruct (idle_outbound now m n); [by apply om_wf_drop|done].
Qed.

Lemma CheckHealth_quiet now latency create dial name w :
  om_wf (dw_m w) -> quiet w (with_m (CheckHealth now latency create dial name (dw_m w)).1 w).
Proof.
  intros Hw. assert (quiet w (with_m (dw_m w) w)) as Hrefl by (by apply quiet_cache).
  unfold CheckHealth, check_end. destruct (om_outbounds (dw_m w) !! name) as [o|]; [|done].
  destruct (isMetadataLikeOutboundName _); [done|].
  destruct create; [|destruct dial]; cbn [fst]; [by apply quiet_on_stored|..].
  all: match goal with |- quiet ?w (with_m (on_stored ?f ?n (on_stored ?g ?n _)) _) =>
    etrans; [by apply (quiet_on_stored g n)|];
    apply (quiet_on_stored f n (with_m (on_stored g n (dw_m w)) w)) end; [by apply on_stored_wf|done].
Qed.

Lemma conn_step_inv w w' : conn_step w w' -> count_inv w -> count_inv w'.
Proof.
  destruct 1 as [w now r attempts name|w now i|w p Hp|w name|w now order|w now lat cr di name]; intros Hi;
    pose proof (cn_wf _ Hi) as Hw.
  - unfold DialPacketConn. pose proof (prepare_quiet now r name w Hw) as Hq.
    destruct (prepareDialPacketConn now r name w) as [w1 [e|]]; destruct Hq as [Hq _]; [by eapply count_inv_quiet|].
    apply (count_inv_quiet w w1) in Hi; [|done].
    pose proof (retry_loop_accounted (Z.to_nat MaxRetryAttempts) attempts name 1 InitialRetryDelay None w1
      (cn_wf _ Hi)) as Ha. fold (dialWithRetry attempts name w1) in Ha.
    destruct (dialWithRetry attempts name w1) as [[w2 [conn|e]] waits]; cbn in *;
      [by eapply count_inv_opened|by eapply count_inv_quiet].
  - by apply count_inv_close.
  - by apply count_inv_add.
  - change (GetOutbound (dw_m w) name) with (load_config name (dw_m w)).
    rewrite load_config_stored by done. cbn [fst]. by rewrite with_m_dw.
  - eapply count_inv_quiet; [by apply cleanup_tick_quiet|done].
  - eapply count_inv_quiet; [by apply CheckHealth_quiet|done].
Qed.

(** Over any sequence of dials (failed ones included), closings, repeated closings,
    health checks, cleanups and additions of nodes, the connection count of a node
    is the number of tracked connections on it that are open; so the cleanup
    never closes the sing-box outbound of a node in use. *)
Theorem conn_count_exact (gc : option Config.GlobalConfig) (w : dial_world) (name : string) (o : ProxyOutbound) :
  rtc conn_step (dial_initial gc) w -> zlen (dw_conns w) < 2 ^ 62 ->
  om_outbounds (dw_m w) !! name = Some o ->
  GetConnCount (om_runtimes (dw_m w)) o = open_conns w name /\
  (0 < open_conns w name -> forall now order,
     om_singbox (cleanup_tick now order (dw_m w)) !! name = om_singbox (dw_m w) !! name).
Proof.
  intros Hr Hb E. assert (count_inv w) as [Hw Ho Hn Hc].
  { assert (count_inv (dial_initial gc)) as H0.
    { split; cbn.
      - split; [intros ??|intros ?]; cbn; rewrite lookup_empty; [done|by intros []].
      - intros n k o1 o2. by rewrite lookup_empty.
      - constructor.
      - intros _ n o1 r1. by rewrite lookup_empty. }
    clear Hb E. induction Hr; eauto using conn_step_inv. }
  destruct (proj1 Hw name o E) as (_ & _ & _ & [r Er]).
  assert (GetConnCount (om_runtimes (dw_m w)) o = open_conns w name) as Hcount.
  { specialize (Hc Hb name o r E Er). unfold counts in Hc. rewrite list_lookup_fmap in Hc.
    unfold GetConnCount, runtime_of. rewrite Er. destruct (om_runtimes (dw_m w) !! r); naive_solver. }
  split; [done|]. intros Hpos now order. destruct (close_idle_pass now order (dw_m w)) as (_ & _ & Hs & _).
  assert (idle_outbound now (dw_m w) name = false) as Hidle.
  { unfold idle_outbound, busy. destruct (om_singboxLastUsed (dw_m w) !! name); [|done].
    by rewrite E, Hcount, (proj2 (Z.ltb_lt _ _) Hpos). }
  cbn [cleanup_tick cleanupExpiredOutboundLatencyHistory cleanupExpiredServerNodeLatencyHistory
    set_latency om_singbox].
  apply option_eq. intros sb. rewrite Hs, Hidle. naive_solver.
Qed.
End counting.

(** ** A lost count *)

Section lost.
Context `{Unicode}.

Lemma getOrCreate_ok now cfg w :
  om_wf (dw_m w) -> om_outbounds (dw_m w) !! Name cfg <> None ->
  exists sb, (getOrCreateSingboxOutbound now None cfg w).2 = inl sb.
Proof.
  intros Hw Hn. unfold getOrCreateSingboxOutbound. rewrite !find_singbox_touch.
  destruct (touch_singbox now (Name cfg) (dw_m w)) as [m [sb|]] eqn:Et; [eauto|].
  assert (m = dw_m w) as -> by (unfold touch_singbox in Et; destruct (om_singbox _ !! _); congruence).
  rewrite find_singbox_touch, Et, load_config_stored, with_m_dw by done.
  destruct (om_outbounds (dw_m w) !! Name cfg) as [c|]; [|done].
  unfold create_and_insert. cbn. destruct (insert_singbox _ _ _ _) as [m sb]. eauto.
Qed.

(** Nothing fails: the dial succeeds. *)
Lemma dialOnce_ok a name w cfg :
  om_wf (dw_m w) -> om_outbounds (dw_m w) !! name = Some cfg -> at_create a = None -> at_listen a = None ->
  exists conn, (dialPacketConnOnce a name w).2 = inl conn /\ opened name w (dialPacketConnOnce a name w).1 conn.
Proof.
  intros Hw E Hc Hl. pose proof (dialOnce_accounted a name w Hw) as Ha.
  assert (exists conn, (dialPacketConnOnce a name w).2 = inl conn) as [conn Hconn].
  { unfold dialPacketConnOnce. rewrite E, Hc, Hl. destruct (proj1 Hw name cfg E) as (Hn & _).
    pose proof (getOrCreate_quiet (at_now a) None cfg w Hw) as Hg.
    destruct (getOrCreate_ok (at_now a) cfg w Hw ltac:(by rewrite Hn, E)) as [sb Hsb].
    destruct (getOrCreateSingboxOutbound _ _ cfg w) as [w1 res]. cbn in Hsb. subst res.
    destruct Hg as [Hq _]. unfold dial_success. rewrite (quiet_nodes _ _ Hq), E. by eexists. }
  exists conn. rewrite Hconn in Ha. done.
Qed.

Lemma UpdateOutbound_new m o p :
  runtime p = None -> Validate p = None -> om_outbounds m !! Name p = Some o ->
  (UpdateOutbound m (Name p) (Some p)).1.1 =
    set_nodes (<[Name p := with_runtime (Some (length (om_runtimes m))) p]> (om_outbounds m))
      (om_runtimes m ++ [zero_runtime]) (drop_singbox (Name p) m).
Proof.
  intros Hp Hv E. unfold UpdateOutbound, Clone, runtimeState.
  rewrite Hv, E, String.eqb_refl, Hp, om_runtimes_drop. by destruct p.
Qed.

(** The count of a node after the close of a connection on it. *)
Lemma Close_count now i w c cfg rid n :
  dw_conns w !! i = Some c -> tc_closed c = false ->
  om_outbounds (dw_m w) !! tc_name c = Some cfg -> runtime cfg = Some rid ->
  counts (om_runtimes (dw_m w)) !! rid = Some n -> 0 < n ->
  om_outbounds (dw_m (Close now i w)) = om_outbounds (dw_m w) /\
  counts (om_runtimes (dw_m (Close now i w))) !! rid = Some (n - 1) /\
  om_singbox (dw_m (Close now i w)) = om_singbox (dw_m w).
Proof.
  intros E Ec Ecfg Hr Hn Hpos. unfold Close. rewrite E, Ec. cbn [dw_m].
  rewrite (on_stored_use _ _ _ cfg rid Ecfg Hr). cbn [om_outbounds om_runtimes set_nodes om_singbox].
  split; [done|]. split; [|done].
  rewrite (counts_alter _ (fun n => if 0 <? n then n - 1 else n)).
  2: { intros rt. unfold rt_DecrConnCount. destruct (0 <? connCount rt); [|done]. by destruct (_ && _). }
  rewrite list_lookup_alter_eq, Hn. cbn. by rewrite (proj2 (Z.ltb_lt _ _) Hpos).
Qed.

Lemma busy_count m name cfg rid n :
  om_outbounds m !! name = Some cfg -> runtime cfg = Some rid ->
  counts (om_runtimes m) !! rid = Some n -> busy m name = (0 <? n).
Proof.
  intros E Hr Hn. unfold busy, GetConnCount, runtime_of. rewrite E, Hr.
  unfold counts in Hn. rewrite list_lookup_fmap in Hn. destruct (om_runtimes m !! rid); naive_solver.
Qed.

(** An update replaces the runtime of a node by that of the new configuration, whose count
    starts at zero, and a connection opened before the update decrements the new
    count when it closes.  So with one connection open from before and one from
    after the update, the close of the first makes the node look unused, and the
    cleanup closes the sing-box outbound under the second as soon as five minutes
    have passed since the last dial. *)
Theorem update_forgets_connections (w : dial_world) (name : string) (o p : ProxyOutbound)
    (a1 a2 : attempt) (t3 t4 : gotime) :
  om_wf (dw_m w) -> om_outbounds (dw_m w) !! name = Some o ->
  Validate p = None -> Name p = name -> runtime p = None ->
  at_create a1 = None -> at_listen a1 = None -> at_create a2 = None -> at_listen a2 = None ->
  let w1 := (dialPacketConnOnce a1 name w).1 in
  let w2 := with_m (UpdateOutbound (dw_m w1) name (Some p)).1.1 w1 in
  let w3 := (dialPacketConnOnce a2 name w2).1 in
  let w4 := Close t3 (length (dw_conns w)) w3 in
  (forall t, om_singboxLastUsed (dw_m w4) !! name = Some t -> 5 * minute < time_sub t4 t) ->
  is_Some (om_singboxLastUsed (dw_m w4) !! name) ->
  exists c sb,
    dw_conns w4 !! S (length (dw_conns w)) = Some c /\ open_on name c /\
    om_singbox (dw_m w4) !! name = Some sb /\
    om_singbox (cleanup_tick t4 [name] (dw_m w4)) !! name = None /\
    sb ∈ om_closed (cleanup_tick t4 [name] (dw_m w4)).
Proof.
  intros Hw E Hv Hn Hp Hc1 Hl1 Hc2 Hl2 w1 w2 w3 w4 Hidle [t Ht]. subst name.
  destruct (dialOnce_ok a1 _ w o Hw E Hc1 Hl1) as (i1 & _ & (c1 & r1 & _ & _ & N1 & W1 & _ & C1 & _)).
  fold w1 in N1, W1, C1.
  assert (om_outbounds (dw_m w1) !! Name p = Some o) as E1 by (by rewrite N1).
  assert (om_wf (dw_m w2)) as W2 by (apply UpdateOutbound_wf; [done|intros r Hr; congruence]).
  set (rid := length (om_runtimes (dw_m w1))). set (q := with_runtime (Some rid) p).
  assert (om_outbounds (dw_m w2) !! Name p = Some q /\ counts (om_runtimes (dw_m w2)) !! rid = Some 0) as [E2 K2].
  { unfold w2. rewrite (UpdateOutbound_new _ o p Hp Hv E1). cbn [with_m dw_m om_outbounds set_nodes om_runtimes].
    split; [by rewrite lookup_insert_eq|]. unfold counts. by rewrite list_lookup_fmap, list_lookup_middle. }
  destruct (dialOnce_ok a2 _ w2 q W2 E2 Hc2 Hl2)
    as (i2 & _ & (c2 & r2 & E2' & R2 & N3 & W3 & _ & C3 & K3 & _ & _ & [sb S3])).
  fold w3 in N3, W3, C3, K3, S3. assert (c2 = q) as -> by congruence. assert (r2 = rid) as -> by (by cbn in R2; congruence).
  assert (counts (om_runtimes (dw_m w3)) !! rid = Some 1) as K3' by (by rewrite K3, list_lookup_alter_eq, K2).
  assert (dw_conns w3 = (dw_conns w ++ [{| tc_name := Name p; tc_cfg := c1; tc_closed := false |}]) ++
    [{| tc_name := Name p; tc_cfg := q; tc_closed := false |}]) as Ec by (by rewrite C3; unfold w2; cbn; rewrite C1).
  assert (dw_conns w3 !! length (dw_conns w) = Some {| tc_name := Name p; tc_cfg := c1; tc_closed := false |}) as Hc
    by (by rewrite Ec, <- app_assoc; apply list_lookup_middle).
  destruct (Close_count t3 (length (dw_conns w)) w3 _ q rid 1 Hc eq_refl ltac:(by cbn; rewrite N3) eq_refl K3' ltac:(lia))
    as (N4 & K4 & S4). fold w4 in N4, K4, S4.
  exists {| tc_name := Name p; tc_cfg := q; tc_closed := false |}, sb.
  split; [|split; [done|split; [by rewrite S4|]]].
  - unfold w4, Close. rewrite Hc. cbn [tc_closed dw_conns].
    rewrite list_lookup_insert_ne by lia. rewrite Ec. apply list_lookup_middle. rewrite length_app. cbn. lia.
  - cbn [cleanup_tick cleanupExpiredOutboundLatencyHistory cleanupExpiredServerNodeLatencyHistory
      set_latency om_singbox om_closed fold_left].
    assert (idle_outbound t4 (dw_m w4) (Name p) = true) as Hi.
    { unfold idle_outbound. rewrite Ht, (busy_count _ _ q rid (1 - 1) ltac:(by rewrite N4, N3) eq_refl K4).
      cbn. apply Z.ltb_lt, Hidle, Ht. }
    rewrite close_idle_eq, Hi, om_singbox_drop, lookup_delete_eq. split; [done|].
    apply drop_singbox_closed. right. by rewrite S4.
Qed.
End lost.

(** ** Witnesses *)

#[local] Existing Instance ascii_unicode.

Definition example_world : dial_world := {| dw_m := two_nodes; dw_made := []; dw_conns := [] |}.

(** An attempt at [now] where the library returns these results. *)
Definition example_attempt (now : gotime) (create listen : option string) : attempt :=
  {| at_now := now; at_done := false; at_create := create; at_listen := listen; at_recreate := None;
     at_relisten := None; at_done_wait := false |}.

(** Two calls for one node both miss the cache and create; the second insertion loses
    and its outbound is closed. *)
Lemma singbox_ownership_witness :
  exists w ts, rtc dial_step (dial_initial None, []) (w, ts) /\
    om_closed (dw_m w) = [1%nat] /\ om_singbox (dw_m w) !! "hk"%string = Some 0%nat /\
    cached (dw_m w) ++ held ts ++ [1%nat] ≡ₚ [0%nat; 1%nat].
Proof.
  assert (exists w ts, rtc dial_step (dial_initial None, []) (w, ts) /\
    om_closed (dw_m w) = [1%nat] /\ om_singbox (dw_m w) !! "hk"%string = Some 0%nat /\
    length (dw_made w) = 2%nat) as (w & ts & Hr & Hc & Hs & Hm).
  { do 2 eexists. split.
    - eapply rtc_l; [apply step_manager, (step_add _ (example_group_node "hk" "asia")); intros r; discriminate|].
      eapply rtc_l; [apply (step_call_get _ _ "hk")|]. eapply rtc_l; [apply (step_call_get _ _ "hk")|].
      do 4 (eapply rtc_l; [eapply (step_thread _ _ 0 _ 10 None); reflexivity|]).
      do 4 (eapply rtc_l; [eapply (step_thread _ _ 1 _ 11 None); reflexivity|]).
      eapply rtc_l; [eapply (step_thread _ _ 0 _ 12 None); reflexivity|].
      eapply rtc_l; [eapply (step_thread _ _ 1 _ 13 None); reflexivity|]. apply rtc_refl.
    - split; [|split]; vm_compute; reflexivity. }
  exists w, ts. split; [done|]. split; [done|]. split; [done|].
  pose proof (proj1 (singbox_ownership None w ts Hr)) as Ho. by rewrite Hm, Hc in Ho.
Defined.

Definition stored_hk : ProxyOutbound := with_runtime (Some 0%nat) (example_group_node "hk" "asia").

(** The new configuration is in another group. *)
Lemma update_races_creation_witness :
  exists w' sb, om_singbox (dw_m w') !! "hk"%string = Some sb /\ dw_made w' !! sb = Some stored_hk /\
    no_node_config (dw_m w') "hk" = Some (config_of (example_group_node "hk" "europe")).
Proof.
  destruct (update_races_creation example_world "hk" stored_hk (example_group_node "hk" "europe") 10)
    as (w' & sb & _ & Hc & Hs & Hm & _).
  - exact two_nodes_wf.
  - intros r. discriminate.
  - vm_compute. reflexivity.
  - vm_compute. reflexivity.
  - vm_compute. reflexivity.
  - reflexivity.
  - eauto.
Defined.

(** A manager whose two nodes have a cached outbound. *)
Definition warm_world : dial_world :=
  (getOrCreateSingboxOutbound (hour + 4 * minute) None (example_group_node "us" "west")
     (getOrCreateSingboxOutbound hour None (example_group_node "hk" "asia") example_world).1).1.

(** Six minutes after the use of the first and two after that of the second. *)
Lemma idle_cleanup_exact_witness :
  let m' := cleanup_tick (hour + 6 * minute) ["us"; "hk"]%string (dw_m warm_world) in
  om_singbox m' !! "us"%string = Some 1%nat /\ 0%nat ∈ om_closed m'.
Proof.
  destruct (idle_cleanup_exact (dw_m warm_world) (hour + 6 * minute) ["us"; "hk"]%string) as (_ & _ & Hs & Hc).
  { vm_compute. apply perm_swap || reflexivity. }
  split.
  - apply Hs. split; [vm_compute; reflexivity|]. intros t Ht. vm_compute in Ht. injection Ht as <-. right. done.
  - apply Hc. right. exists "hk"%string, hour. repeat split; vm_compute; reflexivity.
Defined.

(** One node is cached, the creation of the other fails. *)
Lemma reload_exact_witness :
  let w := (getOrCreateSingboxOutbound hour None (example_group_node "hk" "asia") example_world).1 in
  let w' := Reload hour (fun _ => Some "no route"%string) ["us"; "hk"]%string ["hk"]%string w in
  om_singbox (dw_m w') !! "hk"%string = Some 0%nat /\ om_singbox (dw_m w') !! "us"%string = None.
Proof.
  intros w w'.
  destruct (reload_exact w hour (fun _ => Some "no route"%string) ["us"; "hk"]%string ["hk"]%string) as [_ Hr].
  - pose proof (getOrCreate_quiet hour None (example_group_node "hk" "asia") example_world two_nodes_wf) as Hq.
    fold w in Hq. unfold w. destruct (getOrCreateSingboxOutbound _ _ _ _). destruct Hq as [Hq _]. apply Hq.
  - vm_compute. apply perm_swap || reflexivity.
  - vm_compute. reflexivity.
  - split; [exact (Hr "hk"%string)|exact (Hr "us"%string)].
Defined.

Lemma DialPacketConn_accounted_witness :
  let attempts := fun _ => example_attempt hour None None in
  exists conn, (DialPacketConn hour None attempts "hk" example_world).1.2 = inl conn /\
    opened "hk" example_world (DialPacketConn hour None attempts "hk" example_world).1.1 conn.
Proof.
  intros attempts. pose proof (DialPacketConn_accounted example_world hour None attempts "hk" two_nodes_wf) as H.
  assert ((DialPacketConn hour None attempts "hk" example_world).1.2 = inl 0%nat) as E by (vm_compute; reflexivity).
  exists 0%nat. split; [done|].
  destruct (DialPacketConn hour None attempts "hk" example_world) as [[w' result] waits]. cbn in E. subst result.
  apply H.
Defined.

Lemma failed_node_fails_fast_witness :
  let attempts := fun _ => example_attempt hour None (Some "unreachable"%string) in
  let w1 := (dialPacketConnOnce (attempts 1) "hk" example_world).1 in
  DialPacketConn (hour + 29 * second) None attempts "hk" w1 = (w1, inr (DialUnhealthy "unreachable"), []).
Proof.
  intros attempts w1.
  refine (proj2 (failed_node_fails_fast example_world w1 attempts attempts "hk" stored_hk
    (DialListen "unreachable") (hour + 29 * second) None two_nodes_wf _ _ _ _ _ _ _) _).
  - vm_compute. reflexivity.
  - reflexivity.
  - vm_compute. reflexivity.
  - reflexivity.
  - vm_compute. reflexivity.
  - left. vm_compute. reflexivity.
  - done.
  - done.
Defined.

(** Two dials and one close leave one connection. *)
Lemma conn_count_exact_witness :
  exists w o, om_outbounds (dw_m w) !! "hk"%string = Some o /\ open_conns w "hk" = 1 /\
    GetConnCount (om_runtimes (dw_m w)) o = 1.
Proof.
  assert (exists w, rtc conn_step (dial_initial None) w /\ om_outbounds (dw_m w) !! "hk"%string = Some stored_hk /\
    zlen (dw_conns w) < 2 ^ 62 /\ open_conns w "hk" = 1) as (w & Hr & E & Hb & Ho).
  { eexists. split.
    - eapply rtc_l; [apply (conn_add _ (example_group_node "hk" "asia")); reflexivity|].
      eapply rtc_l; [apply (conn_dial _ hour None (fun _ => example_attempt hour None None) "hk")|].
      eapply rtc_l; [apply (conn_dial _ hour None (fun _ => example_attempt hour None None) "hk")|].
      eapply rtc_l; [apply (conn_close _ hour 0)|]. apply rtc_refl.
    - split; [|split]; vm_compute; reflexivity. }
  exists w, stored_hk. split; [done|]. split; [done|].
  rewrite <- Ho at 1. exact (proj1 (conn_count_exact None w "hk" stored_hk Hr Hb E)).
Defined.

Lemma update_forgets_connections_witness :
  let a := example_attempt hour None None in
  let w1 := (dialPacketConnOnce a "hk" example_world).1 in
  let w2 := with_m (UpdateOutbound (dw_m w1) "hk" (Some (example_group_node "hk" "europe"))).1.1 w1 in
  let w4 := Close hour 0 (dialPacketConnOnce a "hk" w2).1 in
  exists c sb, dw_conns w4 !! 1%nat = Some c /\ tc_closed c = false /\
    sb ∈ om_closed (cleanup_tick (hour + 6 * minute) ["hk"]%string (dw_m w4)).
Proof.
  intros a w1 w2 w4.
  destruct (update_forgets_connections example_world "hk" stored_hk (example_group_node "hk" "europe") a a hour
    (hour + 6 * minute)) as (c & sb & Hc & [_ Ho] & _ & _ & Hsb); try reflexivity.
  - exact two_nodes_wf.
  - intros t Ht. vm_compute in Ht. injection Ht as <-. done.
  - vm_compute. eauto.
  - exists c, sb. split; [exact Hc|]. split; [exact Ho|exact Hsb].
Defined.
