(* ===== verification/Selection.v ===== *)
(** * Selection of a node: [internal/proxy/outbound_manager.go],
    [internal/proxy/proxy_dialer.go], [internal/proxy/proxy.go]

    The four selection functions with their candidates, the pinned node of a
    server, the least-latency choice per server, the hysteresis of automatic
    switching and the failover loop of the dialer.

    A selection reads the tables of the manager and changes the runtime heap (a
    virtual "direct" node has a new runtime) and the round-robin table.  Stored
    nodes have a runtime ([om_wf]), so cloning one changes neither it nor the
    heap.  The clock is read once per selection; [order] is the iteration order
    of the map of nodes. *)

From Stdlib Require Import Strings.String Strings.Ascii Floats.SpecFloat.
From S2P Require Import Prelude GoBytes GoString Config Outbound LoadBalancer Latency OutboundManager.

Definition autoSwitchMinLatencyGainMs : Z := 8.
Definition autoSwitchMinDwell : Z := 3 * minute.

(** ** [float64] *)

Definition float64_of_Z (z : Z) : spec_float := binary_normalize 53 1024 z 0 false.

(** The constant 0.10, rounded to nearest. *)
Definition autoSwitchMinRelativeGain : spec_float := S754_finite false 7205759403792794 (-56).

Definition float64_mul : spec_float -> spec_float -> spec_float := SFmul 53 1024.

Definition relativeGainOK (improvement latency : Z) : bool :=
  SFleb (float64_mul (float64_of_Z latency) autoSwitchMinRelativeGain) (float64_of_Z improvement).

Definition shouldPreferBestNodeOverPinned (pinnedLatency bestLatency : Z) : bool :=
  if bestLatency <=? 0 then false
  else if pinnedLatency <=? 0 then true
  else
    let improvement := i64 (pinnedLatency - bestLatency) in
    if improvement <=? 0 then false
    else (autoSwitchMinLatencyGainMs <=? improvement) || relativeGainOK improvement pinnedLatency.

Inductive switch_reason :=
| Switch
| BestHasNoSample
| BestNotFaster
| BelowHysteresis
| DwellNotReached.

(** [currentLatency] is [None] when its flag is false. *)
Definition shouldAutoSwitchNode (currentNode : string) (currentLatency : option Z) (bestLatency : Z)
    (lastSwitchAt now : gotime) : switch_reason :=
  if bestLatency <=? 0 then BestHasNoSample
  else if String.eqb currentNode "" then Switch
  else match currentLatency with
  | None => Switch
  | Some currentLatency =>
      if currentLatency <=? 0 then Switch else
      let improvement := i64 (currentLatency - bestLatency) in
      if improvement <=? 0 then BestNotFaster
      else if negb (autoSwitchMinLatencyGainMs <=? improvement)
              && negb (relativeGainOK improvement currentLatency) then BelowHysteresis
      else if negb (is_zero_time lastSwitchAt) && (time_sub now lastSwitchAt <? autoSwitchMinDwell)
      then DwellNotReached
      else Switch
  end.

(** ** Candidates *)

Definition newDirectVirtualOutbound (h : runtime_heap) : ProxyOutbound * runtime_heap :=
  SetHealthy true h
    {| Name := DirectNodeName; Type_ := "direct"; Server := ""; Port := 0; Enabled := true; Group := "";
       SubscriptionID := ""; SubscriptionName := ""; SubscriptionNodeID := ""; Username := ""; Method := "";
       Password := ""; UUID := ""; AlterID := 0; Security := ""; Flow := ""; Obfs := ""; ObfsPassword := "";
       PortHopping := ""; HopInterval := 0; UpMbps := 0; DownMbps := 0; ALPN := ""; CertFingerprint := "";
       DisableMTU := false; IdleSessionCheckInterval := 0; IdleSessionTimeout := 0; MinIdleSession := 0;
       TLS := false; SNI := ""; Insecure := false; Fingerprint := ""; Reality := false;
       RealityPublicKey := ""; RealityShortID := ""; Network := ""; WSPath := ""; WSHost := "";
       XHTTPMode := ""; GRPCServiceName := ""; GRPCAuthority := ""; TCPLatencyMs := 0; HTTPLatencyMs := 0;
       UDPAvailable := None; UDPLatencyMs := 0; AutoSelectBlocked := false; AutoSelectBlockReason := "";
       AutoSelectBlockExpiresAt := None; runtime := None |}.

Definition IsDirectSelection (o : option ProxyOutbound) : bool :=
  match o with Some o => String.eqb (Name o) DirectNodeName | None => false end.

(** [excludeNodes], as the set the loops build. *)
Definition excluded (excludeNodes : list string) (name : string) : bool :=
  existsb (String.eqb name) excludeNodes.

Definition selectorIncludesSelection (groupOrName nodeName groupName : string) : bool :=
  let groupOrName := trim_space groupOrName in
  let nodeName := trim_space nodeName in
  let groupName := trim_space groupName in
  if String.eqb groupOrName "" || String.eqb nodeName "" then false
  else if has_prefix groupOrName "@" then String.eqb groupName (trim_prefix1 groupOrName "@")
  else if contains1 groupOrName "," then
    existsb (fun entry => String.eqb (trim_space entry) nodeName) (split1 "," groupOrName)
  else String.eqb groupOrName nodeName.

Definition selectorIncludesOutbound (groupOrName : string) (o : option ProxyOutbound) : bool :=
  match o with
  | None => false
  | Some o => selectorIncludesSelection groupOrName (Name o) (Group o)
  end.

(** [<] of Go on strings compares bytes. *)
Definition name_le (a b : ProxyOutbound) : Prop := String.leb (Name a) (Name b) = true.

#[export] Instance name_le_dec : RelDecision name_le := fun a b => decide (_ = _).

(** The nodes that a list of names offers, the names not found, and the heap. *)
Record candidates := {
  cd_heap : runtime_heap;
  cd_healthyNodes : list ProxyOutbound;
  cd_notFoundNodes : list string;
}.

(** The heap, the round-robin table and the result of a selection. *)
Abbreviation selection := (runtime_heap * LoadBalancer * outcome om_err ProxyOutbound)%type (only parsing).

Section selection.
Context `{Unicode}.
Variables (getter : option server_getter) (intn : Z -> Z) (order : list string) (now : gotime).

Definition isSelectableOutboundLocked (h : runtime_heap) (o : ProxyOutbound) : bool :=
  if isMetadataLikeOutboundName (Name o) || negb (Enabled o) || IsAutoSelectBlocked now o then false
  else
    let lastCheck := GetLastCheck h o in
    let hasError := negb (String.eqb (GetLastError h o) "") in
    negb (negb (GetHealthy h o) && hasError && negb (is_zero_time lastCheck)
          && (time_sub now lastCheck <? 30 * second)).

(** [nil] is the empty set. *)
Definition blockedNodesForServer (serverID : string) : gset string :=
  let serverID := trim_space serverID in
  if String.eqb serverID "" then ∅ else
  match getter with
  | None => ∅
  | Some get =>
      match get serverID with
      | None => ∅
      | Some sc => dom (ActiveBlockedNodes now sc)
      end
  end.

Definition blocked_in (s : gset string) (name : string) : bool := bool_decide (name ∈ s).

(** The loop of [GetBestNodeForServer]. *)
Fixpoint best_loop (lat : string -> option Z) (names : list string) (best : string * Z) : string * Z :=
  match names with
  | [] => best
  | name :: names =>
      match lat name with
      | Some l =>
          if l <=? 0 then best_loop lat names best
          else if (best.2 <? 0) || (l <? best.2) then best_loop lat names (name, l)
          else best_loop lat names best
      | None => best_loop lat names best
      end
  end.

Definition GetBestNodeForServer (m : outboundManagerImpl) (serverID groupOrName sortBy : string)
  : string * Z :=
  let serverID := trim_space serverID in
  let sortBy := normalizeSortBy sortBy in
  if String.eqb serverID "" || String.eqb groupOrName "" then (""%string, 0) else
  let blocked := blocked_in (blockedNodesForServer serverID) in
  let usable o := isSelectableOutboundLocked (om_runtimes m) o && outboundSupportsSort o sortBy in
  let lat name := GetServerNodeLatency now m serverID name sortBy in
  let best names :=
    let '(name, l) := best_loop lat names (""%string, -1) in
    if String.eqb name "" then (""%string, 0) else (name, l) in
  if has_prefix groupOrName "@" then
    let groupName := trim_prefix1 groupOrName "@" in
    best (Name <$> List.filter
      (fun o => isSelectableOutboundLocked (om_runtimes m) o && negb (blocked (Name o))
                && outboundSupportsSort o sortBy && String.eqb (Group o) groupName)
      (ListOutbounds m order))
  else if contains1 groupOrName "," then
    best (List.filter
      (fun n => negb (String.eqb n "") && negb (blocked n)
                && (String.eqb n DirectNodeName
                    || match om_outbounds m !! n with Some o => usable o | None => false end))
      (trim_space <$> split1 "," groupOrName))
  else if blocked groupOrName then (""%string, 0)
  else if String.eqb groupOrName DirectNodeName then
    match lat DirectNodeName with
    | Some l => (DirectNodeName, l)
    | None => (""%string, 0)
    end
  else match om_outbounds m !! groupOrName with
  | Some o => if usable o then (groupOrName, 0) else (""%string, 0)
  | None => (""%string, 0)
  end.

(** ** Choosing among candidates *)

(** The candidates of a list of names; [usable] is what the loop asks of a node. *)
Definition collect_step (m : outboundManagerImpl) (skip : string -> bool) (usable : ProxyOutbound -> bool)
    (c : candidates) (nodeName : string) : candidates :=
  let nodeName := trim_space nodeName in
  if String.eqb nodeName "" then c
  else if skip nodeName then c
  else if String.eqb nodeName DirectNodeName then
    let '(direct, h) := newDirectVirtualOutbound (cd_heap c) in
    {| cd_heap := h; cd_healthyNodes := cd_healthyNodes c ++ [direct];
       cd_notFoundNodes := cd_notFoundNodes c |}
  else match om_outbounds m !! nodeName with
  | None =>
      {| cd_heap := cd_heap c; cd_healthyNodes := cd_healthyNodes c;
         cd_notFoundNodes := cd_notFoundNodes c ++ [nodeName] |}
  | Some o =>
      if usable o
      then {| cd_heap := cd_heap c; cd_healthyNodes := cd_healthyNodes c ++ [o];
              cd_notFoundNodes := cd_notFoundNodes c |}
      else c
  end.

Definition collect_list (m : outboundManagerImpl) (skip : string -> bool) (usable : ProxyOutbound -> bool)
    (nodeListStr : string) : candidates :=
  fold_left (collect_step m skip usable) (split1 "," nodeListStr)
    {| cd_heap := om_runtimes m; cd_healthyNodes := []; cd_notFoundNodes := [] |}.

(** The candidates of a group, sorted by name; [None] when the group has no node. *)
Definition collect_group (m : outboundManagerImpl) (skip : string -> bool) (sortBy groupName : string)
  : option (list ProxyOutbound) :=
  match List.filter (fun o => String.eqb (Group o) groupName) (ListOutbounds m order) with
  | [] => None
  | nodes =>
      Some (List.filter (fun o => negb (skip (Name o)) && outboundSupportsSort o sortBy
                                  && isSelectableOutboundLocked (om_runtimes m) o) nodes)
  end.

(** The error of an empty list of candidates. *)
Definition no_candidate (notFound excludeNodes : list string) : om_err :=
  match notFound, excludeNodes with
  | _ :: _, _ => ErrOutboundNotFound
  | [], _ :: _ => ErrAllFailoversFailed
  | [], [] => ErrNoHealthyNodes
  end.

(** The clone of the node chosen. *)
Definition clone_selected (h : runtime_heap) (lb : LoadBalancer)
    (r : outcome no_error (option ProxyOutbound)) : selection :=
  match r with
  | Ret (Some o) => let '(c, _, h) := Clone h o in (h, lb, Ret c)
  | Ret None => (h, lb, Err ErrNoHealthyNodes)
  | Err e => match e with end
  | Panic => (h, lb, Panic)
  end.

Definition balance (h : runtime_heap) (lb : LoadBalancer) (nodes : list ProxyOutbound)
    (strategy sortBy groupKey : string) : selection :=
  let '(lb, r) := Select lb intn h nodes strategy sortBy groupKey in clone_selected h lb r.

(** The per-server cache, or else the latencies of the nodes. *)
Definition selectLeastLatencyForServer (m : outboundManagerImpl) (h : runtime_heap) (lb : LoadBalancer)
    (serverID : string) (nodes : list ProxyOutbound) (sortBy : string)
  : LoadBalancer * outcome no_error (option ProxyOutbound) :=
  let lat o := default 0 (GetServerNodeLatency now m serverID (Name o) sortBy) in
  match (least_latency_loop lat nodes None (-1)).1 with
  | Some o => (lb, Ret (Some o))
  | None => Select lb intn h nodes LoadBalanceLeastLatency sortBy ""
  end.

Definition selectFromNodeList (m : outboundManagerImpl) (lb : LoadBalancer)
    (nodeListStr strategy sortBy : string) (excludeNodes : list string) : selection :=
  let c := collect_list m (excluded excludeNodes) (isSelectableOutboundLocked (om_runtimes m)) nodeListStr in
  match cd_healthyNodes c with
  | [] => (cd_heap c, lb, Err (no_candidate (cd_notFoundNodes c) excludeNodes))
  | nodes => balance (cd_heap c) lb nodes strategy sortBy ("nodelist:" ++ nodeListStr)
  end.

Definition selectFromGroup (m : outboundManagerImpl) (lb : LoadBalancer)
    (groupName strategy sortBy : string) (excludeNodes : list string) : selection :=
  match collect_group m (excluded excludeNodes) sortBy groupName with
  | None => (om_runtimes m, lb, Err ErrGroupNotFound)
  | Some [] => (om_runtimes m, lb, Err (no_candidate [] excludeNodes))
  | Some nodes => balance (om_runtimes m) lb (merge_sort name_le nodes) strategy sortBy groupName
  end.

Definition selectSingleNode (m : outboundManagerImpl) (lb : LoadBalancer) (nodeName : string)
    (excludeNodes : list string) : selection :=
  let h := om_runtimes m in
  if excluded excludeNodes nodeName then (h, lb, Err ErrAllFailoversFailed)
  else if isMetadataLikeOutboundName nodeName then (h, lb, Err ErrOutboundNotFound)
  else match om_outbounds m !! nodeName with
  | None => (h, lb, Err ErrOutboundNotFound)
  | Some o =>
      if negb (Enabled o) then (h, lb, Err ErrOutboundDisabled)
      else if negb (GetHealthy h o) && negb (String.eqb (GetLastError h o) "")
      then (h, lb, Err ErrOutboundUnhealthy)
      else clone_selected h lb (Ret (Some o))
  end.

Definition SelectOutboundWithFailover (m : outboundManagerImpl) (lb : LoadBalancer)
    (groupOrName strategy sortBy : string) (excludeNodes : list string) : selection :=
  if has_prefix groupOrName "@"
  then selectFromGroup m lb (trim_prefix1 groupOrName "@") strategy sortBy excludeNodes
  else if contains1 groupOrName "," then selectFromNodeList m lb groupOrName strategy sortBy excludeNodes
  else selectSingleNode m lb groupOrName excludeNodes.

Definition SelectOutbound (m : outboundManagerImpl) (lb : LoadBalancer)
    (groupOrName strategy sortBy : string) : selection :=
  SelectOutboundWithFailover m lb groupOrName strategy sortBy [].

(** ** Selection for a server *)

Definition skip_for_server (serverID : string) (excludeNodes : list string) (name : string) : bool :=
  excluded excludeNodes name || blocked_in (blockedNodesForServer serverID) name.

Definition selectFromNodeListForServer (m : outboundManagerImpl) (lb : LoadBalancer)
    (serverID nodeListStr strategy sortBy : string) (excludeNodes : list string) : selection :=
  let c := collect_list m (skip_for_server serverID excludeNodes)
             (fun o => outboundSupportsSort o sortBy && isSelectableOutboundLocked (om_runtimes m) o)
             nodeListStr in
  match cd_healthyNodes c with
  | [] => (cd_heap c, lb, Err (no_candidate (cd_notFoundNodes c) excludeNodes))
  | nodes =>
      if String.eqb strategy LoadBalanceLeastLatency then
        let '(lb, r) := selectLeastLatencyForServer m (cd_heap c) lb serverID nodes sortBy in
        clone_selected (cd_heap c) lb r
      else balance (cd_heap c) lb nodes strategy sortBy ("nodelist:" ++ nodeListStr)
  end.

Definition selectFromGroupForServer (m : outboundManagerImpl) (lb : LoadBalancer)
    (serverID groupName strategy sortBy : string) (excludeNodes : list string) : selection :=
  match collect_group m (skip_for_server serverID excludeNodes) sortBy groupName with
  | None => (om_runtimes m, lb, Err ErrGroupNotFound)
  | Some [] => (om_runtimes m, lb, Err (no_candidate [] excludeNodes))
  | Some nodes =>
      let nodes := merge_sort name_le nodes in
      if String.eqb strategy LoadBalanceLeastLatency then
        let '(lb, r) := selectLeastLatencyForServer m (om_runtimes m) lb serverID nodes sortBy in
        clone_selected (om_runtimes m) lb r
      else balance (om_runtimes m) lb nodes strategy sortBy groupName
  end.

(** [usePinned]: the pin of a node yields to a clearly faster best node. *)
Definition use_pinned (m : outboundManagerImpl) (manual : bool) (serverID strategy sortBy : string)
    (best : string * Z) (pinnedName : string) : bool :=
  if negb manual && String.eqb strategy LoadBalanceLeastLatency && negb (String.eqb best.1 "")
     && negb (String.eqb best.1 pinnedName)
  then match GetServerNodeLatency now m serverID pinnedName sortBy with
       | None => false
       | Some l => negb (shouldPreferBestNodeOverPinned l best.2)
       end
  else true.

(** The health test of a pinned node. *)
Definition pin_healthy (h : runtime_heap) (o : ProxyOutbound) : bool :=
  GetHealthy h o || is_zero_time (GetLastCheck h o) || String.eqb (GetLastError h o) ""
  || (30 * second <=? time_sub now (GetLastCheck h o)).

Definition pin_usable (m : outboundManagerImpl) (groupOrName sortBy : string) (o : ProxyOutbound) : bool :=
  Enabled o && negb (IsAutoSelectBlocked now o) && outboundSupportsSort o sortBy
  && selectorIncludesOutbound groupOrName (Some o) && pin_healthy (om_runtimes m) o.

(** The pinned node when it is to be used: "direct" or a node of the table. *)
Definition pinned_selection (m : outboundManagerImpl) (manual : bool)
    (serverID groupOrName strategy sortBy : string) (best : string * Z) (pinnedName : string)
  : option (runtime_heap * ProxyOutbound) :=
  if String.eqb pinnedName DirectNodeName && selectorIncludesSelection groupOrName DirectNodeName ""
     && use_pinned m manual serverID strategy sortBy best pinnedName
  then let '(direct, h) := newDirectVirtualOutbound (om_runtimes m) in Some (h, direct)
  else match om_outbounds m !! pinnedName with
  | None => None
  | Some o =>
      if pin_usable m groupOrName sortBy o && use_pinned m manual serverID strategy sortBy best pinnedName
      then let '(c, _, h) := Clone (om_runtimes m) o in Some (h, c)
      else None
  end.

Definition SelectOutboundWithFailoverForServer (m : outboundManagerImpl) (lb : LoadBalancer)
    (serverID groupOrName strategy sortBy : string) (excludeNodes : list string) : selection :=
  let serverID := trim_space serverID in
  let strategy := trim_space strategy in
  let sortBy := normalizeSortBy sortBy in
  if String.eqb serverID "" then SelectOutboundWithFailover m lb groupOrName strategy sortBy excludeNodes else
  let blocked := blocked_in (blockedNodesForServer serverID) in
  let manual := IsServerNodeManual m serverID in
  let best :=
    if String.eqb strategy LoadBalanceLeastLatency
    then GetBestNodeForServer m serverID groupOrName sortBy else (""%string, 0) in
  let honorPin := manual || String.eqb strategy LoadBalanceLeastLatency in
  let pinned :=
    match GetServerSelectedNode m serverID with
    | Some pinnedName =>
        if honorPin && negb (blocked pinnedName) && negb (excluded excludeNodes pinnedName)
        then pinned_selection m manual serverID groupOrName strategy sortBy best pinnedName
        else None
    | None => None
    end in
  match pinned with
  | Some (h, o) => (h, lb, Ret o)
  | None =>
      if has_prefix groupOrName "@" then
        selectFromGroupForServer m lb serverID (trim_prefix1 groupOrName "@") strategy sortBy excludeNodes
      else if contains1 groupOrName "," then
        selectFromNodeListForServer m lb serverID groupOrName strategy sortBy excludeNodes
      else if blocked groupOrName then (om_runtimes m, lb, Err ErrNoHealthyNodes)
      else selectSingleNode m lb groupOrName excludeNodes
  end.

(** ** The failover loop of the dialer

    [dial] answers the attempts in turn: the connection succeeds, fails, or fails
    with the context cancelled.  [None] says that the fuel ran out. *)
Inductive dial_answer := DialOk | DialFailed | DialCancelled.

Inductive dial_result :=
| Connected (nodeName : string)
| Exhausted (e : om_err) (tried : list string)
| Cancelled
| Crashed.

Fixpoint dialWithLoadBalancing (fuel : nat) (dial : list string -> string -> dial_answer)
    (m : outboundManagerImpl) (lb : LoadBalancer) (serverID groupSelector strategy sortBy : string)
    (excludedNodes : list string) : option dial_result :=
  match fuel with
  | O => None
  | S fuel =>
      let '(h, lb, r) :=
        SelectOutboundWithFailoverForServer m lb serverID groupSelector strategy sortBy excludedNodes in
      let m := set_nodes (om_outbounds m) h m in
      match r with
      | Err e => Some (Exhausted e excludedNodes)
      | Panic => Some Crashed
      | Ret o =>
          match dial excludedNodes (Name o) with
          | DialOk => Some (Connected (Name o))
          | DialFailed =>
              dialWithLoadBalancing fuel dial m lb serverID groupSelector strategy sortBy
                (excludedNodes ++ [Name o])
          | DialCancelled => Some Cancelled
          end
      end
  end.
End selection.

(** * Facts *)

(** ** Hysteresis *)

(** Below eight milliseconds of gain the test on floats is the exact test, for
    latencies up to a second. *)
Definition relative_gain_table : bool :=
  forallb (fun p => forallb (fun i => Bool.eqb (relativeGainOK i p) (p <=? 10 * i)) (seqZ 1 7)) (seqZ 1 1000).

Lemma relative_gain_table_spec : relative_gain_table = true ->
  forall i p, 0 < i < autoSwitchMinLatencyGainMs -> 0 < p <= 1000 -> relativeGainOK i p = (p <=? 10 * i).
Proof.
  unfold relative_gain_table, autoSwitchMinLatencyGainMs. rewrite forallb_forall. intros H i p Hi Hp.
  specialize (H p ltac:(apply list_elem_of_In, elem_of_seqZ; lia)). rewrite forallb_forall in H.
  specialize (H i ltac:(apply list_elem_of_In, elem_of_seqZ; lia)). by apply Bool.eqb_prop in H.
Qed.

Lemma relative_gain_checked : relative_gain_table = true.
Proof. vm_compute. reflexivity. Qed.

Lemma relativeGainOK_exact i p : 0 < i < autoSwitchMinLatencyGainMs -> 0 < p <= 1000 ->
  relativeGainOK i p = (p <=? 10 * i).
Proof. exact (relative_gain_table_spec relative_gain_checked i p). Qed.

(** The gain that makes automatic selection leave a node: at least eight
    milliseconds, or at least a tenth of the latency of the node. *)
Definition clearly_faster (current best : Z) : Prop :=
  0 < current - best /\ (8 <= current - best \/ current <= 10 * (current - best)).

Lemma gain_ok current best :
  0 < best -> 0 < current <= 1000 -> 0 < current - best ->
  ((autoSwitchMinLatencyGainMs <=? current - best) || relativeGainOK (current - best) current) = true
  <-> clearly_faster current best.
Proof.
  intros Hb Hc Hi. unfold clearly_faster. rewrite orb_true_iff, Z.leb_le.
  unfold autoSwitchMinLatencyGainMs at 1.
  destruct (Z.le_gt_cases 8 (current - best)) as [|Hlt]; [naive_solver|].
  rewrite relativeGainOK_exact, Z.leb_le; [lia|unfold autoSwitchMinLatencyGainMs; lia|done].
Qed.

(** A pinned node yields to the best node exactly when the best node was measured and
    the pinned node was not, or is slower by eight milliseconds or by a tenth of
    its own latency; the test on floats decides this exactly for latencies up to
    a second.  Two nodes never yield to each other. *)
Theorem hysteresis_exact (pinned best : Z) :
  pinned <= 1000 -> best < 2 ^ 62 ->
  (shouldPreferBestNodeOverPinned pinned best = true <->
     0 < best /\ (pinned <= 0 \/ clearly_faster pinned best)) /\
  (0 < pinned -> shouldPreferBestNodeOverPinned pinned best = true ->
     shouldPreferBestNodeOverPinned best pinned = false).
Proof.
  intros Hp Hb2. unfold shouldPreferBestNodeOverPinned.
  destruct (Z.leb_spec best 0) as [Hb|Hb]; [split; [naive_solver lia|done]|].
  destruct (Z.leb_spec pinned 0) as [Hp0|Hp0]; [split; [naive_solver lia|lia]|].
  rewrite i64_small by lia. destruct (Z.leb_spec (pinned - best) 0) as [Hi|Hi].
  { split; [|done]. unfold clearly_faster. naive_solver lia. }
  rewrite gain_ok by lia. split; [naive_solver lia|]. intros _ _.
  rewrite i64_small by lia. by rewrite (proj2 (Z.leb_le (best - pinned) 0)) by lia.
Qed.

Lemma hysteresis_exact_witness :
  shouldPreferBestNodeOverPinned 50 45 = true /\ shouldPreferBestNodeOverPinned 51 46 = false.
Proof.
  split; [|apply not_true_is_false; intros H].
  - apply (hysteresis_exact 50 45); [lia|lia|]. split; [lia|right]. unfold clearly_faster. lia.
  - apply (hysteresis_exact 51 46) in H as [_ [|[_ [|]]]]; lia.
Defined.

(** The automatic switch happens exactly when the best node was measured and either no
    node is current, the current one was not measured, or it is clearly slower
    and the last switch was at least three minutes ago. *)
Theorem shouldAutoSwitchNode_spec (currentNode : string) (current : option Z) (best : Z)
    (lastSwitchAt now : gotime) :
  (forall l, current = Some l -> l <= 1000) -> best < 2 ^ 62 ->
  shouldAutoSwitchNode currentNode current best lastSwitchAt now = Switch <->
  0 < best /\
  (currentNode = ""%string \/ current = None \/
   exists l, current = Some l /\
     (l <= 0 \/ clearly_faster l best /\
        (lastSwitchAt = 0 \/ lastSwitchAt + autoSwitchMinDwell <= now))).
Proof.
  intros Hl Hb2. unfold shouldAutoSwitchNode, is_zero_time.
  destruct (Z.leb_spec best 0) as [Hb|Hb]; [naive_solver lia|].
  destruct (String.eqb_spec currentNode "") as [->|Hn]; [naive_solver|].
  destruct current as [l|]; [|naive_solver]. specialize (Hl l eq_refl).
  destruct (Z.leb_spec l 0) as [Hl0|Hl0]; [naive_solver|]. rewrite i64_small by lia.
  destruct (Z.leb_spec (l - best) 0) as [Hi|Hi].
  { split; [done|]. unfold clearly_faster. naive_solver lia. }
  rewrite <- negb_orb. destruct (_ || _) eqn:E; cbn [negb].
  - apply gain_ok in E; [|lia..]. assert (forall d, 0 <= d < 2 ^ 60 ->
      (time_sub now lastSwitchAt <? d) = (now <? lastSwitchAt + d)) as Hd.
    { intros d Hd. unfold time_sub. apply eq_bool_prop_intro. rewrite !Is_true_true, !Z.ltb_lt. lia. }
    rewrite Hd by by vm_compute.
    destruct (Z.eqb_spec lastSwitchAt 0), (Z.ltb_spec now (lastSwitchAt + autoSwitchMinDwell)); cbn;
      naive_solver lia.
  - split; [done|]. apply not_true_iff_false in E. rewrite gain_ok in E by lia. naive_solver lia.
Qed.

Lemma shouldAutoSwitchNode_spec_witness :
  shouldAutoSwitchNode "hk" (Some 90) 70 hour (hour + autoSwitchMinDwell) = Switch.
Proof.
  apply shouldAutoSwitchNode_spec; [by intros l [= <-]|lia|]. split; [lia|]. right. right. exists 90.
  split; [done|]. right. split; [unfold clearly_faster; lia|]. right. lia.
Defined.

(** ** Candidates *)

(** No connection count of the heap is negative. *)
Definition counts_ok (h : runtime_heap) : Prop := Forall (fun rt => 0 <= connCount rt) h.

Lemma counts_ok_get h o : counts_ok h -> 0 <= GetConnCount h o.
Proof.
  intros Hc. unfold GetConnCount, runtime_of. destruct (runtime o) as [r|]; [|done].
  destruct (h !! r) as [rt|] eqn:E; [|done]. unfold counts_ok in Hc. rewrite Forall_lookup in Hc.
  by apply (Hc r).
Qed.

(** The virtual node. *)
Definition virtual_direct (o : ProxyOutbound) : Prop :=
  Name o = DirectNodeName /\ Type_ o = "direct"%string /\ Group o = ""%string /\ Enabled o = true /\
  is_Some (runtime o).

Lemma newDirect_spec h o h' :
  newDirectVirtualOutbound h = (o, h') ->
  virtual_direct o /\ GetHealthy h' o = true /\ (exists k, h' = h ++ k) /\ (counts_ok h -> counts_ok h').
Proof.
  unfold newDirectVirtualOutbound, SetHealthy, on_runtime, runtimeState. cbn [runtime]. intros [= <- <-].
  rewrite alter_app_r_alt by lia. rewrite Nat.sub_diag.
  split; [repeat split; by eexists|]. split; [|split; [eauto|]].
  - unfold GetHealthy, runtime_of. cbn. by rewrite list_lookup_middle.
  - intros Hc. apply Forall_app. split; [done|]. by constructor.
Qed.

Section selection_facts.
Context `{Unicode}.
Variables (getter : option server_getter) (intn : Z -> Z) (order : list string) (now : gotime).
Variable m : outboundManagerImpl.
Hypothesis Hwf : om_wf m.
Hypothesis Horder : order ≡ₚ (map_to_list (om_outbounds m)).*1.
Hypothesis Hintn : intn_ok intn.
Hypothesis Hcounts : counts_ok (om_runtimes m).

(** A node of the table or the virtual node. *)
Definition selectable_node (o : ProxyOutbound) : Prop :=
  virtual_direct o \/ om_outbounds m !! Name o = Some o.

Lemma selectable_runtime o : selectable_node o -> is_Some (runtime o).
Proof. intros [(_ & _ & _ & _ & ?)|Ho]; [done|]. by apply (proj1 Hwf) in Ho as (_ & _ & _ & ?). Qed.

Lemma stored_name name o : om_outbounds m !! name = Some o -> Name o = name.
Proof. intros Ho. by apply (proj1 Hwf) in Ho as (? & _). Qed.

Lemma elem_of_ListOutbounds o : o ∈ ListOutbounds m order <-> om_outbounds m !! Name o = Some o.
Proof.
  unfold ListOutbounds. rewrite list_elem_of_omap. split.
  - intros (n & _ & Hn). by rewrite (stored_name n o Hn).
  - intros Ho. exists (Name o). split; [|done]. rewrite Horder. apply list_elem_of_fmap.
    exists (Name o, o). split; [done|]. by apply elem_of_map_to_list.
Qed.

(** The candidates of a list of names. *)
Definition list_candidate (skip : string -> bool) (usable : ProxyOutbound -> bool) (names : list string)
    (o : ProxyOutbound) : Prop :=
  skip (Name o) = false /\ Name o ∈ trim_space <$> names /\
  (virtual_direct o \/ om_outbounds m !! Name o = Some o /\ usable o = true).

Lemma collect_fold skip usable names l c :
  (forall x, x ∈ l -> x ∈ names) -> counts_ok (cd_heap c) ->
  (forall o, o ∈ cd_healthyNodes c -> list_candidate skip usable names o) ->
  let c' := fold_left (collect_step m skip usable) l c in
  counts_ok (cd_heap c') /\ (exists k, cd_heap c' = cd_heap c ++ k) /\
  (forall o, o ∈ cd_healthyNodes c' -> list_candidate skip usable names o) /\
  (forall o, o ∈ cd_healthyNodes c -> o ∈ cd_healthyNodes c') /\
  (forall n, n ∈ trim_space <$> l -> n <> ""%string -> skip n = false ->
     n = DirectNodeName \/ (exists o, om_outbounds m !! n = Some o /\ usable o = true) ->
     exists o, o ∈ cd_healthyNodes c' /\ Name o = n).
Proof.
  revert c. induction l as [|x l IH]; intros c Hl Hc Hh; cbn [fold_left].
  { split; [done|]. split; [exists []; by rewrite app_nil_r|]. split; [done|]. split; [done|].
    intros n Hn. by apply not_elem_of_nil in Hn. }
  assert (counts_ok (cd_heap (collect_step m skip usable c x)) /\
    (exists k, cd_heap (collect_step m skip usable c x) = cd_heap c ++ k) /\
    (forall o, o ∈ cd_healthyNodes (collect_step m skip usable c x) -> list_candidate skip usable names o) /\
    (forall o, o ∈ cd_healthyNodes c -> o ∈ cd_healthyNodes (collect_step m skip usable c x)) /\
    (trim_space x <> ""%string -> skip (trim_space x) = false ->
      trim_space x = DirectNodeName \/ (exists o, om_outbounds m !! trim_space x = Some o /\ usable o = true) ->
      exists o, o ∈ cd_healthyNodes (collect_step m skip usable c x) /\ Name o = trim_space x))
    as (H1 & [k Hk] & H3 & H4 & H5).
  { assert (trim_space x ∈ trim_space <$> names) as Hx by (apply list_elem_of_fmap_2, Hl; left).
    assert (exists k, cd_heap c = cd_heap c ++ k) as Hk by (exists []; by rewrite app_nil_r).
    unfold collect_step. destruct (String.eqb_spec (trim_space x) "") as [|Hne]; [done|].
    destruct (skip (trim_space x)) eqn:Hskip; [done|].
    destruct (String.eqb_spec (trim_space x) DirectNodeName) as [Hd|Hd].
    - destruct (newDirectVirtualOutbound (cd_heap c)) as [d h] eqn:E.
      apply newDirect_spec in E as (Hv & _ & Hk' & Hc'). cbn.
      split; [by apply Hc'|]. split; [done|]. split; [|split; [set_solver|]].
      + intros o [Ho|E1%list_elem_of_singleton]%elem_of_app; [by apply Hh|subst].
        pose proof Hv as (Hn & _). unfold list_candidate. rewrite Hn, <- Hd. auto.
      + intros _ _ _. exists d. destruct Hv as (Hn & _). split; [set_solver|congruence].
    - destruct (om_outbounds m !! trim_space x) as [o|] eqn:Ho.
      + destruct (usable o) eqn:Hu.
        * cbn. split; [done|]. split; [done|]. split; [|split; [set_solver|]].
          { intros o' [Ho'|E1%list_elem_of_singleton]%elem_of_app; [by apply Hh|]; subst o'.
            unfold list_candidate. rewrite (stored_name _ _ Ho). auto. }
          intros _ _ _. exists o. split; [set_solver|]. by apply stored_name.
        * do 4 (split; [done|]). intros _ _ [?|(o' & [= <-] & ?)]; congruence.
      + cbn. do 4 (split; [done|]). intros _ _ [?|(o' & ? & _)]; congruence. }
  destruct (IH (collect_step m skip usable c x)) as (I1 & [k' I2] & I3 & I4 & I5); [set_solver|done|done|].
  split; [done|]. split; [exists (k ++ k'); by rewrite I2, Hk, app_assoc|]. split; [done|].
  split; [auto|]. intros n. rewrite fmap_cons. intros [->|Hn]%elem_of_cons Hne Hs Hcand.
  - destruct (H5 Hne Hs Hcand) as (o & Ho & ?). eauto.
  - by apply I5.
Qed.

Lemma collect_list_spec skip usable s :
  let c := collect_list m skip usable s in
  counts_ok (cd_heap c) /\ (exists k, cd_heap c = om_runtimes m ++ k) /\
  (forall o, o ∈ cd_healthyNodes c -> list_candidate skip usable (split1 "," s) o) /\
  (forall n, n ∈ trim_space <$> split1 "," s -> n <> ""%string -> skip n = false ->
     n = DirectNodeName \/ (exists o, om_outbounds m !! n = Some o /\ usable o = true) ->
     exists o, o ∈ cd_healthyNodes c /\ Name o = n).
Proof.
  unfold collect_list.
  destruct (collect_fold skip usable (split1 "," s) (split1 "," s)
    {| cd_heap := om_runtimes m; cd_healthyNodes := []; cd_notFoundNodes := [] |})
    as (H1 & H2 & H3 & _ & H5); [done|done|by intros o Ho; apply not_elem_of_nil in Ho|done].
Qed.

Definition group_candidate (skip : string -> bool) (sortBy group : string) (o : ProxyOutbound) : Prop :=
  om_outbounds m !! Name o = Some o /\ Group o = group /\ skip (Name o) = false /\
  outboundSupportsSort o sortBy = true /\ isSelectableOutboundLocked now (om_runtimes m) o = true.

Lemma collect_group_spec skip sortBy group :
  match collect_group order now m skip sortBy group with
  | None => forall o, om_outbounds m !! Name o = Some o -> Group o <> group
  | Some nodes => forall o, o ∈ nodes <-> group_candidate skip sortBy group o
  end.
Proof.
  unfold collect_group.
  assert (forall o, o ∈ List.filter (fun o => String.eqb (Group o) group) (ListOutbounds m order) <->
    om_outbounds m !! Name o = Some o /\ Group o = group) as Hin.
  { intros o. rewrite list_elem_of_In, filter_In, <- list_elem_of_In, elem_of_ListOutbounds, String.eqb_eq. done. }
  destruct (List.filter _ (ListOutbounds m order)) as [|a l] eqn:E.
  - intros o Ho Hg. by apply (not_elem_of_nil o), Hin.
  - intros o. rewrite list_elem_of_In, filter_In, <- list_elem_of_In, Hin, !andb_true_iff, negb_true_iff.
    unfold group_candidate. naive_solver.
Qed.

(** ** One choice *)

Lemma balance_spec h lb nodes strategy sortBy key :
  nodes <> [] -> lb_wf lb -> counts_ok h -> (forall o, o ∈ nodes -> is_Some (runtime o)) ->
  exists lb' o, balance intn h lb nodes strategy sortBy key = (h, lb', Ret o) /\ o ∈ nodes /\ lb_wf lb'.
Proof.
  intros Hne Hlb Hc Hr. unfold balance.
  destruct (Select_ok lb intn h nodes strategy sortBy key Hlb Hintn) as [Hlb' Hm].
  { intros x _. by apply counts_ok_get. }
  destruct (Select lb intn h nodes strategy sortBy key) as [lb' r]. cbn in *.
  destruct r as [[o|]|[]|]; [|done..]. exists lb', o. unfold clone_selected.
  rewrite Clone_stored by by apply Hr. done.
Qed.

Lemma least_latency_server_spec h lb serverID nodes sortBy :
  nodes <> [] -> lb_wf lb -> counts_ok h ->
  exists lb' o, selectLeastLatencyForServer intn now m h lb serverID nodes sortBy = (lb', Ret (Some o)) /\
    o ∈ nodes /\ lb_wf lb' /\
    let lat o := default 0 (GetServerNodeLatency now m serverID (Name o) sortBy) in
    (0 < lat o /\ forall x, x ∈ nodes -> 0 < lat x -> lat o <= lat x) \/
    (forall x, x ∈ nodes -> lat x <= 0).
Proof.
  intros Hne Hlb Hc. unfold selectLeastLatencyForServer. set (lat := fun o => default 0 _).
  pose proof (least_latency_loop_spec lat nodes None (-1) ltac:(by left)) as Hl.
  destruct (least_latency_loop lat nodes None (-1)) as [[o|] l]; cbn [fst].
  - destruct Hl as (_ & Hpos & [?|Hin] & Hmin & _); [done|]. exists lb, o. auto 6.
  - destruct Hl as (_ & _ & Hall).
    destruct (Select_ok lb intn h nodes LoadBalanceLeastLatency sortBy "" Hlb Hintn) as [Hlb' Hm].
    { intros x _. by apply counts_ok_get. }
    destruct (Select lb intn h nodes LoadBalanceLeastLatency sortBy "") as [lb' r]. cbn in *.
    destruct r as [[o|]|[]|]; [|done..]. exists lb', o. auto 6.
Qed.

(** What every selection keeps: no panic, a valid round-robin table and a heap
    that only grew. *)
Definition selection_ok (P : ProxyOutbound -> Prop) (avail : Prop)
    (s : runtime_heap * LoadBalancer * outcome om_err ProxyOutbound) : Prop :=
  let '(h, lb, r) := s in
  lb_wf lb /\ counts_ok h /\ (exists k, h = om_runtimes m ++ k) /\
  match r with
  | Ret o => P o
  | Err _ => ~ avail
  | Panic => False
  end.

Lemma selection_ok_mono (P Q : ProxyOutbound -> Prop) (A B : Prop) s :
  (forall o, P o -> Q o) -> (B -> A) -> selection_ok P A s -> selection_ok Q B s.
Proof. destruct s as [[h lb] [o|e|]]; cbn; naive_solver. Qed.

Lemma selection_ok_here (P : ProxyOutbound -> Prop) (A : Prop) lb (r : outcome om_err ProxyOutbound) :
  lb_wf lb -> match r with Ret o => P o | Err _ => ~ A | Panic => False end ->
  selection_ok P A (om_runtimes m, lb, r).
Proof. intros Hlb Hr. split; [done|]. split; [done|]. split; [exists []; by rewrite app_nil_r|done]. Qed.

(** ** The selection functions *)

Lemma sorted_candidates skip sortBy group nodes :
  (forall o, o ∈ nodes <-> group_candidate skip sortBy group o) -> nodes <> [] ->
  merge_sort name_le nodes <> [] /\
  (forall o, o ∈ merge_sort name_le nodes -> group_candidate skip sortBy group o /\ is_Some (runtime o)).
Proof.
  intros Hn Hne. split.
  - intros E. apply Hne, Permutation_nil_r. by rewrite <- E, merge_sort_Permutation.
  - intros o. rewrite merge_sort_Permutation, Hn. intros Ho. split; [done|].
    apply selectable_runtime. right. apply Ho.
Qed.

Lemma selectFromGroup_ok lb group strategy sortBy exclude :
  lb_wf lb ->
  selection_ok (group_candidate (excluded exclude) sortBy group)
    (exists o, group_candidate (excluded exclude) sortBy group o)
    (selectFromGroup intn order now m lb group strategy sortBy exclude).
Proof.
  intros Hlb. unfold selectFromGroup. pose proof (collect_group_spec (excluded exclude) sortBy group) as Hg.
  destruct (collect_group _ _ _ _ _ _) as [nodes|].
  2: { apply selection_ok_here; [done|]. intros (o & Ho & Hgr & _). by apply (Hg o). }
  destruct (decide (nodes = [])) as [->|Hne].
  { apply selection_ok_here; [done|]. intros (o & Ho). by apply Hg, not_elem_of_nil in Ho. }
  destruct (sorted_candidates _ _ _ _ Hg Hne) as [Hne' Hin].
  destruct nodes as [|a nodes]; [done|].
  destruct (balance_spec (om_runtimes m) lb (merge_sort name_le (a :: nodes)) strategy sortBy group)
    as (lb' & o & -> & Ho & Hlb'); try done; [intros o Ho; by apply Hin|].
  apply selection_ok_here; [done|]. by apply Hin.
Qed.

Lemma selectFromGroupForServer_ok lb serverID group strategy sortBy exclude :
  lb_wf lb ->
  selection_ok (group_candidate (skip_for_server getter now serverID exclude) sortBy group)
    (exists o, group_candidate (skip_for_server getter now serverID exclude) sortBy group o)
    (selectFromGroupForServer getter intn order now m lb serverID group strategy sortBy exclude).
Proof.
  intros Hlb. unfold selectFromGroupForServer.
  pose proof (collect_group_spec (skip_for_server getter now serverID exclude) sortBy group) as Hg.
  destruct (collect_group _ _ _ _ _ _) as [nodes|].
  2: { apply selection_ok_here; [done|]. intros (o & Ho & Hgr & _). by apply (Hg o). }
  destruct (decide (nodes = [])) as [->|Hne].
  { apply selection_ok_here; [done|]. intros (o & Ho). by apply Hg, not_elem_of_nil in Ho. }
  destruct (sorted_candidates _ _ _ _ Hg Hne) as [Hne' Hin].
  destruct nodes as [|a nodes]; [done|]. cbv zeta. destruct (String.eqb _ _).
  - destruct (least_latency_server_spec (om_runtimes m) lb serverID (merge_sort name_le (a :: nodes)) sortBy)
      as (lb' & o & -> & Ho & Hlb' & _); try done.
    unfold clone_selected. rewrite Clone_stored by by apply Hin. apply selection_ok_here; [done|]. by apply Hin.
  - destruct (balance_spec (om_runtimes m) lb (merge_sort name_le (a :: nodes)) strategy sortBy group)
      as (lb' & o & -> & Ho & Hlb'); try done; [intros o Ho; by apply Hin|].
    apply selection_ok_here; [done|]. by apply Hin.
Qed.

(** Some name of the list can be chosen. *)
Definition list_available (skip : string -> bool) (usable : ProxyOutbound -> bool) (names : list string) : Prop :=
  exists n, n ∈ trim_space <$> names /\ n <> ""%string /\ skip n = false /\
    (n = DirectNodeName \/ exists o, om_outbounds m !! n = Some o /\ usable o = true).

Lemma list_candidate_runtime skip usable names o : list_candidate skip usable names o -> is_Some (runtime o).
Proof. intros (_ & _ & [(_ & _ & _ & _ & ?)|[Ho _]]); [done|]. by apply selectable_runtime; right. Qed.

Lemma collect_list_empty skip usable s lb e :
  lb_wf lb -> cd_healthyNodes (collect_list m skip usable s) = [] ->
  selection_ok (list_candidate skip usable (split1 "," s)) (list_available skip usable (split1 "," s))
    (cd_heap (collect_list m skip usable s), lb, Err e).
Proof.
  intros Hlb E. destruct (collect_list_spec skip usable s) as (Hc & Hk & _ & Hall).
  split; [done|]. split; [done|]. split; [done|]. intros (n & Hn & Hne & Hs & Hc').
  destruct (Hall n Hn Hne Hs Hc') as (o & Ho & _). rewrite E in Ho. by apply not_elem_of_nil in Ho.
Qed.

Lemma selectFromNodeList_ok lb s strategy sortBy exclude :
  lb_wf lb ->
  selection_ok (list_candidate (excluded exclude) (isSelectableOutboundLocked now (om_runtimes m)) (split1 "," s))
    (list_available (excluded exclude) (isSelectableOutboundLocked now (om_runtimes m)) (split1 "," s))
    (selectFromNodeList intn now m lb s strategy sortBy exclude).
Proof.
  intros Hlb. unfold selectFromNodeList. set (skip := excluded exclude). set (usable := isSelectableOutboundLocked _ _).
  destruct (collect_list_spec skip usable s) as (Hc & Hk & Hin & _). cbv zeta.
  destruct (cd_healthyNodes (collect_list m skip usable s)) as [|a nodes] eqn:E; [by apply collect_list_empty|].
  destruct (balance_spec (cd_heap (collect_list m skip usable s)) lb (a :: nodes) strategy sortBy
    ("nodelist:" ++ s)) as (lb' & o & -> & Ho & Hlb'); try done.
  { intros o Ho. by eapply list_candidate_runtime, Hin. }
  split; [done|]. split; [done|]. split; [done|]. by apply Hin.
Qed.

Lemma selectFromNodeListForServer_ok lb serverID s strategy sortBy exclude :
  lb_wf lb ->
  let usable o := outboundSupportsSort o sortBy && isSelectableOutboundLocked now (om_runtimes m) o in
  selection_ok (list_candidate (skip_for_server getter now serverID exclude) usable (split1 "," s))
    (list_available (skip_for_server getter now serverID exclude) usable (split1 "," s))
    (selectFromNodeListForServer getter intn now m lb serverID s strategy sortBy exclude).
Proof.
  intros Hlb usable. unfold selectFromNodeListForServer. fold usable. set (skip := skip_for_server _ _ _ _).
  destruct (collect_list_spec skip usable s) as (Hc & Hk & Hin & _). cbv zeta.
  destruct (cd_healthyNodes (collect_list m skip usable s)) as [|a nodes] eqn:E; [by apply collect_list_empty|].
  destruct (String.eqb _ _).
  - destruct (least_latency_server_spec (cd_heap (collect_list m skip usable s)) lb serverID (a :: nodes) sortBy)
      as (lb' & o & -> & Ho & Hlb' & _); try done.
    unfold clone_selected. rewrite Clone_stored by by eapply list_candidate_runtime, Hin.
    split; [done|]. split; [done|]. split; [done|]. by apply Hin.
  - destruct (balance_spec (cd_heap (collect_list m skip usable s)) lb (a :: nodes) strategy sortBy
      ("nodelist:" ++ s)) as (lb' & o & -> & Ho & Hlb'); try done.
    { intros o Ho. by eapply list_candidate_runtime, Hin. }
    split; [done|]. split; [done|]. split; [done|]. by apply Hin.
Qed.

Definition single_candidate (exclude : list string) (name : string) (o : ProxyOutbound) : Prop :=
  om_outbounds m !! name = Some o /\ excluded exclude name = false /\
  isMetadataLikeOutboundName name = false /\ Enabled o = true /\
  (GetHealthy (om_runtimes m) o = true \/ GetLastError (om_runtimes m) o = ""%string).

Lemma selectSingleNode_ok lb name exclude :
  lb_wf lb ->
  selection_ok (single_candidate exclude name) (exists o, single_candidate exclude name o)
    (selectSingleNode m lb name exclude).
Proof.
  intros Hlb. unfold selectSingleNode, single_candidate. cbv zeta.
  destruct (excluded exclude name); [apply selection_ok_here; naive_solver|].
  destruct (isMetadataLikeOutboundName name); [apply selection_ok_here; naive_solver|].
  destruct (om_outbounds m !! name) as [o|] eqn:Ho; [|apply selection_ok_here; naive_solver].
  destruct (Enabled o) eqn:He; cbn [negb];
    [|apply selection_ok_here; [done|]; intros (o' & [= <-] & _ & _ & He' & _); congruence].
  assert (is_Some (runtime o)) as Hr
    by (apply selectable_runtime; right; by rewrite (stored_name _ _ Ho)).
  destruct (GetHealthy (om_runtimes m) o) eqn:Hh; cbn [negb andb];
    [|destruct (String.eqb_spec (GetLastError (om_runtimes m) o) ""); cbn [negb]].
  1,2: unfold clone_selected; rewrite Clone_stored by done; apply selection_ok_here; auto 6.
  apply selection_ok_here; [done|]. intros (o' & [= <-] & _ & _ & _ & [?|?]); congruence.
Qed.

(** ** Selection for a server *)

(** A node belongs to a selector. *)
Definition selected_by (sel : string) (o : ProxyOutbound) : Prop :=
  if has_prefix sel "@" then Group o = trim_prefix1 sel "@"
  else if contains1 sel "," then Name o ∈ trim_space <$> split1 "," sel
  else Name o = sel.

Definition usable_for (sortBy : string) (o : ProxyOutbound) : bool :=
  outboundSupportsSort o (normalizeSortBy sortBy) && isSelectableOutboundLocked now (om_runtimes m) o.

(** Something can be selected for a server. *)
Definition available (serverID sel sortBy : string) (exclude : list string) : Prop :=
  let skip := skip_for_server getter now serverID exclude in
  if has_prefix sel "@" then exists o, group_candidate skip (normalizeSortBy sortBy) (trim_prefix1 sel "@") o
  else if contains1 sel "," then list_available skip (usable_for sortBy) (split1 "," sel)
  else skip sel = false /\ exists o, single_candidate exclude sel o.

(** What a selected node is. *)
Definition chosen (serverID sel : string) (exclude : list string) (o : ProxyOutbound) : Prop :=
  Enabled o = true /\ excluded exclude (Name o) = false /\ Name o ∉ blockedNodesForServer getter now serverID /\
  selectable_node o /\ (selected_by sel o \/ selectorIncludesOutbound sel (Some o) = true).

Lemma blocked_in_spec s name : blocked_in s name = false <-> name ∉ s.
Proof. unfold blocked_in. by rewrite bool_decide_eq_false. Qed.

Lemma skip_for_server_spec serverID exclude name :
  skip_for_server getter now serverID exclude name = false <->
  excluded exclude name = false /\ name ∉ blockedNodesForServer getter now serverID.
Proof. unfold skip_for_server. by rewrite orb_false_iff, blocked_in_spec. Qed.

Lemma selectable_enabled o : isSelectableOutboundLocked now (om_runtimes m) o = true -> Enabled o = true.
Proof. unfold isSelectableOutboundLocked. destruct (Enabled o); [done|]. by rewrite orb_true_r. Qed.

Lemma group_chosen serverID sel sortBy exclude skip o :
  (forall n, skip n = false -> excluded exclude n = false /\ n ∉ blockedNodesForServer getter now serverID) ->
  has_prefix sel "@" = true -> group_candidate skip sortBy (trim_prefix1 sel "@") o -> chosen serverID sel exclude o.
Proof.
  intros Hs Hp (Ho & Hg & Hsk & _ & Hsel). destruct (Hs _ Hsk) as [He Hb].
  split; [by apply selectable_enabled|]. split; [done|]. split; [done|]. split; [by right|left].
  unfold selected_by. by rewrite Hp.
Qed.

Lemma list_chosen serverID sel exclude skip usable o :
  (forall n, skip n = false -> excluded exclude n = false /\ n ∉ blockedNodesForServer getter now serverID) ->
  has_prefix sel "@" = false -> contains1 sel "," = true ->
  (forall o, usable o = true -> isSelectableOutboundLocked now (om_runtimes m) o = true) ->
  list_candidate skip usable (split1 "," sel) o -> chosen serverID sel exclude o.
Proof.
  intros Hs Hp Hc Hu (Hsk & Hin & Ho). destruct (Hs _ Hsk) as [He Hb].
  assert (Enabled o = true) as Hen.
  { destruct Ho as [(_ & _ & _ & ? & _)|[_ Ho]]; [done|]. by apply selectable_enabled, Hu. }
  split; [done|]. split; [done|]. split; [done|]. split; [destruct Ho as [?|[? _]]; [by left|by right]|left].
  unfold selected_by. by rewrite Hp, Hc.
Qed.

Lemma single_chosen serverID sel exclude o :
  has_prefix sel "@" = false -> contains1 sel "," = false ->
  sel ∉ blockedNodesForServer getter now serverID ->
  single_candidate exclude sel o -> chosen serverID sel exclude o.
Proof.
  intros Hp Hc Hb (Ho & He & _ & Hen & _). pose proof (stored_name _ _ Ho) as Hn. unfold chosen.
  rewrite Hn. split; [done|]. split; [done|]. split; [done|]. split; [right; by rewrite Hn|left].
  unfold selected_by. by rewrite Hp, Hc.
Qed.

Lemma SelectOutboundWithFailover_ok lb serverID sel strategy sortBy exclude :
  trim_space serverID = ""%string -> lb_wf lb ->
  selection_ok (chosen serverID sel exclude) (available serverID sel sortBy exclude)
    (SelectOutboundWithFailover intn order now m lb sel strategy (normalizeSortBy sortBy) exclude).
Proof.
  intros Hid Hlb. assert (blockedNodesForServer getter now serverID = ∅) as Hb
    by (unfold blockedNodesForServer; by rewrite Hid).
  assert (forall n, skip_for_server getter now serverID exclude n = excluded exclude n) as Hs.
  { intros n. unfold skip_for_server. rewrite Hb. unfold blocked_in.
    rewrite bool_decide_eq_false_2, orb_false_r by set_solver. done. }
  assert (forall n, excluded exclude n = false -> excluded exclude n = false /\
    n ∉ blockedNodesForServer getter now serverID) as Hs'.
  { intros n. rewrite Hb. set_solver. }
  unfold SelectOutboundWithFailover, available. destruct (has_prefix sel "@") eqn:Hp.
  { eapply selection_ok_mono; [| |by apply selectFromGroup_ok].
    - intros o. by apply group_chosen.
    - intros (o & Ho & Hg & Hsk & ?). exists o. rewrite Hs in Hsk. done. }
  destruct (contains1 sel ",") eqn:Hc.
  { eapply selection_ok_mono; [| |by apply selectFromNodeList_ok].
    - intros o. by apply list_chosen.
    - intros (n & Hn & Hne & Hsk & Ho). rewrite Hs in Hsk. exists n. split; [done|]. split; [done|]. split; [done|].
      destruct Ho as [?|(o & Ho & Hu)]; [by left|right]. exists o. split; [done|].
      by apply andb_prop in Hu as [_ ?]. }
  eapply selection_ok_mono; [| |by apply selectSingleNode_ok].
  - intros o. apply single_chosen; [done|done|]. rewrite Hb. set_solver.
  - by intros [_ ?].
Qed.

Lemma pinned_selection_ok manual serverID sel strategy sortBy best name h o :
  pinned_selection now m manual serverID sel strategy sortBy best name = Some (h, o) ->
  Name o = name /\ Enabled o = true /\ selectable_node o /\ selectorIncludesOutbound sel (Some o) = true /\
  (exists k, h = om_runtimes m ++ k) /\ counts_ok h.
Proof.
  unfold pinned_selection. destruct (_ && _ && _) eqn:E.
  - bool_prop. destruct (newDirectVirtualOutbound (om_runtimes m)) as [d h1] eqn:Ed. intros [= <- <-].
    apply newDirect_spec in Ed as (Hv & _ & Hk & Hc). pose proof Hv as (Hn & _ & Hg & He & _).
    split; [rewrite Hn; symmetry; by apply String.eqb_eq|].
    split; [done|]. split; [by left|]. split; [|auto]. cbn. by rewrite Hn, Hg.
  - destruct (om_outbounds m !! name) as [s|] eqn:Ho; [|done].
    destruct (pin_usable _ _ _ _ _ && _) eqn:Eu; [|done].
    pose proof (stored_name _ _ Ho) as Hn.
    assert (selectable_node s) as Hsel by (right; by rewrite Hn).
    rewrite Clone_stored by by apply selectable_runtime. intros [= <- <-].
    apply andb_prop in Eu as [Eu _]. unfold pin_usable in Eu. bool_prop.
    split; [done|]. split; [done|]. split; [done|]. split; [done|]. split; [|done].
    exists []. by rewrite app_nil_r.
Qed.

Lemma blocked_trim serverID :
  blockedNodesForServer getter now (trim_space serverID) = blockedNodesForServer getter now serverID.
Proof. unfold blockedNodesForServer. by rewrite trim_space_idemp. Qed.

Lemma skip_trim serverID exclude n :
  skip_for_server getter now (trim_space serverID) exclude n = skip_for_server getter now serverID exclude n.
Proof. unfold skip_for_server. by rewrite blocked_trim. Qed.

(** The selection when no pin is used. *)
Definition unpinned (lb : LoadBalancer) (serverID sel strategy sortBy : string) (exclude : list string) :=
  if has_prefix sel "@" then
    selectFromGroupForServer getter intn order now m lb serverID (trim_prefix1 sel "@") strategy sortBy exclude
  else if contains1 sel "," then
    selectFromNodeListForServer getter intn now m lb serverID sel strategy sortBy exclude
  else if blocked_in (blockedNodesForServer getter now serverID) sel
  then (om_runtimes m, lb, Err ErrNoHealthyNodes)
  else selectSingleNode m lb sel exclude.

Lemma unpinned_ok lb serverID sel strategy sortBy exclude :
  lb_wf lb ->
  selection_ok (chosen serverID sel exclude) (available serverID sel sortBy exclude)
    (unpinned lb (trim_space serverID) sel strategy (normalizeSortBy sortBy) exclude).
Proof.
  intros Hlb. unfold unpinned, available.
  assert (forall n, skip_for_server getter now (trim_space serverID) exclude n = false ->
    excluded exclude n = false /\ n ∉ blockedNodesForServer getter now serverID) as Hs
    by (intros n; rewrite skip_trim; apply skip_for_server_spec).
  destruct (has_prefix sel "@") eqn:Hp.
  { eapply selection_ok_mono; [| |by apply selectFromGroupForServer_ok].
    - intros o. by apply group_chosen.
    - intros (o & Ho & Hg & Hsk & ?). exists o. unfold group_candidate. by rewrite skip_trim. }
  destruct (contains1 sel ",") eqn:Hc.
  { eapply selection_ok_mono; [| |by apply selectFromNodeListForServer_ok].
    - intros o. apply list_chosen; [done..|]. by intros x [_ ?]%andb_prop.
    - intros (n & Hn & Hne & Hsk & Ho). exists n. rewrite skip_trim. done. }
  rewrite blocked_trim. destruct (blocked_in _ sel) eqn:Hb.
  { apply selection_ok_here; [done|]. intros [Hsk _]. unfold skip_for_server in Hsk.
    by rewrite Hb, orb_true_r in Hsk. }
  eapply selection_ok_mono; [| |by apply selectSingleNode_ok].
  - intros o. apply single_chosen; [done|done|]. by apply blocked_in_spec.
  - by intros [_ ?].
Qed.

Lemma selectForServer_ok lb serverID sel strategy sortBy exclude :
  lb_wf lb ->
  selection_ok (chosen serverID sel exclude) (available serverID sel sortBy exclude)
    (SelectOutboundWithFailoverForServer getter intn order now m lb serverID sel strategy sortBy exclude).
Proof.
  intros Hlb. unfold SelectOutboundWithFailoverForServer. cbv zeta.
  destruct (String.eqb_spec (trim_space serverID) "") as [Hid|Hid].
  { by apply SelectOutboundWithFailover_ok. }
  destruct (GetServerSelectedNode m (trim_space serverID)) as [name|]; [|by apply unpinned_ok].
  destruct (_ && _ && _) eqn:Eg; [|by apply unpinned_ok].
  destruct (pinned_selection _ _ _ _ _ _ _ _ _) as [[h o]|] eqn:Ep; [|by apply unpinned_ok].
  apply pinned_selection_ok in Ep as (Hn & He & Hs & Hsel & Hk & Hc).
  bool_prop. split; [done|]. split; [done|]. split; [done|].
  split; [done|]. rewrite Hn. split; [done|]. split; [|split; [done|by right]].
  rewrite <- blocked_trim. by apply blocked_in_spec.
Qed.
End selection_facts.

(** ** Properties of selection *)

(** The hypotheses of the selection theorems: a well-formed manager, an order that
    lists its nodes, a random source in range, and valid counters. *)
Record selection_hyps `{Unicode} (m : outboundManagerImpl) (lb : LoadBalancer) (intn : Z -> Z)
    (order : list string) : Prop := {
  sh_wf : om_wf m;
  sh_order : order ≡ₚ (map_to_list (om_outbounds m)).*1;
  sh_intn : intn_ok intn;
  sh_counts : counts_ok (om_runtimes m);
  sh_lb : lb_wf lb;
}.

Section selection_theorems.
Context `{Unicode}.
Variables (getter : option server_getter) (intn : Z -> Z) (order : list string) (now : gotime).

(** C1: whatever node is selected for a server, by whichever path, is enabled, has not
    been tried before, is not banned for that server, exists in the table (or is
    the virtual "direct" node) and belongs to the selector of the server. *)
Theorem selection_sound (m : outboundManagerImpl) (lb : LoadBalancer)
    (serverID sel strategy sortBy : string) (exclude : list string) (o : ProxyOutbound) :
  selection_hyps m lb intn order ->
  (SelectOutboundWithFailoverForServer getter intn order now m lb serverID sel strategy sortBy exclude).2 = Ret o ->
  Enabled o = true /\ Name o ∉ exclude /\ Name o ∉ blockedNodesForServer getter now serverID /\
  (virtual_direct o \/ om_outbounds m !! Name o = Some o) /\
  (selected_by sel o \/ selectorIncludesOutbound sel (Some o) = true).
Proof.
  intros [Hw Ho Hi Hc Hl] Hr.
  pose proof (selectForServer_ok getter intn order now m Hw Ho Hi Hc lb serverID sel strategy sortBy exclude Hl) as Hs.
  destruct (SelectOutboundWithFailoverForServer _ _ _ _ _ _ _ _ _ _ _) as [[h lb'] r]. cbn in Hr. subst r.
  destruct Hs as (_ & _ & _ & He & Hx & Hb & Hsel & Hin). split; [done|]. split; [|done].
  intros Hx'. assert (excluded exclude (Name o) = true) as Hx''; [|congruence].
  apply existsb_exists. exists (Name o). split; [by apply list_elem_of_In|apply String.eqb_refl].
Qed.

(** C2: a selection never panics and keeps the round-robin table valid; it fails only
    when nothing is available: while the group, the list or the name offers a
    candidate that is not excluded, banned or unhealthy, a node is returned. *)
Theorem selection_available (m : outboundManagerImpl) (lb : LoadBalancer)
    (serverID sel strategy sortBy : string) (exclude : list string) :
  selection_hyps m lb intn order ->
  let '(h, lb', r) :=
    SelectOutboundWithFailoverForServer getter intn order now m lb serverID sel strategy sortBy exclude in
  lb_wf lb' /\ r <> Panic /\
  (available getter now m serverID sel sortBy exclude -> exists o, r = Ret o).
Proof.
  intros [Hw Ho Hi Hc Hl].
  pose proof (selectForServer_ok getter intn order now m Hw Ho Hi Hc lb serverID sel strategy sortBy exclude Hl) as Hs.
  destruct (SelectOutboundWithFailoverForServer _ _ _ _ _ _ _ _ _ _ _) as [[h lb'] r].
  destruct Hs as (Hlb & _ & _ & Hr). split; [done|]. destruct r as [o|e|]; [|split; [done|naive_solver]|done].
  split; [done|]. eauto.
Qed.

(** The pin of an operator wins whatever the strategy: a node chosen by hand that is
    in the table, enabled, usable for the sort, part of the selector, healthy, and
    neither banned nor already tried, is the node returned. *)
Theorem manual_pin_honored (m : outboundManagerImpl) (lb : LoadBalancer)
    (serverID sel strategy sortBy name : string) (exclude : list string) (o : ProxyOutbound) :
  selection_hyps m lb intn order ->
  IsServerNodeManual m serverID = true -> GetServerSelectedNode m serverID = Some name ->
  name <> DirectNodeName -> om_outbounds m !! name = Some o ->
  name ∉ blockedNodesForServer getter now serverID -> name ∉ exclude ->
  pin_usable now m sel (normalizeSortBy sortBy) o = true ->
  (SelectOutboundWithFailoverForServer getter intn order now m lb serverID sel strategy sortBy exclude).2 = Ret o.
Proof.
  intros [Hw _ _ _ _] Hman Hpin Hd Ho Hb Hx Hu. unfold SelectOutboundWithFailoverForServer. cbv zeta.
  assert (trim_space serverID <> ""%string) as Hid.
  { intros E. unfold IsServerNodeManual in Hman. by rewrite E in Hman. }
  rewrite (proj2 (String.eqb_neq _ "")) by done.
  assert (GetServerSelectedNode m (trim_space serverID) = Some name) as ->
    by (by unfold GetServerSelectedNode; rewrite trim_space_idemp).
  assert (IsServerNodeManual m (trim_space serverID) = true) as ->
    by (by unfold IsServerNodeManual; rewrite trim_space_idemp).
  rewrite blocked_trim. rewrite (proj2 (blocked_in_spec _ _) Hb).
  assert (excluded exclude name = false) as ->.
  { apply not_true_is_false. intros (x & Hx' & ->%String.eqb_eq)%existsb_exists. by apply Hx, list_elem_of_In. }
  cbn [orb negb andb]. unfold pinned_selection. rewrite (proj2 (String.eqb_neq name _) Hd), Ho, Hu.
  cbn [andb]. unfold use_pinned at 1. cbn [negb andb]. rewrite Clone_stored; [done|].
  by apply (proj1 Hw) in Ho as (_ & _ & _ & ?).
Qed.

(** An automatic pin only matters to the least-latency strategy: for the others the
    selection is the one without any pin, so balancing keeps rotating. *)
Theorem automatic_pin_ignored (m : outboundManagerImpl) (lb : LoadBalancer)
    (serverID sel strategy sortBy : string) (exclude : list string) :
  IsServerNodeManual m serverID = false -> trim_space strategy <> LoadBalanceLeastLatency ->
  SelectOutboundWithFailoverForServer getter intn order now m lb serverID sel strategy sortBy exclude =
  SelectOutboundWithFailoverForServer getter intn order now (set_pins ∅ ∅ m) lb serverID sel strategy sortBy exclude.
Proof.
  intros Hman Hs. unfold SelectOutboundWithFailoverForServer. cbv zeta.
  destruct (String.eqb (trim_space serverID) "") eqn:Hid; [done|].
  assert (IsServerNodeManual m (trim_space serverID) = false) as ->
    by (by unfold IsServerNodeManual; rewrite trim_space_idemp).
  rewrite (proj2 (String.eqb_neq _ LoadBalanceLeastLatency) Hs). cbn [orb andb].
  assert (GetServerSelectedNode (set_pins ∅ ∅ m) (trim_space serverID) = None) as ->
    by (unfold GetServerSelectedNode; cbn [om_serverSelectedNode set_pins]; rewrite lookup_empty; cbv zeta; by destruct (String.eqb (trim_space (trim_space serverID)) "")).
  by destruct (GetServerSelectedNode m (trim_space serverID)).
Qed.
End selection_theorems.

Lemma normalizeSortBy_idemp `{Unicode} s : normalizeSortBy (normalizeSortBy s) = normalizeSortBy s.
Proof.
  unfold normalizeSortBy at 2 3. destruct (String.eqb _ LoadBalanceSortTCP); [done|].
  by destruct (String.eqb _ LoadBalanceSortHTTP).
Qed.

(** ** Failover *)

Section failover.
Context `{Unicode}.
Variables (getter : option server_getter) (intn : Z -> Z) (order : list string) (now : gotime).
Variable dial : list string -> string -> dial_answer.

(** Names that can be tried. *)
Definition node_names (m : outboundManagerImpl) : list string :=
  DirectNodeName :: (map_to_list (om_outbounds m)).*1.

(** Every attempt of a list was made with those before it excluded, and failed. *)
Definition all_failed (tried : list string) : Prop :=
  forall i n, tried !! i = Some n -> dial (take i tried) n = DialFailed.

Lemma all_failed_snoc tried n : all_failed tried -> dial tried n = DialFailed -> all_failed (tried ++ [n]).
Proof.
  intros Ht Hn i x. destruct (decide (i < length tried)%nat) as [Hi|Hi].
  - rewrite lookup_app_l, take_app_le by lia. apply Ht.
  - rewrite lookup_app_r by lia. destruct (i - length tried)%nat as [|j] eqn:E; [|done].
    assert (i = length tried) as -> by lia. cbn. intros [= <-]. by rewrite take_app_length.
Qed.

Definition dial_ok (m : outboundManagerImpl) (r : dial_result) : Prop :=
  match r with
  | Connected n => exists tried, all_failed tried /\ n ∉ tried /\ dial tried n = DialOk /\ n ∈ node_names m
  | Exhausted _ tried => all_failed tried /\ NoDup tried /\ tried ⊆ node_names m
  | Cancelled => True
  | Crashed => False
  end.

Lemma selection_hyps_heap m lb lb' h k :
  selection_hyps m lb intn order -> h = om_runtimes m ++ k -> counts_ok h -> lb_wf lb' ->
  selection_hyps (set_nodes (om_outbounds m) h m) lb' intn order.
Proof.
  intros [Hw Ho Hi Hc Hl] -> Hc' Hl'. split; try done. apply om_wf_set_nodes; [done|].
  intros n o Hn. eapply stored_ok_mono; [|by apply Hw]. rewrite length_app. lia.
Qed.

Lemma tried_bound m tried : NoDup tried -> tried ⊆ node_names m -> (length tried <= S (size (om_outbounds m)))%nat.
Proof.
  intros Hnd Hsub. pose proof (NoDup_submseteq tried (node_names m) Hnd Hsub) as Hs.
  apply submseteq_length in Hs. unfold node_names in Hs. cbn in Hs.
  by rewrite length_fmap, length_map_to_list in Hs.
Qed.

Lemma dial_loop_ok fuel m lb serverID sel strategy sortBy tried :
  selection_hyps m lb intn order -> NoDup tried -> tried ⊆ node_names m -> all_failed tried ->
  (size (om_outbounds m) + 2 <= fuel + length tried)%nat ->
  exists r, dialWithLoadBalancing getter intn order now fuel dial m lb serverID sel strategy sortBy tried = Some r /\
    dial_ok m r.
Proof.
  revert m lb tried. induction fuel as [|fuel IH]; intros m lb tried Hh Hnd Hsub Hf Hfuel.
  { pose proof (tried_bound m tried Hnd Hsub). lia. }
  cbn [dialWithLoadBalancing].
  pose proof (selectForServer_ok getter intn order now m (sh_wf _ _ _ _ Hh) (sh_order _ _ _ _ Hh)
    (sh_intn _ _ _ _ Hh) (sh_counts _ _ _ _ Hh) lb serverID sel strategy sortBy tried (sh_lb _ _ _ _ Hh)) as Hs.
  destruct (SelectOutboundWithFailoverForServer _ _ _ _ _ _ _ _ _ _ _) as [[h lb'] r].
  destruct Hs as (Hlb & Hc & [k Hk] & Hr). destruct r as [o|e|]; [|by eexists|done].
  destruct Hr as (_ & Hx & _ & Hsel & _).
  assert (Name o ∉ tried) as Hnew.
  { intros Hin. apply not_true_iff_false in Hx. apply Hx, existsb_exists. exists (Name o).
    split; [by apply list_elem_of_In|apply String.eqb_refl]. }
  assert (Name o ∈ node_names m) as Hname.
  { destruct Hsel as [(-> & _)|Ho]; [left|right]. apply list_elem_of_fmap. exists (Name o, o).
    split; [done|]. by apply elem_of_map_to_list. }
  destruct (dial tried (Name o)) eqn:Ed.
  - eexists. split; [done|]. by exists tried.
  - apply (IH (set_nodes (om_outbounds m) h m) lb' (tried ++ [Name o])).
    + by apply (selection_hyps_heap _ lb _ _ k).
    + apply NoDup_app. split; [done|]. split; [set_solver|]. apply NoDup_singleton.
    + change (node_names (set_nodes (om_outbounds m) h m)) with (node_names m). set_solver.
    + by apply all_failed_snoc.
    + rewrite length_app. cbn. lia.
  - by eexists.
Qed.

(** C3: the failover loop of the dialer ends: it makes at most one attempt per node of
    the table and one for "direct", never the same node twice, and ends with a
    connection, an error that lists distinct nodes that all failed, or a
    cancelled context; it never panics. *)
Theorem failover_terminates (m : outboundManagerImpl) (lb : LoadBalancer)
    (serverID sel strategy sortBy : string) :
  selection_hyps m lb intn order ->
  exists r, dialWithLoadBalancing getter intn order now (size (om_outbounds m) + 2) dial m lb
              serverID sel strategy sortBy [] = Some r /\
    match r with
    | Connected n => exists tried, all_failed tried /\ n ∉ tried /\ dial tried n = DialOk /\ n ∈ node_names m
    | Exhausted _ tried =>
        all_failed tried /\ NoDup tried /\ (length tried <= S (size (om_outbounds m)))%nat
    | Cancelled => True
    | Crashed => False
    end.
Proof.
  intros Hh.
  destruct (dial_loop_ok (size (om_outbounds m) + 2) m lb serverID sel strategy sortBy []) as (r & Hr & Hok);
    [done|constructor|set_solver|by intros i n|cbn; lia|].
  exists r. split; [done|]. destruct r; [done| |done|done].
  destruct Hok as (? & ? & ?). split; [done|]. split; [done|]. by apply tried_bound.
Qed.
End failover.

(** ** Least latency *)

Section least_latency.
Context `{Unicode}.
Variables (getter : option server_getter) (intn : Z -> Z) (order : list string) (now : gotime).

(** The cached latency of a node for a server. *)
Definition server_latency (m : outboundManagerImpl) (serverID sortBy name : string) : Z :=
  default 0 (GetServerNodeLatency now m serverID name sortBy).

(** With the least-latency strategy, a group selection for a server returns a
    candidate with the least latency measured for that server, as soon as one
    candidate was measured. *)
Theorem group_least_latency (m : outboundManagerImpl) (lb : LoadBalancer)
    (serverID group sortBy : string) (exclude : list string) (x : ProxyOutbound) :
  selection_hyps m lb intn order ->
  let candidate := group_candidate now m (skip_for_server getter now serverID exclude) sortBy group in
  candidate x -> 0 < server_latency m serverID sortBy (Name x) ->
  exists o, (selectFromGroupForServer getter intn order now m lb serverID group
               LoadBalanceLeastLatency sortBy exclude).2 = Ret o /\ candidate o /\
    0 < server_latency m serverID sortBy (Name o) /\
    forall y, candidate y -> 0 < server_latency m serverID sortBy (Name y) ->
      server_latency m serverID sortBy (Name o) <= server_latency m serverID sortBy (Name y).
Proof.
  intros [Hw Ho Hi Hc Hl] candidate Hx Hpos. unfold selectFromGroupForServer.
  pose proof (collect_group_spec order now m Hw Ho (skip_for_server getter now serverID exclude) sortBy group) as Hg.
  destruct (collect_group _ _ _ _ _ _) as [nodes|]; [|by destruct Hx as (? & ? & _); destruct (Hg x)].
  apply Hg in Hx as Hin. destruct nodes as [|a nodes]; [by apply not_elem_of_nil in Hin|]. cbv zeta.
  destruct (sorted_candidates now m Hw _ _ _ _ Hg ltac:(done)) as [Hne Hs].
  destruct (least_latency_server_spec intn now m Hi (om_runtimes m) lb serverID
    (merge_sort name_le (a :: nodes)) sortBy Hne Hl Hc) as (lb' & o & E & Hoin & _ & Hlat).
  rewrite E. unfold clone_selected. rewrite Clone_stored by by apply Hs.
  exists o. split; [done|]. split; [by apply Hs|].
  destruct Hlat as [[Hpo Hmin]|Hnone].
  - split; [done|]. intros y Hy Hpy. apply Hmin; [|done]. rewrite merge_sort_Permutation. by apply Hg.
  - specialize (Hnone x ltac:(rewrite merge_sort_Permutation; by apply Hg)). unfold server_latency in Hpos. lia.
Qed.

Lemma best_loop_spec (lat : string -> option Z) names best :
  (best = (""%string, -1) \/ 0 < best.2 /\ lat best.1 = Some best.2) ->
  let r := best_loop lat names best in
  (r = (""%string, -1) \/ 0 < r.2 /\ lat r.1 = Some r.2) /\ (r = best \/ r.1 ∈ names) /\
  (forall n l, n ∈ names -> lat n = Some l -> 0 < l -> 0 < r.2 <= l) /\
  (0 < best.2 -> 0 < r.2 <= best.2).
Proof.
  revert best. induction names as [|n names IH]; intros best Hb; cbn.
  { split; [done|]. split; [by left|]. split; [|lia]. intros n l Hn. by apply not_elem_of_nil in Hn. }
  assert (forall b, (b = best \/ b.1 = n) -> (b = (""%string, -1) \/ 0 < b.2 /\ lat b.1 = Some b.2) ->
    (forall l, lat n = Some l -> 0 < l -> 0 < b.2 <= l) -> (0 < best.2 -> 0 < b.2 <= best.2) ->
    let r := best_loop lat names b in
    (r = (""%string, -1) \/ 0 < r.2 /\ lat r.1 = Some r.2) /\ (r = best \/ r.1 ∈ n :: names) /\
    (forall n' l, n' ∈ n :: names -> lat n' = Some l -> 0 < l -> 0 < r.2 <= l) /\
    (0 < best.2 -> 0 < r.2 <= best.2)) as Hstep.
  { intros b Hor Hbb Hn Hbest. destruct (IH b Hbb) as (H1 & H2 & H3 & H4). split; [done|]. split.
    { destruct H2 as [->|?]; [destruct Hor as [->|<-]; [by left|right; left]|right; by right]. }
    split; [|intros Hp; specialize (Hbest Hp); specialize (H4 ltac:(lia)); lia].
    intros n' l [->|Hin]%elem_of_cons Hl Hp; [|by eapply H3].
    specialize (Hn l Hl Hp). specialize (H4 ltac:(lia)). lia. }
  destruct (lat n) as [l|] eqn:El; [|apply Hstep; [by left|done|done|lia]].
  destruct (Z.leb_spec l 0) as [Hl|Hl]; [apply Hstep; [by left|done|intros ? [= <-]; lia|lia]|].
  destruct ((best.2 <? 0) || (l <? best.2)) eqn:E.
  - apply Hstep; [by right|right; auto|intros ? [= <-]; cbn; lia|cbn].
    apply orb_true_iff in E. rewrite !Z.ltb_lt in E. lia.
  - bool_prop. apply Hstep; [by left|done| |lia]. intros ? [= <-] _.
    destruct Hb as [->|[? _]]; cbn in *; lia.
Qed.

(** The best node of a group for a server is a candidate that is not banned, with a
    positive cached latency, and no candidate was measured faster; when any
    candidate was measured there is a best node. *)
Theorem GetBestNodeForServer_group (m : outboundManagerImpl) (lb : LoadBalancer)
    (serverID group sortBy : string) :
  selection_hyps m lb intn order -> trim_space serverID <> ""%string ->
  let candidate := group_candidate now m (skip_for_server getter now serverID []) (normalizeSortBy sortBy) group in
  let lat name := GetServerNodeLatency now m serverID name sortBy in
  let '(name, l) := GetBestNodeForServer getter order now m serverID (String "@" group) sortBy in
  (name <> ""%string -> 0 < l /\ lat name = Some l /\ exists o, candidate o /\ Name o = name) /\
  (forall o l', candidate o -> lat (Name o) = Some l' -> 0 < l' -> 0 < l <= l' /\ name <> ""%string).
Proof.
  intros [Hw Ho Hi Hc Hl] Hid candidate lat. unfold GetBestNodeForServer. cbv zeta.
  rewrite (proj2 (String.eqb_neq (trim_space serverID) "")) by done.
  assert (String.eqb (String "@" group) "" = false) as -> by done. cbn [orb].
  assert (has_prefix (String "@" group) "@" = true) as -> by (by destruct group).
  assert (trim_prefix1 (String "@" group) "@" = group) as -> by (by destruct group).
  set (names := Name <$> _).
  assert (forall n, n ∈ names <-> exists o, candidate o /\ Name o = n) as Hn.
  { intros n. unfold names. rewrite list_elem_of_fmap. split.
    - intros (o & -> & (Hin & Hf)%list_elem_of_In%filter_In). apply list_elem_of_In in Hin. exists o.
      split; [|done]. apply (elem_of_ListOutbounds order m Hw Ho) in Hin. bool_prop.
      split; [done|]. split; [by apply String.eqb_eq|]. split; [|done].
      apply skip_for_server_spec. split; [done|]. rewrite <- blocked_trim. by apply blocked_in_spec.
    - intros (o & (Hin & Hg & Hsk & Hsort & Hsel) & <-). exists o. split; [done|].
      apply list_elem_of_In, filter_In. split.
      { by apply list_elem_of_In, (elem_of_ListOutbounds order m Hw Ho). }
      apply skip_for_server_spec in Hsk as [_ Hb]. rewrite <- blocked_trim in Hb.
      rewrite Hsel, Hsort, Hg, String.eqb_refl. apply blocked_in_spec in Hb. by rewrite Hb. }
  clearbody names.
  set (lat' := fun name => GetServerNodeLatency now m (trim_space serverID) name (normalizeSortBy sortBy)).
  assert (forall n, lat' n = lat n) as Hlat.
  { intros n. unfold lat', lat, GetServerNodeLatency. by rewrite trim_space_idemp, normalizeSortBy_idemp. }
  destruct (best_loop_spec lat' names (""%string, -1) ltac:(by left)) as (H1 & H2 & H3 & _).
  assert (forall n, lat' n <> None -> n <> ""%string) as Hne.
  { intros n Hs ->. unfold lat', GetServerNodeLatency in Hs.
    change (trim_space "") with ""%string in Hs. by rewrite String.eqb_refl, orb_true_r in Hs. }
  destruct (best_loop lat' names (""%string, -1)) as [name l]. cbn [fst snd] in *.
  destruct (String.eqb_spec name "") as [->|Hname].
  - split; [done|]. intros o l' Hcand Hl' Hp.
    destruct H1 as [[= ->]|[_ H1]]; [|by destruct (Hne ""%string); [rewrite H1|]].
    rewrite <- Hlat in Hl'. specialize (H3 (Name o) l' ltac:(apply Hn; eauto) Hl' Hp). lia.
  - destruct H1 as [[= -> ->]|[Hp1 H1]]; [done|]. rewrite Hlat in H1. split.
    + intros _. split; [done|]. split; [done|]. destruct H2 as [[= -> ->]|Hin]; [done|]. by apply Hn.
    + intros o l' Hcand Hl' Hp. rewrite <- Hlat in Hl'.
      specialize (H3 (Name o) l' ltac:(apply Hn; eauto) Hl' Hp). split; [lia|done].
Qed.
End least_latency.

(** ** Witnesses *)

#[local] Existing Instance ascii_unicode.

Definition zero_intn (n : Z) : Z := 0.

Definition three_nodes : outboundManagerImpl :=
  example_manager [example_group_node "hk" "asia"; example_group_node "jp" "asia"; example_group_node "us" "west"].

Definition three_order : list string := ["us"; "jp"; "hk"]%string.

Lemma example_hyps m order :
  om_wf m -> order ≡ₚ (map_to_list (om_outbounds m)).*1 -> counts_ok (om_runtimes m) ->
  selection_hyps m NewLoadBalancer zero_intn order.
Proof.
  intros Hw Ho Hc. split; [done..| |done|]; [by intros n Hn|by intros k i].
Qed.

Lemma three_hyps : selection_hyps three_nodes NewLoadBalancer zero_intn three_order.
Proof.
  apply example_hyps.
  - apply example_manager_wf. repeat constructor.
  - apply (bool_decide_eq_true_1 _). vm_compute. reflexivity.
  - apply (bool_decide_eq_true_1 _). vm_compute. reflexivity.
Qed.

(** A server for which "hk" is banned. *)
Definition banned_server : ServerConfig :=
  {| sc_ID := "lobby"; sc_Name := "lobby"; sc_Target := "play.example"; sc_Port := 19132;
     sc_ListenAddr := "0.0.0.0:19132"; sc_Protocol := "raknet"; sc_Enabled := true;
     sc_Hidden := false; sc_LegacyDisabled := None; sc_UDPSpeeder := None;
     sc_SendRealIP := false; sc_ResolveInterval := 0; sc_IdleTimeout := 0; sc_BufferSize := 0;
     sc_UDPSocketBufferSize := 0; sc_DisabledMessage := ""; sc_CustomMOTD := "";
     sc_ProxyMode := "raw_udp"; sc_ACLServerID := ""; sc_RawUDPKickStrategy := "";
     sc_XboxAuthEnabled := false; sc_XboxTokenPath := ""; sc_ProxyOutbound := "@asia";
     sc_ShowRealLatency := false; sc_LoadBalance := ""; sc_LoadBalanceSort := "";
     sc_ProtocolVersion := 0; sc_LatencyMode := ""; sc_AutoPingEnabled := true;
     sc_AutoPingIntervalMinutes := 0; sc_AutoPingTopCandidates := 0;
     sc_AutoPingFullScanMode := ""; sc_AutoPingFullScanTime := "";
     sc_AutoPingFullScanIntervalHours := 0;
     sc_AutoSelectBlockedNodes :=
       {["hk"%string := Some {| nb_Reason := "slow"; nb_BlockedAt := hour; nb_ExpiresAt := None |}]};
     sc_resolvedIP := ""; sc_lastResolved := 0 |}.

Definition banned_getter : option server_getter :=
  Some (fun id => if String.eqb id "lobby" then Some banned_server else None).

(** The banned node is skipped. *)
Lemma selection_sound_witness :
  let s := SelectOutboundWithFailoverForServer banned_getter zero_intn three_order hour three_nodes
             NewLoadBalancer "lobby" "@asia" "round-robin" "udp" [] in
  exists o, s.2 = Ret o /\ Name o = "jp"%string /\ Name o ∉ blockedNodesForServer banned_getter hour "lobby".
Proof.
  intros s. destruct s.2 as [o|e|] eqn:E; [|vm_compute in E; discriminate..].
  exists o. split; [done|]. split; [vm_compute in E; by injection E as <-|].
  apply (selection_sound banned_getter zero_intn three_order hour three_nodes NewLoadBalancer
    "lobby" "@asia" "round-robin" "udp" [] o three_hyps E).
Defined.

Lemma selection_available_witness :
  let s := SelectOutboundWithFailoverForServer banned_getter zero_intn three_order hour three_nodes
             NewLoadBalancer "lobby" "us" "random" "udp" [] in
  exists o, s.2 = Ret o.
Proof.
  pose proof (selection_available banned_getter zero_intn three_order hour three_nodes NewLoadBalancer
    "lobby" "us" "random" "udp" [] three_hyps) as Ha.
  intros s. fold s in Ha. destruct s as [[h lb] r]. destruct Ha as (_ & _ & Ha). apply Ha.
  destruct (om_outbounds three_nodes !! "us"%string) as [o|] eqn:E; [|vm_compute in E; discriminate].
  split; [vm_compute; reflexivity|]. exists o. split; [done|]. vm_compute in E. injection E as <-.
  split; [done|]. split; [vm_compute; reflexivity|]. split; [done|]. right. vm_compute. reflexivity.
Defined.

(** An operator pinned "jp": it is used with the round-robin strategy. *)
Lemma manual_pin_honored_witness :
  let m := SetServerSelectedNodeManual three_nodes "lobby" "jp" in
  exists o, (SelectOutboundWithFailoverForServer None zero_intn three_order hour m NewLoadBalancer
    "lobby" "@asia" "round-robin" "udp" ["hk"%string]).2 = Ret o /\ Name o = "jp"%string.
Proof.
  intros m. destruct (om_outbounds m !! "jp"%string) as [o|] eqn:E; [|vm_compute in E; discriminate].
  exists o. split; [|vm_compute in E; by injection E as <-].
  apply (manual_pin_honored None zero_intn three_order hour m NewLoadBalancer "lobby" "@asia" "round-robin"
    "udp" "jp" ["hk"%string] o).
  - destruct three_hyps. by split.
  - vm_compute. reflexivity.
  - vm_compute. reflexivity.
  - done.
  - done.
  - by apply blocked_in_spec.
  - by intros ?%list_elem_of_singleton.
  - vm_compute in E. injection E as <-. vm_compute. reflexivity.
Defined.

Lemma automatic_pin_ignored_witness :
  let m := SetServerSelectedNode three_nodes "lobby" "jp" in
  SelectOutboundWithFailoverForServer None zero_intn three_order hour m NewLoadBalancer
    "lobby" "@asia" "round-robin" "udp" [] =
  SelectOutboundWithFailoverForServer None zero_intn three_order hour (set_pins ∅ ∅ m) NewLoadBalancer
    "lobby" "@asia" "round-robin" "udp" [].
Proof. intros m. apply automatic_pin_ignored; [vm_compute; reflexivity|by vm_compute]. Defined.

(** Every dial fails: both nodes of the group are tried. *)
Lemma failover_terminates_witness :
  exists tried, dialWithLoadBalancing None zero_intn three_order hour 5 (fun _ _ => DialFailed) three_nodes
    NewLoadBalancer "lobby" "@asia" "round-robin" "udp" [] = Some (Exhausted ErrAllFailoversFailed tried) /\
  (length tried <= 4)%nat.
Proof.
  destruct (failover_terminates None zero_intn three_order hour (fun _ _ => DialFailed) three_nodes
    NewLoadBalancer "lobby" "@asia" "round-robin" "udp" three_hyps) as (r & Hr & Hok).
  change (size (om_outbounds three_nodes) + 2)%nat with 5%nat in Hr.
  change (S (size (om_outbounds three_nodes))) with 4%nat in Hok.
  assert (exists tried, r = Exhausted ErrAllFailoversFailed tried) as [tried ->].
  { vm_compute in Hr. injection Hr as <-. by eexists. }
  exists tried. split; [exact Hr|]. apply Hok.
Defined.

(** "hk" takes 60 ms for the server and "jp" 35 ms. *)
Definition measured_nodes : outboundManagerImpl :=
  SetServerNodeLatency None hour (SetServerNodeLatency None hour three_nodes "lobby" "hk" "udp" 60)
    "lobby" "jp" "udp" 35.

Lemma measured_hyps : selection_hyps measured_nodes NewLoadBalancer zero_intn three_order.
Proof. destruct three_hyps. by split. Qed.

Definition measured_hk : ProxyOutbound := with_runtime (Some 0%nat) (example_group_node "hk" "asia").

Lemma measured_hk_candidate skip :
  skip "hk"%string = false -> group_candidate hour measured_nodes skip "udp" "asia" measured_hk.
Proof.
  intros Hs. split; [vm_compute; reflexivity|]. split; [done|]. split; [done|].
  split; vm_compute; reflexivity.
Qed.

Lemma group_least_latency_witness :
  exists o, (selectFromGroupForServer None zero_intn three_order hour measured_nodes NewLoadBalancer
    "lobby" "asia" LoadBalanceLeastLatency "udp" []).2 = Ret o /\
  server_latency hour measured_nodes "lobby" "udp" (Name o) <= 60.
Proof.
  destruct (group_least_latency None zero_intn three_order hour measured_nodes NewLoadBalancer "lobby" "asia"
    "udp" [] measured_hk measured_hyps (measured_hk_candidate _ eq_refl) ltac:(vm_compute; reflexivity))
    as (o & Ho & _ & _ & Hmin).
  exists o. split; [done|].
  exact (Hmin measured_hk (measured_hk_candidate _ eq_refl) ltac:(vm_compute; reflexivity)).
Defined.

Lemma GetBestNodeForServer_group_witness :
  let best := GetBestNodeForServer None three_order hour measured_nodes "lobby" "@asia" "udp" in
  best.1 <> ""%string /\ best.2 <= 60.
Proof.
  pose proof (GetBestNodeForServer_group None zero_intn three_order hour measured_nodes NewLoadBalancer
    "lobby" "asia" "udp" measured_hyps ltac:(by vm_compute)) as Hb. intros best. fold best in Hb.
  destruct best as [name l]. destruct Hb as [_ Hb].
  destruct (Hb measured_hk 60 (measured_hk_candidate _ eq_refl) ltac:(vm_compute; reflexivity) ltac:(lia))
    as [[_ ?] ?]. done.
Defined.
