(* ===== verification/AutoPing.v ===== *)
(** * Automatic ping: [internal/proxy/proxy.go]

    The scheduler that measures the nodes of servers and proxy ports, chooses which
    of them to measure, switches the pinned node of an idle server to a faster one,
    and the worker that repeats the measurements after a change of the node list.

    A probe is an argument ([ap_probe]): what a ping, a TCP connection or an HTTP
    request through a node answers, in milliseconds, or a value that is not positive
    when it fails.  The probes of a scan run four at a time and eight over all
    scans; they write different keys of the latency table, so a scan applies them in
    the order of its targets ([sem_step] has the interleaving).  [ap_started] is the
    number of targets of a scan whose probe starts before the server is stopped.
    The calendar and the time zone are the class [Location]. *)

From Stdlib Require Import Strings.Ascii Strings.String.
From S2P Require Import Prelude GoBytes GoString Config ProxyPort Outbound LoadBalancer Latency.
From S2P Require Import OutboundManager Selection.

Definition autoPingParallelism : Z := 4.
Definition autoPingGlobalParallelism : Z := 8.
Definition defaultAutoPingTCPProbeTarget : string := "1.1.1.1:443".
Definition defaultAutoPingUDPProbeTarget : string := "mco.cubecraft.net:19132".

(** ** The calendar

    [local_day t] numbers the day of [t] in the zone of the host and [day_at d h m] is
    [time.Date] of that day at [h]:[m].  A day starts after the instants of the days
    before it. *)
Class Location := {
  local_day : gotime -> Z;
  day_at : Z -> Z -> Z -> gotime;
  day_at_later : forall t d h m, 0 <= h < 24 -> 0 <= m < 60 -> local_day t < d -> t < day_at d h m;
}.

Definition utc_day (t : gotime) : Z := t / (24 * hour).
Definition utc_at (d h m : Z) : gotime := d * (24 * hour) + h * hour + m * minute.

Lemma utc_later t d h m : 0 <= h < 24 -> 0 <= m < 60 -> utc_day t < d -> t < utc_at d h m.
Proof.
  unfold utc_day, utc_at. intros Hh Hm Hd. pose proof (Z.mul_succ_div_gt t (24 * hour)).
  unfold hour, minute, second in *. lia.
Qed.

Definition UTC : Location := {| local_day := utc_day; day_at := utc_at; day_at_later := utc_later |}.

(** ** Results and probes *)

Record autoPingRunResult := {
  ar_key : string;
  ar_didFullScan : bool;
  ar_scannedNodes : Z;
}.

Record topologyRefreshSummary := {
  ts_servers : Z;
  ts_serverNodes : Z;
  ts_serverFull : Z;
  ts_proxyPorts : Z;
  ts_proxyPortNodes : Z;
  ts_proxyPortFull : Z;
}.

Inductive probe :=
| pingServerDirect (serverID targetAddr : string)
| pingServerThroughNode (serverID nodeName targetAddr : string)
| probeTCPDirect (serverID targetAddr : string)
| probeTCPThroughNode (serverID nodeName targetAddr : string)
| probeHTTPDirect (serverID : string)
| probeHTTPThroughNode (serverID nodeName : string).

(** [probeServerThroughNode] and [probeProxyPortThroughNode]. *)
Definition probe_for (serverID nodeName targetAddr sortBy : string) : probe :=
  if String.eqb sortBy LoadBalanceSortTCP then
    if String.eqb nodeName DirectNodeName then probeTCPDirect serverID targetAddr
    else probeTCPThroughNode serverID nodeName targetAddr
  else if String.eqb sortBy LoadBalanceSortHTTP then
    if String.eqb nodeName DirectNodeName then probeHTTPDirect serverID
    else probeHTTPThroughNode serverID nodeName
  else if String.eqb nodeName DirectNodeName then pingServerDirect serverID targetAddr
  else pingServerThroughNode serverID nodeName targetAddr.

(** The arguments of [RecordServerLatency]. *)
Record latency_record := {
  lr_serverID : string;
  lr_timestampMs : Z;
  lr_latencyMs : Z;
  lr_online : bool;
  lr_stopped : bool;
  lr_source : string;
}.

(** What a round of measurements reads of the rest of the program. *)
Record ping_env := {
  ap_config : option GlobalConfig;
  ap_getter : option server_getter;
  ap_order : list string;                          (* iteration order of the nodes *)
  ap_outbounds : option (gmap string ProxyOutbound); (* proxyOutboundConfigMgr *)
  ap_sessions : list string;                       (* the server of each session *)
  ap_connections : string -> Z;                    (* active connections of a port *)
  ap_resolves : string -> bool;                    (* buildUDPDestinationAddr succeeds *)
  ap_probe : probe -> Z;
  ap_time : string -> string -> gotime;            (* when a probe of a node ended *)
  ap_started : string -> nat;
}.

(** The state of [ProxyServer] the measurements change. *)
Record ping_state := {
  ps_om : outboundManagerImpl;
  ps_bootstrapPos : gmap string Z;
  ps_serverLastRun : gmap string gotime;           (* serverAutoPingLastRun *)
}.

Definition with_om (m : outboundManagerImpl) (st : ping_state) : ping_state :=
  {| ps_om := m; ps_bootstrapPos := ps_bootstrapPos st; ps_serverLastRun := ps_serverLastRun st |}.
Definition with_pos (pos : gmap string Z) (st : ping_state) : ping_state :=
  {| ps_om := ps_om st; ps_bootstrapPos := pos; ps_serverLastRun := ps_serverLastRun st |}.

Section auto_ping.
Context `{Unicode} `{Location}.

Definition proxyPortSelectorID (portID : string) : string :=
  let portID := trim_space portID in
  if String.eqb portID "" then ""%string else ("proxy-port:" ++ portID)%string.

Definition serverAutoPingResultKey (serverID : string) : string := ("server:" ++ trim_space serverID)%string.
Definition proxyPortAutoPingResultKey (portID : string) : string := proxyPortSelectorID portID.

(** ** Settings *)

Definition effectiveServerAutoPingIntervalMinutes (gc : option GlobalConfig) (sc : ServerConfig) : Z :=
  if 0 <? sc_AutoPingIntervalMinutes sc then sc_AutoPingIntervalMinutes sc
  else GetServerAutoPingIntervalMinutesDefault gc.

Definition effectiveServerAutoPingTopCandidates (gc : option GlobalConfig) (sc : ServerConfig) : Z :=
  if 0 <? sc_AutoPingTopCandidates sc then sc_AutoPingTopCandidates sc
  else if sc_AutoPingTopCandidates sc <? 0 then 0
  else GetServerAutoPingTopCandidatesDefault gc.

Definition effectiveProxyPortAutoPingIntervalMinutes (gc : option GlobalConfig) (pc : ProxyPortConfig) : Z :=
  if 0 <? pp_AutoPingIntervalMinutes pc then pp_AutoPingIntervalMinutes pc
  else GetProxyPortAutoPingIntervalMinutesDefault gc.

Definition effectiveProxyPortAutoPingTopCandidates (gc : option GlobalConfig) (pc : ProxyPortConfig) : Z :=
  if 0 <? pp_AutoPingTopCandidates pc then pp_AutoPingTopCandidates pc
  else if pp_AutoPingTopCandidates pc <? 0 then 0
  else GetProxyPortAutoPingTopCandidatesDefault gc.

Definition autoPingHistoryMinIntervalOverrideMs (intervalMinutes : Z) : Z :=
  if intervalMinutes <=? 0 then 0 else Z.quot (i64 (intervalMinutes * minute)) millisecond.

(** Whether a run at [now] is due, given the last one. *)
Definition interval_due (minutes : Z) (last : option gotime) (now : gotime) : bool :=
  match last with
  | Some t => negb (time_sub now t <? i64 (minutes * minute))
  | None => true
  end.

(** The last run and the next one, in milliseconds, for the API. *)
Definition getServerAutoPingSchedule (gc : option GlobalConfig) (st : ping_state) (sc : ServerConfig)
    (status : string) (now : gotime) : Z * Z :=
  if negb (IsAutoPingEnabled sc) || negb (String.eqb status "running") then (0, 0) else
  let interval := i64 (effectiveServerAutoPingIntervalMinutes gc sc * minute) in
  match ps_serverLastRun st !! sc_ID sc with
  | Some lastRun =>
      if is_zero_time lastRun then (0, unix_milli now)
      else (unix_milli lastRun, unix_milli (lastRun + interval))
  | None => (0, unix_milli now)
  end.

Definition setServerAutoPingLastRun (serverID : string) (at_ : gotime) (st : ping_state) : ping_state :=
  let serverID := trim_space serverID in
  if String.eqb serverID "" then st else
  {| ps_om := ps_om st; ps_bootstrapPos := ps_bootstrapPos st;
     ps_serverLastRun := <[serverID := at_]> (ps_serverLastRun st) |}.

(** ** Scheduled full scans *)

Definition configTimeOnly (value : string) : option (Z * Z) := parse_clock (trim_space value).

(** The reason, or [None] for [false].  The last full scan is the zero time when there
    was none. *)
Definition full_scan_reason (mode time : string) (hours : Z) (now lastFullScan : gotime) : option string :=
  if String.eqb mode AutoPingFullScanModeDisabled then None
  else if String.eqb mode AutoPingFullScanModeDaily then
    match configTimeOnly time with
    | None => None
    | Some (h, m) =>
        let scheduledAt := day_at (local_day now) h m in
        if now <? scheduledAt then None
        else if negb (is_zero_time lastFullScan) && negb (lastFullScan <? scheduledAt) then None
        else Some "daily"%string
    end
  else if String.eqb mode AutoPingFullScanModeInterval then
    let interval := i64 (hours * hour) in
    if (interval <=? 0) || is_zero_time lastFullScan || (time_sub now lastFullScan <? interval) then None
    else Some "interval"%string
  else None.

Definition shouldRunScheduledFullScan (sc : ServerConfig) (now lastFullScan : gotime) : option string :=
  full_scan_reason (GetAutoPingFullScanMode sc) (GetAutoPingFullScanTime sc)
    (GetAutoPingFullScanIntervalHours sc) now lastFullScan.

Definition shouldRunScheduledFullScanForProxyPort (pc : ProxyPortConfig) (now lastFullScan : gotime)
  : option string :=
  full_scan_reason (pp_GetAutoPingFullScanMode pc) (pp_GetAutoPingFullScanTime pc)
    (pp_GetAutoPingFullScanIntervalHours pc) now lastFullScan.

(** ** The nodes of a server *)

Definition filterAutoPingNodeNames (m : outboundManagerImpl) (nodeNames : list string) : list string :=
  List.filter (fun nodeName =>
    negb (String.eqb nodeName "")
    && (String.eqb nodeName DirectNodeName
        || (negb (isMetadataLikeOutboundName nodeName)
            && match (GetOutbound m nodeName).2 with
               | Some outbound => Enabled outbound
               | None => false
               end)))
    (trim_space <$> nodeNames).

Definition not_blank (s : string) : bool := negb (String.eqb s "").

Definition getServerNodeNames (m : outboundManagerImpl) (order : list string) (sc : ServerConfig) : list string :=
  let proxyOutbound := trim_space (GetProxyOutbound sc) in
  if String.eqb proxyOutbound "" || String.eqb proxyOutbound "direct" then [] else
  filterAutoPingNodeNames m
    (if IsGroupSelection sc then Name <$> GetOutboundsByGroup m order (GetGroupName sc)
     else if IsMultiNodeSelection sc then List.filter not_blank (trim_space <$> GetNodeList sc)
     else [proxyOutbound]).

Definition getProxyPortNodeNames (m : outboundManagerImpl) (order : list string) (pc : ProxyPortConfig)
  : list string :=
  let proxyOutbound := trim_space (pp_ProxyOutbound pc) in
  if String.eqb proxyOutbound "" || String.eqb proxyOutbound "direct" then [] else
  filterAutoPingNodeNames m
    (if pp_IsGroupSelection pc then Name <$> GetOutboundsByGroup m order (pp_GetGroupName pc)
     else if pp_IsMultiNodeSelection pc then List.filter not_blank (trim_space <$> pp_GetNodeList pc)
     else [proxyOutbound]).

(** Adding a name that is not blank and not there yet. *)
Definition add_name (selected : list string) (name : string) : list string :=
  let name := trim_space name in
  if String.eqb name "" || existsb (String.eqb name) selected then selected else selected ++ [name].

Definition dedupeNodeNames (nodeNames : list string) : list string := fold_left add_name nodeNames [].

(** ** The targets of a scan *)

Definition lookupAutoPingLatency (e : ping_env) (now : gotime) (m : outboundManagerImpl)
    (selectorID nodeName sortBy : string) : option Z :=
  match GetServerNodeLatency now m selectorID nodeName sortBy with
  | Some latencyMs => Some latencyMs
  | None =>
      if String.eqb nodeName DirectNodeName then None else
      match ap_outbounds e with
      | None => None
      | Some outbounds =>
          match outbounds !! nodeName with
          | None => None
          | Some outbound =>
              let latencyMs := node_latency sortBy outbound in
              if 0 <? latencyMs then Some latencyMs else None
          end
      end
  end.

Definition rankedCandidate : Type := Z * string.

Definition ranked_le (a b : rankedCandidate) : Prop :=
  a.1 < b.1 \/ (a.1 = b.1 /\ String.leb a.2 b.2 = true).

#[export] Instance ranked_le_dec : RelDecision ranked_le := fun a b => _.

(** The nodes with a latency, without the current one. *)
Definition rank_candidates (lat : string -> option Z) (currentNode : string) (nodeNames : list string)
  : list rankedCandidate :=
  merge_sort ranked_le
    (omap (fun nodeName =>
       if String.eqb nodeName "" || String.eqb nodeName currentNode then None else
       match lat nodeName with
       | Some latencyMs => if 0 <? latencyMs then Some (latencyMs, nodeName) else None
       | None => None
       end) (trim_space <$> nodeNames)).

Fixpoint take_candidates (limit : Z) (ranked : list rankedCandidate) (selected : list string) : list string :=
  match ranked with
  | [] => selected
  | c :: rest =>
      if limit <=? zlen selected then selected else take_candidates limit rest (add_name selected c.2)
  end.

(** The next nodes of the rotation and the new table of positions. *)
Definition nextAutoPingBootstrapTargets (pos : gmap string Z) (selectorID : string) (topCandidates : Z)
    (nodeNames : list string) : gmap string Z * list string :=
  let nodeNames := dedupeNodeNames nodeNames in
  let n := zlen nodeNames in
  if n =? 0 then (pos, []) else
  let top := if topCandidates <? 1 then 1 else topCandidates in
  if n <=? top then (pos, nodeNames) else
  let start := default 0 (pos !! selectorID) in
  let start := if (start <? 0) || (n <=? start) then 0 else start in
  let selected := omap (fun i => nodeNames !! Z.to_nat ((start + Z.of_nat i) mod n)) (seq 0 (Z.to_nat top)) in
  (<[selectorID := (start + zlen selected) mod n]> pos, selected).

(** The second result of the code, a fallback to a full scan, is always [false]. *)
Definition selectAutoPingTargetsForSelector (e : ping_env) (now : gotime) (st : ping_state)
    (selectorID : string) (topCandidates : Z) (nodeNames : list string) (sortBy : string)
  : ping_state * list string * bool :=
  if zlen nodeNames <=? 1 then (st, dedupeNodeNames nodeNames, false) else
  let currentNode := default ""%string (GetServerSelectedNode (ps_om st) selectorID) in
  let nodeSet := List.filter not_blank (trim_space <$> nodeNames) in
  let has_current := existsb (String.eqb currentNode) nodeSet in
  let selected := if has_current then add_name [] currentNode else [] in
  let ranked :=
    rank_candidates (fun n => lookupAutoPingLatency e now (ps_om st) selectorID n sortBy) currentNode nodeNames in
  let top := if topCandidates <? 1 then 1 else topCandidates in
  let limit := if negb (String.eqb currentNode "") && has_current then top + 1 else top in
  match take_candidates limit ranked selected with
  | [] =>
      let '(pos, targets) := nextAutoPingBootstrapTargets (ps_bootstrapPos st) selectorID top nodeNames in
      (with_pos pos st, targets, false)
  | selected => (st, selected, false)
  end.

Definition selectAutoPingTargets (e : ping_env) (now : gotime) (st : ping_state) (sc : ServerConfig)
    (nodeNames : list string) (sortBy : string) : ping_state * list string * bool :=
  selectAutoPingTargetsForSelector e now st (sc_ID sc)
    (effectiveServerAutoPingTopCandidates (ap_config e) sc) nodeNames sortBy.

(** ** A scan *)

Definition recordAutoPingOutboundLatency (e : ping_env) (m : outboundManagerImpl) (nodeName sortBy : string)
    (latencyMs : Z) (recordedAt : gotime) (minIntervalOverrideMs : Z) : outboundManagerImpl :=
  let nodeName := trim_space nodeName in
  match ap_outbounds e with
  | None => m
  | Some outbounds =>
      if String.eqb nodeName "" || String.eqb nodeName DirectNodeName then m else
      match outbounds !! nodeName with
      | None => m
      | Some _ => setOutboundLatencyAt recordedAt m nodeName sortBy latencyMs recordedAt minIntervalOverrideMs
      end
  end.

(** The probe of one node and the two writes of its result. *)
Definition measure_node (e : ping_env) (selectorID targetAddr sortBy : string) (overrideMs : Z)
    (m : outboundManagerImpl) (nodeName : string) : outboundManagerImpl :=
  let latencyMs := ap_probe e (probe_for selectorID nodeName targetAddr sortBy) in
  let recordedAt := ap_time e selectorID nodeName in
  let m := SetServerNodeLatency (ap_getter e) recordedAt m selectorID nodeName sortBy
             (if 0 <? latencyMs then latencyMs else 0) in
  recordAutoPingOutboundLatency e m nodeName sortBy latencyMs recordedAt overrideMs.

Definition no_scan (key : string) : autoPingRunResult :=
  {| ar_key := key; ar_didFullScan := false; ar_scannedNodes := 0 |}.

(** The part of the two ping functions after their guards. *)
Definition scan_nodes (e : ping_env) (now : gotime) (st : ping_state)
    (key selectorID targetAddr sortBy : string) (topCandidates overrideMs : Z) (nodeNames : list string)
    (scheduledFullScan : bool) : ping_state * autoPingRunResult :=
  let nodeNames := dedupeNodeNames nodeNames in
  if zlen nodeNames =? 0 then (st, no_scan key) else
  let '(st, scanTargets, fallbackFullScan) :=
    if scheduledFullScan then (st, nodeNames, false)
    else selectAutoPingTargetsForSelector e now st selectorID topCandidates nodeNames sortBy in
  let fullScan := scheduledFullScan || fallbackFullScan in
  let scanTargets := if fallbackFullScan then nodeNames else scanTargets in
  if zlen scanTargets =? 0 then (st, no_scan key) else
  (with_om (fold_left (measure_node e selectorID targetAddr sortBy overrideMs)
              (take (ap_started e selectorID) scanTargets) (ps_om st)) st,
   {| ar_key := key; ar_didFullScan := fullScan; ar_scannedNodes := zlen scanTargets |}).

Definition GetActiveSessionsForServer (e : ping_env) (serverID : string) : Z :=
  zlen (List.filter (String.eqb serverID) (ap_sessions e)).

Definition pingAllNodesForServer (e : ping_env) (now : gotime) (st : ping_state) (sc : ServerConfig)
    (scheduledFullScan : bool) : ping_state * autoPingRunResult :=
  let key := serverAutoPingResultKey (sc_ID sc) in
  let proxyOutbound := trim_space (GetProxyOutbound sc) in
  if String.eqb proxyOutbound "" || String.eqb proxyOutbound "direct" then (st, no_scan key)
  else if 0 <? GetActiveSessionsForServer e (sc_ID sc) then (st, no_scan key)
  else
  let targetAddr := GetTargetAddr sc in
  if negb (ap_resolves e targetAddr) then (st, no_scan key) else
  scan_nodes e now st key (sc_ID sc) targetAddr (sc_GetLoadBalanceSort sc)
    (effectiveServerAutoPingTopCandidates (ap_config e) sc)
    (autoPingHistoryMinIntervalOverrideMs (effectiveServerAutoPingIntervalMinutes (ap_config e) sc))
    (getServerNodeNames (ps_om st) (ap_order e) sc) scheduledFullScan.

Definition pingAllNodesForProxyPort (e : ping_env) (now : gotime) (st : ping_state) (pc : ProxyPortConfig)
    (scheduledFullScan : bool) : ping_state * autoPingRunResult :=
  let key := proxyPortAutoPingResultKey (pp_ID pc) in
  if negb (pp_Enabled pc) || pp_IsDirectConnection pc then (st, no_scan key)
  else if 0 <? ap_connections e (pp_ID pc) then (st, no_scan key)
  else
  let sortBy := pp_GetLoadBalanceSort pc in
  let udp := String.eqb sortBy LoadBalanceSortUDP in
  let targetAddr := if udp then defaultAutoPingUDPProbeTarget else defaultAutoPingTCPProbeTarget in
  if udp && negb (ap_resolves e targetAddr) then (st, no_scan key) else
  scan_nodes e now st key (proxyPortSelectorID (pp_ID pc)) targetAddr sortBy
    (effectiveProxyPortAutoPingTopCandidates (ap_config e) pc)
    (autoPingHistoryMinIntervalOverrideMs (effectiveProxyPortAutoPingIntervalMinutes (ap_config e) pc))
    (getProxyPortNodeNames (ps_om st) (ap_order e) pc) scheduledFullScan.

(** ** Switching the pinned node of an idle server *)

(** The maps of the caller: when a node was last seen to change, and which one was
    seen. *)
Record switch_state := {
  ss_lastSwitch : gmap string gotime;
  ss_observed : gmap string string;
}.

Definition observe (id currentNode : string) (now : gotime) (ss : switch_state) : switch_state :=
  if String.eqb (default ""%string (ss_observed ss !! id)) currentNode then ss else
  {| ss_observed := <[id := currentNode]> (ss_observed ss);
     ss_lastSwitch := if String.eqb currentNode "" then delete id (ss_lastSwitch ss)
                      else <[id := now]> (ss_lastSwitch ss) |}.

(** The common body of the two functions: [id] indexes the maps and [selectorID] the
    tables of the outbound manager. *)
Definition maybeAutoSwitchNode (e : ping_env) (id selectorID loadBalance proxyOutbound sortBy : string)
    (active : Z) (now : gotime) (m : outboundManagerImpl) (ss : switch_state)
  : outboundManagerImpl * switch_state :=
  if negb (String.eqb loadBalance LoadBalanceLeastLatency) then (m, ss) else
  let '(bestNode, bestLatency) :=
    GetBestNodeForServer (ap_getter e) (ap_order e) now m selectorID (trim_space proxyOutbound) sortBy in
  if String.eqb bestNode "" then (m, ss) else
  let currentNode := default ""%string (GetServerSelectedNode m selectorID) in
  let ss := observe id currentNode now ss in
  if String.eqb currentNode bestNode then (m, ss)
  else if negb (active =? 0) then (m, ss)
  else
  match shouldAutoSwitchNode currentNode (GetServerNodeLatency now m selectorID currentNode sortBy) bestLatency
          (default 0 (ss_lastSwitch ss !! id)) now with
  | Switch =>
      (SetServerSelectedNode m selectorID bestNode,
       {| ss_observed := <[id := bestNode]> (ss_observed ss); ss_lastSwitch := <[id := now]> (ss_lastSwitch ss) |})
  | _ => (m, ss)
  end.

Definition maybeAutoSwitchServerNode (e : ping_env) (sc : ServerConfig) (now : gotime)
    (m : outboundManagerImpl) (ss : switch_state) : outboundManagerImpl * switch_state :=
  maybeAutoSwitchNode e (sc_ID sc) (sc_ID sc) (sc_GetLoadBalance sc) (GetProxyOutbound sc)
    (sc_GetLoadBalanceSort sc) (GetActiveSessionsForServer e (sc_ID sc)) now m ss.

Definition maybeAutoSwitchProxyPortNode (e : ping_env) (pc : ProxyPortConfig) (now : gotime)
    (m : outboundManagerImpl) (ss : switch_state) : outboundManagerImpl * switch_state :=
  maybeAutoSwitchNode e (pp_ID pc) (proxyPortSelectorID (pp_ID pc)) (pp_GetLoadBalance pc)
    (pp_ProxyOutbound pc) (pp_GetLoadBalanceSort pc) (ap_connections e (pp_ID pc)) now m ss.

(** ** Recording the latency of a server *)

Fixpoint least_node_latency (lat : string -> option Z) (nodes : list string) (best : option Z) : option Z :=
  match nodes with
  | [] => best
  | n :: nodes =>
      least_node_latency lat nodes
        (match lat n with
         | Some value =>
             match best with
             | Some b => if value <? b then Some value else best
             | None => Some value
             end
         | None => best
         end)
  end.

Definition recordServerLatencyFromAutoPing (e : ping_env) (m : outboundManagerImpl) (sc : ServerConfig)
    (recordedAt : gotime) : latency_record :=
  let sortBy := sc_GetLoadBalanceSort sc in
  let lat n := GetServerNodeLatency recordedAt m (sc_ID sc) n sortBy in
  let selectedNode := trim_space (default ""%string (GetServerSelectedNode m (sc_ID sc))) in
  let selected := if String.eqb selectedNode "" then None else lat selectedNode in
  let value :=
    match selected with
    | Some v => Some v
    | None => least_node_latency lat (dedupeNodeNames (getServerNodeNames m (ap_order e) sc)) None
    end in
  {| lr_serverID := sc_ID sc; lr_timestampMs := unix_milli recordedAt; lr_latencyMs := default 0 value;
     lr_online := bool_decide (is_Some value); lr_stopped := false; lr_source := "auto_ping" |}.

(** [cached] is the latency the listener of the server has seen, if any. *)
Definition recordServerLatencyPassive (cached : string -> option Z) (sc : ServerConfig) (recordedAt : gotime)
  : option latency_record :=
  match cached (sc_ID sc) with
  | Some latencyMs =>
      if latencyMs <=? 0 then None
      else Some {| lr_serverID := sc_ID sc; lr_timestampMs := unix_milli recordedAt; lr_latencyMs := latencyMs;
                   lr_online := true; lr_stopped := false; lr_source := "passive" |}
  | None => None
  end.

(** ** A tick of the scheduler *)

Record scheduler := {
  sd_serverLastRun : gmap string gotime;
  sd_serverLastFullScan : gmap string gotime;
  sd_serverSwitch : switch_state;
  sd_portLastRun : gmap string gotime;
  sd_portLastFullScan : gmap string gotime;
  sd_portSwitch : switch_state;
  sd_passiveLastRun : gmap string gotime;
}.

Definition new_switch_state : switch_state := {| ss_lastSwitch := ∅; ss_observed := ∅ |}.

Definition new_scheduler : scheduler :=
  {| sd_serverLastRun := ∅; sd_serverLastFullScan := ∅; sd_serverSwitch := new_switch_state;
     sd_portLastRun := ∅; sd_portLastFullScan := ∅; sd_portSwitch := new_switch_state;
     sd_passiveLastRun := ∅ |}.

(** A tick: its clock, the configured servers and ports, the latencies the listeners
    have cached, what the measurements read and the clock when they are done. *)
Record tick := {
  tk_now : gotime;
  tk_servers : list ServerConfig;
  tk_ports : list ProxyPortConfig;
  tk_cached : string -> option Z;
  tk_env : ping_env;
  tk_completedAt : gotime;
}.

Definition dueServers (gc : option GlobalConfig) (now : gotime) (lastRun : gmap string gotime)
    (servers : list ServerConfig) : list ServerConfig :=
  List.filter (fun sc =>
    IsAutoPingEnabled sc
    && interval_due (effectiveServerAutoPingIntervalMinutes gc sc) (lastRun !! sc_ID sc) now) servers.

Definition port_eligible (pc : ProxyPortConfig) : bool :=
  pp_Enabled pc && pp_AutoPingEnabled pc && negb (pp_IsDirectConnection pc).

Definition duePorts (gc : option GlobalConfig) (now : gotime) (lastRun : gmap string gotime)
    (ports : list ProxyPortConfig) : list ProxyPortConfig :=
  List.filter (fun pc =>
    port_eligible pc
    && interval_due (effectiveProxyPortAutoPingIntervalMinutes gc pc) (lastRun !! pp_ID pc) now) ports.

(** The passive pass: the records and the new times. *)
Definition passive_step (t : tick) (acc : gmap string gotime * list latency_record) (sc : ServerConfig)
  : gmap string gotime * list latency_record :=
  let '(lastRun, records) := acc in
  if IsAutoPingEnabled sc then acc
  else if interval_due (effectiveServerAutoPingIntervalMinutes (ap_config (tk_env t)) sc)
            (lastRun !! sc_ID sc) (tk_now t)
  then (<[sc_ID sc := tk_now t]> lastRun,
        records ++ option_list (recordServerLatencyPassive (tk_cached t) sc (tk_now t)))
  else acc.

Definition passive_pass (t : tick) (lastRun : gmap string gotime) : gmap string gotime * list latency_record :=
  fold_left (passive_step t) (tk_servers t) (lastRun, []).

Definition ping_due_server (t : tick) (fullScans : gmap string gotime)
    (acc : ping_state * list autoPingRunResult) (sc : ServerConfig) : ping_state * list autoPingRunResult :=
  let due := bool_decide (is_Some
    (shouldRunScheduledFullScan sc (tk_now t) (default 0 (fullScans !! sc_ID sc)))) in
  let '(st, result) := pingAllNodesForServer (tk_env t) (tk_now t) acc.1 sc due in
  (st, acc.2 ++ [result]).

Definition ping_due_port (t : tick) (fullScans : gmap string gotime)
    (acc : ping_state * list autoPingRunResult) (pc : ProxyPortConfig) : ping_state * list autoPingRunResult :=
  let due := bool_decide (is_Some
    (shouldRunScheduledFullScanForProxyPort pc (tk_now t) (default 0 (fullScans !! pp_ID pc)))) in
  let '(st, result) := pingAllNodesForProxyPort (tk_env t) (tk_now t) acc.1 pc due in
  (st, acc.2 ++ [result]).

Definition trim_prefix (s p : string) : string :=
  if has_prefix s p then str_from s (String.length p) else s.

(** The bookkeeping of one result: the two tables of full scans. *)
Definition note_result (completedAt : gotime) (acc : gmap string gotime * gmap string gotime)
    (result : autoPingRunResult) : gmap string gotime * gmap string gotime :=
  let '(servers, ports) := acc in
  let key := ar_key result in
  if String.eqb key "" || negb (ar_didFullScan result) then acc
  else if has_prefix key "server:" then (<[trim_prefix key "server:" := completedAt]> servers, ports)
  else if has_prefix key "proxy-port:" then (servers, <[trim_prefix key "proxy-port:" := completedAt]> ports)
  else acc.

Definition finish_server (e : ping_env) (completedAt : gotime)
    (acc : ping_state * switch_state * list latency_record) (sc : ServerConfig)
  : ping_state * switch_state * list latency_record :=
  let '(st, ss, records) := acc in
  let st := setServerAutoPingLastRun (sc_ID sc) completedAt st in
  let '(m, ss) := maybeAutoSwitchServerNode e sc completedAt (ps_om st) ss in
  (with_om m st, ss, records ++ [recordServerLatencyFromAutoPing e m sc completedAt]).

Definition finish_port (e : ping_env) (completedAt : gotime) (acc : ping_state * switch_state)
    (pc : ProxyPortConfig) : ping_state * switch_state :=
  let '(st, ss) := acc in
  let '(m, ss) := maybeAutoSwitchProxyPortNode e pc completedAt (ps_om st) ss in
  (with_om m st, ss).

Definition set_all {A} (key : A -> string) (at_ : gotime) (l : list A) (m : gmap string gotime) : gmap string gotime :=
  fold_left (fun m x => <[key x := at_]> m) l m.

(** The state after a tick, the results of its scans and the recorded latencies. *)
Definition auto_ping_tick (sd : scheduler) (st : ping_state) (t : tick)
  : scheduler * ping_state * list autoPingRunResult * list latency_record :=
  let e := tk_env t in
  let servers := dueServers (ap_config e) (tk_now t) (sd_serverLastRun sd) (tk_servers t) in
  let '(passiveLastRun, passive) := passive_pass t (sd_passiveLastRun sd) in
  let ports := duePorts (ap_config e) (tk_now t) (sd_portLastRun sd) (tk_ports t) in
  if (zlen servers =? 0) && (zlen ports =? 0) then
    ({| sd_serverLastRun := sd_serverLastRun sd; sd_serverLastFullScan := sd_serverLastFullScan sd;
        sd_serverSwitch := sd_serverSwitch sd; sd_portLastRun := sd_portLastRun sd;
        sd_portLastFullScan := sd_portLastFullScan sd; sd_portSwitch := sd_portSwitch sd;
        sd_passiveLastRun := passiveLastRun |}, st, [], passive)
  else
  let acc := fold_left (ping_due_server t (sd_serverLastFullScan sd)) servers (st, []) in
  let '(st, results) := fold_left (ping_due_port t (sd_portLastFullScan sd)) ports acc in
  let completedAt := tk_completedAt t in
  let '(serverScans, portScans) :=
    fold_left (note_result completedAt) results (sd_serverLastFullScan sd, sd_portLastFullScan sd) in
  let '(st, serverSwitch, records) := fold_left (finish_server e completedAt) servers (st, sd_serverSwitch sd, []) in
  let '(st, portSwitch) := fold_left (finish_port e completedAt) ports (st, sd_portSwitch sd) in
  ({| sd_serverLastRun := set_all sc_ID completedAt servers (sd_serverLastRun sd);
      sd_serverLastFullScan := serverScans; sd_serverSwitch := serverSwitch;
      sd_portLastRun := set_all pp_ID completedAt ports (sd_portLastRun sd);
      sd_portLastFullScan := portScans; sd_portSwitch := portSwitch;
      sd_passiveLastRun := passiveLastRun |}, st, results, passive ++ records).

(** ** A refresh after a change of the nodes *)

Definition summarize (s : topologyRefreshSummary) (result : autoPingRunResult) : topologyRefreshSummary :=
  let full := if ar_didFullScan result then 1 else 0 in
  if has_prefix (ar_key result) "server:" then
    {| ts_servers := ts_servers s; ts_serverNodes := ts_serverNodes s + ar_scannedNodes result;
       ts_serverFull := ts_serverFull s + full; ts_proxyPorts := ts_proxyPorts s;
       ts_proxyPortNodes := ts_proxyPortNodes s; ts_proxyPortFull := ts_proxyPortFull s |}
  else if has_prefix (ar_key result) "proxy-port:" then
    {| ts_servers := ts_servers s; ts_serverNodes := ts_serverNodes s;
       ts_serverFull := ts_serverFull s; ts_proxyPorts := ts_proxyPorts s;
       ts_proxyPortNodes := ts_proxyPortNodes s + ar_scannedNodes result;
       ts_proxyPortFull := ts_proxyPortFull s + full |}
  else s.

Definition ping_server (e : ping_env) (now : gotime) (full : bool)
    (acc : ping_state * list autoPingRunResult) (sc : ServerConfig) : ping_state * list autoPingRunResult :=
  let '(st, result) := pingAllNodesForServer e now acc.1 sc full in (st, acc.2 ++ [result]).

Definition ping_port (e : ping_env) (now : gotime) (full : bool)
    (acc : ping_state * list autoPingRunResult) (pc : ProxyPortConfig) : ping_state * list autoPingRunResult :=
  let '(st, result) := pingAllNodesForProxyPort e now acc.1 pc full in (st, acc.2 ++ [result]).

(** The clock is read while the measurements run; the maps of observed nodes are new. *)
Definition runAutoLatencyRefresh (forceFullScan : bool) (st : ping_state) (t : tick)
  : ping_state * topologyRefreshSummary * list latency_record :=
  let e := tk_env t in
  let now := tk_now t in
  let servers := List.filter IsAutoPingEnabled (tk_servers t) in
  let ports := List.filter port_eligible (tk_ports t) in
  let acc := fold_left (ping_server e now forceFullScan) servers (st, []) in
  let '(st, results) := fold_left (ping_port e now forceFullScan) ports acc in
  let summary := fold_left summarize results
    {| ts_servers := zlen servers; ts_serverNodes := 0; ts_serverFull := 0;
       ts_proxyPorts := zlen ports; ts_proxyPortNodes := 0; ts_proxyPortFull := 0 |} in
  let '(st, _, records) := fold_left (finish_server e now) servers (st, new_switch_state, []) in
  let '(st, _) := fold_left (finish_port e now) ports (st, new_switch_state) in
  (st, summary, records).
End auto_ping.

(** * Facts *)

Section name_facts.
Context `{Unicode} `{Location}.


Lemma existsb_eqb_false n l : existsb (String.eqb n) l = false <-> n ∉ l.
Proof. rewrite <- not_true_iff_false. by rewrite existsb_eqb. Qed.

(** A list of different trimmed names, none blank. *)
Definition clean_names (l : list string) : Prop := NoDup l /\ Forall piece l.

Lemma add_name_spec l n :
  clean_names l -> clean_names (add_name l n) /\
  forall x, x ∈ add_name l n <-> x ∈ l \/ (x = trim_space n /\ x <> ""%string).
Proof.
  intros [Hd Hp]. unfold add_name. destruct (String.eqb_spec (trim_space n) "") as [E|Hne]; cbn [orb].
  - split; [done|]. intros x. rewrite E. naive_solver.
  - destruct (existsb _ _) eqn:Ex.
    + rewrite existsb_eqb in Ex. split; [done|]. intros x. naive_solver.
    + rewrite existsb_eqb_false in Ex. split; [split|].
      * apply NoDup_app. split; [done|]. split; [|apply NoDup_singleton].
        intros x Hx ->%list_elem_of_singleton. done.
      * apply Forall_app. split; [done|]. constructor; [|done]. split; [apply trim_space_trimmed|done].
      * intros x. rewrite elem_of_app, list_elem_of_singleton. naive_solver.
Qed.

Lemma add_names_spec l acc :
  clean_names acc -> clean_names (fold_left add_name l acc) /\
  forall x, x ∈ fold_left add_name l acc <-> x ∈ acc \/ (x ∈ trim_space <$> l /\ x <> ""%string).
Proof.
  revert acc. induction l as [|n l IH]; intros acc Hacc; cbn [fold_left].
  - split; [done|]. intros x. rewrite fmap_nil, elem_of_nil. naive_solver.
  - destruct (add_name_spec acc n Hacc) as [Hc Hx]. destruct (IH _ Hc) as [Hc' Hx']. split; [done|].
    intros x. rewrite Hx', Hx, fmap_cons, elem_of_cons. naive_solver.
Qed.

Lemma clean_nil : clean_names [].
Proof. split; constructor. Qed.

Lemma dedupe_clean l : clean_names (dedupeNodeNames l).
Proof. by apply add_names_spec, clean_nil. Qed.

Lemma elem_of_dedupe x l : x ∈ dedupeNodeNames l <-> x ∈ trim_space <$> l /\ x <> ""%string.
Proof.
  unfold dedupeNodeNames. destruct (add_names_spec l [] clean_nil) as [_ ->]. rewrite elem_of_nil. naive_solver.
Qed.

Lemma add_name_snoc l n : piece n -> n ∉ l -> add_name l n = l ++ [n].
Proof.
  intros [Ht Hn] Hl. unfold add_name. rewrite Ht. rewrite (proj2 (String.eqb_neq _ _)) by done.
  by rewrite (proj2 (existsb_eqb_false n l)).
Qed.

Lemma dedupe_id l : clean_names l -> dedupeNodeNames l = l.
Proof.
  intros [Hd Hp]. unfold dedupeNodeNames. change l with ([] ++ l) at 2.
  assert (forall x, x ∈ l -> x ∉ @nil string) as Hn by (intros ? _; apply not_elem_of_nil).
  revert Hn. generalize (@nil string). induction l as [|n l IH]; intros acc Hn; cbn [fold_left]; [by rewrite app_nil_r|].
  apply NoDup_cons in Hd as [Hnl Hd]. apply Forall_cons in Hp as [Hpn Hp].
  rewrite add_name_snoc by (done || apply Hn; left). rewrite IH; [by rewrite <- app_assoc|done|done|].
  intros x Hx. rewrite elem_of_app, list_elem_of_singleton. intros [Hxa| ->]; [|done].
  by apply (Hn x); [right|].
Qed.

Lemma trim_clean l : Forall piece l -> trim_space <$> l = l.
Proof. induction 1 as [|x l [Hx _] _ IH]; [done|]. rewrite fmap_cons, IH. by rewrite Hx. Qed.

(** ** Ranking *)

#[export] Instance ranked_le_total : Total ranked_le.
Proof.
  intros [a x] [b y]. unfold ranked_le. cbn [fst snd].
  destruct (Z.lt_total a b) as [?|[->|?]]; [by left; left| |by right; left].
  destruct (String.leb_total x y) as [Hl|Hl]; [left|right]; by right.
Qed.

(** The ranked candidates, in any order the sort gives to equal ones: every entry is a
    candidate with its latency, and the latencies grow. *)
Definition rank_entry (lat : string -> option Z) (currentNode : string) (n : string) : option rankedCandidate :=
  if String.eqb n "" || String.eqb n currentNode then None else
  match lat n with
  | Some l => if 0 <? l then Some (l, n) else None
  | None => None
  end.

Lemma rank_entry_Some lat cur n c :
  rank_entry lat cur n = Some c <-> c = (c.1, n) /\ n <> ""%string /\ n <> cur /\ lat n = Some c.1 /\ 0 < c.1.
Proof.
  unfold rank_entry. destruct (String.eqb_spec n ""); [naive_solver|].
  destruct (String.eqb_spec n cur); [naive_solver|]. cbn [orb].
  destruct (lat n) as [l|]; [|naive_solver]. destruct (Z.ltb_spec 0 l).
  - split; [intros [= <-]; naive_solver|]. intros (-> & _ & _ & [= ->] & _). done.
  - split; [done|]. intros (_ & _ & _ & [= ->] & ?). lia.
Qed.

Lemma rank_spec lat cur l :
  Forall piece l ->
  rank_candidates lat cur l ≡ₚ omap (rank_entry lat cur) l /\
  StronglySorted (fun a b => a.1 <= b.1) (rank_candidates lat cur l).
Proof.
  intros Hp. unfold rank_candidates. rewrite trim_clean by done. split; [apply merge_sort_Permutation|].
  apply Sorted_StronglySorted; [intros x y z; lia|].
  eapply Sorted_weaken; [|apply (Sorted_merge_sort ranked_le)].
  intros a b [?|[-> _]]; lia.
Qed.

Lemma omap_rank_names lat cur l :
  NoDup l -> NoDup (snd <$> omap (rank_entry lat cur) l) /\
  forall n, n ∈ snd <$> omap (rank_entry lat cur) l <->
    n ∈ l /\ n <> ""%string /\ n <> cur /\ exists v, lat n = Some v /\ 0 < v.
Proof.
  induction l as [|x l IH]; intros Hd.
  - split; [constructor|]. intros n. split; [by intros ?%elem_of_nil|by intros [?%elem_of_nil _]].
  - apply NoDup_cons in Hd as [Hx Hd]. destruct (IH Hd) as [Hn Hin].
    cbn [omap list_omap]. destruct (rank_entry lat cur x) as [c|] eqn:E.
    + apply rank_entry_Some in E as (Hc & He). rewrite fmap_cons, Hc. cbn [snd]. split.
      * constructor; [|done]. rewrite Hin. tauto.
      * intros n. rewrite !elem_of_cons, Hin. split; [|naive_solver].
        intros [->|?]; [|naive_solver]. naive_solver.
    + split; [done|]. intros n. rewrite Hin, elem_of_cons. split; [naive_solver|].
      intros ([->|?] & ? & ? & v & Hv & Hv0); [|naive_solver].
      exfalso. assert (rank_entry lat cur x = Some (v, x)) as E' by (apply rank_entry_Some; naive_solver).
      congruence.
Qed.

Lemma take_candidates_spec limit ranked sel :
  NoDup (sel ++ (snd <$> ranked)) -> Forall piece (snd <$> ranked) ->
  take_candidates limit ranked sel = sel ++ take (Z.to_nat (limit - zlen sel)) (snd <$> ranked).
Proof.
  revert sel. induction ranked as [|c r IH]; intros sel Hd Hp; cbn [take_candidates].
  - by rewrite fmap_nil, take_nil, app_nil_r.
  - rewrite fmap_cons in Hd, Hp |- *. apply Forall_cons in Hp as [Hc Hp].
    destruct (Z.leb_spec limit (zlen sel)).
    + replace (Z.to_nat (limit - zlen sel)) with 0%nat by lia. by rewrite take_0, app_nil_r.
    + assert (c.2 ∉ sel) as Hns.
      { apply NoDup_app in Hd as (_ & Hd & _). intros Hin. apply (Hd _ Hin). by left. }
      rewrite add_name_snoc by done. rewrite IH; [|by rewrite <- app_assoc|done].
      rewrite zlen_app, zlen_cons, zlen_nil.
      replace (Z.to_nat (limit - zlen sel)) with (S (Z.to_nat (limit - (zlen sel + (1 + 0))))) by lia.
      by rewrite <- app_assoc.
Qed.
End name_facts.

(** ** The rotation over unmeasured nodes *)

Section rotation.
Context `{Unicode} `{Location}.

(** [k] successive rounds for one selector. *)
Fixpoint bootstrap_rounds (k : nat) (pos : gmap string Z) (selectorID : string) (top : Z)
    (nodeNames : list string) : list (list string) :=
  match k with
  | O => []
  | S k =>
      let '(pos, targets) := nextAutoPingBootstrapTargets pos selectorID top nodeNames in
      targets :: bootstrap_rounds k pos selectorID top nodeNames
  end.

(** The nodes from [start] on, wrapping around. *)
Definition window (l : list string) (start : Z) (count : nat) : list string :=
  omap (fun i => l !! Z.to_nat ((start + Z.of_nat i) mod zlen l)) (seq 0 count).

Lemma window_lookup (l : list string) start i : 0 < zlen l ->
  exists x, l !! Z.to_nat ((start + Z.of_nat i) mod zlen l) = Some x.
Proof.
  intros Hl. apply lookup_lt_is_Some_2. pose proof (Z.mod_pos_bound (start + Z.of_nat i) (zlen l) Hl).
  unfold zlen in *. lia.
Qed.

Lemma length_window l start count : 0 < zlen l -> List.length (window l start count) = count.
Proof.
  intros Hl. unfold window. rewrite <- (length_seq count 0) at 2. induction (seq 0 count) as [|i s IH]; [done|].
  cbn [omap list_omap]. destruct (window_lookup l start i Hl) as [x ->]. cbn [List.length]. by rewrite IH.
Qed.

Lemma elem_of_window l start count x :
  x ∈ window l start count <-> exists i, (i < count)%nat /\ l !! Z.to_nat ((start + Z.of_nat i) mod zlen l) = Some x.
Proof.
  unfold window. rewrite list_elem_of_omap. split.
  - intros (i & Hi%elem_of_seq & Hx). exists i. split; [lia|done].
  - intros (i & Hi & Hx). exists i. split; [apply elem_of_seq; lia|done].
Qed.

Lemma omap_NoDup {A B} (f : A -> option B) (l : list A) :
  NoDup l -> (forall a b x, a ∈ l -> b ∈ l -> f a = Some x -> f b = Some x -> a = b) -> NoDup (omap f l).
Proof.
  induction 1 as [|a l Ha Hd IH]; intros Hf; [constructor|]. cbn [omap list_omap].
  assert (NoDup (omap f l)) as Hn
    by (apply IH; intros b c x Hb Hc; by apply Hf; right).
  destruct (f a) as [x|] eqn:E; [|done]. constructor; [|done].
  intros (b & Hb & Hbx)%list_elem_of_omap. destruct Ha.
  rewrite (Hf a b x); [done|left|by right|done|done].
Qed.

Lemma window_NoDup l start count : NoDup l -> Z.of_nat count <= zlen l -> NoDup (window l start count).
Proof.
  intros Hd Hc. apply omap_NoDup; [apply NoDup_seq|].
  intros i j x Hi%elem_of_seq Hj%elem_of_seq Hix Hjx.
  pose proof (NoDup_lookup l _ _ x Hd Hix Hjx) as E.
  assert (0 < zlen l) as Hl by lia.
  pose proof (Z.mod_pos_bound (start + Z.of_nat i) (zlen l) Hl).
  pose proof (Z.mod_pos_bound (start + Z.of_nat j) (zlen l) Hl).
  apply Z2Nat.inj in E; [|lia..].
  assert (Z.of_nat i = Z.of_nat j); [|lia].
  pose proof (Z.div_mod (start + Z.of_nat i) (zlen l)) as Ei.
  pose proof (Z.div_mod (start + Z.of_nat j) (zlen l)) as Ej. rewrite E in Ei.
  assert (Z.of_nat i - Z.of_nat j =
    zlen l * ((start + Z.of_nat i) / zlen l - (start + Z.of_nat j) / zlen l)) as Ed by lia.
  set (q := (start + Z.of_nat i) / zlen l - (start + Z.of_nat j) / zlen l) in *.
  assert (q = 0) by nia. nia.
Qed.

Definition rotation_start (pos : gmap string Z) (selectorID : string) (n : Z) : Z :=
  let start := default 0 (pos !! selectorID) in if (start <? 0) || (n <=? start) then 0 else start.

(** One round of more nodes than candidates. *)
Lemma bootstrap_round pos selectorID top names :
  let nodes := dedupeNodeNames names in
  let t := if top <? 1 then 1 else top in
  t < zlen nodes ->
  nextAutoPingBootstrapTargets pos selectorID top names
    = (<[selectorID := (rotation_start pos selectorID (zlen nodes) + t) mod zlen nodes]> pos,
       window nodes (rotation_start pos selectorID (zlen nodes)) (Z.to_nat t)).
Proof.
  intros nodes t Ht. assert (1 <= t) as H1 by (unfold t; bool_cases; lia).
  unfold nextAutoPingBootstrapTargets. fold nodes. fold t.
  rewrite (proj2 (Z.eqb_neq (zlen nodes) 0)), (proj2 (Z.leb_gt (zlen nodes) t)) by lia.
  fold (rotation_start pos selectorID (zlen nodes)).
  change (omap _ (seq 0 (Z.to_nat t))) with (window nodes (rotation_start pos selectorID (zlen nodes)) (Z.to_nat t)).
  assert (zlen (window nodes (rotation_start pos selectorID (zlen nodes)) (Z.to_nat t)) = t) as ->; [|done].
  unfold zlen at 1. rewrite length_window by lia. lia.
Qed.

Lemma rotation_start_insert pos selectorID z n : 0 < n ->
  rotation_start (<[selectorID := z mod n]> pos) selectorID n = z mod n.
Proof.
  intros Hn. unfold rotation_start. rewrite lookup_insert_eq. cbn [default].
  pose proof (Z.mod_pos_bound z n Hn). unfold id.
  rewrite (proj2 (Z.ltb_ge _ _)), (proj2 (Z.leb_gt _ _)) by lia. done.
Qed.

Lemma rounds_cover k pos selectorID top names x :
  let nodes := dedupeNodeNames names in
  let t := if top <? 1 then 1 else top in
  t < zlen nodes ->
  (exists j, 0 <= j < Z.of_nat k * t /\
     nodes !! Z.to_nat ((rotation_start pos selectorID (zlen nodes) + j) mod zlen nodes) = Some x) ->
  exists round, round ∈ bootstrap_rounds k pos selectorID top names /\ x ∈ round.
Proof.
  intros nodes t Ht. assert (1 <= t) as H1 by (unfold t; bool_cases; lia).
  revert pos. induction k as [|k IH]; intros pos (j & Hj & Hx); [lia|].
  cbn [bootstrap_rounds]. rewrite bootstrap_round by done. fold nodes. fold t.
  set (s := rotation_start pos selectorID (zlen nodes)) in *.
  destruct (Z.lt_ge_cases j t) as [Hjt|Hjt].
  - eexists. split; [by left|]. apply elem_of_window. exists (Z.to_nat j). rewrite Z2Nat.id by lia.
    split; [lia|done].
  - destruct (IH (<[selectorID := (s + t) mod zlen nodes]> pos)) as (r & Hr & Hxr).
    + exists (j - t). split; [lia|]. rewrite rotation_start_insert by lia.
      rewrite Zplus_mod_idemp_l. by replace (s + t + (j - t)) with (s + j) by lia.
    + exists r. split; [by right|done].
Qed.

(** The targets of one round. *)
Lemma bootstrap_targets pos selectorID top names :
  let nodes := dedupeNodeNames names in
  let r := (nextAutoPingBootstrapTargets pos selectorID top names).2 in
  NoDup r /\ r ⊆ nodes /\ zlen r = Z.min (Z.max 1 top) (zlen nodes).
Proof.
  intros nodes r. destruct (dedupe_clean names) as [Hd _]. fold nodes in Hd.
  assert (Z.max 1 top = if top <? 1 then 1 else top) as Et by (bool_cases; lia).
  pose proof (zlen_nonneg nodes) as Hlen. rewrite Et. unfold r.
  destruct (Z.lt_ge_cases (if top <? 1 then 1 else top) (zlen nodes)) as [Hlt|Hge].
  - rewrite bootstrap_round by done. fold nodes. cbn [snd]. split; [|split].
    + apply window_NoDup; [done|]. lia.
    + intros x (i & _ & Hx)%elem_of_window. by eapply list_elem_of_lookup_2.
    + unfold zlen at 1. rewrite length_window by lia. lia.
  - unfold nextAutoPingBootstrapTargets. fold nodes.
    destruct (Z.eqb_spec (zlen nodes) 0) as [E0|E0].
    + apply zlen_nil_inv in E0. rewrite E0. cbn [snd].
      split; [constructor|]. split; [done|]. rewrite zlen_nil. lia.
    + rewrite (proj2 (Z.leb_le _ _)) by lia. cbn [snd]. split; [done|]. split; [done|]. lia.
Qed.

(** While no node of a selector has a latency, the partial scans take turns: each
    round measures different nodes, as many as the limit allows, and any number of
    successive rounds that is at least the number of nodes divided by the limit
    measures every node, wherever the rotation starts. *)
Theorem bootstrap_rotation_covers (k : nat) (pos : gmap string Z) (selectorID : string) (top : Z)
    (names : list string) :
  let nodes := dedupeNodeNames names in
  let t := Z.max 1 top in
  (forall round, round ∈ bootstrap_rounds k pos selectorID top names ->
     NoDup round /\ round ⊆ nodes /\ zlen round = Z.min t (zlen nodes)) /\
  (zlen nodes <= Z.of_nat k * t -> forall x, x ∈ nodes ->
     exists round, round ∈ bootstrap_rounds k pos selectorID top names /\ x ∈ round).
Proof.
  intros nodes t. assert (t = if top <? 1 then 1 else top) as Et by (unfold t; bool_cases; lia).
  pose proof (zlen_nonneg nodes) as Hlen. split.
  - revert pos. induction k as [|k IH]; intros pos round; cbn [bootstrap_rounds]; [by intros ?%elem_of_nil|].
    pose proof (bootstrap_targets pos selectorID top names) as Hb.
    destruct (nextAutoPingBootstrapTargets pos selectorID top names) as [pos' r].
    intros [->|Hr]%elem_of_cons; [exact Hb|by eapply IH].
  - intros Hk x Hx. apply list_elem_of_lookup_1 in Hx as [i Hi].
    assert (Z.of_nat i < zlen nodes) as Hin by (apply lookup_lt_Some in Hi; unfold zlen; lia).
    destruct (Z.lt_ge_cases t (zlen nodes)) as [Hlt|Hge].
    + apply rounds_cover; fold nodes; rewrite <- Et; [done|].
      set (s := rotation_start pos selectorID (zlen nodes)).
      exists ((Z.of_nat i - s) mod zlen nodes). pose proof (Z.mod_pos_bound (Z.of_nat i - s) (zlen nodes)).
      split; [lia|]. rewrite Zplus_mod_idemp_r.
      replace (s + (Z.of_nat i - s)) with (Z.of_nat i) by lia. rewrite Z.mod_small by lia. by rewrite Nat2Z.id.
    + destruct k as [|k]; [lia|]. cbn [bootstrap_rounds]. unfold nextAutoPingBootstrapTargets.
      fold nodes. rewrite <- Et, (proj2 (Z.eqb_neq _ _)), (proj2 (Z.leb_le _ _)) by lia.
      exists nodes. split; [by left|]. by eapply list_elem_of_lookup_2.
Qed.
End rotation.

(** ** The targets of a partial scan *)

Section targets.
Context `{Unicode} `{Location}.
Variables (e : ping_env) (now : gotime) (st : ping_state) (selectorID sortBy : string).

Let lat (n : string) : option Z := lookupAutoPingLatency e now (ps_om st) selectorID n sortBy.
Let cur : string := default ""%string (GetServerSelectedNode (ps_om st) selectorID).

Lemma lookup_latency_pos n v : lat n = Some v -> 0 < v.
Proof.
  unfold lat, lookupAutoPingLatency. destruct (GetServerNodeLatency _ _ _ _ _) as [w|] eqn:E.
  - intros [= ->]. revert E. unfold GetServerNodeLatency. repeat case_match; try done.
    intros [= <-]. by bool_prop.
  - repeat case_match; try done. intros [= <-]. by bool_prop.
Qed.

(** What the selection is, before the rotation. *)
Definition chosen_targets (top : Z) (nodes : list string) : list string :=
  let head := if existsb (String.eqb cur) nodes then [cur] else [] in
  head ++ take (Z.to_nat top) (snd <$> rank_candidates lat cur nodes).

Lemma head_clean nodes : clean_names nodes ->
  (if existsb (String.eqb cur) nodes then add_name [] cur else []) =
  (if existsb (String.eqb cur) nodes then [cur] else []).
Proof.
  intros [_ Hp]. destruct (existsb _ _) eqn:E; [|done]. apply existsb_eqb in E.
  rewrite Forall_forall in Hp. by apply (add_name_snoc [] cur (Hp _ E)), not_elem_of_nil.
Qed.

Lemma not_blank_all nodes : Forall piece nodes -> List.filter not_blank nodes = nodes.
Proof.
  induction 1 as [|x l [_ Hx] _ IH]; [done|]. cbn [List.filter]. unfold not_blank at 1.
  rewrite (proj2 (String.eqb_neq x "")) by done. cbn [negb]. by rewrite IH.
Qed.

Lemma ranked_names nodes : clean_names nodes ->
  NoDup (snd <$> rank_candidates lat cur nodes) /\
  forall n, n ∈ snd <$> rank_candidates lat cur nodes <-> n ∈ nodes /\ n <> cur /\ is_Some (lat n).
Proof.
  intros [Hd Hp]. destruct (rank_spec lat cur nodes Hp) as [Hperm _].
  destruct (omap_rank_names lat cur nodes Hd) as [Hn Hin]. split; [by rewrite Hperm|].
  intros n. rewrite Hperm, Hin. rewrite Forall_forall in Hp. split.
  - intros (? & ? & ? & v & ? & ?). split_and!; [done..|]. by exists v.
  - intros (Hx & ? & v & Hv). split; [done|]. split; [by apply Hp|]. split; [done|].
    exists v. split; [done|]. by eapply lookup_latency_pos.
Qed.

Lemma select_targets_eq top nodes :
  clean_names nodes -> 1 < zlen nodes ->
  let t := Z.max 1 top in
  selectAutoPingTargetsForSelector e now st selectorID top nodes sortBy =
    match chosen_targets t nodes with
    | [] =>
        let '(pos, targets) := nextAutoPingBootstrapTargets (ps_bootstrapPos st) selectorID t nodes in
        (with_pos pos st, targets, false)
    | selected => (st, selected, false)
    end.
Proof.
  intros Hc Hl t. pose proof Hc as [Hd Hp]. unfold selectAutoPingTargetsForSelector.
  rewrite (proj2 (Z.leb_gt _ _)) by lia. fold cur. rewrite trim_clean, not_blank_all by done.
  change (fun n : string => lookupAutoPingLatency e now (ps_om st) selectorID n sortBy) with lat.
  rewrite head_clean by done.
  assert ((if top <? 1 then 1 else top) = t) as -> by (unfold t; bool_cases; lia).
  destruct (ranked_names nodes Hc) as [Hrn Hri].
  assert (negb (String.eqb cur "") && existsb (String.eqb cur) nodes = existsb (String.eqb cur) nodes) as ->.
  { destruct (existsb _ _) eqn:E; [|by rewrite andb_false_r]. rewrite andb_true_r. apply existsb_eqb in E.
    rewrite Forall_forall in Hp. apply negb_true_iff, String.eqb_neq. by apply Hp. }
  rewrite take_candidates_spec.
  - unfold chosen_targets. destruct (existsb _ _).
    + rewrite zlen_cons, zlen_nil. by replace (Z.to_nat (t + 1 - (1 + 0))) with (Z.to_nat t) by lia.
    + rewrite zlen_nil. by replace (Z.to_nat (t - 0)) with (Z.to_nat t) by lia.
  - destruct (existsb _ _); [|done]. cbn [app]. constructor; [|done]. rewrite Hri. naive_solver.
  - apply Forall_forall. intros n Hn. apply Hri in Hn as [Hn _]. rewrite Forall_forall in Hp. by apply Hp.
Qed.

(** What is left out of a prefix of the ranking is not faster than the prefix. *)
Lemma ranked_prefix nodes k a b va vb :
  clean_names nodes ->
  a ∈ nodes -> a <> cur -> a ∉ take k (snd <$> rank_candidates lat cur nodes) ->
  b ∈ take k (snd <$> rank_candidates lat cur nodes) ->
  lat a = Some va -> lat b = Some vb -> vb <= va.
Proof.
  intros Hc Ha Hac Hna Hb Hva Hvb. pose proof Hc as [_ Hp].
  destruct (rank_spec lat cur nodes Hp) as [Hperm Hs]. destruct (ranked_names nodes Hc) as [_ Hin].
  set (r := rank_candidates lat cur nodes) in *.
  assert (forall p, p ∈ r -> lat p.2 = Some p.1) as Hlat.
  { intros p. rewrite Hperm. intros (x & _ & (-> & _ & _ & ? & _)%rank_entry_Some)%list_elem_of_omap. done. }
  assert (a ∈ snd <$> r) as Har by (apply Hin; split_and!; [done..|by exists va]).
  rewrite <- (take_drop k r), fmap_app, elem_of_app in Har. rewrite <- fmap_take in Hna, Hb.
  destruct Har as [|(p & -> & Hpd)%list_elem_of_fmap]; [done|].
  apply list_elem_of_fmap in Hb as (q & -> & Hqt).
  pose proof (Hlat p ltac:(rewrite <- (take_drop k r), elem_of_app; by right)) as Ep.
  pose proof (Hlat q ltac:(rewrite <- (take_drop k r), elem_of_app; by left)) as Eq.
  assert (va = p.1) as -> by congruence. assert (vb = q.1) as -> by congruence.
  rewrite <- (take_drop k r) in Hs. apply (StronglySorted_app_1_elem_of (fun a b => a.1 <= b.1) _ _ q p Hs Hqt Hpd).
Qed.

Lemma filter_neq (l : list string) : cur ∉ l -> List.filter (fun n => negb (String.eqb n cur)) l = l.
Proof.
  induction l as [|x l IH]; [done|]. rewrite not_elem_of_cons. intros [Hx Hl]. cbn [List.filter].
  rewrite (proj2 (String.eqb_neq x cur)) by done. cbn [negb]. by rewrite IH.
Qed.

(** The chosen targets: the current node and the taken part of the ranking. *)
Lemma chosen_targets_spec t nodes :
  clean_names nodes -> 1 <= t ->
  let taken := take (Z.to_nat t) (snd <$> rank_candidates lat cur nodes) in
  NoDup (chosen_targets t nodes) /\ chosen_targets t nodes ⊆ nodes /\
  (cur ∈ nodes -> cur ∈ chosen_targets t nodes) /\
  List.filter (fun n => negb (String.eqb n cur)) (chosen_targets t nodes) = taken /\
  (forall n, n ∈ chosen_targets t nodes -> n = cur \/ n ∈ taken) /\
  (chosen_targets t nodes = [] -> cur ∉ nodes /\ forall n, n ∈ nodes -> lat n = None).
Proof.
  intros Hc Ht taken. destruct (ranked_names nodes Hc) as [Hrn Hri].
  assert (NoDup taken /\ taken ⊆ snd <$> rank_candidates lat cur nodes) as [Htn Hts].
  { rewrite <- (take_drop (Z.to_nat t) (snd <$> _)) in Hrn. apply NoDup_app in Hrn as [? _]. split; [done|].
    intros x Hx. rewrite <- (take_drop (Z.to_nat t) (snd <$> _)), elem_of_app. by left. }
  assert (cur ∉ taken) as Hct by (intros Hin; apply Hts, Hri in Hin as (_ & ? & _); done).
  unfold chosen_targets. fold taken. destruct (existsb _ nodes) eqn:E; cbn [app].
  - apply existsb_eqb in E. split; [by constructor|]. split.
    { intros x [->|Hx]%elem_of_cons; [done|]. by apply Hts, Hri in Hx as [? _]. }
    split; [by left|]. split; [|split; [|done]].
    + cbn [List.filter]. rewrite String.eqb_refl. cbn [negb]. by apply filter_neq.
    + intros n [?|?]%elem_of_cons; auto.
  - apply existsb_eqb_false in E. split; [done|]. split.
    { intros x Hx. by apply Hts, Hri in Hx as [? _]. }
    split; [done|]. split; [by apply filter_neq|]. split; [by right|].
    intros Hnil. split; [done|]. intros n Hn. destruct (lat n) as [v|] eqn:Ev; [|done]. exfalso.
    assert (n ∈ snd <$> rank_candidates lat cur nodes) as Hin
      by (apply Hri; split_and!; [done|by intros ->|by eexists]).
    unfold taken in Hnil. destruct (snd <$> rank_candidates lat cur nodes) as [|y r]; [by apply elem_of_nil in Hin|].
    destruct (Z.to_nat t) eqn:Et; [lia|]. discriminate Hnil.
Qed.

(** A partial scan of a selector never measures a node twice nor a node that is not
    a candidate, and measures at least one node when there is one.  It measures the
    current node if it is a candidate, and of the other nodes only the fastest that
    have a latency, at most the configured number: a candidate with a latency that is
    left out is not faster than any that is taken, and then the number is exhausted.
    When a node is current or has a latency, nodes without latency are left out.  The
    scan never turns into a full scan. *)
Theorem scan_targets_spec (top : Z) (names : list string) :
  let nodes := dedupeNodeNames names in
  let r := selectAutoPingTargetsForSelector e now st selectorID top nodes sortBy in
  let targets := r.1.2 in
  r.2 = false /\ ps_om r.1.1 = ps_om st /\
  NoDup targets /\ targets ⊆ nodes /\ (nodes <> [] -> targets <> []) /\
  (cur ∈ nodes -> cur ∈ targets) /\
  zlen (List.filter (fun n => negb (String.eqb n cur)) targets) <= Z.max 1 top /\
  ((cur ∈ nodes \/ exists n, n ∈ nodes /\ is_Some (lat n)) -> 1 < zlen nodes ->
     (forall n, n ∈ targets -> n = cur \/ is_Some (lat n)) /\
     (forall a va, a ∈ nodes -> a ∉ targets -> lat a = Some va ->
        zlen (List.filter (fun n => negb (String.eqb n cur)) targets) = Z.max 1 top /\
        (forall b vb, b ∈ targets -> b <> cur -> lat b = Some vb -> vb <= va))).
Proof.
  intros nodes r targets. pose proof (dedupe_clean names) as Hc. fold nodes in Hc.
  unfold targets, r. destruct (Z.lt_ge_cases 1 (zlen nodes)) as [Hl|Hl].
  - rewrite select_targets_eq by done.
    destruct (chosen_targets_spec (Z.max 1 top) nodes Hc ltac:(lia)) as (Hd & Hs & Hcur & Hf & Hin & Hnil).
    pose proof (ranked_prefix nodes (Z.to_nat (Z.max 1 top))) as Hpre.
    set (taken := take (Z.to_nat (Z.max 1 top)) (snd <$> rank_candidates lat cur nodes)) in *.
    destruct (ranked_names nodes Hc) as [_ Hri].
    destruct (chosen_targets (Z.max 1 top) nodes) as [|x l] eqn:E.
    + destruct (Hnil eq_refl) as [Hcn Hnone].
      pose proof (bootstrap_targets (ps_bootstrapPos st) selectorID (Z.max 1 top) nodes) as (Bd & Bs & Bl).
      destruct (nextAutoPingBootstrapTargets _ _ _ _) as [pos bt]. cbn [fst snd] in *.
      rewrite dedupe_id in Bs, Bl by done. split_and!; try done.
      * intros _ ->. rewrite zlen_nil in Bl. lia.
      * rewrite filter_neq by set_solver. lia.
      * intros [?|(n & Hn & v & Hv)]; [done|]. rewrite Hnone in Hv by done. discriminate Hv.
    + cbn [fst snd]. rewrite Hf. split_and!; try done.
      * unfold zlen, taken. rewrite length_take. lia.
      * intros _ _. split.
        { intros n [->|Hn]%Hin; [by left|right]. unfold taken in Hn.
          assert (n ∈ snd <$> rank_candidates lat cur nodes) as Hn'
            by (rewrite <- (take_drop (Z.to_nat (Z.max 1 top)) (snd <$> _)), elem_of_app; by left).
          by apply Hri in Hn' as (_ & _ & ?). }
        intros a va Ha Hna Hva. assert (a <> cur) as Hac by (intros ->; auto).
        assert (a ∉ taken) as Hnt.
        { intros Hin'. rewrite <- Hf in Hin'. apply Hna. apply list_elem_of_In in Hin'.
          apply filter_In in Hin' as [Hin' _]. by apply list_elem_of_In. }
        split; [|intros b vb Hb Hbc Hvb; destruct (Hin b Hb) as [|Hbt]; [done|by eapply Hpre]].
        assert (a ∈ snd <$> rank_candidates lat cur nodes) as Har by (apply Hri; split_and!; [done..|by eexists]).
        unfold zlen, taken. rewrite length_take.
        destruct (Nat.le_gt_cases (Z.to_nat (Z.max 1 top)) (List.length (snd <$> rank_candidates lat cur nodes)));
          [lia|]. exfalso. apply Hnt. unfold taken. by rewrite take_ge by lia.
  - unfold selectAutoPingTargetsForSelector. rewrite (proj2 (Z.leb_le _ _)) by lia. cbn [fst snd].
    rewrite dedupe_id by done. split_and!; try done; [apply Hc|..|lia].
    assert (forall (p : string -> bool) l, zlen (List.filter p l) <= zlen l) as Hfl.
    { intros p l. induction l as [|y l IH]; cbn [List.filter]; [done|]. destruct (p y); rewrite ?zlen_cons; lia. }
    pose proof (Hfl (fun n => negb (String.eqb n cur)) nodes). lia.
Qed.
End targets.

(** ** Full scans *)

Section full_scans.
Context `{Unicode} `{Location}.

Lemma select_never_full e now st id top names sort :
  (selectAutoPingTargetsForSelector e now st id top names sort).2 = false.
Proof.
  unfold selectAutoPingTargetsForSelector. destruct (_ <=? 1); [done|].
  destruct (take_candidates _ _ _); [|done]. by destruct (nextAutoPingBootstrapTargets _ _ _ _).
Qed.

Lemma scan_nodes_result e now st key id target sort top ov names full :
  let r := (scan_nodes e now st key id target sort top ov names full).2 in
  ar_key r = key /\ (ar_didFullScan r = true <-> full = true /\ dedupeNodeNames names <> []) /\
  (ar_didFullScan r = true -> ar_scannedNodes r = zlen (dedupeNodeNames names)).
Proof.
  unfold scan_nodes. set (nodes := dedupeNodeNames names).
  destruct (Z.eqb_spec (zlen nodes) 0) as [E|E].
  { cbn. split; [done|]. split; [|done]. split; [done|]. intros [_ Hn]. by destruct (Hn (zlen_nil_inv _ E)). }
  assert (nodes <> []) as Hne by (intros E'; by rewrite E' in E).
  destruct full.
  - rewrite (proj2 (Z.eqb_neq (zlen nodes) 0)) by done. cbn. split; [done|]. by split.
  - pose proof (select_never_full e now st id top nodes sort) as Hf.
    destruct (selectAutoPingTargetsForSelector e now st id top nodes sort) as [[st' targets] fb].
    cbn [snd] in Hf. rewrite Hf. destruct (zlen targets =? 0); cbn; (split; [done|]); split; naive_solver.
Qed.

Lemma server_result e now st sc full :
  let r := (pingAllNodesForServer e now st sc full).2 in
  ar_key r = serverAutoPingResultKey (sc_ID sc) /\ (ar_didFullScan r = true -> full = true).
Proof.
  unfold pingAllNodesForServer. destruct (_ || _); [done|]. destruct (0 <? _); [done|].
  destruct (negb _); [done|]. edestruct scan_nodes_result as (-> & Hf & _). split; [done|]. by intros [? _]%Hf.
Qed.

Lemma port_result e now st pc full :
  let r := (pingAllNodesForProxyPort e now st pc full).2 in
  ar_key r = proxyPortAutoPingResultKey (pp_ID pc) /\ (ar_didFullScan r = true -> full = true).
Proof.
  unfold pingAllNodesForProxyPort. destruct (_ || _); [done|]. destruct (0 <? _); [done|].
  destruct (_ && _); [done|]. edestruct scan_nodes_result as (-> & Hf & _). split; [done|]. by intros [? _]%Hf.
Qed.

Definition server_due_full (t : tick) (fullScans : gmap string gotime) (sc : ServerConfig) : Prop :=
  is_Some (shouldRunScheduledFullScan sc (tk_now t) (default 0 (fullScans !! sc_ID sc))).
Definition port_due_full (t : tick) (fullScans : gmap string gotime) (pc : ProxyPortConfig) : Prop :=
  is_Some (shouldRunScheduledFullScanForProxyPort pc (tk_now t) (default 0 (fullScans !! pp_ID pc))).

(** Where the results of a tick come from. *)
Definition from_server (t : tick) (fs : gmap string gotime) (servers : list ServerConfig) (r : autoPingRunResult) :=
  exists sc, sc ∈ servers /\ ar_key r = serverAutoPingResultKey (sc_ID sc) /\
    (ar_didFullScan r = true -> server_due_full t fs sc).
Definition from_port (t : tick) (fs : gmap string gotime) (ports : list ProxyPortConfig) (r : autoPingRunResult) :=
  exists pc, pc ∈ ports /\ ar_key r = proxyPortAutoPingResultKey (pp_ID pc) /\
    (ar_didFullScan r = true -> port_due_full t fs pc).

Lemma ping_servers_results t fs servers acc :
  (forall r, r ∈ acc.2 -> from_server t fs servers r) -> forall l, l ⊆ servers ->
  forall r, r ∈ (fold_left (ping_due_server t fs) l acc).2 -> from_server t fs servers r.
Proof.
  intros Hacc l. revert acc Hacc. induction l as [|sc l IH]; intros acc Hacc Hl r; cbn [fold_left]; [apply Hacc|].
  apply IH; [|set_solver]. intros q. unfold ping_due_server.
  pose proof (server_result (tk_env t) (tk_now t) acc.1 sc
    (bool_decide (is_Some (shouldRunScheduledFullScan sc (tk_now t) (default 0 (fs !! sc_ID sc)))))) as [Hk Hd].
  destruct (pingAllNodesForServer _ _ _ _ _) as [st' r']. cbn [snd] in *.
  rewrite elem_of_app, list_elem_of_singleton. intros [Hq| ->]; [by apply Hacc|].
  exists sc. split; [set_solver|]. split; [done|]. intros Hfull. by eapply bool_decide_eq_true, Hd.
Qed.

Lemma ping_ports_results t fs fs' servers ports acc :
  (forall r, r ∈ acc.2 -> from_server t fs servers r \/ from_port t fs' ports r) -> forall l, l ⊆ ports ->
  forall r, r ∈ (fold_left (ping_due_port t fs') l acc).2 -> from_server t fs servers r \/ from_port t fs' ports r.
Proof.
  intros Hacc l. revert acc Hacc. induction l as [|pc l IH]; intros acc Hacc Hl r; cbn [fold_left]; [apply Hacc|].
  apply IH; [|set_solver]. intros q. unfold ping_due_port.
  pose proof (port_result (tk_env t) (tk_now t) acc.1 pc
    (bool_decide (is_Some (shouldRunScheduledFullScanForProxyPort pc (tk_now t) (default 0 (fs' !! pp_ID pc)))))) as [Hk Hd].
  destruct (pingAllNodesForProxyPort _ _ _ _ _) as [st' r']. cbn [snd] in *.
  rewrite elem_of_app, list_elem_of_singleton. intros [Hq| ->]; [by apply Hacc|]. right.
  exists pc. split; [set_solver|]. split; [done|]. intros Hfull. by eapply bool_decide_eq_true, Hd.
Qed.

(** The results of a tick and what it writes in the tables of full scans. *)
Lemma tick_results sd st t :
  let out := auto_ping_tick sd st t in
  let sd' := out.1.1.1 in
  let results := out.1.2 in
  (forall r, r ∈ results ->
     from_server t (sd_serverLastFullScan sd) (tk_servers t) r \/
     from_port t (sd_portLastFullScan sd) (tk_ports t) r) /\
  (sd_serverLastFullScan sd', sd_portLastFullScan sd') =
    fold_left (note_result (tk_completedAt t)) results (sd_serverLastFullScan sd, sd_portLastFullScan sd).
Proof.
  unfold auto_ping_tick. destruct (passive_pass t (sd_passiveLastRun sd)) as [pl pr].
  set (servers := dueServers _ _ _ _). set (ports := duePorts _ _ _ _).
  assert (servers ⊆ tk_servers t) as Hs.
  { intros sc Hsc. apply list_elem_of_In, filter_In in Hsc as [Hsc _]. by apply list_elem_of_In. }
  assert (ports ⊆ tk_ports t) as Hp.
  { intros pc Hpc. apply list_elem_of_In, filter_In in Hpc as [Hpc _]. by apply list_elem_of_In. }
  destruct (_ && _). { cbn. split; [by intros r ?%elem_of_nil|done]. }
  pose proof (ping_ports_results t (sd_serverLastFullScan sd) (sd_portLastFullScan sd) (tk_servers t) (tk_ports t)
    (fold_left (ping_due_server t (sd_serverLastFullScan sd)) servers (st, []))) as Hr.
  lapply Hr; [clear Hr; intros Hr|]; first last.
  { intros r Hr'. left. eapply (ping_servers_results t _ (tk_servers t) (st, [])); [|exact Hs|exact Hr'].
    by intros q ?%elem_of_nil. }
  specialize (Hr ports Hp).
  destruct (fold_left (ping_due_port _ _) ports _) as [st1 results].
  destruct (fold_left (note_result _) results _) as [ss ps] eqn:En.
  destruct (fold_left (finish_server _ _) servers _) as [[st2 sw] recs].
  destruct (fold_left (finish_port _ _) ports _) as [st3 pw]. cbn [fst snd sd_serverLastFullScan sd_portLastFullScan].
  by rewrite En.
Qed.

(** A run of the scheduler: each tick with its results. *)
Fixpoint run_ticks (sd : scheduler) (st : ping_state) (ticks : list tick) : list (tick * list autoPingRunResult) :=
  match ticks with
  | [] => []
  | t :: ticks =>
      let out := auto_ping_tick sd st t in
      (t, out.1.2) :: run_ticks out.1.1.1 out.1.1.2 ticks
  end.

Lemma interval_never mode time hours now :
  mode <> AutoPingFullScanModeDaily -> full_scan_reason mode time hours now 0 = None.
Proof.
  intros Hm. unfold full_scan_reason. rewrite (proj2 (String.eqb_neq mode AutoPingFullScanModeDaily)) by done.
  destruct (String.eqb mode _); [done|]. destruct (String.eqb mode _); [|done].
  by rewrite orb_true_r.
Qed.

Lemma note_none c results acc :
  Forall (fun r => ar_didFullScan r = false) results -> fold_left (note_result c) results acc = acc.
Proof.
  revert acc. induction results as [|r l IH]; intros [a b] Hf; [done|]. apply Forall_cons in Hf as [Hr Hf].
  cbn [fold_left]. rewrite IH by done. unfold note_result. by rewrite Hr, orb_true_r.
Qed.

(** The mode "interval" never runs a full scan: as long as no server and no proxy port
    is set to "daily", no tick of the scheduler ever scans all the nodes of one, however
    long it runs, because an interval is counted from the last full scan and there is
    none. *)
Theorem interval_full_scan_never_runs (st : ping_state) (ticks : list tick) (t : tick)
    (results : list autoPingRunResult) (r : autoPingRunResult) :
  (forall t', t' ∈ ticks ->
     (forall sc, sc ∈ tk_servers t' -> GetAutoPingFullScanMode sc <> AutoPingFullScanModeDaily) /\
     (forall pc, pc ∈ tk_ports t' -> pp_GetAutoPingFullScanMode pc <> AutoPingFullScanModeDaily)) ->
  (t, results) ∈ run_ticks new_scheduler st ticks -> r ∈ results ->
  ar_didFullScan r = false.
Proof.
  intros Hmode Hin Hr. revert st Hin.
  assert (sd_serverLastFullScan new_scheduler = ∅ /\ sd_portLastFullScan new_scheduler = ∅) as He by done.
  revert He. generalize new_scheduler. induction ticks as [|t' ticks IH]; intros sd [Es Ep] st Hin;
    cbn [run_ticks] in Hin; [by apply elem_of_nil in Hin|].
  pose proof (tick_results sd st t') as [Hfrom Hnote]. rewrite Es, Ep in Hfrom, Hnote.
  destruct (Hmode t' ltac:(left)) as [Hms Hmp].
  assert (forall q, q ∈ (auto_ping_tick sd st t').1.2 -> ar_didFullScan q = false) as Hno.
  { intros q Hq. destruct (ar_didFullScan q) eqn:Ed; [|done]. exfalso.
    destruct (Hfrom q Hq) as [(sc & Hsc & _ & Hdue)|(pc & Hpc & _ & Hdue)];
      destruct (Hdue Ed) as [x Hx]; rewrite lookup_empty in Hx; revert Hx; cbn [default].
    - unfold shouldRunScheduledFullScan. by rewrite interval_never by auto.
    - unfold shouldRunScheduledFullScanForProxyPort. by rewrite interval_never by auto. }
  apply elem_of_cons in Hin as [[= -> ->]|Hin]; [by apply Hno|].
  eapply IH; [intros ? ?; apply Hmode; by right| |exact Hin].
  rewrite note_none in Hnote by (apply Forall_forall; exact Hno). by injection Hnote.
Qed.
End full_scans.

(** ** The daily scan *)

Lemma substring_all s : String.substring 0 (String.length s) s = s.
Proof. induction s as [|a s IH]; [done|]. cbn. by rewrite IH. Qed.

Lemma server_key_prefix s : has_prefix ("server:" ++ s) "server:" = true.
Proof. unfold has_prefix. cbn. by destruct s. Qed.

Lemma trim_server_key s : trim_prefix ("server:" ++ s) "server:" = s.
Proof.
  unfold trim_prefix. rewrite server_key_prefix. unfold str_from.
  change (String.length ("server:" ++ s)) with (7 + String.length s)%nat.
  change (String.length "server:") with 7%nat.
  replace (7 + String.length s - 7)%nat with (String.length s) by lia. exact (substring_all s).
Qed.

Section daily.
Context `{Unicode} `{Location}.

(** A full scan of the server [id] among the results. *)
Definition full_scan_of (id : string) (results : list autoPingRunResult) : Prop :=
  exists r, r ∈ results /\ ar_key r = serverAutoPingResultKey id /\ ar_didFullScan r = true.

Lemma note_result_server c acc r id :
  trimmed id -> ar_key r = serverAutoPingResultKey id -> ar_didFullScan r = true ->
  (note_result c acc r).1 !! id = Some c.
Proof.
  intros Ht Hk Hd. destruct acc as [a b]. unfold note_result. rewrite Hk, Hd.
  unfold serverAutoPingResultKey. rewrite Ht, server_key_prefix, trim_server_key.
  rewrite (proj2 (String.eqb_neq ("server:" ++ id) "")) by done. cbn [orb negb fst]. by rewrite lookup_insert_eq.
Qed.

Lemma note_result_keeps c acc r id lo :
  lo <= c -> (exists v, acc.1 !! id = Some v /\ lo <= v) -> exists v, (note_result c acc r).1 !! id = Some v /\ lo <= v.
Proof.
  intros Hc (v & Hv & Hlo). destruct acc as [a b]. unfold note_result.
  destruct (_ || _); [by exists v|]. destruct (has_prefix _ "server:").
  - cbn. destruct (decide (trim_prefix (ar_key r) "server:" = id)) as [->|Hne].
    + exists c. by rewrite lookup_insert_eq.
    + exists v. by rewrite lookup_insert_ne.
  - destruct (has_prefix _ _); by exists v.
Qed.

Lemma notes_keep c results acc id lo :
  lo <= c -> (exists v, acc.1 !! id = Some v /\ lo <= v) ->
  exists v, (fold_left (note_result c) results acc).1 !! id = Some v /\ lo <= v.
Proof.
  intros Hc. revert acc. induction results as [|r l IH]; intros acc Hacc; [done|].
  apply IH. by apply note_result_keeps.
Qed.

Lemma notes_set c results acc id :
  trimmed id -> full_scan_of id results ->
  exists v, (fold_left (note_result c) results acc).1 !! id = Some v /\ c <= v.
Proof.
  intros Ht (r & Hr & Hk & Hd). revert acc. induction results as [|q l IH]; intros acc; [by apply elem_of_nil in Hr|].
  cbn [fold_left]. apply elem_of_cons in Hr as [->|Hr]; [|by apply IH].
  apply notes_keep; [done|]. exists c. split; [by apply note_result_server|done].
Qed.

(** The clocks of a run: each tick starts after the one before it is complete. *)
Fixpoint ticks_ordered (lo : gotime) (ticks : list tick) : Prop :=
  match ticks with
  | [] => True
  | t :: ticks => lo <= tk_now t <= tk_completedAt t /\ ticks_ordered (tk_completedAt t) ticks
  end.

Lemma ticks_ordered_mono lo lo' ticks : lo' <= lo -> ticks_ordered lo ticks -> ticks_ordered lo' ticks.
Proof. destruct ticks; cbn; [done|]. intros ? [? ?]. split; [lia|done]. Qed.

(** The server [id] is scanned every day at [h]:[m]. *)
Definition daily_at (id : string) (h m : Z) (t : tick) : Prop :=
  (forall sc, sc ∈ tk_servers t -> trimmed (sc_ID sc)) /\
  (forall sc, sc ∈ tk_servers t -> sc_ID sc = id ->
     GetAutoPingFullScanMode sc = AutoPingFullScanModeDaily /\
     configTimeOnly (GetAutoPingFullScanTime sc) = Some (h, m)).

Lemma server_key_inj id id' : trimmed id -> trimmed id' ->
  serverAutoPingResultKey id = serverAutoPingResultKey id' -> id = id'.
Proof.
  intros Hi Hj E. unfold serverAutoPingResultKey in E. rewrite Hi, Hj in E.
  apply (f_equal (fun s => trim_prefix s "server:")) in E. by rewrite !trim_server_key in E.
Qed.

Lemma port_key_not_server id id' : proxyPortAutoPingResultKey id <> serverAutoPingResultKey id'.
Proof.
  unfold proxyPortAutoPingResultKey, proxyPortSelectorID, serverAutoPingResultKey. by destruct (String.eqb _ "").
Qed.

(** A full scan of [id] happens after the hour of its day, and only if the last one was
    before it. *)
Lemma full_scan_tick sd st t id h m :
  trimmed id -> daily_at id h m t -> full_scan_of id (auto_ping_tick sd st t).1.2 ->
  day_at (local_day (tk_now t)) h m <= tk_now t /\
  forall v, sd_serverLastFullScan sd !! id = Some v -> v <> 0 -> v < day_at (local_day (tk_now t)) h m.
Proof.
  intros Ht [Htr Hday] (r & Hr & Hk & Hd). pose proof (tick_results sd st t) as [Hfrom _].
  destruct (Hfrom r Hr) as [(sc & Hsc & Hk' & Hdue)|(pc & _ & Hk' & _)].
  2: { exfalso. apply (port_key_not_server (pp_ID pc) id). congruence. }
  rewrite Hk' in Hk. apply server_key_inj in Hk; [|by apply Htr|done]. subst id.
  destruct (Hday sc Hsc eq_refl) as [Em Ec]. destruct (Hdue Hd) as [x Hx]. revert Hx.
  unfold shouldRunScheduledFullScan, full_scan_reason. rewrite Em, Ec.
  rewrite (proj2 (String.eqb_neq AutoPingFullScanModeDaily AutoPingFullScanModeDisabled)), String.eqb_refl by done.
  destruct (Z.ltb_spec (tk_now t) (day_at (local_day (tk_now t)) h m)); [done|].
  destruct (_ && _) eqn:E; [done|]. intros _. split; [done|]. intros v Hv Hv0. rewrite Hv in E. cbn [default] in E.
  unfold id, is_zero_time in E. rewrite (proj2 (Z.eqb_neq v 0)) in E by done. cbn [negb andb] in E. by bool_prop.
Qed.

Lemma tick_keeps_scan sd st t id lo :
  lo <= tk_completedAt t -> (exists v, sd_serverLastFullScan sd !! id = Some v /\ lo <= v) ->
  exists v, sd_serverLastFullScan (auto_ping_tick sd st t).1.1.1 !! id = Some v /\ lo <= v.
Proof.
  intros Hlo Hv. pose proof (tick_results sd st t) as [_ Hn]. apply (f_equal fst) in Hn. cbn [fst] in Hn.
  rewrite Hn. by apply notes_keep.
Qed.

Lemma tick_sets_scan sd st t id :
  trimmed id -> full_scan_of id (auto_ping_tick sd st t).1.2 ->
  exists v, sd_serverLastFullScan (auto_ping_tick sd st t).1.1.1 !! id = Some v /\ tk_completedAt t <= v.
Proof.
  intros Ht Hf. pose proof (tick_results sd st t) as [_ Hn]. apply (f_equal fst) in Hn. cbn [fst] in Hn.
  rewrite Hn. by apply notes_set.
Qed.

(** After a scan recorded at [lo] or later, no other one on a day whose hour is before. *)
Lemma no_second_scan ticks sd st id h m lo t results :
  trimmed id -> 0 < lo -> ticks_ordered lo ticks -> (forall t', t' ∈ ticks -> daily_at id h m t') ->
  (exists v, sd_serverLastFullScan sd !! id = Some v /\ lo <= v) ->
  (t, results) ∈ run_ticks sd st ticks -> full_scan_of id results ->
  lo < day_at (local_day (tk_now t)) h m.
Proof.
  intros Ht Hlo. revert sd st. induction ticks as [|t' ticks IH]; intros sd st Ho Hday Hv Hin Hf;
    cbn [run_ticks] in Hin; [by apply elem_of_nil in Hin|]. destruct Ho as [Hc Ho].
  apply elem_of_cons in Hin as [[= -> ->]|Hin].
  - destruct Hv as (v & Hv & Hvl).
    destruct (full_scan_tick sd st t' id h m Ht (Hday t' ltac:(left)) Hf) as [_ Hbefore].
    specialize (Hbefore v Hv). lia.
  - eapply IH; [| | |exact Hin|exact Hf].
    + eapply ticks_ordered_mono; [|exact Ho]. lia.
    + intros q Hq. apply Hday. by right.
    + apply tick_keeps_scan; [lia|done].
Qed.

(** A full scan of a run, and any later one. *)
Lemma run_scan_days ticks sd st lo id h m i t1 r1 :
  0 < lo -> ticks_ordered lo ticks -> trimmed id -> (forall t, t ∈ ticks -> daily_at id h m t) ->
  run_ticks sd st ticks !! i = Some (t1, r1) -> full_scan_of id r1 ->
  day_at (local_day (tk_now t1)) h m <= tk_now t1 /\
  forall k t2 r2, run_ticks sd st ticks !! (i + S k)%nat = Some (t2, r2) -> full_scan_of id r2 ->
    local_day (tk_now t1) <> local_day (tk_now t2).
Proof.
  intros Hlo Ho Ht. revert sd st lo i Hlo Ho.
  induction ticks as [|t ticks IH]; intros sd st lo i Hlo Ho Hday Hi Hf1; [done|]. destruct Ho as [Hc Ho].
  cbn [run_ticks] in Hi |- *. destruct i as [|i].
  - injection Hi as -> <-. destruct (full_scan_tick _ _ _ _ _ _ Ht (Hday t1 ltac:(left)) Hf1) as [Hge _].
    split; [done|]. intros k t2 r2 Hk Hf2 E. change (0 + S k)%nat with (S k) in Hk. cbn [lookup list_lookup] in Hk.
    apply list_elem_of_lookup_2 in Hk.
    assert (tk_completedAt t1 < day_at (local_day (tk_now t2)) h m); [|rewrite <- E in *; lia].
    eapply (no_second_scan ticks); [done|lia|done|intros; by apply Hday; right|by apply tick_sets_scan|exact Hk|done].
  - apply (IH _ _ (tk_completedAt t)) in Hi as [Hge Hlater]; [|lia|done|intros; by apply Hday; right|done].
    split; [done|]. intros k t2 r2 Hk. by apply (Hlater k).
Qed.

End daily.

(** ** What a scan writes *)

Section scans.
Context `{Unicode} `{Location}.

(** Everything but the latency tables is the same. *)
Record same_tables (m m' : outboundManagerImpl) : Prop := {
  st_config : om_globalConfig m' = om_globalConfig m;
  st_outbounds : om_outbounds m' = om_outbounds m;
  st_runtimes : om_runtimes m' = om_runtimes m;
  st_selected : om_serverSelectedNode m' = om_serverSelectedNode m;
  st_manual : om_serverManualNode m' = om_serverManualNode m;
}.

Lemma same_tables_refl m : same_tables m m.
Proof. done. Qed.

Lemma same_tables_trans a b c : same_tables a b -> same_tables b c -> same_tables a c.
Proof. intros [] []. split; congruence. Qed.

(** The node a probe of [n] writes, and what it writes. *)
Definition probe_value (e : ping_env) (selectorID targetAddr sortBy n : string) : Z :=
  let v := ap_probe e (probe_for selectorID n targetAddr sortBy) in if 0 <? v then v else 0.

Lemma record_same e m n sort v t ov : same_tables m (recordAutoPingOutboundLatency e m n sort v t ov) /\
  om_serverNodeLatency (recordAutoPingOutboundLatency e m n sort v t ov) = om_serverNodeLatency m.
Proof.
  unfold recordAutoPingOutboundLatency, setOutboundLatencyAt. repeat case_match; done.
Qed.

Lemma measure_spec e sel target sort ov m n :
  trim_space sel <> ""%string -> piece n ->
  same_tables m (measure_node e sel target sort ov m n) /\
  om_serverNodeLatency (measure_node e sel target sort ov m n) =
    <[(trim_space sel, n, normalizeSortBy sort) :=
        {| lv_latencyMs := probe_value e sel target sort n;
           lv_updatedAt := recorded (ap_time e sel n) (ap_time e sel n) |}]> (om_serverNodeLatency m).
Proof.
  intros Hs [Ht Hn]. unfold measure_node.
  set (m1 := SetServerNodeLatency _ _ _ _ _ _ _). destruct (record_same e m1 n sort
    (ap_probe e (probe_for sel n target sort)) (ap_time e sel n) ov) as [Hsame ->].
  assert (same_tables m m1 /\ om_serverNodeLatency m1 =
    <[(trim_space sel, n, normalizeSortBy sort) :=
        {| lv_latencyMs := probe_value e sel target sort n;
           lv_updatedAt := recorded (ap_time e sel n) (ap_time e sel n) |}]> (om_serverNodeLatency m)) as [Hs1 ->].
  { unfold m1, SetServerNodeLatency, setServerNodeLatencyAt. rewrite Ht.
    rewrite (proj2 (String.eqb_neq (trim_space sel) "")), (proj2 (String.eqb_neq n "")) by done. by split. }
  split; [by eapply same_tables_trans|done].
Qed.

(** The table after the probes of different nodes, in any order. *)
Lemma measures_spec e sel target sort ov targets m :
  trim_space sel <> ""%string -> clean_names targets ->
  let m' := fold_left (measure_node e sel target sort ov) targets m in
  same_tables m m' /\
  forall key, om_serverNodeLatency m' !! key =
    if decide (key.1.1 = trim_space sel /\ key.1.2 ∈ targets /\ key.2 = normalizeSortBy sort)
    then Some {| lv_latencyMs := probe_value e sel target sort key.1.2;
                 lv_updatedAt := recorded (ap_time e sel key.1.2) (ap_time e sel key.1.2) |}
    else om_serverNodeLatency m !! key.
Proof.
  intros Hs. revert m. induction targets as [|n l IH]; intros m [Hd Hp]; cbn [fold_left].
  - split; [apply same_tables_refl|]. intros key. rewrite decide_False; [done|]. by intros (_ & ?%elem_of_nil & _).
  - apply NoDup_cons in Hd as [Hnl Hd]. apply Forall_cons in Hp as [Hpn Hp].
    destruct (measure_spec e sel target sort ov m n Hs Hpn) as [Hsame Hlat].
    destruct (IH (measure_node e sel target sort ov m n) (conj Hd Hp)) as [Hsame' Htab].
    split; [by eapply same_tables_trans|]. intros [[a b] c]. rewrite Htab, Hlat. cbn [fst snd].
    destruct (decide (a = trim_space sel /\ b ∈ l /\ c = normalizeSortBy sort)) as [(? & ? & ?)|Hno].
    + by rewrite decide_True by (split_and!; [done|by right|done]).
    + destruct (decide (b = n)) as [->|Hbn].
      * destruct (decide ((a, c) = (trim_space sel, normalizeSortBy sort))) as [[= -> ->]|Hne].
        { rewrite decide_True by (split_and!; [done|left|done]). by rewrite lookup_insert_eq. }
        rewrite decide_False by naive_solver. rewrite lookup_insert_ne; [done|]. intros [=]; subst. by apply Hne.
      * rewrite decide_False.
        { rewrite lookup_insert_ne; [done|]. intros [=]; by subst. }
        intros (? & [?|?]%elem_of_cons & ?); [done|]. by apply Hno.
Qed.

(** A full scan of an idle server whose target resolves measures every candidate once:
    it is reported as a full scan of that many nodes, and afterwards the latency of each
    of them is what its probe answered (none when the probe failed) until it is more
    than thirty minutes old.  No other latency, no node, no pin and no rotation changes.
    With a session on the server, without a proxy node or when the target does not
    resolve, nothing happens at all. *)
Theorem full_scan_spec (e : ping_env) (now : gotime) (st : ping_state) (sc : ServerConfig) :
  let r := pingAllNodesForServer e now st sc true in
  let nodes := dedupeNodeNames (getServerNodeNames (ps_om st) (ap_order e) sc) in
  let sort := sc_GetLoadBalanceSort sc in
  let idle := GetActiveSessionsForServer e (sc_ID sc) = 0 /\ ap_resolves e (GetTargetAddr sc) = true in
  trim_space (sc_ID sc) <> ""%string -> (List.length nodes <= ap_started e (sc_ID sc))%nat ->
  (forall n, n ∈ nodes -> ap_time e (sc_ID sc) n <> 0) ->
  (idle -> nodes <> [] ->
     ar_didFullScan r.2 = true /\ ar_scannedNodes r.2 = zlen nodes /\
     (forall t n, n ∈ nodes ->
        GetServerNodeLatency t (ps_om r.1) (sc_ID sc) n sort =
          let v := ap_probe e (probe_for (sc_ID sc) n (GetTargetAddr sc) sort) in
          if (ap_time e (sc_ID sc) n + serverNodeLatencyCacheTTL <? t) || (v <=? 0) then None else Some v) /\
     (forall key, ~ (key.1.1 = trim_space (sc_ID sc) /\ key.1.2 ∈ nodes /\ key.2 = normalizeSortBy sort) ->
        om_serverNodeLatency (ps_om r.1) !! key = om_serverNodeLatency (ps_om st) !! key) /\
     same_tables (ps_om st) (ps_om r.1) /\ ps_bootstrapPos r.1 = ps_bootstrapPos st) /\
  (~ idle \/ nodes = [] -> r.1 = st /\ ar_didFullScan r.2 = false /\ ar_scannedNodes r.2 = 0).
Proof.
  intros r nodes sort idle Hid Hstart Htime.
  assert (forall full, (String.eqb (trim_space (GetProxyOutbound sc)) "" ||
    String.eqb (trim_space (GetProxyOutbound sc)) "direct") = full -> full = true -> nodes = []) as Hdir.
  { intros full E ->. unfold nodes, getServerNodeNames. by rewrite E. }
  pose proof (dedupe_clean (getServerNodeNames (ps_om st) (ap_order e) sc)) as Hc. fold nodes in Hc.
  unfold r, pingAllNodesForServer. destruct (_ || _) eqn:Ed.
  { split; [intros _ Hn; by destruct Hn; apply (Hdir true)|done]. }
  clear Hdir. pose proof (zlen_nonneg (List.filter (String.eqb (sc_ID sc)) (ap_sessions e))) as Hz.
  fold (GetActiveSessionsForServer e (sc_ID sc)) in Hz.
  destruct (Z.ltb_spec 0 (GetActiveSessionsForServer e (sc_ID sc))) as [Ha|Ha].
  { split; [intros [? _]; lia|done]. }
  destruct (ap_resolves e (GetTargetAddr sc)) eqn:Er; cbn [negb]; [|split; [by intros [_ ?]|done]].
  assert (idle) as Hidle by (split; [lia|done]).
  unfold scan_nodes. fold nodes. fold sort. destruct (Z.eqb_spec (zlen nodes) 0) as [E0|E0].
  { apply zlen_nil_inv in E0. split; [done|done]. }
  cbn [orb]. rewrite ?(proj2 (Z.eqb_neq (zlen nodes) 0)) by done. cbn [fst snd]. rewrite take_ge by done.
  destruct (measures_spec e (sc_ID sc) (GetTargetAddr sc) sort
    (autoPingHistoryMinIntervalOverrideMs (effectiveServerAutoPingIntervalMinutes (ap_config e) sc))
    nodes (ps_om st) Hid Hc) as [Hsame Htab].
  split; [|intros [Hn|Hn]; [by destruct Hn|by rewrite Hn in E0]].
  intros _ _. cbn [ar_didFullScan ar_scannedNodes]. split; [done|]. split; [done|]. split; [|split; [|done]].
  - intros t n Hn. destruct Hc as [_ Hp]. rewrite Forall_forall in Hp. destruct (Hp n Hn) as [Htn Hne].
    unfold GetServerNodeLatency. cbn [with_om ps_om]. rewrite Htn.
    rewrite (proj2 (String.eqb_neq (trim_space (sc_ID sc)) "")), (proj2 (String.eqb_neq n "")) by done.
    cbn [orb]. rewrite Htab. cbn [fst snd]. rewrite decide_True by done. cbn [lv_updatedAt lv_latencyMs].
    unfold recorded, is_zero_time. rewrite !(proj2 (Z.eqb_neq (ap_time e (sc_ID sc) n) 0)) by auto. cbn [negb andb].
    rewrite time_sub_gt by by vm_compute. unfold probe_value. cbv zeta.
    destruct (_ <? t); [done|]. cbn [orb]. set (v := ap_probe e _).
    destruct (Z.ltb_spec 0 v), (Z.leb_spec v 0); by try lia.
  - intros key Hk. cbn [with_om ps_om]. rewrite Htab. by rewrite decide_False.
Qed.
End scans.

(** ** The automatic switch *)

Section switching.
Context `{Unicode} `{Location}.

(** A node that was seen has the time since when it is seen, in the past. *)
Definition switch_ok (now : gotime) (ss : switch_state) : Prop :=
  forall id n, ss_observed ss !! id = Some n -> n <> ""%string ->
    exists t, ss_lastSwitch ss !! id = Some t /\ 0 < t <= now.

Lemma switch_ok_set now ss id n : 0 < now -> switch_ok now ss ->
  switch_ok now {| ss_observed := <[id := n]> (ss_observed ss); ss_lastSwitch := <[id := now]> (ss_lastSwitch ss) |}.
Proof.
  intros Hn Hok i x. cbn [ss_observed ss_lastSwitch]. destruct (decide (id = i)) as [->|Hne].
  - rewrite !lookup_insert_eq. intros _ _. exists now. split; [done|lia].
  - rewrite !lookup_insert_ne by done. apply Hok.
Qed.

Lemma observe_ok now ss id cur : 0 < now -> switch_ok now ss -> switch_ok now (observe id cur now ss).
Proof.
  intros Hn Hok. unfold observe. destruct (String.eqb _ cur); [done|].
  destruct (String.eqb_spec cur "") as [->|]; [|by apply switch_ok_set].
  intros i x. cbn [ss_observed ss_lastSwitch]. destruct (decide (id = i)) as [->|Hne].
  - rewrite lookup_insert_eq. by intros [= <-].
  - rewrite lookup_insert_ne, lookup_delete_ne by done. apply Hok.
Qed.

Lemma switch_ok_later now now' ss : now <= now' -> switch_ok now ss -> switch_ok now' ss.
Proof. intros Hl Hok i n Hi Hn. destruct (Hok i n Hi Hn) as (t & Ht & ?). exists t. split; [done|lia]. Qed.

(** The scheduler changes the pinned node of a server or port only when its strategy is
    least latency and it has no active session or connection; the new node is the best
    measured one, and it replaces a node only if that node has no valid latency, or is
    clearly slower and has been seen as the pinned node for at least three minutes.
    Nothing else than this pin changes, and the bookkeeping stays consistent.  So right
    after the scheduler starts, and in every refresh, which starts with empty
    bookkeeping, a pinned node with a valid latency is never replaced. *)
Theorem auto_switch_guarded (e : ping_env) (id selectorID loadBalance proxyOutbound sortBy : string)
    (active : Z) (now : gotime) (m : outboundManagerImpl) (ss : switch_state) :
  0 < now -> switch_ok now ss ->
  let cur := default ""%string (GetServerSelectedNode m selectorID) in
  let lat n := GetServerNodeLatency now m selectorID n sortBy in
  let best := GetBestNodeForServer (ap_getter e) (ap_order e) now m selectorID (trim_space proxyOutbound) sortBy in
  (forall l, lat cur = Some l -> l <= 1000) -> best.2 < 2 ^ 62 ->
  let r := maybeAutoSwitchNode e id selectorID loadBalance proxyOutbound sortBy active now m ss in
  switch_ok now r.2 /\
  (r.1 = m \/
   loadBalance = LoadBalanceLeastLatency /\ active = 0 /\
   r.1 = SetServerSelectedNode m selectorID best.1 /\ best.1 <> ""%string /\ best.1 <> cur /\ 0 < best.2 /\
   ss_observed r.2 !! id = Some best.1 /\ ss_lastSwitch r.2 !! id = Some now /\
   (cur = ""%string \/ lat cur = None \/
    exists l since, lat cur = Some l /\ clearly_faster l best.2 /\
      ss_observed ss !! id = Some cur /\ ss_lastSwitch ss !! id = Some since /\
      since + autoSwitchMinDwell <= now)).
Proof.
  intros Hn Hok cur lat best Hl Hb r. unfold r, maybeAutoSwitchNode.
  destruct (String.eqb_spec loadBalance LoadBalanceLeastLatency) as [->|]; cbn [negb]; [|by split; [|left]].
  fold best. destruct best as [bn bl]. cbn [fst snd] in *.
  destruct (String.eqb_spec bn "") as [->|Hbn]; [by split; [|left]|]. fold cur.
  pose proof (observe_ok now ss id cur Hn Hok) as Hok'.
  destruct (String.eqb_spec cur bn) as [->|Hcb]; [by split; [|left]|].
  destruct (Z.eqb_spec active 0) as [->|]; cbn [negb]; [|by split; [|left]]. fold (lat cur).
  destruct (shouldAutoSwitchNode cur (lat cur) bl (default 0 (ss_lastSwitch (observe id cur now ss) !! id)) now)
    eqn:Es; try (by split; [|left]).
  cbn [fst snd ss_observed ss_lastSwitch]. split; [by apply switch_ok_set|]. right.
  apply shouldAutoSwitchNode_spec in Es as [Hbl Hcase]; [|done|done].
  rewrite !lookup_insert_eq. split_and!; try done.
  destruct Hcase as [?|[?|(l & Hlc & [Hl0|[Hf Hd]])]]; [by left|by right; left|..].
  { exfalso. revert Hlc Hl0. unfold lat, GetServerNodeLatency. repeat case_match; try done.
    intros [= <-] ?. bool_prop. lia. }
  destruct (decide (cur = ""%string)) as [|Hcur]; [by left|]. right. right.
  unfold observe in Hd. destruct (String.eqb_spec (default ""%string (ss_observed ss !! id)) cur) as [E|E].
  - destruct (ss_observed ss !! id) as [o|] eqn:Eo; cbn in E; [|by subst]. subst o.
    destruct (Hok id cur Eo Hcur) as (t & Ht & Ht0). rewrite Ht in Hd. cbn in Hd.
    exists l, t. split_and!; try done. lia.
  - cbn [ss_lastSwitch] in Hd. rewrite (proj2 (String.eqb_neq cur "")), lookup_insert_eq in Hd by done. cbn in Hd.
    unfold autoSwitchMinDwell, minute, second in Hd. lia.
Qed.
End switching.

(** ** The queue of refreshes *)

(** [rf_seq] is [topologyRefreshSeq], [rf_signal] the channel of capacity one,
    [rf_running] the request the worker is serving and [rf_served] what it has served. *)
Record refresh_state := {
  rf_seq : Z;
  rf_signal : bool;
  rf_running : option Z;
  rf_lastProcessed : Z;
  rf_served : list Z;
}.

Definition new_refresh : refresh_state :=
  {| rf_seq := 0; rf_signal := false; rf_running := None; rf_lastProcessed := 0; rf_served := [] |}.

Definition TriggerAutoLatencyRefresh (s : refresh_state) : refresh_state :=
  {| rf_seq := u64 (rf_seq s + 1); rf_signal := true; rf_running := rf_running s;
     rf_lastProcessed := rf_lastProcessed s; rf_served := rf_served s |}.

(** The worker wakes up, from its ticker or from the signal, and reads the last request;
    [idle] says that there is no session and no connection through a proxy port. *)
Definition worker_wakes (idle from_signal : bool) (s : refresh_state) : refresh_state :=
  let signal := if from_signal then false else rf_signal s in
  let seq := rf_seq s in
  {| rf_seq := seq; rf_signal := signal;
     rf_running := if (seq =? 0) || (seq =? rf_lastProcessed s) || negb idle then None else Some seq;
     rf_lastProcessed := rf_lastProcessed s; rf_served := rf_served s |}.

(** [runAutoLatencyRefresh] returns. *)
Definition worker_done (seq : Z) (s : refresh_state) : refresh_state :=
  {| rf_seq := rf_seq s; rf_signal := rf_signal s; rf_running := None;
     rf_lastProcessed := seq; rf_served := rf_served s ++ [seq] |}.

Inductive refresh_step : refresh_state -> refresh_state -> Prop :=
| refresh_trigger s : refresh_step s (TriggerAutoLatencyRefresh s)
| refresh_ticker idle s : rf_running s = None -> refresh_step s (worker_wakes idle false s)
| refresh_signal idle s :
    rf_running s = None -> rf_signal s = true -> refresh_step s (worker_wakes idle true s)
| refresh_done seq s : rf_running s = Some seq -> refresh_step s (worker_done seq s).

(** What holds of every reachable state, with the number of requests made. *)
Record refresh_inv (s : refresh_state) : Prop := {
  ri_seq : 0 <= rf_lastProcessed s <= rf_seq s;
  ri_running : forall q, rf_running s = Some q -> rf_lastProcessed s < q <= rf_seq s;
  ri_served : Sorted Z.lt (rf_served s) /\ forall q, q ∈ rf_served s -> 0 < q <= rf_lastProcessed s;
}.

Lemma sorted_snoc (l : list Z) q : Sorted Z.lt l -> (forall x, x ∈ l -> x < q) -> Sorted Z.lt (l ++ [q]).
Proof.
  intros Hs Hq. apply StronglySorted_Sorted, StronglySorted_app_2.
  - intros x y Hx ->%list_elem_of_singleton. by apply Hq.
  - apply Sorted_StronglySorted; [intros a b c; lia|done].
  - repeat constructor.
Qed.

Lemma refresh_step_inv s s' : refresh_step s s' -> rf_seq s < 2 ^ 63 -> refresh_inv s -> refresh_inv s'.
Proof.
  intros Hstep Hb [Hs Hr [Hso Hse]]. destruct Hstep as [s|idle s Hrun|idle s Hrun Hsig|q s Hrun].
  - assert (u64 (rf_seq s + 1) = rf_seq s + 1) as E by (apply wrapU_small; lia).
    split; cbn; rewrite ?E; [lia| |done]. intros q Hq. apply Hr in Hq. lia.
  - split; cbn; [done| |done]. intros q. destruct (_ || _) eqn:E; [done|]. intros [= <-]. bool_prop. lia.
  - split; cbn; [done| |done]. intros q. destruct (_ || _) eqn:E; [done|]. intros [= <-]. bool_prop. lia.
  - destruct (Hr q Hrun). split; cbn; [lia|done|]. split.
    + apply sorted_snoc; [done|]. intros x Hx. apply Hse in Hx. lia.
    + intros x [Hx| ->%list_elem_of_singleton]%elem_of_app; [|lia]. apply Hse in Hx. lia.
Qed.

(** Steps that make a bounded number of requests. *)
Inductive refresh_run : refresh_state -> refresh_state -> Prop :=
| refresh_here s : refresh_run s s
| refresh_next s s1 s2 : refresh_run s s1 -> rf_seq s1 < 2 ^ 63 -> refresh_step s1 s2 -> refresh_run s s2.

Lemma refresh_run_inv s s' : refresh_run s s' -> refresh_inv s -> refresh_inv s'.
Proof. induction 1 as [|s s1 s2 Hr IH Hb Hstep]; [done|]. intros Hi. eapply refresh_step_inv; eauto. Qed.

(** No request for a refresh is lost and none is served twice, in any interleaving of
    requests, ticks and signals: requests are served in order, each at most once;
    a request that is not served yet is the last one or was made before it; and
    whenever the worker is free, one wake-up while nothing is connected, followed by
    the end of the refresh, serves the last request that was made.  While something is
    connected nothing is started and the request stays pending. *)
Theorem refresh_queue (s : refresh_state) :
  refresh_run new_refresh s ->
  Sorted Z.lt (rf_served s) /\ (forall q, q ∈ rf_served s -> 0 < q <= rf_seq s) /\
  (rf_running s = None -> 0 < rf_seq s ->
     forall from_signal, rf_lastProcessed s < rf_seq s ->
       rf_running (worker_wakes true from_signal s) = Some (rf_seq s) /\
       rf_lastProcessed (worker_done (rf_seq s) (worker_wakes true from_signal s)) = rf_seq s /\
       rf_running (worker_wakes false from_signal s) = None /\
       rf_lastProcessed (worker_wakes false from_signal s) < rf_seq (worker_wakes false from_signal s)) /\
  (rf_lastProcessed s = rf_seq s -> forall idle from_signal, rf_running (worker_wakes idle from_signal s) = None).
Proof.
  intros Hrun. assert (refresh_inv new_refresh) as Hnew.
  { split; cbn; [lia|done|]. split; [constructor|by intros q ?%elem_of_nil]. }
  destruct (refresh_run_inv _ _ Hrun Hnew) as [Hs Hr [Hso Hse]]. split; [done|]. split.
  { intros q Hq. apply Hse in Hq. lia. }
  split.
  - intros Hnone H0 fs Hlt. cbn. rewrite (proj2 (Z.eqb_neq (rf_seq s) 0)), (proj2 (Z.eqb_neq (rf_seq s) _)) by lia.
    done.
  - intros E idle fs. cbn. by rewrite E, Z.eqb_refl, orb_true_r.
Qed.

(** ** The slots of the probes *)

(** The state of one scan: targets not started, probes waiting for the global slot (the
    starting loop waits, so at most one), probes that run. *)
Record scan_slots := { sl_todo : nat; sl_waiting : bool; sl_running : nat }.

Definition local_capacity (targets : nat) : nat := Nat.min targets (Z.to_nat autoPingParallelism).

(** [held] is the number of global slots in use; a local slot is held by a waiting and by
    each running probe. *)
Definition acquire_local (cap : nat) (s : scan_slots) : option scan_slots :=
  if sl_waiting s then None else
  match sl_todo s with
  | O => None
  | S n =>
      if decide (sl_running s < cap)%nat then Some {| sl_todo := n; sl_waiting := true; sl_running := sl_running s |}
      else None
  end.

Definition acquire_global (held : Z) (s : scan_slots) : option (Z * scan_slots) :=
  if sl_waiting s && (held <? autoPingGlobalParallelism)
  then Some (held + 1, {| sl_todo := sl_todo s; sl_waiting := false; sl_running := S (sl_running s) |})
  else None.

Definition release_slots (held : Z) (s : scan_slots) : option (Z * scan_slots) :=
  match sl_running s with
  | O => None
  | S n => Some (held - 1, {| sl_todo := sl_todo s; sl_waiting := sl_waiting s; sl_running := n |})
  end.

Record slots := { sm_held : Z; sm_scans : list (nat * scan_slots) }.

Inductive sem_step : slots -> slots -> Prop :=
| sem_local i cap s s' g :
    sm_scans g !! i = Some (cap, s) -> acquire_local cap s = Some s' ->
    sem_step g {| sm_held := sm_held g; sm_scans := <[i := (cap, s')]> (sm_scans g) |}
| sem_global i cap s h s' g :
    sm_scans g !! i = Some (cap, s) -> acquire_global (sm_held g) s = Some (h, s') ->
    sem_step g {| sm_held := h; sm_scans := <[i := (cap, s')]> (sm_scans g) |}
| sem_release i cap s h s' g :
    sm_scans g !! i = Some (cap, s) -> release_slots (sm_held g) s = Some (h, s') ->
    sem_step g {| sm_held := h; sm_scans := <[i := (cap, s')]> (sm_scans g) |}.

Definition start_scans (targets : list nat) : slots :=
  {| sm_held := 0;
     sm_scans := (fun n => (local_capacity n, {| sl_todo := n; sl_waiting := false; sl_running := 0 |})) <$> targets |}.

Definition running_total (l : list (nat * scan_slots)) : Z :=
  foldr (fun s acc => Z.of_nat (sl_running s.2) + acc) 0 l.

(** Work left: a target not started counts three, a waiting one two, a running one one. *)
Definition work_left (l : list (nat * scan_slots)) : Z :=
  foldr (fun s acc => 3 * Z.of_nat (sl_todo s.2) + (if sl_waiting s.2 then 2 else 0) + Z.of_nat (sl_running s.2) + acc) 0 l.

Definition scan_ok (s : nat * scan_slots) : Prop :=
  (sl_running s.2 + (if sl_waiting s.2 then 1 else 0) <= s.1)%nat /\ (s.1 <= 4)%nat /\
  (0 < sl_todo s.2 -> 0 < s.1)%nat.

Record slots_ok (g : slots) : Prop := {
  so_held : sm_held g = running_total (sm_scans g);
  so_bound : 0 <= sm_held g <= autoPingGlobalParallelism;
  so_scans : Forall scan_ok (sm_scans g);
}.

Lemma total_insert (f : nat * scan_slots -> Z) l i x y : l !! i = Some x ->
  foldr (fun s acc => f s + acc) 0 (<[i := y]> l) = foldr (fun s acc => f s + acc) 0 l - f x + f y.
Proof.
  revert i. induction l as [|z l IH]; intros [|i] Hi; [done|done|..].
  - injection Hi as ->. cbn. lia.
  - cbn in Hi |- *. rewrite IH by done. lia.
Qed.

Definition work_of (s : nat * scan_slots) : Z :=
  3 * Z.of_nat (sl_todo s.2) + (if sl_waiting s.2 then 2 else 0) + Z.of_nat (sl_running s.2).

Lemma sem_step_facts g g' : sem_step g g' -> slots_ok g -> slots_ok g' /\ work_left (sm_scans g') < work_left (sm_scans g).
Proof.
  intros Hstep [Hh Hb Hs].
  assert (forall i cap s s', sm_scans g !! i = Some (cap, s) ->
    running_total (<[i := (cap, s')]> (sm_scans g)) =
      running_total (sm_scans g) - Z.of_nat (sl_running s) + Z.of_nat (sl_running s') /\
    work_left (<[i := (cap, s')]> (sm_scans g)) =
      work_left (sm_scans g) - work_of (cap, s) + work_of (cap, s') /\ scan_ok (cap, s)) as Hins.
  { intros i cap s s' Hi. split; [|split].
    - exact (total_insert (fun s => Z.of_nat (sl_running s.2)) _ _ _ _ Hi).
    - exact (total_insert work_of _ _ _ _ Hi).
    - by eapply Forall_lookup_1 in Hs. }
  destruct Hstep as [i cap s s' g Hi Ha|i cap s h s' g Hi Ha|i cap s h s' g Hi Ha];
    destruct (Hins i cap s s' Hi) as (Er & Ew & (Ho1 & Ho2 & Ho3)); cbn [fst snd] in *; revert Ha.
  - unfold acquire_local. destruct (sl_waiting s) eqn:Ewt; [done|]. destruct (sl_todo s) as [|n] eqn:Et; [done|].
    destruct (decide _); [|done]. intros [= <-]. unfold work_of in Ew. cbn in Er, Ew. rewrite Ewt, Et in Ew.
    cbn [sm_held sm_scans]. split; [|lia]. split; cbn [sm_held sm_scans]; [lia|done|].
    apply Forall_insert; [done|]. repeat split; cbn; lia.
  - unfold acquire_global. destruct (sl_waiting s) eqn:Ewt; [|done].
    destruct (Z.ltb_spec (sm_held g) autoPingGlobalParallelism); [|done]. intros [= <- <-].
    unfold work_of in Ew. cbn in Er, Ew. rewrite Ewt in Ew. cbn [sm_held sm_scans].
    split; [|lia]. split; cbn [sm_held sm_scans]; [lia|lia|].
    apply Forall_insert; [done|]. repeat split; cbn; try lia.
  - unfold release_slots. destruct (sl_running s) as [|n] eqn:En; [done|]. intros [= <- <-].
    unfold work_of in Ew. cbn in Er, Ew. rewrite En in Ew. cbn [sm_held sm_scans].
    split; [|lia]. split; cbn [sm_held sm_scans]; [lia| |].
    + assert (0 <= running_total (<[i := (cap, {| sl_todo := sl_todo s; sl_waiting := sl_waiting s; sl_running := n |})]>
        (sm_scans g))); [|lia].
      clear. unfold running_total. induction (<[i := _]> (sm_scans g)) as [|x l IH]; cbn [foldr]; lia.
    + apply Forall_insert; [done|]. repeat split; cbn; try lia.
Qed.

Lemma start_ok targets : slots_ok (start_scans targets).
Proof.
  split; cbn [start_scans sm_held sm_scans].
  - unfold running_total. induction targets as [|n l IH]; cbn; [done|]. exact IH.
  - unfold autoPingGlobalParallelism. lia.
  - apply Forall_fmap, Forall_forall. intros n _. unfold scan_ok, local_capacity, autoPingParallelism. cbn. lia.
Qed.

(** However the scans of a tick interleave, at most four probes of a scan and eight of all
    scans run at the same time; no reachable state is stuck before every target has
    been probed and every slot is free again; and every step decreases a measure, so
    the tick ends after at most three steps per target. *)
Theorem probe_slots (targets : list nat) (g : slots) :
  rtc sem_step (start_scans targets) g ->
  0 <= sm_held g <= autoPingGlobalParallelism /\
  (forall cap s, (cap, s) ∈ sm_scans g -> Z.of_nat (sl_running s) <= autoPingParallelism) /\
  ((forall g', ~ sem_step g g') ->
     sm_held g = 0 /\ forall cap s, (cap, s) ∈ sm_scans g -> sl_todo s = O /\ sl_waiting s = false) /\
  (forall g', sem_step g g' -> work_left (sm_scans g') < work_left (sm_scans g)).
Proof.
  intros Hr. assert (slots_ok g) as Hok.
  { pose proof (start_ok targets) as Hs. induction Hr as [|g g1 g2 Hstep Hr IH]; [done|].
    apply IH. by apply (sem_step_facts g g1). }
  pose proof Hok as [Hh Hb Hs]. split; [done|]. split; [|split].
  - intros cap s Hin. rewrite Forall_forall in Hs. destruct (Hs _ Hin) as (H1 & H2 & _). cbn in *.
    unfold autoPingParallelism. destruct (sl_waiting s); lia.
  - intros Hstuck.
    assert (forall cap s, (cap, s) ∈ sm_scans g -> sl_running s = O) as Hrun.
    { intros cap s Hin. destruct (sl_running s) as [|n] eqn:E; [done|]. exfalso.
      apply list_elem_of_lookup_1 in Hin as [i Hi]. eapply Hstuck, sem_release; [exact Hi|].
      unfold release_slots. by rewrite E. }
    assert (sm_held g = 0) as H0.
    { rewrite Hh. clear -Hrun. unfold running_total. induction (sm_scans g) as [|[cap s] l IH]; cbn [foldr]; [done|].
      rewrite IH by (intros c t Hin; eapply Hrun; by right). cbn [snd]. by rewrite (Hrun cap s) by left. }
    assert (forall cap s, (cap, s) ∈ sm_scans g -> sl_waiting s = false) as Hwait.
    { intros cap s Hin. destruct (sl_waiting s) eqn:E; [|done]. exfalso.
      apply list_elem_of_lookup_1 in Hin as [i Hi]. eapply Hstuck, sem_global; [exact Hi|].
      unfold acquire_global. by rewrite E, H0. }
    split; [done|]. intros cap s Hin. split; [|by eapply Hwait].
    destruct (sl_todo s) as [|n] eqn:E; [done|]. exfalso. rewrite Forall_forall in Hs.
    destruct (Hs _ Hin) as (_ & _ & Hc). cbn in Hc.
    pose proof (Hwait cap s Hin) as Hw. pose proof (Hrun cap s Hin) as Hz.
    apply list_elem_of_lookup_1 in Hin as [i Hi]. eapply Hstuck, sem_local; [exact Hi|].
    unfold acquire_local. rewrite Hw, E, Hz. rewrite decide_True by lia. done.
  - intros g' Hstep. by apply sem_step_facts.
Qed.

(** ** The daily scan happens *)

Section daily_runs.
Context `{Unicode} `{Location}.

Lemma measure_same e sel target sort ov m n : same_tables m (measure_node e sel target sort ov m n).
Proof.
  unfold measure_node. set (m1 := SetServerNodeLatency _ _ _ _ _ _ _).
  eapply same_tables_trans; [|apply record_same].
  unfold m1, SetServerNodeLatency, setServerNodeLatencyAt. by destruct (_ || _).
Qed.

Lemma measures_same e sel target sort ov l m : same_tables m (fold_left (measure_node e sel target sort ov) l m).
Proof.
  revert m. induction l as [|n l IH]; intros m; [done|]. cbn [fold_left].
  eapply same_tables_trans; [apply measure_same|apply IH].
Qed.

Lemma scan_same e now st key id target sort top ov names full :
  same_tables (ps_om st) (ps_om (scan_nodes e now st key id target sort top ov names full).1).
Proof.
  unfold scan_nodes. destruct (_ =? 0); [done|].
  assert (forall st' targets fb, ps_om st' = ps_om st ->
    same_tables (ps_om st) (ps_om
      (if zlen (if fb : bool then dedupeNodeNames names else targets) =? 0 then (st', no_scan key) else
       (with_om (fold_left (measure_node e id target sort ov)
          (take (ap_started e id) (if fb : bool then dedupeNodeNames names else targets)) (ps_om st')) st',
        {| ar_key := key; ar_didFullScan := full || fb;
           ar_scannedNodes := zlen (if fb : bool then dedupeNodeNames names else targets) |})).1)) as Hk.
  { intros st' targets fb <-. destruct (_ =? 0); [done|]. apply measures_same. }
  destruct full; [exact (Hk st (dedupeNodeNames names) false eq_refl)|].
  destruct (selectAutoPingTargetsForSelector _ _ _ _ _ _ _) as [[st' targets] fb] eqn:Es. apply Hk.
  revert Es. unfold selectAutoPingTargetsForSelector. destruct (_ <=? 1); [by intros [= <- _ _]|].
  destruct (take_candidates _ _ _); [|by intros [= <- _ _]].
  destruct (nextAutoPingBootstrapTargets _ _ _ _). by intros [= <- _ _].
Qed.

Lemma ping_server_same e now st sc full : same_tables (ps_om st) (ps_om (pingAllNodesForServer e now st sc full).1).
Proof.
  unfold pingAllNodesForServer. destruct (_ || _); [done|]. destruct (0 <? _); [done|].
  destruct (negb _); [done|]. apply scan_same.
Qed.

Lemma getServerNodeNames_same m m' order sc : same_tables m m' ->
  getServerNodeNames m' order sc = getServerNodeNames m order sc.
Proof.
  intros [_ Eo Er _ _].
  assert (forall n, (GetOutbound m' n).2 = (GetOutbound m n).2) as Hg.
  { intros n. unfold GetOutbound. rewrite Eo. destruct (om_outbounds m !! n) as [o|]; [|done]. rewrite Er.
    by destruct (Clone (om_runtimes m) o) as [[? ?] ?]. }
  assert (forall l, filterAutoPingNodeNames m' l = filterAutoPingNodeNames m l) as Hf.
  { intros l. unfold filterAutoPingNodeNames. apply filter_ext. intros n. by rewrite Hg. }
  unfold getServerNodeNames, GetOutboundsByGroup, ListOutbounds. by rewrite Eo, Hf.
Qed.

(** The scan of a due server happens on the same nodes as those of the start of the tick. *)
Lemma ping_servers_elem t fs l acc sc : sc ∈ l ->
  exists st, same_tables (ps_om acc.1) (ps_om st) /\
    (pingAllNodesForServer (tk_env t) (tk_now t) st sc
       (bool_decide (is_Some (shouldRunScheduledFullScan sc (tk_now t) (default 0 (fs !! sc_ID sc)))))).2
    ∈ (fold_left (ping_due_server t fs) l acc).2.
Proof.
  assert (forall l acc r, r ∈ acc.2 -> r ∈ (fold_left (ping_due_server t fs) l acc).2) as Hkeep.
  { clear. induction l as [|sc l IH]; intros acc r Hr; [done|]. apply IH. unfold ping_due_server.
    destruct (pingAllNodesForServer _ _ _ _ _). cbn [snd]. rewrite elem_of_app. by left. }
  revert acc. induction l as [|x l IH]; intros acc Hin; [by apply elem_of_nil in Hin|]. cbn [fold_left].
  set (acc' := ping_due_server t fs acc x).
  assert (same_tables (ps_om acc.1) (ps_om acc'.1) /\ acc'.2 = acc.2 ++ [(pingAllNodesForServer (tk_env t) (tk_now t) acc.1 x
     (bool_decide (is_Some (shouldRunScheduledFullScan x (tk_now t) (default 0 (fs !! sc_ID x)))))).2]) as [Hs E].
  { unfold acc', ping_due_server. set (due := bool_decide _).
    pose proof (ping_server_same (tk_env t) (tk_now t) acc.1 x due).
    by destruct (pingAllNodesForServer (tk_env t) (tk_now t) acc.1 x due). }
  apply elem_of_cons in Hin as [->|Hin].
  - exists acc.1. split; [done|]. apply Hkeep. rewrite E, elem_of_app. right. by left.
  - destruct (IH acc' Hin) as (st & Hst & Hr). exists st. split; [by eapply same_tables_trans|done].
Qed.

Lemma ping_ports_keep t fs l acc r : r ∈ acc.2 -> r ∈ (fold_left (ping_due_port t fs) l acc).2.
Proof.
  revert acc. induction l as [|sc l IH]; intros acc Hr; [done|]. apply IH. unfold ping_due_port.
  destruct (pingAllNodesForProxyPort _ _ _ _ _). cbn [snd]. rewrite elem_of_app. by left.
Qed.

(** The daily scan is not missed: in a tick at or after the configured hour, a server that
    is due, idle, resolves and has candidates, and that was not scanned completely since
    the hour, is scanned completely. *)
Theorem daily_full_scan_runs (sd : scheduler) (st : ping_state) (t : tick) (sc : ServerConfig) (h m : Z) :
  let e := tk_env t in
  let last := default 0 (sd_serverLastFullScan sd !! sc_ID sc) in
  let hour := day_at (local_day (tk_now t)) h m in
  sc ∈ tk_servers t -> IsAutoPingEnabled sc = true ->
  interval_due (effectiveServerAutoPingIntervalMinutes (ap_config e) sc) (sd_serverLastRun sd !! sc_ID sc)
    (tk_now t) = true ->
  GetAutoPingFullScanMode sc = AutoPingFullScanModeDaily ->
  configTimeOnly (GetAutoPingFullScanTime sc) = Some (h, m) ->
  hour <= tk_now t -> last = 0 \/ last < hour ->
  GetActiveSessionsForServer e (sc_ID sc) = 0 -> ap_resolves e (GetTargetAddr sc) = true ->
  dedupeNodeNames (getServerNodeNames (ps_om st) (ap_order e) sc) <> [] ->
  full_scan_of (sc_ID sc) (auto_ping_tick sd st t).1.2.
Proof.
  intros e last hr Hin Hen Hdue Hmode Hclock Hnow Hlast Hidle Hres Hnodes.
  assert (sc ∈ dueServers (ap_config e) (tk_now t) (sd_serverLastRun sd) (tk_servers t)) as Hsc.
  { apply list_elem_of_In, filter_In. split; [by apply list_elem_of_In|]. by rewrite Hen, Hdue. }
  assert (is_Some (shouldRunScheduledFullScan sc (tk_now t) last)) as Hfull.
  { unfold shouldRunScheduledFullScan, full_scan_reason. rewrite Hmode, Hclock.
    rewrite (proj2 (String.eqb_neq AutoPingFullScanModeDaily AutoPingFullScanModeDisabled)), String.eqb_refl by done.
    fold hr. rewrite (proj2 (Z.ltb_ge _ _)) by done.
    assert (negb (is_zero_time last) && negb (last <? hr) = false) as ->; [|by eexists].
    unfold is_zero_time. destruct Hlast as [->|Hl]; [done|]. by rewrite (proj2 (Z.ltb_lt _ _)), andb_false_r by done. }
  unfold auto_ping_tick. destruct (passive_pass t (sd_passiveLastRun sd)) as [pl pr]. fold e.
  set (servers := dueServers _ _ _ _) in *. set (ports := duePorts _ _ _ _).
  destruct (ping_servers_elem t (sd_serverLastFullScan sd) servers (st, []) sc Hsc) as (st1 & Hst & Hr).
  rewrite bool_decide_true in Hr by done. apply (ping_ports_keep t (sd_portLastFullScan sd) ports) in Hr.
  assert ((zlen servers =? 0) = false) as ->.
  { apply Z.eqb_neq. intros E%zlen_nil_inv. rewrite E in Hsc. by apply elem_of_nil in Hsc. }
  cbn [andb]. destruct (fold_left (ping_due_port _ _) ports _) as [st2 results]. cbn [snd] in Hr.
  destruct (fold_left (note_result _) results _) as [ss ps].
  destruct (fold_left (finish_server _ _) servers _) as [[st3 sw] recs].
  destruct (fold_left (finish_port _ _) ports _) as [st4 pw]. cbn [fst snd].
  eexists. split; [exact Hr|]. fold e. unfold pingAllNodesForServer. cbn [fst] in Hst.
  destruct (_ || _) eqn:Ed.
  { destruct Hnodes. unfold getServerNodeNames. by rewrite Ed. }
  rewrite (proj2 (Z.ltb_ge _ _)), Hres by lia. cbn [negb].
  edestruct scan_nodes_result as (Hk & Hf & _). split; [exact Hk|]. apply Hf. split; [done|].
  by rewrite (getServerNodeNames_same _ _ _ _ Hst).
Qed.
End daily_runs.

(** ** Witnesses *)

(** The server "lobby" over the group "asia" with the given full scan. *)
Definition scan_server (mode : string) : ServerConfig :=
  {| sc_ID := "lobby"; sc_Name := "lobby"; sc_Target := "play.example"; sc_Port := 19132;
     sc_ListenAddr := "0.0.0.0:19132"; sc_Protocol := "raknet"; sc_Enabled := true;
     sc_Hidden := false; sc_LegacyDisabled := None; sc_UDPSpeeder := None;
     sc_SendRealIP := false; sc_ResolveInterval := 0; sc_IdleTimeout := 0; sc_BufferSize := 0;
     sc_UDPSocketBufferSize := 0; sc_DisabledMessage := ""; sc_CustomMOTD := "";
     sc_ProxyMode := "raw_udp"; sc_ACLServerID := ""; sc_RawUDPKickStrategy := "";
     sc_XboxAuthEnabled := false; sc_XboxTokenPath := ""; sc_ProxyOutbound := "@asia";
     sc_ShowRealLatency := false; sc_LoadBalance := ""; sc_LoadBalanceSort := "";
     sc_ProtocolVersion := 0; sc_LatencyMode := ""; sc_AutoPingEnabled := true;
     sc_AutoPingIntervalMinutes := 5; sc_AutoPingTopCandidates := 1;
     sc_AutoPingFullScanMode := mode; sc_AutoPingFullScanTime := "04:00";
     sc_AutoPingFullScanIntervalHours := 1; sc_AutoSelectBlockedNodes := ∅;
     sc_resolvedIP := ""; sc_lastResolved := 0 |}.

(** "hk" answers in 60 ms and "jp" in 35. *)
Definition scan_env (at_ : gotime) : ping_env :=
  {| ap_config := None; ap_getter := None; ap_order := three_order; ap_outbounds := None; ap_sessions := [];
     ap_connections := fun _ => 0; ap_resolves := fun _ => true;
     ap_probe := fun p => match p with
       | pingServerThroughNode _ n _ => if String.eqb n "hk" then 60 else 35
       | _ => -1
       end;
     ap_time := fun _ _ => at_; ap_started := fun _ => 10%nat |}.

Definition scan_tick (mode : string) (now : gotime) : tick :=
  {| tk_now := now; tk_servers := [scan_server mode]; tk_ports := []; tk_cached := fun _ => None;
     tk_env := scan_env now; tk_completedAt := now + second |}.

Definition scan_state : ping_state := {| ps_om := three_nodes; ps_bootstrapPos := ∅; ps_serverLastRun := ∅ |}.

#[local] Existing Instance ascii_unicode.
#[local] Existing Instance UTC.

Definition two_days (mode : string) : list tick :=
  [scan_tick mode (utc_at 100 5 0); scan_tick mode (utc_at 100 6 0); scan_tick mode (utc_at 101 4 30)].

Example two_days_scans :
  map (fun x => map ar_didFullScan x.2) (run_ticks new_scheduler scan_state (two_days "daily"))
  = [[true]; [false]; [true]].
Proof. vm_compute. reflexivity. Qed.

Definition full_lobby : autoPingRunResult :=
  {| ar_key := "server:lobby"; ar_didFullScan := true; ar_scannedNodes := 2 |}.

(** The results of the tick number [i] of the two days. *)
Definition two_days_results (i : nat) : list autoPingRunResult :=
  match run_ticks new_scheduler scan_state (two_days "daily") !! i with Some x => x.2 | None => [] end.


Lemma daily_full_scan_runs_witness :
  full_scan_of "lobby" (auto_ping_tick new_scheduler scan_state (scan_tick "daily" (utc_at 100 5 0))).1.2.
Proof.
  apply (daily_full_scan_runs new_scheduler scan_state (scan_tick "daily" (utc_at 100 5 0)) (scan_server "daily") 4 0);
    try (by vm_compute).
  - left.
  - by left.
Defined.

Example interval_ticks_scan :
  map (fun x => map ar_scannedNodes x.2) (run_ticks new_scheduler scan_state (two_days "interval")) = [[1]; [1]; [1]].
Proof. vm_compute. reflexivity. Qed.

Lemma interval_full_scan_never_runs_witness :
  Forall (fun x => Forall (fun r => ar_didFullScan r = false) x.2)
    (run_ticks new_scheduler scan_state (two_days "interval")).
Proof.
  apply Forall_forall. intros [t rs] Hin. apply Forall_forall. intros r Hr.
  apply (interval_full_scan_never_runs scan_state (two_days "interval") t rs r); [|done|done].
  intros t' Ht. assert (tk_servers t' = [scan_server "interval"] /\ tk_ports t' = []) as [Es Ep]
    by (unfold two_days in Ht; rewrite !elem_of_cons, elem_of_nil in Ht; by destruct Ht as [->|[->|[->|[]]]]).
  rewrite Es, Ep. split; [|by intros pc ?%elem_of_nil].
  intros sc ->%list_elem_of_singleton. by vm_compute.
Defined.

Lemma full_scan_spec_witness :
  GetServerNodeLatency hour (ps_om (pingAllNodesForServer (scan_env hour) hour scan_state (scan_server "daily") true).1)
    "lobby" "hk" "udp" = Some 60.
Proof.
  pose proof (full_scan_spec (scan_env hour) hour scan_state (scan_server "daily")) as [Hs _].
  - by vm_compute.
  - vm_compute. lia.
  - done.
  - destruct Hs as (_ & _ & Hl & _); [by vm_compute|by vm_compute|].
    etrans; [apply (Hl hour "hk"%string)|by vm_compute].
    apply (bool_decide_eq_true_1 _). by vm_compute.
Defined.

Definition pinned_hk : outboundManagerImpl := SetServerSelectedNode measured_nodes "lobby" "hk".

(** "hk" has been seen for three minutes. *)
Definition seen_hk : switch_state :=
  {| ss_lastSwitch := {["lobby"%string := hour]}; ss_observed := {["lobby" := "hk"]}%string |}.

Lemma auto_switch_guarded_witness :
  let r := maybeAutoSwitchServerNode (scan_env hour) (scan_server "") (hour + autoSwitchMinDwell) pinned_hk seen_hk in
  GetServerSelectedNode r.1 "lobby" = Some "jp"%string /\ switch_ok (hour + autoSwitchMinDwell) r.2.
Proof.
  intros r. split; [vm_compute; reflexivity|].
  apply (auto_switch_guarded (scan_env hour) "lobby" "lobby" LoadBalanceLeastLatency "@asia" "udp" 0
    (hour + autoSwitchMinDwell) pinned_hk seen_hk).
  - by vm_compute.
  - intros id n. unfold seen_hk. cbn [ss_observed ss_lastSwitch]. intros [<- <-]%lookup_singleton_Some _.
    exists hour. split; [by rewrite lookup_singleton_eq|by vm_compute].
  - intros l Hl. vm_compute in Hl. injection Hl as <-. lia.
  - by vm_compute.
Defined.

Lemma refresh_queue_witness :
  let s := TriggerAutoLatencyRefresh (TriggerAutoLatencyRefresh new_refresh) in
  rf_running (worker_wakes true true s) = Some 2.
Proof.
  intros s. apply (refresh_queue s); [|done|vm_compute; reflexivity|vm_compute; reflexivity].
  apply (refresh_next _ (TriggerAutoLatencyRefresh new_refresh)); [|vm_compute; reflexivity|constructor].
  apply (refresh_next _ new_refresh); [constructor|vm_compute; reflexivity|constructor].
Defined.

Lemma probe_slots_witness : 0 <= sm_held (start_scans [3%nat; 7%nat]) <= 8.
Proof. apply (probe_slots [3%nat; 7%nat] (start_scans [3%nat; 7%nat])). apply rtc_refl. Defined.
