(* ===== verification/Subscription.v ===== *)
(** * Subscription updates: [internal/subscription/service.go] and [scheduler.go]

    [UpdateSubscription] fetches a subscription, reads its nodes ([SubLinks]), merges them
    with those of the node file ([NodeFile]) by source key, replaces the nodes of the
    subscription in the file and brings the table of the outbound manager
    ([OutboundManager], [Dial]) to the same nodes.  The scheduler does so when a
    subscription ([SubConfig]) is due.

    The node file and the manager share the runtimes of the nodes: the heap is the one of
    the manager.  A request is a parameter [http] (the transport uses the dialer of a
    node or none), and so is the result of creating that dialer.  The service always has
    a manager.  Orders of iteration over maps are arguments. *)

From Stdlib Require Import Strings.Ascii Strings.String.
From stdpp Require Import pretty.
From S2P Require Import Prelude GoBytes GoString Config NetIP NetURL Outbound NodeFile SubLinks SubConfig.
From S2P Require Import OutboundManager Dial AutoPing.

(** ** The header [Subscription-Userinfo] *)

Section header.
Context `{Unicode}.

Definition one_of_chars (cutset : list ascii) (a : ascii) : bool := existsb (Ascii.eqb a) cutset.

(** [strings.Trim] with a set of characters below 128. *)
Fixpoint trim_chars_left (cutset : list ascii) (l : list ascii) : list ascii :=
  match l with
  | [] => []
  | a :: rest => if one_of_chars cutset a then trim_chars_left cutset rest else l
  end.
Definition trim_chars (cutset : list ascii) (s : string) : string :=
  string_of_list_ascii (rev (trim_chars_left cutset (rev (trim_chars_left cutset (list_ascii_of_string s))))).

(** [strings.FieldsFunc], the empty fields included. *)
Fixpoint split_any (seps : list ascii) (s : string) : list string :=
  match s with
  | EmptyString => [""%string]
  | String a rest =>
      if one_of_chars seps a then ""%string :: split_any seps rest
      else match split_any seps rest with
           | piece :: pieces => String a piece :: pieces
           | [] => [String a ""]
           end
  end.

Record userinfo := { ui_upload : Z; ui_download : Z; ui_total : Z; ui_expire : Z }.

Definition userinfo_field (info : userinfo) (field : string) : userinfo :=
  match cut "=" (trim_space field) with
  | None => info
  | Some (key, rawValue) =>
      let '(v, ok) := ParseInt (trim_chars ["034"%char; "'"%char] (trim_space rawValue)) in
      if negb ok || (v <? 0) then info else
      let k := to_lower (trim_space key) in
      if String.eqb k "upload" then
        {| ui_upload := v; ui_download := ui_download info; ui_total := ui_total info; ui_expire := ui_expire info |}
      else if String.eqb k "download" then
        {| ui_upload := ui_upload info; ui_download := v; ui_total := ui_total info; ui_expire := ui_expire info |}
      else if String.eqb k "total" then
        {| ui_upload := ui_upload info; ui_download := ui_download info; ui_total := v; ui_expire := ui_expire info |}
      else if existsb (String.eqb k) ["expire"; "expires"; "expiration"]%string then
        {| ui_upload := ui_upload info; ui_download := ui_download info; ui_total := ui_total info; ui_expire := v |}
      else info
  end.

(** [time.Unix]; the zero time is 0. *)
Definition time_Unix (seconds : Z) : gotime := unix_epoch + seconds * second.

Definition parseSubscriptionUserInfoHeader (value : string) : Z * Z * Z * gotime :=
  let value := trim_space value in
  if String.eqb value "" then (0, 0, 0, 0) else
  let fields := split_any [";"; "&"; "010"; "013"]%char value in
  let info := fold_left userinfo_field fields {| ui_upload := 0; ui_download := 0; ui_total := 0; ui_expire := 0 |} in
  let expireSeconds := if 1000000000000 <? ui_expire info then Z.quot (ui_expire info) 1000 else ui_expire info in
  (ui_upload info, ui_download info, ui_total info, if expireSeconds <=? 0 then 0 else time_Unix expireSeconds).

(** ** Names *)

Definition numbered (base : string) (i : Z) : string := (base ++ String " " (pretty i))%string.

(** The loop over the numbers; [None] when the fuel is short. *)
Fixpoint first_free (fuel : nat) (base : string) (i : Z) (used : gset string) : option string :=
  match fuel with
  | O => None
  | S fuel =>
      let candidate := numbered base i in
      if decide (candidate ∈ used) then first_free fuel base (i + 1) used else Some candidate
  end.

Definition base_name (baseName subscriptionName : string) : string :=
  let base := trim_space baseName in
  let base := if String.eqb base "" then trim_space subscriptionName else base in
  if String.eqb base "" then "subscription-node" else base.

Definition uniqueOutboundName (baseName subscriptionName : string) (used : gset string) : option string :=
  let base := base_name baseName subscriptionName in
  if negb (bool_decide (base ∈ used)) then Some base else
  let candidate := (base ++ " [" ++ subscriptionName ++ "]")%string in
  if negb (String.eqb subscriptionName "") && negb (bool_decide (candidate ∈ used)) then Some candidate
  else first_free (S (size used)) base 2 used.
End header.

(** ** Merging *)

Definition preparedNode : Type := ProxyOutbound * string.

Section merge.
Context `{Unicode}.

(** The fields of a node set from its subscription. *)
Definition in_subscription (sub : ProxySubscription) (group sourceKey : string) (p : ProxyOutbound) : ProxyOutbound :=
  {| Name := Name p; Type_ := Type_ p; Server := Server p; Port := Port p; Enabled := true;
     Group := group; SubscriptionID := sb_ID sub; SubscriptionName := sb_Name sub;
     SubscriptionNodeID := sourceKey; Username := Username p; Method := Method p;
     Password := Password p; UUID := UUID p; AlterID := AlterID p; Security := Security p;
     Flow := Flow p; Obfs := Obfs p; ObfsPassword := ObfsPassword p; PortHopping := PortHopping p;
     HopInterval := HopInterval p; UpMbps := UpMbps p; DownMbps := DownMbps p; ALPN := ALPN p;
     CertFingerprint := CertFingerprint p; DisableMTU := DisableMTU p;
     IdleSessionCheckInterval := IdleSessionCheckInterval p; IdleSessionTimeout := IdleSessionTimeout p;
     MinIdleSession := MinIdleSession p; TLS := TLS p; SNI := SNI p; Insecure := Insecure p;
     Fingerprint := Fingerprint p; Reality := Reality p; RealityPublicKey := RealityPublicKey p;
     RealityShortID := RealityShortID p; Network := Network p; WSPath := WSPath p; WSHost := WSHost p;
     XHTTPMode := XHTTPMode p; GRPCServiceName := GRPCServiceName p; GRPCAuthority := GRPCAuthority p;
     TCPLatencyMs := TCPLatencyMs p; HTTPLatencyMs := HTTPLatencyMs p; UDPAvailable := UDPAvailable p;
     UDPLatencyMs := UDPLatencyMs p; AutoSelectBlocked := AutoSelectBlocked p;
     AutoSelectBlockReason := AutoSelectBlockReason p;
     AutoSelectBlockExpiresAt := AutoSelectBlockExpiresAt p; runtime := runtime p |}.

(** A node under the name given, with the measurements of [previous]. *)
Definition carry_over (name : string) (previous p : ProxyOutbound) : ProxyOutbound :=
  {| Name := name; Type_ := Type_ p; Server := Server p; Port := Port p; Enabled := Enabled p;
     Group := Group p; SubscriptionID := SubscriptionID p; SubscriptionName := SubscriptionName p;
     SubscriptionNodeID := SubscriptionNodeID p; Username := Username p; Method := Method p;
     Password := Password p; UUID := UUID p; AlterID := AlterID p; Security := Security p;
     Flow := Flow p; Obfs := Obfs p; ObfsPassword := ObfsPassword p; PortHopping := PortHopping p;
     HopInterval := HopInterval p; UpMbps := UpMbps p; DownMbps := DownMbps p; ALPN := ALPN p;
     CertFingerprint := CertFingerprint p; DisableMTU := DisableMTU p;
     IdleSessionCheckInterval := IdleSessionCheckInterval p; IdleSessionTimeout := IdleSessionTimeout p;
     MinIdleSession := MinIdleSession p; TLS := TLS p; SNI := SNI p; Insecure := Insecure p;
     Fingerprint := Fingerprint p; Reality := Reality p; RealityPublicKey := RealityPublicKey p;
     RealityShortID := RealityShortID p; Network := Network p; WSPath := WSPath p; WSHost := WSHost p;
     XHTTPMode := XHTTPMode p; GRPCServiceName := GRPCServiceName p; GRPCAuthority := GRPCAuthority p;
     TCPLatencyMs := TCPLatencyMs previous; HTTPLatencyMs := HTTPLatencyMs previous;
     UDPAvailable := match UDPAvailable previous with Some b => Some b | None => UDPAvailable p end;
     UDPLatencyMs := UDPLatencyMs previous; AutoSelectBlocked := AutoSelectBlocked p;
     AutoSelectBlockReason := AutoSelectBlockReason p;
     AutoSelectBlockExpiresAt := AutoSelectBlockExpiresAt p; runtime := runtime p |}.

Definition rename (name : string) (p : ProxyOutbound) : ProxyOutbound :=
  {| Name := name; Type_ := Type_ p; Server := Server p; Port := Port p; Enabled := Enabled p;
     Group := Group p; SubscriptionID := SubscriptionID p; SubscriptionName := SubscriptionName p;
     SubscriptionNodeID := SubscriptionNodeID p; Username := Username p; Method := Method p;
     Password := Password p; UUID := UUID p; AlterID := AlterID p; Security := Security p;
     Flow := Flow p; Obfs := Obfs p; ObfsPassword := ObfsPassword p; PortHopping := PortHopping p;
     HopInterval := HopInterval p; UpMbps := UpMbps p; DownMbps := DownMbps p; ALPN := ALPN p;
     CertFingerprint := CertFingerprint p; DisableMTU := DisableMTU p;
     IdleSessionCheckInterval := IdleSessionCheckInterval p; IdleSessionTimeout := IdleSessionTimeout p;
     MinIdleSession := MinIdleSession p; TLS := TLS p; SNI := SNI p; Insecure := Insecure p;
     Fingerprint := Fingerprint p; Reality := Reality p; RealityPublicKey := RealityPublicKey p;
     RealityShortID := RealityShortID p; Network := Network p; WSPath := WSPath p; WSHost := WSHost p;
     XHTTPMode := XHTTPMode p; GRPCServiceName := GRPCServiceName p; GRPCAuthority := GRPCAuthority p;
     TCPLatencyMs := TCPLatencyMs p; HTTPLatencyMs := HTTPLatencyMs p; UDPAvailable := UDPAvailable p;
     UDPLatencyMs := UDPLatencyMs p; AutoSelectBlocked := AutoSelectBlocked p;
     AutoSelectBlockReason := AutoSelectBlockReason p;
     AutoSelectBlockExpiresAt := AutoSelectBlockExpiresAt p; runtime := runtime p |}.

Definition effectiveGroup (sub : ProxySubscription) : string :=
  let group := trim_space (sb_Group sub) in
  if String.eqb group "" then trim_space (sb_Name sub) else group.

(** [existingBySource]: the last node of a source key. *)
Definition by_source (existing : list ProxyOutbound) : gmap string ProxyOutbound :=
  fold_left (fun m o => if String.eqb (SubscriptionNodeID o) "" then m else <[SubscriptionNodeID o := o]> m) existing ∅.

Record sorted_nodes := {
  sn_existing : list preparedNode;
  sn_new : list preparedNode;
  sn_seen : gset string;
  sn_heap : runtime_heap;
}.

(** One parsed node. *)
Definition sort_node (sub : ProxySubscription) (bySource : gmap string ProxyOutbound) (acc : sorted_nodes)
    (item : ParsedOutbound) : sorted_nodes :=
  if String.eqb (po_SourceKey item) "" then acc else
  if decide (po_SourceKey item ∈ sn_seen acc) then acc else
  let '(clone, h) := take_clone (sn_heap acc) (po_Outbound item) in
  let node := (in_subscription sub (effectiveGroup sub) (po_SourceKey item) clone, po_BaseName item) in
  let seen := {[po_SourceKey item]} ∪ sn_seen acc in
  match bySource !! po_SourceKey item with
  | Some _ => {| sn_existing := sn_existing acc ++ [node]; sn_new := sn_new acc; sn_seen := seen; sn_heap := h |}
  | None => {| sn_existing := sn_existing acc; sn_new := sn_new acc ++ [node]; sn_seen := seen; sn_heap := h |}
  end.

(** The nodes that were there: name and measurements are kept. *)
Fixpoint keep_nodes (sub : ProxySubscription) (bySource : gmap string ProxyOutbound) (nodes : list preparedNode)
    (used : gset string) : option (list ProxyOutbound * gset string) :=
  match nodes with
  | [] => Some ([], used)
  | (p, baseName) :: rest =>
      let previous := default zero_outbound (bySource !! SubscriptionNodeID p) in
      name ← (if decide (Name previous ∈ used) then uniqueOutboundName baseName (sb_Name sub) used
              else Some (Name previous));
      '(next, used) ← keep_nodes sub bySource rest ({[name]} ∪ used);
      Some (carry_over name previous p :: next, used)
  end.

Fixpoint name_nodes (sub : ProxySubscription) (nodes : list preparedNode) (used : gset string)
  : option (list ProxyOutbound * gset string) :=
  match nodes with
  | [] => Some ([], used)
  | (p, baseName) :: rest =>
      name ← uniqueOutboundName baseName (sb_Name sub) used;
      '(next, used) ← name_nodes sub rest ({[name]} ∪ used);
      Some (rename name p :: next, used)
  end.
End merge.

(** ** The service *)

Record http_response := { hr_StatusCode : Z; hr_userinfo : string; hr_body : option string }.

(** What a request gives: the URL is not valid, the request fails, or a response, whose
    body cannot be read or is given. *)
Inductive http_result := HttpBadURL | HttpFailed | HttpResponse (r : http_response).

Inductive fetch_err :=
| FetchNil
| FetchNoOutbound (name : string)
| FetchDisabled (name : string)
| FetchDialer
| FetchURL
| FetchFailed
| FetchStatus (code : Z)
| FetchBody.

Record FetchResult := {
  fr_Content : string;
  fr_ProxyUsed : string;
  fr_UploadBytes : Z;
  fr_DownloadBytes : Z;
  fr_TotalBytes : Z;
  fr_ExpireAt : gotime;
}.

Record UpdateResult := {
  ur_NodeCount : Z;
  ur_AddedCount : Z;
  ur_UpdatedCount : Z;
  ur_RemovedCount : Z;
  ur_ProxyUsed : string;
  ur_ContentSize : Z;
  ur_UploadBytes : Z;
  ur_DownloadBytes : Z;
  ur_TotalBytes : Z;
  ur_ExpireAt : option gotime;
}.

Inductive update_err :=
| UpdateFetch (e : fetch_err)
| UpdateContent
| UpdateNodes (e : node_err)
| UpdateRuntime (e : om_err).

(** The node file and the outbound manager. *)
Record Service := { sv_configMgr : ProxyOutboundConfigManager; sv_outboundMgr : dial_world }.

Definition sv_heap (s : Service) : runtime_heap := om_runtimes (dw_m (sv_outboundMgr s)).
Definition with_heap (h : runtime_heap) (w : dial_world) : dial_world :=
  with_m (set_nodes (om_outbounds (dw_m w)) h (dw_m w)) w.

(** The orders of iteration over maps, and what [Reload] reads. *)
Record sync_env := {
  se_order : list string;
  se_removed : list string;
  se_now : gotime;
  se_create : string -> option string;
  se_nodes : list string;
  se_cached : list string;
}.

Section service.
Context `{Unicode}.
Variables (sha1 : string -> string) (json : string -> option object) (yaml : string -> list object).
Variables (create_dialer : ProxyOutbound -> bool) (http : option ProxyOutbound -> string -> string -> http_result).

(** [io.LimitReader] of 10 MB. *)
Definition limit_body (body : string) : string := String.substring 0 (Z.to_nat (10 * 1024 * 1024)) body.

Definition read_response (proxyName : string) (r : http_result) : fetch_err + FetchResult :=
  match r with
  | HttpBadURL => inl FetchURL
  | HttpFailed => inl FetchFailed
  | HttpResponse r =>
      if negb (hr_StatusCode r =? 200) then inl (FetchStatus (hr_StatusCode r)) else
      match hr_body r with
      | None => inl FetchBody
      | Some body =>
          let '(upload, download, total, expireAt) := parseSubscriptionUserInfoHeader (hr_userinfo r) in
          inr {| fr_Content := limit_body body; fr_ProxyUsed := proxyName; fr_UploadBytes := upload;
                 fr_DownloadBytes := download; fr_TotalBytes := total; fr_ExpireAt := expireAt |}
      end
  end.

Definition FetchContent (s : Service) (sub : option ProxySubscription) : Service * (fetch_err + FetchResult) :=
  match sub with
  | None => (s, inl FetchNil)
  | Some sub =>
      let proxyName := trim_space (sb_ProxyName sub) in
      let userAgent := if String.eqb (trim_space (sb_UserAgent sub)) "" then "Mozilla/5.0"%string
                       else trim_space (sb_UserAgent sub) in
      if negb (String.eqb proxyName "") && negb (String.eqb proxyName "direct") then
        let '(m, cfg) := GetOutbound (dw_m (sv_outboundMgr s)) proxyName in
        let s := {| sv_configMgr := sv_configMgr s; sv_outboundMgr := with_m m (sv_outboundMgr s) |} in
        match cfg with
        | None => (s, inl (FetchNoOutbound proxyName))
        | Some cfg =>
            if negb (Enabled cfg) then (s, inl (FetchDisabled proxyName))
            else if negb (create_dialer cfg) then (s, inl FetchDialer)
            else (s, read_response proxyName (http (Some cfg) (sb_URL sub) userAgent))
        end
      else (s, read_response proxyName (http None (sb_URL sub) userAgent))
  end.

(** The nodes given to the manager; it stops at the first error. *)
Fixpoint sync_next (previous : gset string) (next : list ProxyOutbound) (m : outboundManagerImpl)
  : outboundManagerImpl * option om_err :=
  match next with
  | [] => (m, None)
  | p :: rest =>
      let '(m, _, e) := if decide (Name p ∈ previous) then OutboundManager.UpdateOutbound m (Name p) (Some p)
                        else OutboundManager.AddOutbound m (Some p) in
      match e with Some _ => (m, e) | None => sync_next previous rest m end
  end.

Definition is_not_found (e : option om_err) : bool :=
  match e with Some ErrOutboundNotFound => true | _ => false end.

(** The nodes that are gone: how many, and the first error other than not found. *)
Fixpoint sync_removed (next : gset string) (names : list string) (m : outboundManagerImpl) (removed : Z)
  : outboundManagerImpl * Z * option om_err :=
  match names with
  | [] => (m, removed, None)
  | name :: rest =>
      if decide (name ∈ next) then sync_removed next rest m removed else
      let '(m, e) := DeleteOutboundNoCascade m name in
      if bool_decide (e <> None) && negb (is_not_found e) then (m, removed + 1, e)
      else sync_removed next rest m (removed + 1)
  end.

Definition names_of (nodes : list ProxyOutbound) : gset string := list_to_set (Name <$> nodes).

Definition syncRuntime (env : sync_env) (w : dial_world) (previous next : list ProxyOutbound)
  : dial_world * option om_err :=
  let '(m, e) := sync_next (names_of previous) next (dw_m w) in
  match e with
  | Some _ => (with_m m w, e)
  | None =>
      let '(m, removed, e) := sync_removed (names_of next) (se_removed env) m 0 in
      match e with
      | Some _ => (with_m m w, e)
      | None =>
          let w := with_m m w in
          if (0 <? removed) || negb (Nat.eqb (List.length next) (List.length previous))
          then (Reload (se_now env) (se_create env) (se_nodes env) (se_cached env) w, None)
          else (w, None)
      end
  end.

(** Replacing the nodes in the file, then in the manager. *)
Definition replace_nodes (save_ok : bool) (env : sync_env) (s : Service) (h : runtime_heap) (id : string)
    (previous next : list ProxyOutbound) : Service * option update_err :=
  let '(c, h, e) := ReplaceSubscriptionOutbounds save_ok h (sv_configMgr s) id (Some <$> next) in
  let w := with_heap h (sv_outboundMgr s) in
  match e with
  | Some e => ({| sv_configMgr := c; sv_outboundMgr := w |}, Some (UpdateNodes e))
  | None =>
      let '(w, e) := syncRuntime env w previous next in
      ({| sv_configMgr := c; sv_outboundMgr := w |}, UpdateRuntime <$> e)
  end.

Definition removed_count (existing : list ProxyOutbound) (seen : gset string) : Z :=
  zlen (List.filter (fun o => negb (bool_decide (SubscriptionNodeID o ∈ seen))) existing).

(** The names of the nodes of the other subscriptions. *)
Definition other_names (c : ProxyOutboundConfigManager) (order : list string) (id : string) : gset string :=
  names_of (List.filter (fun o => negb (String.eqb (SubscriptionID o) id)) (oc_GetAllOutbounds c order)).

(** The merge of the parsed nodes: the next nodes with the numbers added and updated, the
    source keys and the heap. *)
Definition merge_nodes (sub : ProxySubscription) (order : list string) (s : Service) (parsed : list ParsedOutbound)
  : option (list ProxyOutbound * Z * Z * sorted_nodes) :=
  let bySource := by_source (GetBySubscriptionID (sv_configMgr s) order (sb_ID sub)) in
  let sn := fold_left (sort_node sub bySource) parsed
              {| sn_existing := []; sn_new := []; sn_seen := ∅; sn_heap := sv_heap s |} in
  '(kept, used) ← keep_nodes sub bySource (sn_existing sn) (other_names (sv_configMgr s) order (sb_ID sub));
  '(added, used) ← name_nodes sub (sn_new sn) used;
  Some (kept ++ added, zlen added, zlen kept, sn).

(** [UpdateSubscription]; [None] when the search for a name has not ended. *)
Definition UpdateSubscription (save_ok : bool) (env : sync_env) (s : Service) (sub : option ProxySubscription)
  : option (Service * (update_err + UpdateResult)) :=
  let '(s, fetched) := FetchContent s sub in
  match sub, fetched with
  | Some sub, inr fetched =>
      match ParseSubscriptionContent sha1 json yaml (fr_Content fetched) with
      | None => Some (s, inl UpdateContent)
      | Some parsed =>
          let existing := GetBySubscriptionID (sv_configMgr s) (se_order env) (sb_ID sub) in
          '(next, added, updated, sn) ← merge_nodes sub (se_order env) s parsed;
          let '(s, e) := replace_nodes save_ok env s (sn_heap sn) (sb_ID sub) existing next in
          match e with
          | Some e => Some (s, inl e)
          | None =>
              Some (s, inr {| ur_NodeCount := zlen next; ur_AddedCount := added; ur_UpdatedCount := updated;
                              ur_RemovedCount := removed_count existing (sn_seen sn);
                              ur_ProxyUsed := fr_ProxyUsed fetched; ur_ContentSize := slen (fr_Content fetched);
                              ur_UploadBytes := fr_UploadBytes fetched; ur_DownloadBytes := fr_DownloadBytes fetched;
                              ur_TotalBytes := fr_TotalBytes fetched;
                              ur_ExpireAt := if is_zero_time (fr_ExpireAt fetched) then None
                                             else Some (fr_ExpireAt fetched) |})
          end
      end
  | _, inl e => Some (s, inl (UpdateFetch e))
  | None, inr _ => Some (s, inl (UpdateFetch FetchNil))
  end.

Definition RemoveSubscriptionNodes (save_ok : bool) (env : sync_env) (s : Service) (subscriptionID : string)
  : Service * option update_err :=
  if String.eqb subscriptionID "" then (s, Some (UpdateNodes NodeSubscriptionID)) else
  replace_nodes save_ok env s (sv_heap s) subscriptionID
    (GetBySubscriptionID (sv_configMgr s) (se_order env) subscriptionID) [].
End service.

(** ** The scheduler *)

(** What became of a due subscription: the attempt could not be stored, the update failed,
    its result could not be stored, or it is complete and the hook was called. *)
Inductive update_attempt :=
| AttemptNotSaved (e : sub_err)
| AttemptFailed (text : string)
| AttemptNotStored (e : sub_err)
| AttemptDone (result : UpdateResult).

Definition with_attempt (attemptAt : gotime) (s : ProxySubscription) : ProxySubscription :=
  {| sb_ID := sb_ID s; sb_Name := sb_Name s; sb_URL := sb_URL s; sb_Enabled := sb_Enabled s; sb_Group := sb_Group s;
     sb_ProxyName := sb_ProxyName s; sb_UserAgent := sb_UserAgent s; sb_AutoUpdateEnabled := sb_AutoUpdateEnabled s;
     sb_AutoUpdateMode := sb_AutoUpdateMode s; sb_AutoUpdateTime := sb_AutoUpdateTime s;
     sb_AutoUpdateIntervalDays := sb_AutoUpdateIntervalDays s; sb_LastAttemptAt := attemptAt;
     sb_LastUpdatedAt := sb_LastUpdatedAt s; sb_LastNodeCount := sb_LastNodeCount s; sb_LastAdded := sb_LastAdded s;
     sb_LastUpdated := sb_LastUpdated s; sb_LastRemoved := sb_LastRemoved s;
     sb_LastUploadBytes := sb_LastUploadBytes s; sb_LastDownloadBytes := sb_LastDownloadBytes s;
     sb_LastTotalBytes := sb_LastTotalBytes s; sb_LastExpireAt := sb_LastExpireAt s; sb_LastError := sb_LastError s |}.

Definition with_error (text : string) (s : ProxySubscription) : ProxySubscription :=
  {| sb_ID := sb_ID s; sb_Name := sb_Name s; sb_URL := sb_URL s; sb_Enabled := sb_Enabled s; sb_Group := sb_Group s;
     sb_ProxyName := sb_ProxyName s; sb_UserAgent := sb_UserAgent s; sb_AutoUpdateEnabled := sb_AutoUpdateEnabled s;
     sb_AutoUpdateMode := sb_AutoUpdateMode s; sb_AutoUpdateTime := sb_AutoUpdateTime s;
     sb_AutoUpdateIntervalDays := sb_AutoUpdateIntervalDays s; sb_LastAttemptAt := sb_LastAttemptAt s;
     sb_LastUpdatedAt := sb_LastUpdatedAt s; sb_LastNodeCount := sb_LastNodeCount s; sb_LastAdded := sb_LastAdded s;
     sb_LastUpdated := sb_LastUpdated s; sb_LastRemoved := sb_LastRemoved s;
     sb_LastUploadBytes := sb_LastUploadBytes s; sb_LastDownloadBytes := sb_LastDownloadBytes s;
     sb_LastTotalBytes := sb_LastTotalBytes s; sb_LastExpireAt := sb_LastExpireAt s; sb_LastError := text |}.

Definition with_result (attemptAt : gotime) (r : UpdateResult) (s : ProxySubscription) : ProxySubscription :=
  {| sb_ID := sb_ID s; sb_Name := sb_Name s; sb_URL := sb_URL s; sb_Enabled := sb_Enabled s; sb_Group := sb_Group s;
     sb_ProxyName := sb_ProxyName s; sb_UserAgent := sb_UserAgent s; sb_AutoUpdateEnabled := sb_AutoUpdateEnabled s;
     sb_AutoUpdateMode := sb_AutoUpdateMode s; sb_AutoUpdateTime := sb_AutoUpdateTime s;
     sb_AutoUpdateIntervalDays := sb_AutoUpdateIntervalDays s; sb_LastAttemptAt := sb_LastAttemptAt s;
     sb_LastUpdatedAt := attemptAt; sb_LastNodeCount := ur_NodeCount r; sb_LastAdded := ur_AddedCount r;
     sb_LastUpdated := ur_UpdatedCount r; sb_LastRemoved := ur_RemovedCount r;
     sb_LastUploadBytes := ur_UploadBytes r; sb_LastDownloadBytes := ur_DownloadBytes r;
     sb_LastTotalBytes := ur_TotalBytes r; sb_LastExpireAt := default 0 (ur_ExpireAt r); sb_LastError := "" |}.

(** The subscriptions, and whatever else an update changes. *)
Definition sched_state (W : Type) : Type := (ProxySubscriptionConfigManager * W)%type.

Section scheduler.
Context `{Unicode} `{Location}.

Definition parseAutoUpdateClock (value : string) : option (Z * Z) := parse_clock (trim_space value).

(** [None] is an error; the product of durations wraps. *)
Definition subscriptionAutoUpdateDue (sub : ProxySubscription) (now : gotime) : option bool :=
  if negb (sb_Enabled sub) || negb (IsAutoUpdateEnabled sub) then Some false else
  if String.eqb (GetAutoUpdateMode sub) ProxySubscriptionAutoUpdateModeDaily then
    match parseAutoUpdateClock (GetAutoUpdateTime sub) with
    | None => None
    | Some (h, m) =>
        let scheduledAt := day_at (local_day now) h m in
        if now <? scheduledAt then Some false
        else if negb (sb_LastAttemptAt sub <? scheduledAt) then Some false
        else Some true
    end
  else if String.eqb (GetAutoUpdateMode sub) ProxySubscriptionAutoUpdateModeInterval then
    if is_zero_time (sb_LastAttemptAt sub) then Some false else
    let nextDueAt := sb_LastAttemptAt sub + wrapS 64 (wrapS 64 (GetAutoUpdateIntervalDays sub * 24) * hour) in
    if now <? nextDueAt then Some false else Some true
  else None.

(** While the updater runs, other requests may change the subscriptions too: [updater]
    gives them as it leaves them. *)
Context {W : Type}.
Variable updater : sched_state W -> ProxySubscription -> sched_state W * (string + UpdateResult).

(** The [k]-th write of the file for a subscription succeeds. *)
Variable save_ok : string -> nat -> bool.

(** [updateOne]; [sub] is the copy [runOnce] took. *)
Definition updateOne (st : sched_state W) (sub : ProxySubscription) (attemptAt : gotime) : sched_state W * update_attempt :=
  let id := sb_ID sub in
  let sub := with_attempt attemptAt sub in
  let '(m, e) := sm_UpdateSubscription (save_ok id 0) st.1 id (Some sub) in
  match e with
  | Some e => ((m, st.2), AttemptNotSaved e)
  | None =>
      let '((m, w), r) := updater (m, st.2) sub in
      match r with
      | inl text =>
          let '(m, _) := sm_UpdateSubscription (save_ok id 1) m id (Some (with_error text sub)) in
          ((m, w), AttemptFailed text)
      | inr result =>
          let '(m, e) := sm_UpdateSubscription (save_ok id 1) m id (Some (with_result attemptAt result sub)) in
          match e with
          | Some e => ((m, w), AttemptNotStored e)
          | None => ((m, w), AttemptDone result)
          end
      end
  end.

(** The due subscriptions in turn, until the context is cancelled. *)
Fixpoint update_due (cancelled : string -> bool) (now : gotime) (due : list ProxySubscription) (st : sched_state W)
  : sched_state W * list (string * update_attempt) :=
  match due with
  | [] => (st, [])
  | sub :: rest =>
      if cancelled (sb_ID sub) then (st, []) else
      let '(st, a) := updateOne st sub now in
      let '(st, l) := update_due cancelled now rest st in
      (st, (sb_ID sub, a) :: l)
  end.

Definition due_now (now : gotime) (sub : ProxySubscription) : bool :=
  match subscriptionAutoUpdateDue sub now with Some true => true | _ => false end.

(** [active] is the number of sessions, if it can be read. *)
Definition runOnce (cancelled : string -> bool) (now : gotime) (active : option Z) (order : list string) (st : sched_state W)
  : sched_state W * list (string * update_attempt) :=
  let due := List.filter (due_now now) (GetAllSubscriptions st.1 order) in
  match due with
  | [] => (st, [])
  | _ =>
      if match active with Some n => 0 <? n | None => false end then (st, [])
      else update_due cancelled now due st
  end.
End scheduler.

(** * Facts *)

(** ** Names *)

Section names.
Context `{Unicode}.

Lemma append_cancel a b c : (a ++ b = a ++ c)%string -> b = c.
Proof. induction a as [|x a IH]; [done|]. rewrite !append_cons. intros [= E]. by apply IH. Qed.

Lemma numbered_inj base i j : numbered base i = numbered base j -> i = j.
Proof. unfold numbered. intros [= E]%append_cancel. by apply (inj pretty). Qed.

Lemma first_free_Some fuel base i used name :
  first_free fuel base i used = Some name ->
  exists k, name = numbered base (i + Z.of_nat k) /\ name ∉ used /\
    forall j, (j < k)%nat -> numbered base (i + Z.of_nat j) ∈ used.
Proof.
  revert i. induction fuel as [|fuel IH]; intros i; [done|]. cbn [first_free].
  destruct (decide (numbered base i ∈ used)) as [Hu|Hu].
  - intros (k & E & Hn & Hk)%IH. exists (S k). replace (i + Z.of_nat (S k)) with (i + 1 + Z.of_nat k) by lia.
    split_and!; [done..|]. intros [|j] Hj; [by rewrite Z.add_0_r|].
    replace (i + Z.of_nat (S j)) with (i + 1 + Z.of_nat j) by lia. apply Hk. lia.
  - intros [= <-]. exists 0%nat. rewrite Z.add_0_r. split_and!; [done..|]. intros j Hj. lia.
Qed.

Lemma first_free_None fuel base i used :
  first_free fuel base i used = None -> forall j, (j < fuel)%nat -> numbered base (i + Z.of_nat j) ∈ used.
Proof.
  revert i. induction fuel as [|fuel IH]; intros i; [lia|]. cbn [first_free]. destruct (decide _) as [Hu|]; [|done].
  intros Hn [|j] Hj; [by rewrite Z.add_0_r|]. replace (i + Z.of_nat (S j)) with (i + 1 + Z.of_nat j) by lia.
  apply IH; [done|lia].
Qed.

(** There are not enough used names for every candidate. *)
Lemma first_free_ends base i used : is_Some (first_free (S (size used)) base i used).
Proof.
  destruct (first_free _ base i used) eqn:E; [done|]. exfalso.
  set (l := (fun j => numbered base (i + Z.of_nat j)) <$> seq 0 (S (size used))).
  assert (NoDup l) as Hd.
  { apply NoDup_fmap_2_strong; [|apply NoDup_seq]. intros j k _ _ Ej%numbered_inj. lia. }
  assert ((list_to_set l : gset string) ⊆ used) as Hs.
  { intros x (j & -> & Hj)%elem_of_list_to_set%list_elem_of_fmap. apply elem_of_seq in Hj.
    eapply first_free_None; [exact E|lia]. }
  apply subseteq_size in Hs. rewrite size_list_to_set in Hs by done. unfold l in Hs.
  rewrite length_fmap, length_seq in Hs. lia.
Qed.

Lemma base_name_nonempty b s : base_name b s <> ""%string.
Proof.
  unfold base_name. destruct (String.eqb_spec (trim_space b) "") as [_|Hb].
  - by destruct (String.eqb_spec (trim_space s) "").
  - by rewrite (proj2 (String.eqb_neq _ _) Hb).
Qed.

Lemma append_nonempty a b : b <> ""%string -> (a ++ b)%string <> ""%string.
Proof. by destruct a. Qed.

Lemma uniqueOutboundName_Some b s used :
  exists name, uniqueOutboundName b s used = Some name /\ name ∉ used /\ name <> ""%string.
Proof.
  unfold uniqueOutboundName. pose proof (base_name_nonempty b s) as Hb. set (base := base_name b s) in *. cbv zeta.
  destruct (bool_decide_reflect (base ∈ used)) as [Hu|Hu]; cbn [negb]; [|by exists base].
  destruct (negb (String.eqb s "") && _) eqn:E.
  - apply andb_true_iff in E as [_ E%negb_true_iff%bool_decide_eq_false]. eexists. split; [done|]. split; [done|].
    by apply append_nonempty.
  - destruct (first_free_ends base 2 used) as [name Hn]. exists name. split; [done|].
    destruct (first_free_Some _ _ _ _ _ Hn) as (k & -> & Hni & _). split; [done|]. by apply append_nonempty.
Qed.

(** The search for a free node name always ends, whatever names are in use, with a name that is
    not empty and not in use: the wanted name if it is free, else the one tagged with
    the subscription, else the first free number from 2. *)
Theorem uniqueOutboundName_fresh (baseName subscriptionName : string) (used : gset string) :
  exists name, uniqueOutboundName baseName subscriptionName used = Some name /\ name ∉ used /\ name <> ""%string /\
    let base := base_name baseName subscriptionName in
    let tagged := (base ++ " [" ++ subscriptionName ++ "]")%string in
    (base ∉ used -> name = base) /\
    (base ∈ used -> subscriptionName <> ""%string -> tagged ∉ used -> name = tagged) /\
    (base ∈ used -> subscriptionName = ""%string \/ tagged ∈ used -> exists k, name = numbered base (2 + Z.of_nat k) /\
       forall j, (j < k)%nat -> numbered base (2 + Z.of_nat j) ∈ used).
Proof.
  destruct (uniqueOutboundName_Some baseName subscriptionName used) as (name & Hn & Hf & Hne).
  exists name. split_and!; [done..|]. cbv zeta. revert Hn. unfold uniqueOutboundName. set (base := base_name _ _). cbv zeta.
  destruct (bool_decide_reflect (base ∈ used)) as [Hu|Hu]; cbn [negb]; [|intros [= <-]; by split_and!].
  destruct (String.eqb_spec subscriptionName "") as [Hs|Hs]; cbn [negb andb];
    [|destruct (bool_decide_reflect ((base ++ " [" ++ subscriptionName ++ "]")%string ∈ used)) as [Ht|Ht]; cbn [negb]].
  - intros (k & E & _ & Hk)%first_free_Some. split_and!; [done..|]. intros _ _. by exists k.
  - intros (k & E & _ & Hk)%first_free_Some. split_and!; [done..|]. intros _ _. by exists k.
  - intros [= <-]. split_and!; [done..|]. by intros _ [].
Qed.
End names.

(** ** Merging *)

Section merge_facts.
Context `{Unicode}.
Variables (sub : ProxySubscription) (bySource : gmap string ProxyOutbound).

(** The entries that count: the first of each source key that is not empty. *)
Fixpoint distinct_items (seen : gset string) (parsed : list ParsedOutbound) : list ParsedOutbound :=
  match parsed with
  | [] => []
  | item :: rest =>
      if String.eqb (po_SourceKey item) "" || bool_decide (po_SourceKey item ∈ seen) then distinct_items seen rest
      else item :: distinct_items ({[po_SourceKey item]} ∪ seen) rest
  end.

Definition known (item : ParsedOutbound) : bool := bool_decide (is_Some (bySource !! po_SourceKey item)).

(** The node made of an entry, with the runtime [r]. *)
Definition node_of (item : ParsedOutbound) (r : runtime_ptr) : ProxyOutbound :=
  in_subscription sub (effectiveGroup sub) (po_SourceKey item) (with_runtime (Some r) (po_Outbound item)).

Lemma take_clone_new h p :
  runtime p = None -> take_clone h p = (with_runtime (Some (List.length h)) p, h ++ [zero_runtime]).
Proof. intros Hr. unfold take_clone, Clone, runtimeState. rewrite Hr. by destruct p. Qed.

Lemma distinct_items_in seen parsed item :
  item ∈ distinct_items seen parsed -> item ∈ parsed /\ po_SourceKey item <> ""%string /\ po_SourceKey item ∉ seen.
Proof.
  revert seen. induction parsed as [|x rest IH]; intros seen; cbn [distinct_items]; [by intros ?%not_elem_of_nil|].
  destruct (String.eqb_spec (po_SourceKey x) "") as [He|He]; cbn [orb]; [intros Hi%IH; set_solver|].
  destruct (bool_decide_reflect (po_SourceKey x ∈ seen)) as [Hs|Hs]; [intros Hi%IH; set_solver|].
  intros [->|Hi]%elem_of_cons; [by split; [left|]|]. apply IH in Hi. set_solver.
Qed.

Lemma distinct_items_nodup seen parsed : NoDup (po_SourceKey <$> distinct_items seen parsed).
Proof.
  revert seen. induction parsed as [|x rest IH]; intros seen; cbn [distinct_items]; [constructor|].
  destruct (_ || _); [done|]. rewrite fmap_cons. constructor; [|done].
  intros (y & E & (_ & _ & Hn)%distinct_items_in)%list_elem_of_fmap. set_solver.
Qed.

Lemma distinct_items_keys seen parsed key :
  key <> ""%string -> key ∈ po_SourceKey <$> parsed -> key ∈ seen \/ key ∈ po_SourceKey <$> distinct_items seen parsed.
Proof.
  intros Hk. revert seen. induction parsed as [|x rest IH]; intros seen; cbn [distinct_items]; [by intros ?%not_elem_of_nil|].
  rewrite fmap_cons. intros [->|Hi]%elem_of_cons.
  - rewrite (proj2 (String.eqb_neq _ _) Hk). cbn [orb]. destruct (bool_decide_reflect (po_SourceKey x ∈ seen)); [by left|].
    right. rewrite fmap_cons. by left.
  - destruct (_ || _); [by apply IH|]. destruct (IH ({[po_SourceKey x]} ∪ seen) Hi) as [[->%elem_of_singleton|]%elem_of_union|].
    + right. rewrite fmap_cons. by left.
    + by left.
    + right. rewrite fmap_cons. by right.
Qed.

(** An entry as the merge holds it, with a runtime allocated between two heaps. *)
Definition built (lo hi : nat) (item : ParsedOutbound) (pn : preparedNode) : Prop :=
  exists r, (lo <= r < hi)%nat /\ pn = (node_of item r, po_BaseName item).

Lemma built_mono lo hi lo' hi' items pns :
  (lo' <= lo)%nat -> (hi <= hi')%nat -> Forall2 (built lo hi) items pns -> Forall2 (built lo' hi') items pns.
Proof. intros Hlo Hhi Hf. apply (Forall2_impl _ _ _ _ Hf). intros i p (r & Hr & E). exists r. split; [lia|done]. Qed.

Lemma sort_node_new acc x :
  runtime (po_Outbound x) = None -> po_SourceKey x <> ""%string -> po_SourceKey x ∉ sn_seen acc ->
  let acc' := sort_node sub bySource acc x in
  let node := (node_of x (List.length (sn_heap acc)), po_BaseName x) in
  sn_existing acc' = sn_existing acc ++ (if known x then [node] else []) /\
  sn_new acc' = sn_new acc ++ (if known x then [] else [node]) /\
  sn_seen acc' = {[po_SourceKey x]} ∪ sn_seen acc /\ sn_heap acc' = sn_heap acc ++ [zero_runtime].
Proof.
  intros Hx He Hs. unfold sort_node, known. rewrite (proj2 (String.eqb_neq _ _) He), decide_False by done.
  rewrite take_clone_new by done. destruct (bySource !! po_SourceKey x); cbn; by rewrite ?app_nil_r.
Qed.

(** What the loop over the parsed entries gives. *)
Lemma sort_nodes_spec parsed acc :
  Forall (fun item => runtime (po_Outbound item) = None) parsed ->
  let items := distinct_items (sn_seen acc) parsed in
  let r := fold_left (sort_node sub bySource) parsed acc in
  let between := built (List.length (sn_heap acc)) (List.length (sn_heap r)) in
  exists ex nw,
    sn_existing r = sn_existing acc ++ ex /\ Forall2 between (List.filter known items) ex /\
    sn_new r = sn_new acc ++ nw /\ Forall2 between (List.filter (fun i => negb (known i)) items) nw /\
    sn_seen r = sn_seen acc ∪ list_to_set (po_SourceKey <$> items) /\
    sn_heap r = sn_heap acc ++ replicate (List.length items) zero_runtime.
Proof.
  revert acc. induction parsed as [|x rest IH]; intros acc Hp; cbn [fold_left distinct_items].
  { exists [], []. rewrite !app_nil_r. split_and!; try done. set_solver. }
  apply Forall_cons in Hp as [Hx Hp].
  destruct (String.eqb_spec (po_SourceKey x) "") as [He|He]; cbn [orb].
  { assert (sort_node sub bySource acc x = acc) as -> by (unfold sort_node; by rewrite He). by apply IH. }
  destruct (bool_decide_reflect (po_SourceKey x ∈ sn_seen acc)) as [Hs|Hs].
  { assert (sort_node sub bySource acc x = acc) as ->; [|by apply IH].
    unfold sort_node. by rewrite (proj2 (String.eqb_neq _ _) He), decide_True. }
  destruct (sort_node_new acc x Hx He Hs) as (Eex & Enw & Eseen & Eheap). cbv zeta in *.
  destruct (IH (sort_node sub bySource acc x) Hp) as (ex & nw & E1 & F1 & E2 & F2 & E3 & E4). cbv zeta in *.
  rewrite Eseen in F1, F2, E3, E4. set (items := distinct_items _ rest) in *.
  set (r := fold_left _ rest _) in *. rewrite Eheap, length_app in F1, F2. cbn [List.length] in F1, F2.
  assert (List.length (sn_heap acc) < List.length (sn_heap r))%nat as Hlt.
  { rewrite E4, Eheap, !length_app. cbn. lia. }
  assert (built (List.length (sn_heap acc)) (List.length (sn_heap r)) x
            (node_of x (List.length (sn_heap acc)), po_BaseName x)) as Hb by (eexists; split; [|done]; lia).
  eapply built_mono in F1; [|apply Nat.le_add_r|done]. eapply built_mono in F2; [|apply Nat.le_add_r|done].
  eexists _, _. rewrite E1, Eex, <- app_assoc, E2, Enw, <- app_assoc.
  split; [reflexivity|]. split; [|split; [reflexivity|]; split; [|split]].
  - cbn [List.filter]. destruct (known x); [by constructor|done].
  - cbn [List.filter]. destruct (known x); [done|by constructor].
  - rewrite E3. cbn [fmap list_fmap]. set_solver.
  - rewrite E4, Eheap, <- app_assoc. by f_equal.
Qed.

Lemma names_of_cons p l : names_of (p :: l) = {[Name p]} ∪ names_of l.
Proof. reflexivity. Qed.

Lemma names_of_in name l : name ∈ names_of l <-> name ∈ Name <$> l.
Proof. apply elem_of_list_to_set. Qed.

(** The nodes that were there keep their names, when those are free and distinct. *)
Definition previous_of (p : ProxyOutbound) : ProxyOutbound := default zero_outbound (bySource !! SubscriptionNodeID p).
Definition kept_node (pn : preparedNode) : ProxyOutbound := carry_over (Name (previous_of pn.1)) (previous_of pn.1) pn.1.

Lemma keep_nodes_spec nodes used :
  NoDup ((fun pn : preparedNode => Name (previous_of pn.1)) <$> nodes) ->
  Forall (fun pn : preparedNode => Name (previous_of pn.1) ∉ used) nodes ->
  keep_nodes sub bySource nodes used = Some (kept_node <$> nodes, used ∪ names_of (kept_node <$> nodes)).
Proof.
  revert used. induction nodes as [|[p b] rest IH]; intros used Hd Hu; cbn [keep_nodes].
  { f_equal. f_equal. unfold names_of. set_solver. }
  rewrite fmap_cons in Hd. apply NoDup_cons in Hd as [Hn Hd]. apply Forall_cons in Hu as [Hp Hu].
  fold (previous_of p). cbn [fst] in *. rewrite decide_False by done. cbn [mbind option_bind]. rewrite IH; [|done|].
  - cbn [mbind option_bind]. f_equal. f_equal. rewrite fmap_cons, names_of_cons. change (Name (kept_node (p, b))) with (Name (previous_of p)).
    generalize (names_of (kept_node <$> rest)), (Name (previous_of p)). intros. set_solver.
  - rewrite Forall_forall in Hu |- *. intros pn Hpn [E%elem_of_singleton|Hin]%elem_of_union; [|by apply (Hu pn)].
    apply Hn. apply list_elem_of_fmap. by exists pn.
Qed.

(** A new node: its name is the one of a search that had some names to avoid. *)
Definition named_node (pn : preparedNode) (q : ProxyOutbound) : Prop :=
  exists avoid name, uniqueOutboundName pn.2 (sb_Name sub) avoid = Some name /\ name <> ""%string /\ q = rename name pn.1.

Lemma name_nodes_spec nodes used :
  exists added used', name_nodes sub nodes used = Some (added, used') /\ Forall2 named_node nodes added /\
    NoDup (Name <$> added) /\ Forall (fun q => Name q ∉ used) added.
Proof.
  revert used. induction nodes as [|[p b] rest IH]; intros used; cbn [name_nodes].
  { exists [], used. split_and!; try done; constructor. }
  destruct (uniqueOutboundName_Some b (sb_Name sub) used) as (name & Hn & Hf & Hne). rewrite Hn. cbn [mbind option_bind].
  destruct (IH ({[name]} ∪ used)) as (added & used' & -> & Hall & Hd & Hfr). cbn [mbind option_bind].
  exists (rename name p :: added), used'. split_and!; [done| | |].
  - constructor; [|done]. by exists used, name.
  - rewrite fmap_cons. constructor; [|done]. intros (q & E & Hq)%list_elem_of_fmap. rewrite Forall_forall in Hfr.
    apply (Hfr q Hq). cbn in E. set_solver.
  - constructor; [done|]. eapply Forall_impl; [exact Hfr|]. set_solver.
Qed.
End merge_facts.

(** ** Bringing the manager in step *)

Section sync_facts.
Context `{Unicode}.

Lemma on_stored_heap f name m :
  (List.length (om_runtimes m) <= List.length (om_runtimes (on_stored f name m)))%nat.
Proof.
  unfold on_stored. destruct (om_outbounds m !! name) as [o|]; [|done]. unfold on_runtime, runtimeState.
  destruct (runtime o); cbn [om_runtimes set_nodes]; rewrite length_alter, ?length_app; lia.
Qed.

Lemma reload_node_heap now r w name :
  (List.length (om_runtimes (dw_m w)) <= List.length (om_runtimes (dw_m (reload_node now r w name))))%nat.
Proof.
  unfold reload_node, CreateUDPOutbound. destruct (om_outbounds (dw_m w) !! name) as [cfg|]; [|done].
  destruct (Enabled cfg); cbn [negb with_m dw_m]; [|by rewrite om_runtimes_drop].
  destruct (om_singbox (dw_m w) !! name); [done|]. destruct (r name); cbn [dw_m with_m]; [apply on_stored_heap|].
  etrans; [|apply on_stored_heap]. done.
Qed.

Lemma reload_keeps now r nodes cached w :
  om_wf (dw_m w) ->
  let w' := Reload now r nodes cached w in
  om_outbounds (dw_m w') = om_outbounds (dw_m w) /\ om_wf (dw_m w') /\
  (List.length (om_runtimes (dw_m w)) <= List.length (om_runtimes (dw_m w')))%nat.
Proof.
  intros Hw. unfold Reload. cbn [with_m dw_m].
  set (w1 := fold_left (reload_node now r) nodes w).
  assert (om_wf (dw_m w1)) as Hw1.
  { apply (kept_wf (fresh nodes) w), reload_nodes_kept; [done|]. apply infinite_is_fresh. }
  destruct (reload_removed_pass cached (dw_m w1)) as (Ho & _). cbv zeta in Ho. rewrite Ho.
  split; [by apply reload_nodes_stay|]. split; [by apply reload_removed_wf|].
  transitivity (List.length (om_runtimes (dw_m w1))).
  - unfold w1. clear. revert w. induction nodes as [|n l IH]; intros w; [done|]. cbn [fold_left].
    etrans; [apply (reload_node_heap now r w n)|apply IH].
  - generalize (dw_m w1). clear. induction cached as [|n l IH]; intros m; [done|]. cbn [fold_left].
    etrans; [|apply IH]. unfold reload_removed. destruct (om_outbounds m !! n); [done|]. by rewrite om_runtimes_drop.
Qed.

(** A node as both tables take it. *)
Definition ready (h : runtime_heap) (p : ProxyOutbound) : Prop :=
  Validate p = None /\ exists r, runtime p = Some r /\ (r < List.length h)%nat.

Lemma ready_node h p : ready h p -> node_ok h (Name p) p.
Proof. intros (Hv & r & Hr & Hl). split_and!; [done..|]. by exists r. Qed.

Lemma sync_node (previous : gset string) p m :
  om_wf m -> ready (om_runtimes m) p -> (Name p ∈ previous <-> is_Some (om_outbounds m !! Name p)) ->
  exists m' q, (if decide (Name p ∈ previous) then OutboundManager.UpdateOutbound m (Name p) (Some p)
                else OutboundManager.AddOutbound m (Some p)) = (m', q, None) /\
    om_wf m' /\ om_runtimes m' = om_runtimes m /\ om_outbounds m' = <[Name p := p]> (om_outbounds m).
Proof.
  intros Hw (Hv & r & Hr & Hl) Hin. assert (wf_ptr (om_runtimes m) p) as Hp by (intros k; rewrite Hr; intros [= <-]; done).
  destruct (decide (Name p ∈ previous)) as [Hi|Hi].
  - pose proof (UpdateOutbound_wf m (Name p) p Hw Hp) as Hw'. unfold OutboundManager.UpdateOutbound in *. rewrite Hv in *.
    destruct (proj1 Hin Hi) as [o Ho]. rewrite Ho in *. rewrite String.eqb_refl in *. cbn [negb andb] in *.
    rewrite Clone_stored in * by done. eexists _, _. split; [reflexivity|]. split; [done|]. by rewrite om_runtimes_drop.
  - pose proof (AddOutbound_wf m p Hw Hp) as Hw'. unfold OutboundManager.AddOutbound in *. rewrite Hv in *.
    destruct (om_outbounds m !! Name p) as [o|] eqn:Ho; [destruct Hi; by apply Hin|].
    rewrite Clone_stored in * by done. eexists _, _. split; [reflexivity|]. done.
Qed.

Lemma sync_next_ok (previous : gset string) next m :
  om_wf m -> Forall (ready (om_runtimes m)) next -> NoDup (Name <$> next) ->
  (forall p, p ∈ next -> Name p ∈ previous <-> is_Some (om_outbounds m !! Name p)) ->
  exists m', sync_next previous next m = (m', None) /\ om_wf m' /\ om_runtimes m' = om_runtimes m /\
    (forall p, p ∈ next -> om_outbounds m' !! Name p = Some p) /\
    (forall name, name ∉ Name <$> next -> om_outbounds m' !! name = om_outbounds m !! name).
Proof.
  revert m. induction next as [|p rest IH]; intros m Hw Hr Hd Hin; cbn [sync_next].
  { exists m. split_and!; try done. intros p Hp; by apply not_elem_of_nil in Hp. }
  apply Forall_cons in Hr as [Hp Hr]. rewrite fmap_cons in Hd |- *. apply NoDup_cons in Hd as [Hn Hd].
  destruct (sync_node previous p m Hw Hp (Hin p ltac:(left))) as (m1 & q & -> & Hw1 & Eh & Et).
  destruct (IH m1) as (m2 & -> & Hw2 & Eh2 & Hall & Hoth); [done|by rewrite Eh|done| |].
  { intros x Hx. rewrite Et, lookup_insert_ne; [by apply Hin; right|]. intros E. apply Hn. rewrite E. by apply list_elem_of_fmap_2. }
  exists m2. split_and!; [done..|by rewrite Eh2| |].
  - intros x [->|Hx]%elem_of_cons; [|by apply Hall]. rewrite Hoth, Et by done. apply lookup_insert_eq.
  - intros name [Hne Hni]%not_elem_of_cons. rewrite Hoth, Et by done. by rewrite lookup_insert_ne.
Qed.

Lemma sync_removed_ok (next : gset string) names m k :
  om_wf m ->
  exists m' k', sync_removed next names m k = (m', k', None) /\ om_wf m' /\ om_runtimes m' = om_runtimes m /\
    forall name, om_outbounds m' !! name =
      (if decide (name ∈ names /\ name ∉ next) then None else om_outbounds m !! name).
Proof.
  revert m k. induction names as [|n rest IH]; intros m k Hw; cbn [sync_removed].
  { exists m, k. by split_and!. }
  destruct (decide (n ∈ next)) as [Hn|Hn].
  { destruct (IH m k Hw) as (m' & k' & -> & Hw' & Eh & Hall). exists m', k'. split_and!; try done.
    intros name. rewrite Hall. apply decide_ext. set_solver. }
  assert (exists m1 e, DeleteOutboundNoCascade m n = (m1, e) /\ (e = None \/ e = Some ErrOutboundNotFound) /\
    om_wf m1 /\ om_runtimes m1 = om_runtimes m /\ om_outbounds m1 = delete n (om_outbounds m)) as (m1 & e & -> & He & Hw1 & Eh1 & Et1).
  { unfold DeleteOutboundNoCascade. destruct (om_outbounds m !! n) as [o|] eqn:Eo.
    - eexists _, _. split; [done|]. split; [by left|]. split; [by apply om_wf_delete, om_wf_drop|].
      cbn. by rewrite om_runtimes_drop, om_outbounds_drop.
    - exists m, (Some ErrOutboundNotFound). split_and!; [done|by right|done..|]. by rewrite delete_id. }
  assert (bool_decide (e <> None) && negb (is_not_found e) = false) as -> by (by destruct He as [->| ->]).
  destruct (IH m1 (k + 1) Hw1) as (m' & k' & -> & Hw' & Eh & Hall). exists m', k'.
  split_and!; [done..|by rewrite Eh|]. intros name. rewrite Hall, Et1. destruct (decide (name = n)) as [->|Hne].
  - rewrite (decide_True (P := n ∈ n :: rest /\ n ∉ next)) by (split; [left|done]).
    destruct (decide _); [done|]. apply lookup_delete_eq.
  - rewrite lookup_delete_ne by done. apply decide_ext. set_solver.
Qed.
End sync_facts.

Section replace_facts.
Context `{Unicode}.

(** The node file and the manager are well formed and have nodes of the same names. *)
Record in_step (s : Service) : Prop := {
  is_file : table_wf (sv_heap s) (oc_outbounds (sv_configMgr s));
  is_manager : om_wf (dw_m (sv_outboundMgr s));
  is_names : forall name, is_Some (oc_outbounds (sv_configMgr s) !! name) <->
                          is_Some (om_outbounds (dw_m (sv_outboundMgr s)) !! name);
}.

(** The orders are those of the maps. *)
Record orders_ok (env : sync_env) (s : Service) (id : string) : Prop := {
  oo_file : se_order env ≡ₚ (map_to_list (oc_outbounds (sv_configMgr s))).*1;
  oo_removed : se_removed env ≡ₚ Name <$> GetBySubscriptionID (sv_configMgr s) (se_order env) id;
}.

Lemma nodes_in_order (c : ProxyOutboundConfigManager) order h p :
  table_wf h (oc_outbounds c) -> order ≡ₚ (map_to_list (oc_outbounds c)).*1 ->
  p ∈ oc_GetAllOutbounds c order <-> oc_outbounds c !! Name p = Some p.
Proof.
  intros Ht Ho. unfold oc_GetAllOutbounds. rewrite list_elem_of_omap. split.
  - intros (name & _ & Hp). by destruct (Ht name p Hp) as (-> & _).
  - intros Hp. exists (Name p). split; [|done]. rewrite Ho. apply list_elem_of_fmap. exists (Name p, p).
    split; [done|]. by apply elem_of_map_to_list.
Qed.

Lemma elem_of_filter_b {A} (f : A -> bool) l x : x ∈ List.filter f l <-> f x = true /\ x ∈ l.
Proof. rewrite !list_elem_of_In, filter_In. naive_solver. Qed.

Lemma by_subscription c order h id p :
  table_wf h (oc_outbounds c) -> order ≡ₚ (map_to_list (oc_outbounds c)).*1 ->
  p ∈ GetBySubscriptionID c order id <-> oc_outbounds c !! Name p = Some p /\ SubscriptionID p = id.
Proof.
  intros Ht Ho. unfold GetBySubscriptionID.
  rewrite elem_of_filter_b, (nodes_in_order c order h p Ht Ho), String.eqb_eq. naive_solver.
Qed.

Lemma other_names_in c order h id name :
  table_wf h (oc_outbounds c) -> order ≡ₚ (map_to_list (oc_outbounds c)).*1 ->
  name ∈ other_names c order id <-> is_Some (other_nodes id (oc_outbounds c) !! name).
Proof.
  intros Ht Ho. unfold other_names. rewrite names_of_in, list_elem_of_fmap. split.
  - intros (p & -> & [Hne%negb_true_iff%String.eqb_neq Hp]%elem_of_filter_b).
    apply (nodes_in_order c order h p Ht Ho) in Hp. exists p. by apply map_lookup_filter_Some.
  - intros [p [Hp Hne]%map_lookup_filter_Some]. destruct (Ht name p Hp) as (<- & _). exists p. split; [done|].
    apply elem_of_filter_b. split; [by apply negb_true_iff, String.eqb_neq|]. by apply (nodes_in_order c order h p Ht Ho).
Qed.

Lemma prepare_ready next h id seen :
  Forall (fun p => ready h p /\ SubscriptionID p = id /\ Name p ∉ seen) next -> NoDup (Name <$> next) ->
  prepare_nodes h id (Some <$> next) seen = (Ret next, h).
Proof.
  revert seen. induction next as [|p rest IH]; intros seen Hr Hd; [done|].
  rewrite fmap_cons in Hd. rewrite fmap_cons. cbn [prepare_nodes].
  apply Forall_cons in Hr as [((Hv & r & Hp & _) & Hs & Hn) Hr]. apply NoDup_cons in Hd as [Hni Hd].
  rewrite (take_clone_stored h p r Hp), Hs, String.eqb_refl. cbn [negb]. rewrite Hv, decide_False by done.
  rewrite IH; [done| |done]. rewrite Forall_forall in Hr |- *. intros x Hx. destruct (Hr x Hx) as (Hrx & Hsx & Hnx).
  split_and!; [done..|]. intros [E%elem_of_singleton|]%elem_of_union; [|done]. apply Hni. rewrite <- E. by apply list_elem_of_fmap_2.
Qed.

(** The nodes a replacement is given. *)
Definition replacement (s : Service) (h : runtime_heap) (id : string) (next : list ProxyOutbound) : Prop :=
  Forall (fun p => ready h p /\ SubscriptionID p = id /\ other_nodes id (oc_outbounds (sv_configMgr s)) !! Name p = None) next /\
  NoDup (Name <$> next).

(** Both tables after a replacement. *)
Definition replaced (s s' : Service) (id : string) (next : list ProxyOutbound) : Prop :=
  (forall p, p ∈ next -> oc_outbounds (sv_configMgr s') !! Name p = Some p /\
     om_outbounds (dw_m (sv_outboundMgr s')) !! Name p = Some p /\ SubscriptionID p = id /\
     other_nodes id (oc_outbounds (sv_configMgr s)) !! Name p = None) /\
  (forall name, name ∉ Name <$> next ->
     oc_outbounds (sv_configMgr s') !! name = other_nodes id (oc_outbounds (sv_configMgr s)) !! name /\
     om_outbounds (dw_m (sv_outboundMgr s')) !! name =
       match other_nodes id (oc_outbounds (sv_configMgr s)) !! name with
       | Some _ => om_outbounds (dw_m (sv_outboundMgr s)) !! name
       | None => None
       end).

Lemma ReplaceSubscription_ready save_ok h c id next :
  id <> ""%string -> NoDup (Name <$> next) ->
  Forall (fun p => ready h p /\ SubscriptionID p = id /\ other_nodes id (oc_outbounds c) !! Name p = None) next ->
  exists c', ReplaceSubscriptionOutbounds save_ok h c id (Some <$> next) =
      (c', h, if save_ok then None else Some NodeSave) /\
    (forall p, p ∈ next -> oc_outbounds c' !! Name p = Some p) /\
    (forall name, name ∉ Name <$> next -> oc_outbounds c' !! name = other_nodes id (oc_outbounds c) !! name).
Proof.
  intros Hid Hd Hr. unfold ReplaceSubscriptionOutbounds. rewrite (proj2 (String.eqb_neq _ _) Hid).
  rewrite prepare_ready; [| |done].
  2: { eapply Forall_impl; [exact Hr|]. intros p (? & ? & _). split_and!; [done..|set_solver]. }
  pose proof (add_prepared_spec next (other_nodes id (oc_outbounds c)) Hd) as Ha.
  destruct (add_prepared _ next) as [t|e|]; [| |done].
  - destruct Ha as [Hall Hoth]. rewrite Forall_forall in Hall.
    destruct save_ok; cbn [oc_saveToFile]; (eexists; split; [reflexivity|]; cbn [oc_outbounds set_table]; split; [|done]);
      intros p Hp; by apply Hall.
  - destruct Ha as (n & _ & [q Hq] & (p & -> & Hp)%list_elem_of_fmap). rewrite Forall_forall in Hr.
    destruct (Hr p Hp) as (_ & _ & Hn). congruence.
Qed.

Lemma other_nodes_names h s id name :
  table_wf h (oc_outbounds (sv_configMgr s)) ->
  other_nodes id (oc_outbounds (sv_configMgr s)) !! name = None ->
  is_Some (oc_outbounds (sv_configMgr s) !! name) ->
  exists q, oc_outbounds (sv_configMgr s) !! name = Some q /\ Name q = name /\ SubscriptionID q = id.
Proof.
  intros Ht Ho [q Hq]. exists q. split; [done|]. split; [by apply (Ht name q)|].
  destruct (decide (SubscriptionID q = id)) as [|Hne]; [done|].
  assert (other_nodes id (oc_outbounds (sv_configMgr s)) !! name = Some q) as E by by apply map_lookup_filter_Some. congruence.
Qed.

Lemma in_previous h s env id name :
  table_wf h (oc_outbounds (sv_configMgr s)) -> orders_ok env s id ->
  name ∈ Name <$> GetBySubscriptionID (sv_configMgr s) (se_order env) id <->
  exists q, oc_outbounds (sv_configMgr s) !! name = Some q /\ SubscriptionID q = id.
Proof.
  intros Ht [Ho _]. rewrite list_elem_of_fmap. split.
  - intros (q & -> & Hq). apply (by_subscription _ _ h id q Ht Ho) in Hq. by exists q.
  - intros (q & Hq & Hs). destruct (Ht name q Hq) as (<- & _). exists q. split; [done|]. by apply (by_subscription _ _ h id q Ht Ho).
Qed.

(** The manager after the file: the same nodes for the subscription, the others kept. *)
Lemma syncRuntime_ok env s h id next :
  in_step s -> orders_ok env s id -> (List.length (sv_heap s) <= List.length h)%nat -> replacement s h id next ->
  let previous := GetBySubscriptionID (sv_configMgr s) (se_order env) id in
  exists w', syncRuntime env (with_heap h (sv_outboundMgr s)) previous next = (w', None) /\ om_wf (dw_m w') /\
    (List.length h <= List.length (om_runtimes (dw_m w')))%nat /\
    (forall p, p ∈ next -> om_outbounds (dw_m w') !! Name p = Some p) /\
    (forall name, name ∉ Name <$> next -> om_outbounds (dw_m w') !! name =
       match other_nodes id (oc_outbounds (sv_configMgr s)) !! name with
       | Some _ => om_outbounds (dw_m (sv_outboundMgr s)) !! name
       | None => None
       end).
Proof.
  intros [Ht Hw Hn] Ho Hh [Hr Hd] previous. set (oc := oc_outbounds (sv_configMgr s)) in *.
  pose proof (fun name => in_previous _ s env id name Ht Ho) as Hprev. fold previous in Hprev.
  unfold syncRuntime. set (m0 := dw_m (with_heap h (sv_outboundMgr s))).
  assert (om_wf m0) as Hw0.
  { apply om_wf_set_nodes; [done|]. intros n o Hno. eapply stored_ok_mono; [exact Hh|]. by apply Hw. }
  assert (forall p, p ∈ next -> Name p ∈ names_of previous <-> is_Some (om_outbounds m0 !! Name p)) as Hin.
  { intros p Hp. rewrite names_of_in, Hprev. change (om_outbounds m0) with (om_outbounds (dw_m (sv_outboundMgr s))).
    rewrite <- Hn. rewrite Forall_forall in Hr. destruct (Hr p Hp) as (_ & _ & Hno). split; [intros (q & ? & _); by exists q|].
    intros Hs. destruct (other_nodes_names _ s id _ Ht Hno Hs) as (q & ? & _ & ?). by exists q. }
  destruct (sync_next_ok (names_of previous) next m0) as (m1 & -> & Hw1 & Eh1 & Hall & Hoth); [done| |done|done|].
  { eapply Forall_impl; [exact Hr|]. by intros p []. }
  destruct (sync_removed_ok (names_of next) (se_removed env) m1 0 Hw1) as (m2 & k & -> & Hw2 & Eh2 & Hall2). cbv zeta.
  assert (forall p, p ∈ next -> om_outbounds m2 !! Name p = Some p) as Ha.
  { intros p Hp. rewrite Hall2, decide_False; [by apply Hall|]. intros [_ Hni]. apply Hni, names_of_in.
    by apply list_elem_of_fmap_2. }
  assert (forall name, name ∉ Name <$> next -> om_outbounds m2 !! name =
    match other_nodes id oc !! name with Some _ => om_outbounds (dw_m (sv_outboundMgr s)) !! name | None => None end) as Hb.
  { intros name Hni. rewrite Hall2. rewrite Hoth by done.
    assert (forall n, n ∈ se_removed env <-> n ∈ Name <$> previous) as Hrm by (intros n; by rewrite (oo_removed _ _ _ Ho)).
    destruct (other_nodes id oc !! name) as [q|] eqn:Eo.
    - apply map_lookup_filter_Some in Eo as [Eq Hne]. rewrite decide_False; [done|]. intros [(q' & Eq' & Hs)%Hrm%Hprev _].
      fold oc in Eq'. cbn in Hne. congruence.
    - destruct (decide _) as [|Hno]; [done|]. apply eq_None_not_Some. intros Hs. apply Hno. split; [|by rewrite names_of_in]. apply Hrm, Hprev.
      apply Hn in Hs. destruct (other_nodes_names _ s id _ Ht Eo Hs) as (q & ? & _ & ?). by exists q. }
  destruct (_ || _).
  - destruct (reload_keeps (se_now env) (se_create env) (se_nodes env) (se_cached env)
      (with_m m2 (with_heap h (sv_outboundMgr s))) Hw2) as (Er & Hwr & Hlr). cbv zeta in *. eexists. split; [reflexivity|].
    rewrite Er. split; [done|]. split; [|done]. etrans; [|exact Hlr]. cbn [with_m dw_m]. by rewrite Eh2, Eh1.
  - eexists. split; [reflexivity|]. split; [done|]. split; [|done]. cbn [with_m dw_m]. by rewrite Eh2, Eh1.
Qed.

(** A replacement, in the file and then in the manager. *)
Lemma replace_nodes_ok save_ok env s h id next :
  in_step s -> orders_ok env s id -> (List.length (sv_heap s) <= List.length h)%nat -> id <> ""%string ->
  replacement s h id next ->
  let '(s', e) := replace_nodes save_ok env s h id (GetBySubscriptionID (sv_configMgr s) (se_order env) id) next in
  if save_ok then e = None /\ in_step s' /\ replaced s s' id next
  else e = Some (UpdateNodes NodeSave) /\ om_outbounds (dw_m (sv_outboundMgr s')) = om_outbounds (dw_m (sv_outboundMgr s)) /\
    (forall p, p ∈ next -> oc_outbounds (sv_configMgr s') !! Name p = Some p).
Proof.
  intros Hs Ho Hh Hid Hr. unfold replace_nodes. pose proof Hr as [Hr1 Hd].
  destruct (ReplaceSubscription_ready save_ok h (sv_configMgr s) id next Hid Hd Hr1) as (c' & -> & Hin & Hoth).
  destruct save_ok; [|by split_and!].
  destruct (syncRuntime_ok env s h id next Hs Ho Hh Hr) as (w' & -> & Hw & Hl & Hm & Hmo). cbv zeta.
  assert (replaced s {| sv_configMgr := c'; sv_outboundMgr := w' |} id next) as Hrep.
  { rewrite Forall_forall in Hr1. split.
    { intros p Hp. destruct (Hr1 p Hp) as (_ & ? & ?). split_and!; [by apply Hin|by apply Hm|done..]. }
    intros name Hni. split; [by apply Hoth|by apply Hmo]. }
  split; [done|]. split; [|done]. destruct Hs as [Ht Hwf Hn]. split; [|done|].
  - intros name p Hp. cbn in Hp. unfold sv_heap. cbn. eapply node_ok_mono; [exact Hl|].
    destruct (decide (name ∈ Name <$> next)) as [(q & -> & Hq)%list_elem_of_fmap|Hni].
    + rewrite Hin in Hp by done. injection Hp as <-. rewrite Forall_forall in Hr1. by apply ready_node, (Hr1 q).
    + rewrite Hoth in Hp by done. apply map_lookup_filter_Some in Hp as [Hp _]. eapply node_ok_mono; [exact Hh|]. by apply Ht.
  - intros name. cbn. destruct (decide (name ∈ Name <$> next)) as [(q & -> & Hq)%list_elem_of_fmap|Hni].
    + by rewrite Hin, Hm by done.
    + rewrite Hoth, Hmo by done. destruct (other_nodes id _ !! name) as [q|] eqn:Eo; [|done].
      rewrite <- Hn. apply map_lookup_filter_Some in Eo as [Eo _]. rewrite Eo. by split.
Qed.
End replace_facts.

(** ** What a merge gives *)

Section merge_result.
Context `{Unicode}.

Lemma NoDup_filter_b {A B} (f : A -> B) (g : A -> bool) l : NoDup (f <$> l) -> NoDup (f <$> List.filter g l).
Proof.
  induction l as [|x l IH]; [done|]. rewrite fmap_cons. intros [Hn Hd]%NoDup_cons. cbn [List.filter].
  destruct (g x); [|by apply IH]. rewrite fmap_cons. constructor; [|by apply IH].
  intros (y & E & [_ Hy]%elem_of_filter_b)%list_elem_of_fmap. apply Hn. rewrite E. by apply list_elem_of_fmap_2.
Qed.

Lemma by_source_fold l (m : gmap string ProxyOutbound) key :
  fold_left (fun m o => if String.eqb (SubscriptionNodeID o) "" then m else <[SubscriptionNodeID o := o]> m) l m !! key =
  match List.find (fun o => negb (String.eqb (SubscriptionNodeID o) "") && String.eqb (SubscriptionNodeID o) key) (rev l) with
  | Some o => Some o
  | None => m !! key
  end.
Proof.
  revert m. induction l as [|o l IH]; intros m; [done|]. cbn [fold_left rev]. rewrite IH.
  assert (forall (f : ProxyOutbound -> bool) a b, List.find f (a ++ b) =
    match List.find f a with Some x => Some x | None => List.find f b end) as Hf.
  { intros f a b. induction a as [|x a IHa]; [done|]. cbn. by destruct (f x). }
  rewrite Hf. destruct (List.find _ (rev l)); [done|]. cbn [List.find].
  destruct (String.eqb_spec (SubscriptionNodeID o) "") as [He|He]; cbn [negb andb]; [done|].
  destruct (String.eqb_spec (SubscriptionNodeID o) key) as [->|Hne]; [apply lookup_insert_eq|by apply lookup_insert_ne].
Qed.

Lemma by_source_Some l key o :
  by_source l !! key = Some o -> o ∈ l /\ SubscriptionNodeID o = key.
Proof.
  unfold by_source. rewrite by_source_fold. destruct (List.find _ _) as [x|] eqn:E; [|by rewrite lookup_empty].
  intros [= ->]. apply find_some in E as [Hi [_ Hk%String.eqb_eq]%andb_true_iff]. split; [|done].
  apply list_elem_of_In. by apply in_rev.
Qed.

Lemma by_source_None l key o :
  by_source l !! key = None -> key <> ""%string -> o ∈ l -> SubscriptionNodeID o <> key.
Proof.
  unfold by_source. rewrite by_source_fold. destruct (List.find _ _) as [x|] eqn:E; [done|]. intros _ Hk Ho He.
  apply list_elem_of_In, in_rev in Ho. pose proof (find_none _ _ E o Ho) as Hn. cbn in Hn.
  rewrite He, String.eqb_refl, (proj2 (String.eqb_neq _ _) Hk) in Hn. done.
Qed.

Lemma when_empty_name (n : string) e rest : n <> ""%string -> when_empty n e rest = rest.
Proof. intros Hn. unfold when_empty. by rewrite (proj2 (String.eqb_neq _ _) Hn). Qed.

(** Neither the name nor what the merge sets makes a node invalid. *)
Lemma Validate_rename name p : Validate p = None -> name <> ""%string -> Validate (rename name p) = None.
Proof.
  intros Hv Hn. pose proof (Validate_name p Hv) as Hp. unfold Validate in *. rewrite when_empty_name in Hv by done.
  rewrite when_empty_name by done. exact Hv.
Qed.

Lemma Validate_merged sub name p0 item r :
  Validate (po_Outbound item) = None -> name <> ""%string ->
  Validate (carry_over name p0 (node_of sub item r)) = None /\ Validate (rename name (node_of sub item r)) = None.
Proof. intros Hv Hn. pose proof (Validate_rename name _ Hv Hn) as E. by split. Qed.

Lemma forall2_in_r {A B} (R : A -> B -> Prop) l k y : Forall2 R l k -> y ∈ k -> exists x, x ∈ l /\ R x y.
Proof.
  induction 1 as [|x z l k Hr _ IH]; [by intros ?%not_elem_of_nil|]. intros [->|Hy]%elem_of_cons.
  - exists x. split; [by left|done].
  - destruct (IH Hy) as (w & Hw & Hwr). exists w. split; [by right|done].
Qed.

Section merged.
Variables (sub : ProxySubscription) (s : Service).

(** A node of the subscription in the file. *)
Definition old_node (p : ProxyOutbound) : Prop :=
  oc_outbounds (sv_configMgr s) !! Name p = Some p /\ SubscriptionID p = sb_ID sub.

(** The node that an entry becomes: with a new runtime, the name and measurements of the old
    node of its source key, or a name of its own if there is none. *)
Definition merged (hi : nat) (item : ParsedOutbound) (q : ProxyOutbound) : Prop :=
  exists r, (List.length (sv_heap s) <= r < hi)%nat /\
    ((exists p, old_node p /\ SubscriptionNodeID p = po_SourceKey item /\ q = carry_over (Name p) p (node_of sub item r)) \/
     ((forall p, old_node p -> SubscriptionNodeID p <> po_SourceKey item) /\
      exists avoid name, uniqueOutboundName (po_BaseName item) (sb_Name sub) avoid = Some name /\ name <> ""%string /\
        q = rename name (node_of sub item r))).

Lemma merged_fields hi item q :
  Validate (po_Outbound item) = None -> (forall p, old_node p -> Name p <> ""%string) -> merged hi item q ->
  Validate q = None /\ SubscriptionID q = sb_ID sub /\ SubscriptionNodeID q = po_SourceKey item /\
  exists r, runtime q = Some r /\ (List.length (sv_heap s) <= r < hi)%nat.
Proof.
  intros Hv Hne (r & Hr & [(p & Hp & Hk & ->)|(_ & avoid & name & _ & Hn & ->)]).
  - destruct (Validate_merged sub (Name p) p item r Hv (Hne p Hp)) as [-> _]. split_and!; [done..|]. by exists r.
  - destruct (Validate_merged sub name zero_outbound item r Hv Hn) as [_ ->]. split_and!; [done..|]. by exists r.
Qed.

Variable order : list string.
Hypotheses (Hfile : table_wf (sv_heap s) (oc_outbounds (sv_configMgr s)))
           (Horder : order ≡ₚ (map_to_list (oc_outbounds (sv_configMgr s))).*1).

Let bySource := by_source (GetBySubscriptionID (sv_configMgr s) order (sb_ID sub)).

Lemma bySource_Some key p : bySource !! key = Some p -> old_node p /\ SubscriptionNodeID p = key.
Proof. intros [Hp Hk]%by_source_Some. split; [|done]. by apply (by_subscription _ _ _ _ _ Hfile Horder). Qed.

Lemma bySource_None key p : bySource !! key = None -> key <> ""%string -> old_node p -> SubscriptionNodeID p <> key.
Proof. intros Hn Hk Hp. eapply by_source_None; [exact Hn|done|]. by apply (by_subscription _ _ _ _ _ Hfile Horder). Qed.

Lemma old_node_name p : old_node p -> Name p <> ""%string.
Proof. intros [Hp _]. destruct (Hfile _ _ Hp) as (_ & Hv & _). by apply Validate_name. Qed.

(** Old nodes of different source keys have different names. *)
Lemma kept_names_distinct items :
  NoDup (po_SourceKey <$> items) -> Forall (fun i => known bySource i = true) items ->
  NoDup ((fun i => Name (default zero_outbound (bySource !! po_SourceKey i))) <$> items).
Proof.
  intros Hd Hk. change (NoDup (((fun k => Name (default zero_outbound (bySource !! k))) ∘ po_SourceKey) <$> items)).
  rewrite list_fmap_compose. apply NoDup_fmap_2_strong; [|done]. intros k1 k2 (i1 & -> & H1)%list_elem_of_fmap
    (i2 & -> & H2)%list_elem_of_fmap. rewrite Forall_forall in Hk.
  apply Hk, bool_decide_eq_true in H1 as [p1 E1]. apply Hk, bool_decide_eq_true in H2 as [p2 E2].
  rewrite E1, E2. cbn. intros En. apply bySource_Some in E1 as [[Hp1 _] <-], E2 as [[Hp2 _] <-].
  rewrite En, Hp2 in Hp1. by injection Hp1 as ->.
Qed.

Lemma merged_kept hi items ex :
  Forall (fun i => known bySource i = true) items ->
  Forall2 (built sub (List.length (sv_heap s)) hi) items ex ->
  Forall2 (merged hi) items (kept_node bySource <$> ex) /\
  ((fun pn : preparedNode => Name (previous_of bySource pn.1)) <$> ex)
    = ((fun i => Name (default zero_outbound (bySource !! po_SourceKey i))) <$> items) /\
  Forall (fun pn => old_node (previous_of bySource pn.1)) ex.
Proof.
  intros Hk Hf. induction Hf as [|i pn items ex (r & Hr & ->) Hf IH]; [by split_and!|].
  apply Forall_cons in Hk as [Hi Hk]. destruct (IH Hk) as (H1 & H2 & H3).
  apply bool_decide_eq_true in Hi as [p Hp]. pose proof (bySource_Some _ _ Hp) as [Ho Es].
  rewrite !fmap_cons, H2. cbn [fst]. unfold kept_node, previous_of in *. cbn [fst]. cbn [SubscriptionNodeID node_of in_subscription].
  rewrite Hp. cbn [default]. split_and!; [|done|].
  - constructor; [|done]. exists r. split; [done|]. left. by exists p.
  - constructor; [|done]. cbn. by rewrite Hp.
Qed.

Lemma merged_added hi items nw added :
  Forall (fun i => known bySource i = false /\ po_SourceKey i <> ""%string) items ->
  Forall2 (built sub (List.length (sv_heap s)) hi) items nw -> Forall2 (named_node sub) nw added ->
  Forall2 (merged hi) items added.
Proof.
  intros Hk Hf. revert added. induction Hf as [|i pn items nw (r & Hr & ->) Hf IH]; intros added Ha.
  { by apply Forall2_nil_inv_l in Ha as ->. }
  apply Forall2_cons_inv_l in Ha as (q & added' & (avoid & name & Hn & Hne & ->) & Ha & ->).
  apply Forall_cons in Hk as [[Hi He] Hk]. constructor; [|by apply IH]. exists r. split; [done|]. right. split.
  - intros p Hp. apply bool_decide_eq_false, eq_None_not_Some in Hi. by apply bySource_None.
  - by exists avoid, name.
Qed.

(** The merge ends; its nodes are those of the entries that count, known ones first. *)
Lemma merge_nodes_spec parsed sha1 :
  Forall (parsed_ok sha1) parsed ->
  let items := distinct_items ∅ parsed in
  exists kept added sn,
    merge_nodes sub order s parsed = Some (kept ++ added, zlen added, zlen kept, sn) /\
    Forall2 (merged (List.length (sn_heap sn))) (List.filter (known bySource) items) kept /\
    Forall2 (merged (List.length (sn_heap sn))) (List.filter (fun i => negb (known bySource i)) items) added /\
    (forall key, key ∈ sn_seen sn <-> key ∈ po_SourceKey <$> items) /\
    sn_heap sn = sv_heap s ++ replicate (List.length items) zero_runtime /\
    replacement s (sn_heap sn) (sb_ID sub) (kept ++ added).
Proof.
  intros Hp items. unfold merge_nodes. fold bySource.
  set (acc := {| sn_existing := []; sn_new := []; sn_seen := ∅; sn_heap := sv_heap s |}).
  destruct (sort_nodes_spec sub bySource parsed acc) as (ex & nw & E1 & F1 & E2 & F2 & E3 & E4).
  { eapply Forall_impl; [exact Hp|]. by intros i [? ? ? ? []]. }
  cbv zeta in *. cbn [acc sn_seen sn_existing sn_new sn_heap app] in E1, E2, E3, E4, F1, F2. fold items in F1, F2, E3, E4.
  set (sn := fold_left _ parsed acc) in *. set (hi := List.length (sn_heap sn)) in *.
  pose proof (distinct_items_nodup ∅ parsed) as Hdk. fold items in Hdk.
  assert (Forall (fun i => known bySource i = true) (List.filter (known bySource) items)) as Hkn.
  { apply Forall_forall. by intros i [? _]%elem_of_filter_b. }
  assert (Forall (fun i => known bySource i = false /\ po_SourceKey i <> ""%string)
            (List.filter (fun i => negb (known bySource i)) items)) as Hun.
  { apply Forall_forall. intros i [Hi%negb_true_iff Hin]%elem_of_filter_b. split; [done|].
    apply distinct_items_in in Hin. tauto. }
  destruct (merged_kept hi _ ex Hkn F1) as (Hm1 & Hnames & Hold).
  pose proof (kept_names_distinct _ (NoDup_filter_b _ _ _ Hdk) Hkn) as Hnd. rewrite <- Hnames in Hnd.
  assert (Forall (fun pn => Name (previous_of bySource pn.1) ∉ other_names (sv_configMgr s) order (sb_ID sub)) ex) as Hfree.
  { eapply Forall_impl; [exact Hold|]. intros pn [Hpn Hs].
    rewrite (other_names_in _ _ (sv_heap s)) by done. intros [q [Hq Hne]%map_lookup_filter_Some].
    rewrite Hpn in Hq. injection Hq as <-. by destruct Hne. }
  rewrite E1, E2. rewrite (keep_nodes_spec sub bySource ex) by done. cbn [mbind option_bind].
  set (used := other_names _ _ _) in *.
  destruct (name_nodes_spec sub nw (used ∪ names_of (kept_node bySource <$> ex))) as (added & used' & -> & F3 & Hda & Hfa).
  cbn [mbind option_bind]. eexists _, added, sn. split; [reflexivity|]. split; [done|].
  pose proof (merged_added hi _ nw added Hun F2 F3) as Hm2. split; [done|].
  split; [intros key; rewrite E3, elem_of_union, elem_of_list_to_set; set_solver|]. split; [done|].
  assert (Name <$> (kept_node bySource <$> ex) = (fun pn : preparedNode => Name (previous_of bySource pn.1)) <$> ex) as En
    by by rewrite <- list_fmap_compose.
  assert (forall q, q ∈ (kept_node bySource <$> ex) ++ added -> Name q ∉ used) as Hu.
  { intros q [(pn & -> & Hq)%list_elem_of_fmap|Hq]%elem_of_app.
    - rewrite Forall_forall in Hfree. by apply Hfree.
    - rewrite Forall_forall in Hfa. specialize (Hfa q Hq). set_solver. }
  split.
  - apply Forall_forall. intros q Hq.
    assert (exists i, i ∈ items /\ merged hi i q) as (i & Hi & Hmi).
    { apply elem_of_app in Hq as [Hq|Hq]; [destruct (forall2_in_r _ _ _ _ Hm1 Hq) as (i & Hi & Hq')
        |destruct (forall2_in_r _ _ _ _ Hm2 Hq) as (i & Hi & Hq')]; exists i; split; try done;
        by apply elem_of_filter_b in Hi as [_ Hi]. }
    apply distinct_items_in in Hi as [Hi _]. rewrite Forall_forall in Hp. destruct (Hp i Hi) as [Hv _ _ _ _].
    destruct (merged_fields hi i q Hv old_node_name Hmi) as (Hvq & Hsq & _ & r & Hrq & Hr). split_and!.
    + split; [done|]. exists r. split; [done|]. unfold hi in Hr. lia.
    + done.
    + apply eq_None_not_Some. rewrite <- (other_names_in _ _ (sv_heap s)) by done. by apply Hu.
  - rewrite fmap_app, En. apply NoDup_app. split; [done|]. split; [|done].
    intros name Hn (q & -> & Hq)%list_elem_of_fmap. rewrite Forall_forall in Hfa. apply (Hfa q Hq). rewrite <- En in Hn.
    apply elem_of_union_r. by apply names_of_in.
Qed.
End merged.
End merge_result.

(** ** Updates *)

Section update_facts.
Context `{Unicode}.
Variables (sha1 : string -> string) (json : string -> option object) (yaml : string -> list object).
Variables (create_dialer : ProxyOutbound -> bool) (http : option ProxyOutbound -> string -> string -> http_result).
Local Abbreviation the_update := (UpdateSubscription sha1 json yaml create_dialer http).
Local Abbreviation the_fetch := (FetchContent create_dialer http).

Lemma FetchContent_state s sub : om_wf (dw_m (sv_outboundMgr s)) -> (the_fetch s sub).1 = s.
Proof.
  intros Hw. unfold Subscription.FetchContent. destruct sub as [sub|]; [|done]. destruct (_ && _); [|done].
  unfold OutboundManager.GetOutbound. set (name := trim_space _). destruct (om_outbounds _ !! name) as [o|] eqn:Eo.
  - destruct (proj1 Hw name o Eo) as (_ & _ & _ & Hr). rewrite Clone_stored by done. rewrite insert_id by done.
    rewrite set_nodes_id. assert ({| sv_configMgr := sv_configMgr s; sv_outboundMgr := with_m (dw_m (sv_outboundMgr s)) (sv_outboundMgr s) |} = s) as ->
      by (by destruct s as [c []]). by repeat case_match.
  - by destruct s as [c []].
Qed.

(** What was fetched and read. *)
Definition fetched (s : Service) (sub : ProxySubscription) (f : FetchResult) (parsed : list ParsedOutbound) : Prop :=
  (the_fetch s (Some sub)).2 = inr f /\ ParseSubscriptionContent sha1 json yaml (fr_Content f) = Some parsed.

(** An update that gets to the merge. *)
Lemma UpdateSubscription_merge save_ok env s sub :
  om_wf (dw_m (sv_outboundMgr s)) ->
  (exists e, the_update save_ok env s (Some sub) = Some (s, inl e) /\ (e = UpdateContent \/ exists fe, e = UpdateFetch fe) /\
     forall f parsed, ~ fetched s sub f parsed) \/
  exists f parsed, fetched s sub f parsed /\
    the_update save_ok env s (Some sub) =
      match merge_nodes sub (se_order env) s parsed with
      | None => None
      | Some (next, added, updated, sn) =>
          let existing := GetBySubscriptionID (sv_configMgr s) (se_order env) (sb_ID sub) in
          let '(s', e) := replace_nodes save_ok env s (sn_heap sn) (sb_ID sub) existing next in
          Some (s', match e with
                    | Some e => inl e
                    | None => inr {| ur_NodeCount := zlen next; ur_AddedCount := added; ur_UpdatedCount := updated;
                              ur_RemovedCount := removed_count existing (sn_seen sn);
                              ur_ProxyUsed := fr_ProxyUsed f; ur_ContentSize := slen (fr_Content f);
                              ur_UploadBytes := fr_UploadBytes f; ur_DownloadBytes := fr_DownloadBytes f;
                              ur_TotalBytes := fr_TotalBytes f;
                              ur_ExpireAt := if is_zero_time (fr_ExpireAt f) then None else Some (fr_ExpireAt f) |}
                    end)
      end.
Proof.
  intros Hw. pose proof (FetchContent_state s (Some sub) Hw) as Hs. unfold fetched, Subscription.UpdateSubscription.
  destruct (the_fetch s (Some sub)) as [s1 r]. cbn in Hs. subst s1. cbn [snd]. destruct r as [fe|f].
  { left. exists (UpdateFetch fe). split; [done|]. split; [right; by exists fe|]. by intros f parsed []. }
  destruct (ParseSubscriptionContent sha1 json yaml (fr_Content f)) as [parsed|] eqn:Ep.
  - right. exists f, parsed. split; [done|]. destruct (merge_nodes _ _ _ _) as [[[[next added] updated] sn]|]; [|done].
    cbn [mbind option_bind]. destruct (replace_nodes _ _ _ _ _ _ _) as [s' [e|]]; done.
  - left. exists UpdateContent. split; [done|]. split; [by left|]. intros f' parsed [[= <-] E]. congruence.
Qed.
End update_facts.

Section update_theorems.
Context `{Unicode}.
Variables (sha1 : string -> string) (json : string -> option object) (yaml : string -> list object).
Variables (create_dialer : ProxyOutbound -> bool) (http : option ProxyOutbound -> string -> string -> http_result).
Local Abbreviation the_update := (UpdateSubscription sha1 json yaml create_dialer http).
Local Abbreviation the_fetch := (FetchContent create_dialer http).
Local Abbreviation was_fetched := (fetched sha1 json yaml create_dialer http).

(** The entries of the parsed nodes that count, those with an old node first. *)
Definition known_key (s : Service) (env : sync_env) (id : string) : ParsedOutbound -> bool :=
  known (by_source (GetBySubscriptionID (sv_configMgr s) (se_order env) id)).

Lemma update_outcome save_ok env s sub :
  in_step s -> orders_ok env s (sb_ID sub) -> sb_ID sub <> ""%string ->
  exists s' r, the_update save_ok env s (Some sub) = Some (s', r) /\
    match r with
    | inl e => (s' = s /\ forall f parsed, ~ was_fetched s sub f parsed) \/
        (save_ok = false /\ e = UpdateNodes NodeSave /\
         om_outbounds (dw_m (sv_outboundMgr s')) = om_outbounds (dw_m (sv_outboundMgr s)))
    | inr result =>
        save_ok = true /\ in_step s' /\
        exists f parsed kept added hi,
          was_fetched s sub f parsed /\ replaced s s' (sb_ID sub) (kept ++ added) /\
          Forall2 (merged sub s hi) (List.filter (known_key s env (sb_ID sub)) (distinct_items ∅ parsed)) kept /\
          Forall2 (merged sub s hi) (List.filter (fun i => negb (known_key s env (sb_ID sub) i)) (distinct_items ∅ parsed)) added /\
          ur_NodeCount result = zlen (kept ++ added) /\ ur_AddedCount result = zlen added /\ ur_UpdatedCount result = zlen kept /\
          exists seen, ur_RemovedCount result = removed_count (GetBySubscriptionID (sv_configMgr s) (se_order env) (sb_ID sub)) seen /\
            forall key, key ∈ seen <-> key ∈ po_SourceKey <$> distinct_items ∅ parsed
    end.
Proof.
  intros Hs Ho Hid. destruct (UpdateSubscription_merge sha1 json yaml create_dialer http save_ok env s sub (is_manager _ Hs))
    as [(e & -> & _ & Hno)|(f & parsed & Hf & ->)].
  { exists s, (inl e). split; [done|]. by left. }
  destruct Hf as [Hf Hp].
  destruct (merge_nodes_spec sub s (se_order env) (is_file _ Hs) (oo_file _ _ _ Ho) parsed sha1) as
    (kept & added & sn & -> & Hk & Ha & Hseen & Hheap & Hrep); [by eapply ParseSubscriptionContent_ok|].
  cbv zeta in *. assert (List.length (sv_heap s) <= List.length (sn_heap sn))%nat as Hl by (rewrite Hheap, length_app; lia).
  pose proof (replace_nodes_ok save_ok env s _ _ _ Hs Ho Hl Hid Hrep) as Hr.
  destruct (replace_nodes _ _ _ _ _ _ _) as [s' e]. destruct save_ok.
  - destruct Hr as (-> & Hs' & Hrepl). eexists s', (inr _). split; [reflexivity|]. split; [done|]. split; [done|].
    exists f, parsed, kept, added, (List.length (sn_heap sn)). split_and!; try done. cbn. by exists (sn_seen sn).
  - destruct Hr as (-> & Hom & _). eexists s', (inl _). split; [reflexivity|]. right. by split_and!.
Qed.

(** C17: an update of a subscription always returns, and when the file can be written it is all or
    nothing: on an error nothing has changed, on success the node file and the manager
    still have nodes of the same names, the same nodes for the subscription and
    untouched ones for the others. *)
Theorem subscription_update_atomic (env : sync_env) (s : Service) (sub : ProxySubscription) :
  in_step s -> orders_ok env s (sb_ID sub) -> sb_ID sub <> ""%string ->
  exists s' r, the_update true env s (Some sub) = Some (s', r) /\ in_step s' /\
    match r with
    | inl e => s' = s
    | inr _ =>
        (forall name p, SubscriptionID p = sb_ID sub -> oc_outbounds (sv_configMgr s') !! name = Some p ->
           om_outbounds (dw_m (sv_outboundMgr s')) !! name = Some p) /\
        (forall name p, SubscriptionID p <> sb_ID sub -> oc_outbounds (sv_configMgr s) !! name = Some p ->
           oc_outbounds (sv_configMgr s') !! name = Some p /\
           om_outbounds (dw_m (sv_outboundMgr s')) !! name = om_outbounds (dw_m (sv_outboundMgr s)) !! name)
    end.
Proof.
  intros Hs Ho Hid. destruct (update_outcome true env s sub Hs Ho Hid) as (s' & r & E & Hr). exists s', r. split; [done|].
  destruct r as [e|result]; [destruct Hr as [[-> _]|[? _]]; [by split|done]|].
  destruct Hr as (_ & Hs' & f & parsed & kept & added & hi & _ & [Hin Hout] & _). split; [done|]. split.
  - intros name p Hsub Hp. destruct (decide (name ∈ Name <$> kept ++ added)) as [(q & -> & Hq)%list_elem_of_fmap|Hni].
    + destruct (Hin q Hq) as (E1 & E2 & _). congruence.
    + destruct (Hout name Hni) as [E1 _]. rewrite Hp in E1. symmetry in E1. by apply map_lookup_filter_Some in E1 as [_ ?].
  - intros name p Hsub Hp. assert (other_nodes (sb_ID sub) (oc_outbounds (sv_configMgr s)) !! name = Some p) as Eo
      by by apply map_lookup_filter_Some.
    assert (name ∉ Name <$> kept ++ added) as Hni.
    { intros (q & -> & Hq)%list_elem_of_fmap. destruct (Hin q Hq) as (_ & _ & _ & E1). congruence. }
    destruct (Hout name Hni) as [E1 E2]. by rewrite Eo in E1, E2.
Qed.

Lemma filter_partition {A} (f : A -> bool) l : List.filter f l ++ List.filter (fun x => negb (f x)) l ≡ₚ l.
Proof.
  induction l as [|x l IH]; [done|]. cbn [List.filter]. destruct (f x); cbn [negb app]; [by constructor|].
  by rewrite <- Permutation_middle, IH.
Qed.

Lemma NoDup_fmap_unique {A B} (f : A -> B) l x y : NoDup (f <$> l) -> x ∈ l -> y ∈ l -> f x = f y -> x = y.
Proof.
  induction l as [|z l IH]; [by intros _ ?%not_elem_of_nil|]. rewrite fmap_cons. intros [Hn Hd]%NoDup_cons.
  intros [->|Hx]%elem_of_cons [->|Hy]%elem_of_cons E; [done| | |by apply IH].
  - destruct Hn. rewrite E. by apply list_elem_of_fmap_2.
  - destruct Hn. rewrite <- E. by apply list_elem_of_fmap_2.
Qed.

Lemma forall2_in_l {A B} (R : A -> B -> Prop) l k x : Forall2 R l k -> x ∈ l -> exists y, y ∈ k /\ R x y.
Proof. intros Hf Hx. apply Forall2_flip in Hf. by apply (forall2_in_r _ _ _ x Hf). Qed.

Lemma merged_keys s sub hi items next :
  Forall2 (merged sub s hi) items next -> SubscriptionNodeID <$> next = po_SourceKey <$> items.
Proof.
  induction 1 as [|i q items next (r & _ & Hq) _ IH]; [done|]. rewrite !fmap_cons, IH. f_equal.
  by destruct Hq as [(p & _ & _ & ->)|(_ & avoid & name & _ & _ & ->)].
Qed.


(** Removing the nodes of a subscription takes exactly them out of the node file and of the
    manager, and leaves every other node. *)
Theorem RemoveSubscriptionNodes_spec (env : sync_env) (s : Service) (id : string) :
  in_step s -> orders_ok env s id -> id <> ""%string ->
  let '(s', e) := RemoveSubscriptionNodes true env s id in
  e = None /\ in_step s' /\
  (forall name, oc_outbounds (sv_configMgr s') !! name = other_nodes id (oc_outbounds (sv_configMgr s)) !! name) /\
  (forall name p, oc_outbounds (sv_configMgr s) !! name = Some p ->
     om_outbounds (dw_m (sv_outboundMgr s')) !! name =
       (if String.eqb (SubscriptionID p) id then None else om_outbounds (dw_m (sv_outboundMgr s)) !! name)).
Proof.
  intros Hs Ho Hid. unfold RemoveSubscriptionNodes. rewrite (proj2 (String.eqb_neq _ _) Hid).
  assert (replacement s (sv_heap s) id []) as Hr by by split; constructor.
  pose proof (replace_nodes_ok true env s (sv_heap s) id [] Hs Ho (Nat.le_refl _) Hid Hr) as H1.
  destruct (replace_nodes _ _ _ _ _ _ _) as [s' e]. destruct H1 as (-> & Hs' & [_ Hout]). split; [done|]. split; [done|].
  specialize (fun name => Hout name (not_elem_of_nil name)). split; [intros name; apply Hout|].
  intros name p Hp. destruct (Hout name) as [_ ->]. destruct (String.eqb_spec (SubscriptionID p) id) as [Es|Hne].
  - destruct (other_nodes id _ !! name) as [q|] eqn:Eo; [|done]. apply map_lookup_filter_Some in Eo as [Eq Hq].
    rewrite Hp in Eq. by injection Eq as <-.
  - assert (other_nodes id (oc_outbounds (sv_configMgr s)) !! name = Some p) as -> by by apply map_lookup_filter_Some. done.
Qed.

(** ** A write that fails *)

(** Both tables are well formed, in step or not. *)
Definition tables_ok (s : Service) : Prop :=
  table_wf (sv_heap s) (oc_outbounds (sv_configMgr s)) /\ om_wf (dw_m (sv_outboundMgr s)).

(** The node of a source key is in the file, and the manager has no node of its name. *)
Definition stuck (sub : ProxySubscription) (s : Service) (key : string) : Prop :=
  exists q, old_node sub s q /\ SubscriptionNodeID q = key /\ om_outbounds (dw_m (sv_outboundMgr s)) !! Name q = None /\
    forall q', old_node sub s q' -> SubscriptionNodeID q' = key -> q' = q.

Lemma sync_next_missing (previous : gset string) kept added m name :
  om_wf m -> Forall (ready (om_runtimes m)) kept -> NoDup (Name <$> kept) -> (forall p, p ∈ kept -> Name p ∈ previous) ->
  name ∈ Name <$> kept -> om_outbounds m !! name = None ->
  exists m', sync_next previous (kept ++ added) m = (m', Some ErrOutboundNotFound) /\ om_outbounds m' !! name = None /\
    om_wf m' /\ om_runtimes m' = om_runtimes m.
Proof.
  revert m. induction kept as [|p rest IH]; intros m Hw Hr Hd Hin Hname Hm; [by apply not_elem_of_nil in Hname|].
  cbn [app sync_next]. apply Forall_cons in Hr as [Hp Hr]. rewrite fmap_cons in Hd. apply NoDup_cons in Hd as [Hn Hd].
  destruct (om_outbounds m !! Name p) as [o|] eqn:Eo.
  - assert (Name p ∈ previous <-> is_Some (om_outbounds m !! Name p)) as Hiff.
    { split; [by intros _; exists o|]. intros _. apply Hin. by left. }
    destruct (sync_node previous p m Hw Hp Hiff) as (m1 & q & -> & Hw1 & Eh & Et).
    rewrite fmap_cons in Hname. apply elem_of_cons in Hname as [->|Hname]; [congruence|].
    destruct (IH m1) as (m' & -> & Hm' & Hw' & Eh'); [done|by rewrite Eh|done|by intros x Hx; apply Hin; right|done| |].
    + rewrite Et, lookup_insert_ne; [done|]. intros <-. by apply Hn.
    + exists m'. rewrite Eh'. rewrite Eh. done.
  - rewrite decide_True by (apply Hin; by left). destruct Hp as (Hv & _).
    unfold OutboundManager.UpdateOutbound. rewrite Hv, Eo. by exists m.
Qed.

Lemma replaced_table_wf s h id next c' :
  table_wf (sv_heap s) (oc_outbounds (sv_configMgr s)) -> (List.length (sv_heap s) <= List.length h)%nat ->
  Forall (fun p => ready h p /\ SubscriptionID p = id /\ other_nodes id (oc_outbounds (sv_configMgr s)) !! Name p = None) next ->
  (forall p, p ∈ next -> oc_outbounds c' !! Name p = Some p) ->
  (forall name, name ∉ Name <$> next -> oc_outbounds c' !! name = other_nodes id (oc_outbounds (sv_configMgr s)) !! name) ->
  table_wf h (oc_outbounds c') /\
  forall q, oc_outbounds c' !! Name q = Some q /\ SubscriptionID q = id <-> q ∈ next.
Proof.
  intros Ht Hh Hr Hin Hoth. rewrite Forall_forall in Hr. split.
  - intros name p Hp. destruct (decide (name ∈ Name <$> next)) as [(q & -> & Hq)%list_elem_of_fmap|Hni].
    + rewrite Hin in Hp by done. injection Hp as <-. by apply ready_node, (Hr q).
    + rewrite Hoth in Hp by done. apply map_lookup_filter_Some in Hp as [Hp _]. eapply node_ok_mono; [exact Hh|]. by apply Ht.
  - intros q. split; [|intros Hq; split; [by apply Hin|by apply (Hr q)]]. intros [Hq Hs].
    destruct (decide (Name q ∈ Name <$> next)) as [(q' & En & Hq')%list_elem_of_fmap|Hni].
    + rewrite En, Hin in Hq by done. by injection Hq as <-.
    + rewrite Hoth in Hq by done. by apply map_lookup_filter_Some in Hq as [_ ?].
Qed.

Definition no_result : UpdateResult :=
  {| ur_NodeCount := 0; ur_AddedCount := 0; ur_UpdatedCount := 0; ur_RemovedCount := 0; ur_ProxyUsed := "";
     ur_ContentSize := 0; ur_UploadBytes := 0; ur_DownloadBytes := 0; ur_TotalBytes := 0; ur_ExpireAt := None |}.

(** What the merge and the file make of an update that gets there. *)
Lemma update_replaces save_ok env s sub f parsed :
  tables_ok s -> orders_ok env s (sb_ID sub) -> sb_ID sub <> ""%string -> was_fetched s sub f parsed ->
  exists kept added h c',
    let next := kept ++ added in
    let w := with_heap h (sv_outboundMgr s) in
    let items := distinct_items ∅ parsed in
    (List.length (sv_heap s) <= List.length h)%nat /\
    Forall2 (merged sub s (List.length h)) (List.filter (known_key s env (sb_ID sub)) items) kept /\
    Forall2 (merged sub s (List.length h)) (List.filter (fun i => negb (known_key s env (sb_ID sub) i)) items) added /\
    replacement s h (sb_ID sub) next /\ NoDup (SubscriptionNodeID <$> next) /\
    table_wf h (oc_outbounds c') /\
    (forall w' q, old_node sub {| sv_configMgr := c'; sv_outboundMgr := w' |} q <-> q ∈ next) /\
    exists r, the_update save_ok env s (Some sub) =
      (if save_ok then
         match syncRuntime env w (GetBySubscriptionID (sv_configMgr s) (se_order env) (sb_ID sub)) next with
         | (w', Some e) => Some ({| sv_configMgr := c'; sv_outboundMgr := w' |}, inl (UpdateRuntime e))
         | (w', None) => Some ({| sv_configMgr := c'; sv_outboundMgr := w' |}, inr r)
         end
       else Some ({| sv_configMgr := c'; sv_outboundMgr := w |}, inl (UpdateNodes NodeSave))).
Proof.
  intros [Ht Hw] Ho Hid Hf.
  destruct (UpdateSubscription_merge sha1 json yaml create_dialer http save_ok env s sub Hw) as [(e & _ & _ & Hno)|(f' & parsed' & Hf' & ->)].
  { by destruct (Hno f parsed). }
  assert (parsed' = parsed) as ->. { destruct Hf as [E1 E2], Hf' as [E3 E4]. rewrite E1 in E3. injection E3 as <-. congruence. }
  destruct (merge_nodes_spec sub s (se_order env) Ht (oo_file _ _ _ Ho) parsed sha1) as
    (kept & added & sn & -> & Hk & Ha & Hseen & Hheap & Hrep); [eapply ParseSubscriptionContent_ok; exact (proj2 Hf)|].
  cbv zeta in *. assert (List.length (sv_heap s) <= List.length (sn_heap sn))%nat as Hl by (rewrite Hheap, length_app; lia).
  destruct Hrep as [Hr Hd].
  destruct (ReplaceSubscription_ready save_ok (sn_heap sn) (sv_configMgr s) (sb_ID sub) (kept ++ added) Hid Hd Hr) as (c' & E & Hin & Hoth).
  destruct (replaced_table_wf s (sn_heap sn) (sb_ID sub) (kept ++ added) c' Ht Hl Hr Hin Hoth) as [Hwf Hnode].
  exists kept, added, (sn_heap sn), c'. split; [done|]. split; [done|]. split; [done|]. split; [done|].
  split; [|split; [done|split; [done|]]].
  - pose proof (filter_partition (known_key s env (sb_ID sub)) (distinct_items ∅ parsed)) as Hperm.
    rewrite (merged_keys s sub _ _ _ (Forall2_app Hk Ha)), Hperm. apply distinct_items_nodup.
  - unfold replace_nodes. rewrite E. destruct save_ok; [|by exists no_result].
    destruct (syncRuntime _ _ _ _) as [w' [e|]]; cbn [fmap option_fmap option_map]; [by exists no_result|by eexists].
Qed.

Lemma merged_key sub s hi item q : merged sub s hi item q -> SubscriptionNodeID q = po_SourceKey item.
Proof. by intros (r & _ & [(p & _ & _ & ->)|(_ & avoid & name & _ & _ & ->)]). Qed.

Lemma tables_ok_heap s h c' :
  tables_ok s -> (List.length (sv_heap s) <= List.length h)%nat -> table_wf h (oc_outbounds c') ->
  tables_ok {| sv_configMgr := c'; sv_outboundMgr := with_heap h (sv_outboundMgr s) |}.
Proof.
  intros [_ Hw] Hl Hwf. split; [done|]. apply om_wf_set_nodes; [done|]. intros n o Hno.
  eapply stored_ok_mono; [exact Hl|]. by apply Hw.
Qed.

(** The write of the node file failing in an update takes the manager out of step for good.  The
    first update of a subscription leaves its nodes in the table of the file and not in the manager; and while
    the subscription lists a node that is in the file and not in the manager, every update
    fails because the outbound is not found and leaves it so, although the file can now
    be written. *)
Theorem failed_save_sticks (env : sync_env) (s : Service) (sub : ProxySubscription) (f : FetchResult)
    (parsed : list ParsedOutbound) (key : string) :
  tables_ok s -> orders_ok env s (sb_ID sub) -> sb_ID sub <> ""%string -> was_fetched s sub f parsed ->
  key ∈ po_SourceKey <$> distinct_items ∅ parsed ->
  (in_step s -> (forall p, ~ old_node sub s p) ->
     exists s', the_update false env s (Some sub) = Some (s', inl (UpdateNodes NodeSave)) /\
       tables_ok s' /\ stuck sub s' key) /\
  (stuck sub s key ->
     exists s', the_update true env s (Some sub) = Some (s', inl (UpdateRuntime ErrOutboundNotFound)) /\
       tables_ok s' /\ stuck sub s' key).
Proof.
  intros Hok Ho Hid Hf Hkey. apply list_elem_of_fmap in Hkey as (item & -> & Hitem). pose proof Hok as [Ht Hw].
  assert (po_SourceKey item <> ""%string) as Hne by apply (distinct_items_in _ _ _ Hitem).
  split.
  - intros Hs Hnone.
    destruct (update_replaces false env s sub f parsed Hok Ho Hid Hf) as
      (kept & added & h & c' & Hl & Hk & Ha & [Hr _] & Hnd & Hwf & Hnode & r & ->).
    eexists. split; [reflexivity|]. split; [by apply tables_ok_heap|].
    assert (item ∈ List.filter (fun i => negb (known_key s env (sb_ID sub) i)) (distinct_items ∅ parsed)) as Hi.
    { apply elem_of_filter_b. split; [|done]. apply negb_true_iff, bool_decide_eq_false. intros [p Hp].
      apply (bySource_Some sub s (se_order env) Ht (oo_file _ _ _ Ho)) in Hp as [Hp _]. by apply (Hnone p). }
    destruct (forall2_in_l _ _ _ _ Ha Hi) as (q & Hq & Hm). assert (q ∈ kept ++ added) as Hq' by (apply elem_of_app; by right).
    exists q. split; [by apply Hnode|]. split; [by apply (merged_key sub s (List.length h))|]. split.
    + apply eq_None_not_Some. intros Hsome. apply (is_names _ Hs) in Hsome. rewrite Forall_forall in Hr.
      destruct (Hr q Hq') as (_ & _ & Hno). destruct (other_nodes_names _ s _ _ Ht Hno Hsome) as (p & Hp & En & Hsp).
      apply (Hnone p). split; [by rewrite En|done].
    + intros q' Hq2%Hnode Ek. symmetry. apply (NoDup_fmap_unique SubscriptionNodeID _ _ _ Hnd Hq' Hq2). rewrite Ek.
      by apply (merged_key sub s (List.length h)).
  - intros (p & Hp & Hpk & Hmiss & Huniq).
    destruct (update_replaces true env s sub f parsed Hok Ho Hid Hf) as
      (kept & added & h & c' & Hl & Hk & Ha & [Hr Hd] & Hnd & Hwf & Hnode & r & ->).
    pose proof (tables_ok_heap s h c' Hok Hl Hwf) as [_ Hw0]. cbn [sv_outboundMgr] in Hw0.
    assert (item ∈ List.filter (known_key s env (sb_ID sub)) (distinct_items ∅ parsed)) as Hi.
    { apply elem_of_filter_b. split; [|done]. unfold known_key, known. apply bool_decide_eq_true.
      destruct (by_source _ !! po_SourceKey item) eqn:Eb; [done|]. exfalso.
      by apply (bySource_None sub s (se_order env) Ht (oo_file _ _ _ Ho) _ p Eb). }
    destruct (forall2_in_l _ _ _ _ Hk Hi) as (q & Hq & Hm). assert (q ∈ kept ++ added) as Hq' by (apply elem_of_app; by left).
    assert (Name q = Name p) as En.
    { destruct Hm as (k & _ & [(p' & Hp' & Ek & ->)|(Hno & _)]); [by rewrite (Huniq p' Hp' Ek)|by destruct (Hno p Hp)]. }
    destruct (sync_next_missing (names_of (GetBySubscriptionID (sv_configMgr s) (se_order env) (sb_ID sub))) kept added
      (dw_m (with_heap h (sv_outboundMgr s))) (Name q) Hw0) as (m' & Esync & Hm' & Hw' & Eh').
    + apply Forall_app in Hr as [Hr _]. eapply Forall_impl; [exact Hr|]. by intros x [].
    + rewrite fmap_app in Hd. by apply NoDup_app in Hd as (Hd & _).
    + intros x Hx. destruct (forall2_in_r _ _ _ _ Hk Hx) as (i & [Hki _]%elem_of_filter_b & k & _ & Hmx).
      apply names_of_in, (in_previous _ s env _ _ Ht Ho).
      destruct Hmx as [(p' & [Hp' Hsp'] & _ & ->)|(Hno & _)]; [by exists p'|].
      apply bool_decide_eq_true in Hki as [p' Hp'].
      apply (bySource_Some sub s (se_order env) Ht (oo_file _ _ _ Ho)) in Hp' as [Hp' Ek]. by destruct (Hno p' Hp').
    + by apply list_elem_of_fmap_2.
    + by rewrite En.
    + unfold syncRuntime. rewrite Esync. eexists. split; [reflexivity|]. split.
      * split; [|done]. unfold sv_heap. cbn. by rewrite Eh'.
      * exists q. split; [by apply Hnode|]. split; [by apply (merged_key sub s (List.length h))|]. split; [done|].
        intros q' Hq2%Hnode Ek. symmetry. apply (NoDup_fmap_unique SubscriptionNodeID _ _ _ Hnd Hq' Hq2). rewrite Ek.
        by apply (merged_key sub s (List.length h)).
Qed.
End update_theorems.

(** ** The header *)

Section header_facts.
Context `{Unicode}.

(** Visible ASCII characters. *)
Definition visible (z : Z) : bool := (33 <=? z) && (z <? 127).

Lemma visible_space b : visible (b2z b) = true -> ascii_space b = false.
Proof. destruct (ascii_space b) eqn:E; [|done]. revert E. clear. by destruct b; vm_compute. Qed.

Lemma visible_trimmed s : all_bytes visible s = true -> trim_space s = s.
Proof.
  intros Hs. apply (trim_plain s visible Hs); [|apply visible_space]. intros z _ [_ Hz%Z.ltb_lt]%andb_true_iff. apply Z.ltb_lt. lia.
Qed.

Lemma visible_ascii s : all_bytes visible s = true -> forallb (fun b => b2z b <? 128) (bytes_of s) = true.
Proof.
  unfold all_bytes. rewrite !forallb_forall. intros Hs b Hb. specialize (Hs b Hb). apply andb_true_iff in Hs as [_ Hs]. apply Z.ltb_lt in Hs. apply Z.ltb_lt. lia.
Qed.

(** A space before visible characters is trimmed. *)
Lemma trim_space_before s : all_bytes visible s = true -> trim_space (String " " s) = s.
Proof.
  intros Hs. pose proof (visible_trimmed s Hs) as Ht. pose proof (visible_ascii s Hs) as Ha.
  unfold trim_space in *. change (bytes_of (String " " s)) with (byte_of_ascii " " :: bytes_of s).
  rewrite trim_bytes_ascii in * by done. exact Ht.
Qed.

Lemma all_bytes_app f a b : all_bytes f (a ++ b) = all_bytes f a && all_bytes f b.
Proof. unfold all_bytes. by rewrite bytes_of_app, forallb_app. Qed.

Lemma all_bytes_cons f c s : all_bytes f (String c s) = f (b2z (byte_of_ascii c)) && all_bytes f s.
Proof. reflexivity. Qed.

Lemma digits_visible s : str_all is_digit s = true -> all_bytes visible s = true.
Proof.
  induction s as [|c s IH]; [done|]. cbn [str_all]. intros [Hc Hs]%andb_true_iff. rewrite all_bytes_cons, (IH Hs).
  rewrite andb_true_r. revert Hc. clear. by destruct c as [[] [] [] [] [] [] [] []]; vm_compute.
Qed.

Lemma split_any_app seps a c b :
  one_of_chars seps c = true -> str_all (fun x => negb (one_of_chars seps x)) a = true ->
  split_any seps (a ++ String c b) = a :: split_any seps b.
Proof.
  intros Hc. induction a as [|x a IH]; rewrite ?append_cons, ?append_empty; cbn [split_any str_all].
  - by rewrite Hc.
  - intros [Hx%negb_true_iff Ha]%andb_true_iff. by rewrite Hx, IH.
Qed.

Lemma split_any_one seps a : str_all (fun x => negb (one_of_chars seps x)) a = true -> split_any seps a = [a].
Proof.
  induction a as [|x a IH]; [done|]. cbn [split_any str_all]. intros [Hx%negb_true_iff Ha]%andb_true_iff.
  by rewrite Hx, IH.
Qed.

Lemma trim_chars_none cutset s :
  str_all (fun x => negb (one_of_chars cutset x)) s = true -> trim_chars cutset s = s.
Proof.
  intros Hs. assert (forall l, forallb (fun x => negb (one_of_chars cutset x)) l = true -> trim_chars_left cutset l = l) as Hl.
  { intros [|x l]; [done|]. cbn. intros [Hx%negb_true_iff _]%andb_true_iff. by rewrite Hx. }
  assert (forallb (fun x => negb (one_of_chars cutset x)) (list_ascii_of_string s) = true) as Ha.
  { induction s as [|x s IH]; [done|]. cbn in *. apply andb_true_iff in Hs as [Hx Hs]. by rewrite Hx, IH. }
  unfold trim_chars. rewrite (Hl _ Ha). rewrite Hl, rev_involutive; [apply string_of_list_ascii_of_string|].
  rewrite forallb_forall in Ha |- *. intros x Hx. by apply Ha, in_rev.
Qed.

Definition field_text (key : string) (v : Z) : string := (key ++ String "=" (pretty v))%string.

Definition field_key (key : string) : bool :=
  negb (contains1 key "=") && all_bytes visible key
  && str_all (fun x => negb (one_of_chars [";"; "&"; "010"; "013"]%char x)) key.

Lemma field_text_facts key v :
  0 <= v -> field_key key = true ->
  all_bytes visible (field_text key v) = true /\
  str_all (fun x => negb (one_of_chars [";"; "&"; "010"; "013"]%char x)) (field_text key v) = true.
Proof.
  intros Hv Hk. apply andb_true_iff in Hk as [[_ Hk1]%andb_true_iff Hk2]. destruct (pretty_text v Hv) as (Hd & _ & _).
  unfold field_text. rewrite all_bytes_app, all_bytes_cons, str_all_app, Hk1, Hk2, digits_visible by done.
  split; [done|]. cbn [str_all andb].
  change (negb (one_of_chars _ "=")) with true. cbn [andb]. apply (str_all_impl is_digit); [|done].
  clear. intros a. by destruct a as [[] [] [] [] [] [] [] []]; vm_compute.
Qed.

(** A field, with or without a space before it. *)
Lemma userinfo_field_text info key v f :
  0 <= v < 2 ^ 63 -> field_key key = true -> f = field_text key v \/ f = String " " (field_text key v) ->
  userinfo_field info f =
    let k := to_lower key in
    if String.eqb k "upload" then
      {| ui_upload := v; ui_download := ui_download info; ui_total := ui_total info; ui_expire := ui_expire info |}
    else if String.eqb k "download" then
      {| ui_upload := ui_upload info; ui_download := v; ui_total := ui_total info; ui_expire := ui_expire info |}
    else if String.eqb k "total" then
      {| ui_upload := ui_upload info; ui_download := ui_download info; ui_total := v; ui_expire := ui_expire info |}
    else if existsb (String.eqb k) ["expire"; "expires"; "expiration"]%string then
      {| ui_upload := ui_upload info; ui_download := ui_download info; ui_total := ui_total info; ui_expire := v |}
    else info.
Proof.
  intros Hv Hk Hf. destruct (field_text_facts key v ltac:(lia) Hk) as [Hvis _].
  assert (trim_space f = field_text key v) as Ht.
  { destruct Hf as [->| ->]; [by apply visible_trimmed|by apply trim_space_before]. }
  unfold userinfo_field. rewrite Ht. unfold field_text. apply andb_true_iff in Hk as [[Hc%negb_true_iff Hk1]%andb_true_iff _].
  rewrite cut_app by done. destruct (pretty_text v ltac:(lia)) as (Hd & _ & _).
  rewrite (visible_trimmed (pretty v)) by by apply digits_visible. rewrite trim_chars_none.
  2: { revert Hd. apply str_all_impl. clear. intros a. by destruct a as [[] [] [] [] [] [] [] []]; vm_compute. }
  rewrite ParseInt_pretty by done. cbn [negb orb]. rewrite (proj2 (Z.ltb_ge v 0)) by lia.
  by rewrite (visible_trimmed key).
Qed.

Lemma lower_keys :
  to_lower "upload" = "upload"%string /\ to_lower "download" = "download"%string /\
  to_lower "total" = "total"%string /\ to_lower "expire" = "expire"%string.
Proof. split_and!; vm_compute; reflexivity. Qed.

Definition userinfo_header (upload download total expire : Z) : string :=
  (field_text "upload" upload ++ String ";" (String " " (field_text "download" download) ++
   String ";" (String " " (field_text "total" total) ++ String ";" (String " " (field_text "expire" expire)))))%string.

Lemma userinfo_fold upload download total expire :
  0 <= upload < 2 ^ 63 -> 0 <= download < 2 ^ 63 -> 0 <= total < 2 ^ 63 -> 0 <= expire < 2 ^ 63 ->
  fold_left userinfo_field [field_text "upload" upload; String " " (field_text "download" download);
    String " " (field_text "total" total); String " " (field_text "expire" expire)]
    {| ui_upload := 0; ui_download := 0; ui_total := 0; ui_expire := 0 |} =
  {| ui_upload := upload; ui_download := download; ui_total := total; ui_expire := expire |}.
Proof.
  intros Hu Hd Ht He. cbn [fold_left].
  destruct lower_keys as (Lu & Ld & Lt & Le).
  rewrite (userinfo_field_text _ "upload" upload (field_text "upload" upload)), Lu by first [done|by vm_compute|by left].
  cbn [String.eqb Ascii.eqb Bool.eqb existsb orb ui_upload ui_download ui_total ui_expire].
  rewrite (userinfo_field_text _ "download" download (String " " (field_text "download" download))), Ld by first [done|by vm_compute|by right].
  cbn [String.eqb Ascii.eqb Bool.eqb existsb orb ui_upload ui_download ui_total ui_expire].
  rewrite (userinfo_field_text _ "total" total (String " " (field_text "total" total))), Lt by first [done|by vm_compute|by right].
  cbn [String.eqb Ascii.eqb Bool.eqb existsb orb ui_upload ui_download ui_total ui_expire].
  rewrite (userinfo_field_text _ "expire" expire (String " " (field_text "expire" expire))), Le by first [done|by vm_compute|by right].
  cbn [String.eqb Ascii.eqb Bool.eqb existsb orb ui_upload ui_download ui_total ui_expire].
  reflexivity.
Qed.

Lemma no_trail_after x c y :
  b2z (byte_of_ascii c) <? 128 = true -> y <> ""%string -> no_trail (bytes_of y) -> no_trail (bytes_of (x ++ String c y)).
Proof.
  intros Hc Hy Ht. rewrite bytes_of_app. change (bytes_of (String c y)) with (byte_of_ascii c :: bytes_of y).
  apply no_trail_app; [|done..]. intros E%bytes_of_nil. done.
Qed.

Lemma visible_trail s : all_bytes visible s = true -> no_trail (bytes_of s).
Proof. intros Hs. by apply trimmed_spec, visible_trimmed. Qed.

Lemma expire_time expire : 0 < expire ->
  (let expireSeconds := if 1000000000000 <? expire then Z.quot expire 1000 else expire in
   if expireSeconds <=? 0 then 0 else time_Unix expireSeconds)
  = time_Unix (if 1000000000000 <? expire then expire / 1000 else expire).
Proof.
  intros He. cbv zeta. destruct (1000000000000 <? expire) eqn:E.
  - apply Z.ltb_lt in E. rewrite Z.quot_div_nonneg by lia. rewrite (proj2 (Z.leb_gt _ 0)); [done|].
    apply Z.div_str_pos. lia.
  - by rewrite (proj2 (Z.leb_gt expire 0)) by lia.
Qed.

(** The traffic header that subscription servers send is read back: the bytes up, down and in
    total, and the end of the subscription, for every count a Go int64 holds, the end
    being in seconds or, when it is past 10^12, in milliseconds. *)
Theorem userinfo_roundtrip (upload download total expire : Z) :
  0 <= upload < 2 ^ 63 -> 0 <= download < 2 ^ 63 -> 0 <= total < 2 ^ 63 -> 0 < expire < 2 ^ 63 ->
  parseSubscriptionUserInfoHeader (userinfo_header upload download total expire) =
    (upload, download, total, time_Unix (if 1000000000000 <? expire then expire / 1000 else expire)).
Proof.
  intros Hu Hd Ht He.
  assert (field_key "upload" = true /\ field_key "download" = true /\ field_key "total" = true /\ field_key "expire" = true)
    as (Ku & Kd & Kt & Ke) by by vm_compute.
  destruct (field_text_facts "upload" upload ltac:(lia) Ku) as [Vu Su].
  destruct (field_text_facts "download" download ltac:(lia) Kd) as [Vd Sd].
  destruct (field_text_facts "total" total ltac:(lia) Kt) as [Vt St].
  destruct (field_text_facts "expire" expire ltac:(lia) Ke) as [Ve Se].
  assert (trim_space (userinfo_header upload download total expire) = userinfo_header upload download total expire) as Htrim.
  { unfold userinfo_header. apply trimmed_app; [done|by apply visible_trimmed|done| |done].
    apply no_trail_after; [done..|]. apply no_trail_after; [done..|]. apply (no_trail_after "" " "); [done..|].
    by apply visible_trail. }
  unfold parseSubscriptionUserInfoHeader. rewrite Htrim. cbv zeta.
  assert (String.eqb (userinfo_header upload download total expire) "" = false) as -> by done.
  unfold userinfo_header. rewrite split_any_app by done. rewrite (split_any_app _ (String " " _)) by done.
  rewrite (split_any_app _ (String " " _)) by done. rewrite split_any_one by done.
  rewrite userinfo_fold by first [done|lia]. cbn [ui_upload ui_download ui_total ui_expire].
  f_equal. apply expire_time. lia.
Qed.
End header_facts.

(** ** The scheduler *)

Section scheduler_facts.
Context `{Unicode} `{Location} {W : Type}.
Variable updater : sched_state W -> ProxySubscription -> sched_state W * (string + UpdateResult).
Variable save_ok : string -> nat -> bool.
Local Abbreviation the_updateOne := (updateOne updater save_ok).
Local Abbreviation the_update_due := (update_due updater save_ok).
Local Abbreviation the_runOnce := (runOnce updater save_ok).

(** What a write of the table does: nothing, or the copy with its defaults is stored. *)
Lemma sm_Update_cases ok m k c :
  let '(m', e) := sm_UpdateSubscription ok m k (Some c) in
  (e <> None /\ sm_subs m' = sm_subs m) \/
  (sm_subs m' = <[sb_ID (sb_ApplyDefaults c) := sb_ApplyDefaults c]>
     (if negb (String.eqb k (sb_ID (sb_ApplyDefaults c))) then delete k (sm_subs m) else sm_subs m)).
Proof.
  unfold sm_UpdateSubscription, sb_Validate. cbv zeta beta iota. destruct (sb_check (sb_ApplyDefaults c)); cbv iota; [by left|].
  destruct (sm_subs m !! k); cbv iota; [|by left].
  destruct (ensureUniqueLocked _ _ _); cbv iota; [by left|]. by destruct ok; right.
Qed.

(** Every entry of [id] was attempted at [t] or later. *)
Definition attempted_since (t : gotime) (id : string) (m : ProxySubscriptionConfigManager) : Prop :=
  forall s, sm_subs m !! id = Some s -> t <= sb_LastAttemptAt s.

Lemma attempted_write t id ok m k c :
  sb_LastAttemptAt c = t -> attempted_since t id m -> attempted_since t id (sm_UpdateSubscription ok m k (Some c)).1.
Proof.
  intros Hc Hm. pose proof (sm_Update_cases ok m k c) as Hs. destruct (sm_UpdateSubscription _ _ _ _) as [m' e]. cbn.
  intros s. destruct Hs as [[_ ->]| ->]; [by apply Hm|]. intros Hi. apply lookup_insert_Some in Hi as [[_ <-]|[_ Hi]]; [unfold sb_ApplyDefaults; cbn [sb_LastAttemptAt]; lia|].
  destruct (negb _); [apply lookup_delete_Some in Hi as [_ Hi]|]; by apply Hm.
Qed.

Lemma update_wf ok m k c : subs_wf (sm_subs m) -> subs_wf (sm_subs (sm_UpdateSubscription ok m k (Some c)).1).
Proof. exact (run_sub_op_wf m (SubUpdate ok k (Some c))). Qed.

(** The requests made while an update runs: they keep the table well formed, add no
    subscription and do not put an attempt back. *)
Definition well_behaved : Prop := forall st sub,
  (subs_wf (sm_subs st.1) -> subs_wf (sm_subs (updater st sub).1.1)) /\
  forall id s', sm_subs (updater st sub).1.1 !! id = Some s' ->
    exists s, sm_subs st.1 !! id = Some s /\ sb_LastAttemptAt s <= sb_LastAttemptAt s'.

Hypothesis Hupd : well_behaved.

Lemma attempted_updater t id st sub : attempted_since t id st.1 -> attempted_since t id (updater st sub).1.1.
Proof. intros Hm s' Hs'. destruct (proj2 (Hupd st sub) id s' Hs') as (s & Hs & Hle). specialize (Hm s Hs). lia. Qed.

(** The writes of [updateOne], whatever the result. *)
Lemma updateOne_shape st sub now :
  let '(m1, e1) := sm_UpdateSubscription (save_ok (sb_ID sub) 0) st.1 (sb_ID sub) (Some (with_attempt now sub)) in
  match e1 with
  | Some e => the_updateOne st sub now = ((m1, st.2), AttemptNotSaved e)
  | None =>
      let m2 := (updater (m1, st.2) (with_attempt now sub)).1.1 in
      exists c, sb_LastAttemptAt c = now /\
        (the_updateOne st sub now).1.1 = (sm_UpdateSubscription (save_ok (sb_ID sub) 1) m2 (sb_ID sub) (Some c)).1
  end.
Proof.
  unfold Subscription.updateOne. destruct (sm_UpdateSubscription _ _ _ _) as [m1 [e|]]; [done|]. cbv zeta.
  destruct (updater _ _) as [[m2 w] [text|result]]; cbn [fst snd].
  - exists (with_error text (with_attempt now sub)). split; [done|]. by destruct (sm_UpdateSubscription _ _ _ _).
  - exists (with_result now result (with_attempt now sub)). split; [done|].
    by destruct (sm_UpdateSubscription _ _ _ _) as [m3 [e|]].
Qed.

Lemma updateOne_wf st sub now : subs_wf (sm_subs st.1) -> subs_wf (sm_subs (the_updateOne st sub now).1.1).
Proof.
  intros Hw. pose proof (updateOne_shape st sub now) as Hs.
  pose proof (update_wf (save_ok (sb_ID sub) 0) st.1 (sb_ID sub) (with_attempt now sub) Hw) as H1.
  destruct (sm_UpdateSubscription _ _ _ _) as [m1 [e|]]; cbn [fst] in H1; [by rewrite Hs|].
  destruct Hs as (c & _ & ->). apply update_wf. by apply (proj1 (Hupd _ _)).
Qed.

Lemma updateOne_keeps t id st sub : attempted_since t id st.1 -> attempted_since t id (the_updateOne st sub t).1.1.
Proof.
  intros Hm. pose proof (updateOne_shape st sub t) as Hs.
  pose proof (attempted_write t id (save_ok (sb_ID sub) 0) st.1 (sb_ID sub) (with_attempt t sub) eq_refl Hm) as H1.
  destruct (sm_UpdateSubscription _ _ _ _) as [m1 [e|]]; cbn [fst] in H1; [by rewrite Hs|].
  destruct Hs as (c & Hc & ->). apply attempted_write; [done|]. by apply attempted_updater.
Qed.

Definition attempt_saved (a : update_attempt) : Prop := match a with AttemptNotSaved _ => False | _ => True end.

Lemma updateOne_records t st sub :
  trim_space (sb_ID sub) = sb_ID sub -> attempt_saved (the_updateOne st sub t).2 -> attempted_since t (sb_ID sub) (the_updateOne st sub t).1.1.
Proof.
  intros Htr Hsaved. pose proof (updateOne_shape st sub t) as Hs.
  pose proof (sm_Update_cases (save_ok (sb_ID sub) 0) st.1 (sb_ID sub) (with_attempt t sub)) as Hc.
  destruct (sm_UpdateSubscription _ _ _ _) as [m1 [e|]] eqn:E1; [by rewrite Hs in Hsaved|].
  destruct Hs as (c & Hct & ->). apply attempted_write; [done|]. apply attempted_updater. cbn [fst].
  destruct Hc as [[? _]|Hc]; [done|]. intros s. rewrite Hc. unfold sb_ApplyDefaults at 1. cbn [sb_ID with_attempt].
  rewrite Htr, lookup_insert_eq. by intros [= <-].
Qed.

Lemma update_due_records cancelled t due st st' l id a :
  (forall sub, sub ∈ due -> trim_space (sb_ID sub) = sb_ID sub) -> subs_wf (sm_subs st.1) ->
  the_update_due cancelled t due st = (st', l) ->
  subs_wf (sm_subs st'.1) /\ (attempted_since t id st.1 -> attempted_since t id st'.1) /\
  ((id, a) ∈ l -> (exists sub, sub ∈ due /\ sb_ID sub = id) /\ (attempt_saved a -> attempted_since t id st'.1)).
Proof.
  revert st l. induction due as [|sub rest IH]; intros st l Htr Hw; cbn [Subscription.update_due].
  { intros [= <- <-]. split_and!; [done..|]. by intros ?%not_elem_of_nil. }
  destruct (cancelled (sb_ID sub)).
  { intros [= <- <-]. split_and!; [done..|]. by intros ?%not_elem_of_nil. }
  pose proof (updateOne_wf st sub t Hw) as Hw1. pose proof (updateOne_keeps t id st sub) as Hk1.
  pose proof (updateOne_records t st sub (Htr sub ltac:(left))) as Hr1.
  destruct (the_updateOne st sub t) as [st1 a1] eqn:E1. cbn [fst snd] in Hw1, Hk1, Hr1.
  destruct (the_update_due cancelled t rest st1) as [st2 l2] eqn:E2. intros [= <- <-].
  destruct (IH st1 l2 ltac:(intros; apply Htr; by right) Hw1 E2) as (Hw2 & Hk2 & Hr2).
  split; [done|]. split; [by intros ?%Hk1%Hk2|]. intros [[= -> ->]|Hin]%elem_of_cons.
  - split; [exists sub; by split; [left|]|]. intros Hs. by apply Hk2, Hr1.
  - destruct (Hr2 Hin) as ((q & Hq & <-) & Hs). split; [|done]. exists q. by split; [right|].
Qed.

Lemma stored_trimmed subs id s : subs_wf subs -> subs !! id = Some s -> sb_ID s = id /\ trim_space (sb_ID s) = sb_ID s.
Proof.
  intros [Hw _] Hs. destruct (Hw id s Hs) as (E & cfg & Hv). split; [done|]. unfold sb_Validate in Hv. injection Hv as Hv _.
  rewrite <- Hv. unfold sb_ApplyDefaults. cbn [sb_ID]. apply trim_space_idemp.
Qed.

(** Every subscription of this identifier is updated daily at [h]:[m]. *)
Definition daily_subscription (id : string) (h m : Z) (mgr : ProxySubscriptionConfigManager) : Prop :=
  forall s, sm_subs mgr !! id = Some s ->
    GetAutoUpdateMode s = ProxySubscriptionAutoUpdateModeDaily /\ parseAutoUpdateClock (GetAutoUpdateTime s) = Some (h, m).

Lemma due_in_table now order mgr sub :
  subs_wf (sm_subs mgr) -> sub ∈ List.filter (due_now now) (GetAllSubscriptions mgr order) ->
  sm_subs mgr !! sb_ID sub = Some sub /\ trim_space (sb_ID sub) = sb_ID sub /\ subscriptionAutoUpdateDue sub now = Some true.
Proof.
  intros Hw [Hd (k & _ & Hk)%list_elem_of_omap]%elem_of_filter_b. destruct (stored_trimmed _ _ _ Hw Hk) as [E Ht].
  rewrite E at 1. split_and!; [done..|]. unfold due_now in Hd. by destruct (subscriptionAutoUpdateDue sub now) as [[]|].
Qed.

Lemma runOnce_cases cancelled now active order st st' l :
  the_runOnce cancelled now active order st = (st', l) ->
  (st' = st /\ l = []) \/
  ((forall n, active = Some n -> n <= 0) /\
   the_update_due cancelled now (List.filter (due_now now) (GetAllSubscriptions st.1 order)) st = (st', l)).
Proof.
  unfold Subscription.runOnce. cbv zeta. destruct (List.filter _ _) as [|x due] eqn:E; [intros [= <- <-]; by left|].
  destruct (match active with Some n => 0 <? n | None => false end) eqn:Ea; [intros [= <- <-]; by left|].
  intros Hu. right. split; [|done]. intros n ->. by apply Z.ltb_ge in Ea.
Qed.

(** A subscription that is updated daily is attempted at most once a day: after a run of the
    scheduler attempted it and stored the attempt, whether or not the update succeeded, a
    run at any other time of the same day does not; and no run attempts anything while
    sessions are active. *)
Theorem daily_update_once (cancelled1 cancelled2 : string -> bool) (now1 now2 : gotime) (active1 active2 : option Z)
    (order1 order2 : list string) (st st1 st2 : sched_state W) (l1 l2 : list (string * update_attempt)) (id : string) (h m : Z)
    (a : update_attempt) :
  subs_wf (sm_subs st.1) -> daily_subscription id h m st.1 -> daily_subscription id h m st1.1 ->
  the_runOnce cancelled1 now1 active1 order1 st = (st1, l1) -> (id, a) ∈ l1 -> attempt_saved a ->
  the_runOnce cancelled2 now2 active2 order2 st1 = (st2, l2) -> local_day now2 = local_day now1 ->
  (forall n, active1 = Some n -> n <= 0) /\ forall b, (id, b) ∉ l2.
Proof.
  intros Hw Hd Hd1 H1 Hin Hsaved H2 Hday.
  destruct (runOnce_cases _ _ _ _ _ _ _ H1) as [[_ ->]|[Ha Hu1]]; [by apply not_elem_of_nil in Hin|]. split; [done|].
  destruct (update_due_records _ _ _ _ _ _ id a (fun sub Hs => proj1 (proj2 (due_in_table _ _ _ _ Hw Hs))) Hw Hu1)
    as (Hw1 & _ & Hrec). destruct (Hrec Hin) as ((sub & Hsub & Eid) & Hsince). specialize (Hsince Hsaved).
  destruct (due_in_table _ _ _ _ Hw Hsub) as (Hstored & _ & Hdue). rewrite Eid in Hstored.
  destruct (Hd sub Hstored) as [Hmode Hclock].
  assert (day_at (local_day now1) h m <= now1) as Hge.
  { unfold subscriptionAutoUpdateDue in Hdue. rewrite Hmode, String.eqb_refl, Hclock in Hdue. destruct (negb _ || _); [done|].
    destruct (Z.ltb_spec now1 (day_at (local_day now1) h m)); [done|lia]. }
  intros b Hin2. destruct (runOnce_cases _ _ _ _ _ _ _ H2) as [[_ ->]|[_ Hu2]]; [by apply not_elem_of_nil in Hin2|].
  destruct (update_due_records _ _ _ _ _ _ id b (fun sub Hs => proj1 (proj2 (due_in_table _ _ _ _ Hw1 Hs))) Hw1 Hu2)
    as (_ & _ & Hrec2). destruct (Hrec2 Hin2) as ((sub2 & Hsub2 & Eid2) & _).
  destruct (due_in_table _ _ _ _ Hw1 Hsub2) as (Hstored2 & _ & Hdue2). rewrite Eid2 in Hstored2.
  destruct (Hd1 sub2 Hstored2) as [Hmode2 Hclock2]. specialize (Hsince sub2 Hstored2).
  unfold subscriptionAutoUpdateDue in Hdue2. rewrite Hmode2, String.eqb_refl, Hclock2, Hday in Hdue2.
  destruct (negb _ || _); [done|]. destruct (now2 <? _); [done|].
  rewrite (proj2 (Z.ltb_ge (sb_LastAttemptAt sub2) _)) in Hdue2 by lia. done.
Qed.
End scheduler_facts.

Section lost_update.
Context `{Unicode} `{Location} {W : Type}.

(** An automatic update writes back the copy of the subscription that was taken before the
    download: whatever other requests stored under it meanwhile, a new address, a new
    group or that it is disabled, is lost when the update is complete. *)
Theorem scheduler_lost_update (updater : sched_state W -> ProxySubscription -> sched_state W * (string + UpdateResult))
    (save_ok : string -> nat -> bool) (st st' : sched_state W) (sub : ProxySubscription) (now : gotime) (result : UpdateResult) :
  trim_space (sb_ID sub) = sb_ID sub -> updateOne updater save_ok st sub now = (st', AttemptDone result) ->
  exists s', sm_subs st'.1 !! sb_ID sub = Some s' /\
    sb_Enabled s' = sb_Enabled sub /\ sb_URL s' = trim_space (sb_URL sub) /\ sb_Group s' = trim_space (sb_Group sub) /\
    sb_ProxyName s' = trim_space (sb_ProxyName sub) /\ sb_Name s' = trim_space (sb_Name sub) /\
    sb_AutoUpdateEnabled s' = sb_AutoUpdateEnabled sub /\ sb_LastAttemptAt s' = now /\ sb_LastUpdatedAt s' = now /\
    sb_LastNodeCount s' = ur_NodeCount result.
Proof.
  intros Ht. unfold updateOne. destruct (sm_UpdateSubscription _ _ _ _) as [m1 [e|]]; [done|].
  destruct (updater _ _) as [[m2 w] [text|r]]; [by destruct (sm_UpdateSubscription _ _ _ _)|].
  pose proof (sm_Update_cases (save_ok (sb_ID sub) 1%nat) m2 (sb_ID sub) (with_result now r (with_attempt now sub))) as Hc.
  destruct (sm_UpdateSubscription _ m2 _ _) as [m3 [e|]]; [done|]. intros [= <- <-]. destruct Hc as [[? _]|Hc]; [done|].
  exists (sb_ApplyDefaults (with_result now r (with_attempt now sub))). split; [|done]. cbn [fst]. rewrite Hc.
  unfold sb_ApplyDefaults at 1. cbn [sb_ID with_result with_attempt]. rewrite Ht. apply lookup_insert_eq.
Qed.
End lost_update.

(** * Concrete runs *)

Section demo.
#[local] Existing Instance ascii_unicode.
#[local] Existing Instance UTC.

Definition demo_subscription : ProxySubscription :=
  {| sb_ID := "s1"; sb_Name := "main"; sb_URL := "https://example.com/sub"; sb_Enabled := true; sb_Group := "";
     sb_ProxyName := ""; sb_UserAgent := ""; sb_AutoUpdateEnabled := None; sb_AutoUpdateMode := "daily";
     sb_AutoUpdateTime := "04:00"; sb_AutoUpdateIntervalDays := 1; sb_LastAttemptAt := 0; sb_LastUpdatedAt := 0;
     sb_LastNodeCount := 0; sb_LastAdded := 0; sb_LastUpdated := 0; sb_LastRemoved := 0; sb_LastUploadBytes := 0;
     sb_LastDownloadBytes := 0; sb_LastTotalBytes := 0; sb_LastExpireAt := 0; sb_LastError := "" |}.

Definition demo_http (_ : option ProxyOutbound) (_ _ : string) : http_result :=
  HttpResponse {| hr_StatusCode := 200; hr_userinfo := "total=10";
                  hr_body := Some "trojan://pw@hk.example.com:443?sni=x#hk"%string |}.
Definition demo_fetch : FetchResult :=
  {| fr_Content := "trojan://pw@hk.example.com:443?sni=x#hk"; fr_ProxyUsed := ""; fr_UploadBytes := 0; fr_DownloadBytes := 0;
     fr_TotalBytes := 10; fr_ExpireAt := 0 |}.
Definition demo_id_hash (s : string) : string := s.
Definition demo_json (_ : string) : option object := None.
Definition demo_yaml (_ : string) : list object := [].
Definition demo_dialer (_ : ProxyOutbound) : bool := true.

Definition demo_service : Service :=
  {| sv_configMgr := NewProxyOutboundConfigManager; sv_outboundMgr := dial_initial None |}.
Definition demo_env (order removed : list string) : sync_env :=
  {| se_order := order; se_removed := removed; se_now := 1; se_create := fun _ => None; se_nodes := order; se_cached := [] |}.

Definition demo_update (save_ok : bool) (env : sync_env) (s : Service) : option (Service * (update_err + UpdateResult)) :=
  UpdateSubscription demo_id_hash demo_json demo_yaml demo_dialer demo_http save_ok env s (Some demo_subscription).

Definition demo_after (save_ok : bool) : Service :=
  match demo_update save_ok (demo_env [] []) demo_service with Some (s, _) => s | None => demo_service end.

Definition demo_result : UpdateResult :=
  {| ur_NodeCount := 1; ur_AddedCount := 1; ur_UpdatedCount := 0; ur_RemovedCount := 0; ur_ProxyUsed := "";
     ur_ContentSize := 39; ur_UploadBytes := 0; ur_DownloadBytes := 0; ur_TotalBytes := 10; ur_ExpireAt := None |}.

Lemma demo_service_ok : tables_ok demo_service.
Proof.
  split; [by intros name p|]. split.
  - intros name o Ho. vm_compute in Ho. discriminate Ho.
  - intros name [x Hx]. vm_compute in Hx. discriminate Hx.
Qed.

Lemma demo_service_in_step : in_step demo_service.
Proof. by destruct demo_service_ok. Qed.

Lemma demo_orders : orders_ok (demo_env [] []) demo_service "s1".
Proof. by split. Qed.

Lemma demo_first_update : demo_update true (demo_env [] []) demo_service = Some (demo_after true, inr demo_result).
Proof. vm_compute. reflexivity. Qed.

Lemma demo_update_in_step env s s' r :
  in_step s -> orders_ok env s "s1" -> demo_update true env s = Some (s', inr r) -> in_step s'.
Proof.
  intros Hs Ho E. destruct (update_outcome demo_id_hash demo_json demo_yaml demo_dialer demo_http true env s demo_subscription
    Hs Ho ltac:(done)) as (s1 & r1 & E1 & Hr). unfold demo_update in E. rewrite E1 in E. injection E as -> ->.
  by destruct Hr as (_ & ? & _).
Qed.

Lemma demo_after_in_step : in_step (demo_after true).
Proof. exact (demo_update_in_step _ _ _ _ demo_service_in_step demo_orders demo_first_update). Qed.

Lemma demo_after_orders : orders_ok (demo_env ["hk"%string] ["hk"%string]) (demo_after true) "s1".
Proof. split; vm_compute; reflexivity. Qed.

Lemma subscription_update_atomic_witness :
  exists s' r, demo_update true (demo_env [] []) demo_service = Some (s', r) /\ in_step s'.
Proof.
  destruct (subscription_update_atomic demo_id_hash demo_json demo_yaml demo_dialer demo_http (demo_env [] []) demo_service
    demo_subscription demo_service_in_step demo_orders ltac:(done)) as (s' & r & E & Hs & _). exists s', r. split; [exact E|exact Hs].
Defined.


Lemma RemoveSubscriptionNodes_spec_witness :
  let '(s', e) := RemoveSubscriptionNodes true (demo_env ["hk"%string] ["hk"%string]) (demo_after true) "s1" in e = None /\ in_step s'.
Proof.
  pose proof (RemoveSubscriptionNodes_spec (demo_env ["hk"%string] ["hk"%string]) (demo_after true) "s1"
    demo_after_in_step demo_after_orders ltac:(done)) as Hr.
  destruct (RemoveSubscriptionNodes _ _ _ _) as [s' e]. destruct Hr as (He & Hs & _). split; [exact He|exact Hs].
Defined.

Definition demo_parsed : list ParsedOutbound :=
  default [] (ParseSubscriptionContent demo_id_hash demo_json demo_yaml (fr_Content demo_fetch)).

Lemma demo_fetched s : fetched demo_id_hash demo_json demo_yaml demo_dialer demo_http s demo_subscription demo_fetch demo_parsed.
Proof. split; vm_compute; reflexivity. Qed.

Definition demo_key : string := match demo_parsed with i :: _ => po_SourceKey i | [] => "" end.

Lemma failed_save_sticks_witness :
  exists s', demo_update false (demo_env [] []) demo_service = Some (s', inl (UpdateNodes NodeSave)) /\
    stuck demo_subscription s' demo_key.
Proof.
  destruct (failed_save_sticks demo_id_hash demo_json demo_yaml demo_dialer demo_http (demo_env [] []) demo_service
    demo_subscription demo_fetch demo_parsed demo_key) as [Hf _].
  - exact demo_service_ok.
  - exact demo_orders.
  - done.
  - apply demo_fetched.
  - vm_compute. left.
  - destruct (Hf demo_service_in_step) as (s' & E & _ & Hs); [by intros p [Hp _]|]. exists s'. split; [exact E|exact Hs].
Defined.

Lemma userinfo_roundtrip_witness :
  parseSubscriptionUserInfoHeader (userinfo_header 1 2 3 1700000000) = (1, 2, 3, time_Unix 1700000000).
Proof. apply (userinfo_roundtrip 1 2 3 1700000000); by split. Defined.

(** A day of the scheduler, on a service that gives an error or disables the subscription. *)
Definition demo_table : ProxySubscriptionConfigManager := (sm_Load NewProxySubscriptionConfigManager [Some demo_subscription]).1.
Definition failing_updater (st : ProxySubscriptionConfigManager * unit) (_ : ProxySubscription)
  : ProxySubscriptionConfigManager * unit * (string + UpdateResult) := (st, inl "no route"%string).
Definition disabling_updater (st : ProxySubscriptionConfigManager * unit) (s : ProxySubscription)
  : ProxySubscriptionConfigManager * unit * (string + UpdateResult) :=
  let off := {| sb_ID := sb_ID s; sb_Name := sb_Name s; sb_URL := sb_URL s; sb_Enabled := false; sb_Group := sb_Group s;
     sb_ProxyName := sb_ProxyName s; sb_UserAgent := sb_UserAgent s; sb_AutoUpdateEnabled := sb_AutoUpdateEnabled s;
     sb_AutoUpdateMode := sb_AutoUpdateMode s; sb_AutoUpdateTime := sb_AutoUpdateTime s;
     sb_AutoUpdateIntervalDays := sb_AutoUpdateIntervalDays s; sb_LastAttemptAt := sb_LastAttemptAt s;
     sb_LastUpdatedAt := 0; sb_LastNodeCount := 0; sb_LastAdded := 0; sb_LastUpdated := 0; sb_LastRemoved := 0;
     sb_LastUploadBytes := 0; sb_LastDownloadBytes := 0; sb_LastTotalBytes := 0; sb_LastExpireAt := 0; sb_LastError := "" |} in
  (((sm_UpdateSubscription true st.1 (sb_ID s) (Some off)).1, st.2), inr demo_result).
Definition always_saved (_ : string) (_ : nat) : bool := true.
Definition never_cancelled (_ : string) : bool := false.

Definition demo_run (now : gotime) (st : ProxySubscriptionConfigManager * unit) :=
  runOnce failing_updater always_saved never_cancelled now (Some 0) ["s1"%string] st.

Example demo_day :
  let '(st1, l1) := demo_run (utc_at 100 5 0) (demo_table, tt) in
  let '(st2, l2) := demo_run (utc_at 100 6 0) st1 in
  let '(_, l3) := demo_run (utc_at 101 4 0) st2 in
  (l1, l2, l3) = ([("s1", AttemptFailed "no route")], [], [("s1", AttemptFailed "no route")])%string.
Proof. vm_compute. reflexivity. Qed.

Lemma daily_update_once_witness :
  ("s1"%string, AttemptFailed "no route") ∉ (demo_run (utc_at 100 6 0) (demo_run (utc_at 100 5 0) (demo_table, tt)).1).2.
Proof.
  destruct (daily_update_once failing_updater always_saved) with
    (cancelled1 := never_cancelled) (cancelled2 := never_cancelled) (now1 := utc_at 100 5 0) (now2 := utc_at 100 6 0)
    (active1 := Some 0) (active2 := Some 0) (order1 := ["s1"%string]) (order2 := ["s1"%string]) (st := (demo_table, tt))
    (st1 := (demo_run (utc_at 100 5 0) (demo_table, tt)).1) (st2 := (demo_run (utc_at 100 6 0) (demo_run (utc_at 100 5 0) (demo_table, tt)).1).1)
    (l1 := (demo_run (utc_at 100 5 0) (demo_table, tt)).2) (l2 := (demo_run (utc_at 100 6 0) (demo_run (utc_at 100 5 0) (demo_table, tt)).1).2)
    (id := "s1"%string) (h := 4) (m := 0) (a := AttemptFailed "no route") as [_ Hn]; [..|exact (Hn (AttemptFailed "no route"))].
  - intros st sub. split; [done|]. intros id s' Hs. exists s'. split; [exact Hs|]. lia.
  - apply (run_sub_op_wf NewProxySubscriptionConfigManager (SubLoad [Some demo_subscription])), subs_wf_empty.
  - intros s Hs. vm_compute in Hs. injection Hs as <-. split; vm_compute; reflexivity.
  - intros s Hs. vm_compute in Hs. injection Hs as <-. split; vm_compute; reflexivity.
  - vm_compute. reflexivity.
  - vm_compute. left.
  - exact I.
  - vm_compute. reflexivity.
  - vm_compute. reflexivity.
Defined.

(** The subscription is disabled while it is updated, and enabled again at the end. *)
Lemma scheduler_lost_update_witness :
  let '(st', _) := updateOne disabling_updater always_saved (demo_table, tt) demo_subscription 5 in
  sb_Enabled <$> sm_subs (disabling_updater (demo_table, tt) demo_subscription).1.1 !! "s1"%string = Some false /\
  exists s', sm_subs st'.1 !! "s1"%string = Some s' /\ sb_Enabled s' = true.
Proof.
  destruct (scheduler_lost_update disabling_updater always_saved (demo_table, tt)
    (updateOne disabling_updater always_saved (demo_table, tt) demo_subscription 5).1 demo_subscription 5 demo_result)
    as (s' & Hs & He & _); [vm_compute; reflexivity..|].
  destruct (updateOne disabling_updater always_saved (demo_table, tt) demo_subscription 5) as [st' a].
  split; [vm_compute; reflexivity|]. exists s'. split; [exact Hs|exact He].
Defined.
End demo.
