(* ===== verification/Socks.v ===== *)
(** * Proxy ports and SOCKS: [internal/proxy/proxy_ports.go],
    [internal/proxy/socks_http_dialer.go]

    The handlers of a connection to a local proxy port (HTTP, SOCKS5, SOCKS4 or
    mixed), the allow list, the credentials, the choice of a node with failover, and
    the client side that speaks SOCKS5 to a remote proxy.

    A connection is the list of bytes the peer sends before it closes; a handler
    returns what it does: the bytes it writes, the addresses it dials and the bytes
    it starts to relay.  Writes to the peer succeed.  [dial k address] says whether the
    dial number [k] of the connection succeeds.  The HTTP parser is the record
    [http_lib]. *)

From Stdlib Require Import Strings.Ascii Strings.String.
From stdpp Require Import pretty.
From S2P Require Import Prelude GoBytes GoString Base64 Config NetIP ProxyPort Outbound LoadBalancer Latency.
From S2P Require Import OutboundManager Selection AutoPing.

(** ** Reading from the peer *)

Definition parser (A : Type) : Type := bytes -> option (A * bytes).

#[export] Instance parser_ret : MRet parser := fun A a i => Some (a, i).
#[export] Instance parser_bind : MBind parser := fun A B f p i =>
  match p i with Some (a, r) => f a r | None => None end.

Definition p_fail {A} : parser A := fun _ => None.
Definition ReadByte : parser Z := fun i => match i with [] => None | b :: r => Some (b2z b, r) end.
(** [io.ReadFull] of [n] bytes. *)
Definition ReadFull (n : Z) : parser bytes := fun i =>
  if zlen i <? n then None else Some (take (Z.to_nat n) i, drop (Z.to_nat n) i).
(** [_, _ = reader.ReadByte()] *)
Definition skip_byte : parser unit := fun i => Some (tt, tail i).

Definition port_of (b : bytes) : Z := be_uint b.
Definition ip_of (b : bytes) : list Z := map b2z b.

(** ** SOCKS5 requests *)

Definition readSocks5Request : parser string :=
  ver ← ReadByte;
  if negb (ver =? 5) then p_fail else
  cmd ← ReadByte;
  if negb (cmd =? 1) then p_fail else
  _ ← skip_byte;
  atyp ← ReadByte;
  host ← (if atyp =? 1 then (buf ← ReadFull 4; mret (ip_String (ip_of buf)))
          else if atyp =? 3 then (l ← ReadByte; buf ← ReadFull l; mret (string_of buf))
          else if atyp =? 4 then (buf ← ReadFull 16; mret (ip_String (ip_of buf)))
          else p_fail);
  portBuf ← ReadFull 2;
  mret (JoinHostPort host (pretty (port_of portBuf))).

Definition writeSocks5Reply (rep : Z) : bytes := raw [5; rep; 0; 1; 0; 0; 0; 0; 0; 0].

Definition writeSocks4Reply (status : Z) (ip : bytes) (port : Z) : bytes :=
  (raw [0; status; Z.shiftr port 8; Z.land port 0xff])
  ++ (if Nat.eqb (List.length ip) 4 then ip else raw [0; 0; 0; 0]).

Definition maxSocks4FieldLength : Z := 4096.

(** [readUntilNull]: [room] is what is left of the limit. *)
Fixpoint read_until_null (room : nat) (buf : bytes) (i : bytes) : option (string * bytes) :=
  match room with
  | O => None
  | S room =>
      match i with
      | [] => None
      | b :: r => if b2z b =? 0 then Some (string_of buf, r) else read_until_null room (buf ++ [b]) r
      end
  end.

Definition readUntilNull (maxLen : Z) : parser string :=
  read_until_null (Z.to_nat (if maxLen <=? 0 then maxSocks4FieldLength else maxLen)) [].

(** ** The handlers *)

Inductive port_event :=
| Wrote (b : bytes)
| Dialed (address : string) (ok : bool)
| Relayed (rest : bytes).

Definition requiresAuth (cfg : ProxyPortConfig) : bool :=
  negb (String.eqb (pp_Username cfg) "") || negb (String.eqb (pp_Password cfg) "").

(** The common end: dial, answer and relay. *)
Definition connect_and_relay (dial : nat -> string -> bool) (target : string) (failed ok : list port_event) (rest : bytes)
  : list port_event :=
  if dial O target then Dialed target true :: ok ++ [Relayed rest]
  else Dialed target false :: failed.

(** The events, and the rest of the input when the handshake succeeds. *)
Definition handleSocks5Auth (cfg : ProxyPortConfig) (i : bytes) : list port_event * option bytes :=
  let refused := ([Wrote (raw [1; 1])], None) in
  match ReadByte i with
  | None => refused
  | Some (ver, i) =>
      if negb (ver =? 1) then refused else
      match (ulen ← ReadByte; uname ← ReadFull ulen; plen ← ReadByte; pass ← ReadFull plen;
             mret (uname, pass)) i with
      | None => ([], None)
      | Some ((uname, pass), i) =>
          if negb (String.eqb (string_of uname) (pp_Username cfg))
             || negb (String.eqb (string_of pass) (pp_Password cfg)) then refused
          else ([Wrote (raw [1; 0])], Some i)
      end
  end.

Definition containsByte (list : bytes) (v : Z) : bool := existsb (fun b => b2z b =? v) list.

Definition handleSocks5Handshake (cfg : ProxyPortConfig) (i : bytes) : list port_event * option bytes :=
  match ReadByte i with
  | None => ([], None)
  | Some (ver, i) =>
      if negb (ver =? 5) then ([], None) else
      match (nMethods ← ReadByte; ReadFull nMethods) i with
      | None => ([], None)
      | Some (methods, i) =>
          let authRequired := requiresAuth cfg in
          let chosen := if authRequired then 2 else 0 in
          if negb (containsByte methods chosen) then ([Wrote (raw [5; 0xff])], None)
          else if authRequired then
            let '(events, r) := handleSocks5Auth cfg i in (Wrote (raw [5; chosen]) :: events, r)
          else ([Wrote (raw [5; chosen])], Some i)
      end
  end.

Definition handleSocks5 (cfg : ProxyPortConfig) (dial : nat -> string -> bool) (i : bytes) : list port_event :=
  let '(events, r) := handleSocks5Handshake cfg i in
  match r with
  | None => events
  | Some i =>
      events ++
      match readSocks5Request i with
      | None => [Wrote (writeSocks5Reply 1)]
      | Some (target, rest) =>
          connect_and_relay dial target [Wrote (writeSocks5Reply 5)] [Wrote (writeSocks5Reply 0)] rest
      end
  end.

Definition handleSocks4 (dial : nat -> string -> bool) (i : bytes) : list port_event :=
  let refused ip port := [Wrote (writeSocks4Reply 0x5b ip port)] in
  match ReadByte i with
  | None => []
  | Some (ver, i) =>
      if negb (ver =? 4) then [] else
      match ReadByte i with
      | None => refused [] 0
      | Some (cmd, i) =>
          if negb (cmd =? 1) then refused [] 0 else
          match (portBuf ← ReadFull 2; ipBuf ← ReadFull 4; mret (portBuf, ipBuf)) i with
          | None => []
          | Some ((portBuf, ipBuf), i) =>
              match readUntilNull maxSocks4FieldLength i with
              | None => refused [] 0
              | Some (_, i) =>
                  let port := port_of portBuf in
                  let connect host rest :=
                    connect_and_relay dial (JoinHostPort host (pretty port)) (refused ipBuf port)
                      [Wrote (writeSocks4Reply 0x5a ipBuf port)] rest in
                  let host := ip_String (ip_of ipBuf) in
                  match ip_of ipBuf with
                  | [0; 0; 0; d] =>
                      if negb (d =? 0) then
                        match readUntilNull maxSocks4FieldLength i with
                        | None => refused ipBuf 0
                        | Some (domain, rest) =>
                            connect (if negb (String.eqb domain "") then domain else host) rest
                        end
                      else connect host i
                  | _ => connect host i
                  end
              end
          end
      end
  end.

(** ** HTTP *)

(** What the handler uses of a parsed request. *)
Record http_request := {
  rq_Method : string;
  rq_Host : string;
  rq_URLHost : option string;
  rq_ProxyAuthorization : string;
  rq_Close : bool;
}.

(** What happens to a forwarded request: it cannot be written or its answer cannot be
    read or written back, or the answer is written back. *)
Inductive forward_result := ForwardFailed | Forwarded (resp : bytes) (resp_close : bool).

(** [net/http]: the parser, and the exchange with the remote server. *)
Record http_lib := {
  hl_ReadRequest : bytes -> option (http_request * bytes);
  hl_forward : nat -> http_request -> forward_result;
}.

Section http.
Context `{Unicode}.

Definition checkHTTPAuth (cfg : ProxyPortConfig) (req : http_request) : bool :=
  let header := rq_ProxyAuthorization req in
  if String.eqb header "" then false else
  match cut " " header with
  | None => false
  | Some (scheme, value) =>
      if negb (equal_fold scheme "Basic") then false else
      match base64_decode false true value with
      | None => false
      | Some creds =>
          match cut ":" creds with
          | None => false
          | Some (user, pass) => String.eqb user (pp_Username cfg) && String.eqb pass (pp_Password cfg)
          end
      end
  end.

Definition writeHTTPAuthRequired : bytes :=
  bytes_of "HTTP/1.1 407 Proxy Authentication Required" ++ raw [13; 10]
  ++ bytes_of "Proxy-Authenticate: Basic realm=" ++ raw [34] ++ bytes_of "Proxy" ++ raw [34; 13; 10; 13; 10].

Definition writeHTTPError (code : Z) (msg : string) : bytes :=
  bytes_of ("HTTP/1.1 " ++ pretty code ++ " " ++ msg)%string ++ raw [13; 10; 13; 10].

Definition connection_established : bytes :=
  bytes_of "HTTP/1.1 200 Connection Established" ++ raw [13; 10; 13; 10].

Definition with_default_port (target port : string) : string :=
  if contains1 target ":" then target else JoinHostPort target port.

Definition handleHTTPConnect (dial : nat -> string -> bool) (k : nat) (req : http_request) (rest : bytes)
  : list port_event :=
  if String.eqb (rq_Host req) "" then [Wrote (writeHTTPError 400 "Bad Request")] else
  connect_and_relay (fun _ => dial k) (with_default_port (rq_Host req) "443")
    [Wrote (writeHTTPError 502 "Bad Gateway")] [Wrote connection_established] rest.

(** The loop over the requests of a connection; [k] counts them. *)
Fixpoint handleHTTP (fuel : nat) (lib : http_lib) (cfg : ProxyPortConfig) (dial : nat -> string -> bool) (k : nat)
    (i : bytes) : option (list port_event) :=
  match fuel with
  | O => None
  | S fuel =>
      match hl_ReadRequest lib i with
      | None => Some []
      | Some (req, rest) =>
          if requiresAuth cfg && negb (checkHTTPAuth cfg req) then Some [Wrote writeHTTPAuthRequired]
          else if equal_fold (rq_Method req) "CONNECT" then Some (handleHTTPConnect dial k req rest)
          else
          let target := if String.eqb (rq_Host req) "" then default ""%string (rq_URLHost req) else rq_Host req in
          if String.eqb target "" then Some [Wrote (writeHTTPError 400 "Bad Request")] else
          let target := with_default_port target "80" in
          if negb (dial k target) then Some [Dialed target false; Wrote (writeHTTPError 502 "Bad Gateway")] else
          match hl_forward lib k req with
          | ForwardFailed => Some [Dialed target true]
          | Forwarded resp resp_close =>
              let events := [Dialed target true; Wrote resp] in
              if rq_Close req || resp_close then Some events
              else match handleHTTP fuel lib cfg dial (S k) rest with
                   | Some more => Some (events ++ more)
                   | None => None
                   end
          end
      end
  end.

(** ** A connection to the port *)

(** The first [flight] bytes come before the peer waits for an answer.  [Peek(4)] waits
    for four bytes: a peer that sends fewer and waits is dropped at the handshake
    deadline, when writes fail too. *)
Definition handleMixed (fuel : nat) (lib : http_lib) (cfg : ProxyPortConfig) (dial : nat -> string -> bool)
    (flight : nat) (i : bytes) : option (list port_event) :=
  match i with
  | [] => Some []
  | first :: _ =>
      if (Nat.ltb flight 4) && Nat.ltb flight (List.length i) then Some [] else
      if String.eqb (string_of (take 4 i)) "SSH-" then Some []
      else if b2z first =? 5 then Some (handleSocks5 cfg dial i)
      else if b2z first =? 4 then Some (handleSocks4 dial i)
      else handleHTTP fuel lib cfg dial 0 i
  end.

Definition parse_allow_entry (entry : string) : option (option IPNet) :=
  let entry := trim_space entry in
  if String.eqb entry "" then Some None
  else if contains1 entry "/" then Some <$> ParseCIDR entry
  else match ParseIP entry with
       | None => None
       | Some ip =>
           let bits := match To4 ip with None => 128 | Some _ => 32 end in
           Some (Some {| net_IP := ip; net_Mask := CIDRMask bits bits |})
       end.

(** [None] is an error. *)
Fixpoint parseAllowList (entries : list string) : option (list IPNet) :=
  match entries with
  | [] => Some []
  | entry :: rest =>
      match parse_allow_entry entry with
      | None => None
      | Some net =>
          match parseAllowList rest with
          | None => None
          | Some nets => Some (option_list net ++ nets)
          end
      end
  end.

(** The address is that of [conn.RemoteAddr()]. *)
Definition isAllowed (allowList : list IPNet) (addr : string) : bool :=
  match allowList with
  | [] => true
  | _ =>
      match split_host addr with
      | None => false
      | Some host =>
          match ParseIP host with
          | None => false
          | Some ip => existsb (fun netw => net_Contains netw ip) allowList
          end
      end
  end.

Definition handleConn (fuel : nat) (lib : http_lib) (cfg : ProxyPortConfig) (allowList : list IPNet)
    (dial : nat -> string -> bool) (addr : string) (flight : nat) (i : bytes) : option (list port_event) :=
  if negb (isAllowed allowList addr) then Some []
  else if String.eqb (pp_Type cfg) ProxyPortTypeHTTP then handleHTTP fuel lib cfg dial 0 i
  else if String.eqb (pp_Type cfg) ProxyPortTypeSocks5 then Some (handleSocks5 cfg dial i)
  else if String.eqb (pp_Type cfg) ProxyPortTypeSocks4 then Some (handleSocks4 dial i)
  else if String.eqb (pp_Type cfg) ProxyPortTypeMixed then handleMixed fuel lib cfg dial flight i
  else Some [].

(** ** Choosing the node *)

Definition proxySelectionAttemptLimit (m : outboundManagerImpl) (order : list string) (cfg : ProxyPortConfig) : Z :=
  let nodes := if pp_IsMultiNodeSelection cfg then zlen (pp_GetNodeList cfg) else 0 in
  if 0 <? nodes then nodes
  else if pp_IsGroupSelection cfg && negb (String.eqb (pp_GetGroupName cfg) "") then
    let members := zlen (GetOutboundsByGroup m order (pp_GetGroupName cfg)) in
    if 0 <? members then members else 1
  else 1.

Inductive port_dial_result :=
| PortConnected (nodeName : string)
| PortSelectionFailed (e : om_err) (tried : list string)
| PortAllFailed (tried : list string)
| PortDirectFailed
| PortCrashed.

(** The loop over the attempts; [try k name] says whether attempt [k] through the node
    (its dialer and its connection) succeeds.  The heap and the rotation of the load
    balancer are threaded through. *)
Fixpoint dial_attempts (getter : option server_getter) (intn : Z -> Z) (order : list string) (now : gotime)
    (cfg : ProxyPortConfig) (try_ : nat -> string -> bool) (attempts : nat) (m : outboundManagerImpl)
    (lb : LoadBalancer) (exclude : list string) : outboundManagerImpl * LoadBalancer * port_dial_result :=
  match attempts with
  | O => (m, lb, PortAllFailed exclude)
  | S attempts =>
      let '(h, lb, r) :=
        SelectOutboundWithFailoverForServer getter intn order now m lb (proxyPortSelectorID (pp_ID cfg))
          (pp_ProxyOutbound cfg) (pp_GetLoadBalance cfg) (pp_GetLoadBalanceSort cfg) exclude in
      let m := set_nodes (om_outbounds m) h m in
      match r with
      | Err e => (m, lb, PortSelectionFailed e exclude)
      | Panic => (m, lb, PortCrashed)
      | Ret selected =>
          let name := if IsDirectSelection (Some selected) then DirectNodeName else Name selected in
          if try_ (List.length exclude) name then (m, lb, PortConnected name)
          else dial_attempts getter intn order now cfg try_ attempts m lb (exclude ++ [name])
      end
  end.

Definition dialOutbound (getter : option server_getter) (intn : Z -> Z) (order : list string) (now : gotime)
    (cfg : ProxyPortConfig) (try_ : nat -> string -> bool) (m : outboundManagerImpl) (lb : LoadBalancer)
  : outboundManagerImpl * LoadBalancer * port_dial_result :=
  if pp_IsDirectConnection cfg then
    (m, lb, if try_ O DirectNodeName then PortConnected DirectNodeName else PortDirectFailed)
  else dial_attempts getter intn order now cfg try_ (Z.to_nat (proxySelectionAttemptLimit m order cfg)) m lb [].
End http.

(** ** The client side *)

(** [M.Socksaddr]: a domain name or an address, and a port.  [sa_Fqdn] is empty unless
    [IsFqdn] holds; [sa_IP] is empty, or four or sixteen octets. *)
Record Socksaddr := { sa_Fqdn : string; sa_IP : list Z; sa_Port : Z }.

(** [netip.Addr.As16] of an address that is not IPv4: zeros when there is none. *)
Definition as16 (ip : list Z) : list Z := if zlen ip =? 16 then ip else replicate 16 0.

Definition appendSocksaddr (addr : Socksaddr) : bytes :=
  (if negb (String.eqb (sa_Fqdn addr) "") then raw [3; slen (sa_Fqdn addr)] ++ bytes_of (sa_Fqdn addr)
   else if zlen (sa_IP addr) =? 4 then raw (1 :: sa_IP addr)
   else raw (4 :: as16 (sa_IP addr)))
  ++ raw [Z.shiftr (sa_Port addr) 8; sa_Port addr].

Inductive socks_err :=
| SocksShortRead
| SocksVersion
| SocksNeedsAuth
| SocksNoMethod
| SocksBadMethod
| SocksTooLong
| SocksAuthFailed
| SocksReply (code : Z)
| SocksAddrType.

(** What is written, and the rest of the replies or the error. *)
Definition socks5UserPassAuth (username password : string) (i : bytes) : list bytes * outcome socks_err bytes :=
  if (255 <? slen username) || (255 <? slen password) then ([], Err SocksTooLong) else
  let msg := raw [1; slen username] ++ bytes_of username ++ raw [slen password] ++ bytes_of password in
  ([msg],
   match ReadFull 2 i with
   | None => Err SocksShortRead
   | Some (resp, i) => if negb (default 0 (b2z <$> resp !! 1%nat) =? 0) then Err SocksAuthFailed else Ret i
   end).

Definition socks5Negotiate (username password : string) (i : bytes) : list bytes * outcome socks_err bytes :=
  let useAuth := negb (String.eqb username "") in
  let greeting := if useAuth then raw [5; 2; 0; 2] else raw [5; 1; 0] in
  match ReadFull 2 i with
  | None => ([greeting], Err SocksShortRead)
  | Some (reply, i) =>
      match map b2z reply with
      | [ver; method] =>
          if negb (ver =? 5) then ([greeting], Err SocksVersion)
          else if method =? 0 then ([greeting], Ret i)
          else if method =? 2 then
            if negb useAuth then ([greeting], Err SocksNeedsAuth)
            else let '(w, r) := socks5UserPassAuth username password i in (greeting :: w, r)
          else if method =? 0xff then ([greeting], Err SocksNoMethod)
          else ([greeting], Err SocksBadMethod)
      | _ => ([greeting], Err SocksShortRead)
      end
  end.

(** The errors of the parser: a short read or an unknown type. *)
Definition readSocksaddr (i : bytes) : outcome socks_err (Socksaddr * bytes) :=
  let short {A} (p : option A) : outcome socks_err A := match p with Some x => Ret x | None => Err SocksShortRead end in
  '(atyp, i) ← short (ReadByte i);
  '(addr, i) ←
    (if atyp =? 1 then '(b, i) ← short (ReadFull 4 i); Ret ((""%string, map b2z b), i)
     else if atyp =? 4 then '(b, i) ← short (ReadFull 16 i); Ret ((""%string, map b2z b), i)
     else if atyp =? 3 then '(l, i) ← short (ReadByte i); '(b, i) ← short (ReadFull l i); Ret ((string_of b, []), i)
     else Err SocksAddrType);
  '(port, i) ← short (ReadFull 2 i);
  Ret ({| sa_Fqdn := addr.1; sa_IP := addr.2; sa_Port := port_of port |}, i).

Definition socks5SendRequest (cmd : Z) (dest : Socksaddr) (i : bytes) : list bytes * outcome socks_err (Socksaddr * bytes) :=
  ([raw [5; cmd; 0] ++ appendSocksaddr dest],
   match ReadFull 3 i with
   | None => Err SocksShortRead
   | Some (header, i) =>
       match map b2z header with
       | [ver; rep; _] =>
           if negb (ver =? 5) then Err SocksVersion
           else if negb (rep =? 0) then Err (SocksReply rep)
           else readSocksaddr i
       | _ => Err SocksShortRead
       end
   end).

(** The TCP connection through a SOCKS5 proxy after the transport is up: what is written
    and the bytes that follow the reply. *)
Definition dialSOCKS5TCP (username password : string) (dest : Socksaddr) (i : bytes)
  : list bytes * outcome socks_err bytes :=
  let '(w, r) := socks5Negotiate username password i in
  match r with
  | Ret i =>
      let '(w', r) := socks5SendRequest 1 dest i in
      (w ++ w', match r with Ret (_, rest) => Ret rest | Err e => Err e | Panic => Panic end)
  | Err e => (w, Err e)
  | Panic => (w, Panic)
  end.

(** ** UDP datagrams through SOCKS5 *)

(** [None] is an error. *)
Definition socks5UDPHeaderLen (b : bytes) : option Z :=
  match b with
  | [] => None
  | t :: r =>
      let t := b2z t in
      if t =? 1 then if zlen b <? 1 + 4 + 2 then None else Some (1 + 4 + 2)
      else if t =? 4 then if zlen b <? 1 + 16 + 2 then None else Some (1 + 16 + 2)
      else if t =? 3 then
        match r with
        | [] => None
        | l :: _ => if zlen b <? 1 + 1 + b2z l + 2 then None else Some (1 + 1 + b2z l + 2)
        end
      else None
  end.

Definition socks5_udp_WriteTo (dest : Socksaddr) (p : bytes) : bytes := raw [0; 0; 0] ++ appendSocksaddr dest ++ p.

(** One datagram: [None] when it is skipped; the buffer of the caller has [room] bytes
    and that of the read 512 more. *)
Definition socks5_udp_datagram (room : Z) (datagram : bytes) : option bytes :=
  let buf := take (Z.to_nat (room + 512)) datagram in
  if zlen buf <? 3 then None else
  match buf with
  | _ :: _ :: frag :: body =>
      if negb (b2z frag =? 0) then None else
      match socks5UDPHeaderLen body with
      | None => None
      | Some off => Some (take (Z.to_nat room) (drop (Z.to_nat off) body))
      end
  | _ => None
  end.

(** [ReadFrom] over the datagrams that arrive: the first that is not skipped. *)
Fixpoint socks5_udp_ReadFrom (room : Z) (datagrams : list bytes) : option (bytes * list bytes) :=
  match datagrams with
  | [] => None
  | d :: rest =>
      match socks5_udp_datagram room d with
      | Some data => Some (data, rest)
      | None => socks5_udp_ReadFrom room rest
      end
  end.

(** * Facts *)

Lemma ReadFull_app a b : ReadFull (zlen a) (a ++ b) = Some (a, b).
Proof.
  unfold ReadFull. rewrite zlen_app, (proj2 (Z.ltb_ge _ _)) by (pose proof (zlen_nonneg b); lia).
  unfold zlen. by rewrite Nat2Z.id, take_app_length, drop_app_length.
Qed.

Lemma ReadFull_app_n n a b : n = zlen a -> ReadFull n (a ++ b) = Some (a, b).
Proof. intros ->. apply ReadFull_app. Qed.

Lemma ReadFull_inv n i a b : 0 <= n -> ReadFull n i = Some (a, b) -> i = a ++ b /\ zlen a = n.
Proof.
  unfold ReadFull. intros Hn. destruct (Z.ltb_spec (zlen i) n); [done|]. intros [= <- <-].
  rewrite take_drop. split; [done|]. unfold zlen in *. rewrite length_take. lia.
Qed.

Lemma ReadByte_inv i v r : ReadByte i = Some (v, r) -> exists b, i = b :: r /\ v = b2z b.
Proof. destruct i as [|b r']; [done|]. intros [= <- <-]. by exists b. Qed.

Lemma p_bind_inv {A C} (p : parser A) (f : A -> parser C) i c r :
  (p ≫= f) i = Some (c, r) <-> exists a r', p i = Some (a, r') /\ f a r' = Some (c, r).
Proof.
  unfold mbind, parser_bind. destruct (p i) as [[a r']|]; [naive_solver|].
  split; [done|]. by intros (? & ? & ? & _).
Qed.

Lemma p_bind_Some {A C} (p : parser A) (f : A -> parser C) i a r : p i = Some (a, r) -> (p ≫= f) i = f a r.
Proof. unfold mbind, parser_bind. by intros ->. Qed.

(** ** SOCKS5 credentials *)

Section auth.
Context `{Unicode}.

(** The bytes of a SOCKS5 client that presents the credentials of [cfg]. *)
Definition socks5_presented (cfg : ProxyPortConfig) (i : bytes) : Prop :=
  exists methods user pass rest,
    i = raw [5; zlen methods] ++ methods ++ raw [1; zlen user] ++ user ++ raw [zlen pass] ++ pass ++ rest /\
    containsByte methods 2 = true /\ string_of user = pp_Username cfg /\ string_of pass = pp_Password cfg.

Definition dials (events : list port_event) : Prop := exists address ok, Dialed address ok ∈ events.

Lemma b2z_raw b z : b2z b = z -> b = z2b z.
Proof. intros <-. by rewrite z2b_b2z. Qed.

Lemma auth_presented cfg i events r :
  handleSocks5Auth cfg i = (events, r) ->
  ~ dials events /\
  (forall rest, r = Some rest -> exists user pass,
     i = raw [1; zlen user] ++ user ++ raw [zlen pass] ++ pass ++ rest /\
     string_of user = pp_Username cfg /\ string_of pass = pp_Password cfg).
Proof.
  assert (forall b (x : option bytes) e r, ([Wrote b], x) = (e, r) -> ~ dials e) as Hw.
  { intros b x e r0 [= <- _] (a & ok & Hin%list_elem_of_singleton). done. }
  unfold handleSocks5Auth. destruct (ReadByte i) as [[ver i1]|] eqn:E1; [|intros E; split; [by eapply Hw|by injection E as _ <-]].
  destruct (Z.eqb_spec ver 1) as [->|]; cbn [negb]; [|intros E; split; [by eapply Hw|by injection E as _ <-]].
  apply ReadByte_inv in E1 as (b1 & -> & Hb1).
  destruct ((ulen ← ReadByte; uname ← ReadFull ulen; plen ← ReadByte; pass ← ReadFull plen; mret (uname, pass)) i1)
    as [[[uname pass] i2]|] eqn:E2.
  2: { intros [= <- <-]. split; [|done]. intros (? & ? & ?%elem_of_nil). done. }
  apply p_bind_inv in E2 as (ulen & i3 & (b2 & -> & ->)%ReadByte_inv & E2).
  apply p_bind_inv in E2 as (u & i4 & Hu & E2). apply ReadFull_inv in Hu as [-> Hul]; [|apply b2z_range].
  apply p_bind_inv in E2 as (plen & i5 & (b3 & -> & ->)%ReadByte_inv & E2).
  apply p_bind_inv in E2 as (p & i6 & Hp & E2). apply ReadFull_inv in Hp as [-> Hpl]; [|apply b2z_range].
  injection E2 as -> -> ->.
  destruct (String.eqb_spec (string_of uname) (pp_Username cfg)) as [Eu|]; cbn [negb orb];
    [|intros E; split; [by eapply Hw|by injection E as _ <-]].
  destruct (String.eqb_spec (string_of pass) (pp_Password cfg)) as [Ep|]; cbn [negb];
    [|intros E; split; [by eapply Hw|by injection E as _ <-]].
  intros E. split; [by eapply Hw|]. injection E as _ <-. intros rest [= ->]. exists uname, pass.
  split; [|done]. rewrite Hul, Hpl. unfold raw. cbn [map]. rewrite !z2b_b2z, (b2z_raw b1 1) by done. done.
Qed.

Lemma handshake_presented cfg i events r :
  requiresAuth cfg = true -> handleSocks5Handshake cfg i = (events, r) ->
  ~ dials events /\ (is_Some r -> socks5_presented cfg i).
Proof.
  intros Ha. assert (forall b, ~ dials [Wrote b]) as Hw
    by (intros b (a & ok & Hin%list_elem_of_singleton); done).
  assert (~ dials []) as Hn by (intros (a & ok & ?%elem_of_nil); done).
  unfold handleSocks5Handshake. destruct (ReadByte i) as [[ver i1]|] eqn:E1; [|intros [= <- <-]; split; [done|by intros [? ?]]].
  destruct (Z.eqb_spec ver 5) as [->|]; cbn [negb]; [|intros [= <- <-]; split; [done|by intros [? ?]]].
  apply ReadByte_inv in E1 as (b1 & -> & Hb1).
  destruct ((nMethods ← ReadByte; ReadFull nMethods) i1) as [[methods i2]|] eqn:E2;
    [|intros [= <- <-]; split; [done|by intros [? ?]]].
  apply p_bind_inv in E2 as (n & i3 & (b2 & -> & ->)%ReadByte_inv & E2).
  apply ReadFull_inv in E2 as [-> Hml]; [|apply b2z_range].
  rewrite Ha. destruct (containsByte methods 2) eqn:Hc; cbn [negb]; [|intros [= <- <-]; split; [apply Hw|by intros [? ?]]].
  destruct (handleSocks5Auth cfg i2) as [e2 r2] eqn:E3. apply auth_presented in E3 as [Hd Hp].
  intros [= <- <-]. split.
  { intros (a & ok & [?|Hin]%elem_of_cons); [done|]. apply Hd. by exists a, ok. }
  intros [rest Hr]. destruct (Hp rest Hr) as (user & pass & -> & Hu & Hpa). exists methods, user, pass, rest.
  split; [|done]. rewrite Hml. unfold raw. cbn [map]. rewrite z2b_b2z, (b2z_raw b1 5) by done. done.
Qed.

Lemma socks5_dials_presented cfg dial i :
  requiresAuth cfg = true -> dials (handleSocks5 cfg dial i) -> socks5_presented cfg i.
Proof.
  intros Ha Hd. unfold handleSocks5 in Hd. destruct (handleSocks5Handshake cfg i) as [events r] eqn:E.
  apply handshake_presented in E as [Hn Hp]; [|done]. destruct r as [rest|]; [by apply Hp|done].
Qed.

(** ** HTTP credentials *)

(** A request with the credentials was read from the connection. *)
Definition http_presented (lib : http_lib) (cfg : ProxyPortConfig) : Prop :=
  exists i req rest, hl_ReadRequest lib i = Some (req, rest) /\ checkHTTPAuth cfg req = true.

(** Every dial is for a request that presented the credentials, and what is dialled is what
    that request names. *)
Definition dial_of_request (lib : http_lib) (cfg : ProxyPortConfig) (address : string) : Prop :=
  exists i req rest host port, hl_ReadRequest lib i = Some (req, rest) /\ checkHTTPAuth cfg req = true /\
    (host = rq_Host req \/ rq_URLHost req = Some host) /\ (port = "443" \/ port = "80")%string /\
    address = with_default_port host port.

Lemma http_dials fuel lib cfg dial k i events address ok :
  requiresAuth cfg = true -> handleHTTP fuel lib cfg dial k i = Some events -> Dialed address ok ∈ events ->
  dial_of_request lib cfg address.
Proof.
  intros Ha. revert k i events. induction fuel as [|fuel IH]; intros k i events; [done|]. cbn [handleHTTP].
  destruct (hl_ReadRequest lib i) as [[req rest]|] eqn:Er; [|by intros [= <-] ?%elem_of_nil].
  rewrite Ha. destruct (checkHTTPAuth cfg req) eqn:Hc; cbn [andb negb].
  2: { intros [= <-] Hin. by apply list_elem_of_singleton in Hin. }
  destruct (equal_fold (rq_Method req) "CONNECT").
  { intros [= <-]. unfold handleHTTPConnect, connect_and_relay. destruct (String.eqb (rq_Host req) "").
    { by intros ?%list_elem_of_singleton. }
    intros Hin. exists i, req, rest, (rq_Host req), "443"%string. split_and!; [done..|by left|by left|].
    destruct (dial k _); cbn [app] in Hin; rewrite !elem_of_cons, ?elem_of_nil in Hin; naive_solver. }
  set (host := if String.eqb (rq_Host req) "" then default ""%string (rq_URLHost req) else rq_Host req).
  destruct (String.eqb_spec host "") as [|Hne]; [intros [= <-]; by intros ?%list_elem_of_singleton|].
  assert (dial_of_request lib cfg (with_default_port host "80")) as Hreq.
  { exists i, req, rest, host, "80"%string. split_and!; [done..| |by right|done]. unfold host in Hne |- *.
    destruct (String.eqb (rq_Host req) ""); [|by left]. destruct (rq_URLHost req); [by right|done]. }
  destruct (dial k _); cbn [negb].
  2: { intros [= <-] Hin. rewrite !elem_of_cons, elem_of_nil in Hin. naive_solver. }
  destruct (hl_forward lib k req) as [|resp rc].
  { intros [= <-] Hin. rewrite elem_of_cons, elem_of_nil in Hin. naive_solver. }
  destruct (rq_Close req || rc).
  { intros [= <-] Hin. rewrite !elem_of_cons, elem_of_nil in Hin. naive_solver. }
  destruct (handleHTTP fuel lib cfg dial (S k) rest) as [more|] eqn:Em; [|done].
  intros [= <-]. rewrite elem_of_cons, elem_of_cons. intros [[= -> ->]|[?|Hin]]; [done|done|by eapply IH].
Qed.

(** C18: a proxy port with a user name or a password that serves HTTP or SOCKS5 never dials for
    a peer that did not present exactly these credentials: over SOCKS5 in its
    authentication message, over HTTP in the request it dials for. *)
Theorem proxy_port_auth (fuel : nat) (lib : http_lib) (cfg : ProxyPortConfig) (allowList : list IPNet)
    (dial : nat -> string -> bool) (addr : string) (flight : nat) (i : bytes) (events : list port_event)
    (address : string) (ok : bool) :
  pp_Username cfg <> ""%string \/ pp_Password cfg <> ""%string ->
  pp_Type cfg = ProxyPortTypeHTTP \/ pp_Type cfg = ProxyPortTypeSocks5 ->
  handleConn fuel lib cfg allowList dial addr flight i = Some events -> Dialed address ok ∈ events ->
  isAllowed allowList addr = true /\
  (pp_Type cfg = ProxyPortTypeSocks5 -> socks5_presented cfg i) /\
  (pp_Type cfg = ProxyPortTypeHTTP -> dial_of_request lib cfg address).
Proof.
  intros Hcred Ht He Hin. assert (requiresAuth cfg = true) as Ha.
  { unfold requiresAuth. destruct Hcred as [Hc|Hc]; rewrite (proj2 (String.eqb_neq _ _) Hc); [done|by rewrite orb_true_r]. }
  unfold handleConn in He. destruct (isAllowed allowList addr); cbn [negb] in He.
  2: { injection He as <-. by apply elem_of_nil in Hin. }
  split; [done|]. destruct Ht as [E|E]; rewrite E in He |- *.
  - split; [by intros Hx; vm_compute in Hx|]. intros _. rewrite String.eqb_refl in He. by eapply http_dials.
  - split; [|by intros Hx; vm_compute in Hx]. intros _. injection He as <-. apply (socks5_dials_presented cfg dial); [done|]. by exists address, ok.
Qed.

(** A field that ends with a zero byte. *)
Lemma readUntilNull_app (field rest : bytes) (limit : Z) :
  0 < limit -> zlen field < limit -> Forall (fun b => b2z b <> 0) field ->
  readUntilNull limit (field ++ raw [0] ++ rest) = Some (string_of field, rest).
Proof.
  intros Hl Hf Hz. unfold readUntilNull. rewrite (proj2 (Z.leb_gt limit 0)) by done.
  assert (List.length field < Z.to_nat limit)%nat as Hn by (unfold zlen in Hf; lia).
  clear Hf Hl. revert Hn. generalize (Z.to_nat limit). intros room. change field with ([] ++ field) at 3.
  generalize (@nil byte). revert room. induction Hz as [|b l Hb Hz IH]; intros [|room] buf Hn; cbn in Hn; try lia.
  - cbn. change (b2z (z2b 0) =? 0) with true. cbv iota. by rewrite app_nil_r.
  - cbn [read_until_null app]. rewrite (proj2 (Z.eqb_neq _ _)) by done. rewrite IH by lia. by rewrite <- app_assoc.
Qed.

(** SOCKS4 is never authenticated: on a port of type "socks4" or "mixed", whatever user
    name and password the port is given, a peer that sends a SOCKS4 request, with any
    user id, is connected to the address it names. *)
Theorem socks4_ignores_credentials (fuel : nat) (lib : http_lib) (cfg : ProxyPortConfig) (allowList : list IPNet)
    (dial : nat -> string -> bool) (addr : string) (ip userid rest : bytes) (port : Z) :
  pp_Type cfg = ProxyPortTypeSocks4 \/ pp_Type cfg = ProxyPortTypeMixed ->
  isAllowed allowList addr = true ->
  List.length ip = 4%nat -> (forall d, map b2z ip <> [0; 0; 0; d]) ->
  zlen userid < maxSocks4FieldLength -> Forall (fun b => b2z b <> 0) userid -> 0 <= port < 65536 ->
  let i := raw [4; 1] ++ be_bytes 2 port ++ ip ++ userid ++ raw [0] ++ rest in
  let target := JoinHostPort (ip_String (map b2z ip)) (pretty port) in
  handleConn fuel lib cfg allowList dial addr (List.length i) i =
    Some (if dial O target then [Dialed target true; Wrote (writeSocks4Reply 0x5a ip port); Relayed rest]
          else [Dialed target false; Wrote (writeSocks4Reply 0x5b ip port)]).
Proof.
  intros Ht Hal Hip Hnz Hu Hu0 Hport i target.
  assert (handleSocks4 dial i = if dial O target then [Dialed target true; Wrote (writeSocks4Reply 0x5a ip port); Relayed rest]
          else [Dialed target false; Wrote (writeSocks4Reply 0x5b ip port)]) as E4.
  { unfold handleSocks4, i. change (raw [4; 1] ++ ?r) with (z2b 4 :: z2b 1 :: r).
    cbn [ReadByte]. rewrite b2z_z2b. change (negb (u8 4 =? 4)) with false. cbv iota. cbn [ReadByte].
    rewrite b2z_z2b. change (negb (u8 1 =? 1)) with false. cbv iota.
    rewrite (p_bind_Some (ReadFull 2) _ _ (be_bytes 2 port) (ip ++ userid ++ raw [0] ++ rest))
      by (apply ReadFull_app_n; by rewrite zlen_be_bytes).
    rewrite (p_bind_Some (ReadFull 4) _ _ ip (userid ++ raw [0] ++ rest))
      by (apply ReadFull_app_n; unfold zlen; by rewrite Hip). cbn [mret parser_ret].
    assert (readUntilNull maxSocks4FieldLength (userid ++ raw [0] ++ rest) = Some (string_of userid, rest)) as ->
      by by apply readUntilNull_app.
    unfold port_of. rewrite be_uint_be_bytes, wrapU_small by (cbn; lia). fold (ip_of ip). unfold target, connect_and_relay.
    unfold ip_of. assert (List.length (map b2z ip) = 4%nat) as Hl by by rewrite length_map.
    destruct (map b2z ip) as [|a [|b [|c [|d [|]]]]]; try discriminate Hl.
    destruct a; try done. destruct b; try done. destruct c; try done. by destruct (Hnz d). }
  unfold handleConn. rewrite Hal. cbn [negb]. destruct Ht as [->| ->].
  - by rewrite <- E4.
  - change (handleMixed fuel lib cfg dial (List.length i) i = Some (if dial O target then
      [Dialed target true; Wrote (writeSocks4Reply 0x5a ip port); Relayed rest]
      else [Dialed target false; Wrote (writeSocks4Reply 0x5b ip port)])). rewrite <- E4.
    unfold handleMixed. assert (exists r, i = z2b 4 :: z2b 1 :: r) as [r ->] by by eexists.
    rewrite Nat.ltb_irrefl, andb_false_r.
    assert (String.eqb (string_of (take 4 (z2b 4 :: z2b 1 :: r))) "SSH-" = false) as ->; [|by rewrite b2z_z2b].
    by destruct r as [|x [|y r]].
Qed.
End auth.

(** ** Requests and replies *)

(** The host of an address as the server prints it. *)
Definition sockaddr_host (a : Socksaddr) : string :=
  if String.eqb (sa_Fqdn a) "" then ip_String (sa_IP a) else sa_Fqdn a.

(** An address that can be sent: a name of at most 255 bytes, or an IP address. *)
Definition sendable (a : Socksaddr) : Prop :=
  0 <= sa_Port a < 65536 /\
  ((sa_Fqdn a <> ""%string /\ slen (sa_Fqdn a) <= 255) \/
   (sa_Fqdn a = ""%string /\ Forall octet (sa_IP a) /\ (List.length (sa_IP a) = 4 \/ List.length (sa_IP a) = 16)%nat)).

Lemma raw_b2z l : Forall octet l -> map b2z (map z2b l) = l.
Proof.
  induction 1 as [|x l Hx _ IH]; [done|]. cbn. rewrite b2z_z2b, IH. f_equal. by apply wrapU_small.
Qed.

Lemma zlen_raw l : zlen (raw l) = zlen l.
Proof. unfold zlen, raw. by rewrite length_map. Qed.

Lemma port_bytes port : raw [Z.shiftr port 8; port] = be_bytes 2 port.
Proof.
  unfold raw. cbn [map be_bytes app]. f_equal. rewrite Z.shiftr_div_pow2 by lia. done.
Qed.

Lemma port_of_bytes port : 0 <= port < 65536 -> port_of (be_bytes 2 port) = port.
Proof. intros Hp. unfold port_of. rewrite be_uint_be_bytes, wrapU_small; [done|cbn; lia]. Qed.

Lemma b2z_small z : 0 <= z < 256 -> b2z (z2b z) = z.
Proof. intros Hz. rewrite b2z_z2b. by apply wrapU_small. Qed.

Lemma slen_nonempty s : s <> ""%string -> 0 < slen s.
Proof.
  intros Hs. unfold slen. destruct (bytes_of s) as [|b l] eqn:E; [by apply bytes_of_nil in E|].
  rewrite zlen_cons. pose proof (zlen_nonneg l). lia.
Qed.

(** What the server reads of a request is what the client asked for. *)
Lemma request_roundtrip dest rest : sendable dest ->
  readSocks5Request (raw [5; 1; 0] ++ appendSocksaddr dest ++ rest)
    = Some (JoinHostPort (sockaddr_host dest) (pretty (sa_Port dest)), rest).
Proof.
  intros [Hp Hd]. unfold readSocks5Request, appendSocksaddr, sockaddr_host. rewrite port_bytes.
  unfold raw at 1. cbn [map app]. erewrite p_bind_Some by done. rewrite b2z_z2b. change (negb (u8 5 =? 5)) with false. cbv iota.
  erewrite p_bind_Some by done. rewrite b2z_z2b. change (negb (u8 1 =? 1)) with false. cbv iota.
  erewrite p_bind_Some by done. cbn [tail].
  destruct Hd as [[Hne Hl]|(-> & Ho & Hlen)].
  - rewrite (proj2 (String.eqb_neq (sa_Fqdn dest) "")) by done. cbn [negb]. unfold raw. cbn [map app].
    erewrite p_bind_Some by done. rewrite b2z_z2b. change (u8 3) with 3. cbn [Z.eqb Pos.eqb].
    pose proof (slen_nonempty _ Hne) as Hs.
    erewrite p_bind_Some.
    2: { erewrite p_bind_Some by done. rewrite b2z_small by lia. rewrite <- app_assoc.
         erewrite p_bind_Some by (by apply ReadFull_app_n). done. }
    erewrite p_bind_Some by (apply ReadFull_app_n; by rewrite zlen_be_bytes).
    by rewrite string_of_bytes_of, port_of_bytes.
  - cbn [String.eqb negb]. destruct Hlen as [Hlen|Hlen].
    + assert (zlen (sa_IP dest) = 4) as E4 by (unfold zlen; by rewrite Hlen). rewrite E4, Z.eqb_refl.
      unfold raw. cbn [map app]. erewrite p_bind_Some by done. rewrite b2z_z2b. change (u8 1) with 1. cbn [Z.eqb Pos.eqb].
      erewrite p_bind_Some.
      2: { rewrite <- app_assoc. erewrite p_bind_Some by (apply ReadFull_app_n; unfold zlen; by rewrite length_map, Hlen). done. }
      erewrite p_bind_Some by (apply ReadFull_app_n; by rewrite zlen_be_bytes).
      unfold ip_of. rewrite raw_b2z, port_of_bytes by done. done.
    + assert (zlen (sa_IP dest) = 16) as E16 by (unfold zlen; by rewrite Hlen). rewrite E16.
      change (16 =? 4) with false. cbv iota. unfold as16. rewrite E16.
      change (16 =? 16) with true. cbv iota. unfold raw. cbn [map app]. erewrite p_bind_Some by done. rewrite b2z_z2b. change (u8 4) with 4. cbn [Z.eqb Pos.eqb].
      erewrite p_bind_Some.
      2: { rewrite <- app_assoc. erewrite p_bind_Some by (apply ReadFull_app_n; unfold zlen; by rewrite length_map, Hlen). done. }
      erewrite p_bind_Some by (apply ReadFull_app_n; by rewrite zlen_be_bytes).
      unfold ip_of. rewrite raw_b2z, port_of_bytes by done. done.
Qed.

(** The bytes a list of events writes. *)
Definition written (events : list port_event) : bytes :=
  concat (omap (fun e => match e with Wrote b => Some b | _ => None end) events).

Lemma readSocksaddr_v4 ip port rest : zlen ip = 4 -> 0 <= port < 65536 ->
  readSocksaddr (raw [1] ++ ip ++ be_bytes 2 port ++ rest)
    = Ret ({| sa_Fqdn := ""; sa_IP := map b2z ip; sa_Port := port |}, rest).
Proof.
  intros Hl Hp. unfold readSocksaddr. change (raw [1] ++ ?r) with (z2b 1 :: r). cbn -[be_bytes].
  rewrite b2z_z2b. change (u8 1) with 1. cbn -[be_bytes]. rewrite (ReadFull_app_n 4 ip) by done. cbn -[be_bytes].
  rewrite (ReadFull_app_n 2 (be_bytes 2 port)) by (by rewrite zlen_be_bytes). cbn -[be_bytes].
  by rewrite port_of_bytes.
Qed.

Section client_server.
Context `{Unicode}.

(** The exchange without the dial: what the client writes and what the server answers. *)
Definition client_auth (user pass : string) : bytes :=
  raw [5; 2; 0; 2] ++ raw [1; slen user] ++ bytes_of user ++ raw [slen pass] ++ bytes_of pass.

Definition client_auth_writes (user pass : string) : list bytes :=
  [raw [5; 2; 0; 2]; raw [1; slen user] ++ bytes_of user ++ raw [slen pass] ++ bytes_of pass].

Lemma server_auth cfg user pass i :
  requiresAuth cfg = true -> slen user <= 255 -> slen pass <= 255 ->
  handleSocks5Handshake cfg (client_auth user pass ++ i) =
    if String.eqb user (pp_Username cfg) && String.eqb pass (pp_Password cfg)
    then ([Wrote (raw [5; 2]); Wrote (raw [1; 0])], Some i)
    else ([Wrote (raw [5; 2]); Wrote (raw [1; 1])], None).
Proof.
  intros Ha Hu Hp. unfold handleSocks5Handshake, client_auth.
  pose proof (zlen_nonneg (bytes_of user)) as Hu0. pose proof (zlen_nonneg (bytes_of pass)) as Hp0.
  fold (slen user) in Hu0. fold (slen pass) in Hp0.
  rewrite <- !app_assoc. unfold raw at 1. cbn [map app]. cbn [ReadByte]. rewrite b2z_z2b.
  change (negb (u8 5 =? 5)) with false. cbv iota. erewrite p_bind_Some by done.
  rewrite b2z_z2b. change (u8 2) with 2.
  change (z2b 0 :: z2b 2 :: raw [1; slen user] ++ ?r) with ([z2b 0; z2b 2] ++ (raw [1; slen user] ++ r)).
  rewrite (ReadFull_app_n 2 [z2b 0; z2b 2]) by done. rewrite Ha.
  change (containsByte [z2b 0; z2b 2] 2) with true. cbn [negb].
  unfold handleSocks5Auth, raw at 1. cbn [map app ReadByte]. rewrite b2z_z2b. change (negb (u8 1 =? 1)) with false. cbv iota.
  erewrite p_bind_Some by done. rewrite b2z_small by lia.
  erewrite p_bind_Some by (by apply ReadFull_app_n). unfold raw. cbn [map app].
  erewrite p_bind_Some by done. rewrite b2z_small by lia.
  erewrite p_bind_Some by (by apply ReadFull_app_n). cbn [mret parser_ret]. rewrite !string_of_bytes_of.
  by destruct (String.eqb user _), (String.eqb pass _).
Qed.

(** The client on a server that takes its credentials. *)
Lemma client_accepted user pass dest tail :
  user <> ""%string -> slen user <= 255 -> slen pass <= 255 ->
  dialSOCKS5TCP user pass dest (raw [5; 2] ++ raw [1; 0] ++ tail) =
    (client_auth_writes user pass ++ (socks5SendRequest 1 dest tail).1,
     match (socks5SendRequest 1 dest tail).2 with Ret (_, rest) => Ret rest | Err e => Err e | Panic => Panic end).
Proof.
  intros Hne Hu Hp. unfold dialSOCKS5TCP, socks5Negotiate. rewrite (proj2 (String.eqb_neq user "")) by done.
  cbn [negb]. rewrite (ReadFull_app_n 2 (raw [5; 2])) by done. cbn [raw map]. rewrite !b2z_z2b.
  change (negb (u8 5 =? 5)) with false. change (u8 2 =? 0) with false. change (u8 2 =? 2) with true. cbv iota.
  unfold socks5UserPassAuth. rewrite (proj2 (Z.ltb_ge 255 (slen user))), (proj2 (Z.ltb_ge 255 (slen pass))) by done.
  cbn [orb]. change ([z2b 1; z2b 0] ++ tail) with (raw [1; 0] ++ tail).
  rewrite (ReadFull_app_n 2 (raw [1; 0])) by done. cbn. by destruct (socks5SendRequest 1 dest tail).
Qed.

(** ... and on one that refuses them. *)
Lemma client_refused user pass dest tail :
  user <> ""%string -> slen user <= 255 -> slen pass <= 255 ->
  (dialSOCKS5TCP user pass dest (raw [5; 2] ++ raw [1; 1] ++ tail)).2 = Err SocksAuthFailed.
Proof.
  intros Hne Hu Hp. unfold dialSOCKS5TCP, socks5Negotiate. rewrite (proj2 (String.eqb_neq user "")) by done.
  cbn [negb]. rewrite (ReadFull_app_n 2 (raw [5; 2])) by done. cbn [raw map]. rewrite !b2z_z2b.
  change (negb (u8 5 =? 5)) with false. change (u8 2 =? 0) with false. change (u8 2 =? 2) with true. cbv iota.
  unfold socks5UserPassAuth. rewrite (proj2 (Z.ltb_ge 255 (slen user))), (proj2 (Z.ltb_ge 255 (slen pass))) by done.
  cbn [orb]. change ([z2b 1; z2b 1] ++ tail) with (raw [1; 1] ++ tail).
  by rewrite (ReadFull_app_n 2 (raw [1; 1])).
Qed.

(** The client on the answer to its request. *)
Lemma client_reply dest c tail : 0 <= c < 256 ->
  (socks5SendRequest 1 dest (writeSocks5Reply c ++ tail)).2 =
    if c =? 0 then Ret ({| sa_Fqdn := ""; sa_IP := [0; 0; 0; 0]; sa_Port := 0 |}, tail) else Err (SocksReply c).
Proof.
  intros Hc. unfold socks5SendRequest, writeSocks5Reply. cbn [snd].
  change (raw [5; c; 0; 1; 0; 0; 0; 0; 0; 0] ++ tail) with (raw [5; c; 0] ++ raw [1; 0; 0; 0; 0; 0; 0] ++ tail).
  rewrite (ReadFull_app_n 3 (raw [5; c; 0])) by done. cbn [raw map]. rewrite (b2z_small c) by done.
  rewrite b2z_z2b. change (negb (u8 5 =? 5)) with false. cbv iota. destruct (c =? 0); [|done]. cbn [negb].
  apply (readSocksaddr_v4 (raw [0; 0; 0; 0]) 0); [done|lia].
Qed.

(** C32: the SOCKS5 client of the program and its SOCKS5 server understand each other: against
    a port with the same user name and password, the client's own bytes make the server
    dial exactly the destination the client asked for, and on success its answers let
    the client through with the bytes of the tunnel untouched on both sides.  With other
    credentials the server refuses and dials nothing, and the client reports it; when the
    server cannot reach the destination the client gets its error code. *)
Theorem socks5_client_server (cfg : ProxyPortConfig) (dial : nat -> string -> bool) (user pass : string)
    (dest : Socksaddr) (up down : bytes) :
  user <> ""%string -> slen user <= 255 -> slen pass <= 255 -> sendable dest -> requiresAuth cfg = true ->
  let target := JoinHostPort (sockaddr_host dest) (pretty (sa_Port dest)) in
  let request := raw [5; 1; 0] ++ appendSocksaddr dest in
  let events := handleSocks5 cfg dial (client_auth user pass ++ request ++ up) in
  let client := dialSOCKS5TCP user pass dest in
  (user = pp_Username cfg -> pass = pp_Password cfg ->
     concat (client (written events ++ down)).1 = client_auth user pass ++ request /\
     if dial O target then
       events = [Wrote (raw [5; 2]); Wrote (raw [1; 0]); Dialed target true; Wrote (writeSocks5Reply 0); Relayed up] /\
       (client (written events ++ down)).2 = Ret down
     else Dialed target false ∈ events /\ (client (written events ++ down)).2 = Err (SocksReply 5)) /\
  (user <> pp_Username cfg \/ pass <> pp_Password cfg ->
     ~ dials events /\ (client (written events)).2 = Err SocksAuthFailed).
Proof.
  intros Hne Hu Hp Hs Ha target request events client.
  assert (handleSocks5Handshake cfg (client_auth user pass ++ request ++ up) = _) as Eh by (by apply server_auth).
  assert (concat (client_auth_writes user pass ++ [request]) = client_auth user pass ++ request) as Ew
    by (unfold client_auth_writes, client_auth; cbn [concat app]; by rewrite app_nil_r, <- !app_assoc).
  assert (readSocks5Request (request ++ up) = Some (target, up)) as Er
    by (unfold request; rewrite <- app_assoc; by apply request_roundtrip).
  split.
  - intros Eu Ep. unfold events, handleSocks5. rewrite Eh, (proj2 (String.eqb_eq _ _) Eu), (proj2 (String.eqb_eq _ _) Ep).
    cbn [andb]. rewrite Er. unfold connect_and_relay. destruct (dial O target).
    + match goal with |- context [written ?l] => change (written l) with (raw [5; 2] ++ raw [1; 0] ++ writeSocks5Reply 0 ++ []) end.
      rewrite app_nil_r, <- !app_assoc. unfold client. rewrite client_accepted by done. cbn [fst snd].
      rewrite client_reply by lia. cbn [Z.eqb]. split; [exact Ew|done].
    + match goal with |- context [written ?l] => change (written l) with (raw [5; 2] ++ raw [1; 0] ++ writeSocks5Reply 5 ++ []) end.
      rewrite app_nil_r, <- !app_assoc. unfold client. rewrite client_accepted by done. cbn [fst snd].
      rewrite client_reply by lia. cbn [Z.eqb]. split; [exact Ew|]. split; [|done].
      cbn [app]. rewrite !elem_of_cons. auto.
  - intros Hno. unfold events, handleSocks5. rewrite Eh.
    assert (String.eqb user (pp_Username cfg) && String.eqb pass (pp_Password cfg) = false) as ->
      by (apply andb_false_iff; by rewrite !String.eqb_neq).
    split.
    { intros (a & ok & Hin). rewrite !elem_of_cons, elem_of_nil in Hin. naive_solver. }
    change (written _) with (raw [5; 2] ++ raw [1; 1] ++ []). by apply client_refused.
Qed.
End client_server.

(** ** The allow list *)

Definition v4_net : Type := list Z * Z.

(** A network as the configuration writes it: four octets and a prefix length. *)
Definition v4_net_ok (n : v4_net) : Prop := Forall octet n.1 /\ List.length n.1 = 4%nat /\ 0 <= n.2 <= 32.

(** [addr] and the network agree on its first bits. *)
Definition v4_in (addr : list Z) (n : v4_net) : Prop :=
  addr_value addr / 2 ^ (32 - n.2) = addr_value n.1 / 2 ^ (32 - n.2).

Definition v4_ipnet (n : v4_net) : IPNet :=
  {| net_IP := ip_mask (v4InV6Prefix ++ n.1) (CIDRMask n.2 32); net_Mask := CIDRMask n.2 32 |}.

Lemma parse_allow_cidr n : v4_net_ok n -> parse_allow_entry (cidr_string n.1 n.2) = Some (Some (v4_ipnet n)).
Proof.
  intros (Ho & Hl & Hn). unfold parse_allow_entry.
  destruct (cidr_string_trimmed n.1 n.2) as [Ht Hne]; try done. unfold trimmed in Ht. cbv zeta. rewrite !Ht.
  rewrite (proj2 (String.eqb_neq _ _)) by done.
  assert (contains1 (cidr_string n.1 n.2) "/" = true) as ->.
  { unfold cidr_string. rewrite contains1_app. apply orb_true_iff. by right. }
  by rewrite ParseCIDR_string.
Qed.

Lemma parseAllowList_cidr nets : Forall v4_net_ok nets ->
  parseAllowList (map (fun n => cidr_string n.1 n.2) nets) = Some (map v4_ipnet nets).
Proof.
  induction 1 as [|n nets Hn Hns IH]; [done|]. cbn [map parseAllowList]. by rewrite parse_allow_cidr, IH.
Qed.

(** A port whose allow list holds IPv4 networks serves a peer exactly when the peer's address
    agrees with one of them on the bits of its prefix; a port with an empty list, or
    whose entries are all blank, serves everyone; and on a peer it does not serve the
    handler reads nothing, writes nothing and dials nothing. *)
Theorem allow_list_exact `{Unicode} (nets : list v4_net) (entries : list string) (peer : list Z) (port : string)
    (list_ : list IPNet) :
  Forall v4_net_ok nets -> Forall octet peer -> List.length peer = 4%nat ->
  Forall (fun c => contains1 port c = false) [":"; "["; "]"]%char ->
  entries = map (fun n => cidr_string n.1 n.2) nets \/ Forall (fun e => trim_space e = ""%string) entries ->
  parseAllowList entries = Some list_ ->
  let addr := (ipv4_string peer ++ String ":" port)%string in
  (isAllowed list_ addr = true <->
     Forall (fun e => trim_space e = ""%string) entries \/ exists n, n ∈ nets /\ cidr_string n.1 n.2 ∈ entries /\ v4_in peer n) /\
  (isAllowed list_ addr = false -> forall fuel lib cfg dial flight i,
     handleConn fuel lib cfg list_ dial addr flight i = Some []).
Proof.
  intros Hnets Hpeer Hlen Hport Hentries Hparse addr. split.
  2: { intros Hno fuel lib cfg dial flight i. unfold handleConn. by rewrite Hno. }
  assert (forall es, Forall (fun e => trim_space e = ""%string) es -> parseAllowList es = Some []) as Hblank.
  { induction 1 as [|e es He _ IH]; [done|]. cbn [parseAllowList]. unfold parse_allow_entry. by rewrite He, IH. }
  destruct Hentries as [->|Hb].
  2: { rewrite Hblank in Hparse by done. injection Hparse as <-. split; [by left|done]. }
  rewrite parseAllowList_cidr in Hparse by done. injection Hparse as <-.
  destruct nets as [|n0 nets0]; [split; [by left|done]|]. set (nets := n0 :: nets0) in *.
  assert (isAllowed (map v4_ipnet nets) addr = existsb (fun n => net_Contains n (v4InV6Prefix ++ peer)) (map v4_ipnet nets)) as ->.
  { unfold isAllowed, addr. change (map v4_ipnet nets) with (v4_ipnet n0 :: map v4_ipnet nets0).
    rewrite split_host_v4 by done. unfold ParseIP. by rewrite parse_addr_string. }
  assert (forall n, n ∈ nets -> (net_Contains (v4_ipnet n) (v4InV6Prefix ++ peer) = true <-> v4_in peer n)) as Hin.
  { intros n Hn. rewrite Forall_forall in Hnets. destruct (Hnets n Hn) as (? & ? & ?). by apply net_Contains_v4. }
  rewrite existsb_exists. split.
  - intros (x & (n & <- & Hn)%in_map_iff & Hc). right. apply list_elem_of_In in Hn. exists n. split_and!; [done| |by apply Hin].
    apply list_elem_of_In, in_map_iff. exists n. split; [done|by apply list_elem_of_In].
  - intros [Hbl|(n & Hn & _ & Hv)].
    + apply Forall_cons in Hbl as [Hbl _]. apply Forall_cons in Hnets as [(Ho & Hl & Hn) _].
      destruct (cidr_string_trimmed n0.1 n0.2) as [Ht Hne]; try done. unfold trimmed in Ht. by rewrite Ht in Hbl.
    + exists (v4_ipnet n). split; [|by apply Hin]. apply in_map_iff. exists n. split; [done|by apply list_elem_of_In].
Qed.

Lemma allow_list_exact_witness :
  isAllowed [v4_ipnet ([192; 168; 0; 0], 16)] "192.168.7.9:5000" = true /\
  isAllowed [v4_ipnet ([192; 168; 0; 0], 16)] "192.169.7.9:5000" = false.
Proof.
  assert (forall peer, Forall octet peer -> List.length peer = 4%nat ->
    isAllowed [v4_ipnet ([192; 168; 0; 0], 16)] (ipv4_string peer ++ String ":" "5000")%string = true <->
    v4_in peer ([192; 168; 0; 0], 16)) as H.
  { intros peer Hp Hl.
    destruct (@allow_list_exact ascii_unicode [([192; 168; 0; 0], 16)] ["192.168.0.0/16"%string] peer "5000"
      [v4_ipnet ([192; 168; 0; 0], 16)]) as [Hx _]; try done.
    - repeat constructor; cbn; unfold octet; lia.
    - repeat constructor.
    - by left.
    - rewrite Hx. split.
      + intros [Hb|(n & ->%list_elem_of_singleton & _ & Hv)]; [|done]. by apply Forall_cons in Hb as [Hb _].
      + intros Hv. right. exists ([192; 168; 0; 0], 16). split_and!; [by apply list_elem_of_singleton|by apply list_elem_of_singleton|done]. }
  split.
  - apply (H [192; 168; 7; 9]); [repeat constructor; unfold octet; lia|done|]. by vm_compute.
  - apply not_true_iff_false. intros E. assert (v4_in [192; 169; 7; 9] ([192; 168; 0; 0], 16)) as Hv.
    { apply H; [repeat constructor; unfold octet; lia|done|exact E]. } by vm_compute in Hv.
Defined.

(** ** The mixed port *)

(** On a "mixed" port the greeting of a SOCKS5 client that offers only "no authentication",
    the three bytes 5, 1, 0 (the greeting of the program's own SOCKS5 client without a
    user name), is never answered, since the handler first waits for four bytes; the
    same client is served by a "socks5" port without credentials, which connects it to
    the destination it names. *)
Theorem mixed_port_stalls_short_greeting `{Unicode} (fuel : nat) (lib : http_lib) (cfg : ProxyPortConfig)
    (allowList : list IPNet) (dial : nat -> string -> bool) (addr : string) (dest : Socksaddr) (up : bytes) :
  isAllowed allowList addr = true -> sendable dest -> requiresAuth cfg = false ->
  let greeting := raw [5; 1; 0] in
  let i := greeting ++ (raw [5; 1; 0] ++ appendSocksaddr dest) ++ up in
  let target := JoinHostPort (sockaddr_host dest) (pretty (sa_Port dest)) in
  (dialSOCKS5TCP "" "" dest []).1 = [greeting] /\
  (pp_Type cfg = ProxyPortTypeMixed -> handleConn fuel lib cfg allowList dial addr (List.length greeting) i = Some []) /\
  (pp_Type cfg = ProxyPortTypeSocks5 ->
     handleConn fuel lib cfg allowList dial addr (List.length greeting) i =
       Some (Wrote (raw [5; 0]) ::
             if dial O target then [Dialed target true; Wrote (writeSocks5Reply 0); Relayed up]
             else [Dialed target false; Wrote (writeSocks5Reply 5)])).
Proof.
  intros Hal Hs Ha greeting i target. split; [done|]. unfold handleConn. rewrite Hal. cbn [negb]. split; intros ->.
  - change (handleMixed fuel lib cfg dial 3 i = Some []). unfold handleMixed, i, greeting. cbn [raw map app].
    change ((3 <? 4)%nat) with true. cbn [andb List.length]. done.
  - change (Some (handleSocks5 cfg dial i) = Some (Wrote (raw [5; 0]) ::
      if dial O target then [Dialed target true; Wrote (writeSocks5Reply 0); Relayed up]
      else [Dialed target false; Wrote (writeSocks5Reply 5)])). f_equal.
    unfold handleSocks5, handleSocks5Handshake, i, greeting. cbn [raw map app]. cbn [ReadByte].
    rewrite b2z_z2b. change (negb (u8 5 =? 5)) with false. cbv iota. erewrite p_bind_Some by done.
    rewrite b2z_z2b. change (u8 1) with 1.
    change (z2b 0 :: z2b 5 :: z2b 1 :: z2b 0 :: appendSocksaddr dest ++ up) with
      ([z2b 0] ++ (raw [5; 1; 0] ++ appendSocksaddr dest ++ up)).
    rewrite (ReadFull_app_n 1 [z2b 0]) by done. rewrite Ha.
    change (containsByte [z2b 0] 0) with true. cbn [negb app]. rewrite request_roundtrip by done.
    fold target. unfold connect_and_relay. by destruct (dial O target).
Qed.

(** ** UDP datagrams *)

Lemma header_len dest p : sendable dest ->
  socks5UDPHeaderLen (appendSocksaddr dest ++ p) = Some (zlen (appendSocksaddr dest)).
Proof.
  intros [Hp Hd]. unfold appendSocksaddr. rewrite port_bytes. destruct Hd as [[Hne Hl]|(-> & _ & Hlen)].
  - rewrite (proj2 (String.eqb_neq (sa_Fqdn dest) "")) by done. cbn [negb]. unfold raw. cbn [map app socks5UDPHeaderLen].
    rewrite b2z_z2b. change (u8 3) with 3. cbn [Z.eqb Pos.eqb]. pose proof (slen_nonempty _ Hne).
    rewrite b2z_small by lia. unfold slen in *. rewrite !zlen_cons, !zlen_app, zlen_be_bytes.
    pose proof (zlen_nonneg p). rewrite (proj2 (Z.ltb_ge _ _)) by lia. f_equal. lia.
  - cbn [String.eqb negb]. destruct Hlen as [Hlen|Hlen].
    + assert (zlen (sa_IP dest) = 4) as E4 by (unfold zlen; by rewrite Hlen). rewrite E4, Z.eqb_refl.
      unfold raw. cbn [map app socks5UDPHeaderLen]. rewrite b2z_z2b. change (u8 1) with 1. cbn [Z.eqb Pos.eqb].
      change (map z2b (sa_IP dest)) with (raw (sa_IP dest)). rewrite !zlen_cons, !zlen_app, zlen_raw, zlen_be_bytes, E4.
      pose proof (zlen_nonneg p). rewrite (proj2 (Z.ltb_ge _ _)) by lia. f_equal.
    + assert (zlen (sa_IP dest) = 16) as E16 by (unfold zlen; by rewrite Hlen). rewrite E16.
      change (16 =? 4) with false. cbv iota. unfold as16. rewrite E16.
      change (16 =? 16) with true. cbv iota. unfold raw. cbn [map app socks5UDPHeaderLen]. rewrite b2z_z2b. change (u8 4) with 4. cbn [Z.eqb Pos.eqb].
      change (map z2b (sa_IP dest)) with (raw (sa_IP dest)). rewrite !zlen_cons, !zlen_app, zlen_raw, zlen_be_bytes, E16.
      pose proof (zlen_nonneg p). rewrite (proj2 (Z.ltb_ge _ _)) by lia. f_equal.
Qed.

(** A payload sent to a SOCKS5 relay and echoed back by it is received unchanged, whatever
    the destination, by a caller whose buffer has room for it, even behind datagrams
    that are too short, fragmented or of an unknown address type, which are skipped. *)
Theorem socks5_udp_roundtrip (dest : Socksaddr) (p : bytes) (room : Z) (bad rest : list bytes) :
  sendable dest -> zlen p <= room ->
  Forall (fun d => zlen d < 3 \/ (exists r0 r1 f body, d = r0 :: r1 :: f :: body /\
                     (b2z f <> 0 \/ match body with [] => True | t :: _ => b2z t <> 1 /\ b2z t <> 3 /\ b2z t <> 4 end))) bad ->
  socks5_udp_ReadFrom room (bad ++ socks5_udp_WriteTo dest p :: rest) = Some (p, rest).
Proof.
  intros Hs Hroom Hbad. pose proof (zlen_nonneg p) as Hp0.
  assert (zlen (appendSocksaddr dest) <= 259) as Ha.
  { destruct Hs as [_ Hd]. unfold appendSocksaddr. rewrite port_bytes, zlen_app, zlen_be_bytes.
    destruct Hd as [[Hne Hl]|(-> & _ & Hlen)].
    - rewrite (proj2 (String.eqb_neq (sa_Fqdn dest) "")) by done. cbn [negb]. rewrite zlen_app, zlen_raw.
      unfold slen in Hl. unfold zlen at 1. cbn. lia.
    - cbn [String.eqb negb]. unfold as16. destruct (zlen (sa_IP dest) =? 4); [|destruct (zlen (sa_IP dest) =? 16)]; rewrite zlen_raw, zlen_cons; unfold zlen; [lia..|]. rewrite length_replicate. lia. }
  induction Hbad as [|d bad Hd _ IH].
  - cbn [app socks5_udp_ReadFrom].
    assert (socks5_udp_datagram room (socks5_udp_WriteTo dest p) = Some p) as ->; [|done].
    unfold socks5_udp_datagram, socks5_udp_WriteTo.
    assert (zlen (raw [0; 0; 0] ++ appendSocksaddr dest ++ p) <= room + 512) as Hl.
    { rewrite !zlen_app. change (zlen (raw [0; 0; 0])) with 3. lia. }
    rewrite take_ge by (unfold zlen in *; lia).
    rewrite (proj2 (Z.ltb_ge _ _)) by (rewrite !zlen_app; change (zlen (raw [0; 0; 0])) with 3; pose proof (zlen_nonneg (appendSocksaddr dest)); lia).
    cbn [raw map app]. rewrite b2z_z2b. change (negb (u8 0 =? 0)) with false. cbv iota.
    rewrite header_len by done. f_equal. unfold zlen at 1. rewrite Nat2Z.id, drop_app_length, take_ge; [done|].
    unfold zlen in *. lia.
  - cbn [app socks5_udp_ReadFrom]. assert (socks5_udp_datagram room d = None) as ->; [|done]. clear IH.
    unfold socks5_udp_datagram. destruct Hd as [Hd|(r0 & r1 & f & body & -> & Hd)].
    + rewrite (proj2 (Z.ltb_lt _ _)); [done|]. unfold zlen in *. rewrite length_take. lia.
    + destruct (Z.to_nat (room + 512)) as [|[|[|n]]] eqn:En; try lia. cbn [take].
      destruct (zlen _ <? 3); [done|]. destruct (Z.eqb_spec (b2z f) 0) as [Hf|]; cbn [negb]; [|done].
      destruct Hd as [?|Hd]; [done|]. destruct n as [|n]; [done|]. destruct body as [|t body]; [done|].
      cbn [take socks5UDPHeaderLen]. destruct Hd as (H1 & H3 & H4).
      by rewrite (proj2 (Z.eqb_neq _ _) H1), (proj2 (Z.eqb_neq _ _) H3), (proj2 (Z.eqb_neq _ _) H4).
Qed.

(** ** HTTP credentials *)

(** The header of a client with these credentials. *)
Definition basic_header (scheme user pass : string) : string :=
  (scheme ++ String " " (base64_encode false true (user ++ String ":" pass)))%string.

Section http_credentials.
Context `{Unicode}.

Lemma checkHTTPAuth_basic cfg req scheme user pass :
  scheme <> ""%string -> contains1 scheme " " = false -> is_ascii scheme = true ->
  ascii_lower scheme = "basic"%string ->
  rq_ProxyAuthorization req = basic_header scheme user pass -> contains1 user ":" = false ->
  checkHTTPAuth cfg req = String.eqb user (pp_Username cfg) && String.eqb pass (pp_Password cfg).
Proof.
  intros Hne Hsp Has Hlow Hh Hu. unfold checkHTTPAuth. rewrite Hh. unfold basic_header.
  rewrite (proj2 (String.eqb_neq _ _)) by (by destruct scheme). rewrite cut_app by done.
  assert (equal_fold scheme "Basic" = true) as ->.
  { unfold equal_fold. rewrite Has. change (is_ascii "Basic") with true. cbn [andb]. rewrite Hlow. by vm_compute. }
  cbn [negb]. by rewrite base64_decode_encode, cut_app.
Qed.

(** An HTTP "CONNECT" whose Proxy-Authorization header carries a user name (without a
    colon) and a password in base64, under the scheme "Basic" in any case, is connected
    to the host it names exactly when both are the port's; otherwise, and without the
    header, the answer is 407 and nothing is dialled. *)
Theorem http_connect_credentials (fuel : nat) (lib : http_lib) (cfg : ProxyPortConfig) (dial : nat -> string -> bool)
    (k : nat) (i rest : bytes) (req : http_request) (scheme user pass : string) :
  requiresAuth cfg = true -> hl_ReadRequest lib i = Some (req, rest) ->
  rq_Method req = "CONNECT"%string -> rq_Host req <> ""%string ->
  contains1 scheme " " = false -> is_ascii scheme = true -> ascii_lower scheme = "basic"%string ->
  contains1 user ":" = false ->
  (rq_ProxyAuthorization req = basic_header scheme user pass ->
   handleHTTP (S fuel) lib cfg dial k i =
     Some (if String.eqb user (pp_Username cfg) && String.eqb pass (pp_Password cfg) then
             let target := with_default_port (rq_Host req) "443" in
             if dial k target then [Dialed target true; Wrote connection_established; Relayed rest]
             else [Dialed target false; Wrote (writeHTTPError 502 "Bad Gateway")]
           else [Wrote writeHTTPAuthRequired])) /\
  (rq_ProxyAuthorization req = ""%string -> handleHTTP (S fuel) lib cfg dial k i = Some [Wrote writeHTTPAuthRequired]).
Proof.
  intros Ha Hr Hm Hh Hsp Has Hlow Hu. cbn [handleHTTP]. rewrite Hr, Ha. cbn [andb]. split.
  - intros Hhdr. rewrite (checkHTTPAuth_basic cfg req scheme user pass) by (done || by intros ->).
    destruct (String.eqb user _ && String.eqb pass _); cbn [negb]; [|done].
    rewrite Hm. change (equal_fold "CONNECT" "CONNECT") with true. cbv iota.
    unfold handleHTTPConnect. rewrite (proj2 (String.eqb_neq _ _)) by done. unfold connect_and_relay. cbv zeta.
    by destruct (dial k _).
  - intros Hhdr. unfold checkHTTPAuth. by rewrite Hhdr.
Qed.
End http_credentials.

(** ** Failover of the port *)

Section port_failover.
Context `{Unicode}.
Variables (getter : option server_getter) (intn : Z -> Z) (order : list string) (now : gotime).
Variables (cfg : ProxyPortConfig) (try_ : nat -> string -> bool).

(** Every attempt of the list was made in turn and failed. *)
Definition tried_in_vain (tried : list string) : Prop :=
  forall i n, tried !! i = Some n -> try_ i n = false.

Lemma tried_in_vain_snoc tried n :
  tried_in_vain tried -> try_ (List.length tried) n = false -> tried_in_vain (tried ++ [n]).
Proof.
  intros Ht Hn i x [Hx|[Hi Hx]]%lookup_app_Some; [by apply Ht|].
  apply list_lookup_singleton_Some in Hx as [Hi0 <-]. by replace i with (List.length tried) by lia.
Qed.

Definition port_dial_ok (m : outboundManagerImpl) (attempts : nat) (r : port_dial_result) : Prop :=
  match r with
  | PortConnected n => exists tried, tried_in_vain tried /\ n ∉ tried /\ (List.length tried < attempts)%nat /\
      try_ (List.length tried) n = true /\ n ∈ node_names m
  | PortSelectionFailed _ tried =>
      tried_in_vain tried /\ NoDup tried /\ (List.length tried < attempts)%nat /\ tried ⊆ node_names m
  | PortAllFailed tried => tried_in_vain tried /\ NoDup tried /\ List.length tried = attempts /\ tried ⊆ node_names m
  | PortDirectFailed | PortCrashed => False
  end.

Lemma dial_attempts_ok attempts total m lb tried :
  selection_hyps m lb intn order -> tried_in_vain tried -> NoDup tried -> tried ⊆ node_names m ->
  (List.length tried + attempts)%nat = total ->
  port_dial_ok m total (dial_attempts getter intn order now cfg try_ attempts m lb tried).2.
Proof.
  revert m lb tried. induction attempts as [|attempts IH]; intros m lb tried Hh Hv Hnd Hsub Ht.
  { cbn. rewrite Nat.add_0_r in Ht. done. }
  cbn [dial_attempts].
  pose proof (selectForServer_ok getter intn order now m (sh_wf _ _ _ _ Hh) (sh_order _ _ _ _ Hh)
    (sh_intn _ _ _ _ Hh) (sh_counts _ _ _ _ Hh) lb (proxyPortSelectorID (pp_ID cfg)) (pp_ProxyOutbound cfg)
    (pp_GetLoadBalance cfg) (pp_GetLoadBalanceSort cfg) tried (sh_lb _ _ _ _ Hh)) as Hs.
  destruct (SelectOutboundWithFailoverForServer _ _ _ _ _ _ _ _ _ _ _) as [[h lb'] r].
  destruct Hs as (Hlb & Hc & [k Hk] & Hr). destruct r as [o|e|]; [|split_and!; [done..|lia|done]|done].
  destruct Hr as (_ & Hx & _ & Hsel & _).
  assert (Name o ∉ tried) as Hnew.
  { intros Hin. apply not_true_iff_false in Hx. apply Hx, existsb_exists. exists (Name o).
    split; [by apply list_elem_of_In|apply String.eqb_refl]. }
  assert (Name o ∈ node_names m) as Hname.
  { destruct Hsel as [(-> & _)|Ho]; [left|right]. apply list_elem_of_fmap. exists (Name o, o).
    split; [done|]. by apply elem_of_map_to_list. }
  assert ((if IsDirectSelection (Some o) then DirectNodeName else Name o) = Name o) as ->.
  { unfold IsDirectSelection. by destruct (String.eqb_spec (Name o) DirectNodeName). }
  destruct (try_ (List.length tried) (Name o)) eqn:Et.
  { exists tried. split_and!; [done..|lia|done|done]. }
  apply (IH (set_nodes (om_outbounds m) h m) lb' (tried ++ [Name o])).
  - by apply (selection_hyps_heap intn order m lb lb' h k).
  - by apply tried_in_vain_snoc.
  - apply NoDup_app. split; [done|]. split; [set_solver|]. apply NoDup_singleton.
  - change (node_names (set_nodes (om_outbounds m) h m)) with (node_names m). set_solver.
  - rewrite length_app. cbn. lia.
Qed.

(** A port that is not direct dials through the nodes its selector offers, one after the
    other: it never tries a node twice, makes at most as many attempts as its list or
    group has nodes (one when it names a node), connects through the first that works,
    and otherwise reports nodes that were all tried and failed; it never panics. *)
Theorem port_dial_failover (m : outboundManagerImpl) (lb : LoadBalancer) :
  selection_hyps m lb intn order -> pp_IsDirectConnection cfg = false ->
  port_dial_ok m (Z.to_nat (proxySelectionAttemptLimit m order cfg))
    (dialOutbound getter intn order now cfg try_ m lb).2 /\
  1 <= proxySelectionAttemptLimit m order cfg.
Proof.
  intros Hh Hd. unfold dialOutbound. rewrite Hd. split.
  - apply dial_attempts_ok; [done|by intros i n|constructor|set_solver|done].
  - unfold proxySelectionAttemptLimit. cbv zeta.
    set (nodes := if pp_IsMultiNodeSelection cfg then _ else _). destruct (Z.ltb_spec 0 nodes); [lia|].
    destruct (_ && _); [|done]. set (members := zlen (GetOutboundsByGroup _ _ _)).
    destruct (Z.ltb_spec 0 members); lia.
Qed.
End port_failover.

(** ** Witnesses *)

#[local] Existing Instance ascii_unicode.

Definition demo_port (type user pass : string) : ProxyPortConfig :=
  {| pp_ID := "p"; pp_Name := "p"; pp_ListenAddr := "127.0.0.1:1080"; pp_Type := type; pp_Enabled := true;
     pp_Username := user; pp_Password := pass; pp_ProxyOutbound := ""; pp_LoadBalance := ""; pp_LoadBalanceSort := "";
     pp_AutoPingEnabled := false; pp_AutoPingIntervalMinutes := 0; pp_AutoPingTopCandidates := 10;
     pp_AutoPingFullScanMode := ""; pp_AutoPingFullScanTime := ""; pp_AutoPingFullScanIntervalHours := 0;
     pp_AllowList := [] |}.

(** A library that reads no request. *)
Definition no_http : http_lib :=
  {| hl_ReadRequest := fun _ => None; hl_forward := fun _ _ => ForwardFailed |}.

Definition demo_dest : Socksaddr := {| sa_Fqdn := "play.example.org"; sa_IP := []; sa_Port := 19132 |}.

Lemma demo_dest_sendable : sendable demo_dest.
Proof. split; [cbn; lia|]. left. by vm_compute. Qed.

Lemma demo_dest_addr_sendable : sendable {| sa_Fqdn := ""; sa_IP := [10; 0; 0; 1]; sa_Port := 53 |}.
Proof. split; [cbn; lia|]. right. split; [done|]. split; [repeat constructor; unfold octet; lia|by left]. Qed.

Lemma socks5_client_server_witness :
  let cfg := demo_port ProxyPortTypeSocks5 "user" "secret" in
  let dial (_ : nat) (a : string) := String.eqb a "play.example.org:19132" in
  let i pass := client_auth "user" pass ++ (raw [5; 1; 0] ++ appendSocksaddr demo_dest) ++ raw [1; 2; 3] in
  Relayed (raw [1; 2; 3]) ∈ handleSocks5 cfg dial (i "secret"%string) /\
  ~ dials (handleSocks5 cfg dial (i "wrong"%string)).
Proof.
  intros cfg dial i. split.
  - destruct (socks5_client_server cfg dial "user" "secret" demo_dest (raw [1; 2; 3]) []) as [Hok _];
      [done|by vm_compute|by vm_compute|exact demo_dest_sendable|by vm_compute|].
    destruct (Hok eq_refl eq_refl) as [_ Hd]. vm_compute (dial _ _) in Hd. destruct Hd as [E _].
    unfold i. rewrite E. rewrite !elem_of_cons. auto 10.
  - destruct (socks5_client_server cfg dial "user" "wrong" demo_dest (raw [1; 2; 3]) []) as [_ Hno];
      [done|by vm_compute|by vm_compute|exact demo_dest_sendable|by vm_compute|].
    apply Hno. by right.
Defined.

Lemma proxy_port_auth_witness :
  socks5_presented (demo_port ProxyPortTypeSocks5 "user" "secret")
    (client_auth "user" "secret" ++ raw [5; 1; 0; 1; 10; 0; 0; 1; 0; 80]).
Proof.
  refine (proj1 (proj2 (@proxy_port_auth ascii_unicode 1 no_http (demo_port ProxyPortTypeSocks5 "user" "secret") []
    (fun _ _ => true) "1.2.3.4:5" 0 (client_auth "user" "secret" ++ raw [5; 1; 0; 1; 10; 0; 0; 1; 0; 80])
    [Wrote (raw [5; 2]); Wrote (raw [1; 0]); Dialed "10.0.0.1:80" true; Wrote (writeSocks5Reply 0); Relayed []]
    "10.0.0.1:80" true _ _ _ _)) _).
  - by left.
  - by right.
  - by vm_compute.
  - rewrite !elem_of_cons. auto.
  - by vm_compute.
Defined.

Lemma socks4_ignores_credentials_witness :
  handleConn 1 no_http (demo_port ProxyPortTypeMixed "user" "secret") [] (fun _ _ => true) "1.2.3.4:5" 9%nat
    (raw [4; 1] ++ be_bytes 2 80 ++ raw [10; 0; 0; 1] ++ [] ++ raw [0] ++ []) =
  Some [Dialed "10.0.0.1:80" true; Wrote (raw [0; 0x5a; 0; 80; 10; 0; 0; 1]); Relayed []].
Proof.
  apply (@socks4_ignores_credentials ascii_unicode 1 no_http (demo_port ProxyPortTypeMixed "user" "secret") []
    (fun _ _ => true) "1.2.3.4:5" (raw [10; 0; 0; 1]) [] [] 80); try done; try lia. by right.
Defined.

Lemma mixed_port_stalls_short_greeting_witness :
  handleConn 1 no_http (demo_port ProxyPortTypeMixed "" "") [] (fun _ _ => true) "1.2.3.4:5" 3%nat
    (raw [5; 1; 0] ++ (raw [5; 1; 0] ++ appendSocksaddr demo_dest) ++ []) = Some [].
Proof.
  apply (proj1 (proj2 (@mixed_port_stalls_short_greeting ascii_unicode 1 no_http (demo_port ProxyPortTypeMixed "" "") []
    (fun _ _ => true) "1.2.3.4:5" demo_dest [] eq_refl demo_dest_sendable eq_refl))). done.
Defined.

Lemma socks5_udp_roundtrip_witness :
  socks5_udp_ReadFrom 1500 [raw [0; 0]; raw [0; 0; 1; 9]; socks5_udp_WriteTo demo_dest (raw [7; 8])] = Some (raw [7; 8], []).
Proof.
  apply (socks5_udp_roundtrip demo_dest (raw [7; 8]) 1500 [raw [0; 0]; raw [0; 0; 1; 9]] []).
  - exact demo_dest_sendable.
  - by vm_compute.
  - constructor; [by left|]. constructor; [|constructor]. right.
    exists (z2b 0), (z2b 0), (z2b 1), (raw [9]). split; [done|]. left. by vm_compute.
Defined.

Definition group_port : ProxyPortConfig :=
  {| pp_ID := "p"; pp_Name := "p"; pp_ListenAddr := "127.0.0.1:1080"; pp_Type := ProxyPortTypeMixed; pp_Enabled := true;
     pp_Username := ""; pp_Password := ""; pp_ProxyOutbound := "@asia"; pp_LoadBalance := "round-robin";
     pp_LoadBalanceSort := "udp"; pp_AutoPingEnabled := false; pp_AutoPingIntervalMinutes := 0;
     pp_AutoPingTopCandidates := 10; pp_AutoPingFullScanMode := ""; pp_AutoPingFullScanTime := "";
     pp_AutoPingFullScanIntervalHours := 0; pp_AllowList := [] |}.

(** Both nodes of the group fail. *)
Lemma port_dial_failover_witness :
  exists tried, (dialOutbound None zero_intn three_order hour group_port (fun _ _ => false) three_nodes NewLoadBalancer).2
    = PortAllFailed tried /\ NoDup tried /\ List.length tried = 2%nat.
Proof.
  destruct (@port_dial_failover ascii_unicode None zero_intn three_order hour group_port (fun _ _ => false) three_nodes
    NewLoadBalancer three_hyps) as [Hok _]; [by vm_compute|].
  destruct (dialOutbound _ _ _ _ _ _ _ _).2 as [n|e tried|tried| |] eqn:E; vm_compute in E; try discriminate E.
  destruct Hok as (_ & Hnd & Hl & _). exists tried. split; [done|]. split; [done|].
  by vm_compute in Hl.
Defined.

(** A library that reads one "CONNECT". *)
Definition connect_http (auth : string) : http_lib :=
  {| hl_ReadRequest := fun i =>
       Some ({| rq_Method := "CONNECT"; rq_Host := "example.org"; rq_URLHost := None;
                rq_ProxyAuthorization := auth; rq_Close := false |}, i);
     hl_forward := fun _ _ => ForwardFailed |}.

(** "Basic " with the encoding of "user:secret". *)
Lemma http_connect_credentials_witness :
  handleHTTP 1 (connect_http "Basic dXNlcjpzZWNyZXQ=") (demo_port ProxyPortTypeHTTP "user" "secret") (fun _ _ => true) 0 [] =
    Some [Dialed "example.org:443" true; Wrote connection_established; Relayed []].
Proof.
  refine (eq_trans (proj1 (http_connect_credentials 0 (connect_http "Basic dXNlcjpzZWNyZXQ=")
    (demo_port ProxyPortTypeHTTP "user" "secret") (fun _ _ => true) 0 [] []
    {| rq_Method := "CONNECT"; rq_Host := "example.org"; rq_URLHost := None;
       rq_ProxyAuthorization := "Basic dXNlcjpzZWNyZXQ="; rq_Close := false |} "Basic" "user" "secret"
    eq_refl eq_refl eq_refl _ eq_refl eq_refl eq_refl eq_refl) _) _); by vm_compute.
Defined.
