(* ===== verification/Acl.v ===== *)
(** * Access control: [internal/acl/acl_manager.go], [internal/db/acl_models.go]

    The decision whether a player may join a server, over the black list, the
    white list and the settings.  The queries run in the SQLite engine, which is
    not part of the repository: a query is a parameter that answers with a row,
    with [sql.ErrNoRows], or with another error.  What the code relies on, that a
    query by name returns a row of that name up to case and of that server, is the
    class [AclRepositories].  Also the three ways the proxies use the decision. *)

From Stdlib Require Import Strings.String Strings.Ascii.
From S2P Require Import Prelude GoBytes GoString.

Definition blacklist_message : string := "你已被封禁".
Definition whitelist_message : string := "你不在白名单中".

Inductive DenyType := DenyNone | DenyBlacklist | DenyWhitelist | DenyACL.

Record AccessDecision := {
  ad_Allowed : bool;
  ad_Type : DenyType;
  ad_Reason : string;
  ad_Detail : string;
}.

Record BlacklistEntry := {
  be_ID : Z;
  be_DisplayName : string;
  be_Enabled : bool;
  be_Reason : string;
  be_ServerID : string;
  be_AddedAt : gotime;
  be_ExpiresAt : option gotime;
  be_AddedBy : string;
}.

Record WhitelistEntry := {
  we_ID : Z;
  we_DisplayName : string;
  we_Enabled : bool;
  we_Reason : string;
  we_ServerID : string;
  we_AddedAt : gotime;
  we_ExpiresAt : option gotime;
  we_AddedBy : string;
}.

Record ACLSettings := {
  as_ServerID : string;
  as_BlacklistEnabled : bool;
  as_WhitelistEnabled : bool;
  as_DefaultMessage : string;
  as_WhitelistMessage : string;
}.

Definition DefaultACLSettings : ACLSettings :=
  {| as_ServerID := ""; as_BlacklistEnabled := true; as_WhitelistEnabled := false;
     as_DefaultMessage := blacklist_message; as_WhitelistMessage := whitelist_message |}.

(** The clock is after the time of expiry. *)
Definition be_IsExpired (now : gotime) (e : BlacklistEntry) : bool :=
  match be_ExpiresAt e with None => false | Some t => t <? now end.

Definition we_IsExpired (now : gotime) (e : WhitelistEntry) : bool :=
  match we_ExpiresAt e with None => false | Some t => t <? now end.

(** The answer of a query for one row. *)
Inductive answer (E A : Type) :=
| Found (a : A)
| NotFound
| DbErr (e : E).

Arguments Found {E A} a.
Arguments NotFound {E A}.
Arguments DbErr {E A} e.

Definition found {E A} (a : answer E A) : option A :=
  match a with Found a => Some a | _ => None end.

(** [if err != nil && err != ErrNotFound { lastErr = err }] *)
Definition note_err {E A} (lastErr : option E) (a : answer E A) : option E :=
  match a with DbErr e => Some e | _ => lastErr end.

Section acl.
Context `{Unicode}.
Variable now : gotime.

Definition IsBlacklistedByEntry (playerName : string) (entry : option BlacklistEntry) : bool :=
  match entry with
  | None => false
  | Some e =>
      if negb (be_Enabled e) then false
      else if be_IsExpired now e then false
      else equal_fold playerName (be_DisplayName e)
  end.

Definition IsWhitelistedByEntry (playerName : string) (entry : option WhitelistEntry) : bool :=
  match entry with
  | None => false
  | Some e =>
      if negb (we_Enabled e) then false
      else if we_IsExpired now e then false
      else equal_fold playerName (we_DisplayName e)
  end.

Definition filterActiveBlacklistEntries (entries : list (option BlacklistEntry)) : list BlacklistEntry :=
  omap (fun e => match e with Some e => if be_IsExpired now e then None else Some e | None => None end) entries.

Definition filterActiveWhitelistEntries (entries : list (option WhitelistEntry)) : list WhitelistEntry :=
  omap (fun e => match e with Some e => if we_IsExpired now e then None else Some e | None => None end) entries.

(** ** The decision on given entries *)

Definition nonempty_or (s d : string) : string := if String.eqb s "" then d else s.

Fixpoint FindBlacklistEntry (playerName : string) (entries : list (option BlacklistEntry))
  : option BlacklistEntry :=
  match entries with
  | [] => None
  | e :: entries => if IsBlacklistedByEntry playerName e then e else FindBlacklistEntry playerName entries
  end.

Fixpoint FindWhitelistEntry (playerName : string) (entries : list (option WhitelistEntry))
  : option WhitelistEntry :=
  match entries with
  | [] => None
  | e :: entries => if IsWhitelistedByEntry playerName e then e else FindWhitelistEntry playerName entries
  end.

(** The two loops of the black list and the two of the white list return at the
    first match. *)
Definition CheckAccessWithEntries (playerName serverID : string)
    (globalBlacklist serverBlacklist : list (option BlacklistEntry))
    (globalWhitelist serverWhitelist : list (option WhitelistEntry))
    (settings : option ACLSettings) : bool * string :=
  let blacklistEnabled := match settings with None => true | Some s => as_BlacklistEnabled s end in
  let banned :=
    if blacklistEnabled then
      match FindBlacklistEntry playerName globalBlacklist with
      | Some e => Some e
      | None => FindBlacklistEntry playerName serverBlacklist
      end
    else None in
  match banned with
  | Some e => (false, nonempty_or (be_Reason e) blacklist_message)
  | None =>
      match settings with
      | None => (true, ""%string)
      | Some s =>
          if negb (as_WhitelistEnabled s) then (true, ""%string) else
          if existsb (IsWhitelistedByEntry playerName) globalWhitelist then (true, ""%string) else
          if existsb (IsWhitelistedByEntry playerName) serverWhitelist then (true, ""%string) else
          (false, nonempty_or (as_WhitelistMessage s) whitelist_message)
      end
  end.

(** ** The decision on the database *)

Section repositories.
Context {E : Type}.
Variable blacklist_GetByName : string -> string -> answer E BlacklistEntry.
Variable whitelist_GetByName : string -> string -> answer E WhitelistEntry.
Variable settings_Get : string -> answer E ACLSettings.

Definition IsBlacklisted (playerName serverID : string) : option BlacklistEntry :=
  let entry := found (blacklist_GetByName playerName "") in
  if IsBlacklistedByEntry playerName entry then entry else
  if String.eqb serverID "" then None else
  let entry := found (blacklist_GetByName playerName serverID) in
  if IsBlacklistedByEntry playerName entry then entry else None.

Definition IsWhitelisted (playerName serverID : string) : bool :=
  IsWhitelistedByEntry playerName (found (whitelist_GetByName playerName ""))
  || (negb (String.eqb serverID "")
      && IsWhitelistedByEntry playerName (found (whitelist_GetByName playerName serverID))).

Definition global_settings (lastErr : option E) : ACLSettings * option E :=
  match settings_Get "" with
  | Found s => (s, lastErr)
  | a => (DefaultACLSettings, note_err lastErr a)
  end.

(** The settings are never [nil]. *)
Definition loadSettings (serverID : string) (lastErr : option E) : ACLSettings * option E :=
  if String.eqb serverID "" then global_settings lastErr else
  match settings_Get serverID with
  | Found s => (s, lastErr)
  | a => global_settings (note_err lastErr a)
  end.

Definition deny (t : DenyType) (reason detail : string) : AccessDecision :=
  {| ad_Allowed := false; ad_Type := t; ad_Reason := reason; ad_Detail := detail |}.

Definition allow : AccessDecision :=
  {| ad_Allowed := true; ad_Type := DenyNone; ad_Reason := ""; ad_Detail := "" |}.

(** Steps 1 and 2: a decision, or the last error. *)
Definition check_blacklist (settings : ACLSettings) (playerName serverID : string) (lastErr : option E)
  : option AccessDecision * option E :=
  if negb (as_BlacklistEnabled settings) then (None, lastErr) else
  let global := blacklist_GetByName playerName "" in
  let lastErr := note_err lastErr global in
  if IsBlacklistedByEntry playerName (found global) then
    let detail := match found global with Some e => trim_space (be_Reason e) | None => ""%string end in
    (Some (deny DenyBlacklist (nonempty_or (trim_space (as_DefaultMessage settings)) blacklist_message)
             (nonempty_or detail "无")), lastErr)
  else if String.eqb serverID "" then (None, lastErr) else
  let server := blacklist_GetByName playerName serverID in
  let lastErr := note_err lastErr server in
  if IsBlacklistedByEntry playerName (found server) then
    let detail := match found server with Some e => be_Reason e | None => ""%string end in
    let reason := nonempty_or (trim_space detail) (trim_space (as_DefaultMessage settings)) in
    (Some (deny DenyBlacklist (nonempty_or reason blacklist_message) detail), lastErr)
  else (None, lastErr).

(** Step 3 and the global and server white lists. *)
Definition check_whitelist (settings : ACLSettings) (playerName serverID : string) (lastErr : option E)
  : AccessDecision * option E :=
  if negb (as_WhitelistEnabled settings) then (allow, lastErr) else
  let denial :=
    deny DenyWhitelist (nonempty_or (trim_space (as_WhitelistMessage settings)) whitelist_message) "" in
  let global := whitelist_GetByName playerName "" in
  let lastErr := note_err lastErr global in
  if IsWhitelistedByEntry playerName (found global) then (allow, lastErr) else
  if String.eqb serverID "" then (denial, lastErr) else
  let server := whitelist_GetByName playerName serverID in
  let lastErr := note_err lastErr server in
  if IsWhitelistedByEntry playerName (found server) then (allow, lastErr) else (denial, lastErr).

Definition CheckAccessFull (playerName serverID : string) : AccessDecision * option E :=
  let '(settings, lastErr) := loadSettings serverID None in
  match check_blacklist settings playerName serverID lastErr with
  | (Some d, lastErr) => (d, lastErr)
  | (None, lastErr) => check_whitelist settings playerName serverID lastErr
  end.

Definition CheckAccessWithError (playerName serverID : string) : bool * string * option E :=
  match CheckAccessFull playerName serverID with
  | (_, Some e) => (true, ""%string, Some e)
  | (d, None) => (ad_Allowed d, ad_Reason d, None)
  end.

Definition CheckAccess (playerName serverID : string) : bool * string :=
  (CheckAccessWithError playerName serverID).1.

(** ** The callers

    [MITMProxy.checkACLAccess] and [PassthroughProxy.checkACLAccess], without
    the recovery from a panic. *)

Definition mitm_checkACLAccess (playerName serverID : string) : bool * string :=
  let '(allowed, reason, _) := CheckAccessWithError playerName serverID in
  (allowed,
   if allowed then reason
   else if String.eqb reason "" then "§cAccess denied" else "§c" ++ reason)%string.

Definition passthrough_checkACLAccess (aclManager : bool) (playerName serverID : string)
  : AccessDecision * option E :=
  if aclManager then CheckAccessFull playerName serverID else (allow, None).
End repositories.

(** ** Expired rows are removed at most once a minute *)

Definition cleanup_due (lastCleanup : gotime) : bool :=
  is_zero_time lastCleanup || negb (time_sub now lastCleanup <? minute).

Definition cleanupExpiredEntriesIfDue {D : Type} (delete_expired : D -> D) (d : D) (lastCleanup : gotime)
  : D * gotime :=
  if cleanup_due lastCleanup then (delete_expired d, now) else (d, lastCleanup).
End acl.

(** * Properties *)

(** What the code relies on: a query by name gives a row of the table with that
    name up to case and that server.  The rows are the table at the time of the
    query. *)
Class AclRepositories `{Unicode} {E : Type} (bl : string -> string -> answer E BlacklistEntry)
    (wl : string -> string -> answer E WhitelistEntry) (bl_rows : list BlacklistEntry)
    (wl_rows : list WhitelistEntry) : Prop := {
  bl_found : forall n s e, bl n s = Found e ->
    e ∈ bl_rows /\ to_lower (be_DisplayName e) = to_lower n /\ be_ServerID e = s;
  bl_missing : forall n s, bl n s = NotFound ->
    forall e, e ∈ bl_rows -> to_lower (be_DisplayName e) = to_lower n -> be_ServerID e <> s;
  wl_found : forall n s e, wl n s = Found e ->
    e ∈ wl_rows /\ to_lower (we_DisplayName e) = to_lower n /\ we_ServerID e = s;
  wl_missing : forall n s, wl n s = NotFound ->
    forall e, e ∈ wl_rows -> to_lower (we_DisplayName e) = to_lower n -> we_ServerID e <> s;
}.

Section acl_theorems.
Context `{Unicode}.
Variable now : gotime.
Context {E : Type}.
Variable bl : string -> string -> answer E BlacklistEntry.
Variable wl : string -> string -> answer E WhitelistEntry.
Variable settings_Get : string -> answer E ACLSettings.

(** The settings in force: those of the server, else the global ones, else the default. *)
Definition effective_settings (serverID : string) : ACLSettings :=
  match found (settings_Get serverID) with
  | Some s => s
  | None => default DefaultACLSettings (found (settings_Get ""))
  end.

Definition banned (player serverID : string) : bool :=
  IsBlacklistedByEntry now player (found (bl player "")) ||
  IsBlacklistedByEntry now player (found (bl player serverID)).

Definition invited (player serverID : string) : bool :=
  IsWhitelistedByEntry now player (found (wl player "")) ||
  IsWhitelistedByEntry now player (found (wl player serverID)).

(** No query of the check fails otherwise than by finding nothing. *)
Definition no_db_error (player serverID : string) : Prop :=
  forall s e, s = ""%string \/ s = serverID -> bl player s <> DbErr e /\ wl player s <> DbErr e /\ settings_Get s <> DbErr e.

Lemma loadSettings_effective serverID last : (loadSettings settings_Get serverID last).1 = effective_settings serverID.
Proof.
  unfold loadSettings, global_settings, effective_settings.
  destruct (String.eqb_spec serverID "") as [->|_].
  - by destruct (settings_Get "").
  - destruct (settings_Get serverID); cbn; [done|by destruct (settings_Get "")|by destruct (settings_Get "")].
Qed.

Lemma note_err_none {A} (a : answer E A) last :
  (forall e, a <> DbErr e) -> note_err last a = last.
Proof. destruct a; [done|done|]. intros Hn. by destruct (Hn e). Qed.

Lemma loadSettings_ok player serverID last :
  no_db_error player serverID -> (loadSettings settings_Get serverID last).2 = last.
Proof.
  intros Hn. unfold loadSettings, global_settings.
  pose proof (fun e => proj2 (proj2 (Hn "" e (or_introl eq_refl)))) as H0.
  pose proof (fun e => proj2 (proj2 (Hn serverID e (or_intror eq_refl)))) as H1.
  destruct (String.eqb serverID ""), (settings_Get serverID), (settings_Get ""); cbn; naive_solver.
Qed.

Lemma orb_same b : b || b = b.
Proof. by destruct b. Qed.

Lemma check_blacklist_ok st player serverID last :
  no_db_error player serverID ->
  let '(d, err) := check_blacklist now bl st player serverID last in
  err = last /\
  match d with
  | Some d => as_BlacklistEnabled st = true /\ banned player serverID = true /\
      ad_Allowed d = false /\ ad_Type d = DenyBlacklist /\ ad_Reason d <> ""%string
  | None => as_BlacklistEnabled st && banned player serverID = false
  end.
Proof.
  intros Hn. unfold check_blacklist, banned.
  destruct (as_BlacklistEnabled st); cbn [negb andb]; [|done].
  assert (forall s, s = ""%string \/ s = serverID -> note_err last (bl player s) = last) as Hnote
    by (intros s Hs; apply note_err_none; intros e; by apply (Hn s e Hs)).
  assert (forall a b, b <> ""%string -> nonempty_or a b <> ""%string) as Hne.
  { intros a b Hb. unfold nonempty_or. by destruct (String.eqb_spec a ""). }
  rewrite (Hnote "") by by left. cbv zeta.
  destruct (IsBlacklistedByEntry now player (found (bl player ""))) eqn:Eg; cbn [orb].
  { repeat split. by apply Hne. }
  destruct (String.eqb_spec serverID "") as [->|_]; [by rewrite Eg|].
  rewrite (Hnote serverID) by by right.
  destruct (IsBlacklistedByEntry now player (found (bl player serverID))); cbn; [|done].
  repeat split. by apply Hne.
Qed.

Lemma check_whitelist_ok st player serverID last :
  no_db_error player serverID ->
  let '(d, err) := check_whitelist now wl st player serverID last in
  err = last /\ ad_Allowed d = negb (as_WhitelistEnabled st) || invited player serverID /\
  (ad_Allowed d = false -> ad_Type d = DenyWhitelist /\ ad_Reason d <> ""%string).
Proof.
  intros Hn. unfold check_whitelist, invited.
  destruct (as_WhitelistEnabled st); cbn [negb orb]; [|done].
  assert (forall s, s = ""%string \/ s = serverID -> note_err last (wl player s) = last) as Hnote
    by (intros s Hs; apply note_err_none; intros e; by apply (Hn s e Hs)).
  assert (nonempty_or (trim_space (as_WhitelistMessage st)) whitelist_message <> ""%string) as Hne.
  { unfold nonempty_or. by destruct (String.eqb_spec (trim_space (as_WhitelistMessage st)) ""). }
  rewrite (Hnote "") by by left. cbv zeta.
  destruct (IsWhitelistedByEntry now player (found (wl player ""))) eqn:Eg; cbn [orb]; [done|].
  destruct (String.eqb_spec serverID "") as [->|_]; [rewrite Eg; by repeat split|].
  rewrite (Hnote serverID) by by right.
  by destruct (IsWhitelistedByEntry now player (found (wl player serverID))).
Qed.

Lemma access_decision (player serverID : string) :
  no_db_error player serverID ->
  let s := effective_settings serverID in
  let '(d, err) := CheckAccessFull now bl wl settings_Get player serverID in
  err = None /\
  (ad_Allowed d = true <->
     as_BlacklistEnabled s && banned player serverID = false /\
     (as_WhitelistEnabled s = true -> invited player serverID = true)) /\
  (ad_Allowed d = false -> ad_Reason d <> ""%string /\
     ad_Type d = if as_BlacklistEnabled s && banned player serverID then DenyBlacklist else DenyWhitelist).
Proof.
  intros Hn s. unfold CheckAccessFull. pose proof (loadSettings_effective serverID None) as Hs.
  pose proof (loadSettings_ok player serverID None Hn) as Herr. fold s in Hs.
  destruct (loadSettings settings_Get serverID None) as [st last]. cbn in Hs, Herr. subst st last.
  pose proof (check_blacklist_ok s player serverID None Hn) as Hb.
  destruct (check_blacklist _ _ _ _ _ _) as [[d|] err]; destruct Hb as [-> Hb].
  - destruct Hb as (-> & -> & Ha & -> & Hr). cbn. rewrite Ha. split; [done|].
    split; [split; [done|by intros []]|done].
  - pose proof (check_whitelist_ok s player serverID None Hn) as Hw.
    destruct (check_whitelist _ _ _ _ _ _) as [d err]. destruct Hw as (-> & Ha & Hd).
    split; [done|]. rewrite Hb. split; [rewrite Ha|intros Hf; by destruct (Hd Hf)].
    rewrite orb_true_iff, negb_true_iff. destruct (as_WhitelistEnabled s), (invited player serverID); naive_solver.
Qed.

Lemma access_policy (player serverID : string) :
  no_db_error player serverID ->
  ad_Allowed (CheckAccessFull now bl wl settings_Get player serverID).1 = true <->
  as_BlacklistEnabled (effective_settings serverID) && banned player serverID = false /\
  (as_WhitelistEnabled (effective_settings serverID) = true -> invited player serverID = true).
Proof.
  intros Hn. pose proof (access_decision player serverID Hn) as Hd.
  destruct (CheckAccessFull _ _ _ _ _ _) as [d err]. by destruct Hd as (_ & Hd & _).
Qed.


(** On any database error during the check, [CheckAccessWithError] admits the player
    and reports the error (so [CheckAccess] and the MITM proxy admit him too). *)
Theorem CheckAccessWithError_fail_open (player serverID : string) (e : E) :
  (CheckAccessFull now bl wl settings_Get player serverID).2 = Some e ->
  CheckAccessWithError now bl wl settings_Get player serverID = (true, ""%string, Some e) /\
  (CheckAccess now bl wl settings_Get player serverID).1 = true /\
  mitm_checkACLAccess now bl wl settings_Get player serverID = (true, ""%string).
Proof.
  intros Herr. unfold CheckAccess, mitm_checkACLAccess, CheckAccessWithError.
  destruct (CheckAccessFull _ _ _ _ _ _) as [d err]. cbn in Herr. by subst err.
Qed.

(** [CheckAccessFull] itself does not fail open: when the white list is on and the
    query of the white list fails, it refuses the player with the error, and so
    does the passthrough proxy, whose comment promises the opposite. *)
Theorem passthrough_fails_closed (player serverID : string) (e : E) :
  let s := effective_settings serverID in
  as_WhitelistEnabled s = true -> as_BlacklistEnabled s && banned player serverID = false ->
  wl player "" = DbErr e -> wl player serverID = DbErr e ->
  let '(d, err) := passthrough_checkACLAccess now bl wl settings_Get true player serverID in
  ad_Allowed d = false /\ err = Some e /\
  (CheckAccessWithError now bl wl settings_Get player serverID).1.1 = true.
Proof.
  intros s Hw Hb H0 H1. unfold passthrough_checkACLAccess, CheckAccessWithError, CheckAccessFull.
  pose proof (loadSettings_effective serverID None) as Hs. fold s in Hs.
  destruct (loadSettings settings_Get serverID None) as [st last]. cbn in Hs. subst st.
  assert ((check_blacklist now bl s player serverID last).1 = None) as Hcb.
  { unfold check_blacklist. destruct (as_BlacklistEnabled s); [|done]. cbn in Hb |- *.
    unfold banned in Hb. apply orb_false_elim in Hb as [-> ->]. by destruct (String.eqb serverID ""). }
  destruct (check_blacklist _ _ _ _ _ _) as [d' err']. cbn in Hcb. subst d'.
  unfold check_whitelist. rewrite Hw, H0, H1. cbn. by destruct (String.eqb serverID "").
Qed.

(** ** The decision on the rows of the tables *)

Context (bl_rows : list BlacklistEntry) (wl_rows : list WhitelistEntry).
Context `{!AclRepositories bl wl bl_rows wl_rows}.

(** One row per name and server, and names in ASCII. *)
Definition table_ok {A} (name server : A -> string) (rows : list A) : Prop :=
  (forall x, x ∈ rows -> is_ascii (name x) = true) /\
  (forall x y, x ∈ rows -> y ∈ rows -> to_lower (name x) = to_lower (name y) -> server x = server y -> x = y).

Definition rows_of {A} (server : A -> string) (rows : list A) (s : string) : list (option A) :=
  Some <$> filter (fun x => server x = s) rows.

(** What a query by name and the test of its row say of a table. *)
Lemma query_rows {A} (name server : A -> string) (rows : list A) (q : answer E A)
    (test : option A -> bool) (player s : string) :
  table_ok name server rows -> is_ascii player = true -> (forall e, q <> DbErr e) ->
  (forall x, q = Found x -> x ∈ rows /\ to_lower (name x) = to_lower player /\ server x = s) ->
  (q = NotFound -> forall x, x ∈ rows -> to_lower (name x) = to_lower player -> server x <> s) ->
  test None = false -> (forall x, test (Some x) = true -> equal_fold player (name x) = true) ->
  test (found q) = existsb test (rows_of server rows s).
Proof.
  intros [Hascii Huniq] Hp Hdb Hf Hm Hnone Htest. apply eq_true_iff_eq. rewrite existsb_exists. split.
  - destruct q as [x| |e]; cbn; [|congruence|by destruct (Hdb e)]. intros Ht.
    destruct (Hf x eq_refl) as (Hx & _ & Hs). exists (Some x). split; [|done].
    apply list_elem_of_In, list_elem_of_fmap. exists x. split; [done|]. by apply list_elem_of_filter.
  - intros ([y|] & Hy & Ht); [|congruence]. apply list_elem_of_In, list_elem_of_fmap in Hy as (y' & [= <-] & Hy).
    apply list_elem_of_filter in Hy as [Hys Hy].
    assert (to_lower (name y) = to_lower player) as Hl.
    { symmetry. apply equal_fold_ascii; auto. }
    destruct q as [x| |e]; cbn; [|by destruct (Hm eq_refl y Hy Hl)|by destruct (Hdb e)].
    destruct (Hf x eq_refl) as (Hx & Hxl & Hxs).
    by rewrite (Huniq x y Hx Hy) by congruence.
Qed.

Lemma FindBlacklistEntry_existsb player l :
  (FindBlacklistEntry now player l = None -> existsb (IsBlacklistedByEntry now player) l = false) /\
  (FindBlacklistEntry now player l <> None -> existsb (IsBlacklistedByEntry now player) l = true).
Proof.
  induction l as [|e l [IH1 IH2]]; cbn; [done|].
  destruct (IsBlacklistedByEntry now player e) eqn:Ee; cbn; [|done]. by destruct e.
Qed.

(** On tables with one row per name and server and ASCII names, the database check
    admits exactly the players whom the pure check on the rows of the global and
    of the server lists admits: names compare without case, disabled and expired
    rows count for nothing. *)
Theorem CheckAccessFull_rows (player serverID : string) :
  no_db_error player serverID -> is_ascii player = true ->
  table_ok be_DisplayName be_ServerID bl_rows -> table_ok we_DisplayName we_ServerID wl_rows ->
  ad_Allowed (CheckAccessFull now bl wl settings_Get player serverID).1 =
  (CheckAccessWithEntries now player serverID
     (rows_of be_ServerID bl_rows "") (rows_of be_ServerID bl_rows serverID)
     (rows_of we_ServerID wl_rows "") (rows_of we_ServerID wl_rows serverID)
     (Some (effective_settings serverID))).1.
Proof.
  intros Hn Hp Hb Hw. pose proof (access_policy player serverID Hn) as Hpol.
  assert (forall s, s = ""%string \/ s = serverID -> IsBlacklistedByEntry now player (found (bl player s)) =
    existsb (IsBlacklistedByEntry now player) (rows_of be_ServerID bl_rows s)) as Hbq.
  { intros s Hs. apply (query_rows be_DisplayName) with (player := player); auto.
    - intros e. apply (Hn s e Hs).
    - intros x Hx. by apply (bl_found (bl := bl)) in Hx.
    - intros Hx. by apply (bl_missing (bl := bl)) with (n := player).
    - intros x. cbn. destruct (be_Enabled x), (be_IsExpired now x); done. }
  assert (forall s, s = ""%string \/ s = serverID -> IsWhitelistedByEntry now player (found (wl player s)) =
    existsb (IsWhitelistedByEntry now player) (rows_of we_ServerID wl_rows s)) as Hwq.
  { intros s Hs. apply (query_rows we_DisplayName) with (player := player); auto.
    - intros e. apply (Hn s e Hs).
    - intros x Hx. by apply (wl_found (wl := wl)) in Hx.
    - intros Hx. by apply (wl_missing (wl := wl)) with (n := player).
    - intros x. cbn. destruct (we_Enabled x), (we_IsExpired now x); done. }
  apply eq_true_iff_eq. rewrite Hpol. unfold CheckAccessWithEntries, banned, invited.
  rewrite (Hbq ""), (Hbq serverID), (Hwq ""), (Hwq serverID) by auto.
  destruct (FindBlacklistEntry_existsb player (rows_of be_ServerID bl_rows "")) as [G1 G2].
  destruct (FindBlacklistEntry_existsb player (rows_of be_ServerID bl_rows serverID)) as [S1 S2].
  set (st := effective_settings serverID).
  destruct (as_BlacklistEnabled st); cbn [andb].
  - destruct (FindBlacklistEntry now player (rows_of be_ServerID bl_rows "")) eqn:EG.
    { rewrite G2 by done. cbn. split; [by intros []|done]. }
    destruct (FindBlacklistEntry now player (rows_of be_ServerID bl_rows serverID)) eqn:ES.
    { rewrite (S2 ltac:(done)), orb_true_r. cbn. split; [by intros []|done]. }
    rewrite G1, S1 by done. cbn.
    destruct (as_WhitelistEnabled st), (existsb _ (rows_of we_ServerID wl_rows "")),
      (existsb _ (rows_of we_ServerID wl_rows serverID)); cbn; naive_solver.
  - cbn. destruct (as_WhitelistEnabled st), (existsb _ (rows_of we_ServerID wl_rows "")),
      (existsb _ (rows_of we_ServerID wl_rows serverID)); cbn; naive_solver.
Qed.
End acl_theorems.

(** ** Witnesses *)

#[local] Existing Instance ascii_unicode.

(** A query by name over a list of rows. *)
Definition query_list {A} (name server : A -> string) (rows : list A) (n s : string) : answer string A :=
  match List.find (fun x => String.eqb (to_lower (name x)) (to_lower n) && String.eqb (server x) s) rows with
  | Some x => Found x
  | None => NotFound
  end.

Lemma query_list_found {A} (name server : A -> string) rows n s x :
  query_list name server rows n s = Found x -> x ∈ rows /\ to_lower (name x) = to_lower n /\ server x = s.
Proof.
  unfold query_list. destruct (List.find _ rows) as [y|] eqn:E; [|done]. intros [= <-].
  apply find_some in E as [Hin Ht]. bool_prop. apply list_elem_of_In in Hin.
  split; [done|]. split; by apply String.eqb_eq.
Qed.

Lemma query_list_missing {A} (name server : A -> string) rows n s :
  query_list name server rows n s = NotFound ->
  forall x, x ∈ rows -> to_lower (name x) = to_lower n -> server x <> s.
Proof.
  unfold query_list. destruct (List.find _ rows) as [y|] eqn:E; [done|]. intros _ x Hx Hn Hs.
  pose proof (find_none _ _ E x ltac:(by apply list_elem_of_In)) as Ht. cbn in Ht.
  by rewrite Hn, Hs, !String.eqb_refl in Ht.
Qed.

#[export] Instance query_list_repositories bl_rows wl_rows :
  AclRepositories (query_list be_DisplayName be_ServerID bl_rows) (query_list we_DisplayName we_ServerID wl_rows)
    bl_rows wl_rows.
Proof. split; eauto using query_list_found, query_list_missing. Qed.

Lemma query_list_no_error {A} (name server : A -> string) rows n s e :
  query_list name server rows n s <> DbErr e.
Proof. unfold query_list. by destruct (List.find _ rows). Qed.

Definition example_ban (name server : string) : BlacklistEntry :=
  {| be_ID := 1; be_DisplayName := name; be_Enabled := true; be_Reason := "griefing"; be_ServerID := server;
     be_AddedAt := hour; be_ExpiresAt := Some (2 * hour); be_AddedBy := "admin" |}.

Definition example_invite (name server : string) : WhitelistEntry :=
  {| we_ID := 1; we_DisplayName := name; we_Enabled := true; we_Reason := ""; we_ServerID := server;
     we_AddedAt := hour; we_ExpiresAt := None; we_AddedBy := "admin" |}.

Definition strict_settings : ACLSettings :=
  {| as_ServerID := "lobby"; as_BlacklistEnabled := true; as_WhitelistEnabled := true;
     as_DefaultMessage := " "; as_WhitelistMessage := "" |}.

Definition strict (id : string) : answer string ACLSettings :=
  if String.eqb id "lobby" then Found strict_settings else NotFound.

Definition bans := query_list be_DisplayName be_ServerID [example_ban "Steve" ""].
Definition invites := query_list we_DisplayName we_ServerID
  [example_invite "alex" "lobby"; example_invite "steve" ""].

Lemma example_no_error player serverID : no_db_error bans invites strict player serverID.
Proof.
  intros s e _. split; [apply query_list_no_error|]. split; [apply query_list_no_error|].
  unfold strict. by destruct (String.eqb s "lobby").
Qed.


Definition broken_whitelist (n s : string) : answer string WhitelistEntry := DbErr "database is locked"%string.

Lemma CheckAccessWithError_fail_open_witness :
  (CheckAccess hour bans broken_whitelist strict "alex" "lobby").1 = true.
Proof.
  apply (CheckAccessWithError_fail_open hour bans broken_whitelist strict "alex" "lobby" "database is locked").
  vm_compute. reflexivity.
Defined.

Lemma passthrough_fails_closed_witness :
  ad_Allowed (passthrough_checkACLAccess hour bans broken_whitelist strict true "alex" "lobby").1 = false.
Proof.
  pose proof (passthrough_fails_closed hour bans broken_whitelist strict "alex" "lobby" "database is locked"
    ltac:(vm_compute; reflexivity) ltac:(vm_compute; reflexivity) eq_refl eq_refl) as H.
  destruct (passthrough_checkACLAccess _ _ _ _ _ _ _) as [d err]. apply H.
Defined.

Lemma CheckAccessFull_rows_witness :
  ad_Allowed (CheckAccessFull (hour + minute) bans invites strict "Alex" "lobby").1 = true.
Proof.
  rewrite (CheckAccessFull_rows (hour + minute) bans invites strict [example_ban "Steve" ""]
    [example_invite "alex" "lobby"; example_invite "steve" ""] "Alex" "lobby"
    (example_no_error "Alex" "lobby") eq_refl).
  - vm_compute. reflexivity.
  - split; [intros x ->%list_elem_of_singleton; done|].
    by intros x y ->%list_elem_of_singleton ->%list_elem_of_singleton.
  - split.
    + intros x [->|[->|Hx]%elem_of_cons]%elem_of_cons; [done|done|by apply not_elem_of_nil in Hx].
    + intros x y [->|[->|Hx]%elem_of_cons]%elem_of_cons [->|[->|Hy]%elem_of_cons]%elem_of_cons; try done.
      all: by apply not_elem_of_nil in Hx || by apply not_elem_of_nil in Hy.
Defined.
