(* ===== verification/Records.v ===== *)
(** * The history of sessions and the statistics of players

    [RetryOperation] of internal/errors/errors.go, the tables of sessions and players of
    internal/db/session_repository.go and player_repository.go, and [persistSession] of
    internal/proxy/proxy.go, the callback of the session manager that writes both.

    A statement of SQL is modelled by what it says on tables with a primary key: an
    [INSERT] of a taken key is refused and nothing is changed.  [ok] says which
    statements the engine executes at all, by their number; a statement that fails
    has no effect.  [oldest] is the order of [ORDER BY start_time ASC], which leaves the
    order of rows with one time open.  The pauses between attempts are not modelled.
    Totals are mathematical integers, which the engine's are below 2^63. *)

From Stdlib Require Import Strings.String.
From stdpp Require Import sorting.
From S2P Require Import Prelude GoBytes GoString Session SessionManager.

(** ** Attempts *)

(** The error wraps the last one; there is none when no attempt is allowed. *)
Inductive retry_err (E : Type) := RetryFailed (last : option E).
Arguments RetryFailed {E} last.

Fixpoint retry_attempts {D E} (attempts : nat) (fn : D -> D * option E) (d : D) (lastErr : option E)
  : D * option (retry_err E) :=
  match attempts with
  | O => (d, Some (RetryFailed lastErr))
  | S attempts =>
      match fn d with
      | (d, None) => (d, None)
      | (d, Some e) => retry_attempts attempts fn d (Some e)
      end
  end.

Definition defaultMaxRetries : nat := 3.

Definition RetryOperation {D E} (fn : D -> D * option E) (d : D) : D * option (retry_err E) :=
  retry_attempts defaultMaxRetries fn d None.

(** ** Rows *)

Record SessionRecord := {
  sr_ID : string;
  sr_ClientAddr : string;
  sr_ServerID : string;
  sr_UUID : string;
  sr_DisplayName : string;
  sr_BytesUp : Z;
  sr_BytesDown : Z;
  sr_StartTime : gotime;
  sr_EndTime : gotime;
  sr_Status : string;
  sr_StatusReason : string;
}.

Record PlayerRecord := {
  pr_DisplayName : string;
  pr_UUID : string;
  pr_XUID : string;
  pr_FirstSeen : gotime;
  pr_LastSeen : gotime;
  pr_TotalBytes : Z;
  pr_TotalPlaytime : Z;
}.

Record database := {
  db_sessions : list SessionRecord;
  db_players : gmap string PlayerRecord;
  db_statements : nat;
}.

Inductive db_err := DbFailed | DbConstraint | ErrNoRows.

Definition set_rows (rows : list SessionRecord) (d : database) : database :=
  {| db_sessions := rows; db_players := db_players d; db_statements := db_statements d |}.

Definition set_players (players : gmap string PlayerRecord) (d : database) : database :=
  {| db_sessions := db_sessions d; db_players := players; db_statements := db_statements d |}.

(** The limit of the history; a limit that is not positive means the default. *)
Definition record_limit (maxRecords : Z) : Z := if maxRecords <=? 0 then 100 else maxRecords.

Section repositories.
Context (ok : nat -> bool) (oldest : list SessionRecord -> list SessionRecord) (maxRecords : Z).

(** A statement: executed, or failed without an effect. *)
Definition statement {A} (f : database -> database * (A + db_err)) (d : database) : database * (A + db_err) :=
  let n := db_statements d in
  let d := {| db_sessions := db_sessions d; db_players := db_players d; db_statements := S n |} in
  if ok n then f d else (d, inr DbFailed).

(** ** [SessionRepository] *)

Definition repo_Count : database -> database * (Z + db_err) :=
  statement (fun d => (d, inl (Z.of_nat (length (db_sessions d))))).

Definition row_in (ids : list string) (r : SessionRecord) : bool := existsb (String.eqb (sr_ID r)) ids.

(** [DELETE FROM sessions WHERE id IN (SELECT id ... ORDER BY start_time ASC LIMIT ?)] *)
Definition DeleteOldest (count : Z) (d : database) : database * option db_err :=
  let '(d, r) := statement (fun d =>
    let ids := sr_ID <$> take (Z.to_nat count) (oldest (db_sessions d)) in
    (set_rows (List.filter (fun r => negb (row_in ids r)) (db_sessions d)) d, inl tt)) d in
  (d, match r with inl _ => None | inr e => Some e end).

Definition repo_Cleanup (d : database) : database * option db_err :=
  let '(d, r) := repo_Count d in
  match r with
  | inr e => (d, Some e)
  | inl count => if maxRecords <? count then DeleteOldest (count - maxRecords) d else (d, None)
  end.

Definition create_session (sr : SessionRecord) (d : database) : database * option db_err :=
  let '(d, r) := statement (fun d =>
    if row_in (sr_ID <$> db_sessions d) sr then (d, inr DbConstraint)
    else (set_rows (db_sessions d ++ [sr]) d, inl tt)) d in
  match r with
  | inr e => (d, Some e)
  | inl _ => repo_Cleanup d
  end.

(** ** [PlayerRepository] *)

Definition GetByDisplayName (displayName : string) : database -> database * (PlayerRecord + db_err) :=
  statement (fun d =>
    (d, match db_players d !! displayName with Some p => inl p | None => inr ErrNoRows end)).

Definition create_player (pr : PlayerRecord) (d : database) : database * option db_err :=
  let '(d, r) := statement (fun d =>
    match db_players d !! pr_DisplayName pr with
    | Some _ => (d, inr DbConstraint)
    | None => (set_players (<[pr_DisplayName pr := pr]> (db_players d)) d, inl tt)
    end) d in
  (d, match r with inl _ => None | inr e => Some e end).

(** [int64(d.Seconds())]; the float is exact enough below 2^23 seconds. *)
Definition whole_seconds (d : Z) : Z := Z.quot d second.

Definition add_stats (now : gotime) (bytesAdded playtimeSeconds : Z) (p : PlayerRecord) : PlayerRecord :=
  {| pr_DisplayName := pr_DisplayName p; pr_UUID := pr_UUID p; pr_XUID := pr_XUID p;
     pr_FirstSeen := pr_FirstSeen p; pr_LastSeen := now;
     pr_TotalBytes := pr_TotalBytes p + bytesAdded;
     pr_TotalPlaytime := pr_TotalPlaytime p + playtimeSeconds |}.

Definition UpdateStats (now : gotime) (displayName : string) (bytesAdded playtimeAdded : Z) (d : database)
  : database * option db_err :=
  let '(d, r) := statement (fun d =>
    match db_players d !! displayName with
    | None => (d, inl 0)
    | Some p => (set_players (<[displayName := add_stats now bytesAdded (whole_seconds playtimeAdded) p]> (db_players d)) d, inl 1)
    end) d in
  match r with
  | inr e => (d, Some e)
  | inl affected => (d, if affected =? 0 then Some ErrNoRows else None)
  end.

(** ** [persistSession] *)

Definition session_end_time (now : gotime) (s : Session) : gotime :=
  if is_zero_time (LastSeen s) || (LastSeen s <? StartTime s) then now else LastSeen s.

Definition record_of (now : gotime) (s : Session) : SessionRecord :=
  {| sr_ID := ID s; sr_ClientAddr := ClientAddr s; sr_ServerID := ServerID s; sr_UUID := UUID s;
     sr_DisplayName := DisplayName s; sr_BytesUp := BytesUp s; sr_BytesDown := BytesDown s;
     sr_StartTime := StartTime s; sr_EndTime := session_end_time now s;
     sr_Status := if String.eqb (DisconnectStatus s) "" then "disconnected" else DisconnectStatus s;
     sr_StatusReason := DisconnectReason s |}.

Definition new_player (now : gotime) (s : Session) : PlayerRecord :=
  {| pr_DisplayName := DisplayName s; pr_UUID := UUID s; pr_XUID := XUID s; pr_FirstSeen := StartTime s;
     pr_LastSeen := session_end_time now s; pr_TotalBytes := i64 (BytesUp s + BytesDown s);
     pr_TotalPlaytime := whole_seconds (time_sub (session_end_time now s) (StartTime s)) |}.

(** The statistics, in two parts: another session can be persisted in between. *)
Definition find_player (s : Session) (d : database) : database * bool :=
  let '(d, r) := GetByDisplayName (DisplayName s) d in
  (d, match r with inl _ => true | inr _ => false end).

Definition write_player (now : gotime) (s : Session) (found : bool) (d : database) : database :=
  if found
  then (RetryOperation (UpdateStats now (DisplayName s) (i64 (BytesUp s + BytesDown s))
                          (time_sub (session_end_time now s) (StartTime s))) d).1
  else (RetryOperation (create_player (new_player now s)) d).1.

Definition persistSession (now : gotime) (s : Session) (d : database) : database :=
  if String.eqb (DisplayName s) "" && String.eqb (UUID s) "" then d else
  let d := (RetryOperation (create_session (record_of now s)) d).1 in
  let d := (RetryOperation repo_Cleanup d).1 in
  if String.eqb (DisplayName s) "" then d else
  let '(d, found) := find_player s d in
  write_player now s found d.

(** ** Sessions and their records together

    The callback runs when a session has left the table; the log keeps the sessions as
    they were then. *)

Definition new_ended (sm sm' : SessionManager) : list (session_ptr * Session) :=
  omap (fun l => s ← heap sm' !! l; Some (l, s)) (drop (length (ended sm)) (ended sm')).

Definition persist_all (now : gotime) (l : list (session_ptr * Session)) (d : database) : database :=
  fold_left (fun d ls => persistSession now ls.2 d) l d.

Record recording := { rec_sm : SessionManager; rec_db : database; rec_log : list (gotime * (session_ptr * Session)) }.

Definition record_to (now : gotime) (sm' : SessionManager) (r : recording) : recording :=
  {| rec_sm := sm'; rec_db := persist_all now (new_ended (rec_sm r) sm') (rec_db r);
     rec_log := rec_log r ++ (pair now <$> new_ended (rec_sm r) sm') |}.

Inductive record_step : recording -> recording -> Prop :=
| record_sm r sm' now : sm_step (rec_sm r) sm' -> record_step r (record_to now sm' r).
End repositories.

(** * Facts *)

(** ** Attempts *)

Lemma retry_once {D E} (fn : D -> D * option E) d d' : fn d = (d', None) -> RetryOperation fn d = (d', None).
Proof. intros Hf. unfold RetryOperation, defaultMaxRetries. cbn. by rewrite Hf. Qed.

(** An operation that always fails and changes nothing is called three times in vain. *)
Lemma retry_fails {D E} (fn : D -> D * option E) (P : D -> Prop) d :
  P d -> (forall d, P d -> exists d' e, fn d = (d', Some e) /\ P d') ->
  P (RetryOperation fn d).1 /\ exists e, (RetryOperation fn d).2 = Some (RetryFailed (Some e)).
Proof.
  intros Hd Hf. unfold RetryOperation, defaultMaxRetries. cbn [retry_attempts].
  destruct (Hf d Hd) as (d1 & e1 & -> & H1). destruct (Hf d1 H1) as (d2 & e2 & -> & H2).
  destruct (Hf d2 H2) as (d3 & e3 & -> & H3). cbn. eauto.
Qed.

(** What no attempt changes stays. *)
Lemma retry_keeps {D E A} (fn : D -> D * option E) (f : D -> A) d :
  (forall d, f (fn d).1 = f d) -> f (RetryOperation fn d).1 = f d.
Proof.
  intros Hf. unfold RetryOperation. generalize (@None E). revert d.
  induction defaultMaxRetries as [|n IH]; intros d e; [done|]. cbn. specialize (Hf d).
  destruct (fn d) as [d' [e'|]]; cbn [fst] in *; [by rewrite IH, Hf|done].
Qed.

Section repository_facts.
Context (ok : nat -> bool) (oldest : list SessionRecord -> list SessionRecord) (maxRecords : Z).

(** A statement that changes the tables only through its function. *)
Lemma statement_players {A} (f : database -> database * (A + db_err)) d :
  (forall d, db_players (f d).1 = db_players d) -> db_players (statement ok f d).1 = db_players d.
Proof. intros Hf. unfold statement. destruct (ok _); [by rewrite Hf|done]. Qed.

Lemma statement_rows {A} (f : database -> database * (A + db_err)) d :
  (forall d, db_sessions (f d).1 = db_sessions d) -> db_sessions (statement ok f d).1 = db_sessions d.
Proof. intros Hf. unfold statement. destruct (ok _); [by rewrite Hf|done]. Qed.

Lemma Cleanup_players d : db_players (repo_Cleanup ok oldest maxRecords d).1 = db_players d.
Proof.
  unfold repo_Cleanup. destruct (repo_Count ok d) as [d1 r] eqn:E.
  assert (db_players d1 = db_players d) as H1.
  { pose proof (statement_players (A := Z) (fun d => (d, inl (Z.of_nat (length (db_sessions d))))) d) as Hs.
    unfold repo_Count in E. rewrite E in Hs. by apply Hs. }
  destruct r; [|done]. destruct (_ <? _); [|done]. unfold DeleteOldest.
  pose proof (statement_players (fun d => (set_rows (List.filter (fun r => negb (row_in
    (sr_ID <$> take (Z.to_nat (z - maxRecords)) (oldest (db_sessions d))) r)) (db_sessions d)) d, @inl unit db_err tt)) d1) as Hs.
  destruct (statement ok _ d1) as [d2 r2]. cbn [fst] in *. by rewrite Hs.
Qed.

Lemma create_session_players sr d : db_players (create_session ok oldest maxRecords sr d).1 = db_players d.
Proof.
  unfold create_session.
  pose proof (statement_players (A := unit) (fun d => if row_in (sr_ID <$> db_sessions d) sr then (d, inr DbConstraint)
    else (set_rows (db_sessions d ++ [sr]) d, inl tt)) d) as Hs.
  destruct (statement ok _ d) as [d1 r]. cbn [fst] in Hs.
  assert (db_players d1 = db_players d) as <- by (apply Hs; intros x; by destruct (row_in _ _)).
  destruct r; [apply Cleanup_players|done].
Qed.

(** The history does not touch the players. *)
Lemma history_players sr d :
  db_players (RetryOperation (repo_Cleanup ok oldest maxRecords)
    (RetryOperation (create_session ok oldest maxRecords sr) d).1).1 = db_players d.
Proof.
  rewrite (retry_keeps _ db_players _ Cleanup_players).
  apply (retry_keeps _ db_players _ (create_session_players sr)).
Qed.

(** [GetByDisplayName] is asked once and any error counts as a player never seen: when that one
    statement fails, the statistics of a known player are lost, whatever the
    attempts of the write. *)
Theorem failed_read_loses_statistics (now : gotime) (s : Session) (d : database) (p : PlayerRecord) :
  db_players d !! DisplayName s = Some p -> ok (db_statements d) = false ->
  let '(d', found) := find_player ok s d in
  db_players (write_player ok now s found d') = db_players d.
Proof.
  intros Hp Hok. unfold find_player, GetByDisplayName, statement. rewrite Hok. cbv iota beta zeta.
  unfold write_player. set (d1 := Build_database _ _ _).
  assert (db_players d = db_players d1) as E by done. clearbody d1. rewrite E in *. clear Hok E d.
  assert (forall d, db_players d = db_players d1 ->
    exists d' e, create_player ok (new_player now s) d = (d', Some e) /\ db_players d' = db_players d1) as Hf.
  { intros d Hd. unfold create_player, statement. destruct (ok _); cbn; [|eauto]. rewrite Hd, Hp. eauto. }
  by destruct (retry_fails (create_player ok (new_player now s)) (fun d => db_players d = db_players d1) d1 eq_refl Hf).
Qed.
End repository_facts.


(** ** The bound of the history *)

(** The rows a cleanup keeps. *)
Definition kept_rows (oldest : list SessionRecord -> list SessionRecord) (maxRecords : Z) (rows : list SessionRecord) : list SessionRecord :=
  let n := Z.of_nat (length rows) in
  if maxRecords <? n
  then List.filter (fun r => negb (row_in (sr_ID <$> take (Z.to_nat (n - maxRecords)) (oldest rows)) r)) rows
  else rows.

Section history.
Context (oldest : list SessionRecord -> list SessionRecord).
Hypothesis oldest_perm : forall rows, oldest rows ≡ₚ rows.

Lemma row_in_spec ids r : row_in ids r = true <-> sr_ID r ∈ ids.
Proof.
  unfold row_in. rewrite existsb_exists. split.
  - intros (x & Hx & E%String.eqb_eq). rewrite E. by apply list_elem_of_In.
  - intros Hr. exists (sr_ID r). split; [by apply list_elem_of_In|]. apply String.eqb_refl.
Qed.

Lemma row_fresh rows sr : sr_ID sr ∉ sr_ID <$> rows -> row_in (sr_ID <$> rows) sr = false.
Proof. intros Hn. apply not_true_iff_false. by rewrite row_in_spec. Qed.

#[local] Instance filter_proper (f : SessionRecord -> bool) : Proper ((≡ₚ) ==> (≡ₚ)) (List.filter f).
Proof. induction 1; cbn; repeat case_match; eauto using Permutation. Qed.

(** Deleting the rows at the front of a permutation leaves the rest of it. *)
Lemma delete_front (rows front rest : list SessionRecord) :
  NoDup (sr_ID <$> rows) -> front ++ rest ≡ₚ rows ->
  List.filter (fun r => negb (row_in (sr_ID <$> front) r)) rows ≡ₚ rest.
Proof.
  intros Hn Hp. rewrite <- Hp in Hn |- *. rewrite fmap_app in Hn. apply NoDup_app in Hn as (_ & Hd & _).
  rewrite List.filter_app.
  assert (List.filter (fun r => negb (row_in (sr_ID <$> front) r)) front = []) as ->.
  { assert (forall l, (forall r, r ∈ l -> r ∈ front) -> List.filter (fun r => negb (row_in (sr_ID <$> front) r)) l = []) as H.
    { induction l as [|x l IH]; intros Hl; [done|]. cbn.
      rewrite (proj2 (row_in_spec _ x)) by (apply list_elem_of_fmap_2, Hl, list_elem_of_here).
      apply IH. intros r Hr. by apply Hl, list_elem_of_further. }
    by apply H. }
  assert (forall l, (forall r, r ∈ l -> r ∈ rest) -> List.filter (fun r => negb (row_in (sr_ID <$> front) r)) l = l) as H.
  { induction l as [|x l IH]; intros Hl; [done|]. cbn.
    rewrite row_fresh; [|intros Hx; apply (Hd _ Hx), list_elem_of_fmap_2, Hl, list_elem_of_here].
    cbn. f_equal. apply IH. intros r Hr. by apply Hl, list_elem_of_further. }
  by rewrite H.
Qed.

Lemma kept_rows_perm maxRecords rows : NoDup (sr_ID <$> rows) ->
  kept_rows oldest maxRecords rows ≡ₚ drop (Z.to_nat (Z.of_nat (length rows) - maxRecords)) (oldest rows).
Proof.
  intros Hn. unfold kept_rows. destruct (Z.ltb_spec maxRecords (Z.of_nat (length rows))) as [Hl|Hl].
  - apply delete_front; [done|]. by rewrite take_drop.
  - replace (Z.to_nat _) with 0%nat by lia. by rewrite drop_0.
Qed.

Lemma kept_rows_length maxRecords rows : NoDup (sr_ID <$> rows) -> 0 <= maxRecords ->
  Z.of_nat (length (kept_rows oldest maxRecords rows)) = Z.min maxRecords (Z.of_nat (length rows)).
Proof.
  intros Hn Hm. rewrite kept_rows_perm by done. rewrite length_drop, oldest_perm. lia.
Qed.

Lemma kept_rows_idem maxRecords rows : NoDup (sr_ID <$> rows) -> 0 <= maxRecords ->
  kept_rows oldest maxRecords (kept_rows oldest maxRecords rows) = kept_rows oldest maxRecords rows.
Proof.
  intros Hn Hm. pose proof (kept_rows_length maxRecords rows Hn Hm) as Hl.
  unfold kept_rows at 1. by rewrite (proj2 (Z.ltb_ge _ _)) by lia.
Qed.

(** A row that went started no later than any that stayed. *)
Lemma kept_rows_newest maxRecords rows r r' : NoDup (sr_ID <$> rows) ->
  StronglySorted (fun a b => sr_StartTime a <= sr_StartTime b) (oldest rows) ->
  r ∈ rows -> r ∉ kept_rows oldest maxRecords rows -> r' ∈ kept_rows oldest maxRecords rows ->
  sr_StartTime r <= sr_StartTime r'.
Proof.
  intros Hn Hs Hr Hd Hk. rewrite kept_rows_perm in Hd, Hk by done. revert Hd Hk.
  generalize (Z.to_nat (Z.of_nat (length rows) - maxRecords)) as n. intros n Hd Hk.
  rewrite <- (take_drop n (oldest rows)) in Hs. rewrite <- oldest_perm, <- (take_drop n (oldest rows)) in Hr.
  apply elem_of_app in Hr as [Hr|]; [|done].
  exact (StronglySorted_app_1_elem_of _ _ _ _ _ Hs Hr Hk).
Qed.
End history.


(** ** A working database *)

Section working.
Context (ok : nat -> bool) (oldest : list SessionRecord -> list SessionRecord) (maxRecords : Z).
Hypothesis ok_all : forall n, ok n = true.

Definition tables (d : database) : list SessionRecord * gmap string PlayerRecord := (db_sessions d, db_players d).

Lemma Cleanup_works d : exists d', repo_Cleanup ok oldest maxRecords d = (d', None) /\
  tables d' = (kept_rows oldest maxRecords (db_sessions d), db_players d).
Proof.
  unfold repo_Cleanup, repo_Count, statement. rewrite ok_all. cbv iota beta. cbn [db_sessions].
  unfold kept_rows. destruct (_ <? _); [|by eexists].
  unfold DeleteOldest, statement. rewrite ok_all. by eexists.
Qed.

Lemma create_session_works sr d : sr_ID sr ∉ sr_ID <$> db_sessions d ->
  exists d', create_session ok oldest maxRecords sr d = (d', None) /\
    tables d' = (kept_rows oldest maxRecords (db_sessions d ++ [sr]), db_players d).
Proof.
  intros Hn. unfold create_session, statement. rewrite ok_all. cbn [db_sessions].
  rewrite row_fresh by done.
  cbv iota beta. match goal with |- context [repo_Cleanup _ _ _ ?x] => destruct (Cleanup_works x) as (d' & -> & Ht) end.
  by exists d'.
Qed.

Lemma create_player_works pr d : db_players d !! pr_DisplayName pr = None ->
  exists d', create_player ok pr d = (d', None) /\ tables d' = (db_sessions d, <[pr_DisplayName pr := pr]> (db_players d)).
Proof. intros Hn. unfold create_player, statement. rewrite ok_all. cbn [db_players]. rewrite Hn. by eexists. Qed.

Lemma UpdateStats_works now name n t p d : db_players d !! name = Some p ->
  exists d', UpdateStats ok now name n t d = (d', None) /\
    tables d' = (db_sessions d, <[name := add_stats now n (whole_seconds t) p]> (db_players d)).
Proof. intros Hp. unfold UpdateStats, statement. rewrite ok_all. cbn [db_players]. rewrite Hp. by eexists. Qed.

(** The bytes and the seconds of a session. *)
Definition session_bytes (s : Session) : Z := i64 (BytesUp s + BytesDown s).
Definition session_seconds (now : gotime) (s : Session) : Z :=
  whole_seconds (time_sub (session_end_time now s) (StartTime s)).

(** The player after a session. *)
Definition player_after (now : gotime) (s : Session) (p : option PlayerRecord) : PlayerRecord :=
  match p with
  | None => new_player now s
  | Some p => add_stats now (session_bytes s) (session_seconds now s) p
  end.

Lemma find_player_works s d : exists d', find_player ok s d = (d', bool_decide (is_Some (db_players d !! DisplayName s))) /\
  tables d' = tables d.
Proof.
  unfold find_player, GetByDisplayName, statement. rewrite ok_all. cbn [db_players].
  destruct (db_players d !! DisplayName s) as [p|].
  - rewrite bool_decide_true by by eexists. by eexists.
  - rewrite bool_decide_false by by intros [? ?]. by eexists.
Qed.

Lemma write_player_works now s d :
  tables (write_player ok now s (bool_decide (is_Some (db_players d !! DisplayName s))) d)
  = (db_sessions d, <[DisplayName s := player_after now s (db_players d !! DisplayName s)]> (db_players d)).
Proof.
  unfold write_player. destruct (db_players d !! DisplayName s) as [p|] eqn:E.
  - rewrite bool_decide_true by by eexists.
    destruct (UpdateStats_works now (DisplayName s) (i64 (BytesUp s + BytesDown s)) (time_sub (session_end_time now s) (StartTime s)) p d E)
      as (d' & Hf & Ht). by rewrite (retry_once _ _ _ Hf).
  - rewrite bool_decide_false by by intros [? ?].
    destruct (create_player_works (new_player now s) d E) as (d' & Hf & Ht). by rewrite (retry_once _ _ _ Hf).
Qed.

(** What [persistSession] does to the players of a working database. *)
Lemma persist_players now s d :
  db_players (persistSession ok oldest maxRecords now s d)
  = if String.eqb (DisplayName s) "" then db_players d
    else <[DisplayName s := player_after now s (db_players d !! DisplayName s)]> (db_players d).
Proof.
  unfold persistSession. destruct (String.eqb_spec (DisplayName s) "") as [He|Hne]; cbn [andb].
  { destruct (String.eqb (UUID s) ""); [done|]. apply history_players. }
  set (d1 := (RetryOperation _ _).1).
  assert (db_players d1 = db_players d) as Hd by apply history_players. clearbody d1.
  destruct (find_player_works s d1) as (d2 & -> & Ht). cbv iota beta.
  injection Ht as Hs2 Hp2. rewrite <- Hd, <- Hp2.
  pose proof (write_player_works now s d2) as Hw. by injection Hw.
Qed.

(** What it does to the sessions. *)
Lemma persist_rows now s d :
  (forall rows, oldest rows ≡ₚ rows) -> 0 <= maxRecords ->
  NoDup (sr_ID <$> (db_sessions d ++ [record_of now s])) -> ID s ∉ sr_ID <$> db_sessions d ->
  DisplayName s <> ""%string \/ UUID s <> ""%string ->
  db_sessions (persistSession ok oldest maxRecords now s d) = kept_rows oldest maxRecords (db_sessions d ++ [record_of now s]).
Proof.
  intros Hp Hm Hn Hid Hname. unfold persistSession.
  assert (String.eqb (DisplayName s) "" && String.eqb (UUID s) "" = false) as ->.
  { destruct (String.eqb_spec (DisplayName s) ""), (String.eqb_spec (UUID s) ""); naive_solver. }
  set (d1 := (RetryOperation (repo_Cleanup ok oldest maxRecords) _).1).
  assert (db_sessions d1 = kept_rows oldest maxRecords (db_sessions d ++ [record_of now s])) as <-.
  { unfold d1. destruct (create_session_works (record_of now s) d Hid) as (d2 & Hf & Ht2).
    rewrite (retry_once _ _ _ Hf). cbn [fst]. destruct (Cleanup_works d2) as (d3 & Hf3 & Ht3).
    rewrite (retry_once _ _ _ Hf3). cbn [fst]. injection Ht2 as E2 _. injection Ht3 as -> _.
    rewrite E2. by apply kept_rows_idem. }
  destruct (String.eqb _ _); [done|]. destruct (find_player_works s d1) as (d2 & -> & Ht). cbv iota beta.
  injection Ht as Hs2 Hp2. rewrite <- Hs2, <- Hp2.
  pose proof (write_player_works now s d2) as Hw. by injection Hw.
Qed.

Definition total_bytes (name : string) (d : database) : Z :=
  match db_players d !! name with Some p => pr_TotalBytes p | None => 0 end.
Definition total_playtime (name : string) (d : database) : Z :=
  match db_players d !! name with Some p => pr_TotalPlaytime p | None => 0 end.

(** What a session of the log adds to the statistics of a player. *)
Definition logged_bytes (name : string) (e : gotime * (session_ptr * Session)) : Z :=
  if String.eqb (DisplayName e.2.2) name then session_bytes e.2.2 else 0.
Definition logged_seconds (name : string) (e : gotime * (session_ptr * Session)) : Z :=
  if String.eqb (DisplayName e.2.2) name then session_seconds e.1 e.2.2 else 0.

Definition sum_log (f : gotime * (session_ptr * Session) -> Z) (l : list (gotime * (session_ptr * Session))) : Z :=
  foldr (fun e n => f e + n) 0 l.

Lemma sum_log_app f l k : sum_log f (l ++ k) = sum_log f l + sum_log f k.
Proof. induction l as [|e l IH]; [done|]. cbn. unfold sum_log in *. cbn in *. lia. Qed.

Lemma persist_totals now l s d name : name <> ""%string ->
  total_bytes name (persistSession ok oldest maxRecords now s d) = total_bytes name d + logged_bytes name (now, (l, s)) /\
  total_playtime name (persistSession ok oldest maxRecords now s d) = total_playtime name d + logged_seconds name (now, (l, s)).
Proof.
  intros Hn. unfold total_bytes, total_playtime, logged_bytes, logged_seconds. rewrite persist_players. cbn [fst snd].
  destruct (String.eqb_spec (DisplayName s) "") as [He|He].
  { destruct (String.eqb_spec (DisplayName s) name) as [E|]; [congruence|]. lia. }
  destruct (String.eqb_spec (DisplayName s) name) as [<-|Hne].
  - rewrite lookup_insert_eq. destruct (db_players d !! DisplayName s) as [p|]; cbn; [lia|].
    unfold session_bytes, session_seconds. lia.
  - rewrite lookup_insert_ne by done. lia.
Qed.

Lemma persist_all_totals now l d name : name <> ""%string ->
  total_bytes name (persist_all ok oldest maxRecords now l d) = total_bytes name d + sum_log (logged_bytes name) (pair now <$> l) /\
  total_playtime name (persist_all ok oldest maxRecords now l d) = total_playtime name d + sum_log (logged_seconds name) (pair now <$> l).
Proof.
  intros Hn. revert d. induction l as [|[p s] l IH]; intros d; [cbn; lia|].
  destruct (IH (persistSession ok oldest maxRecords now s d)) as [Hb Ht].
  destruct (persist_totals now p s d name Hn) as [Hb1 Ht1].
  unfold persist_all, sum_log in *. cbn [fold_left snd fmap list_fmap foldr]. rewrite Hb, Ht, Hb1, Ht1. lia.
Qed.

Lemma new_ended_app sm sm' : sm_inv sm' -> (exists k, ended sm' = ended sm ++ k) ->
  ended sm' = ended sm ++ (new_ended sm sm').*1.
Proof.
  intros [_ He _ _] [k Hk]. rewrite Hk. f_equal. unfold new_ended. rewrite Hk, drop_app_length.
  assert (Forall (fun l => is_Some (heap sm' !! l)) k) as Hf.
  { apply Forall_forall. intros l Hl. apply lookup_lt_is_Some. apply He. rewrite Hk. apply elem_of_app. by right. }
  clear Hk He. induction Hf as [|l k [s Hs] _ IH]; [done|]. cbn. rewrite Hs. cbn. by f_equal.
Qed.

(** The calls of the callback are only ever added to. *)
Lemma ended_grows sm sm' : sm_step sm sm' -> exists k, ended sm' = ended sm ++ k.
Proof.
  assert (forall sm, exists k, ended sm = ended sm ++ k) as Hid by (intros x; exists []; by rewrite app_nil_r).
  assert (forall sm l, exists k, ended (end_session sm l) = ended sm ++ k) as H1
    by (intros x l; rewrite ended_end_session; eauto).
  assert (forall ls sm, exists k, ended (fold_left end_session ls sm) = ended sm ++ k) as H2.
  { induction ls as [|l ls IH]; intros x; [apply Hid|]. cbn. destruct (IH (end_session x l)) as [k ->].
    destruct (H1 x l) as [k' ->]. exists (k' ++ k). by rewrite app_assoc. }
  assert (forall sm a, exists k, ended (Remove sm a).1 = ended sm ++ k) as H3.
  { intros x a. unfold Remove. destruct (_ !! _); [|apply Hid]. cbn [fst]. apply (H1 (set_sessions _ x)). }
  assert (forall addrs sm, exists k, ended (remove_all sm addrs) = ended sm ++ k) as H4.
  { unfold remove_all. induction addrs as [|a addrs IH]; intros x; [apply Hid|]. cbn.
    destruct (IH (Remove x a).1) as [k ->]. destruct (H3 x a) as [k' ->]. exists (k' ++ k). by rewrite app_assoc. }
  intros []; try (apply (Hid sm0)); try apply H3; try apply H4.
  - unfold GetOrCreate, create_locked. repeat case_match; apply (Hid sm0).
  - unfold RemoveByID. repeat case_match; try apply Hid. apply (H1 (set_sessions _ sm0)).
  - unfold RemoveByPlayerName. destruct (String.eqb _ _); [apply Hid|]. apply (H2 _ (set_sessions _ sm0)).
  - unfold RemoveByXUID. destruct (String.eqb _ _); [apply Hid|]. apply (H2 _ (set_sessions _ sm0)).
  - unfold UpdateActivity. case_match; apply (Hid sm0).
  - unfold SetRemoteConn. case_match; apply (Hid sm0).
Qed.

Lemma stamped {A} (now : gotime) (l : list A) : (pair now <$> l).*2 = l.
Proof. induction l as [|x l IH]; [done|]. cbn. by f_equal. Qed.

End working.

(** The history on a working database stays within its limit: when a session with an
    identity and a new id is persisted, the table afterwards has all rows with the new one,
    or as many as the limit allows, and a row that was dropped started no later than any
    that was kept. *)
Theorem history_bounded (ok : nat -> bool) (oldest : list SessionRecord -> list SessionRecord) (maxRecords : Z)
    (now : gotime) (s : Session) (d : database) :
  (forall n, ok n = true) ->
  (forall rows, oldest rows ≡ₚ rows /\ StronglySorted (fun a b => sr_StartTime a <= sr_StartTime b) (oldest rows)) ->
  NoDup (sr_ID <$> db_sessions d) -> ID s ∉ sr_ID <$> db_sessions d ->
  DisplayName s <> ""%string \/ UUID s <> ""%string ->
  let limit := record_limit maxRecords in
  let rows := db_sessions d ++ [record_of now s] in
  let rows' := db_sessions (persistSession ok oldest limit now s d) in
  Z.of_nat (length rows') = Z.min limit (Z.of_nat (length rows)) /\
  NoDup (sr_ID <$> rows') /\ (forall r, r ∈ rows' -> r ∈ rows) /\
  forall r r', r ∈ rows -> r ∉ rows' -> r' ∈ rows' -> sr_StartTime r <= sr_StartTime r'.
Proof.
  intros Hok Hold Hn Hid Hname limit rows rows'.
  assert (0 <= limit) as Hm by (unfold limit, record_limit; case_match; lia).
  assert (NoDup (sr_ID <$> rows)) as Hrows.
  { unfold rows. rewrite fmap_app. apply NoDup_app. split; [done|]. split; [|by apply NoDup_singleton].
    intros x Hx E%list_elem_of_singleton. subst x. by apply Hid. }
  pose proof (fun l => proj1 (Hold l)) as Hp.
  assert (rows' = kept_rows oldest limit rows) as E by by apply persist_rows. rewrite E.
  split; [by apply kept_rows_length|].
  assert (forall r, r ∈ kept_rows oldest limit rows -> r ∈ rows) as Hsub.
  { intros r. rewrite kept_rows_perm by done. intros Hr. rewrite <- Hp, <- (take_drop (Z.to_nat (Z.of_nat (length rows) - limit)) (oldest rows)). apply elem_of_app. by right. }
  split; [|split; [done|]].
  - rewrite (kept_rows_perm _ Hp) by done. rewrite <- Hp in Hrows.
    rewrite <- (take_drop (Z.to_nat (Z.of_nat (length rows) - limit)) (oldest rows)) in Hrows.
    rewrite fmap_app in Hrows. by apply NoDup_app in Hrows as (_ & _ & ?).
  - intros r r'. by apply kept_rows_newest, Hold.
Qed.

(** [Create] ends with a cleanup whose error it returns: when the row was inserted and only the
    cleanup failed, every further attempt inserts the same key again and [RetryOperation]
    reports a failure although the row is there. *)
Theorem stored_but_reported (ok : nat -> bool) (oldest : list SessionRecord -> list SessionRecord) (maxRecords : Z)
    (sr : SessionRecord) (d : database) :
  sr_ID sr ∉ sr_ID <$> db_sessions d -> ok (db_statements d) = true -> ok (S (db_statements d)) = false ->
  let '(d', e) := RetryOperation (create_session ok oldest maxRecords sr) d in
  db_sessions d' = db_sessions d ++ [sr] /\ exists e', e = Some (RetryFailed e').
Proof.
  intros Hn Hok Hfail. pose proof (row_fresh (db_sessions d) sr Hn) as Hrow.
  set (Q := fun x => db_sessions x = db_sessions d ++ [sr]).
  unfold RetryOperation, defaultMaxRetries. cbn [retry_attempts].
  assert (exists d1, create_session ok oldest maxRecords sr d = (d1, Some DbFailed) /\ Q d1) as (d1 & -> & H1).
  { unfold create_session, statement. rewrite Hok. cbn [db_sessions db_statements]. rewrite Hrow.
    unfold repo_Cleanup, repo_Count, statement. cbn [set_rows db_statements]. rewrite Hfail. by eexists. }
  assert (forall x, Q x -> exists x' e, create_session ok oldest maxRecords sr x = (x', Some e) /\ Q x') as Hstep.
  { unfold Q. intros x Hx. unfold create_session, statement. destruct (ok (db_statements x)); [|do 2 eexists; split; [reflexivity|exact Hx]]. cbn [db_sessions].
    rewrite (proj2 (row_in_spec _ _)); [do 2 eexists; split; [reflexivity|exact Hx]|]. rewrite Hx, fmap_app.
    apply elem_of_app. right. by apply list_elem_of_singleton. }
  destruct (Hstep d1 H1) as (d2 & e2 & -> & H2). destruct (Hstep d2 H2) as (d3 & e3 & -> & H3).
  split; [exact H3|by eexists].
Qed.

(** Reading a player and writing him back are two statements: when the first two sessions of a
    player end together and both read before either writes, the second create finds the
    key taken, three times, and the bytes and the playtime of that session are lost. *)
Theorem first_sessions_race (ok : nat -> bool) (now1 now2 : gotime) (s1 s2 : Session) (d : database) :
  (forall n, ok n = true) -> DisplayName s1 = DisplayName s2 -> db_players d !! DisplayName s1 = None ->
  let '(d, found1) := find_player ok s1 d in
  let '(d, found2) := find_player ok s2 d in
  let d := write_player ok now1 s1 found1 d in
  let d := write_player ok now2 s2 found2 d in
  db_players d !! DisplayName s2 = Some (new_player now1 s1).
Proof.
  intros Hok Hname Hd. destruct (find_player_works ok Hok s1 d) as (d1 & -> & H1). cbv iota beta.
  destruct (find_player_works ok Hok s2 d1) as (d2 & -> & H2). cbv iota beta zeta.
  injection H1 as _ E1. injection H2 as _ E2. rewrite <- E1, <- E2 in Hd. rewrite <- Hname.
  replace (db_players d !! DisplayName s1) with (db_players d2 !! DisplayName s1) by (by rewrite E2, E1).
  replace (db_players d1 !! DisplayName s1) with (db_players d2 !! DisplayName s1) by (by rewrite E2).
  pose proof (write_player_works ok Hok now1 s1 d2) as Hw. set (d3 := write_player _ _ _ _ _) in *. clearbody d3.
  injection Hw as _ Hw. rewrite Hd, bool_decide_false by by intros [? ?].
  assert (db_players d3 !! DisplayName s1 = Some (new_player now1 s1)) as H3.
  { rewrite Hw, lookup_insert_eq. by rewrite Hd. }
  unfold write_player. rewrite <- H3. f_equal.
  assert (forall x, db_players x = db_players d3 ->
    exists x' e, create_player ok (new_player now2 s2) x = (x', Some e) /\ db_players x' = db_players d3) as Hf.
  { intros x Hx. unfold create_player, statement. rewrite Hok. cbn [db_players new_player pr_DisplayName].
    rewrite Hx, <- Hname, H3. by do 2 eexists. }
  by destruct (retry_fails (create_player ok (new_player now2 s2)) (fun x => db_players x = db_players d3) d3 eq_refl Hf).
Qed.

(** ** Witnesses *)

Definition demo_db : database := {| db_sessions := []; db_players := ∅; db_statements := 0 |}.

Definition demo_rec (id : string) (start : gotime) : SessionRecord :=
  {| sr_ID := id; sr_ClientAddr := "c"; sr_ServerID := "s"; sr_UUID := "u"; sr_DisplayName := "Steve"; sr_BytesUp := 1;
     sr_BytesDown := 2; sr_StartTime := start; sr_EndTime := start; sr_Status := "disconnected"; sr_StatusReason := "" |}.

Definition demo_ended (id : string) (up : Z) : Session :=
  {| ID := id; ClientAddr := "c"; RemoteConn := None; ServerID := "s"; UUID := "u"; DisplayName := "Steve"; XUID := "";
     BytesUp := up; BytesDown := 0; StartTime := 100; LastSeen := 200; LoginBuffer := None; LoginExtracted := false;
     DisconnectStatus := ""; DisconnectReason := "" |}.

Lemma failed_read_loses_statistics_witness :
  let p := new_player 0 (demo_ended "x" 5) in
  let d := {| db_sessions := []; db_players := {["Steve"%string := p]}; db_statements := 0 |} in
  let ok n := negb (Nat.eqb n 0) in
  let '(d', found) := find_player ok (demo_ended "y" 7) d in
  db_players (write_player ok 300 (demo_ended "y" 7) found d') = {["Steve"%string := p]}.
Proof. exact (failed_read_loses_statistics (fun n => negb (Nat.eqb n 0)) 300 (demo_ended "y" 7) {| db_sessions := []; db_players := {["Steve"%string := new_player 0 (demo_ended "x" 5)]}; db_statements := 0 |}
  (new_player 0 (demo_ended "x" 5)) eq_refl eq_refl). Defined.

Definition by_start (a b : SessionRecord) : Prop := sr_StartTime a <= sr_StartTime b.

#[export] Instance by_start_dec : RelDecision by_start := fun a b => Z_le_dec (sr_StartTime a) (sr_StartTime b).

#[local] Instance by_start_total : Total by_start.
Proof. intros a b. unfold by_start. lia. Qed.

#[local] Instance by_start_trans : Transitive by_start.
Proof. intros a b c. unfold by_start. lia. Qed.

(** Three rows, a limit of two: the oldest is dropped. *)
Lemma history_bounded_witness :
  let d := {| db_sessions := [demo_rec "b" 50; demo_rec "a" 20]; db_players := ∅; db_statements := 0 |} in
  Z.of_nat (length (db_sessions (persistSession (fun _ => true) (merge_sort by_start) 2 300 (demo_ended "x" 5) d))) = 2.
Proof.
  intros d.
  refine (proj1 (history_bounded (fun _ => true) (merge_sort by_start) 2 300 (demo_ended "x" 5) d _ _ _ _ _)).
  - done.
  - intros rows. split; [apply merge_sort_Permutation|apply (StronglySorted_merge_sort by_start)].
  - cbn. repeat constructor; intros H; repeat (apply elem_of_cons in H as [H|H]; [done|]); by apply elem_of_nil in H.
  - cbn. intros H. repeat (apply elem_of_cons in H as [H|H]; [done|]). by apply elem_of_nil in H.
  - by left.
Defined.

Lemma stored_but_reported_witness :
  let ok n := negb (Nat.eqb n 1) in
  let '(d', e) := RetryOperation (create_session ok id 100 (demo_rec "a" 5)) demo_db in
  db_sessions d' = [demo_rec "a" 5] /\ exists e', e = Some (RetryFailed e').
Proof.
  exact (stored_but_reported (fun n => negb (Nat.eqb n 1)) id 100 (demo_rec "a" 5) demo_db
    ltac:(apply not_elem_of_nil) eq_refl eq_refl).
Defined.

Lemma first_sessions_race_witness :
  let ok (_ : nat) := true in
  let s1 := demo_ended "x" 5 in let s2 := demo_ended "y" 7 in
  let '(d, found1) := find_player ok s1 demo_db in
  let '(d, found2) := find_player ok s2 d in
  let d := write_player ok 300 s1 found1 d in
  let d := write_player ok 300 s2 found2 d in
  db_players d !! "Steve"%string = Some (new_player 300 s1).
Proof.
  exact (first_sessions_race (fun _ => true) 300 300 (demo_ended "x" 5) (demo_ended "y" 7) demo_db
    ltac:(done) eq_refl (lookup_empty _)).
Defined.

