(* ===== verification/PortListeners.v ===== *)
(** * The listeners of the proxy ports: [ProxyPortManager] of internal/proxy/proxy_ports.go

    The manager starts a TCP listener per enabled proxy port, and keeps the dialers of
    the nodes in a pool that all listeners share.  [Socks] models what a listener does
    with a connection.

    A listener is a cell of a heap: the table of the manager forgets it while its
    connections go on.  The sockets opened and closed are a trace.  [services] and
    [listen_ok] are the host: the port names it knows and whether [net.Listen] succeeds
    on an address.  A dialer is its number in the list of the configurations they were
    created from; [r] says whether [CreateDialer] succeeds.  The whole of [Start] and of
    [stopListeners] is under one mutex, and so is [Get] of the pool. *)

From Stdlib Require Import Strings.Ascii Strings.String.
From stdpp Require Import pretty.
From S2P Require Import Prelude GoBytes GoString Config NetIP ProxyPort Outbound Socks.

Abbreviation port_ptr := nat (only parsing).
Abbreviation dialer_id := nat (only parsing).

Record proxyPortListener := {
  pl_cfg : ProxyPortConfig;
  pl_allowList : list IPNet;
  pl_activeConns : Z;
}.

Inductive listen_err :=
| ListenInvalid (e : cfg_err)
| ListenAllowList
| ListenFailed (addr : string).

Inductive socket_event := PortOpened (l : port_ptr) | PortClosed (l : port_ptr).

Record proxyPortDialerPool := {
  dp_dialers : gmap string dialer_id;
  dp_made : list ProxyOutbound;
  dp_closed : list dialer_id;
}.

Record ProxyPortManager := {
  ppm_heap : list proxyPortListener;
  ppm_listeners : gmap string port_ptr;
  ppm_trace : list socket_event;
  ppm_pool : proxyPortDialerPool;
}.

Definition NewProxyPortManager : ProxyPortManager :=
  {| ppm_heap := []; ppm_listeners := ∅; ppm_trace := [];
     ppm_pool := {| dp_dialers := ∅; dp_made := []; dp_closed := [] |} |}.

Definition set_pool (pool : proxyPortDialerPool) (m : ProxyPortManager) : ProxyPortManager :=
  {| ppm_heap := ppm_heap m; ppm_listeners := ppm_listeners m; ppm_trace := ppm_trace m; ppm_pool := pool |}.

Definition set_active (l : port_ptr) (f : Z -> Z) (m : ProxyPortManager) : ProxyPortManager :=
  {| ppm_heap := alter (fun x => {| pl_cfg := pl_cfg x; pl_allowList := pl_allowList x;
                                    pl_activeConns := f (pl_activeConns x) |}) l (ppm_heap m);
     ppm_listeners := ppm_listeners m; ppm_trace := ppm_trace m; ppm_pool := ppm_pool m |}.

(** ** The pool of dialers *)

(** [%t] *)
Definition format_bool (b : bool) : string := if b then "true" else "false".

(** The operands of the format of [proxyOutboundDialerCacheKey]. *)
Definition key_fields (cfg : ProxyOutbound) : list string :=
  [ Name cfg; Type_ cfg; Server cfg; pretty (Port cfg); Username cfg; Method cfg; Password cfg; UUID cfg;
    Security cfg; pretty (AlterID cfg); Flow cfg; Obfs cfg; ObfsPassword cfg; pretty (HopInterval cfg);
    pretty (UpMbps cfg); PortHopping cfg; CertFingerprint cfg; pretty (DownMbps cfg);
    pretty (IdleSessionCheckInterval cfg); pretty (IdleSessionTimeout cfg); pretty (MinIdleSession cfg);
    ALPN cfg; format_bool (TLS cfg); SNI cfg; format_bool (Insecure cfg); Fingerprint cfg;
    format_bool (Reality cfg); RealityPublicKey cfg; RealityShortID cfg; Network cfg; WSPath cfg; WSHost cfg;
    XHTTPMode cfg; GRPCServiceName cfg; GRPCAuthority cfg ]%string.

Definition proxyOutboundDialerCacheKey (cfg : ProxyOutbound) : string := join1 "|" (key_fields cfg).

#[global] Arguments proxyOutboundDialerCacheKey : simpl never.

(** [None] is the error of [CreateDialer]. *)
Definition pool_Get (r : bool) (cfg : ProxyOutbound) (p : proxyPortDialerPool)
  : proxyPortDialerPool * option dialer_id :=
  let cacheKey := proxyOutboundDialerCacheKey cfg in
  match dp_dialers p !! cacheKey with
  | Some d => (p, Some d)
  | None =>
      if r then
        let d := length (dp_made p) in
        ({| dp_dialers := <[cacheKey := d]> (dp_dialers p); dp_made := dp_made p ++ [cfg];
            dp_closed := dp_closed p |}, Some d)
      else (p, None)
  end.

(** [order] is the iteration order of the map. *)
Definition CloseAll (order : list string) (p : proxyPortDialerPool) : proxyPortDialerPool :=
  fold_left (fun p key =>
    match dp_dialers p !! key with
    | None => p
    | Some d =>
        {| dp_dialers := delete key (dp_dialers p); dp_made := dp_made p; dp_closed := dp_closed p ++ [d] |}
    end) order p.

(** ** The listeners *)

Section manager.
Context `{Unicode} (services : string -> option Z) (listen_ok : string -> bool).

(** [proxyPortListener.Start]: the defaults are filled in by the check. *)
Definition listener_Start (cfg : ProxyPortConfig) : proxyPortListener + listen_err :=
  let '(cfg, err) := pp_Validate services cfg in
  match err with
  | Some e => inr (ListenInvalid e)
  | None =>
      match parseAllowList (pp_AllowList cfg) with
      | None => inr ListenAllowList
      | Some nets =>
          if listen_ok (pp_ListenAddr cfg)
          then inl {| pl_cfg := cfg; pl_allowList := nets; pl_activeConns := 0 |}
          else inr (ListenFailed (pp_ListenAddr cfg))
      end
  end.

(** One turn of the loop of [Start], with the first error. *)
Definition start_port (acc : ProxyPortManager * option listen_err) (cfg : ProxyPortConfig)
  : ProxyPortManager * option listen_err :=
  let '(m, firstErr) := acc in
  if negb (pp_Enabled cfg) then acc else
  match ppm_listeners m !! pp_ID cfg with
  | Some _ => acc
  | None =>
      match listener_Start cfg with
      | inr e => (m, match firstErr with None => Some e | Some _ => firstErr end)
      | inl listener =>
          let l := length (ppm_heap m) in
          ({| ppm_heap := ppm_heap m ++ [listener]; ppm_listeners := <[pp_ID cfg := l]> (ppm_listeners m);
              ppm_trace := ppm_trace m ++ [PortOpened l]; ppm_pool := ppm_pool m |}, firstErr)
      end
  end.

Definition ppm_Start (enabled : bool) (order : list string) (config : ProxyPortConfigManager)
    (m : ProxyPortManager) : ProxyPortManager * option listen_err :=
  if enabled then fold_left start_port (GetAllPorts config order) (m, None) else (m, None).

(** One turn of the loop of [stopListeners]; waiting for the connections changes
    nothing the manager keeps. *)
Definition stop_port (m : ProxyPortManager) (id : string) : ProxyPortManager :=
  match ppm_listeners m !! id with
  | None => m
  | Some l =>
      {| ppm_heap := ppm_heap m; ppm_listeners := delete id (ppm_listeners m);
         ppm_trace := ppm_trace m ++ [PortClosed l]; ppm_pool := ppm_pool m |}
  end.

(** [order] visits the listeners, [keys] the dialers. *)
Definition stopListeners (closeDialers : bool) (order keys : list string) (m : ProxyPortManager)
  : ProxyPortManager :=
  let m := fold_left stop_port order m in
  if closeDialers then set_pool (CloseAll keys (ppm_pool m)) m else m.

Definition ppm_Stop (order keys : list string) (m : ProxyPortManager) : ProxyPortManager :=
  stopListeners true order keys m.

(** [stops] visits the listeners and [starts] the ports of the configuration. *)
Definition ppm_Reload (enabled : bool) (stops starts : list string) (config : ProxyPortConfigManager)
    (m : ProxyPortManager) : ProxyPortManager * option listen_err :=
  ppm_Start enabled starts config (stopListeners false stops [] m).

Definition ppm_GetActiveConnectionCount (order : list string) (m : ProxyPortManager) : Z :=
  foldr Z.add 0 (omap (fun id => l ← ppm_listeners m !! id; pl_activeConns <$> ppm_heap m !! l) order).

Definition GetActiveConnectionCountForPort (id : string) (m : ProxyPortManager) : Z :=
  match ppm_listeners m !! id with
  | None => 0
  | Some l => match ppm_heap m !! l with Some x => pl_activeConns x | None => 0 end
  end.

(** A connection of a listener begins and ends, whether or not the table still has the
    listener. *)
Definition conn_begin (l : port_ptr) : ProxyPortManager -> ProxyPortManager := set_active l (fun n => i64 (n + 1)).
Definition conn_end (l : port_ptr) : ProxyPortManager -> ProxyPortManager := set_active l (fun n => i64 (n - 1)).

(** The sections under the mutexes, in any order; [Reload] is a [stopListeners] and a
    [Start]. *)
Inductive ports_step : ProxyPortManager -> ProxyPortManager -> Prop :=
| ports_start m enabled order config : ports_step m (ppm_Start enabled order config m).1
| ports_stop m closeDialers order keys :
    order ≡ₚ (map_to_list (ppm_listeners m)).*1 ->
    keys ≡ₚ (map_to_list (dp_dialers (ppm_pool m))).*1 ->
    ports_step m (stopListeners closeDialers order keys m)
| ports_dial m r cfg : ports_step m (set_pool (pool_Get r cfg (ppm_pool m)).1 m)
| ports_conn_begin m l : ports_step m (conn_begin l m)
| ports_conn_end m l : ports_step m (conn_end l m).
End manager.

(** * Facts *)

(** ** Every socket and every dialer has an owner *)

Definition socket_event_step (s : gset port_ptr) (e : socket_event) : gset port_ptr :=
  match e with PortOpened l => {[l]} ∪ s | PortClosed l => s ∖ {[l]} end.

(** The sockets that are open after a trace. *)
Definition open_ports (tr : list socket_event) : gset port_ptr := fold_left socket_event_step tr ∅.

Lemma open_ports_snoc tr e : open_ports (tr ++ [e]) = socket_event_step (open_ports tr) e.
Proof. unfold open_ports. by rewrite fold_left_app. Qed.

Record pool_inv (p : proxyPortDialerPool) : Prop := {
  pool_key : forall k d, dp_dialers p !! k = Some d ->
    exists c, dp_made p !! d = Some c /\ proxyOutboundDialerCacheKey c = k;
  pool_open : forall k d, dp_dialers p !! k = Some d -> d ∉ dp_closed p;
  pool_once : NoDup (dp_closed p);
  pool_bound : forall d, d ∈ dp_closed p -> (d < length (dp_made p))%nat;
  pool_owned : forall d, (d < length (dp_made p))%nat ->
    (exists k, dp_dialers p !! k = Some d) \/ d ∈ dp_closed p;
}.

Record ports_inv (m : ProxyPortManager) : Prop := {
  ports_inj : forall i j l, ppm_listeners m !! i = Some l -> ppm_listeners m !! j = Some l -> i = j;
  ports_bound : forall i l, ppm_listeners m !! i = Some l -> (l < length (ppm_heap m))%nat;
  ports_open : forall l, l ∈ open_ports (ppm_trace m) <-> exists i, ppm_listeners m !! i = Some l;
  ports_pool : pool_inv (ppm_pool m);
}.

Lemma pool_inv_Get r cfg p : pool_inv p -> pool_inv (pool_Get r cfg p).1.
Proof.
  intros [Hk Ho Hn Hb Hw]. unfold pool_Get.
  destruct (dp_dialers p !! _) eqn:E; [by split|]. destruct r; [|by split].
  split; cbn [fst dp_dialers dp_made dp_closed].
  - intros k d [[<- <-]|[Hne Hd]]%lookup_insert_Some.
    + exists cfg. split; [by apply list_lookup_middle|done].
    + destruct (Hk k d Hd) as (c & Hc & ?). exists c. split; [by apply lookup_app_l_Some|done].
  - intros k d [[<- <-]|[Hne Hd]]%lookup_insert_Some; [intros Hd%Hb; lia|by eapply Ho].
  - done.
  - intros d Hd%Hb. rewrite length_app. cbn. lia.
  - intros d. rewrite length_app. cbn. intros Hd. destruct (decide (d = length (dp_made p))) as [->|].
    + left. eexists. by rewrite lookup_insert_eq.
    + destruct (Hw d) as [[k Hkd]|]; [lia| |by right]. left. exists k.
      rewrite lookup_insert_ne; [done|]. intros <-. by rewrite Hkd in E.
Qed.

(** A dialer of the pool has one key. *)
Lemma pool_key_inj p k k' d :
  pool_inv p -> dp_dialers p !! k = Some d -> dp_dialers p !! k' = Some d -> k = k'.
Proof. intros [Hk _ _ _ _] (c & Hc & <-)%Hk (c' & Hc' & <-)%Hk. congruence. Qed.

Lemma pool_inv_CloseAll order p : pool_inv p -> pool_inv (CloseAll order p).
Proof.
  unfold CloseAll. revert p. induction order as [|key order IH]; intros p Hp; [done|]. cbn [fold_left].
  apply IH. destruct (dp_dialers p !! key) as [d|] eqn:E; [|done].
  pose proof Hp as [Hk Ho Hn Hb Hw]. split; cbn [dp_dialers dp_made dp_closed].
  - intros k e [_ He]%lookup_delete_Some. by apply Hk.
  - intros k e [Hne He]%lookup_delete_Some. rewrite elem_of_app, list_elem_of_singleton.
    intros [?|Hd]; [|subst e]; [by eapply Ho|]. apply Hne. by eapply pool_key_inj.
  - apply NoDup_app. split; [done|]. split; [|apply NoDup_singleton].
    intros e He Hd%list_elem_of_singleton. subst e. by eapply Ho.
  - intros e [?|Hd%list_elem_of_singleton]%elem_of_app; [by apply Hb|]. subst e.
    destruct (Hk _ _ E) as (c & Hc & _). by eapply lookup_lt_Some.
  - intros e [[k Hke]|?]%Hw; [|right; apply elem_of_app; by left].
    destruct (decide (k = key)) as [->|]; [|left; exists k; by rewrite lookup_delete_ne].
    right. apply elem_of_app. right. apply list_elem_of_singleton. congruence.
Qed.

Lemma CloseAll_dialers order p :
  order ≡ₚ (map_to_list (dp_dialers p)).*1 -> dp_dialers (CloseAll order p) = ∅.
Proof.
  intros Ho. apply map_eq. intros k. rewrite lookup_empty.
  assert (forall l q, dp_dialers (CloseAll l q) !! k = if bool_decide (k ∈ l) then None else dp_dialers q !! k) as Hl.
  { unfold CloseAll. induction l as [|x l IH]; intros q; [done|]. cbn [fold_left]. rewrite IH.
    destruct (decide (k ∈ l)) as [Hk|Hk].
    - by rewrite !bool_decide_true by (by try right).
    - rewrite (bool_decide_false _ Hk). destruct (decide (k = x)) as [->|Hne].
      + rewrite bool_decide_true by left. destruct (dp_dialers q !! x) eqn:E; [apply lookup_delete_eq|done].
      + rewrite bool_decide_false by (intros [?|?]%elem_of_cons; done).
        destruct (dp_dialers q !! x) eqn:E; [by apply lookup_delete_ne|done]. }
  rewrite Hl. case_bool_decide as Hk; [done|]. apply eq_None_not_Some. intros [d Hd]. apply Hk.
  rewrite Ho. apply list_elem_of_fmap. exists (k, d). split; [done|]. by apply elem_of_map_to_list.
Qed.

Lemma inv_ports_initial : ports_inv NewProxyPortManager.
Proof.
  split; cbn; try done; [set_solver|]. split; cbn; try done; [apply NoDup_nil_2|set_solver|lia].
Qed.

Section manager_facts.
Context `{Unicode} (services : string -> option Z) (listen_ok : string -> bool).

Lemma inv_start_port m e cfg :
  ports_inv m -> ports_inv (start_port services listen_ok (m, e) cfg).1.
Proof.
  intros Hm. unfold start_port. destruct (negb _); [done|].
  destruct (ppm_listeners m !! _) eqn:E; [done|]. destruct (listener_Start _ _ _) as [x|]; [|done].
  destruct Hm as [Hi Hb Ho Hp]. split; cbn [fst ppm_listeners ppm_heap ppm_trace ppm_pool]; [..|done].
  - intros i j l [[<- <-]|[Hne Hl]]%lookup_insert_Some [[<- Hj]|[Hne' Hl']]%lookup_insert_Some; try done.
    + apply Hb in Hl'. lia.
    + subst l. apply Hb in Hl. lia.
    + by eapply Hi.
  - intros i l. rewrite length_app. cbn. intros [[<- <-]|[_ Hl%Hb]]%lookup_insert_Some; lia.
  - intros l. rewrite open_ports_snoc. cbn [socket_event_step]. rewrite elem_of_union, elem_of_singleton, Ho. split.
    + intros [->|[i Hil]]; [exists (pp_ID cfg); by rewrite lookup_insert_eq|].
      exists i. rewrite lookup_insert_ne; [done|]. intros <-. congruence.
    + intros [i [[<- <-]|[_ Hl]]%lookup_insert_Some]; [by left|right; by exists i].
Qed.

Lemma inv_ppm_Start enabled order config m :
  ports_inv m -> ports_inv (ppm_Start services listen_ok enabled order config m).1.
Proof.
  intros Hm. unfold ppm_Start. destruct enabled; [|done]. generalize (@None listen_err).
  revert m Hm. induction (GetAllPorts config order) as [|cfg l IH]; intros m Hm e; [done|]. cbn [fold_left].
  pose proof (inv_start_port m e cfg Hm) as Hs. destruct (start_port _ _ _ cfg) as [m1 e1]. by apply IH.
Qed.

Lemma inv_stop_port m id : ports_inv m -> ports_inv (stop_port m id).
Proof.
  intros [Hi Hb Ho Hp]. unfold stop_port. destruct (ppm_listeners m !! id) as [l0|] eqn:E; [|by split].
  split; cbn [ppm_listeners ppm_heap ppm_trace ppm_pool]; [..|done].
  - intros i j l [_ Hl]%lookup_delete_Some [_ Hl']%lookup_delete_Some. by eapply Hi.
  - intros i l [_ Hl]%lookup_delete_Some. by eapply Hb.
  - intros l. rewrite open_ports_snoc. cbn [socket_event_step]. rewrite elem_of_difference, elem_of_singleton, Ho. split.
    + intros [[i Hil] Hne]. exists i. rewrite lookup_delete_ne; [done|]. intros <-. congruence.
    + intros [i [Hne Hl]%lookup_delete_Some]. split; [by exists i|]. intros ->. apply Hne. by eapply Hi.
Qed.

Lemma inv_stopListeners closeDialers order keys m :
  ports_inv m -> ports_inv (stopListeners closeDialers order keys m).
Proof.
  intros Hm. unfold stopListeners.
  assert (ports_inv (fold_left stop_port order m)) as Hs.
  { revert m Hm. induction order as [|id order IH]; intros m Hm; [done|]. cbn. by apply IH, inv_stop_port. }
  destruct closeDialers; [|done]. destruct Hs as [Hi Hb Ho Hp]. split; try done. by apply pool_inv_CloseAll.
Qed.

Lemma inv_ports_step m m' : ports_step services listen_ok m m' -> ports_inv m -> ports_inv m'.
Proof.
  intros [] Hm.
  - by apply inv_ppm_Start.
  - by apply inv_stopListeners.
  - destruct Hm as [Hi Hb Ho Hp]. split; try done. by apply pool_inv_Get.
  - destruct Hm as [Hi Hb Ho Hp]. split; try done. intros i l0. cbn. rewrite length_alter. apply Hb.
  - destruct Hm as [Hi Hb Ho Hp]. split; try done. intros i l0. cbn. rewrite length_alter. apply Hb.
Qed.

Lemma ports_reachable m : rtc (ports_step services listen_ok) NewProxyPortManager m -> ports_inv m.
Proof.
  intros Hr. pose proof inv_ports_initial as Hi. remember NewProxyPortManager as m0 eqn:E. clear E.
  induction Hr as [|m1 m2 m3 Hs _ IH]; [done|]. apply IH. by eapply inv_ports_step.
Qed.

(** C14: in every state the manager of the proxy ports can reach, by starts, stops and reloads in
    any order, with connections and dials in between, the sockets that are open are
    exactly those of the registered listeners, one per port; and every dialer ever
    created is in the pool, open and under the key of its configuration, or was
    closed, once. *)
Theorem ports_accounted (m : ProxyPortManager) :
  rtc (ports_step services listen_ok) NewProxyPortManager m ->
  (forall l, l ∈ open_ports (ppm_trace m) <-> exists id, ppm_listeners m !! id = Some l) /\
  (forall i j l, ppm_listeners m !! i = Some l -> ppm_listeners m !! j = Some l -> i = j) /\
  (forall d, (d < length (dp_made (ppm_pool m)))%nat ->
     (exists k, dp_dialers (ppm_pool m) !! k = Some d) \/ d ∈ dp_closed (ppm_pool m)) /\
  NoDup (dp_closed (ppm_pool m)) /\
  (forall k d, dp_dialers (ppm_pool m) !! k = Some d -> d ∉ dp_closed (ppm_pool m) /\
     exists c, dp_made (ppm_pool m) !! d = Some c /\ proxyOutboundDialerCacheKey c = k).
Proof.
  intros [Hi _ Ho [Hk Hop Hn _ Hw]]%ports_reachable. split; [done|]. split; [done|]. split; [done|].
  split; [done|]. intros k d Hd. split; [by eapply Hop|by apply Hk].
Qed.

(** ** A reload *)

Lemma stop_ports_table order m id :
  ppm_listeners (fold_left stop_port order m) !! id
  = if bool_decide (id ∈ order) then None else ppm_listeners m !! id.
Proof.
  revert m. induction order as [|x order IH]; intros m; [done|]. cbn [fold_left]. rewrite IH.
  unfold stop_port. destruct (decide (id ∈ order)) as [Hk|Hk].
  { by rewrite !bool_decide_true by (by try right). }
  rewrite (bool_decide_false _ Hk). destruct (decide (id = x)) as [->|Hne].
  - rewrite bool_decide_true by left.
    destruct (ppm_listeners m !! x) eqn:E; [apply lookup_delete_eq|done].
  - rewrite bool_decide_false by (intros [?|?]%elem_of_cons; done).
    destruct (ppm_listeners m !! x); [by apply lookup_delete_ne|done].
Qed.

Lemma stop_ports_heap order m : ppm_heap (fold_left stop_port order m) = ppm_heap m.
Proof.
  revert m. induction order as [|x order IH]; intros m; [done|]. cbn [fold_left]. rewrite IH.
  unfold stop_port. by destruct (_ !! _).
Qed.

Lemma stop_ports_all order m :
  order ≡ₚ (map_to_list (ppm_listeners m)).*1 -> ppm_listeners (fold_left stop_port order m) = ∅.
Proof.
  intros Ho. apply map_eq. intros id. rewrite stop_ports_table, lookup_empty. case_bool_decide as Hid; [done|].
  apply eq_None_not_Some. intros [l Hl]. apply Hid. rewrite Ho. apply list_elem_of_fmap.
  exists (id, l). split; [done|]. by apply elem_of_map_to_list.
Qed.

(** The outcome of the listener of one port after the loop of [Start] over [l]. *)
Definition port_outcome (base : nat) (l : list ProxyPortConfig) (m : ProxyPortManager) (id : string) : Prop :=
  match ppm_listeners m !! id with
  | Some k => (base <= k)%nat /\ exists p x, p ∈ l /\ pp_ID p = id /\ pp_Enabled p = true /\
      listener_Start services listen_ok p = inl x /\ ppm_heap m !! k = Some x
  | None => forall p, p ∈ l -> pp_ID p = id -> pp_Enabled p = true ->
      exists e, listener_Start services listen_ok p = inr e
  end.

Lemma start_ports_outcome l l0 m e id base :
  NoDup (pp_ID <$> (l0 ++ l)) -> (base <= length (ppm_heap m))%nat ->
  (forall i, port_outcome base l0 m i) ->
  port_outcome base (l0 ++ l) (fold_left (start_port services listen_ok) l (m, e)).1 id.
Proof.
  revert l0 m e. induction l as [|p l IH]; intros l0 m e Hnd Hb Hm; [by rewrite app_nil_r|].
  cbn [fold_left]. replace (l0 ++ p :: l) with ((l0 ++ [p]) ++ l) in * by by rewrite <- app_assoc.
  assert (pp_ID p ∉ pp_ID <$> l0) as Hp.
  { rewrite !fmap_app in Hnd. apply NoDup_app in Hnd as [Hnd _]. apply NoDup_app in Hnd as (_ & Hnd & _).
    intros Hin. apply (Hnd _ Hin). by left. }
  assert (ppm_listeners m !! pp_ID p = None) as Hnone.
  { specialize (Hm (pp_ID p)). unfold port_outcome in Hm. destruct (ppm_listeners m !! pp_ID p) as [k|]; [|done].
    destruct Hm as (_ & q & x & Hq & Hid & _). destruct Hp. rewrite <- Hid. by apply list_elem_of_fmap_2. }
  unfold start_port at 2. rewrite Hnone.
  assert (forall i, (pp_Enabled p = true -> i = pp_ID p -> exists e, listener_Start services listen_ok p = inr e) ->
    port_outcome base (l0 ++ [p]) m i) as Hkeep.
  { intros i Hi. specialize (Hm i). unfold port_outcome in *. destruct (ppm_listeners m !! i).
    - destruct Hm as (? & q & x & ? & ?). split; [done|]. exists q, x. set_solver.
    - intros q [Hq| ->%list_elem_of_singleton]%elem_of_app; [by apply Hm|]. intros <- He. by apply Hi. }
  destruct (pp_Enabled p) eqn:He; cbn [negb].
  2: { apply IH; [done..|]. intros i. by apply Hkeep. }
  destruct (listener_Start services listen_ok p) as [x|e0] eqn:Hs.
  2: { apply IH; [done..|]. intros i. apply Hkeep. eauto. }
  apply IH; [done|cbn; rewrite length_app; lia|]. intros i. unfold port_outcome. cbn [ppm_listeners ppm_heap].
  destruct (decide (i = pp_ID p)) as [->|Hne].
  - rewrite lookup_insert_eq. split; [done|]. exists p, x. split; [set_solver|]. split; [done|]. split; [done|].
    split; [done|]. by apply list_lookup_middle.
  - rewrite lookup_insert_ne by done. specialize (Hkeep i ltac:(done)). unfold port_outcome in Hkeep.
    destruct (ppm_listeners m !! i); [|done]. destruct Hkeep as (? & q & y & ? & ? & ? & ? & Hy).
    split; [done|]. exists q, y. split; [done|]. split; [done|]. split; [done|]. split; [done|].
    by apply lookup_app_l_Some.
Qed.

Lemma GetAllPorts_ids config order :
  ports_wf services (pm_ports config) -> order ≡ₚ (map_to_list (pm_ports config)).*1 ->
  NoDup (pp_ID <$> GetAllPorts config order) /\
  (forall p, p ∈ GetAllPorts config order <-> pm_ports config !! pp_ID p = Some p).
Proof.
  intros [Hw _] Ho. unfold GetAllPorts.
  assert (NoDup order) as Hnd by (rewrite Ho; apply NoDup_fst_map_to_list).
  assert (forall id, id ∈ order <-> is_Some (pm_ports config !! id)) as Hin.
  { intros id. rewrite Ho, list_elem_of_fmap. split.
    - intros ([i p] & -> & Hp%elem_of_map_to_list). by exists p.
    - intros [p Hp]. exists (id, p). split; [done|]. by apply elem_of_map_to_list. }
  split.
  - assert (pp_ID <$> omap (fun id => pm_ports config !! id) order = order) as ->; [|done].
    assert (Forall (fun id => is_Some (pm_ports config !! id)) order) as Hf by (apply Forall_forall; naive_solver).
    clear Ho Hnd Hin. induction Hf as [|id order [p Hp] _ IH]; [done|]. cbn. rewrite Hp. cbn. f_equal; [|done].
    by apply Hw.
  - intros p. rewrite list_elem_of_omap. split.
    + intros (id & _ & Hp). by destruct (Hw id p Hp) as [-> _].
    + intros Hp. exists (pp_ID p). split; [|done]. apply Hin. by exists p.
Qed.

(** After a reload of the proxy ports, whatever was running before, a port listens exactly when
    it is in the configuration, is enabled and could be started, with a listener that
    is new and has the present configuration; the others are closed. *)
Theorem ports_reload_exact (m : ProxyPortManager) (config : ProxyPortConfigManager)
    (stops starts : list string) (id : string) :
  ports_wf services (pm_ports config) ->
  stops ≡ₚ (map_to_list (ppm_listeners m)).*1 -> starts ≡ₚ (map_to_list (pm_ports config)).*1 ->
  let q := (ppm_Reload services listen_ok true stops starts config m).1 in
  match pm_ports config !! id with
  | Some p =>
      if pp_Enabled p then
        match listener_Start services listen_ok p with
        | inl x => exists l, ppm_listeners q !! id = Some l /\ (length (ppm_heap m) <= l)%nat /\
                     ppm_heap q !! l = Some x
        | inr _ => ppm_listeners q !! id = None
        end
      else ppm_listeners q !! id = None
  | None => ppm_listeners q !! id = None
  end.
Proof.
  intros Hw Hstop Hstart q. destruct (GetAllPorts_ids config starts Hw Hstart) as [Hnd Hin].
  pose proof (stop_ports_all stops m Hstop) as He.
  pose proof (start_ports_outcome (GetAllPorts config starts) [] (fold_left stop_port stops m) None id
    (length (ppm_heap m)) Hnd) as Ho.
  rewrite stop_ports_heap in Ho. specialize (Ho ltac:(done)).
  assert (port_outcome (length (ppm_heap m)) (GetAllPorts config starts) q id) as Hq.
  { apply Ho. intros i. unfold port_outcome. rewrite He, lookup_empty. set_solver. }
  clear Ho. unfold port_outcome in Hq. destruct (ppm_listeners q !! id) as [l|].
  - destruct Hq as (Hl & p & x & Hp%Hin & <- & He1 & Hs & Hx). rewrite Hp, He1, Hs. by exists l.
  - destruct (pm_ports config !! id) as [p|] eqn:Hp; [|done]. destruct (pp_Enabled p) eqn:He1; [|done].
    assert (pp_ID p = id) as <- by by apply (proj1 Hw).
    destruct (Hq p) as [e Hs]; [by apply Hin|done|done|]. by rewrite Hs.
Qed.

(** The second parse of the allow list, after the check of the configuration, never fails. *)
Lemma allow_list_parses cfg p : pp_Validate services cfg = (p, None) -> is_Some (parseAllowList (pp_AllowList p)).
Proof.
  unfold pp_Validate. intros [= <- Hc]. set (p := pp_ApplyDefaults cfg) in *. clearbody p.
  assert (validateCIDRList (pp_AllowList p) = None) as Hv.
  { unfold pp_check in Hc. cbn in Hc. by repeat (case_match; try done). }
  unfold validateCIDRList in Hv. destruct (forallb _ _) eqn:Hf; [|done]. clear Hv Hc.
  rewrite forallb_forall in Hf. induction (pp_AllowList p) as [|entry l IH]; [by eexists|]. cbn [parseAllowList].
  assert (is_Some (parse_allow_entry entry)) as [n ->].
  { specialize (Hf entry ltac:(by left)). unfold allow_entry_ok in Hf. unfold parse_allow_entry.
    destruct (String.eqb _ _); [by eexists|]. destruct (contains1 _ _); apply bool_decide_eq_true in Hf as [y ->]; by eexists. }
  destruct IH as [ns ->]; [|by eexists]. intros x Hx. apply Hf. by right.
Qed.
End manager_facts.

(** ** The key of a dialer *)

(** What [CreateDialer] may depend on, as far as the key tells: the other fields are
    cleared. *)
Definition dialer_view (p : ProxyOutbound) : ProxyOutbound :=
  {| Name := Name p; Type_ := Type_ p; Server := Server p; Port := Port p; Enabled := false; Group := "";
     SubscriptionID := ""; SubscriptionName := ""; SubscriptionNodeID := ""; Username := Username p;
     Method := Method p; Password := Password p; UUID := UUID p; AlterID := AlterID p; Security := Security p;
     Flow := Flow p; Obfs := Obfs p; ObfsPassword := ObfsPassword p; PortHopping := PortHopping p;
     HopInterval := HopInterval p; UpMbps := UpMbps p; DownMbps := DownMbps p; ALPN := ALPN p;
     CertFingerprint := CertFingerprint p; DisableMTU := false;
     IdleSessionCheckInterval := IdleSessionCheckInterval p; IdleSessionTimeout := IdleSessionTimeout p;
     MinIdleSession := MinIdleSession p; TLS := TLS p; SNI := SNI p; Insecure := Insecure p;
     Fingerprint := Fingerprint p; Reality := Reality p; RealityPublicKey := RealityPublicKey p;
     RealityShortID := RealityShortID p; Network := Network p; WSPath := WSPath p; WSHost := WSHost p;
     XHTTPMode := XHTTPMode p; GRPCServiceName := GRPCServiceName p; GRPCAuthority := GRPCAuthority p;
     TCPLatencyMs := 0; HTTPLatencyMs := 0; UDPAvailable := None; UDPLatencyMs := 0;
     AutoSelectBlocked := false; AutoSelectBlockReason := ""; AutoSelectBlockExpiresAt := None;
     runtime := None |}.

(** No field of the key contains its separator. *)
Definition no_separator (p : ProxyOutbound) : Prop := Forall (fun x => contains1 x "|" = false) (key_fields p).

Lemma bool_text_inj b c : format_bool b = format_bool c -> b = c.
Proof. by destruct b, c. Qed.

Lemma key_fields_view p q : key_fields p = key_fields q -> dialer_view p = dialer_view q.
Proof.
  unfold key_fields. intros [=]. unfold dialer_view.
  repeat match goal with
  | E : pretty _ = pretty _ |- _ => apply (inj pretty) in E
  | E : format_bool _ = format_bool _ |- _ => apply bool_text_inj in E
  end.
  f_equal; assumption.
Qed.

(** The pool gives a dialer that was created for the same configuration, as long as no field of
    the two contains the separator of the key and up to the fields the key leaves
    out. *)
Theorem pool_dialer_config (p : proxyPortDialerPool) (r : bool) (cfg : ProxyOutbound) (d : dialer_id) :
  pool_inv p -> (forall c, c ∈ dp_made p -> no_separator c) -> no_separator cfg ->
  (pool_Get r cfg p).2 = Some d ->
  exists c, dp_made (pool_Get r cfg p).1 !! d = Some c /\ dialer_view c = dialer_view cfg.
Proof.
  intros [Hk _ _ _ _] Hs Hc. unfold pool_Get.
  destruct (dp_dialers p !! proxyOutboundDialerCacheKey cfg) as [d'|] eqn:E; cbn [fst snd].
  - intros [= ->]. destruct (Hk _ _ E) as (c & Hd & Hkey). exists c. split; [done|]. apply key_fields_view.
    assert (no_separator c) as Hcs by by apply Hs, list_elem_of_lookup_2 with d.
    rewrite <- (split1_join1 "|" (key_fields c)), <- (split1_join1 "|" (key_fields cfg)) by done.
    unfold proxyOutboundDialerCacheKey in Hkey. by rewrite Hkey.
  - destruct r; [|done]. cbn [fst snd dp_made]. intros [= <-]. exists cfg. split; [by apply list_lookup_middle|done].
Qed.

Definition with_mtu (b : bool) (p : ProxyOutbound) : ProxyOutbound :=
  {| Name := Name p; Type_ := Type_ p; Server := Server p; Port := Port p; Enabled := Enabled p; Group := Group p;
     SubscriptionID := SubscriptionID p; SubscriptionName := SubscriptionName p;
     SubscriptionNodeID := SubscriptionNodeID p; Username := Username p;
     Method := Method p; Password := Password p; UUID := UUID p; AlterID := AlterID p; Security := Security p;
     Flow := Flow p; Obfs := Obfs p; ObfsPassword := ObfsPassword p; PortHopping := PortHopping p;
     HopInterval := HopInterval p; UpMbps := UpMbps p; DownMbps := DownMbps p; ALPN := ALPN p;
     CertFingerprint := CertFingerprint p; DisableMTU := b;
     IdleSessionCheckInterval := IdleSessionCheckInterval p; IdleSessionTimeout := IdleSessionTimeout p;
     MinIdleSession := MinIdleSession p; TLS := TLS p; SNI := SNI p; Insecure := Insecure p;
     Fingerprint := Fingerprint p; Reality := Reality p; RealityPublicKey := RealityPublicKey p;
     RealityShortID := RealityShortID p; Network := Network p; WSPath := WSPath p; WSHost := WSHost p;
     XHTTPMode := XHTTPMode p; GRPCServiceName := GRPCServiceName p; GRPCAuthority := GRPCAuthority p;
     TCPLatencyMs := TCPLatencyMs p; HTTPLatencyMs := HTTPLatencyMs p; UDPAvailable := UDPAvailable p;
     UDPLatencyMs := UDPLatencyMs p; AutoSelectBlocked := AutoSelectBlocked p;
     AutoSelectBlockReason := AutoSelectBlockReason p; AutoSelectBlockExpiresAt := AutoSelectBlockExpiresAt p;
     runtime := runtime p |}.

(** Reloads of the ports keep the pool, and the key leaves out [DisableMTU]: once a dialer
    of a node exists, the node's later setting of it is never used, until the
    program stops. *)
Theorem mtu_setting_stuck `{Unicode} (services : string -> option Z) (listen_ok : string -> bool)
    (m : ProxyPortManager) (config : ProxyPortConfigManager) (stops starts : list string) (enabled : bool)
    (cfg : ProxyOutbound) (b r : bool) (d : dialer_id) :
  (pool_Get true cfg (ppm_pool m)).2 = Some d ->
  let m := set_pool (pool_Get true cfg (ppm_pool m)).1 m in
  let q := (ppm_Reload services listen_ok enabled stops starts config m).1 in
  pool_Get r (with_mtu b cfg) (ppm_pool q) = (ppm_pool q, Some d).
Proof.
  intros Hd m1 q.
  assert (forall l m e, ppm_pool (fold_left (start_port services listen_ok) l (m, e)).1 = ppm_pool m) as Hs.
  { induction l as [|p l IH]; intros m2 e; [done|]. cbn [fold_left].
    unfold start_port at 2. destruct (negb _); [apply IH|]. destruct (_ !! _); [apply IH|].
    destruct (listener_Start _ _ _); rewrite IH; done. }
  assert (forall l m, ppm_pool (fold_left stop_port l m) = ppm_pool m) as Ht.
  { induction l as [|x l IH]; intros m2; [done|]. cbn [fold_left]. rewrite IH. unfold stop_port. by destruct (_ !! _). }
  assert (ppm_pool q = ppm_pool m1) as ->.
  { unfold q, ppm_Reload, ppm_Start, stopListeners. destruct enabled; [rewrite Hs|]; apply Ht. }
  change (ppm_pool m1) with (pool_Get true cfg (ppm_pool m)).1. unfold pool_Get at 1.
  change (proxyOutboundDialerCacheKey (with_mtu b cfg)) with (proxyOutboundDialerCacheKey cfg).
  assert (dp_dialers (pool_Get true cfg (ppm_pool m)).1 !! proxyOutboundDialerCacheKey cfg = Some d) as ->; [|done].
  revert Hd. unfold pool_Get. destruct (dp_dialers (ppm_pool m) !! _) eqn:E; cbn [fst snd dp_dialers].
  - by intros [= <-].
  - intros [= <-]. apply lookup_insert_eq.
Qed.

(** ** Witnesses *)

Definition demo_listen_port (id : string) (enabled : bool) : ProxyPortConfig :=
  {| pp_ID := id; pp_Name := id; pp_ListenAddr := ("127.0.0.1:1" ++ id)%string; pp_Type := "mixed"; pp_Enabled := enabled;
     pp_Username := ""; pp_Password := ""; pp_ProxyOutbound := ""; pp_LoadBalance := ""; pp_LoadBalanceSort := "";
     pp_AutoPingEnabled := false; pp_AutoPingIntervalMinutes := 10; pp_AutoPingTopCandidates := 10;
     pp_AutoPingFullScanMode := ""; pp_AutoPingFullScanTime := "04:00"; pp_AutoPingFullScanIntervalHours := 24;
     pp_AllowList := ["10.0.0.0/8"%string] |}.

Definition demo_ports : ProxyPortConfigManager :=
  {| pm_ports := {["1" := demo_listen_port "1" true; "2" := demo_listen_port "2" false]}%string; pm_disk := ∅ |}.

Definition no_services (s : string) : option Z := None.

Definition demo_ports_running : ProxyPortManager :=
  (ppm_Start (H := ascii_unicode) no_services (fun _ => true) true ["1"; "2"]%string demo_ports NewProxyPortManager).1.

Lemma demo_ports_lookup id p :
  pm_ports demo_ports !! id = Some p ->
  (id = "1" /\ p = demo_listen_port "1" true \/ id = "2" /\ p = demo_listen_port "2" false)%string.
Proof.
  unfold demo_ports. cbn [pm_ports].
  intros [[<- <-]|[_ [<- <-]%lookup_singleton_Some]]%lookup_insert_Some; auto.
Qed.

Lemma demo_ports_wf : ports_wf (H := ascii_unicode) no_services (pm_ports demo_ports).
Proof.
  split.
  - intros id p [[-> ->]|[-> ->]]%demo_ports_lookup; (split; [done|]);
      [exists (demo_listen_port "1" true)|exists (demo_listen_port "2" false)]; by vm_compute.
  - by intros i j x y [[-> ->]|[-> ->]]%demo_ports_lookup [[-> ->]|[-> ->]]%demo_ports_lookup.
Qed.

(** A running state after a start, and its reload. *)
Lemma ports_accounted_witness :
  rtc (ports_step (H := ascii_unicode) no_services (fun _ => true)) NewProxyPortManager demo_ports_running /\
  (forall l, l ∈ open_ports (ppm_trace demo_ports_running) <-> exists id, ppm_listeners demo_ports_running !! id = Some l) /\
  open_ports (ppm_trace demo_ports_running) = {[0%nat]}.
Proof.
  assert (rtc (ports_step (H := ascii_unicode) no_services (fun _ => true)) NewProxyPortManager demo_ports_running) as Hr
    by (apply rtc_once, (ports_start (H := ascii_unicode))).
  split; [exact Hr|]. split; [|by vm_compute].
  exact (proj1 (ports_accounted (H := ascii_unicode) no_services (fun _ => true) demo_ports_running Hr)).
Defined.

Lemma ports_reload_exact_witness :
  exists l, ppm_listeners (ppm_Reload (H := ascii_unicode) no_services (fun _ => true) true ["1"]%string ["1"; "2"]%string
    demo_ports demo_ports_running).1 !! "1"%string = Some l /\ (1 <= l)%nat.
Proof.
  pose proof (ports_reload_exact (H := ascii_unicode) no_services (fun _ => true) demo_ports_running demo_ports
    ["1"]%string ["1"; "2"]%string "1"%string demo_ports_wf) as Hr.
  destruct Hr as (l & Hl & Hle & _); [by vm_compute|by vm_compute|]. by exists l.
Defined.

Definition demo_node (mtu : bool) : ProxyOutbound := with_mtu mtu zero_outbound.

Lemma pool_dialer_config_witness :
  let p := (pool_Get true (demo_node false) (ppm_pool NewProxyPortManager)).1 in
  exists c, dp_made (pool_Get true (demo_node true) p).1 !! 0%nat = Some c /\ dialer_view c = dialer_view (demo_node true).
Proof.
  assert (forall b, no_separator (demo_node b)) as Hs by (intros b; repeat constructor).
  apply (pool_dialer_config _ true (demo_node true) 0%nat); [| | |done].
  - apply pool_inv_Get, (ports_pool _ inv_ports_initial).
  - intros c Hc. change (c ∈ [demo_node false]) in Hc. apply list_elem_of_singleton in Hc as ->. apply Hs.
  - apply Hs.
Defined.

Lemma mtu_setting_stuck_witness :
  let m := set_pool (pool_Get true (demo_node false) (ppm_pool NewProxyPortManager)).1 NewProxyPortManager in
  let q := (ppm_Reload (H := ascii_unicode) no_services (fun _ => true) true [] ["1"; "2"]%string demo_ports m).1 in
  pool_Get true (with_mtu true (demo_node false)) (ppm_pool q) = (ppm_pool q, Some 0%nat).
Proof.
  apply (mtu_setting_stuck (H := ascii_unicode) no_services (fun _ => true) NewProxyPortManager demo_ports
    [] ["1"; "2"]%string true (demo_node false) true true 0%nat). done.
Defined.
