(* ===== verification/NodeReload.v ===== *)
(** * A changed node file: [reloadProxyOutbounds] of [internal/proxy/proxy.go]

    The watcher of proxy_outbounds.json calls it after the table behind the file
    ([NodeFile]) was loaded again; it brings the table of the outbound manager
    ([OutboundManager]) and its cached sing-box outbounds ([Dial]) after the file.
    [NewProxyServer] fills the manager once from the file ([initial_nodes]).
    Maps are visited in orders that are arguments; [r] says which creations of sing-box
    outbounds fail. *)

From Stdlib Require Import Strings.String.
From S2P Require Import Prelude GoString Config Outbound OutboundManager NodeFile Dial.

(** A slice as a map by name; a later node replaces an earlier one. *)
Definition by_name (l : list ProxyOutbound) : gmap string ProxyOutbound :=
  fold_left (fun m cfg => <[Name cfg := cfg]> m) l ∅.

Section reload.
Context `{Unicode} {S : Type} `{!ServerConfigUpdater S}.

(** The loop of [NewProxyServer]; an error is logged. *)
Definition initial_nodes (oc : ProxyOutboundConfigManager) (order : list string) (m : outboundManagerImpl)
  : outboundManagerImpl :=
  fold_left (fun m cfg => (AddOutbound m (Some cfg)).1.1) (oc_GetAllOutbounds oc order) m.

Record reload_state := { rl_m : outboundManagerImpl; rl_s : option S; rl_deleted : Z; rl_added : Z; rl_updated : Z }.

(** One name of the first loop, over the manager. *)
Definition remove_missing (configMap : gmap string ProxyOutbound) (servers : list string) (st : reload_state) (name : string)
  : reload_state :=
  match configMap !! name with
  | Some _ => st
  | None =>
      let '(m, s, err) := DeleteOutbound (rl_m st) (rl_s st) servers name in
      {| rl_m := m; rl_s := s; rl_deleted := rl_deleted st + (if err then 0 else 1);
         rl_added := rl_added st; rl_updated := rl_updated st |}
  end.

(** One name of the second loop, over the file. *)
Definition put_node (configMap currentMap : gmap string ProxyOutbound) (st : reload_state) (name : string) : reload_state :=
  match configMap !! name with
  | None => st
  | Some cfg =>
      match currentMap !! name with
      | None =>
          let '(m, _, err) := AddOutbound (rl_m st) (Some cfg) in
          {| rl_m := m; rl_s := rl_s st; rl_deleted := rl_deleted st;
             rl_added := rl_added st + (if err then 0 else 1); rl_updated := rl_updated st |}
      | Some _ =>
          let '(m, _, err) := UpdateOutbound (rl_m st) name (Some cfg) in
          {| rl_m := m; rl_s := rl_s st; rl_deleted := rl_deleted st;
             rl_added := rl_added st; rl_updated := rl_updated st + (if err then 0 else 1) |}
      end
  end.

Record reload_orders := {
  ro_file : list string;
  ro_manager : list string;
  ro_current : list string;
  ro_config : list string;
  ro_servers : list string;
  ro_nodes : list string;
  ro_cached : list string;
}.

(** [None] is the error of a server that is not running. *)
Definition reloadProxyOutbounds (running : bool) (now : gotime) (r : string -> option string) (os : reload_orders)
    (oc : ProxyOutboundConfigManager) (s : option S) (w : dial_world) : option (dial_world * option S) :=
  if negb running then None else
  let configMap := by_name (oc_GetAllOutbounds oc (ro_file os)) in
  let currentMap := by_name (ListOutbounds (dw_m w) (ro_manager os)) in
  let st := {| rl_m := dw_m w; rl_s := s; rl_deleted := 0; rl_added := 0; rl_updated := 0 |} in
  let st := fold_left (remove_missing configMap (ro_servers os)) (ro_current os) st in
  let st := fold_left (put_node configMap currentMap) (ro_config os) st in
  let w := with_m (rl_m st) w in
  Some ((if (0 <? rl_added st) || (0 <? rl_deleted st) then Reload now r (ro_nodes os) (ro_cached os) w else w), rl_s st).

(** * Facts *)

(** The table of nodes stored under their names is the map of the slice. *)
Lemma by_name_table (t : gmap string ProxyOutbound) (order : list string) :
  (forall n p, t !! n = Some p -> Name p = n) -> order ≡ₚ (map_to_list t).*1 ->
  by_name (omap (fun n => t !! n) order) = t.
Proof.
  intros Hn Hord. unfold by_name. rewrite fold_left_omap.
  assert (forall (l : list string) (m : gmap string ProxyOutbound) n,
    fold_left (fun m n => match t !! n with Some c => <[Name c := c]> m | None => m end) l m !! n
    = if decide (n ∈ l) then match t !! n with Some c => Some c | None => m !! n end else m !! n) as Hg.
  { induction l as [|k l IH]; intros m n; cbn [fold_left]; [rewrite decide_False; [done|by apply not_elem_of_nil]|].
    rewrite IH, decide_cons. destruct (t !! k) as [c|] eqn:E; [rewrite (Hn k c E)|]; destruct (decide (n = k)) as [->|Hne].
    - rewrite E, lookup_insert_eq. by destruct (decide _).
    - by rewrite lookup_insert_ne.
    - rewrite E. by destruct (decide _).
    - done. }
  apply map_eq. intros n. rewrite Hg, lookup_empty. destruct (decide (n ∈ order)) as [_|Hno]; [by destruct (t !! n)|].
  destruct (t !! n) eqn:E; [|done]. by destruct Hno; eapply order_covers.
Qed.

(** ** One turn of each loop *)

Lemma remove_missing_eq configMap servers st name :
  rl_m (remove_missing configMap servers st name) =
    match configMap !! name, om_outbounds (rl_m st) !! name with
    | None, Some _ => set_nodes (delete name (om_outbounds (rl_m st))) (om_runtimes (rl_m st)) (drop_singbox name (rl_m st))
    | _, _ => rl_m st
    end /\
  rl_added (remove_missing configMap servers st name) = rl_added st /\
  rl_deleted (remove_missing configMap servers st name) = rl_deleted st +
    match configMap !! name, om_outbounds (rl_m st) !! name with None, Some _ => 1 | _, _ => 0 end.
Proof.
  unfold remove_missing. destruct (configMap !! name); [split_and!; try done; lia|]. unfold DeleteOutbound.
  destruct (om_outbounds (rl_m st) !! name) eqn:E; cbn; [|split_and!; try done; lia].
  by rewrite om_outbounds_drop, om_runtimes_drop.
Qed.

(** A node of the file: its runtime is in the heap the two tables share. *)
Lemma put_node_eq configMap currentMap st name cfg :
  configMap !! name = Some cfg -> node_ok (om_runtimes (rl_m st)) name cfg ->
  (om_outbounds (rl_m st) !! name = None <-> currentMap !! name = None) ->
  rl_m (put_node configMap currentMap st name) =
    set_nodes (<[name := cfg]> (om_outbounds (rl_m st))) (om_runtimes (rl_m st))
      (if currentMap !! name then drop_singbox name (rl_m st) else rl_m st) /\
  rl_deleted (put_node configMap currentMap st name) = rl_deleted st /\
  rl_added (put_node configMap currentMap st name) = rl_added st + (if currentMap !! name then 0 else 1).
Proof.
  intros Hc (Hname & Hv & r & Hr & _) Hiff. unfold put_node. rewrite Hc. destruct (currentMap !! name) as [old|].
  - unfold UpdateOutbound. rewrite Hv, Hname, String.eqb_refl. cbn [negb andb].
    destruct (om_outbounds (rl_m st) !! name); [|discriminate (proj1 Hiff eq_refl)].
    rewrite om_runtimes_drop, Clone_stored by by exists r. rewrite Hname. cbn. split; [done|]. split; [done|]. lia.
  - unfold AddOutbound. rewrite Hv, Hname, (proj2 Hiff eq_refl), Clone_stored by by exists r. by rewrite Hname.
Qed.

(** A node of the manager: its entry and its cached sing-box outbound. *)
Definition node_view (st : reload_state) (name : string) : option ProxyOutbound * option singbox_id :=
  (om_outbounds (rl_m st) !! name, om_singbox (rl_m st) !! name).

(** What the loops keep: the runtimes, and that what was cached is cached or closed. *)
Definition reload_inv (m0 : outboundManagerImpl) (st : reload_state) : Prop :=
  om_runtimes (rl_m st) = om_runtimes m0 /\
  (forall name sb, om_singbox m0 !! name = Some sb -> om_singbox (rl_m st) !! name = Some sb \/ sb ∈ om_closed (rl_m st)) /\
  om_wf (rl_m st).

Lemma reload_inv_drop m0 m name :
  (forall n sb, om_singbox m0 !! n = Some sb -> om_singbox m !! n = Some sb \/ sb ∈ om_closed m) ->
  forall n sb, om_singbox m0 !! n = Some sb -> om_singbox (drop_singbox name m) !! n = Some sb \/ sb ∈ om_closed (drop_singbox name m).
Proof.
  intros Hc n sb Hn. rewrite om_singbox_drop, drop_singbox_closed. destruct (Hc n sb Hn) as [Hs|]; [|by auto].
  destruct (decide (n = name)) as [->|Hne]; [by auto|]. left. by rewrite lookup_delete_ne.
Qed.

Lemma remove_turn m0 configMap servers st name : reload_inv m0 st ->
  let st' := remove_missing configMap servers st name in
  reload_inv m0 st' /\
  node_view st' name = (if configMap !! name then node_view st name else
    match om_outbounds (rl_m st) !! name with Some _ => (None, None) | None => node_view st name end) /\
  (forall k, k <> name -> node_view st' k = node_view st k).
Proof.
  intros (Hr & Hc & Hw) st'. destruct (remove_missing_eq configMap servers st name) as (E & _ & _). fold st' in E.
  unfold reload_inv, node_view. rewrite E. destruct (configMap !! name); [done|].
  destruct (om_outbounds (rl_m st) !! name) eqn:Eo; [|by rewrite Eo].
  cbn [set_nodes om_runtimes om_singbox om_closed om_outbounds]. split; [split; [done|]; split|].
  - by apply reload_inv_drop.
  - rewrite <- (om_runtimes_drop name), <- (om_outbounds_drop name). by apply om_wf_delete, om_wf_drop.
  - rewrite om_singbox_drop, !lookup_delete_eq. split; [done|]. intros k Hk. by rewrite !lookup_delete_ne.
Qed.

Lemma put_turn m0 configMap currentMap st name cfg : reload_inv m0 st ->
  configMap !! name = Some cfg -> node_ok (om_runtimes m0) name cfg ->
  (om_outbounds (rl_m st) !! name = None <-> currentMap !! name = None) ->
  let st' := put_node configMap currentMap st name in
  reload_inv m0 st' /\
  node_view st' name = (Some cfg, if currentMap !! name then None else om_singbox (rl_m st) !! name) /\
  (forall k, k <> name -> node_view st' k = node_view st k).
Proof.
  intros (Hr & Hc & Hw) Hcfg Hok Hiff st'. rewrite <- Hr in Hok.
  destruct (put_node_eq configMap currentMap st name cfg Hcfg Hok Hiff) as (E & _ & _). fold st' in E.
  unfold reload_inv, node_view. rewrite E. cbn [set_nodes om_runtimes om_singbox om_closed om_outbounds].
  rewrite lookup_insert_eq. split; [split; [done|]; split|split].
  - intros n sb Hn. destruct (currentMap !! name); [by apply reload_inv_drop with m0|by apply Hc].
  - apply om_wf_set_nodes; [destruct (currentMap !! name); [by apply om_wf_drop|done]|].
    intros n o [[<- <-]|[_ Ho]]%lookup_insert_Some; [|by apply Hw].
    destruct Hok as (Hn & Hv & r & Hrt & Hlt). split; [done|]. split; [done|]. split; [|by eexists].
    intros r' Hr'. congruence.
  - f_equal. destruct (currentMap !! name); [|done]. by rewrite om_singbox_drop, lookup_delete_eq.
  - intros k Hk. rewrite lookup_insert_ne by done. destruct (currentMap !! name); [|done].
    by rewrite om_singbox_drop, lookup_delete_ne.
Qed.

(** The file and the manager name the same nodes. *)
Definition same_names (t m : gmap string ProxyOutbound) : Prop := forall name, t !! name = None <-> m !! name = None.

Definition unchanged_counts (t m : gmap string ProxyOutbound) (st : reload_state) : Prop :=
  same_names t m -> rl_added st = 0 /\ rl_deleted st = 0.

Lemma remove_loop (t : gmap string ProxyOutbound) servers m0 s order :
  om_wf m0 -> order ≡ₚ (map_to_list (om_outbounds m0)).*1 ->
  let st := fold_left (remove_missing t servers) order {| rl_m := m0; rl_s := s; rl_deleted := 0; rl_added := 0; rl_updated := 0 |} in
  reload_inv m0 st /\ unchanged_counts t (om_outbounds m0) st /\
  (forall name, is_Some (t !! name) -> node_view st name = (om_outbounds m0 !! name, om_singbox m0 !! name)) /\
  (forall name, t !! name = None -> om_outbounds (rl_m st) !! name = None).
Proof.
  intros Hw Hord st. set (st0 := {| rl_m := m0; rl_s := s; rl_deleted := 0; rl_added := 0; rl_updated := 0 |}) in st.
  destruct (fold_keyed (remove_missing t servers) (fun n => n) node_view (fun st => reload_inv m0 st /\ unchanged_counts t (om_outbounds m0) st)
    (fun name v v' => v' = if t !! name then v else match v.1 with Some _ => (None, None) | None => v end) order st0) as ([Hi Hq] & HP & Hout).
  - rewrite list_fmap_id, Hord. apply NoDup_fst_map_to_list.
  - split; [split; [done|]; split; [by left|done]|done].
  - intros st2 name [Hi Hq] Hin _. destruct (remove_turn m0 t servers st2 name Hi) as (Hi' & Hv & Hk).
    split; [split; [done|]|by split].
    intros Hsame. destruct (Hq Hsame) as [Ha Hd]. destruct (remove_missing_eq t servers st2 name) as (_ & -> & ->). split; [done|].
    destruct (t !! name) eqn:Et; [lia|]. apply Hsame in Et. exfalso. rewrite Hord in Hin.
    apply list_elem_of_fmap in Hin as ([k c] & -> & Hk2%elem_of_map_to_list). cbn in *. congruence.
  - rewrite list_fmap_id in Hout. split; [done|]. split; [done|]. split.
    + intros name [c Hc]. destruct (decide (name ∈ order)) as [Hin|Hn]; [|by apply Hout]. specialize (HP name Hin). cbn in HP. by rewrite Hc in HP.
    + intros name Hn. assert (om_outbounds (rl_m st) !! name = (node_view st name).1) as -> by done.
      destruct (decide (name ∈ order)) as [Hin|Hno].
      * specialize (HP name Hin). cbn in HP. rewrite Hn in HP. fold st in HP. rewrite HP. cbn [node_view st0 rl_m fst].
        by destruct (om_outbounds m0 !! name) eqn:E.
      * unfold st. rewrite (Hout name Hno). cbn. destruct (om_outbounds m0 !! name) eqn:E; [|done]. by destruct Hno; eapply order_covers.
Qed.

Lemma put_loop (t : gmap string ProxyOutbound) m0 st1 order :
  reload_inv m0 st1 -> unchanged_counts t (om_outbounds m0) st1 -> table_wf (om_runtimes m0) t -> order ≡ₚ (map_to_list t).*1 ->
  (forall name, is_Some (t !! name) -> node_view st1 name = (om_outbounds m0 !! name, om_singbox m0 !! name)) ->
  (forall name, t !! name = None -> om_outbounds (rl_m st1) !! name = None) ->
  let st := fold_left (put_node t (om_outbounds m0)) order st1 in
  reload_inv m0 st /\ unchanged_counts t (om_outbounds m0) st /\ om_outbounds (rl_m st) = t /\
  forall name, is_Some (t !! name) -> is_Some (om_outbounds m0 !! name) -> om_singbox (rl_m st) !! name = None.
Proof.
  intros Hi1 Hq1 Ht Hord Hv1 Hn1 st.
  assert (forall name, name ∈ order <-> is_Some (t !! name)) as Hin_order.
  { intros name. split; [|intros [c Hc]; by eapply order_covers]. rewrite Hord.
    intros ([k c] & -> & Hk%elem_of_map_to_list)%list_elem_of_fmap. by exists c. }
  destruct (fold_keyed (put_node t (om_outbounds m0)) (fun n => n) node_view (fun st => reload_inv m0 st /\ unchanged_counts t (om_outbounds m0) st)
    (fun name v v' => v' = (t !! name, if om_outbounds m0 !! name then None else v.2)) order st1) as ([Hi Hq] & HP & Hout).
  - rewrite list_fmap_id, Hord. apply NoDup_fst_map_to_list.
  - done.
  - intros st2 name [Hi Hq] Hin Ev. apply Hin_order in Hin as [cfg Hcfg].
    assert (om_outbounds (rl_m st2) !! name = om_outbounds m0 !! name) as Eo.
    { rewrite Hv1 in Ev by by eexists. by injection Ev. }
    assert (om_outbounds (rl_m st2) !! name = None <-> om_outbounds m0 !! name = None) as Hiff by by rewrite Eo.
    destruct (put_turn m0 t (om_outbounds m0) st2 name cfg Hi Hcfg (Ht name cfg Hcfg) Hiff) as (Hi' & Hv & Hk).
    split; [split; [done|]|split; [by rewrite Hcfg|done]].
    intros Hsame. destruct (Hq Hsame) as [Ha Hd]. pose proof (proj1 Hi) as Er.
    destruct (put_node_eq t (om_outbounds m0) st2 name cfg Hcfg ltac:(rewrite Er; by apply Ht) Hiff) as (_ & -> & ->). split; [|done].
    destruct (om_outbounds m0 !! name) eqn:E; [lia|]. apply Hsame in E. congruence.
  - rewrite list_fmap_id in Hout. split; [done|]. split; [done|]. split.
    + apply map_eq. intros name. assert (om_outbounds (rl_m st) !! name = (node_view st name).1) as -> by done.
      destruct (decide (name ∈ order)) as [Hin|Hno].
      * specialize (HP name Hin). cbn in HP. fold st in HP. by rewrite HP.
      * unfold st. rewrite (Hout name Hno). destruct (t !! name) eqn:E; [|by apply Hn1]. by destruct Hno; apply Hin_order; rewrite E.
    + intros name Hs [o Ho]. assert (om_singbox (rl_m st) !! name = (node_view st name).2) as -> by done.
      specialize (HP name (proj2 (Hin_order name) Hs)). cbn in HP. fold st in HP. rewrite HP, Ho. done.
Qed.

(** The orders visit the file and the manager completely. *)
Definition reload_orders_ok (os : reload_orders) (t m : gmap string ProxyOutbound) : Prop :=
  ro_file os ≡ₚ (map_to_list t).*1 /\ ro_config os ≡ₚ (map_to_list t).*1 /\
  ro_manager os ≡ₚ (map_to_list m).*1 /\ ro_current os ≡ₚ (map_to_list m).*1.

(** What both theorems start from: the state after the two loops. *)
Lemma reload_loops now r os oc s w :
  om_wf (dw_m w) -> table_wf (om_runtimes (dw_m w)) (oc_outbounds oc) -> reload_orders_ok os (oc_outbounds oc) (om_outbounds (dw_m w)) ->
  exists st, reload_inv (dw_m w) st /\ unchanged_counts (oc_outbounds oc) (om_outbounds (dw_m w)) st /\
    om_outbounds (rl_m st) = oc_outbounds oc /\
    (forall name, is_Some (oc_outbounds oc !! name) -> is_Some (om_outbounds (dw_m w) !! name) -> om_singbox (rl_m st) !! name = None) /\
    reloadProxyOutbounds true now r os oc s w =
      Some ((if (0 <? rl_added st) || (0 <? rl_deleted st) then Reload now r (ro_nodes os) (ro_cached os) (with_m (rl_m st) w)
             else with_m (rl_m st) w), rl_s st).
Proof.
  intros Hw Ht (Hfile & Hconfig & Hman & Hcur). unfold reloadProxyOutbounds, oc_GetAllOutbounds, ListOutbounds. cbn [negb].
  rewrite (by_name_table (oc_outbounds oc)), (by_name_table (om_outbounds (dw_m w))); [|intros n p Hp; by apply (proj1 Hw)|done|intros n p Hp; by apply Ht|done].
  destruct (remove_loop (oc_outbounds oc) (ro_servers os) (dw_m w) s (ro_current os) Hw Hcur) as (Hi & Hq & Hv & Hn).
  destruct (put_loop (oc_outbounds oc) (dw_m w) _ (ro_config os) Hi Hq Ht Hconfig Hv Hn) as (Hi2 & Hq2 & Ho & Hs).
  eexists. split; [exact Hi2|]. split; [exact Hq2|]. split; [exact Ho|]. split; [exact Hs|]. reflexivity.
Qed.
End reload.

Section reload_theorems.
Context `{Unicode} {S : Type} `{!ServerConfigUpdater S}.

(** C26: after a change of the node file the outbound manager has exactly the nodes of the file, each
    with the configuration and the runtime of the table behind the file, whatever it
    had before, in every order of the maps and whichever creations fail. *)
Theorem nodes_follow_file (now : gotime) (r : string -> option string) (os : reload_orders)
    (oc : ProxyOutboundConfigManager) (s : option S) (w : dial_world) :
  om_wf (dw_m w) -> table_wf (om_runtimes (dw_m w)) (oc_outbounds oc) ->
  reload_orders_ok os (oc_outbounds oc) (om_outbounds (dw_m w)) ->
  exists w' s', reloadProxyOutbounds true now r os oc s w = Some (w', s') /\ om_outbounds (dw_m w') = oc_outbounds oc.
Proof.
  intros Hw Ht Hos. destruct (reload_loops now r os oc s w Hw Ht Hos) as (st & (_ & _ & Hwf) & _ & Ho & _ & ->).
  eexists _, _. split; [done|]. destruct (_ || _); [|done]. unfold Reload. cbn [with_m dw_m].
  destruct (reload_removed_pass (ro_cached os) (dw_m (fold_left (reload_node now r) (ro_nodes os) (with_m (rl_m st) w)))) as (-> & _).
  by rewrite reload_nodes_stay.
Qed.

(** When no node was added or removed, not even changed, every sing-box outbound that was cached
    for a node of the file is closed all the same and is not made again: the next
    connection through each node starts anew. *)
Theorem unchanged_file_closes_outbounds (now : gotime) (r : string -> option string) (os : reload_orders)
    (oc : ProxyOutboundConfigManager) (s : option S) (w : dial_world) (name : string) (sb : singbox_id) :
  om_wf (dw_m w) -> table_wf (om_runtimes (dw_m w)) (oc_outbounds oc) ->
  reload_orders_ok os (oc_outbounds oc) (om_outbounds (dw_m w)) -> same_names (oc_outbounds oc) (om_outbounds (dw_m w)) ->
  is_Some (oc_outbounds oc !! name) -> om_singbox (dw_m w) !! name = Some sb ->
  exists w' s', reloadProxyOutbounds true now r os oc s w = Some (w', s') /\
    om_singbox (dw_m w') !! name = None /\ sb ∈ om_closed (dw_m w').
Proof.
  intros Hw Ht Hos Hsame Hin Hsb. destruct (reload_loops now r os oc s w Hw Ht Hos) as (st & (_ & Hc & _) & Hq & _ & Hs & ->).
  destruct (Hq Hsame) as [-> ->]. eexists _, _. split; [done|]. cbn [orb Z.ltb with_m dw_m].
  assert (is_Some (om_outbounds (dw_m w) !! name)) as Ho.
  { destruct (om_outbounds (dw_m w) !! name) eqn:E; [by eexists|]. apply Hsame in E. rewrite E in Hin. by destruct Hin. }
  pose proof (Hs name Hin Ho) as Hnone. split; [done|]. destruct (Hc name sb Hsb) as [|]; [congruence|done].
Qed.
End reload_theorems.

(** ** Witnesses *)

#[local] Existing Instance ascii_unicode.
#[local] Instance saving_updater : ServerConfigUpdater ConfigManager := ConfigManager_updater true.

(** The manager has hk and us and a cached sing-box outbound for hk. *)
Definition cached_world : dial_world := (getOrCreateSingboxOutbound hour None (example_group_node "hk" "asia") example_world).1.

Lemma cached_world_quiet : quiet example_world cached_world.
Proof.
  pose proof (getOrCreate_quiet hour None (example_group_node "hk" "asia") example_world two_nodes_wf) as Hq.
  unfold cached_world. revert Hq. generalize (getOrCreateSingboxOutbound hour None (example_group_node "hk" "asia") example_world).
  by intros [w r] [Hq _].
Qed.

Definition shared_node (name : string) (r : nat) : ProxyOutbound := with_runtime (Some r) (example_group_node name "asia").

(** A file of hk and another node, with the runtimes of the manager. *)
Definition shared_file (other : string) : ProxyOutboundConfigManager :=
  {| oc_outbounds := {[ "hk" := shared_node "hk" 0; other := shared_node other 1 ]}%string; oc_disk := ∅ |}.

Lemma shared_file_wf (other : string) :
  Validate (shared_node other 1) = None -> table_wf (om_runtimes (dw_m cached_world)) (oc_outbounds (shared_file other)).
Proof.
  intros Hv name p Hp. unfold shared_file in Hp. cbn [oc_outbounds] in Hp.
  apply lookup_insert_Some in Hp as [[<- <-]|[_ [<- <-]%lookup_singleton_Some]].
  - split; [done|]. split; [by vm_compute|]. exists 0%nat. split; [done|vm_compute; lia].
  - split; [done|]. split; [done|]. exists 1%nat. split; [done|vm_compute; lia].
Qed.

Definition demo_orders (file : list string) : reload_orders :=
  {| ro_file := file; ro_manager := ["us"; "hk"]; ro_current := ["us"; "hk"]; ro_config := file; ro_servers := [];
     ro_nodes := file; ro_cached := file |}%string.

(** The file has jp instead of us. *)
Lemma nodes_follow_file_witness :
  exists w' s', reloadProxyOutbounds (S := ConfigManager) true hour (fun _ => None) (demo_orders ["jp"; "hk"]%string) (shared_file "jp") None cached_world
    = Some (w', s') /\ om_outbounds (dw_m w') = oc_outbounds (shared_file "jp").
Proof.
  refine (nodes_follow_file (S := ConfigManager) hour (fun _ => None) (demo_orders ["jp"; "hk"]%string) (shared_file "jp") None cached_world
    (quiet_wf _ _ cached_world_quiet) (shared_file_wf "jp" ltac:(by vm_compute)) _).
  split_and!; vm_compute; apply perm_swap || reflexivity.
Defined.

(** The file is that of the manager. *)
Lemma unchanged_file_closes_outbounds_witness :
  exists w' s', reloadProxyOutbounds (S := ConfigManager) true hour (fun _ => None) (demo_orders ["us"; "hk"]%string) (shared_file "us") None cached_world
    = Some (w', s') /\ om_singbox (dw_m w') !! "hk"%string = None /\ 0%nat ∈ om_closed (dw_m w').
Proof.
  refine (unchanged_file_closes_outbounds (S := ConfigManager) hour (fun _ => None) (demo_orders ["us"; "hk"]%string) (shared_file "us") None cached_world
    "hk" 0%nat (quiet_wf _ _ cached_world_quiet) (shared_file_wf "us" ltac:(by vm_compute)) _ _ _ _).
  - split_and!; vm_compute; apply perm_swap || reflexivity.
  - intros name. rewrite (quiet_nodes _ _ cached_world_quiet).
    assert (om_outbounds (dw_m example_world) = {[ "hk" := shared_node "hk" 0; "us" := with_runtime (Some 1%nat) (example_group_node "us" "west") ]}%string)
      as -> by (vm_compute; reflexivity).
    cbn [oc_outbounds shared_file]. rewrite !lookup_insert_None, !lookup_singleton_None. done.
  - by eexists.
  - by vm_compute.
Defined.
