(* ===== verification/Server.v ===== *)
(** * The listeners of the servers: [internal/proxy/proxy.go]

    The orchestration of [ProxyServer] ([Start], [Stop], [Reload], [ReloadServer],
    [StartServer], [StopServer], [KickPlayer], the status functions,
    [reloadProxyOutbounds]), with combined_listener.go, listener_with_cleanup.go
    and the start of a UDP speeder from udpspeeder.go.

    A proxy that holds a socket is a [part], a cell of a heap; a [listener] is one
    part, the TCP and the UDP part of a combined listener, or a listener with the
    process of a UDP speeder in front of its target.  Parts and processes stay in
    their heaps when they are closed, so that nothing opened is forgotten.  What the
    machine answers (binding, closing, spawning, killing) is an argument ([machine]),
    asked in order.  What a part does with its packets is in the files of the
    proxies. *)

From Stdlib Require Import Strings.String.
From stdpp Require Import pretty.
From S2P Require Import Prelude GoBytes GoString NetIP NetURL Session SessionManager Config Outbound OutboundManager NodeFile Dial.

(** ** Parts, listeners, processes *)

Inductive part_kind := KPlainUDP | KPlainTCP | KMITM | KRakNet | KPassthrough | KRawUDP | KTransparent.

(** What [startListener] hands to a proxy. *)
Record wiring := {
  w_outbound : bool;
  w_acl : bool;
  w_verifier : bool;
  w_idle : option Z;
}.

Record part := {
  pt_server : string;
  pt_kind : part_kind;
  pt_config : ServerConfig;
  pt_wiring : wiring;
  pt_bound : string;
  pt_open : bool;
}.

Record speeder := { sp_args : list string; sp_alive : bool; sp_kill_failed : bool }.

Abbreviation part_ptr := nat (only parsing).
Abbreviation proc_ptr := nat (only parsing).

Inductive listener :=
| LPart (q : part_ptr)
| LCombined (qs : list part_ptr)
| LCleanup (inner : listener) (proc : proc_ptr).

(** What the machine answers; the number counts the questions. *)
Record machine := {
  m_bind : nat -> bool;
  m_close : nat -> bool;
  m_spawn : nat -> bool;
  m_kill : nat -> bool;
  m_free_port : nat -> option Z;
  m_speeder_binary : string -> option string;
}.

Record ProxyServer := {
  ps_config : option GlobalConfig;
  ps_acl : bool;
  ps_verifier : bool;
  ps_outbound : bool;
  ps_running : bool;
  ps_listeners : gmap string listener;
  ps_parts : list part;
  ps_procs : list speeder;
  ps_sessions : SessionManager;
  ps_asked : nat;
}.

Definition set_running (b : bool) (p : ProxyServer) : ProxyServer :=
  {| ps_config := ps_config p; ps_acl := ps_acl p; ps_verifier := ps_verifier p; ps_outbound := ps_outbound p;
     ps_running := b; ps_listeners := ps_listeners p; ps_parts := ps_parts p; ps_procs := ps_procs p;
     ps_sessions := ps_sessions p; ps_asked := ps_asked p |}.

Definition set_listeners (m : gmap string listener) (p : ProxyServer) : ProxyServer :=
  {| ps_config := ps_config p; ps_acl := ps_acl p; ps_verifier := ps_verifier p; ps_outbound := ps_outbound p;
     ps_running := ps_running p; ps_listeners := m; ps_parts := ps_parts p; ps_procs := ps_procs p;
     ps_sessions := ps_sessions p; ps_asked := ps_asked p |}.

Definition set_parts (l : list part) (p : ProxyServer) : ProxyServer :=
  {| ps_config := ps_config p; ps_acl := ps_acl p; ps_verifier := ps_verifier p; ps_outbound := ps_outbound p;
     ps_running := ps_running p; ps_listeners := ps_listeners p; ps_parts := l; ps_procs := ps_procs p;
     ps_sessions := ps_sessions p; ps_asked := ps_asked p |}.

Definition set_procs (l : list speeder) (p : ProxyServer) : ProxyServer :=
  {| ps_config := ps_config p; ps_acl := ps_acl p; ps_verifier := ps_verifier p; ps_outbound := ps_outbound p;
     ps_running := ps_running p; ps_listeners := ps_listeners p; ps_parts := ps_parts p; ps_procs := l;
     ps_sessions := ps_sessions p; ps_asked := ps_asked p |}.

Definition set_ps_sessions (sm : SessionManager) (p : ProxyServer) : ProxyServer :=
  {| ps_config := ps_config p; ps_acl := ps_acl p; ps_verifier := ps_verifier p; ps_outbound := ps_outbound p;
     ps_running := ps_running p; ps_listeners := ps_listeners p; ps_parts := ps_parts p; ps_procs := ps_procs p;
     ps_sessions := sm; ps_asked := ps_asked p |}.

Definition ask (p : ProxyServer) : ProxyServer :=
  {| ps_config := ps_config p; ps_acl := ps_acl p; ps_verifier := ps_verifier p; ps_outbound := ps_outbound p;
     ps_running := ps_running p; ps_listeners := ps_listeners p; ps_parts := ps_parts p; ps_procs := ps_procs p;
     ps_sessions := ps_sessions p; ps_asked := S (ps_asked p) |}.

Definition opened_part (a : part) : part :=
  {| pt_server := pt_server a; pt_kind := pt_kind a; pt_config := pt_config a; pt_wiring := pt_wiring a;
     pt_bound := sc_ListenAddr (pt_config a); pt_open := true |}.

Definition closed_part (a : part) : part :=
  {| pt_server := pt_server a; pt_kind := pt_kind a; pt_config := pt_config a; pt_wiring := pt_wiring a;
     pt_bound := pt_bound a; pt_open := false |}.

Definition configured_part (sc : ServerConfig) (a : part) : part :=
  {| pt_server := pt_server a; pt_kind := pt_kind a; pt_config := sc; pt_wiring := pt_wiring a;
     pt_bound := pt_bound a; pt_open := pt_open a |}.

Definition on_part (q : part_ptr) (f : part -> part) (p : ProxyServer) : ProxyServer :=
  set_parts (alter f q (ps_parts p)) p.

Fixpoint parts_of (l : listener) : list part_ptr :=
  match l with LPart q => [q] | LCombined qs => qs | LCleanup inner _ => parts_of inner end.

Fixpoint procs_of (l : listener) : list proc_ptr :=
  match l with LPart _ | LCombined _ => [] | LCleanup inner n => n :: procs_of inner end.

(** Every path of a stop that returns an error returns one of these. *)
Inductive server_err :=
| ErrNotRunning
| ErrAlreadyRunning
| ErrListenerExists (serverID : string)
| ErrListenerNotFound (serverID : string)
| ErrNoServer (serverID : string)
| ErrServerRunning (serverID : string)
| ErrSpeederConfig (e : cfg_err)
| ErrSpeederBinary
| ErrSpeederAddr
| ErrSpeederStart
| ErrLocalAddrInvalid
| ErrStartListener
| ErrStopListener.

Section server.
Context `{Unicode} (mc : machine).

(** ** Parts *)

Definition start_part (q : part_ptr) (p : ProxyServer) : ProxyServer * bool :=
  let ok := m_bind mc (ps_asked p) in
  let p := ask p in
  if ok then (on_part q opened_part p, true) else (p, false).

(** The proxies for which [Stop] returns the error of closing the socket; a second
    close of a UDP socket is an error, of the sockets of the RakNet library it may be. *)
Definition close_error_shown (k : part_kind) : bool :=
  match k with KTransparent | KRakNet | KPassthrough | KMITM => true | _ => false end.

Definition stop_part (q : part_ptr) (p : ProxyServer) : ProxyServer * bool :=
  match ps_parts p !! q with
  | None => (p, true)
  | Some a =>
      let ok := m_close mc (ps_asked p) in
      let ok := match pt_kind a with KTransparent => pt_open a && ok | k => negb (close_error_shown k) || ok end in
      (on_part q closed_part (ask p), ok)
  end.

Definition stop_parts (qs : list part_ptr) (p : ProxyServer) : ProxyServer :=
  fold_left (fun p q => (stop_part q p).1) qs p.

(** [combinedListener.Start]: the parts before one that fails are stopped. *)
Fixpoint start_parts (started qs : list part_ptr) (p : ProxyServer) : ProxyServer * bool :=
  match qs with
  | [] => (p, true)
  | q :: qs =>
      let '(p, ok) := start_part q p in
      if ok then start_parts (started ++ [q]) qs p else (stop_parts started p, false)
  end.

(** ** The UDP speeder *)

Definition speeder_fec (c : UDPSpeederConfig) : string :=
  let fec := trim_space (us_FEC c) in if String.eqb fec "" then "20:10"%string else fec.

Definition speeder_args (c : UDPSpeederConfig) (localListenAddr : string) : list string :=
  ["-c"; "-l"; localListenAddr; "-r"; us_RemoteAddr c]%string
  ++ ["-f"; speeder_fec c]%string
  ++ (if String.eqb (trim_space (us_Key c)) "" then [] else ["-k"; us_Key c]%string)
  ++ (if 0 <? us_Mode c then ["--mode"; pretty (us_Mode c)]%string else [])
  ++ (if 0 <? us_TimeoutMs c then ["--timeout"; pretty (us_TimeoutMs c)]%string else [])
  ++ (if 0 <? us_MTU c then ["--mtu"; pretty (us_MTU c)]%string else [])
  ++ (if us_DisableObscure c then ["--disable-obscure"; "1"]%string else [])
  ++ (if us_DisableChecksum c then ["--disable-checksum"; "1"]%string else [])
  ++ us_ExtraArgs c
  ++ ["--disable-color"; "--log-level"; "4"]%string.

(** A free port of the loopback address, or the address of the configuration. *)
Definition resolveUDPSpeederLocalAddr (localListenAddr : string) (p : ProxyServer) : ProxyServer * option string :=
  if negb (String.eqb (trim_space localListenAddr) "") then (p, Some localListenAddr) else
  (ask p, (fun port : Z => ("127.0.0.1:" ++ pretty port)%string) <$> m_free_port mc (ps_asked p)).

Definition startUDPSpeeder (sc : ServerConfig) (p : ProxyServer)
  : ProxyServer * (option (proc_ptr * string) + server_err) :=
  match sc_UDPSpeeder sc with
  | None => (p, inl None)
  | Some cfg =>
      if negb (us_Enabled cfg) then (p, inl None) else
      match speeder_Validate cfg with
      | Some e => (p, inr (ErrSpeederConfig e))
      | None =>
          match m_speeder_binary mc (us_BinaryPath cfg) with
          | None => (p, inr ErrSpeederBinary)
          | Some _ =>
              let '(p, local) := resolveUDPSpeederLocalAddr (us_LocalListenAddr cfg) p in
              match local with
              | None => (p, inr ErrSpeederAddr)
              | Some local =>
                  let ok := m_spawn mc (ps_asked p) in
                  let p := ask p in
                  if ok
                  then (set_procs (ps_procs p ++ [{| sp_args := speeder_args cfg local; sp_alive := true; sp_kill_failed := false |}]) p,
                        inl (Some (length (ps_procs p), local)))
                  else (p, inr ErrSpeederStart)
              end
          end
      end
  end.

(** [udpSpeederProcess.Stop] *)
Definition killed_speeder (ok : bool) (s : speeder) : speeder :=
  {| sp_args := sp_args s; sp_alive := sp_alive s && negb ok; sp_kill_failed := sp_kill_failed s || negb ok |}.

Definition stop_proc (n : proc_ptr) (p : ProxyServer) : ProxyServer * bool :=
  let ok := m_kill mc (ps_asked p) in
  let p := ask p in
  (set_procs (alter (killed_speeder ok) n (ps_procs p)) p, ok).

(** ** Listeners *)

Fixpoint stop_listener (l : listener) (p : ProxyServer) : ProxyServer * bool :=
  match l with
  | LPart q => stop_part q p
  | LCombined qs => (stop_parts qs p, true)
  | LCleanup inner n =>
      let '(p, ok) := stop_listener inner p in
      let '(p, killed) := stop_proc n p in
      (p, ok && killed)
  end.

Fixpoint start_listener (l : listener) (p : ProxyServer) : ProxyServer * bool :=
  match l with
  | LPart q => start_part q p
  | LCombined qs => start_parts [] qs p
  | LCleanup inner _ => start_listener inner p
  end.

Inductive shape := One (k : part_kind) | TcpAndUdp.

(** The choice of [startListener]. *)
Definition chosen_shape (cfg : ServerConfig) : shape :=
  let protocol := to_lower (sc_Protocol cfg) in
  let plain :=
    if negb (String.eqb protocol "") && negb (String.eqb protocol "raknet") then
      if String.eqb protocol "udp" then Some (One KPlainUDP)
      else if String.eqb protocol "tcp" then Some (One KPlainTCP)
      else if String.eqb protocol "tcp_udp" then Some TcpAndUdp else None
    else None in
  match plain with
  | Some s => s
  | None =>
      let proxyMode := GetProxyMode cfg in
      if String.eqb proxyMode "mitm" then One KMITM
      else if String.eqb proxyMode "raknet" then One KRakNet
      else if String.eqb proxyMode "passthrough" then One KPassthrough
      else if String.eqb proxyMode "raw_udp" then One KRawUDP
      else One KTransparent
  end.

Definition passthrough_idle (gc : option GlobalConfig) : option Z :=
  match gc with
  | Some gc => if 0 <? gc_PassthroughIdleTimeout gc then Some (i64 (gc_PassthroughIdleTimeout gc * second)) else None
  | None => None
  end.

Definition wire (p : ProxyServer) (k : part_kind) : wiring :=
  match k with
  | KPlainUDP | KPlainTCP => {| w_outbound := ps_outbound p; w_acl := false; w_verifier := false; w_idle := None |}
  | KMITM => {| w_outbound := false; w_acl := ps_acl p; w_verifier := false; w_idle := None |}
  | KRakNet => {| w_outbound := ps_outbound p; w_acl := ps_acl p; w_verifier := false; w_idle := None |}
  | KPassthrough => {| w_outbound := ps_outbound p; w_acl := ps_acl p; w_verifier := ps_verifier p;
                       w_idle := passthrough_idle (ps_config p) |}
  | KRawUDP => {| w_outbound := ps_outbound p; w_acl := ps_acl p; w_verifier := ps_verifier p; w_idle := None |}
  | KTransparent => {| w_outbound := false; w_acl := false; w_verifier := false; w_idle := None |}
  end.

Definition new_part (serverID : string) (cfg : ServerConfig) (k : part_kind) (p : ProxyServer) : ProxyServer * part_ptr :=
  (set_parts (ps_parts p ++ [{| pt_server := serverID; pt_kind := k; pt_config := cfg; pt_wiring := wire p k;
                                pt_bound := ""; pt_open := false |}]) p, length (ps_parts p)).

Definition new_listener (serverID : string) (cfg : ServerConfig) (p : ProxyServer) : ProxyServer * listener :=
  match chosen_shape cfg with
  | One k => let '(p, q) := new_part serverID cfg k p in (p, LPart q)
  | TcpAndUdp =>
      let '(p, udp) := new_part serverID cfg KPlainUDP p in
      let '(p, tcp) := new_part serverID cfg KPlainTCP p in
      (p, LCombined [tcp; udp])
  end.

(** The copy of the configuration a listener behind a speeder gets: only the
    target, the port and the speeder change. *)
Definition tunnelled (port : Z) (sc : ServerConfig) : ServerConfig :=
  {| sc_ID := sc_ID sc; sc_Name := sc_Name sc; sc_Target := "127.0.0.1"; sc_Port := port; sc_ListenAddr := sc_ListenAddr sc;
     sc_Protocol := sc_Protocol sc; sc_Enabled := sc_Enabled sc; sc_Hidden := sc_Hidden sc; sc_LegacyDisabled := sc_LegacyDisabled sc;
     sc_UDPSpeeder := None; sc_SendRealIP := sc_SendRealIP sc; sc_ResolveInterval := sc_ResolveInterval sc;
     sc_IdleTimeout := sc_IdleTimeout sc; sc_BufferSize := sc_BufferSize sc; sc_UDPSocketBufferSize := sc_UDPSocketBufferSize sc;
     sc_DisabledMessage := sc_DisabledMessage sc; sc_CustomMOTD := sc_CustomMOTD sc; sc_ProxyMode := sc_ProxyMode sc;
     sc_ACLServerID := sc_ACLServerID sc; sc_RawUDPKickStrategy := sc_RawUDPKickStrategy sc; sc_XboxAuthEnabled := sc_XboxAuthEnabled sc;
     sc_XboxTokenPath := sc_XboxTokenPath sc; sc_ProxyOutbound := sc_ProxyOutbound sc; sc_ShowRealLatency := sc_ShowRealLatency sc;
     sc_LoadBalance := sc_LoadBalance sc; sc_LoadBalanceSort := sc_LoadBalanceSort sc; sc_ProtocolVersion := sc_ProtocolVersion sc;
     sc_LatencyMode := sc_LatencyMode sc; sc_AutoPingEnabled := sc_AutoPingEnabled sc;
     sc_AutoPingIntervalMinutes := sc_AutoPingIntervalMinutes sc; sc_AutoPingTopCandidates := sc_AutoPingTopCandidates sc;
     sc_AutoPingFullScanMode := sc_AutoPingFullScanMode sc; sc_AutoPingFullScanTime := sc_AutoPingFullScanTime sc;
     sc_AutoPingFullScanIntervalHours := sc_AutoPingFullScanIntervalHours sc;
     sc_AutoSelectBlockedNodes := sc_AutoSelectBlockedNodes sc; sc_resolvedIP := sc_resolvedIP sc; sc_lastResolved := sc_lastResolved sc |}.

(** The part of [startListener] before the listener is built. *)
Definition speeder_front (serverCfg : ServerConfig) (p : ProxyServer)
  : ProxyServer * (ServerConfig * option proc_ptr + server_err) :=
  if negb (speeder_enabled serverCfg) then (p, inl (serverCfg, None)) else
  match startUDPSpeeder serverCfg p with
  | (p, inr e) => (p, inr e)
  | (p, inl None) => (p, inl (serverCfg, None))
  | (p, inl (Some (proc, localAddr))) =>
      match split_port localAddr with
      | None => ((stop_proc proc p).1, inr ErrLocalAddrInvalid)
      | Some portStr =>
          let '(port, ok) := ParseInt portStr in
          if ok then (p, inl (tunnelled port serverCfg, Some proc))
          else ((stop_proc proc p).1, inr ErrLocalAddrInvalid)
      end
  end.

Definition startListener (serverCfg : ServerConfig) (p : ProxyServer) : ProxyServer * option server_err :=
  match ps_listeners p !! sc_ID serverCfg with
  | Some _ => (p, Some (ErrListenerExists (sc_ID serverCfg)))
  | None =>
      match speeder_front serverCfg p with
      | (p, inr e) => (p, Some e)
      | (p, inl (cfgForListener, cleanup)) =>
          let '(p, inner) := new_listener (sc_ID serverCfg) cfgForListener p in
          let l := match cleanup with Some proc => LCleanup inner proc | None => inner end in
          let '(p, ok) := start_listener l p in
          if ok then (set_listeners (<[sc_ID serverCfg := l]> (ps_listeners p)) p, None)
          else (match cleanup with Some proc => (stop_proc proc p).1 | None => p end, Some ErrStartListener)
      end
  end.

Definition stopListener (serverID : string) (p : ProxyServer) : ProxyServer * option server_err :=
  match ps_listeners p !! serverID with
  | None => (p, Some (ErrListenerNotFound serverID))
  | Some l =>
      let '(p, ok) := stop_listener l p in
      if ok then (set_listeners (delete serverID (ps_listeners p)) p, None) else (p, Some ErrStopListener)
  end.

(** ** Kinds *)

Definition kind_name (k : part_kind) : string :=
  match k with
  | KPlainUDP => "udp" | KPlainTCP => "tcp" | KMITM => "mitm" | KRakNet => "raknet" | KPassthrough => "passthrough"
  | KRawUDP => "raw_udp" | KTransparent => "transparent"
  end%string.

Definition listenerKind (p : ProxyServer) (l : listener) : string :=
  match l with
  | LPart q => match ps_parts p !! q with Some a => kind_name (pt_kind a) | None => ""%string end
  | LCombined _ => "tcp_udp"%string
  | LCleanup _ _ => "*proxy.listenerWithCleanup"%string
  end.

Definition listenerKindFromConfig (serverCfg : ServerConfig) : string :=
  let protocolValue := to_lower (sc_Protocol serverCfg) in
  let plain :=
    if negb (String.eqb protocolValue "") && negb (String.eqb protocolValue "raknet") then
      if String.eqb protocolValue "udp" then Some "udp"%string
      else if String.eqb protocolValue "tcp" then Some "tcp"%string
      else if String.eqb protocolValue "tcp_udp" then Some "tcp_udp"%string else None
    else None in
  match plain with
  | Some s => s
  | None =>
      let proxyMode := GetProxyMode serverCfg in
      if String.eqb proxyMode "mitm" then "mitm"%string
      else if String.eqb proxyMode "raknet" then "raknet"%string
      else if String.eqb proxyMode "passthrough" then "passthrough"%string
      else if String.eqb proxyMode "raw_udp" then "raw_udp"%string
      else "transparent"%string
  end.

(** The proxies with a method [UpdateConfig]; none of them binds again. *)
Definition updatable (k : part_kind) : bool :=
  match k with KMITM | KTransparent => false | _ => true end.

Definition update_part (sc : ServerConfig) (a : part) : part :=
  if updatable (pt_kind a) then configured_part sc a else a.

Definition update_listener (sc : ServerConfig) (l : listener) (p : ProxyServer) : ProxyServer :=
  match l with
  | LPart q => on_part q (update_part sc) p
  | LCombined qs => fold_left (fun p q => on_part q (update_part sc) p) qs p
  | LCleanup _ _ => p
  end.

(** ** The life of the server *)

(** Errors of single servers are logged. *)
Definition start_enabled (p : ProxyServer) (sc : ServerConfig) : ProxyServer :=
  if sc_Enabled sc then (startListener sc p).1 else p.

Definition ps_Start (cm : ConfigManager) (order : list string) (p : ProxyServer) : ProxyServer * option server_err :=
  if ps_running p then (p, Some ErrAlreadyRunning) else
  (fold_left start_enabled (GetAllServers cm order) (set_running true p), None).

(** The loop of [Stop] over the listeners and the replacement of the map, under the lock. *)
Definition stop_all (order : list string) (p : ProxyServer) : ProxyServer :=
  set_listeners ∅
    (fold_left (fun p id => match ps_listeners p !! id with Some l => (stop_listener l p).1 | None => p end) order p).

Definition end_sessions (order : list string) (sm : SessionManager) : SessionManager :=
  fold_left (fun sm l => match heap sm !! l with Some s => (Remove sm (ClientAddr s)).1 | None => sm end)
    (GetAllSessions sm order) sm.

(** [order] visits the listeners and [clients] the sessions. *)
Definition ps_Stop (order clients : list string) (p : ProxyServer) : ProxyServer * option server_err :=
  if negb (ps_running p) then (p, Some ErrNotRunning) else
  let p := stop_all order (set_running false p) in
  (set_ps_sessions (end_sessions clients (ps_sessions p)) p, None).

Definition stop_if_gone (cm : ConfigManager) (p : ProxyServer) (serverID : string) : ProxyServer :=
  match cm_servers cm !! serverID with
  | Some sc => if sc_Enabled sc then p else (stopListener serverID p).1
  | None => (stopListener serverID p).1
  end.

(** One turn of the second loop of [Reload]; [current] is the table read before. *)
Definition follow_config (current : gmap string listener) (p : ProxyServer) (sc : ServerConfig) : ProxyServer :=
  if negb (sc_Enabled sc) then p else
  match current !! sc_ID sc with
  | None => (startListener sc p).1
  | Some existing =>
      if negb (String.eqb (listenerKind p existing) (listenerKindFromConfig sc)) then
        match stopListener (sc_ID sc) p with
        | (p, Some _) => p
        | (p, None) => (startListener sc p).1
        end
      else update_listener sc existing p
  end.

(** [order] visits the configuration, [keys] the listeners. *)
Definition ps_Reload (cm : ConfigManager) (order keys : list string) (p : ProxyServer) : ProxyServer * option server_err :=
  if negb (ps_running p) then (p, Some ErrNotRunning) else
  let servers := GetAllServers cm order in
  let currentListeners := ps_listeners p in
  let p := fold_left (stop_if_gone cm) keys p in
  (fold_left (follow_config currentListeners) servers p, None).

Definition ReloadServer (cm : ConfigManager) (serverID : string) (p : ProxyServer) : ProxyServer * option server_err :=
  if negb (ps_running p) then (p, Some ErrNotRunning) else
  let running := bool_decide (is_Some (ps_listeners p !! serverID)) in
  match GetServer cm serverID with
  | None => if running then stopListener serverID p else (p, Some (ErrNoServer serverID))
  | Some sc =>
      let '(p, err) := if running then stopListener serverID p else (p, None) in
      match err with
      | Some e => (p, Some e)
      | None => if sc_Enabled sc then startListener sc p else (p, None)
      end
  end.

Definition StartServer (cm : ConfigManager) (serverID : string) (p : ProxyServer) : ProxyServer * option server_err :=
  if negb (ps_running p) then (p, Some ErrNotRunning) else
  match GetServer cm serverID with
  | None => (p, Some (ErrNoServer serverID))
  | Some sc =>
      if bool_decide (is_Some (ps_listeners p !! serverID)) then (p, Some (ErrServerRunning serverID))
      else startListener sc p
  end.

Definition StopServer (serverID : string) (p : ProxyServer) : ProxyServer * option server_err :=
  if negb (ps_running p) then (p, Some ErrNotRunning) else stopListener serverID p.

Definition IsServerRunning (p : ProxyServer) (serverID : string) : bool :=
  bool_decide (is_Some (ps_listeners p !! serverID)).

Definition listenerCount (p : ProxyServer) : Z := Z.of_nat (size (ps_listeners p)).

Definition GetServerStatus (p : ProxyServer) (serverID : string) : string :=
  if IsServerRunning p serverID then "running"%string else "stopped"%string.

(** ** Sessions and players *)

Definition GetActiveSessionCount (p : ProxyServer) : Z := Count (ps_sessions p).

Definition ps_GetActiveSessionsForServer (p : ProxyServer) (order : list string) (serverID : string) : Z :=
  let sm := ps_sessions p in
  zlen (List.filter (fun l => match heap sm !! l with Some s => String.eqb (ServerID s) serverID | None => false end)
          (GetAllSessions sm order)).

(** The counts of [GetAllServerStatuses], made in one pass. *)
Definition session_counts (p : ProxyServer) (order : list string) : gmap string Z :=
  let sm := ps_sessions p in
  fold_left (fun m l => match heap sm !! l with
                        | Some s => <[ServerID s := default 0 (m !! ServerID s) + 1]> m
                        | None => m
                        end) (GetAllSessions sm order) ∅.

Definition has_KickPlayer (k : part_kind) : bool :=
  match k with KMITM | KPassthrough | KRawUDP => true | _ => false end.

(** The sessions a listener kicks; [kicks] is what a part reports. *)
Definition kick_listener (kicks : part_ptr -> Z) (p : ProxyServer) (l : listener) : Z :=
  match l with
  | LPart q => match ps_parts p !! q with Some a => if has_KickPlayer (pt_kind a) then kicks q else 0 | None => 0 end
  | _ => 0
  end.

Definition kick_status (reason : string) : string :=
  if contains reason "黑名单用户" then "blacklist"%string
  else if contains reason "白名单" || contains reason "不在白名单" then "whitelist"%string
  else "kicked"%string.

Definition kick_session (playerName reason : string) (sm : SessionManager) (l : session_ptr) : SessionManager :=
  match heap sm !! l with
  | None => sm
  | Some s =>
      if negb (String.eqb (DisplayName s) "") && equal_fold (DisplayName s) playerName
      then (Remove (via_ptr l (SetDisconnectStatus (kick_status reason) reason) sm) (ClientAddr s)).1
      else sm
  end.

(** [order] visits the listeners and [clients] the sessions. *)
Definition ps_KickPlayer (kicks : part_ptr -> Z) (order clients : list string) (playerName reason : string)
    (p : ProxyServer) : ProxyServer * Z :=
  let kickedCount := foldr (fun id n => match ps_listeners p !! id with Some l => kick_listener kicks p l + n | None => n end) 0 order in
  let sm := ps_sessions p in
  (set_ps_sessions (fold_left (kick_session playerName reason) (GetAllSessions sm clients) sm) p, kickedCount).

(** ** Latency *)

Definition has_latency (k : part_kind) : bool :=
  match k with KTransparent | KRakNet | KPassthrough | KRawUDP => true | _ => false end.

(** The cached latency and pong of the listener of a server. *)
Definition latency_provider (cached : part_ptr -> Z * bytes) (p : ProxyServer) (serverID : string) : option (Z * bytes) :=
  match ps_listeners p !! serverID with
  | Some (LPart q) =>
      match ps_parts p !! q with
      | Some a => if has_latency (pt_kind a) then Some (cached q) else None
      | None => None
      end
  | _ => None
  end.

Definition ps_GetServerLatency (cached : part_ptr -> Z * bytes) (p : ProxyServer) (serverID : string) : option Z :=
  match latency_provider cached p serverID with
  | None => None
  | Some (latency, pong) => if (latency =? 0) && (zlen pong =? 0) then None else Some latency
  end.

(** The idle timeout of a session, the function [NewProxyServer] installs. *)
Definition session_idle_timeout (gc : option GlobalConfig) (cm : ConfigManager) (s : Session) : Z :=
  match GetServer cm (ServerID s) with
  | None => 0
  | Some sc =>
      match (if equal_fold (GetProxyMode sc) "passthrough" then passthrough_idle gc else None) with
      | Some t => t
      | None => if sc_IdleTimeout sc <=? 0 then 0 else i64 (sc_IdleTimeout sc * second)
      end
  end.

(** ** The steps of a running server

    Every operation above is made of these sections; operations of other callers can
    come between them.  A combined listener one part of which fails in [Listen] stops
    its parts. *)

Inductive server_step : ProxyServer -> ProxyServer -> Prop :=
| step_flag p b : server_step p (set_running b p)
| step_start_listener p sc : server_step p (startListener sc p).1
| step_stop_listener p serverID : server_step p (stopListener serverID p).1
| step_stop_all p order :
    order ≡ₚ (map_to_list (ps_listeners p)).*1 -> server_step p (stop_all order p)
| step_update p l sc : server_step p (update_listener sc l p)
| step_listen_failed p qs : server_step p (stop_parts qs p)
| step_sessions p sm : sm_step (ps_sessions p) sm -> server_step p (set_ps_sessions sm p).
End server.

Definition NewProxyServer (gc : option GlobalConfig) (acl verifier outbound : bool) (sm : SessionManager) : ProxyServer :=
  {| ps_config := gc; ps_acl := acl; ps_verifier := verifier; ps_outbound := outbound; ps_running := false;
     ps_listeners := ∅; ps_parts := []; ps_procs := []; ps_sessions := sm; ps_asked := 0 |}.

(** * Facts *)

(** ** Parts and processes under each operation *)

(** What the operations on sockets and processes leave alone. *)
Record framed (p p' : ProxyServer) : Prop := {
  fr_listeners : ps_listeners p' = ps_listeners p;
  fr_running : ps_running p' = ps_running p;
  fr_sessions : ps_sessions p' = ps_sessions p;
  fr_config : ps_config p' = ps_config p;
}.

#[export] Instance framed_preorder : PreOrder framed.
Proof. split; [done|]. intros x y z [] []. split; congruence. Qed.

Definition part_id (a : part) : string * part_kind * ServerConfig := (pt_server a, pt_kind a, pt_config a).

Section server_facts.
Context `{Unicode} (mc : machine).

Lemma on_part_lookup q f p k :
  ps_parts (on_part q f p) !! k = if decide (k = q) then f <$> (ps_parts p !! k) else ps_parts p !! k.
Proof. cbn. destruct (decide (k = q)) as [->|]; [by rewrite list_lookup_alter_eq|by rewrite list_lookup_alter_ne]. Qed.

Lemma stop_part_spec q p :
  framed p (stop_part mc q p).1 /\ ps_procs (stop_part mc q p).1 = ps_procs p /\
  forall k, ps_parts (stop_part mc q p).1 !! k = if decide (k = q) then closed_part <$> (ps_parts p !! k) else ps_parts p !! k.
Proof.
  unfold stop_part. destruct (ps_parts p !! q) as [a|] eqn:E; cbn [fst].
  - split; [done|]. split; [done|]. intros k. by rewrite on_part_lookup.
  - split; [done|]. split; [done|]. intros k. destruct (decide (k = q)) as [->|]; [by rewrite E|done].
Qed.

Lemma stop_parts_spec qs p :
  framed p (stop_parts mc qs p) /\ ps_procs (stop_parts mc qs p) = ps_procs p /\
  forall k, ps_parts (stop_parts mc qs p) !! k = if decide (k ∈ qs) then closed_part <$> (ps_parts p !! k) else ps_parts p !! k.
Proof.
  unfold stop_parts. revert p. induction qs as [|q qs IH]; intros p; cbn [fold_left].
  - split; [done|]. split; [done|]. intros k. rewrite decide_False; [done|]. by apply not_elem_of_nil.
  - destruct (stop_part_spec q p) as (Hf & Hp & Hl). destruct (IH (stop_part mc q p).1) as (Hf' & Hp' & Hl').
    split; [by etrans|]. split; [congruence|]. intros k. rewrite Hl', Hl.
    rewrite decide_cons. destruct (decide (k = q)), (decide (k ∈ qs)); try done; by destruct (ps_parts p !! k).
Qed.

Lemma start_part_spec q p p' ok : start_part mc q p = (p', ok) ->
  framed p p' /\ ps_procs p' = ps_procs p /\
  forall k, ps_parts p' !! k = if decide (k = q) then (if ok then opened_part <$> (ps_parts p !! k) else ps_parts p !! k)
                               else ps_parts p !! k.
Proof.
  unfold start_part. destruct (m_bind _ _); intros [= <- <-]; (split; [done|]; split; [done|]); intros k.
  - by rewrite on_part_lookup.
  - by destruct (decide _).
Qed.

Lemma part_id_opened (o : option part) : part_id <$> (opened_part <$> o) = part_id <$> o.
Proof. by destruct o. Qed.

Lemma part_id_closed (o : option part) : part_id <$> (closed_part <$> o) = part_id <$> o.
Proof. by destruct o. Qed.

(** The parts of a listener after its start: all open, or those that were closed are. *)
Lemma start_parts_spec qs : forall started p p' ok, start_parts mc started qs p = (p', ok) ->
  framed p p' /\ ps_procs p' = ps_procs p /\
  (forall k, k ∉ started ++ qs -> ps_parts p' !! k = ps_parts p !! k) /\
  (forall k, part_id <$> ps_parts p' !! k = part_id <$> ps_parts p !! k) /\
  (ok = true -> forall k, ps_parts p' !! k = if decide (k ∈ qs) then opened_part <$> (ps_parts p !! k) else ps_parts p !! k) /\
  (ok = false -> (forall k a, k ∈ qs -> k ∉ started -> ps_parts p !! k = Some a -> pt_open a = false) ->
   forall k a, k ∈ started ++ qs -> ps_parts p' !! k = Some a -> pt_open a = false).
Proof.
  induction qs as [|q qs IH]; intros started p p' ok Hs; cbn [start_parts] in Hs.
  { injection Hs as <- <-. by split_and!. }
  destruct (start_part mc q p) as [p1 ok1] eqn:E1. destruct (start_part_spec _ _ _ _ E1) as (Hf & Hp & Hl).
  destruct ok1.
  - destruct (IH _ _ _ _ Hs) as (Hf' & Hp' & Ho & Hid & Hok & Hbad).
    split; [by etrans|]. split; [congruence|]. split; [|split; [|split]].
    + intros k Hk. rewrite Ho by set_solver. rewrite Hl, decide_False; [done|set_solver].
    + intros k. rewrite Hid, Hl. destruct (decide _); [apply part_id_opened|done].
    + intros -> k. rewrite Hok, Hl, decide_cons by done.
      destruct (decide (k = q)), (decide (k ∈ qs)); try done; by destruct (ps_parts p !! k).
    + intros -> Hc k a Hk Ha. refine (Hbad eq_refl _ k a ltac:(set_solver) Ha).
      intros j b Hj Hn Hb. rewrite Hl, decide_False in Hb by set_solver. apply (Hc j b); set_solver.
  - injection Hs as <- <-. destruct (stop_parts_spec started p1) as (Hf' & Hp' & Hl').
    assert (forall k, ps_parts p1 !! k = ps_parts p !! k) as E by (intros k; rewrite Hl; by destruct (decide _)).
    split; [by etrans|]. split; [congruence|]. split; [|split; [|split; [done|]]].
    + intros k Hk. by rewrite Hl', decide_False, E by set_solver.
    + intros k. rewrite Hl', E. destruct (decide _); [apply part_id_closed|done].
    + intros _ Hc k a Hk Ha. rewrite Hl', E in Ha. destruct (decide (k ∈ started)).
      * destruct (ps_parts p !! k); [|done]. by injection Ha as <-.
      * apply (Hc k a); [set_solver|done..].
Qed.

(** A listener whose parts are closed is started. *)
Lemma start_listener_spec l : forall p p' ok, start_listener mc l p = (p', ok) ->
  framed p p' /\ ps_procs p' = ps_procs p /\
  (forall k, k ∉ parts_of l -> ps_parts p' !! k = ps_parts p !! k) /\
  (forall k, part_id <$> ps_parts p' !! k = part_id <$> ps_parts p !! k) /\
  (ok = true -> forall k, ps_parts p' !! k = if decide (k ∈ parts_of l) then opened_part <$> (ps_parts p !! k) else ps_parts p !! k) /\
  (ok = false -> (forall k a, k ∈ parts_of l -> ps_parts p !! k = Some a -> pt_open a = false) ->
   forall k a, k ∈ parts_of l -> ps_parts p' !! k = Some a -> pt_open a = false).
Proof.
  induction l as [q|qs|inner IH n]; intros p p' ok Hs; cbn [start_listener parts_of] in *; [| |by apply IH].
  - destruct (start_part_spec _ _ _ _ Hs) as (Hf & Hp & Hl). split; [done|]. split; [done|].
    split; [|split; [|split]].
    + intros k Hk. rewrite Hl, decide_False; [done|set_solver].
    + intros k. rewrite Hl. destruct (decide _), ok; rewrite ?part_id_opened; done.
    + intros -> k. rewrite Hl, decide_cons. by destruct (decide (k = q)).
    + intros -> Hc k a Hk Ha. apply (Hc k a Hk). rewrite Hl in Ha. by destruct (decide _).
  - destruct (start_parts_spec _ _ _ _ _ Hs) as (? & ? & ? & ? & ? & Hbad). split_and!; try done.
    intros Hok Hc. apply (Hbad Hok). intros k a Hk _. by apply Hc.
Qed.

Lemma stop_proc_spec n p :
  framed p (stop_proc mc n p).1 /\ ps_parts (stop_proc mc n p).1 = ps_parts p /\
  exists ok, ps_procs (stop_proc mc n p).1 = alter (killed_speeder ok) n (ps_procs p) /\ (stop_proc mc n p).2 = ok.
Proof. unfold stop_proc. split; [done|]. split; [done|]. by eexists. Qed.

(** What a stop does to one process: nothing, or a kill. *)
Definition stopped_proc (s s' : speeder) : Prop :=
  sp_args s' = sp_args s /\ (sp_kill_failed s = true -> sp_kill_failed s' = true) /\
  (sp_alive s' = true -> sp_alive s = true).

Lemma stopped_killed ok s s' : stopped_proc s s' -> stopped_proc s (killed_speeder ok s').
Proof.
  intros (Ha & Hf & Hal). split; [done|]. cbn. split; [intros ->%Hf; done|].
  rewrite andb_true_iff. intros [Hx _]. by apply Hal.
Qed.

Lemma list_lookup_alter_Some' {A} (f : A -> A) (l : list A) i k y :
  alter f i l !! k = Some y -> (exists x, l !! k = Some x /\ k = i /\ y = f x) \/ (l !! k = Some y /\ k <> i).
Proof.
  destruct (decide (k = i)) as [->|Hne].
  - rewrite list_lookup_alter_eq. intros (x & Hx & ->)%fmap_Some. left. eauto.
  - rewrite list_lookup_alter_ne by done. auto.
Qed.

Lemma stop_listener_spec l : forall p,
  framed p (stop_listener mc l p).1 /\
  (forall k, ps_parts (stop_listener mc l p).1 !! k = if decide (k ∈ parts_of l) then closed_part <$> (ps_parts p !! k) else ps_parts p !! k) /\
  length (ps_procs (stop_listener mc l p).1) = length (ps_procs p) /\
  (forall n s', ps_procs (stop_listener mc l p).1 !! n = Some s' ->
     exists s, ps_procs p !! n = Some s /\ stopped_proc s s' /\
       (n ∈ procs_of l -> sp_alive s' = true -> sp_kill_failed s' = true) /\ (n ∉ procs_of l -> s' = s)) /\
  ((stop_listener mc l p).2 = true -> forall n s', n ∈ procs_of l -> ps_procs (stop_listener mc l p).1 !! n = Some s' -> sp_alive s' = false).
Proof.
  induction l as [q|qs|inner IH n]; intros p; cbn [stop_listener parts_of procs_of].
  - destruct (stop_part_spec q p) as (Hf & Hp & Hl). split; [done|]. rewrite Hp.
    split; [intros k; by rewrite Hl, decide_cons; destruct (decide (k = q))|]. split; [done|].
    split; [intros n s' Hs; exists s'; split_and!; try done; by intros ?%elem_of_nil|by intros _ n s' ?%elem_of_nil].
  - destruct (stop_parts_spec qs p) as (Hf & Hp & Hl). cbn [fst snd]. split; [done|]. rewrite Hp. split; [done|]. split; [done|].
    split; [intros n s' Hs; exists s'; split_and!; try done; by intros ?%elem_of_nil|by intros _ n s' ?%elem_of_nil].
  - destruct (IH p) as (Hf & Hl & Hlen & Hp & Ht). destruct (stop_listener mc inner p) as [p1 ok1]. cbn [fst snd] in *.
    destruct (stop_proc_spec n p1) as (Hf' & Hl' & ok & Hp' & Hok). destruct (stop_proc mc n p1) as [p2 ok2]. cbn [fst snd] in *.
    subst ok2. split; [by etrans|]. split; [by rewrite Hl'|]. rewrite Hp'. split; [by rewrite length_alter|]. split.
    + intros k s' [(s1 & Hs1 & -> & ->)|[Hs1 Hne]]%list_lookup_alter_Some'.
      * destruct (Hp _ _ Hs1) as (s & Hs & Hst & Hin & Hout). exists s. split; [done|]. split; [by apply stopped_killed|].
        split; [|by intros []%not_elem_of_cons]. intros _. cbn. destruct ok; [by rewrite andb_false_r|by rewrite orb_true_r].
      * destruct (Hp _ _ Hs1) as (s & Hs & Hst & Hin & Hout). exists s. split; [done|]. split; [done|].
        split; [intros [?|?]%elem_of_cons; [done|by apply Hin]|intros [_ ?]%not_elem_of_cons; by apply Hout].
    + intros [Hok1 ->]%andb_true_iff k s' Hk [(s1 & Hs1 & -> & ->)|[Hs1 Hne]]%list_lookup_alter_Some'; [cbn; by rewrite andb_false_r|].
      apply elem_of_cons in Hk as [?|Hk]; [done|]. by eapply Ht.
Qed.

Lemma startUDPSpeeder_spec sc p p' r : startUDPSpeeder mc sc p = (p', r) ->
  framed p p' /\ ps_parts p' = ps_parts p /\
  match r with
  | inl (Some (n, local)) =>
      n = length (ps_procs p) /\
      exists cfg, sc_UDPSpeeder sc = Some cfg /\
        ps_procs p' = ps_procs p ++ [{| sp_args := speeder_args cfg local; sp_alive := true; sp_kill_failed := false |}]
  | _ => ps_procs p' = ps_procs p
  end.
Proof.
  unfold startUDPSpeeder, resolveUDPSpeederLocalAddr.
  destruct (sc_UDPSpeeder sc) as [cfg|]; [|by intros [= <- <-]].
  destruct (negb (us_Enabled cfg)); [by intros [= <- <-]|]. destruct (speeder_Validate cfg); [by intros [= <- <-]|].
  destruct (m_speeder_binary mc _); [|by intros [= <- <-]].
  destruct (negb _); cbv iota beta.
  - cbn zeta. destruct (m_spawn mc _); intros [= <- <-]; [|done]. split; [done|]. split; [done|]. split; [done|]. by exists cfg.
  - destruct (m_free_port mc _); cbn; [|by intros [= <- <-]].
    destruct (m_spawn mc _); intros [= <- <-]; [|done]. split; [done|]. split; [done|]. split; [done|]. by exists cfg.
Qed.

(** A killed process is dead or its kill failed. *)
Definition put_down (s : speeder) : Prop := sp_alive s = true -> sp_kill_failed s = true.

Lemma stop_proc_down n p s' :
  ps_procs (stop_proc mc n p).1 !! n = Some s' -> put_down s'.
Proof.
  destruct (stop_proc_spec n p) as (_ & _ & ok & -> & _). intros [(s & _ & _ & ->)|[_ ?]]%list_lookup_alter_Some'; [|done].
  unfold put_down. cbn. destruct ok; [by rewrite andb_false_r|by rewrite orb_true_r].
Qed.

Lemma alter_last {A} (f : A -> A) (l : list A) x : alter f (length l) (l ++ [x]) = l ++ [f x].
Proof. induction l as [|y l IH]; [done|]. cbn. f_equal. apply IH. Qed.

Lemma stop_proc_last p0 s p :
  ps_procs p = ps_procs p0 ++ [s] ->
  exists s', ps_procs (stop_proc mc (length (ps_procs p0)) p).1 = ps_procs p0 ++ [s'] /\ put_down s'.
Proof.
  intros E. destruct (stop_proc_spec (length (ps_procs p0)) p) as (_ & _ & ok & Hp & _). rewrite E, alter_last in Hp.
  exists (killed_speeder ok s). split; [done|]. apply (stop_proc_down (length (ps_procs p0)) p).
  rewrite Hp. by rewrite lookup_app_r, Nat.sub_diag by lia.
Qed.

Lemma speeder_front_spec sc p p' r : speeder_front mc sc p = (p', r) ->
  framed p p' /\ ps_parts p' = ps_parts p /\
  match r with
  | inl (cfg, None) => cfg = sc /\ ps_procs p' = ps_procs p
  | inl (cfg, Some n) =>
      n = length (ps_procs p) /\ (exists port, cfg = tunnelled port sc) /\ exists s, ps_procs p' = ps_procs p ++ [s]
  | inr _ => ps_procs p' = ps_procs p \/ exists s, ps_procs p' = ps_procs p ++ [s] /\ put_down s
  end.
Proof.
  unfold speeder_front. destruct (negb _); [by intros [= <- <-]|].
  destruct (startUDPSpeeder mc sc p) as [p1 r1] eqn:E. apply startUDPSpeeder_spec in E as (Hf & Hp & Hr).
  destruct r1 as [[[n local]|]|e]; [|by intros [= <- <-]|by intros [= <- <-]; auto].
  destruct Hr as (-> & cfg & _ & Hr).
  destruct (stop_proc_last p _ p1 Hr) as (s' & Hs' & Hd).
  destruct (stop_proc_spec (length (ps_procs p)) p1) as (Hf' & Hp' & _).
  assert (forall e : server_err, framed p (stop_proc mc (length (ps_procs p)) p1).1 /\
    ps_parts (stop_proc mc (length (ps_procs p)) p1).1 = ps_parts p /\
    (ps_procs (stop_proc mc (length (ps_procs p)) p1).1 = ps_procs p \/
     exists s, ps_procs (stop_proc mc (length (ps_procs p)) p1).1 = ps_procs p ++ [s] /\ put_down s)) as Hbad.
  { intros _. split; [by etrans|]. split; [congruence|]. right. eauto. }
  destruct (split_port local); [|intros [= <- <-]; by apply (Hbad ErrNotRunning)].
  destruct (ParseInt _) as [port ok]. destruct ok; intros [= <- <-]; [|by apply (Hbad ErrNotRunning)].
  split; [done|]. split; [done|]. split; [done|]. split; [by eexists|]. by eexists.
Qed.

Lemma new_listener_spec id cfg p p' l : new_listener id cfg p = (p', l) ->
  framed p p' /\ ps_procs p' = ps_procs p /\ procs_of l = [] /\
  exists new, ps_parts p' = ps_parts p ++ new /\
    Forall (fun a => pt_server a = id /\ pt_open a = false /\ pt_config a = cfg) new /\
    (forall k, k ∈ parts_of l <-> (length (ps_parts p) <= k < length (ps_parts p'))%nat).
Proof.
  unfold new_listener, new_part. destruct (chosen_shape cfg) as [k|]; intros [= <- <-]; cbn.
  - split; [done|]. split; [done|]. split; [done|]. eexists. split; [done|]. split; [by repeat constructor|].
    intros x. rewrite length_app, list_elem_of_singleton. cbn. lia.
  - split; [done|]. split; [done|]. split; [done|]. eexists. rewrite <- app_assoc. split; [done|]. split; [by repeat constructor|].
    intros x. rewrite !elem_of_cons, !length_app. cbn. rewrite elem_of_nil. lia.
Qed.

(** ** The invariant *)

(** Every open part is a part of the listener registered for its server, every process that
    lives and was not killed in vain belongs to a registered listener; no two share. *)
Record server_inv (p : ProxyServer) : Prop := {
  si_open : forall q a, ps_parts p !! q = Some a -> pt_open a = true ->
    exists l, ps_listeners p !! pt_server a = Some l /\ q ∈ parts_of l;
  si_alive : forall n s, ps_procs p !! n = Some s -> sp_alive s = true ->
    sp_kill_failed s = true \/ exists id l, ps_listeners p !! id = Some l /\ n ∈ procs_of l;
  si_parts : forall id l q, ps_listeners p !! id = Some l -> q ∈ parts_of l ->
    exists a, ps_parts p !! q = Some a /\ pt_server a = id;
  si_procs : forall id l n, ps_listeners p !! id = Some l -> n ∈ procs_of l -> (n < length (ps_procs p))%nat;
  si_own : forall id id' l l' n, ps_listeners p !! id = Some l -> ps_listeners p !! id' = Some l' ->
    n ∈ procs_of l -> n ∈ procs_of l' -> id = id';
  si_sessions : sm_inv (ps_sessions p);
}.

(** Parts closed or rewritten in place, processes killed, listeners forgotten. *)
Record weakened (p p' : ProxyServer) : Prop := {
  wk_listeners : forall id l, ps_listeners p' !! id = Some l -> ps_listeners p !! id = Some l;
  wk_parts : forall q, pt_server <$> ps_parts p' !! q = pt_server <$> ps_parts p !! q;
  wk_open : forall q a', ps_parts p' !! q = Some a' -> pt_open a' = true ->
    exists a, ps_parts p !! q = Some a /\ pt_open a = true /\
      forall id l, ps_listeners p !! id = Some l -> q ∈ parts_of l -> ps_listeners p' !! id = Some l;
  wk_procs : length (ps_procs p') = length (ps_procs p);
  wk_alive : forall n s', ps_procs p' !! n = Some s' -> sp_alive s' = true -> sp_kill_failed s' = false ->
    exists s, ps_procs p !! n = Some s /\ sp_alive s = true /\ sp_kill_failed s = false /\
      forall id l, ps_listeners p !! id = Some l -> n ∈ procs_of l -> ps_listeners p' !! id = Some l;
}.

Lemma inv_weakened p p' : weakened p p' -> sm_inv (ps_sessions p') -> server_inv p -> server_inv p'.
Proof.
  intros [Hl Hp Ho Hlen Ha] Hsm [Io Ia Ip Ipr Iown _].
  assert (forall q a', ps_parts p' !! q = Some a' -> exists a, ps_parts p !! q = Some a /\ pt_server a = pt_server a') as Hback.
  { intros q a' Ha'. specialize (Hp q). rewrite Ha' in Hp. cbn in Hp. symmetry in Hp.
    apply fmap_Some in Hp as (a & ? & ?). eauto. }
  split; [| | | | |done].
  - intros q a' Ha' Hopen. destruct (Ho q a' Ha' Hopen) as (a & Hq & Hop & Hk).
    destruct (Hback q a' Ha') as (a2 & Hq2 & <-). assert (a2 = a) as -> by congruence.
    destruct (Io q a Hq Hop) as (l & Hlk & Hin). exists l. split; [by apply Hk|done].
  - intros n s' Hs' Hal. destruct (sp_kill_failed s') eqn:Hkf; [by left|right].
    destruct (Ha n s' Hs' Hal Hkf) as (s & Hs & H1 & H2 & Hk).
    destruct (Ia n s Hs H1) as [|(id & l & Hlk & Hin)]; [congruence|]. exists id, l. split; [by apply (Hk id l)|done].
  - intros id l q Hlk Hin. destruct (Ip id l q (Hl _ _ Hlk) Hin) as (a & Hq & <-).
    specialize (Hp q). rewrite Hq in Hp. cbn in Hp. apply fmap_Some in Hp as (a' & ? & ?). eauto.
  - intros id l n Hlk Hin. rewrite Hlen. by eapply Ipr; [apply Hl|].
  - intros id id' l l' n H1 H2. eapply Iown; by apply Hl.
Qed.

Lemma stop_listener_open l p q a' :
  ps_parts (stop_listener mc l p).1 !! q = Some a' -> pt_open a' = true -> q ∉ parts_of l /\ ps_parts p !! q = Some a'.
Proof.
  destruct (stop_listener_spec l p) as (_ & -> & _). destruct (decide _) as [|Hn]; [|done].
  intros (a & _ & ->)%fmap_Some. done.
Qed.

Lemma stop_listener_alive l p n s' :
  ps_procs (stop_listener mc l p).1 !! n = Some s' -> sp_alive s' = true -> sp_kill_failed s' = false ->
  n ∉ procs_of l /\ ps_procs p !! n = Some s'.
Proof.
  destruct (stop_listener_spec l p) as (_ & _ & _ & Hp & _). intros Hs Ha Hf.
  destruct (Hp _ _ Hs) as (s & Hs0 & _ & Hin & Hout). destruct (decide (n ∈ procs_of l)) as [Hn|Hn].
  - rewrite (Hin Hn Ha) in Hf. done.
  - by rewrite (Hout Hn).
Qed.

Lemma stop_listener_server l p q :
  pt_server <$> ps_parts (stop_listener mc l p).1 !! q = pt_server <$> ps_parts p !! q.
Proof.
  destruct (stop_listener_spec l p) as (_ & -> & _). destruct (decide _); [|done]. by destruct (ps_parts p !! q).
Qed.

(** Stopping a listener and forgetting it, or not. *)
Lemma weakened_stop l p (keep : gmap string listener) :
  (forall id k, keep !! id = Some k -> ps_listeners p !! id = Some k) ->
  (forall id k, ps_listeners p !! id = Some k -> keep !! id = None -> k = l) ->
  weakened p (set_listeners keep (stop_listener mc l p).1).
Proof.
  intros Hsub Hl. destruct (stop_listener_spec l p) as (Hf & Hparts & Hlen & _). split; cbn [ps_listeners ps_parts ps_procs set_listeners].
  - done.
  - intros q. apply stop_listener_server.
  - intros q a' Ha' Ho. destruct (stop_listener_open _ _ _ _ Ha' Ho) as [Hn Hq]. exists a'. split; [done|]. split; [done|].
    intros id k Hk Hin. destruct (keep !! id) as [k'|] eqn:E; [apply Hsub in E; congruence|].
    by rewrite (Hl _ _ Hk E) in Hin.
  - done.
  - intros n s' Hs Ha Hkf. destruct (stop_listener_alive _ _ _ _ Hs Ha Hkf) as [Hn Hs0]. exists s'. split_and!; try done.
    intros id k Hk Hin. destruct (keep !! id) as [k'|] eqn:E; [apply Hsub in E; congruence|].
    by rewrite (Hl _ _ Hk E) in Hin.
Qed.

Lemma stopListener_inv id p : server_inv p -> server_inv (stopListener mc id p).1.
Proof.
  intros Hi. unfold stopListener. destruct (ps_listeners p !! id) as [l|] eqn:E; [|done].
  destruct (stop_listener_spec l p) as ([Hfl _ Hfs _] & _).
  pose proof (weakened_stop l p) as Hw. destruct (stop_listener mc l p) as [p1 ok]. cbn [fst snd] in *.
  destruct ok; cbn [fst].
  - rewrite Hfl. apply (inv_weakened p); [|cbn; rewrite Hfs; apply Hi|done]. apply Hw.
    + intros i k Hk. by apply lookup_delete_Some in Hk as [_ ?].
    + intros i k Hk [->|?]%lookup_delete_None; congruence.
  - apply (inv_weakened p); [|rewrite Hfs; apply Hi|done].
    assert (p1 = set_listeners (ps_listeners p) p1) as -> by (destruct p1; cbn in *; by subst).
    apply Hw; [done|congruence].
Qed.

(** New cells behind the old ones, for a listener that is registered or for none. *)
Lemma inv_grown p p' id (l : option listener) :
  server_inv p -> ps_listeners p !! id = None ->
  ps_listeners p' = match l with Some k => <[id := k]> (ps_listeners p) | None => ps_listeners p end ->
  ps_sessions p' = ps_sessions p ->
  (forall q, (q < length (ps_parts p))%nat -> ps_parts p' !! q = ps_parts p !! q) ->
  (forall q a, (length (ps_parts p) <= q)%nat -> ps_parts p' !! q = Some a ->
     pt_server a = id /\ (pt_open a = true -> exists k, l = Some k /\ q ∈ parts_of k)) ->
  (forall k q, l = Some k -> q ∈ parts_of k -> (length (ps_parts p) <= q < length (ps_parts p'))%nat) ->
  (forall n, (n < length (ps_procs p))%nat -> ps_procs p' !! n = ps_procs p !! n) ->
  (length (ps_procs p) <= length (ps_procs p'))%nat ->
  (forall n s, (length (ps_procs p) <= n)%nat -> ps_procs p' !! n = Some s -> sp_alive s = true ->
     sp_kill_failed s = true \/ exists k, l = Some k /\ n ∈ procs_of k) ->
  (forall k n, l = Some k -> n ∈ procs_of k -> (length (ps_procs p) <= n < length (ps_procs p'))%nat) ->
  server_inv p'.
Proof.
  intros [Io Ia Ip Ipr Iown Ism] Hnone Hl Hs Hq Hnew Hrange Hn Hlen Hnewp Hrangep.
  assert (forall i k, ps_listeners p' !! i = Some k ->
    (i = id /\ l = Some k) \/ (i <> id /\ ps_listeners p !! i = Some k)) as Hcases.
  { intros i k. rewrite Hl. destruct l as [k'|].
    - intros [[<- <-]|[? ?]]%lookup_insert_Some; auto.
    - intros Hk. right. split; [by intros ->; congruence|done]. }
  assert (forall i k, ps_listeners p !! i = Some k -> ps_listeners p' !! i = Some k) as Hkeep.
  { intros i k Hk. rewrite Hl. destruct l; [|done]. rewrite lookup_insert_ne; [done|]. intros <-. congruence. }
  assert (forall k, l = Some k -> ps_listeners p' !! id = Some k) as Hnewl.
  { intros k ->. by rewrite Hl, lookup_insert_eq. }
  split.
  - intros q a Ha Hop. destruct (decide (q < length (ps_parts p)))%nat as [Hlt|Hge].
    + rewrite Hq in Ha by done. destruct (Io q a Ha Hop) as (k & Hk & Hin). exists k. auto.
    + destruct (Hnew q a ltac:(lia) Ha) as [-> Hk]. destruct (Hk Hop) as (k & -> & Hin). exists k. auto.
  - intros n s Ha Hal. destruct (decide (n < length (ps_procs p)))%nat as [Hlt|Hge].
    + rewrite Hn in Ha by done. destruct (Ia n s Ha Hal) as [|(i & k & Hk & Hin)]; [by left|right]. exists i, k. auto.
    + destruct (Hnewp n s ltac:(lia) Ha Hal) as [|(k & -> & Hin)]; [by left|right]. exists id, k. auto.
  - intros i k q Hk Hin. destruct (Hcases i k Hk) as [[-> Hl']|[Hne Hk']].
    + destruct (Hrange k q Hl' Hin) as [Hge Hlt]. apply lookup_lt_is_Some in Hlt as [a Ha]. exists a. split; [done|].
      by apply (Hnew q a).
    + destruct (Ip i k q Hk' Hin) as (a & Ha & Hsrv). exists a. split; [|done]. rewrite Hq; [done|]. by eapply lookup_lt_Some.
  - intros i k n Hk Hin. destruct (Hcases i k Hk) as [[-> Hl']|[Hne Hk']].
    + by apply (Hrangep k n Hl' Hin).
    + pose proof (Ipr i k n Hk' Hin). lia.
  - intros i j k k' n Hi Hj Hin Hin'. destruct (Hcases i k Hi) as [[-> Hl1]|[Hne1 Hk1]], (Hcases j k' Hj) as [[-> Hl2]|[Hne2 Hk2]]; [done| | |by eapply Iown].
    + pose proof (Hrangep _ _ Hl1 Hin). pose proof (Ipr _ _ _ Hk2 Hin'). lia.
    + pose proof (Hrangep _ _ Hl2 Hin'). pose proof (Ipr _ _ _ Hk1 Hin). lia.
  - by rewrite Hs.
Qed.

Lemma lookup_app_new {A} (l new : list A) k x : (l ++ new) !! k = Some x -> (length l <= k)%nat -> x ∈ new.
Proof. intros Hx Hk. rewrite lookup_app_r in Hx by done. by eapply list_elem_of_lookup_2. Qed.

(** What a start that got past the table does. *)
Record fresh_start (id : string) (p p' : ProxyServer) (l : option listener) : Prop := {
  fs_frame : ps_sessions p' = ps_sessions p /\ ps_running p' = ps_running p;
  fs_listeners : ps_listeners p' = match l with Some k => <[id := k]> (ps_listeners p) | None => ps_listeners p end;
  fs_parts : forall q, (q < length (ps_parts p))%nat -> ps_parts p' !! q = ps_parts p !! q;
  fs_new : forall q a, (length (ps_parts p) <= q)%nat -> ps_parts p' !! q = Some a ->
     pt_server a = id /\ (pt_open a = true -> exists k, l = Some k /\ q ∈ parts_of k);
  fs_range : forall k q, l = Some k -> q ∈ parts_of k -> (length (ps_parts p) <= q < length (ps_parts p'))%nat;
  fs_procs : forall n, (n < length (ps_procs p))%nat -> ps_procs p' !! n = ps_procs p !! n;
  fs_len : (length (ps_procs p) <= length (ps_procs p'))%nat;
  fs_newp : forall n s, (length (ps_procs p) <= n)%nat -> ps_procs p' !! n = Some s -> sp_alive s = true ->
     sp_kill_failed s = true \/ exists k, l = Some k /\ n ∈ procs_of k;
  fs_rangep : forall k n, l = Some k -> n ∈ procs_of k -> (length (ps_procs p) <= n < length (ps_procs p'))%nat;
}.

(** Nothing new but processes that were put down. *)
Lemma fresh_nothing id p p' :
  framed p p' -> ps_parts p' = ps_parts p ->
  (ps_procs p' = ps_procs p \/ exists s, ps_procs p' = ps_procs p ++ [s] /\ put_down s) ->
  fresh_start id p p' None.
Proof.
  intros [] Hp Hpr. split; try done.
  - intros q _. by rewrite Hp.
  - intros q a Hq Ha. rewrite Hp in Ha. apply lookup_lt_Some in Ha. lia.
  - intros n Hn. destruct Hpr as [->|(s & -> & _)]; [done|]. by rewrite lookup_app_l.
  - destruct Hpr as [->|(s & -> & _)]; [done|]. rewrite length_app. lia.
  - intros n s Hn Hs Ha. destruct Hpr as [E|(s' & E & Hd)]; rewrite E in Hs; [apply lookup_lt_Some in Hs; lia|].
    pose proof (lookup_app_new _ _ _ _ Hs Hn) as ->%list_elem_of_singleton. left. by apply Hd.
Qed.

Definition behind (cleanup : option proc_ptr) (inner : listener) : listener :=
  match cleanup with Some proc => LCleanup inner proc | None => inner end.

Lemma parts_of_behind cleanup inner : parts_of (behind cleanup inner) = parts_of inner.
Proof. by destruct cleanup. Qed.

(** A listener built and started: its parts are the new cells, closed when the start failed. *)
Lemma built_listener id cfg cleanup p1 p2 p3 inner ok :
  new_listener id cfg p1 = (p2, inner) -> start_listener mc (behind cleanup inner) p2 = (p3, ok) ->
  framed p1 p3 /\ ps_procs p3 = ps_procs p1 /\ procs_of inner = [] /\
  (forall q, (q < length (ps_parts p1))%nat -> ps_parts p3 !! q = ps_parts p1 !! q) /\
  (forall q a, (length (ps_parts p1) <= q)%nat -> ps_parts p3 !! q = Some a ->
     pt_server a = id /\ q ∈ parts_of inner /\ (ok = false -> pt_open a = false)) /\
  (forall q, q ∈ parts_of inner <-> (length (ps_parts p1) <= q < length (ps_parts p3))%nat).
Proof.
  intros (Hf2 & Hp2 & Hno & new & Hparts2 & Hnew & Hrange)%new_listener_spec
    (Hf3 & Hp3 & Hout & Hid & _ & Hbad)%start_listener_spec.
  rewrite parts_of_behind in *.
  assert (length (ps_parts p3) = length (ps_parts p2)) as Hlen3.
  { assert (part_id <$> ps_parts p3 = part_id <$> ps_parts p2) as El by (apply list_eq; intros k; by rewrite !list_lookup_fmap, Hid).
    apply (f_equal length) in El. by rewrite !length_fmap in El. }
  assert (forall q b, (length (ps_parts p1) <= q)%nat -> ps_parts p2 !! q = Some b -> pt_server b = id /\ pt_open b = false) as Hb2.
  { intros q b Hq Hb. rewrite Hparts2 in Hb. pose proof (lookup_app_new _ _ _ _ Hb Hq) as Hin.
    rewrite Forall_forall in Hnew. by destruct (Hnew b Hin) as (? & ? & _). }
  split; [by etrans|]. split; [congruence|]. split; [done|]. split; [|split].
  - intros q Hq. rewrite Hout by (rewrite Hrange; lia). by rewrite Hparts2, lookup_app_l.
  - intros q a Hq Ha. pose proof (lookup_lt_Some _ _ _ Ha) as Hlt. rewrite Hlen3 in Hlt.
    pose proof Hlt as [b Hb]%lookup_lt_is_Some. destruct (Hb2 q b Hq Hb) as [Hsrv _].
    assert (q ∈ parts_of inner) as Hin by by apply Hrange. split_and!; [|done|].
    + pose proof (Hid q) as Hx. rewrite Ha, Hb in Hx. cbn in Hx. unfold part_id in Hx. congruence.
    + intros ->. apply (Hbad eq_refl) with (k := q); [|done..]. intros k c Hk Hc. apply Hrange in Hk as [? _]. by apply (Hb2 k c).
  - intros q. by rewrite Hlen3.
Qed.

(** The start succeeded: the listener is registered. *)
Lemma registered_start id cfg cleanup p p1 p2 p3 inner :
  framed p p1 -> ps_parts p1 = ps_parts p ->
  match cleanup with
  | None => ps_procs p1 = ps_procs p
  | Some n => n = length (ps_procs p) /\ exists s, ps_procs p1 = ps_procs p ++ [s]
  end ->
  new_listener id cfg p1 = (p2, inner) -> start_listener mc (behind cleanup inner) p2 = (p3, true) ->
  fresh_start id p (set_listeners (<[id := behind cleanup inner]> (ps_listeners p3)) p3) (Some (behind cleanup inner)).
Proof.
  intros Hf1 Hp1 Hc Hnew Hst. destruct (built_listener _ _ _ _ _ _ _ _ Hnew Hst) as (Hf3 & Hp3 & Hno & Hold & Hfresh & Hrange).
  rewrite Hp1 in *. assert (framed p p3) as [Hfl Hfr Hfs _] by by etrans.
  split; cbn [set_listeners ps_sessions ps_running ps_listeners ps_parts ps_procs]; rewrite ?Hp3.
  - done.
  - by rewrite Hfl.
  - done.
  - intros q a Hq Ha. destruct (Hfresh q a Hq Ha) as (Hsrv & Hin & _). split; [done|]. intros _.
    exists (behind cleanup inner). by rewrite parts_of_behind.
  - intros k q [= <-] Hin. rewrite parts_of_behind in Hin. by apply Hrange.
  - intros n Hn. destruct cleanup as [m|]; [destruct Hc as (_ & s & ->); by rewrite lookup_app_l|by rewrite Hc].
  - destruct cleanup as [m|]; [destruct Hc as (_ & s & ->); rewrite length_app; lia|by rewrite Hc].
  - intros n s Hn Hs Ha. destruct cleanup as [m|]; [|rewrite Hc in Hs; apply lookup_lt_Some in Hs; lia].
    destruct Hc as (-> & s' & E). rewrite E in Hs. apply lookup_lt_Some in Hs. rewrite length_app in Hs. cbn in Hs.
    right. eexists. split; [done|]. replace n with (length (ps_procs p)) by lia. by constructor.
  - intros k n [= <-] Hin. destruct cleanup as [m|]; cbn in Hin; rewrite Hno in Hin; [|by apply elem_of_nil in Hin].
    apply list_elem_of_singleton in Hin as ->. destruct Hc as (-> & s' & ->). rewrite length_app. cbn. lia.
Qed.

(** The start failed: the process, if there is one, is put down. *)
Lemma failed_start id cfg cleanup p p1 p2 p3 inner :
  framed p p1 -> ps_parts p1 = ps_parts p ->
  match cleanup with
  | None => ps_procs p1 = ps_procs p
  | Some n => n = length (ps_procs p) /\ exists s, ps_procs p1 = ps_procs p ++ [s]
  end ->
  new_listener id cfg p1 = (p2, inner) -> start_listener mc (behind cleanup inner) p2 = (p3, false) ->
  fresh_start id p (match cleanup with Some proc => (stop_proc mc proc p3).1 | None => p3 end) None.
Proof.
  intros Hf1 Hp1 Hc Hnew Hst. destruct (built_listener _ _ _ _ _ _ _ _ Hnew Hst) as (Hf3 & Hp3 & Hno & Hold & Hfresh & Hrange).
  rewrite Hp1 in *. set (p4 := match cleanup with Some proc => _ | None => p3 end).
  assert (framed p3 p4 /\ ps_parts p4 = ps_parts p3 /\
    (ps_procs p4 = ps_procs p \/ exists s, ps_procs p4 = ps_procs p ++ [s] /\ put_down s)) as (Hf4 & Hp4 & Hpr4).
  { unfold p4. destruct cleanup as [n|]; [|split; [done|]; split; [done|]; left; congruence].
    destruct Hc as (-> & s & Hs). destruct (stop_proc_spec (length (ps_procs p)) p3) as (? & ? & _).
    split; [done|]. split; [done|]. right. apply (stop_proc_last p s). congruence. }
  assert (framed p p4) as Hf by (etrans; [done|]; by etrans).
  assert (framed p (set_parts (ps_parts p) p4)) as Hf' by (destruct Hf; by split).
  destruct (fresh_nothing id p _ Hf' eq_refl Hpr4) as [Ha1 Ha2 _ _ _ Ha6 Ha7 Ha8 _].
  split; try done.
  - intros q Hq. rewrite Hp4. by apply Hold.
  - intros q a Hq Ha. rewrite Hp4 in Ha. destruct (Hfresh q a Hq Ha) as (Hsrv & _ & Hcl). split; [done|].
    intros Ho. by rewrite (Hcl eq_refl) in Ho.
Qed.

Lemma startListener_spec sc p :
  (exists k, ps_listeners p !! sc_ID sc = Some k /\ startListener mc sc p = (p, Some (ErrListenerExists (sc_ID sc)))) \/
  (ps_listeners p !! sc_ID sc = None /\ exists l, fresh_start (sc_ID sc) p (startListener mc sc p).1 l /\
    ((startListener mc sc p).2 = None <-> is_Some l)).
Proof.
  unfold startListener. destruct (ps_listeners p !! sc_ID sc) as [k|] eqn:Hnone; [left; by exists k|right]. split; [done|].
  destruct (speeder_front mc sc p) as [p1 r] eqn:E1. apply speeder_front_spec in E1 as (Hf1 & Hp1 & Hr1).
  destruct r as [[cfg cleanup]|e].
  2: { exists None. cbn. split; [by apply fresh_nothing|]. split; [done|by intros [? ?]]. }
  destruct (new_listener (sc_ID sc) cfg p1) as [p2 inner] eqn:E2. fold (behind cleanup inner).
  destruct (start_listener mc (behind cleanup inner) p2) as [p3 ok] eqn:E3.
  assert (match cleanup with
          | None => ps_procs p1 = ps_procs p
          | Some n => n = length (ps_procs p) /\ exists s, ps_procs p1 = ps_procs p ++ [s]
          end) as Hc by (destruct cleanup; naive_solver).
  destruct ok; cbn [fst snd].
  - exists (Some (behind cleanup inner)). split; [by eapply registered_start|]. split; [by eexists|done].
  - exists None. split; [by eapply failed_start|]. split; [done|by intros [? ?]].
Qed.

Lemma startListener_inv sc p : server_inv p -> server_inv (startListener mc sc p).1.
Proof.
  intros Hi. destruct (startListener_spec sc p) as [(k & _ & ->)|(Hnone & l & [[Hs _] Hl Hp Hn Hr Hpr Hlen Hnp Hrp] & _)]; [done|].
  by apply (inv_grown p _ (sc_ID sc) l).
Qed.

(** The loop over the listeners: what is still open belongs to none of those visited. *)
Definition stop_visit (p : ProxyServer) (id : string) : ProxyServer :=
  match ps_listeners p !! id with Some l => (stop_listener mc l p).1 | None => p end.

Lemma stop_visits order : forall p,
  framed p (fold_left stop_visit order p) /\
  length (ps_procs (fold_left stop_visit order p)) = length (ps_procs p) /\
  (forall q, pt_server <$> ps_parts (fold_left stop_visit order p) !! q = pt_server <$> ps_parts p !! q) /\
  (forall q a, ps_parts (fold_left stop_visit order p) !! q = Some a -> pt_open a = true ->
     ps_parts p !! q = Some a /\ forall id l, id ∈ order -> ps_listeners p !! id = Some l -> q ∉ parts_of l) /\
  (forall n s, ps_procs (fold_left stop_visit order p) !! n = Some s -> sp_alive s = true -> sp_kill_failed s = false ->
     ps_procs p !! n = Some s /\ forall id l, id ∈ order -> ps_listeners p !! id = Some l -> n ∉ procs_of l).
Proof.
  induction order as [|id order IH]; intros p; cbn [fold_left].
  { split_and!; try done; intros ? ? ? ?; (split; [done|]); by intros ? ? ?%elem_of_nil. }
  destruct (IH (stop_visit p id)) as (Hf & Hlen & Hsrv & Ho & Ha).
  assert (framed p (stop_visit p id)) as Hf1.
  { unfold stop_visit. destruct (_ !! id); [apply stop_listener_spec|done]. }
  assert (forall q, pt_server <$> ps_parts (stop_visit p id) !! q = pt_server <$> ps_parts p !! q) as Hsrv1.
  { intros q. unfold stop_visit. destruct (_ !! id); [apply stop_listener_server|done]. }
  split; [by etrans|]. split; [|split; [intros q; by rewrite Hsrv|split]].
  - rewrite Hlen. unfold stop_visit. destruct (_ !! id) as [l|]; [|done]. by destruct (stop_listener_spec l p) as (_ & _ & ? & _).
  - intros q a Hq Hop. destruct (Ho q a Hq Hop) as [Hq1 Hn]. rewrite (fr_listeners _ _ Hf1) in Hn. unfold stop_visit in Hq1.
    destruct (ps_listeners p !! id) as [l|] eqn:E.
    + destruct (stop_listener_open _ _ _ _ Hq1 Hop) as [Hnot Hq0]. split; [done|]. intros i k [->|Hi]%elem_of_cons Hk; [congruence|by eapply Hn].
    + split; [done|]. intros i k [->|Hi]%elem_of_cons Hk; [congruence|by eapply Hn].
  - intros n s Hs Hal Hkf. destruct (Ha n s Hs Hal Hkf) as [Hs1 Hn]. rewrite (fr_listeners _ _ Hf1) in Hn. unfold stop_visit in Hs1.
    destruct (ps_listeners p !! id) as [l|] eqn:E.
    + destruct (stop_listener_alive _ _ _ _ Hs1 Hal Hkf) as [Hnot Hs0]. split; [done|]. intros i k [->|Hi]%elem_of_cons Hk; [congruence|by eapply Hn].
    + split; [done|]. intros i k [->|Hi]%elem_of_cons Hk; [congruence|by eapply Hn].
Qed.

Lemma stop_all_visits order p : stop_all mc order p = set_listeners ∅ (fold_left stop_visit order p).
Proof. reflexivity. Qed.

Lemma stop_all_inv order p : order ≡ₚ (map_to_list (ps_listeners p)).*1 -> server_inv p -> server_inv (stop_all mc order p).
Proof.
  intros Hord Hi. rewrite stop_all_visits. destruct (stop_visits order p) as ([Hfl Hfr Hfs _] & Hlen & Hsrv & Ho & Ha).
  apply (inv_weakened p); [|cbn; rewrite Hfs; apply Hi|done]. split; cbn [set_listeners ps_listeners ps_parts ps_procs].
  - intros id l. by rewrite lookup_empty.
  - done.
  - intros q a Hq Hop. destruct (Ho q a Hq Hop) as [Hq0 Hn]. exists a. split; [done|]. split; [done|].
    intros id l Hl Hin. destruct (Hn id l (order_covers _ _ _ _ Hord Hl) Hl Hin).
  - done.
  - intros n s Hs Hal Hkf. destruct (Ha n s Hs Hal Hkf) as [Hs0 Hn]. exists s. split_and!; try done.
    intros id l Hl Hin. destruct (Hn id l (order_covers _ _ _ _ Hord Hl) Hl Hin).
Qed.

Lemma stop_parts_inv qs p : server_inv p -> server_inv (stop_parts mc qs p).
Proof.
  intros Hi. destruct (stop_parts_spec qs p) as ([Hfl Hfr Hfs _] & Hp & Hl).
  apply (inv_weakened p); [|rewrite Hfs; apply Hi|done]. split; rewrite ?Hfl, ?Hp; try done.
  - intros q. rewrite Hl. destruct (decide _); [|done]. by destruct (ps_parts p !! q).
  - intros q a Hq Hop. rewrite Hl in Hq. destruct (decide _); [|by exists a]. apply fmap_Some in Hq as (b & _ & ->). done.
  - intros n s Hs Ha Hk. exists s. by split_and!.
Qed.

Lemma update_part_same sc a : pt_server (update_part sc a) = pt_server a /\ pt_open (update_part sc a) = pt_open a /\
  pt_kind (update_part sc a) = pt_kind a /\ pt_bound (update_part sc a) = pt_bound a.
Proof. unfold update_part. by destruct (updatable _). Qed.

(** The parts an update reaches. *)
Definition updated_parts (l : listener) : list part_ptr := match l with LCleanup _ _ => [] | _ => parts_of l end.

(** An update in place: sockets, servers and kinds stay. *)
Lemma update_listener_spec sc l p :
  framed p (update_listener sc l p) /\ ps_procs (update_listener sc l p) = ps_procs p /\
  forall k, ps_parts (update_listener sc l p) !! k =
    if decide (k ∈ updated_parts l) then update_part sc <$> (ps_parts p !! k) else ps_parts p !! k.
Proof.
  assert (forall a, update_part sc (update_part sc a) = update_part sc a) as Hidem.
  { intros a. unfold update_part. destruct (updatable (pt_kind a)) eqn:E; cbn; by rewrite E. }
  destruct l as [q|qs|inner n]; cbn [update_listener updated_parts parts_of]; [| |by split_and!].
  - split; [done|]. split; [done|]. intros k. rewrite on_part_lookup, decide_cons. by destruct (decide (k = q)).
  - revert p. induction qs as [|q qs IH]; intros p; cbn [fold_left]; [by split_and!|].
    destruct (IH (on_part q (update_part sc) p)) as (Hf & Hp & Hl). split; [by destruct Hf|]. split; [done|].
    intros k. rewrite Hl, on_part_lookup, decide_cons. destruct (decide (k = q)), (decide (k ∈ qs)); try done.
    destruct (ps_parts p !! k); [|done]. cbn. by rewrite Hidem.
Qed.

Lemma update_listener_inv sc l p : server_inv p -> server_inv (update_listener sc l p).
Proof.
  intros Hi. destruct (update_listener_spec sc l p) as ([Hfl Hfr Hfs _] & Hp & Hl).
  assert (forall q, exists f : part -> part, ps_parts (update_listener sc l p) !! q = f <$> ps_parts p !! q /\
    forall a, pt_server (f a) = pt_server a /\ pt_open (f a) = pt_open a) as Hsame.
  { intros q. rewrite Hl. destruct (decide _).
    - exists (update_part sc). split; [done|]. intros a. by destruct (update_part_same sc a) as (? & ? & _).
    - exists id. split; [by destruct (ps_parts p !! q)|done]. }
  apply (inv_weakened p); [|rewrite Hfs; apply Hi|done]. split; rewrite ?Hfl, ?Hp; try done.
  - intros q. destruct (Hsame q) as (f & -> & Hf). destruct (ps_parts p !! q) as [a|]; [|done]. cbn. f_equal. apply Hf.
  - intros q a' Hq Hop. destruct (Hsame q) as (f & E & Hf). rewrite E in Hq. apply fmap_Some in Hq as (a & Ha & ->).
    exists a. split; [done|]. split; [|done]. rewrite <- Hop. symmetry. apply Hf.
  - intros n s Hs Ha Hk. exists s. by split_and!.
Qed.

Lemma server_step_inv p p' : server_step mc p p' -> server_inv p -> server_inv p'.
Proof.
  intros [] Hi.
  - by destruct Hi.
  - by apply startListener_inv.
  - by apply stopListener_inv.
  - by apply stop_all_inv.
  - by apply update_listener_inv.
  - by apply stop_parts_inv.
  - destruct Hi as [? ? ? ? ? Hsm]. split; try done. by eapply inv_step.
Qed.

Lemma NewProxyServer_inv gc acl verifier outbound sm : sm_inv sm -> server_inv (NewProxyServer gc acl verifier outbound sm).
Proof.
  intros Hsm. split; cbn; try done; by intros *; rewrite lookup_empty.
Qed.

Lemma server_reachable_inv p p' : rtc (server_step mc) p p' -> server_inv p -> server_inv p'.
Proof. induction 1; eauto using server_step_inv. Qed.

(** The sessions change by the steps of their manager only, and the callback stays. *)
Lemma server_step_callback p p' : server_step mc p p' -> OnSessionEnd (ps_sessions p') = OnSessionEnd (ps_sessions p).
Proof.
  assert (forall q q', framed q q' -> OnSessionEnd (ps_sessions q') = OnSessionEnd (ps_sessions q)) as Hf by (intros ? ? [_ _ -> _]; done).
  intros [q b|q sc|q id|q order _|q l sc|q qs|q sm Hs].
  - done.
  - destruct (startListener_spec sc q) as [(k & _ & ->)|(_ & l & [[-> _] _ _ _ _ _ _ _ _] & _)]; done.
  - unfold stopListener. destruct (ps_listeners q !! id) as [l|]; [|done].
    destruct (stop_listener_spec l q) as [Hl _]. destruct (stop_listener mc l q) as [q1 ok]. destruct ok; exact (Hf _ _ Hl).
  - rewrite stop_all_visits. exact (Hf _ _ (proj1 (stop_visits order q))).
  - exact (Hf _ _ (proj1 (update_listener_spec sc l q))).
  - exact (Hf _ _ (proj1 (stop_parts_spec qs q))).
  - by apply step_callback.
Qed.

(** ** Operations are made of steps *)

Lemma start_enabled_steps l : forall p, rtc (server_step mc) p (fold_left (start_enabled mc) l p).
Proof.
  induction l as [|sc l IH]; intros p; cbn [fold_left]; [done|]. etrans; [|apply IH]. unfold start_enabled.
  destruct (sc_Enabled sc); [apply rtc_once, step_start_listener|done].
Qed.

Lemma Start_steps cm order p : rtc (server_step mc) p (ps_Start mc cm order p).1.
Proof.
  unfold ps_Start. destruct (ps_running p); [done|]. cbn [fst]. eapply rtc_l; [apply (step_flag mc p true)|]. apply start_enabled_steps.
Qed.

Lemma removals_steps p (ls : list string) sm : sm = remove_all (ps_sessions p) ls ->
  rtc (server_step mc) p (set_ps_sessions sm p).
Proof.
  revert p sm. induction ls as [|a ls IH]; intros p sm ->.
  - by destruct p.
  - eapply rtc_l; [apply step_sessions, (step_Remove _ a)|].
    exact (IH (set_ps_sessions (Remove (ps_sessions p) a).1 p) _ eq_refl).
Qed.

Lemma Stop_steps order clients p : order ≡ₚ (map_to_list (ps_listeners p)).*1 -> rtc (server_step mc) p (ps_Stop mc order clients p).1.
Proof.
  intros Hord. unfold ps_Stop. destruct (negb _); [done|]. cbn [fst].
  eapply rtc_l; [apply (step_flag mc p false)|]. eapply rtc_l; [by apply (step_stop_all mc _ order)|].
  generalize (stop_all mc order (set_running false p)). intros q.
  assert (exists ls, end_sessions clients (ps_sessions q) = remove_all (ps_sessions q) ls) as [ls E].
  { unfold end_sessions. generalize (GetAllSessions (ps_sessions q) clients). intros l. generalize (ps_sessions q).
    induction l as [|x l IH]; intros sm; [by exists []|]. cbn [fold_left].
    destruct (heap sm !! x) as [s|]; [|apply IH]. destruct (IH (Remove sm (ClientAddr s)).1) as [ls ->]. by exists (ClientAddr s :: ls). }
  by apply (removals_steps q ls).
Qed.

Lemma follow_config_steps current l : forall p, rtc (server_step mc) p (fold_left (follow_config mc current) l p).
Proof.
  induction l as [|sc l IH]; intros p; cbn [fold_left]; [done|]. etrans; [|apply IH]. unfold follow_config.
  destruct (negb _); [done|]. destruct (current !! sc_ID sc) as [k|]; [|apply rtc_once, step_start_listener].
  destruct (negb _); [|apply rtc_once, step_update].
  pose proof (step_stop_listener mc p (sc_ID sc)) as Hs. destruct (stopListener mc (sc_ID sc) p) as [p1 [e|]]; cbn [fst] in *.
  - by apply rtc_once.
  - eapply rtc_l; [done|]. apply rtc_once, step_start_listener.
Qed.

Lemma Reload_steps cm order keys p : rtc (server_step mc) p (ps_Reload mc cm order keys p).1.
Proof.
  unfold ps_Reload. destruct (negb _); [done|]. cbn [fst]. etrans; [|apply follow_config_steps].
  assert (forall l p, rtc (server_step mc) p (fold_left (stop_if_gone mc cm) l p)) as Hst; [|apply Hst].
  clear p. induction l as [|id l IH]; intros p; cbn [fold_left]; [done|]. etrans; [|apply IH]. unfold stop_if_gone.
  repeat case_match; try done; apply rtc_once, step_stop_listener.
Qed.

(** C8: sockets and processes over everything that can happen to a server, failures included: each
    open socket belongs to the listener registered for its server and to no other, and
    each process of a UDP speeder that is alive belongs to one registered listener
    unless the kill of it failed. *)
Theorem servers_accounted (gc : option GlobalConfig) (acl verifier outbound : bool) (sm : SessionManager) (p : ProxyServer) :
  sm_inv sm -> rtc (server_step mc) (NewProxyServer gc acl verifier outbound sm) p ->
  (forall q a, ps_parts p !! q = Some a -> pt_open a = true ->
     exists l, ps_listeners p !! pt_server a = Some l /\ q ∈ parts_of l /\
       forall id k, ps_listeners p !! id = Some k -> q ∈ parts_of k -> id = pt_server a) /\
  (forall n s, ps_procs p !! n = Some s -> sp_alive s = true -> sp_kill_failed s = false ->
     exists id l, ps_listeners p !! id = Some l /\ n ∈ procs_of l /\
       forall id' k, ps_listeners p !! id' = Some k -> n ∈ procs_of k -> id' = id).
Proof.
  intros Hsm Hr. assert (server_inv p) as [Io Ia Ip _ Iown _] by (eapply server_reachable_inv; [done|by apply NewProxyServer_inv]).
  split.
  - intros q a Hq Ho. destruct (Io q a Hq Ho) as (l & Hl & Hin). exists l. split; [done|]. split; [done|].
    intros id k Hk Hin'. destruct (Ip id k q Hk Hin') as (b & Hb & <-). congruence.
  - intros n s Hs Ha Hf. destruct (Ia n s Hs Ha) as [|(id & l & Hl & Hin)]; [congruence|]. exists id, l.
    split; [done|]. split; [done|]. intros id' k Hk Hin'. symmetry. by eapply (Iown id id').
Qed.

(** ** What a reload does to one server *)

(** The listener of a server and the state of its parts. *)
Definition server_view (p : ProxyServer) (id : string) : option (listener * list (option part)) :=
  (fun l => (l, (fun q => ps_parts p !! q) <$> parts_of l)) <$> ps_listeners p !! id.

Lemma view_none p id : server_view p id = None <-> ps_listeners p !! id = None.
Proof. unfold server_view. destruct (_ !! id); by cbn. Qed.

Lemma view_same p p' id :
  ps_listeners p' !! id = ps_listeners p !! id ->
  (forall l q, ps_listeners p !! id = Some l -> q ∈ parts_of l -> ps_parts p' !! q = ps_parts p !! q) ->
  server_view p' id = server_view p id.
Proof.
  intros El Hq. unfold server_view. rewrite El. destruct (ps_listeners p !! id) as [l|]; [|done]. cbn. f_equal. f_equal.
  apply list_fmap_ext. intros i q Hi. apply (Hq l q eq_refl). by eapply list_elem_of_lookup_2.
Qed.

(** The parts of another server are not those of the listener. *)
Lemma parts_apart p id id' l l' q :
  server_inv p -> ps_listeners p !! id = Some l -> ps_listeners p !! id' = Some l' ->
  q ∈ parts_of l -> q ∈ parts_of l' -> id = id'.
Proof.
  intros Hi Hl Hl' Hq Hq'. destruct (si_parts _ Hi _ _ _ Hl Hq) as (a & Ha & <-).
  destruct (si_parts _ Hi _ _ _ Hl' Hq') as (b & Hb & <-). congruence.
Qed.

Lemma stopListener_view id p k : server_inv p -> k <> id -> server_view (stopListener mc id p).1 k = server_view p k.
Proof.
  intros Hi Hne. unfold stopListener. destruct (ps_listeners p !! id) as [l|] eqn:E; [|done].
  destruct (stop_listener_spec l p) as ([Hfl _ _ _] & Hp & _). destruct (stop_listener mc l p) as [p1 ok]. cbn [fst snd] in *.
  assert (forall l' q, ps_listeners p !! k = Some l' -> q ∈ parts_of l' -> ps_parts p1 !! q = ps_parts p !! q) as Hq.
  { intros l' q Hk Hq. rewrite Hp, decide_False; [done|]. intros Hq'. by apply Hne, (parts_apart p k id l' l q). }
  destruct ok; cbn [fst]; apply view_same; cbn [set_listeners ps_listeners ps_parts]; try done; rewrite Hfl; [|done].
  by rewrite lookup_delete_ne.
Qed.

Lemma startListener_view sc p k : server_inv p -> k <> sc_ID sc -> server_view (startListener mc sc p).1 k = server_view p k.
Proof.
  intros Hi Hne. destruct (startListener_spec sc p) as [(k' & _ & ->)|(Hnone & l & [_ Hl Hp _ _ _ _ _ _] & _)]; [done|].
  apply view_same; [rewrite Hl; destruct l; [by rewrite lookup_insert_ne|done]|]. intros l' q Hl' Hq. apply Hp.
  destruct (si_parts _ Hi _ _ _ Hl' Hq) as (a & Ha & _). by eapply lookup_lt_Some.
Qed.

Lemma updated_parts_sub l q : q ∈ updated_parts l -> q ∈ parts_of l.
Proof. destruct l; cbn; [done..|]. by intros ?%elem_of_nil. Qed.

Lemma update_listener_view sc l p id k :
  server_inv p -> ps_listeners p !! id = Some l -> k <> id -> server_view (update_listener sc l p) k = server_view p k.
Proof.
  intros Hi Hl Hne. destruct (update_listener_spec sc l p) as ([Hfl _ _ _] & _ & Hp). apply view_same; [by rewrite Hfl|].
  intros l' q Hl' Hq. rewrite Hp, decide_False; [done|]. intros Hq'%updated_parts_sub. by apply Hne, (parts_apart p k id l' l q).
Qed.

(** ** Kinds *)

Definition shape_kind (s : shape) : string :=
  match s with One k => kind_name k | TcpAndUdp => "tcp_udp" end%string.

(** The two choices agree. *)
Lemma kinds_agree cfg : shape_kind (chosen_shape cfg) = listenerKindFromConfig cfg.
Proof.
  unfold chosen_shape, listenerKindFromConfig. cbv zeta.
  destruct (negb _ && negb _); [do 3 (destruct (String.eqb (to_lower _) _); [done|])|];
    do 4 (destruct (String.eqb (GetProxyMode cfg) _); [done|]); done.
Qed.

Definition view_kind (v : option (listener * list (option part))) : string :=
  match v with
  | Some (LPart _, [Some a]) => kind_name (pt_kind a)
  | Some (LCombined _, _) => "tcp_udp"
  | Some (LCleanup _ _, _) => "*proxy.listenerWithCleanup"
  | _ => ""
  end%string.

Lemma listenerKind_view p id l : ps_listeners p !! id = Some l -> listenerKind p l = view_kind (server_view p id).
Proof. unfold server_view. intros ->. destruct l as [q| |]; cbn; [|done|done]. by destruct (ps_parts p !! q). Qed.

(** ** A machine that refuses nothing *)

Definition willing : Prop :=
  (forall n, m_bind mc n = true) /\ (forall n, m_close mc n = true) /\ (forall n, m_kill mc n = true).

(** The state of a running listener of the configuration. *)
Definition serves (sc : ServerConfig) (v : option (listener * list (option part))) : Prop :=
  exists l parts, v = Some (l, parts) /\ view_kind v = listenerKindFromConfig sc /\
    Forall (fun o => exists a, o = Some a /\ pt_open a = true /\ (updatable (pt_kind a) = true -> pt_config a = sc)) parts.

Definition view_open (v : option (listener * list (option part))) : Prop :=
  forall l parts, v = Some (l, parts) -> Forall (fun o => exists a, o = Some a /\ pt_open a = true) parts.

Lemma stop_listener_works l : forall p, willing ->
  (forall q, q ∈ parts_of l -> exists a, ps_parts p !! q = Some a /\ pt_open a = true) -> (stop_listener mc l p).2 = true.
Proof.
  induction l as [q|qs|inner IH n]; intros p (Hb & Hc & Hk) Ho; cbn [stop_listener parts_of] in *.
  - destruct (Ho q) as (a & Ha & Hop); [by constructor|]. unfold stop_part. rewrite Ha. cbn [snd]. rewrite Hc, Hop. by destruct (pt_kind a).
  - done.
  - specialize (IH p (conj Hb (conj Hc Hk)) Ho). destruct (stop_listener mc inner p) as [p1 ok]. cbn in IH. subst ok.
    unfold stop_proc. rewrite Hk. done.
Qed.

Lemma stopListener_works id p : willing -> view_open (server_view p id) ->
  server_view (stopListener mc id p).1 id = None /\
  (stopListener mc id p).2 = if server_view p id then None else Some (ErrListenerNotFound id).
Proof.
  intros Hw Ho. unfold stopListener, server_view in *. destruct (ps_listeners p !! id) as [l|] eqn:E; [|cbn; by rewrite E].
  assert ((stop_listener mc l p).2 = true) as Hok.
  { apply stop_listener_works; [done|]. intros q Hq. specialize (Ho l _ eq_refl). rewrite Forall_forall in Ho.
    apply (Ho (ps_parts p !! q)). by apply (list_elem_of_fmap_2 (fun q => ps_parts p !! q)). }
  destruct (stop_listener mc l p) as [p1 ok]. cbn in Hok. subst ok. cbn [fst snd set_listeners ps_listeners].
  by rewrite lookup_delete_eq.
Qed.

Lemma start_parts_willing qs : forall started p, willing -> (start_parts mc started qs p).2 = true.
Proof.
  induction qs as [|q qs IH]; intros started p Hw; cbn [start_parts]; [done|].
  destruct Hw as (Hb & Hc & Hk). unfold start_part. rewrite Hb. apply IH. done.
Qed.

(** Without a speeder the listener is built from the configuration itself. *)
Lemma startListener_works sc p : willing -> speeder_enabled sc = false -> ps_listeners p !! sc_ID sc = None ->
  serves sc (server_view (startListener mc sc p).1 (sc_ID sc)).
Proof.
  intros Hw Hsp Hnone. unfold startListener. rewrite Hnone. unfold speeder_front. rewrite Hsp. cbn [negb].
  destruct (new_listener (sc_ID sc) sc p) as [p2 l] eqn:E2.
  assert (listenerKind p2 l = listenerKindFromConfig sc) as Hkind.
  { rewrite <- kinds_agree. unfold new_listener, new_part in E2. destruct (chosen_shape sc); injection E2 as <- <-; cbn [listenerKind]; [|done].
    cbn. by rewrite lookup_app_r, Nat.sub_diag by lia. }
  assert (Forall (fun a => pt_config a = sc) (drop (length (ps_parts p)) (ps_parts p2))) as Hcfg.
  { apply new_listener_spec in E2 as (_ & _ & _ & new & -> & Hnew & _). rewrite drop_app_length.
    eapply Forall_impl; [done|]. by intros a (_ & _ & ?). }
  apply new_listener_spec in E2 as (Hf2 & _ & Hno & new & Hp2 & Hnew & Hrange).
  destruct (start_listener mc l p2) as [p3 ok] eqn:E3.
  assert (ok = true) as ->.
  { destruct l as [q|qs|]; cbn [start_listener] in E3; [| |done].
    - unfold start_part in E3. destruct Hw as (Hb & _). cbv zeta in E3. rewrite Hb in E3. by injection E3.
    - pose proof (start_parts_willing qs [] p2 Hw) as Hs. rewrite E3 in Hs. done. }
  apply start_listener_spec in E3 as ([Hfl3 _ _ _] & _ & _ & _ & Hok & _). specialize (Hok eq_refl).
  cbn [fst]. unfold server_view. cbn [set_listeners ps_listeners ps_parts]. rewrite lookup_insert_eq. cbn [fmap option_fmap option_map].
  set (parts := (fun q => ps_parts p3 !! q) <$> parts_of l). exists l, parts. split; [done|]. split.
  - rewrite <- Hkind. destruct l as [q| |]; cbn in *; [|done..]. unfold parts. cbn. rewrite Hok, decide_True by by constructor.
    by destruct (ps_parts p2 !! q).
  - apply Forall_fmap, Forall_forall. intros q Hq. cbn. rewrite Hok, decide_True by done.
    apply Hrange in Hq as [Hge Hlt]. apply lookup_lt_is_Some in Hlt as [a Ha]. rewrite Ha. cbn. exists (opened_part a).
    split; [done|]. split; [done|]. intros _. rewrite Forall_forall in Hcfg.
    change (pt_config a = sc). apply Hcfg.
    rewrite Hp2, drop_app_length. rewrite Hp2 in Ha. by apply (lookup_app_new _ _ _ _ Ha).
Qed.

Lemma not_wrapped sc : listenerKindFromConfig sc <> "*proxy.listenerWithCleanup"%string.
Proof. rewrite <- kinds_agree. by destruct (chosen_shape sc) as [[]|]. Qed.

(** An update in place makes a listener of the right kind serve the configuration. *)
Lemma update_serves sc l p id :
  ps_listeners p !! id = Some l -> view_open (server_view p id) -> view_kind (server_view p id) = listenerKindFromConfig sc ->
  serves sc (server_view (update_listener sc l p) id).
Proof.
  intros Hl Ho Hk. destruct (update_listener_spec sc l p) as ([Hfl _ _ _] & _ & Hp).
  assert (updated_parts l = parts_of l) as Eu.
  { unfold server_view in Hk. rewrite Hl in Hk. destruct l; try done. by destruct (not_wrapped sc). }
  rewrite Eu in Hp. unfold server_view in *. rewrite Hfl, Hl in *. cbn [fmap option_fmap option_map] in *.
  specialize (Ho _ _ eq_refl). eexists l, _. split; [done|]. split.
  - rewrite <- Hk. destruct l as [q| |]; cbn; [|done..]. rewrite Hp, decide_True by by constructor.
    destruct (ps_parts p !! q) as [a|]; [|done]. cbn. by destruct (update_part_same sc a) as (_ & _ & -> & _).
  - apply Forall_fmap, Forall_forall. intros q Hq. cbn. rewrite Hp, decide_True by done.
    rewrite Forall_forall in Ho. destruct (Ho (ps_parts p !! q)) as (a & -> & Hop);
      [by apply (list_elem_of_fmap_2 (fun q => ps_parts p !! q))|].
    cbn. exists (update_part sc a). destruct (update_part_same sc a) as (_ & -> & -> & _). split; [done|]. split; [done|].
    unfold update_part. by intros ->.
Qed.

Lemma GetAllServers_ids cm order :
  (forall id sc, cm_servers cm !! id = Some sc -> sc_ID sc = id) ->
  (forall id, id ∈ order -> is_Some (cm_servers cm !! id)) -> sc_ID <$> GetAllServers cm order = order.
Proof.
  intros Hid Hin. unfold GetAllServers. induction order as [|id order IH]; [done|]. cbn.
  destruct (Hin id) as [sc Hsc]; [by constructor|]. rewrite Hsc. cbn. rewrite (Hid id sc Hsc). f_equal.
  apply IH. intros k Hk. apply Hin. by constructor.
Qed.

Lemma GetAllServers_in cm order sc : sc ∈ GetAllServers cm order <-> exists id, id ∈ order /\ cm_servers cm !! id = Some sc.
Proof. unfold GetAllServers. apply list_elem_of_omap. Qed.

(** A configuration as [Reload] reads it, each server under its id, visited once. *)
Definition visits_all (cm : ConfigManager) (order : list string) : Prop :=
  order ≡ₚ (map_to_list (cm_servers cm)).*1 /\ forall id sc, cm_servers cm !! id = Some sc -> sc_ID sc = id.

Lemma visits_ids cm order : visits_all cm order -> sc_ID <$> GetAllServers cm order = order.
Proof.
  intros [Hord Hid]. apply GetAllServers_ids; [done|]. intros id Hin. rewrite Hord in Hin.
  apply list_elem_of_fmap in Hin as ([k sc] & -> & Hk%elem_of_map_to_list). by exists sc.
Qed.

Lemma visits_nodup cm order : visits_all cm order -> NoDup (sc_ID <$> GetAllServers cm order).
Proof. intros Hv. rewrite visits_ids by done. destruct Hv as [-> _]. apply NoDup_fst_map_to_list. Qed.

Lemma visits_in cm order sc : visits_all cm order -> sc ∈ GetAllServers cm order <-> cm_servers cm !! sc_ID sc = Some sc.
Proof.
  intros [Hord Hid]. rewrite GetAllServers_in. split.
  - intros (id & _ & Hsc). by rewrite (Hid _ _ Hsc).
  - intros Hsc. exists (sc_ID sc). split; [by eapply order_covers|done].
Qed.

(** The server is to be stopped. *)
Definition gone (cm : ConfigManager) (id : string) : bool :=
  match cm_servers cm !! id with Some sc => negb (sc_Enabled sc) | None => true end.

Lemma stop_if_gone_eq cm p id : stop_if_gone mc cm p id = if gone cm id then (stopListener mc id p).1 else p.
Proof. unfold stop_if_gone, gone. destruct (cm_servers cm !! id) as [sc|]; [|done]. by destruct (sc_Enabled sc). Qed.

(** The first loop of [Reload], for each server. *)
Lemma first_loop cm keys p :
  server_inv p -> keys ≡ₚ (map_to_list (ps_listeners p)).*1 ->
  let q := fold_left (stop_if_gone mc cm) keys p in
  server_inv q /\ (forall id, gone cm id = false -> server_view q id = server_view p id) /\
  (willing -> forall id, view_open (server_view p id) -> gone cm id = true -> server_view q id = None).
Proof.
  intros Hi Hkeys q.
  destruct (fold_keyed (stop_if_gone mc cm) (fun id => id) server_view server_inv
    (fun id v v' => (gone cm id = false -> v' = v) /\ (willing -> view_open v -> gone cm id = true -> v' = None)) keys p)
    as (Hq & HP & Hout).
  - rewrite list_fmap_id, Hkeys. apply NoDup_fst_map_to_list.
  - done.
  - intros s id Hs _ _. rewrite stop_if_gone_eq. destruct (gone cm id); [|split_and!; try done; by split].
    split; [by apply stopListener_inv|]. split.
    + split; [done|]. intros Hw Ho _. by apply stopListener_works.
    + intros k Hk. by apply stopListener_view.
  - rewrite list_fmap_id in Hout. split; [done|].
    assert (forall id, id ∉ keys -> server_view p id = None) as Hnone.
    { intros id Hn. apply view_none. destruct (ps_listeners p !! id) eqn:E; [|done]. by destruct Hn; eapply order_covers. }
    split.
    + intros id Hg. destruct (decide (id ∈ keys)) as [Hin|Hn]; [by apply HP|by apply Hout].
    + intros Hw id Ho Hg. destruct (decide (id ∈ keys)) as [Hin|Hn]; [by apply (HP id Hin)|]. unfold q. rewrite Hout by done. by apply Hnone.
Qed.

(** One turn of the second loop for an enabled server. *)
Lemma follow_config_serves p0 p sc :
  willing -> sc_Enabled sc = true -> speeder_enabled sc = false ->
  server_view p (sc_ID sc) = server_view p0 (sc_ID sc) -> view_open (server_view p0 (sc_ID sc)) ->
  serves sc (server_view (follow_config mc (ps_listeners p0) p sc) (sc_ID sc)).
Proof.
  intros Hw Hen Hsp Hv Ho. unfold follow_config. rewrite Hen. cbn [negb].
  assert (ps_listeners p0 !! sc_ID sc = ps_listeners p !! sc_ID sc) as El.
  { unfold server_view in Hv. destruct (ps_listeners p !! _), (ps_listeners p0 !! _); cbn in Hv; congruence. }
  rewrite <- Hv in Ho. rewrite El. clear Hv El. destruct (ps_listeners p !! sc_ID sc) as [l|] eqn:El; [|by apply startListener_works].
  rewrite (listenerKind_view _ _ _ El).
  destruct (String.eqb_spec (view_kind (server_view p (sc_ID sc))) (listenerKindFromConfig sc)) as [Hk|Hk]; cbn [negb]; [by apply update_serves|].
  destruct (stopListener_works (sc_ID sc) p Hw Ho) as [Hnone Herr].
  destruct (stopListener mc (sc_ID sc) p) as [p1 err]. cbn [fst snd] in *.
  assert (err = None) as ->. { rewrite Herr. unfold server_view. by rewrite El. }
  apply startListener_works; [done..|]. by apply view_none.
Qed.

Lemma follow_config_view p0 p sc k :
  server_inv p -> server_view p (sc_ID sc) = server_view p0 (sc_ID sc) \/ sc_Enabled sc = false ->
  k <> sc_ID sc -> server_view (follow_config mc (ps_listeners p0) p sc) k = server_view p k.
Proof.
  intros Hi Hv Hk. unfold follow_config. destruct (sc_Enabled sc); cbn [negb]; [|done]. destruct Hv as [Hv|]; [|done].
  assert (ps_listeners p0 !! sc_ID sc = ps_listeners p !! sc_ID sc) as El.
  { unfold server_view in Hv. destruct (ps_listeners p !! _), (ps_listeners p0 !! _); cbn in Hv; congruence. }
  rewrite El. destruct (ps_listeners p !! sc_ID sc) as [l|] eqn:Ep; [|by apply startListener_view].
  destruct (negb _); [|by eapply update_listener_view].
  pose proof (stopListener_view (sc_ID sc) p k Hi Hk) as Hs. pose proof (stopListener_inv (sc_ID sc) p Hi) as Hi'.
  destruct (stopListener mc (sc_ID sc) p) as [p1 [e|]]; cbn [fst] in *; [done|]. by rewrite startListener_view.
Qed.

Lemma follow_config_inv current p sc : server_inv p -> server_inv (follow_config mc current p sc).
Proof. intros Hi. apply (server_reachable_inv p); [|done]. apply (follow_config_steps current [sc]). Qed.

(** The second loop, over some of the servers: a property of one turn holds of the loop. *)
Lemma second_loop cm l p0 p (P : ServerConfig -> option (listener * list (option part)) -> Prop) :
  server_inv p -> NoDup (sc_ID <$> l) -> (forall sc, sc ∈ l -> cm_servers cm !! sc_ID sc = Some sc) ->
  (forall id, gone cm id = false -> server_view p id = server_view p0 id) ->
  (forall s sc, server_inv s -> sc_Enabled sc = true -> sc ∈ l ->
     server_view s (sc_ID sc) = server_view p0 (sc_ID sc) ->
     P sc (server_view (follow_config mc (ps_listeners p0) s sc) (sc_ID sc))) ->
  let q := fold_left (follow_config mc (ps_listeners p0)) l p in
  server_inv q /\ (forall sc, sc ∈ l -> sc_Enabled sc = true -> P sc (server_view q (sc_ID sc))) /\
  (forall id, gone cm id = true \/ id ∉ sc_ID <$> l -> server_view q id = server_view p id).
Proof.
  intros Hi Hnd Hin Hsame Hturn q.
  destruct (fold_keyed (follow_config mc (ps_listeners p0)) sc_ID server_view server_inv
    (fun sc v v' => (sc_Enabled sc = true -> P sc v') /\ (sc_Enabled sc = false -> v' = v)) l p Hnd Hi) as (Hq & HP & Hout).
  - intros s sc Hs Hl Ev. split; [by apply follow_config_inv|].
    assert (sc_Enabled sc = true -> server_view s (sc_ID sc) = server_view p0 (sc_ID sc)) as Hen.
    { intros Hen. rewrite Ev. apply Hsame. unfold gone. by rewrite Hin, Hen. }
    split; [split|].
    + intros He. apply Hturn; auto.
    + intros He. unfold follow_config. by rewrite He.
    + intros k Hk. apply follow_config_view; [done| |done]. destruct (sc_Enabled sc); auto.
  - split; [done|]. split; [intros sc Hsc Hen; by apply HP|].
    intros id Hg. destruct (decide (id ∈ sc_ID <$> l)) as [Hl|Hn]; [|by apply Hout]. destruct Hg as [Hg|]; [|done].
    apply list_elem_of_fmap in Hl as (sc & -> & Hl). apply (HP sc Hl).
    unfold gone in Hg. rewrite (Hin sc Hl) in Hg. by destruct (sc_Enabled sc).
Qed.


(** What [Reload] leaves alone, on any machine: a listener that has the kind of its configuration
    keeps its socket, at the address it was bound to, although the new configuration may
    name another, and a transparent or MITM listener keeps the old configuration. *)
Theorem reload_keeps_socket (gc : option GlobalConfig) (acl verifier outbound : bool) (sm : SessionManager)
    (cm : ConfigManager) (order keys : list string) (p : ProxyServer) (sc : ServerConfig) (q : part_ptr) (a : part) :
  sm_inv sm -> rtc (server_step mc) (NewProxyServer gc acl verifier outbound sm) p -> ps_running p = true ->
  visits_all cm order -> keys ≡ₚ (map_to_list (ps_listeners p)).*1 ->
  cm_servers cm !! sc_ID sc = Some sc -> sc_Enabled sc = true ->
  ps_listeners p !! sc_ID sc = Some (LPart q) -> ps_parts p !! q = Some a -> kind_name (pt_kind a) = listenerKindFromConfig sc ->
  exists a', ps_listeners (ps_Reload mc cm order keys p).1 !! sc_ID sc = Some (LPart q) /\
    ps_parts (ps_Reload mc cm order keys p).1 !! q = Some a' /\
    pt_bound a' = pt_bound a /\ pt_open a' = pt_open a /\
    pt_config a' = if updatable (pt_kind a) then sc else pt_config a.
Proof.
  intros Hsm Hr Hrun Hv Hkeys Hsc Hen Hl Ha Hk.
  assert (server_inv p) as Hi by (eapply server_reachable_inv; [done|by apply NewProxyServer_inv]).
  unfold ps_Reload. rewrite Hrun. cbn [negb fst].
  destruct (first_loop cm keys p Hi Hkeys) as (Hi1 & Hsame & _).
  destruct (second_loop cm (GetAllServers cm order) p _ (fun sc' v => sc' = sc -> v = Some (LPart q, [Some (update_part sc a)]))
    Hi1 (visits_nodup _ _ Hv) (fun sc => proj1 (visits_in _ _ sc Hv)) Hsame) as (_ & Hen' & _).
  { intros s sc' _ He _ Ev ->. assert (server_view s (sc_ID sc) = Some (LPart q, [Some a])) as Es.
    { rewrite Ev. unfold server_view. rewrite Hl. cbn. by rewrite Ha. }
    assert (ps_listeners s !! sc_ID sc = Some (LPart q) /\ ps_parts s !! q = Some a) as [Hls Has].
    { unfold server_view in Es. destruct (ps_listeners s !! sc_ID sc) as [l|]; [|done]. cbn in Es. injection Es as -> Eq. by injection Eq. }
    unfold follow_config. rewrite Hen, Hl. cbn [negb listenerKind]. rewrite Has, Hk, String.eqb_refl. cbn [negb].
    unfold server_view. cbn [update_listener on_part set_parts ps_listeners ps_parts]. rewrite Hls. cbn.
    by rewrite list_lookup_alter_eq, Has. }
  specialize (Hen' sc (proj2 (visits_in _ _ sc Hv) Hsc) Hen eq_refl). unfold server_view in Hen'.
  set (p' := fold_left (follow_config mc (ps_listeners p)) _ _) in *. clearbody p'.
  destruct (ps_listeners p' !! sc_ID sc) as [l|]; [|done]. cbn in Hen'. injection Hen' as -> Hq. cbn in Hq. injection Hq as Hq. exists (update_part sc a). split; [done|]. split; [done|].
  destruct (update_part_same sc a) as (_ & -> & _ & ->). split; [done|]. split; [done|]. unfold update_part. by destruct (updatable _).
Qed.

(** ** What is closed stays closed *)

Definition dead_proc (n : proc_ptr) (p : ProxyServer) : Prop := exists s, ps_procs p !! n = Some s /\ sp_alive s = false.
Definition dead_part (q : part_ptr) (p : ProxyServer) : Prop := exists a, ps_parts p !! q = Some a /\ pt_open a = false.

Lemma dead_stop_listener l p n q :
  (dead_proc n p -> dead_proc n (stop_listener mc l p).1) /\ (dead_part q p -> dead_part q (stop_listener mc l p).1).
Proof.
  destruct (stop_listener_spec l p) as (_ & Hl & Hlen & Hp & _). split.
  - intros (s & Hs & Ha). assert (is_Some (ps_procs (stop_listener mc l p).1 !! n)) as [s' Hs'].
    { apply lookup_lt_is_Some. rewrite Hlen. by eapply lookup_lt_Some. }
    exists s'. split; [done|]. destruct (Hp _ _ Hs') as (s0 & Hs0 & (_ & _ & Hal) & _).
    assert (s0 = s) as -> by congruence. destruct (sp_alive s') eqn:E; [|done]. by rewrite Hal in Ha.
  - intros (a & Ha & Ho). unfold dead_part. rewrite Hl. destruct (decide _); [|eauto]. rewrite Ha. cbn. eauto.
Qed.

Lemma dead_step p p' n q : server_step mc p p' ->
  (dead_proc n p -> dead_proc n p') /\ (dead_part q p -> dead_part q p').
Proof.
  intros []; try done.
  - destruct (startListener_spec sc p0) as [(k & _ & ->)|(_ & l & [_ _ Hp _ _ Hpr _ _ _] & _)]; [done|]. split.
    + intros (s & Hs & Ha). exists s. split; [|done]. rewrite Hpr; [done|by eapply lookup_lt_Some].
    + intros (a & Hq & Ho). exists a. split; [|done]. rewrite Hp; [done|by eapply lookup_lt_Some].
  - unfold stopListener. destruct (ps_listeners p0 !! serverID) as [l|]; [|done].
    pose proof (dead_stop_listener l p0 n q) as Hd. destruct (stop_listener mc l p0) as [p1 ok]. by destruct ok.
  - rewrite stop_all_visits. unfold dead_proc, dead_part. cbn [set_listeners ps_parts ps_procs]. clear H0. revert p0.
    induction order as [|id order IH]; intros p0; [done|]. cbn [fold_left]. destruct (IH (stop_visit p0 id)) as [H1 H2].
    assert ((dead_proc n p0 -> dead_proc n (stop_visit p0 id)) /\ (dead_part q p0 -> dead_part q (stop_visit p0 id))) as [H3 H4].
    { unfold stop_visit. destruct (_ !! id); [apply dead_stop_listener|done]. }
    split; [intros Hd; by apply H1, H3|intros Hd; by apply H2, H4].
  - destruct (update_listener_spec sc l p0) as (_ & Hpr & Hl). unfold dead_proc, dead_part. rewrite Hpr. split; [done|].
    intros (a & Ha & Ho). rewrite Hl. destruct (decide _); [|eauto]. rewrite Ha. cbn. eexists. split; [done|].
    by destruct (update_part_same sc a) as (_ & -> & _).
  - destruct (stop_parts_spec qs p0) as (_ & Hpr & Hl). unfold dead_proc, dead_part. rewrite Hpr. split; [done|].
    intros (a & Ha & Ho). rewrite Hl. destruct (decide _); [|eauto]. rewrite Ha. cbn. eauto.
Qed.

Lemma dead_steps p p' n q : rtc (server_step mc) p p' ->
  (dead_proc n p -> dead_proc n p') /\ (dead_part q p -> dead_part q p').
Proof. induction 1 as [|x y z Hxy _ [IH1 IH2]]; [done|]. destruct (dead_step x y n q Hxy). auto. Qed.

(** A listener behind a speeder is of no kind a configuration asks for: its turn stops it. *)
Lemma follow_config_wrapped current p sc inner n :
  willing -> server_inv p -> sc_Enabled sc = true -> current !! sc_ID sc = Some (LCleanup inner n) ->
  ps_listeners p !! sc_ID sc = Some (LCleanup inner n) -> view_open (server_view p (sc_ID sc)) ->
  dead_proc n (follow_config mc current p sc) /\ forall q, q ∈ parts_of inner -> dead_part q (follow_config mc current p sc).
Proof.
  intros Hw Hi Hen Hc Hl Ho. unfold follow_config. rewrite Hen, Hc. cbn [negb listenerKind].
  destruct (String.eqb_spec "*proxy.listenerWithCleanup" (listenerKindFromConfig sc)) as [E|_]; [by destruct (not_wrapped sc)|]. cbn [negb].
  destruct (stopListener_works (sc_ID sc) p Hw Ho) as [_ Herr].
  assert (dead_proc n (stopListener mc (sc_ID sc) p).1 /\ forall q, q ∈ parts_of inner -> dead_part q (stopListener mc (sc_ID sc) p).1) as Hd.
  { unfold stopListener. rewrite Hl. destruct (stop_listener_spec (LCleanup inner n) p) as (_ & Hparts & Hlen & _ & Hdead).
    assert ((stop_listener mc (LCleanup inner n) p).2 = true) as Hok.
    { apply stop_listener_works; [done|]. intros q Hq. unfold server_view in Ho. rewrite Hl in Ho. specialize (Ho _ _ eq_refl).
      rewrite Forall_forall in Ho. apply (Ho (ps_parts p !! q)). by apply (list_elem_of_fmap_2 (fun q => ps_parts p !! q)). }
    specialize (Hdead Hok n). destruct (stop_listener mc _ p) as [p1 ok]. cbn [fst snd] in *. subst ok. cbn [fst]. split.
    - assert (is_Some (ps_procs p1 !! n)) as [s Hs].
      { apply lookup_lt_is_Some. rewrite Hlen. eapply (si_procs _ Hi); [done|]. by constructor. }
      exists s. split; [done|]. apply Hdead; [by constructor|done].
    - intros q Hq. destruct (si_parts _ Hi _ _ q Hl) as (a & Ha & _); [done|]. exists (closed_part a). split; [|done].
      change (ps_parts p1 !! q = Some (closed_part a)). rewrite Hparts, decide_True by done. by rewrite Ha. }
  destruct (stopListener mc (sc_ID sc) p) as [p1 err]. cbn [fst snd] in *.
  assert (err = None) as ->. { rewrite Herr. unfold server_view. by rewrite Hl. }
  pose proof (step_start_listener mc p1 sc) as Hs. destruct Hd as [Hd1 Hd2]. split; [by apply (dead_step _ _ n 0%nat Hs)|].
  intros q Hq. by apply (dead_step _ _ n q Hs), Hd2.
Qed.

(** A reload restarts every server that has a UDP speeder, whatever changed: the wrapper hides
    the kind of the listener, so the process is killed, the sockets are closed and both
    are made anew. *)
Theorem reload_restarts_speeder (gc : option GlobalConfig) (acl verifier outbound : bool) (sm : SessionManager)
    (cm : ConfigManager) (order keys : list string) (p : ProxyServer) (sc : ServerConfig) (inner : listener) (n : proc_ptr) :
  willing -> sm_inv sm -> rtc (server_step mc) (NewProxyServer gc acl verifier outbound sm) p -> ps_running p = true ->
  visits_all cm order -> keys ≡ₚ (map_to_list (ps_listeners p)).*1 ->
  (forall id, view_open (server_view p id)) ->
  cm_servers cm !! sc_ID sc = Some sc -> sc_Enabled sc = true ->
  ps_listeners p !! sc_ID sc = Some (LCleanup inner n) ->
  (exists s, ps_procs (ps_Reload mc cm order keys p).1 !! n = Some s /\ sp_alive s = false) /\
  forall q, q ∈ parts_of inner -> exists a, ps_parts (ps_Reload mc cm order keys p).1 !! q = Some a /\ pt_open a = false.
Proof.
  intros Hw Hsm Hr Hrun Hv Hkeys Ho Hsc Hen Hl.
  assert (server_inv p) as Hi by (eapply server_reachable_inv; [done|by apply NewProxyServer_inv]).
  unfold ps_Reload. rewrite Hrun. cbn [negb fst].
  destruct (first_loop cm keys p Hi Hkeys) as (Hi1 & Hsame & _). set (p1 := fold_left (stop_if_gone mc cm) keys p) in *. clearbody p1.
  pose proof (proj2 (visits_in _ _ sc Hv) Hsc) as (l1 & l2 & El)%list_elem_of_split.
  pose proof (visits_nodup _ _ Hv) as Hnd. pose proof (fun x => proj1 (visits_in cm order x Hv)) as Hin.
  rewrite El in *. rewrite fold_left_app. cbn [fold_left]. rewrite fmap_app, fmap_cons in Hnd.
  apply NoDup_app in Hnd as (Hnd1 & Hdis & _).
  destruct (second_loop cm l1 p p1 (fun _ _ => True) Hi1 Hnd1) as (Hi2 & _ & Hout); [|done|done|].
  { intros x Hx. apply Hin, elem_of_app. by left. }
  set (p2 := fold_left _ l1 p1) in *. clearbody p2.
  assert (server_view p2 (sc_ID sc) = server_view p (sc_ID sc)) as Ev.
  { rewrite Hout; [apply Hsame; unfold gone; by rewrite Hsc, Hen|]. right. intros Hx. apply (Hdis _ Hx). by constructor. }
  assert (ps_listeners p2 !! sc_ID sc = Some (LCleanup inner n)) as Hl2.
  { unfold server_view in Ev. rewrite Hl in Ev. destruct (ps_listeners p2 !! sc_ID sc); [|done]. cbn in Ev. congruence. }
  destruct (follow_config_wrapped (ps_listeners p) p2 sc inner n Hw Hi2 Hen Hl Hl2) as [Hd1 Hd2]; [by rewrite Ev|].
  pose proof (follow_config_steps (ps_listeners p) l2 (follow_config mc (ps_listeners p) p2 sc)) as Hs. split.
  - by apply (dead_steps _ _ n 0%nat Hs).
  - intros q Hq. by apply (dead_steps _ _ n q Hs), Hd2.
Qed.

(** ** Stop *)

Lemma Remove_sessions sm a : sessions (Remove sm a).1 = delete a (sessions sm).
Proof. unfold Remove. destruct (sessions sm !! a) eqn:E; [done|]. by rewrite delete_id. Qed.

Lemma Remove_heap sm a : heap (Remove sm a).1 = heap sm.
Proof. unfold Remove. by destruct (sessions sm !! a). Qed.

Lemma Remove_callback sm a : OnSessionEnd (Remove sm a).1 = OnSessionEnd sm.
Proof. unfold Remove. by destruct (sessions sm !! a). Qed.

(** The loop of [Stop] over the sessions removes each of them under its own address. *)
Lemma end_sessions_remove sm order : sm_inv sm -> (forall a, a ∈ order -> is_Some (sessions sm !! a)) ->
  end_sessions order sm = remove_all sm order.
Proof.
  intros Hi Hin. unfold end_sessions, GetAllSessions, remove_all. rewrite fold_left_omap.
  assert (forall l s, heap s = heap sm -> (forall a, a ∈ l -> is_Some (sessions sm !! a)) ->
    fold_left (fun s x => match sessions sm !! x with
      | Some y => match heap s !! y with Some s0 => (Remove s (ClientAddr s0)).1 | None => s end
      | None => s end) l s = fold_left (fun sm addr => (Remove sm addr).1) l s) as Hf; [|by apply Hf].
  induction l as [|a l IH]; intros s Hs Hl; [done|]. cbn [fold_left].
  destruct (Hl a) as [x Hx]; [by constructor|]. rewrite Hx. destruct (inv_addr _ Hi a x Hx) as (s0 & Hs0 & <-).
  rewrite Hs, Hs0. apply IH; [by rewrite Remove_heap|]. intros b Hb. apply Hl. by constructor.
Qed.

Lemma remove_all_sessions order : forall sm a, sessions (remove_all sm order) !! a = if decide (a ∈ order) then None else sessions sm !! a.
Proof.
  unfold remove_all. induction order as [|b order IH]; intros sm a; cbn [fold_left].
  { rewrite decide_False; [done|]. by apply not_elem_of_nil. }
  rewrite IH, Remove_sessions. destruct (decide (a ∈ order)) as [Hin|Hn].
  - by rewrite decide_True by by constructor.
  - destruct (decide (a = b)) as [->|Hne]; [rewrite lookup_delete_eq, decide_True by constructor; done|].
    rewrite lookup_delete_ne by done. rewrite decide_False; [done|]. by intros [|]%elem_of_cons.
Qed.

Lemma remove_all_keeps order : forall sm, heap (remove_all sm order) = heap sm /\ OnSessionEnd (remove_all sm order) = OnSessionEnd sm.
Proof.
  unfold remove_all. induction order as [|b order IH]; intros sm; [done|]. cbn [fold_left].
  destruct (IH (Remove sm b).1) as [-> ->]. by rewrite Remove_heap, Remove_callback.
Qed.

(** What [Stop] leaves of the listeners and of the sessions, on any machine: no listener is registered, no
    socket is open, no process lives unless killing it failed, and every session there was has left the
    table and was handed to the callback that persists it. *)
Lemma Stop_closed (order clients : list string) (p : ProxyServer) :
  server_inv p -> ps_running p = true ->
  order ≡ₚ (map_to_list (ps_listeners p)).*1 -> iteration_order (ps_sessions p) clients ->
  let p' := (ps_Stop mc order clients p).1 in
  ps_running p' = false /\ ps_sessions p' = remove_all (ps_sessions p) clients /\ ps_listeners p' = ∅ /\
  (forall q a, ps_parts p' !! q = Some a -> pt_open a = false) /\
  (forall n s, ps_procs p' !! n = Some s -> sp_alive s = true -> sp_kill_failed s = true) /\
  sessions (ps_sessions p') = ∅ /\
  (OnSessionEnd (ps_sessions p) = true -> forall l, (l < length (heap (ps_sessions p)))%nat -> l ∈ ended (ps_sessions p')).
Proof.
  intros Hi Hrun Hord Hcl p'.
  assert (server_inv p') as Hi' by by eapply server_reachable_inv; [apply Stop_steps|].
  assert (ps_listeners p' = ∅ /\ ps_running p' = false /\ ps_sessions p' = remove_all (ps_sessions p) clients) as (El & Er & Es).
  { unfold p', ps_Stop. rewrite Hrun. cbn [negb fst set_ps_sessions ps_listeners ps_running ps_sessions].
    rewrite stop_all_visits. destruct (stop_visits order (set_running false p)) as ([_ Hfr Hfs _] & _).
    cbn [set_listeners ps_listeners ps_running ps_sessions]. rewrite Hfr, Hfs. cbn [set_running ps_running ps_sessions].
    split; [done|]. split; [done|]. apply end_sessions_remove; [apply Hi|]. intros a. by apply (iteration_order_elem _ _ a Hcl). }
  split; [done|]. split; [done|]. split; [done|]. split; [|split; [|split]].
  - intros q a Ha. destruct (pt_open a) eqn:Ho; [|done]. destruct (si_open _ Hi' q a Ha Ho) as (l & Hl & _). by rewrite El, lookup_empty in Hl.
  - intros n s Hs Hal. destruct (si_alive _ Hi' n s Hs Hal) as [|(id & l & Hl & _)]; [done|]. by rewrite El, lookup_empty in Hl.
  - rewrite Es. apply map_empty. intros a. rewrite remove_all_sessions. destruct (decide _) as [|Hn]; [done|].
    destruct (sessions (ps_sessions p) !! a) eqn:E; [|done]. destruct Hn. apply (iteration_order_elem _ _ a Hcl). by eexists.
  - intros Hc l Hl. rewrite Es. destruct (remove_all_keeps clients (ps_sessions p)) as [Eh Ec].
    assert (sm_inv (remove_all (ps_sessions p) clients)) as Hinv by apply inv_remove_all, Hi.
    destruct (inv_accounted _ Hinv) with (l := l) as [[a Ha]|]; [by rewrite Ec|by rewrite Eh| |done].
    rewrite remove_all_sessions in Ha. destruct (decide _) as [|Hn]; [done|]. destruct Hn. apply (iteration_order_elem _ _ a Hcl). by eexists.
Qed.

(** [StartServer] looks at the flag and then starts the listener: a [Stop] in between leaves a
    server that is not running with an open listener, and from then on [Stop] and
    [StopServer] refuse to close it. *)
Theorem late_start_survives_stop (cm : ConfigManager) (order clients : list string) (p : ProxyServer) (sc : ServerConfig) :
  willing -> ps_running p = true -> GetServer cm (sc_ID sc) = Some sc -> speeder_enabled sc = false ->
  ps_listeners p !! sc_ID sc = None ->
  StartServer mc cm (sc_ID sc) p = startListener mc sc p /\
  let p' := (startListener mc sc (ps_Stop mc order clients p).1).1 in
  serves sc (server_view p' (sc_ID sc)) /\ ps_running p' = false /\
  ps_Stop mc order clients p' = (p', Some ErrNotRunning) /\ StopServer mc (sc_ID sc) p' = (p', Some ErrNotRunning).
Proof.
  intros Hw Hrun Hg Hsp Hnone. split.
  { unfold StartServer. rewrite Hrun, Hg. cbn [negb]. by rewrite Hnone. }
  set (p1 := (ps_Stop mc order clients p).1). intros p'.
  assert (ps_listeners p1 = ∅ /\ ps_running p1 = false) as [El Er].
  { unfold p1, ps_Stop. rewrite Hrun. cbn [negb fst set_ps_sessions ps_listeners ps_running]. rewrite stop_all_visits.
    destruct (stop_visits order (set_running false p)) as ([_ Hfr _ _] & _). cbn [set_listeners ps_listeners ps_running]. by rewrite Hfr. }
  assert (ps_running p' = false) as Er'.
  { unfold p'. destruct (startListener_spec sc p1) as [(k & _ & ->)|(_ & l & [[_ Hx] _ _ _ _ _ _ _ _] & _)]; [done|]. by rewrite Hx. }
  split; [|split; [done|]].
  - apply startListener_works; [done..|]. by rewrite El, lookup_empty.
  - unfold ps_Stop, StopServer. by rewrite Er'.
Qed.
End server_facts.

(** [stopListener] keeps a listener whose stop reported an error, although the socket is closed: a
    transparent listener can then never be stopped again, since closing a closed socket is
    an error, nor started, since it counts as running. *)
Theorem failed_stop_sticks `{Unicode} (mc mc' : machine) (cm : ConfigManager) (p : ProxyServer) (id : string) (q : part_ptr) (a : part) :
  ps_running p = true -> ps_listeners p !! id = Some (LPart q) -> ps_parts p !! q = Some a -> pt_kind a = KTransparent ->
  m_close mc (ps_asked p) = false ->
  let p' := (StopServer mc id p).1 in
  (StopServer mc id p).2 = Some ErrStopListener /\
  (exists a', ps_parts p' !! q = Some a' /\ pt_open a' = false) /\
  (StopServer mc' id p').2 = Some ErrStopListener /\
  (forall sc, GetServer cm id = Some sc ->
     (StartServer mc' cm id p').2 = Some (ErrServerRunning id) /\ (ReloadServer mc' cm id p').2 = Some ErrStopListener).
Proof.
  intros Hrun Hl Ha Hk Hc p'.
  assert (p' = on_part q closed_part (ask p) /\ (StopServer mc id p).2 = Some ErrStopListener) as [E ->].
  { unfold p', StopServer. rewrite Hrun. cbn [negb]. unfold stopListener. rewrite Hl. cbn [stop_listener]. unfold stop_part.
    rewrite Ha, Hk, Hc, andb_false_r. done. }
  assert (ps_parts p' !! q = Some (closed_part a)) as Ha' by (rewrite E; cbn; by rewrite list_lookup_alter_eq, Ha).
  assert (ps_running p' = true /\ ps_listeners p' !! id = Some (LPart q)) as [Hrun' Hl'] by by rewrite E.
  assert ((stopListener mc' id p').2 = Some ErrStopListener) as Hstop.
  { unfold stopListener. rewrite Hl'. cbn [stop_listener]. unfold stop_part. rewrite Ha'. cbn [closed_part pt_kind pt_open]. rewrite Hk. done. }
  split; [done|]. split; [by exists (closed_part a)|]. split; [unfold StopServer; by rewrite Hrun'|].
  intros sc Hg. unfold StartServer, ReloadServer. rewrite Hrun', Hg, Hl'. cbn [negb]. rewrite bool_decide_true by by eexists.
  split; [done|]. destruct (stopListener mc' id p') as [p2 r]. cbn in Hstop. by subst r.
Qed.

(** ** The target behind a speeder *)

Definition target_ip (sc : ServerConfig) : string :=
  if String.eqb (sc_resolvedIP sc) "" then "127.0.0.1"%string else sc_resolvedIP sc.

Lemma target_tunnelled port sc : GetTargetAddr (tunnelled port sc) = (target_ip sc ++ ":" ++ pretty port)%string.
Proof. unfold GetTargetAddr, target_ip, tunnelled. cbn [sc_resolvedIP sc_Target sc_Port]. by destruct (String.eqb _ _). Qed.

Lemma load_servers_resolved resolve now l id sc ip : forall m : gmap string ServerConfig,
  (forall id sc, m !! id = Some sc -> resolve (sc_Target sc) = Some ip -> sc_resolvedIP sc = ip) ->
  fold_left (fun m sc => <[sc_ID sc := resolved resolve now sc]> m) l m !! id = Some sc ->
  resolve (sc_Target sc) = Some ip -> sc_resolvedIP sc = ip.
Proof.
  induction l as [|x l IH]; intros m Hm; cbn [fold_left]; [apply Hm|]. apply IH.
  intros i s [[<- <-]|[_ Hs]]%lookup_insert_Some Hr; [|by eapply Hm].
  unfold resolved in *. destruct (resolve (sc_Target x)) as [ip'|] eqn:E; [cbn in *; congruence|congruence].
Qed.


(** ** Kicks *)

Lemma sm_reachable_inv timeout cb sm : rtc sm_step (initial timeout cb) sm -> sm_inv sm.
Proof.
  intros Hr. remember (initial timeout cb) as s0 eqn:E. assert (sm_inv s0) as H0 by (subst; apply inv_initial).
  clear E. induction Hr; eauto using inv_step.
Qed.

(** The session a kick is meant for. *)
Definition kick_target `{Unicode} (playerName : string) (s : Session) : bool :=
  negb (String.eqb (DisplayName s) "") && equal_fold (DisplayName s) playerName.

Section kick.
Context `{Unicode} (playerName reason : string).

(** An address in the session table: its pointer, the session, whether it has ended. *)
Definition session_view (sm0 sm : SessionManager) (a : string) : option session_ptr * option (option Session * bool) :=
  (sessions sm !! a, (fun l => (heap sm !! l, bool_decide (l ∈ ended sm))) <$> sessions sm0 !! a).

Lemma kick_session_other sm0 sm a b l l' s :
  sm_inv sm -> sessions sm !! a = Some l -> heap sm !! l = Some s ->
  sessions sm0 !! a = Some l -> a <> b -> (forall k, sessions sm0 !! b = Some k -> k <> l) -> l' = l ->
  session_view sm0 (kick_session playerName reason sm l') b = session_view sm0 sm b.
Proof.
  intros Hi Ha Hs Ha0 Hne Hb ->. unfold kick_session. rewrite Hs. fold (kick_target playerName s). destruct (kick_target playerName s); [|done].
  destruct (inv_addr _ Hi a l Ha) as (s' & Hs' & Haddr). assert (s' = s) as -> by congruence. rewrite Haddr.
  unfold session_view. rewrite Remove_sessions, Remove_heap, lookup_delete_ne by done.
  f_equal. destruct (sessions sm0 !! b) as [k|] eqn:Ek; [|done]. cbn [fmap option_fmap option_map]. specialize (Hb k eq_refl).
  f_equal. f_equal; [by cbn; rewrite list_lookup_alter_ne|]. unfold Remove. cbn [via_ptr set_heap sessions]. rewrite Ha. cbn [fst].
  apply bool_decide_ext. rewrite ended_end_session. change (ended (set_sessions _ _)) with (ended sm).
  rewrite elem_of_app. destruct (OnSessionEnd _); [|set_solver]. set_solver.
Qed.

Lemma kick_session_inv sm l : sm_inv sm ->
  sm_inv (kick_session playerName reason sm l) /\ OnSessionEnd (kick_session playerName reason sm l) = OnSessionEnd sm.
Proof.
  intros Hi. unfold kick_session. destruct (heap sm !! l); [|done]. destruct (_ && _); [|done].
  split; [|by rewrite Remove_callback]. by apply inv_Remove, inv_via_ptr.
Qed.

Lemma kick_session_hit sm a l s : sm_inv sm -> sessions sm !! a = Some l -> heap sm !! l = Some s ->
  kick_target playerName s = true ->
  sessions (kick_session playerName reason sm l) !! a = None /\
  heap (kick_session playerName reason sm l) !! l = Some (SetDisconnectStatus (kick_status reason) reason s) /\
  (OnSessionEnd sm = true -> l ∈ ended (kick_session playerName reason sm l)).
Proof.
  intros Hi Ha Hs Ht. unfold kick_session. rewrite Hs. fold (kick_target playerName s). rewrite Ht.
  destruct (inv_addr _ Hi a l Ha) as (s' & Hs' & Haddr). assert (s' = s) as -> by congruence. rewrite Haddr.
  rewrite Remove_sessions, lookup_delete_eq, Remove_heap. split; [done|]. cbn [via_ptr set_heap heap]. rewrite list_lookup_alter_eq, Hs.
  split; [done|]. intros Hc. unfold Remove. cbn [via_ptr set_heap sessions]. rewrite Ha. cbn [fst]. rewrite ended_end_session.
  cbn [OnSessionEnd set_sessions set_heap via_ptr]. rewrite Hc. apply elem_of_app. right. by constructor.
Qed.

(** What the loop does to the session at each address. *)
Lemma kick_loop sm clients : sm_inv sm -> iteration_order sm clients ->
  let sm' := fold_left (kick_session playerName reason) (GetAllSessions sm clients) sm in
  (forall a l s, sessions sm !! a = Some l -> heap sm !! l = Some s ->
     if kick_target playerName s
     then sessions sm' !! a = None /\ heap sm' !! l = Some (SetDisconnectStatus (kick_status reason) reason s) /\
          (OnSessionEnd sm = true -> l ∈ ended sm')
     else sessions sm' !! a = Some l /\ heap sm' !! l = Some s) /\
  (forall a, sessions sm !! a = None -> sessions sm' !! a = None).
Proof.
  intros Hi Hord sm'. unfold sm', GetAllSessions. rewrite fold_left_omap.
  destruct (fold_keyed (fun s a => match sessions sm !! a with Some l => kick_session playerName reason s l | None => s end)
    (fun a => a) (session_view sm) (fun s => sm_inv s /\ OnSessionEnd s = OnSessionEnd sm)
    (fun a v v' => forall l s, sessions sm !! a = Some l -> heap sm !! l = Some s ->
       if kick_target playerName s
       then v'.1 = None /\ exists b, v'.2 = Some (Some (SetDisconnectStatus (kick_status reason) reason s), b) /\ (OnSessionEnd sm = true -> b = true)
       else v' = v) clients sm) as (_ & HP & Hout).
  - rewrite list_fmap_id. by eapply NoDup_order.
  - done.
  - intros s a [Hs Hc] Hin Ev. apply (iteration_order_elem _ _ a Hord) in Hin as [l Hl]. rewrite Hl.
    destruct (kick_session_inv s l Hs) as [Hs' Hc']. split; [by rewrite Hc'|].
    assert (sessions s !! a = Some l /\ heap s !! l = heap sm !! l) as [Hsa Hsh].
    { unfold session_view in Ev. rewrite Hl in Ev. cbn in Ev. injection Ev as -> -> _. done. }
    split.
    + intros l' s0 Hl' Hs0. assert (l' = l) as -> by congruence. rewrite Hs0 in Hsh.
      destruct (kick_target playerName s0) eqn:Et.
      * destruct (kick_session_hit s a l s0 Hs Hsa Hsh Et) as (H1 & H2 & H3). unfold session_view. rewrite Hl. cbn [fst snd fmap option_fmap option_map].
        split; [done|]. eexists. rewrite H2. split; [done|]. intros Hcb. apply bool_decide_true, H3. congruence.
      * unfold kick_session. rewrite Hsh. fold (kick_target playerName s0). by rewrite Et.
    + intros b Hb. destruct (inv_addr _ Hi a l Hl) as (s0 & Hs0 & _). rewrite Hs0 in Hsh.
      apply (kick_session_other sm s a b l l s0); try done. intros k Hk ->. apply Hb. exact (sm_inv_inj sm b a l Hi Hk Hl).
  - rewrite list_fmap_id in Hout. split.
    + intros a l s Hl Hs. assert (a ∈ clients) as Hin by (apply (iteration_order_elem _ _ a Hord); by eexists).
      specialize (HP a Hin l s Hl Hs). unfold session_view in HP. rewrite Hl in HP. cbn [fmap option_fmap option_map fst snd] in HP.
      destruct (kick_target playerName s).
      * destruct HP as (-> & b & [= E <-] & Hb). split; [done|]. split; [done|]. intros Hc. exact (proj1 (bool_decide_eq_true _) (Hb Hc)).
      * injection HP as E1 E2 _. rewrite E1, E2. done.
    + intros a Ha. assert (a ∉ clients) as Hn. { intros Hin. apply (iteration_order_elem _ _ a Hord) in Hin as [l Hl]. congruence. }
      specialize (Hout a Hn). unfold session_view in Hout. rewrite Ha in Hout. by injection Hout.
Qed.
End kick.


(** ** Counts *)

(** The one pass of [GetAllServerStatuses] counts what [ps_GetActiveSessionsForServer] counts. *)
Lemma session_counts_agree (p : ProxyServer) (order : list string) (serverID : string) :
  default 0 (session_counts p order !! serverID) = ps_GetActiveSessionsForServer p order serverID.
Proof.
  unfold session_counts, ps_GetActiveSessionsForServer. cbv zeta. generalize (GetAllSessions (ps_sessions p) order) as l. intros l.
  assert (forall (m : gmap string Z), default 0 (fold_left (fun m l => match heap (ps_sessions p) !! l with
      | Some s => <[ServerID s := default 0 (m !! ServerID s) + 1]> m | None => m end) l m !! serverID)
    = default 0 (m !! serverID) + zlen (List.filter (fun l => match heap (ps_sessions p) !! l with
      | Some s => String.eqb (ServerID s) serverID | None => false end) l)) as Hf.
  { induction l as [|x l IH]; intros m; cbn [fold_left List.filter]; [unfold zlen; cbn; lia|]. rewrite IH. clear IH.
    destruct (heap (ps_sessions p) !! x) as [s|]; [|lia]. destruct (String.eqb_spec (ServerID s) serverID) as [<-|Hne].
    - rewrite lookup_insert_eq. unfold zlen. cbn. lia.
    - by rewrite lookup_insert_ne. }
  by rewrite Hf, lookup_empty.
Qed.

(** ** Witnesses *)

#[local] Existing Instance ascii_unicode.

Definition demo_speeder : UDPSpeederConfig :=
  {| us_Enabled := true; us_BinaryPath := ""; us_LocalListenAddr := ""; us_RemoteAddr := "203.0.113.7:4096"; us_FEC := "";
     us_Key := ""; us_Mode := 0; us_TimeoutMs := 0; us_MTU := 0; us_DisableObscure := false; us_DisableChecksum := false;
     us_ExtraArgs := [] |}.

Definition demo_server (mode addr : string) (sp : option UDPSpeederConfig) : ServerConfig :=
  {| sc_ID := "a"; sc_Name := "lobby"; sc_Target := "play.example"; sc_Port := 19132; sc_ListenAddr := addr; sc_Protocol := "raknet";
     sc_Enabled := true; sc_Hidden := false; sc_LegacyDisabled := None; sc_UDPSpeeder := sp; sc_SendRealIP := false;
     sc_ResolveInterval := 0; sc_IdleTimeout := 0; sc_BufferSize := 0; sc_UDPSocketBufferSize := 0; sc_DisabledMessage := "";
     sc_CustomMOTD := ""; sc_ProxyMode := mode; sc_ACLServerID := ""; sc_RawUDPKickStrategy := ""; sc_XboxAuthEnabled := false;
     sc_XboxTokenPath := ""; sc_ProxyOutbound := ""; sc_ShowRealLatency := false; sc_LoadBalance := ""; sc_LoadBalanceSort := "";
     sc_ProtocolVersion := 0; sc_LatencyMode := ""; sc_AutoPingEnabled := false; sc_AutoPingIntervalMinutes := 0;
     sc_AutoPingTopCandidates := 0; sc_AutoPingFullScanMode := ""; sc_AutoPingFullScanTime := "";
     sc_AutoPingFullScanIntervalHours := 0; sc_AutoSelectBlockedNodes := ∅; sc_resolvedIP := ""; sc_lastResolved := 0 |}.

Definition demo_cm (sc : ServerConfig) : ConfigManager := {| cm_servers := {["a"%string := sc]}; cm_disk := ∅ |}.

Definition good_machine : machine :=
  {| m_bind := fun _ => true; m_close := fun _ => true; m_spawn := fun _ => true; m_kill := fun _ => true;
     m_free_port := fun _ => Some 40000; m_speeder_binary := fun _ => Some "speederv2"%string |}.

Lemma good_machine_willing : willing good_machine.
Proof. by split_and!. Qed.

Definition demo_new : ProxyServer := NewProxyServer None true true true (initial 60 true).

(** The server started with one server configured. *)
Definition demo_up (sc : ServerConfig) : ProxyServer := (ps_Start good_machine (demo_cm sc) ["a"%string] demo_new).1.

Lemma demo_up_reachable sc : rtc (server_step good_machine) demo_new (demo_up sc).
Proof. apply Start_steps. Qed.

Lemma demo_cm_visits sc : sc_ID sc = "a"%string -> visits_all (demo_cm sc) ["a"%string].
Proof.
  intros Hid. unfold demo_cm. split; cbn [cm_servers].
  - by rewrite map_to_list_singleton.
  - intros id s [<- <-]%lookup_singleton_Some. done.
Qed.

Lemma one_open p l ps : ps_listeners p = {["a"%string := l]} -> server_view p "a" = Some (l, ps) ->
  Forall (fun o => exists a, o = Some a /\ pt_open a = true) ps ->
  (["a"%string] ≡ₚ (map_to_list (ps_listeners p)).*1) /\ forall id, view_open (server_view p id).
Proof.
  intros Hl Hv Hf. split; [by rewrite Hl, map_to_list_singleton|]. intros id l' ps' Hv'.
  destruct (decide (id = "a"%string)) as [->|Hne]; [congruence|].
  unfold server_view in Hv'. rewrite Hl, lookup_singleton_ne in Hv' by done. done.
Qed.

Lemma servers_accounted_witness :
  exists l, ps_listeners (demo_up (demo_server "raw_udp" ":1" None)) !! "a"%string = Some l /\ 0%nat ∈ parts_of l.
Proof.
  destruct (proj1 (servers_accounted good_machine None true true true (initial 60 true) _ (inv_initial 60 true) (demo_up_reachable (demo_server "raw_udp" ":1" None)))
    0%nat (opened_part {| pt_server := "a"; pt_kind := KRawUDP; pt_config := demo_server "raw_udp" ":1" None;
      pt_wiring := wire demo_new KRawUDP; pt_bound := ""; pt_open := false |})) as (l & Hl & Hin & _); [by vm_compute|done|].
  exists l. split; [exact Hl|exact Hin].
Defined.


(** The listen address changed. *)
Lemma reload_keeps_socket_witness :
  let sc := demo_server "raw_udp" ":2" None in
  exists a', ps_parts (ps_Reload good_machine (demo_cm sc) ["a"%string] ["a"%string] (demo_up (demo_server "raw_udp" ":1" None))).1 !! 0%nat = Some a' /\
    pt_bound a' = ":1"%string /\ pt_config a' = sc.
Proof.
  intros sc. destruct (ps_parts (demo_up (demo_server "raw_udp" ":1" None)) !! 0%nat) as [a|] eqn:Ha; [|by vm_compute in Ha].
  destruct (reload_keeps_socket good_machine None true true true (initial 60 true) (demo_cm sc) ["a"%string] ["a"%string]
    (demo_up (demo_server "raw_udp" ":1" None)) sc 0%nat a (inv_initial 60 true) (demo_up_reachable (demo_server "raw_udp" ":1" None)) ltac:(by vm_compute) (demo_cm_visits sc eq_refl))
    as (a' & _ & Ha' & Hb & _ & Hc); try done; try by (vm_compute in Ha; injection Ha as <-).
  exists a'. split; [done|]. rewrite Hb, Hc. vm_compute in Ha. by injection Ha as <-.
Defined.

Lemma reload_restarts_speeder_witness :
  let sc := demo_server "raw_udp" ":1" (Some demo_speeder) in
  exists s, ps_procs (ps_Reload good_machine (demo_cm sc) ["a"%string] ["a"%string] (demo_up sc)).1 !! 0%nat = Some s /\ sp_alive s = false.
Proof.
  intros sc. destruct (one_open (demo_up sc) (LCleanup (LPart 0) 0) [ps_parts (demo_up sc) !! 0%nat])
    as [Hk Ho]; [by vm_compute|by vm_compute|constructor; [by eexists|constructor]|].
  exact (proj1 (reload_restarts_speeder good_machine None true true true (initial 60 true) (demo_cm sc) ["a"%string] ["a"%string] (demo_up sc) sc
    (LPart 0) 0%nat good_machine_willing (inv_initial 60 true) (demo_up_reachable (sc)) ltac:(by vm_compute) (demo_cm_visits sc eq_refl) Hk Ho eq_refl eq_refl
    ltac:(by vm_compute))).
Defined.

Lemma late_start_survives_stop_witness :
  let sc := demo_server "raw_udp" ":1" None in
  let p := (startListener good_machine sc (ps_Stop good_machine [] [] (set_running true demo_new)).1).1 in
  serves sc (server_view p "a") /\ ps_running p = false.
Proof.
  intros sc p. destruct (late_start_survives_stop good_machine (demo_cm sc) [] [] (set_running true demo_new) sc good_machine_willing
    eq_refl eq_refl eq_refl eq_refl) as (_ & Hs & Hr & _). by split.
Defined.

Definition refusing_machine : machine :=
  {| m_bind := fun _ => true; m_close := fun _ => false; m_spawn := fun _ => true; m_kill := fun _ => true;
     m_free_port := fun _ => None; m_speeder_binary := fun _ => None |}.

Lemma failed_stop_sticks_witness :
  let p := (StopServer refusing_machine "a" (demo_up (demo_server "" ":1" None))).1 in
  (StopServer good_machine "a" p).2 = Some ErrStopListener.
Proof.
  destruct (ps_parts (demo_up (demo_server "" ":1" None)) !! 0%nat) as [a|] eqn:Ha; [|by vm_compute in Ha].
  refine (proj1 (proj2 (proj2 (failed_stop_sticks refusing_machine good_machine (demo_cm (demo_server "" ":1" None))
    (demo_up (demo_server "" ":1" None)) "a" 0%nat a eq_refl _ Ha _ eq_refl)))); [by vm_compute|].
  vm_compute in Ha. by injection Ha as <-.
Defined.


