(* ===== verification/System.v ===== *)
(** * The running program: [Start] and [Stop] of [internal/proxy/proxy.go]

    [ProxyServer.Start] and [ProxyServer.Stop] over everything the server owns: the
    listeners and the sessions ([Server]), the outbound manager with its cached sing-box
    outbounds and the calls under way ([Dial]), the local proxy ports with their pool of
    dialers ([PortListeners]) and the database the ended sessions are written to
    ([Records]).  The background goroutines (collector, watchers, automatic ping, idle
    cleanup) have no state of their own: what they do to these parts are steps of
    [system_step]. *)

From Stdlib Require Import Strings.String.
From S2P Require Import Prelude GoBytes GoString NetIP NetURL Session SessionManager Config Outbound OutboundManager NodeFile Dial ProxyPort Records PortListeners Server.

Record System := {
  sy_server : ProxyServer;
  sy_dial : dial_world;
  sy_calls : list pc;        (* calls of the outbound manager between two lock sections *)
  sy_ports : ProxyPortManager;
  sy_db : database }.

Section system.
Context `{Unicode} (mc : machine) (services : string -> option Z) (listen_ok : string -> bool).
(** Which statements of the database succeed, the order of its oldest rows, and the limit of the history. *)
Context (db_ok : nat -> bool) (oldest : list SessionRecord -> list SessionRecord) (maxRecords : Z).

(** A new state of the listeners and sessions; the sessions that ended are persisted. *)
Definition with_server (now : gotime) (p : ProxyServer) (s : System) : System :=
  {| sy_server := p; sy_dial := sy_dial s; sy_calls := sy_calls s; sy_ports := sy_ports s;
     sy_db := persist_all db_ok oldest maxRecords now (new_ended (ps_sessions (sy_server s)) (ps_sessions p)) (sy_db s) |}.

Definition with_port_manager (m : ProxyPortManager) (s : System) : System :=
  {| sy_server := sy_server s; sy_dial := sy_dial s; sy_calls := sy_calls s; sy_ports := m; sy_db := sy_db s |}.

Definition with_dial (w : dial_world) (ts : list pc) (s : System) : System :=
  {| sy_server := sy_server s; sy_dial := w; sy_calls := ts; sy_ports := sy_ports s; sy_db := sy_db s |}.

(** [p.config != nil && p.config.ProxyPortsEnabled] *)
Definition ports_enabled (s : System) : bool :=
  match ps_config (sy_server s) with Some gc => gc_ProxyPortsEnabled gc | None => false end.

(** [Start]: the outbound manager starts without creating anything; the listeners of the
    enabled servers; the proxy ports, whose errors are logged. *)
Definition sys_Start (now : gotime) (cm : ConfigManager) (portConfig : ProxyPortConfigManager) (order ports : list string)
    (s : System) : System * option server_err :=
  if ps_running (sy_server s) then (s, Some ErrAlreadyRunning) else
  let s := with_server now (fold_left (start_enabled mc) (GetAllServers cm order) (set_running true (sy_server s))) s in
  (with_port_manager (ppm_Start services listen_ok (ports_enabled s) ports portConfig (sy_ports s)).1 s, None).

(** The orders in which [Stop] visits its maps. *)
Record stop_orders := {
  so_listeners : list string;
  so_ports : list string;
  so_dialers : list string;
  so_clients : list string;
  so_cached : list string }.

(** [Stop]: the listeners, the proxy ports, the sessions, the outbound manager.  Waiting for
    the connections of the nodes ([stop_wait]) ends after ten seconds at most. *)
Definition sys_Stop (now : gotime) (o : stop_orders) (s : System) : System * option server_err :=
  if negb (ps_running (sy_server s)) then (s, Some ErrNotRunning) else
  let s := with_server now (stop_all mc (so_listeners o) (set_running false (sy_server s))) s in
  let s := with_port_manager (ppm_Stop (so_ports o) (so_dialers o) (sy_ports s)) s in
  let s := with_server now
    (set_ps_sessions (end_sessions (so_clients o) (ps_sessions (sy_server s))) (sy_server s)) s in
  (with_dial (with_m (stop_close (so_cached o) (dw_m (sy_dial s))) (sy_dial s)) (sy_calls s) s, None).

(** [ReloadProxyPorts] *)
Definition ReloadProxyPorts (portConfig : ProxyPortConfigManager) (stops starts : list string) (s : System)
  : System * option listen_err :=
  let '(m, e) := ppm_Reload services listen_ok (ports_enabled s) stops starts portConfig (sy_ports s) in
  (with_port_manager m s, e).

Inductive system_step : System -> System -> Prop :=
| sys_server s p now : server_step mc (sy_server s) p -> system_step s (with_server now p s)
| sys_dial s w ts : dial_step (sy_dial s, sy_calls s) (w, ts) -> system_step s (with_dial w ts s)
| sys_ports s m : ports_step services listen_ok (sy_ports s) m -> system_step s (with_port_manager m s).

Definition new_system (gc : option GlobalConfig) (acl verifier outbound : bool) (sm : SessionManager) (d : database) : System :=
  {| sy_server := NewProxyServer gc acl verifier outbound sm; sy_dial := dial_initial gc; sy_calls := [];
     sy_ports := NewProxyPortManager; sy_db := d |}.

(** * Facts *)

Record system_inv (s : System) : Prop := {
  si_server : server_inv (sy_server s);
  si_dial : cache_inv (sy_dial s, sy_calls s);
  si_ports : ports_inv (sy_ports s);
  si_callback : OnSessionEnd (ps_sessions (sy_server s)) = true;
}.

Lemma system_step_inv s s' : system_step s s' -> system_inv s -> system_inv s'.
Proof.
  intros [s0 p now Hs|s0 w ts Hs|s0 m Hs] [H1 H2 H3 H4]; split; try done; cbn.
  - by eapply server_reachable_inv; [apply rtc_once|].
  - by rewrite (server_step_callback mc _ _ Hs).
  - by eapply dial_step_inv.
  - by eapply inv_ports_step.
Qed.

Lemma system_reachable gc acl verifier outbound sm d s :
  sm_inv sm -> OnSessionEnd sm = true -> rtc system_step (new_system gc acl verifier outbound sm d) s -> system_inv s.
Proof.
  intros Hsm Hcb Hr. assert (system_inv (new_system gc acl verifier outbound sm d)) as H0.
  { split; cbn; [by apply NewProxyServer_inv|by eapply dial_inv_reachable|apply inv_ports_initial|done]. }
  clear Hsm Hcb. induction Hr; eauto using system_step_inv.
Qed.

(** [Start] and [Stop] are made of these steps. *)
Lemma sys_Start_steps now cm portConfig order ports s :
  (sys_Start now cm portConfig order ports s).2 = None ->
  exists p m, rtc (server_step mc) (sy_server s) p /\ ports_step services listen_ok (sy_ports s) m /\
    (sys_Start now cm portConfig order ports s).1 = with_port_manager m (with_server now p s).
Proof.
  unfold sys_Start. destruct (ps_running (sy_server s)); [done|]. intros _. eexists _, _. split; [|split; [|reflexivity]].
  - eapply rtc_l; [apply (step_flag mc _ true)|]. apply start_enabled_steps.
  - cbn. apply ports_start.
Qed.

Lemma new_ended_same sm : new_ended sm sm = [].
Proof. unfold new_ended. rewrite drop_ge by done. done. Qed.

Lemma removed_sessions sm clients : sm_inv sm -> OnSessionEnd sm = true -> NoDup clients ->
  new_ended sm (remove_all sm clients) = omap (fun a => l ← sessions sm !! a; s ← heap sm !! l; Some (l, s)) clients.
Proof.
  intros Hi Hc Hnd. unfold new_ended. rewrite remove_all_ended, drop_app_length, remove_all_heap by done.
  clear Hnd. induction clients as [|a clients IH]; [done|]. cbn [omap list_omap].
  destruct (sessions sm !! a) as [l|] eqn:E; [|exact IH]. cbn [mbind option_bind].
  destruct (inv_addr _ Hi a l E) as (x & Hx & _). cbn [omap list_omap]. rewrite Hx. cbn. by f_equal.
Qed.

Lemma stop_ports_pool order m : ppm_pool (fold_left stop_port order m) = ppm_pool m.
Proof.
  revert m. induction order as [|x l IH]; intros m; [done|]. cbn [fold_left]. rewrite IH.
  unfold stop_port. by destruct (_ !! _).
Qed.

Lemma sys_Stop_server now o s : ps_running (sy_server s) = true ->
  sy_server (sys_Stop now o s).1 = (ps_Stop mc (so_listeners o) (so_clients o) (sy_server s)).1.
Proof. intros Hrun. unfold sys_Stop, ps_Stop. rewrite Hrun. done. Qed.

(** What the sessions still open add to the statistics of a player when they end. *)
Definition open_sessions (sm : SessionManager) (clients : list string) : list (session_ptr * Session) :=
  omap (fun a => l ← sessions sm !! a; s ← heap sm !! l; Some (l, s)) clients.

End system.

(** * Witnesses *)

#[local] Existing Instance ascii_unicode.

Definition demo_step : System -> System -> Prop :=
  system_step good_machine no_services (fun _ => true) (fun _ => true) id 100.

(** The sessions or the listeners of the server after one step. *)
Definition moved_to (p : ProxyServer) (s : System) : System := with_server (fun _ => true) id 100 100 p s.
Definition session_moved (sm : SessionManager) (s : System) : System := moved_to (set_ps_sessions sm (sy_server s)) s.

(** A listener, a proxy port with a dialer in the pool, and a player who has sent five bytes. *)
Definition demo_system : System :=
  let s := new_system None true true true (initial 60 true) demo_db in
  let s := moved_to (set_running true (sy_server s)) s in
  let s := moved_to (startListener good_machine (demo_server "raw_udp" ":1" None) (sy_server s)).1 s in
  let s := with_port_manager (ppm_Start no_services (fun _ => true) true ["1"; "2"]%string demo_ports (sy_ports s)).1 s in
  let s := with_port_manager (set_pool (pool_Get true (demo_node false) (ppm_pool (sy_ports s))).1 (sy_ports s)) s in
  let s := session_moved (GetOrCreate (ps_sessions (sy_server s)) 100 "id" "c" "a").1 s in
  let s := session_moved (via_ptr 0 (run_session_op (OpSetPlayerInfo "u" "Steve")) (ps_sessions (sy_server s))) s in
  session_moved (via_ptr 0 (run_session_op (OpAddBytesUp 5)) (ps_sessions (sy_server s))) s.

Lemma demo_moves s p : server_step good_machine (sy_server s) p -> demo_step s (moved_to p s).
Proof. apply sys_server. Qed.

Lemma demo_session_moves s sm : sm_step (ps_sessions (sy_server s)) sm -> demo_step s (session_moved sm s).
Proof. intros Hs. by apply demo_moves, step_sessions. Qed.

Lemma demo_ports_move s m : ports_step no_services (fun _ => true) (sy_ports s) m -> demo_step s (with_port_manager m s).
Proof. apply sys_ports. Qed.

Lemma demo_system_reachable :
  rtc demo_step (new_system None true true true (initial 60 true) demo_db) demo_system.
Proof.
  unfold demo_system. cbv zeta.
  eapply rtc_l; [exact (demo_moves _ _ (step_flag good_machine _ true))|].
  eapply rtc_l; [exact (demo_moves _ _ (step_start_listener good_machine _ (demo_server "raw_udp" ":1" None)))|].
  eapply rtc_l; [exact (demo_ports_move _ _ (ports_start no_services (fun _ => true) _ true ["1"; "2"]%string demo_ports))|].
  eapply rtc_l; [exact (demo_ports_move _ _ (ports_dial no_services (fun _ => true) _ true (demo_node false)))|].
  eapply rtc_l; [exact (demo_session_moves _ _ (step_GetOrCreate _ 100 "id" "c" "a"))|].
  eapply rtc_l; [exact (demo_session_moves _ _ (step_session_op _ 0 (OpSetPlayerInfo "u" "Steve")))|].
  eapply rtc_l; [exact (demo_session_moves _ _ (step_session_op _ 0 (OpAddBytesUp 5)))|]. apply rtc_refl.
Qed.

Definition demo_stop : stop_orders :=
  {| so_listeners := ["a"]; so_ports := ["1"]; so_dialers := [proxyOutboundDialerCacheKey (demo_node false)];
     so_clients := ["c"]; so_cached := [] |}%string.

