(* ===== verification/ApiServers.v ===== *)
(** * The handlers of servers and players: internal/api/api.go

    [createServer], [updateServer], [deleteServer], [startServer], [stopServer],
    [reloadServer], [setServerHidden], [kickPlayer] and [kickSession]: what a request does
    to the table of configurations ([Config]) and to the running server ([Server]), after
    the body was decoded.  The answer is the status code.  The history of latencies that
    [deleteServer] also drops is not modelled.

    The handlers hold no lock over their two halves; the theorems are about a handler
    that nothing comes between. *)

From Stdlib Require Import Strings.String.
From S2P Require Import Prelude GoBytes GoString Session SessionManager Config Server.

Record api_state := { a_cm : ConfigManager; a_ps : ProxyServer }.

Section handlers.
Context `{Unicode} (mc : machine) (resolve : string -> option string) (now : gotime) (save_ok : bool).

(** The handler passes its pointer to the manager, which normalises it in place. *)
Definition createServer (serverCfg : ServerConfig) (a : api_state) : api_state * Z :=
  let '(cm, err) := AddServer resolve now save_ok (a_cm a) serverCfg in
  match err with
  | Some _ => ({| a_cm := cm; a_ps := a_ps a |}, 400)
  | None =>
      let id := sc_ID (Normalize serverCfg) in
      let p :=
        if sc_Enabled (Normalize serverCfg) && negb (IsServerRunning (a_ps a) id)
        then (StartServer mc cm id (a_ps a)).1 else a_ps a in
      ({| a_cm := cm; a_ps := p |}, 200)
  end.

Definition updateServer (serverID : string) (serverCfg : ServerConfig) (a : api_state) : api_state * Z :=
  let '(cm, err) := UpdateServer resolve now save_ok (a_cm a) serverID serverCfg in
  match err with
  | Some _ => ({| a_cm := cm; a_ps := a_ps a |}, 404)
  | None =>
      let id := sc_ID (Normalize serverCfg) in
      let enabled := sc_Enabled (Normalize serverCfg) in
      let running := IsServerRunning (a_ps a) id in
      let p :=
        if running && enabled then (ReloadServer mc cm id (a_ps a)).1
        else if running && negb enabled then (StopServer mc id (a_ps a)).1
        else if negb running && enabled then (StartServer mc cm id (a_ps a)).1
        else a_ps a in
      ({| a_cm := cm; a_ps := p |}, 200)
  end.

Definition deleteServer (serverID : string) (a : api_state) : api_state * Z :=
  let '(p, err) := if IsServerRunning (a_ps a) serverID then StopServer mc serverID (a_ps a) else (a_ps a, None) in
  match err with
  | Some _ => ({| a_cm := a_cm a; a_ps := p |}, 500)
  | None =>
      let '(cm, err) := DeleteServer save_ok (a_cm a) serverID in
      ({| a_cm := cm; a_ps := p |}, match err with Some _ => 404 | None => 200 end)
  end.

Definition answer_of (a : api_state) (r : ProxyServer * option server_err) : api_state * Z :=
  ({| a_cm := a_cm a; a_ps := r.1 |}, match r.2 with Some _ => 400 | None => 200 end).

Definition startServer (serverID : string) (a : api_state) : api_state * Z := answer_of a (StartServer mc (a_cm a) serverID (a_ps a)).
Definition stopServer (serverID : string) (a : api_state) : api_state * Z := answer_of a (StopServer mc serverID (a_ps a)).
Definition reloadServer (serverID : string) (a : api_state) : api_state * Z := answer_of a (ReloadServer mc (a_cm a) serverID (a_ps a)).

Definition set_hidden (hidden : bool) (sc : ServerConfig) : ServerConfig :=
  {| sc_ID := sc_ID sc; sc_Name := sc_Name sc; sc_Target := sc_Target sc; sc_Port := sc_Port sc; sc_ListenAddr := sc_ListenAddr sc;
     sc_Protocol := sc_Protocol sc; sc_Enabled := sc_Enabled sc; sc_Hidden := hidden; sc_LegacyDisabled := sc_LegacyDisabled sc;
     sc_UDPSpeeder := sc_UDPSpeeder sc; sc_SendRealIP := sc_SendRealIP sc; sc_ResolveInterval := sc_ResolveInterval sc;
     sc_IdleTimeout := sc_IdleTimeout sc; sc_BufferSize := sc_BufferSize sc; sc_UDPSocketBufferSize := sc_UDPSocketBufferSize sc;
     sc_DisabledMessage := sc_DisabledMessage sc; sc_CustomMOTD := sc_CustomMOTD sc; sc_ProxyMode := sc_ProxyMode sc;
     sc_ACLServerID := sc_ACLServerID sc; sc_RawUDPKickStrategy := sc_RawUDPKickStrategy sc; sc_XboxAuthEnabled := sc_XboxAuthEnabled sc;
     sc_XboxTokenPath := sc_XboxTokenPath sc; sc_ProxyOutbound := sc_ProxyOutbound sc; sc_ShowRealLatency := sc_ShowRealLatency sc;
     sc_LoadBalance := sc_LoadBalance sc; sc_LoadBalanceSort := sc_LoadBalanceSort sc; sc_ProtocolVersion := sc_ProtocolVersion sc;
     sc_LatencyMode := sc_LatencyMode sc; sc_AutoPingEnabled := sc_AutoPingEnabled sc;
     sc_AutoPingIntervalMinutes := sc_AutoPingIntervalMinutes sc; sc_AutoPingTopCandidates := sc_AutoPingTopCandidates sc;
     sc_AutoPingFullScanMode := sc_AutoPingFullScanMode sc; sc_AutoPingFullScanTime := sc_AutoPingFullScanTime sc;
     sc_AutoPingFullScanIntervalHours := sc_AutoPingFullScanIntervalHours sc;
     sc_AutoSelectBlockedNodes := sc_AutoSelectBlockedNodes sc; sc_resolvedIP := sc_resolvedIP sc; sc_lastResolved := sc_lastResolved sc |}.

Definition setServerHidden (serverID : string) (hidden : bool) (a : api_state) : api_state * Z :=
  match GetServer (a_cm a) serverID with
  | None => (a, 404)
  | Some sc =>
      let '(cm, err) := UpdateServer resolve now save_ok (a_cm a) serverID (set_hidden hidden sc) in
      ({| a_cm := cm; a_ps := a_ps a |}, match err with Some _ => 500 | None => 200 end)
  end.

(** [order] visits the listeners and [clients] the sessions; [kicks] is what a listener
    that can kick reports. *)
Definition kickPlayer (kicks : part_ptr -> Z) (order clients : list string) (name reason : string) (a : api_state) : api_state * Z :=
  if String.eqb name "" then (a, 400) else
  let '(p, kickedCount) := ps_KickPlayer kicks order clients name reason (a_ps a) in
  ({| a_cm := a_cm a; a_ps := p |}, if kickedCount =? 0 then 404 else 200).

Definition kickSession (clients : list string) (sessionID : string) (a : api_state) : api_state * Z :=
  if String.eqb sessionID "" then (a, 400) else
  let '(sm, removed) := RemoveByID (ps_sessions (a_ps a)) clients sessionID in
  ({| a_cm := a_cm a; a_ps := set_ps_sessions sm (a_ps a) |}, if removed then 200 else 404).
End handlers.

(** * Facts *)

Section facts.
Context `{Unicode} (mc : machine) (resolve : string -> option string) (now : gotime) (save_ok : bool).

Lemma running_view p id : IsServerRunning p id = match server_view p id with Some _ => true | None => false end.
Proof.
  unfold IsServerRunning, server_view. destruct (ps_listeners p !! id) as [l|]; [apply bool_decide_eq_true; by eexists|].
  apply bool_decide_eq_false. by intros [].
Qed.

(** Starting and reloading one server, when nothing is refused. *)
Lemma StartServer_serves cm id sc p : willing mc -> ps_running p = true -> GetServer cm id = Some sc -> sc_ID sc = id ->
  speeder_enabled sc = false -> server_view p id = None -> server_inv p ->
  serves sc (server_view (StartServer mc cm id p).1 id) /\
  forall k, k <> id -> server_view (StartServer mc cm id p).1 k = server_view p k.
Proof.
  intros Hw Hr Hg Hid Hsp Hv Hi. unfold StartServer. rewrite Hr, Hg. cbn [negb].
  assert (ps_listeners p !! id = None) as Hn by (by apply view_none). rewrite Hn, bool_decide_false by (by intros []). subst id.
  split; [by apply startListener_works|]. intros k Hk. by apply startListener_view.
Qed.

Lemma ReloadServer_serves cm id sc p : willing mc -> ps_running p = true -> GetServer cm id = Some sc -> sc_ID sc = id ->
  sc_Enabled sc = true -> speeder_enabled sc = false -> view_open (server_view p id) -> is_Some (server_view p id) -> server_inv p ->
  serves sc (server_view (ReloadServer mc cm id p).1 id) /\
  forall k, k <> id -> server_view (ReloadServer mc cm id p).1 k = server_view p k.
Proof.
  intros Hw Hr Hg Hid Hen Hsp Hop Hv Hi. unfold ReloadServer. rewrite Hr, Hg. cbn [negb].
  assert (is_Some (ps_listeners p !! id)) as Hl by (unfold server_view in Hv; by destruct (ps_listeners p !! id); [eexists|destruct Hv]).
  rewrite bool_decide_true by done. destruct (stopListener_works mc id p Hw Hop) as [Hnone Herr].
  pose proof (stopListener_inv mc id p Hi) as Hi'. pose proof (fun k => stopListener_view mc id p k Hi) as Hoth.
  destruct (stopListener mc id p) as [p1 err]. cbn [fst snd] in *. destruct Hv as [v Hv]. rewrite Hv in Herr. subst err. rewrite Hen.
  apply view_none in Hnone. subst id. split; [by apply startListener_works|].
  intros k Hk. rewrite startListener_view by done. by apply Hoth.
Qed.

Lemma resolved_fields sc : sc_ID (resolved resolve now sc) = sc_ID sc /\ sc_Enabled (resolved resolve now sc) = sc_Enabled sc /\
  speeder_enabled (resolved resolve now sc) = speeder_enabled sc.
Proof. unfold resolved. by destruct (resolve (sc_Target sc)). Qed.

Lemma saved cm cm' : saveToFile save_ok cm = (cm', None) -> cm_servers cm' = cm_servers cm.
Proof. unfold saveToFile. destruct save_ok; [by intros [= <-]|done]. Qed.

Lemma UpdateServer_stored cm id cfg cm' : UpdateServer resolve now save_ok cm id cfg = (cm', None) ->
  is_Some (cm_servers cm !! id) /\
  cm_servers cm' = <[sc_ID (Normalize cfg) := resolved resolve now (Normalize cfg)]>
                     (if String.eqb id (sc_ID (Normalize cfg)) then cm_servers cm else delete id (cm_servers cm)).
Proof.
  unfold UpdateServer. cbv zeta. destruct (sc_Validate (Normalize cfg)); [done|]. destruct (cm_servers cm !! id) eqn:E; [|done].
  intros Hs. apply saved in Hs. split; [by eexists|]. rewrite Hs. cbn. by destruct (String.eqb id _).
Qed.

Lemma AddServer_stored cm cfg cm' : AddServer resolve now save_ok cm cfg = (cm', None) ->
  cm_servers cm !! sc_ID (Normalize cfg) = None /\
  cm_servers cm' = <[sc_ID (Normalize cfg) := resolved resolve now (Normalize cfg)]> (cm_servers cm).
Proof.
  unfold AddServer. cbv zeta. destruct (sc_Validate (Normalize cfg)); [done|]. destruct (cm_servers cm !! _) eqn:E; [done|].
  intros Hs. apply saved in Hs. by rewrite Hs.
Qed.

Lemma reachable_inv gc acl verifier outbound sm p :
  sm_inv sm -> rtc (server_step mc) (NewProxyServer gc acl verifier outbound sm) p -> server_inv p.
Proof. intros Hsm Hr. eapply server_reachable_inv; [done|by apply NewProxyServer_inv]. Qed.

(** An accepted update of a server takes effect at once: a server that is enabled
    listens with the stored configuration, restarted even when it was running, one that is
    disabled does not listen, and no other server is touched.  A server renamed by the
    update goes on listening under its old name, which the table no longer has. *)
Theorem update_takes_effect (gc : option GlobalConfig) (acl verifier outbound : bool) (sm : SessionManager)
    (serverID : string) (cfg : ServerConfig) (a : api_state) (cm' : ConfigManager) :
  willing mc -> sm_inv sm -> rtc (server_step mc) (NewProxyServer gc acl verifier outbound sm) (a_ps a) ->
  ps_running (a_ps a) = true -> UpdateServer resolve now save_ok (a_cm a) serverID cfg = (cm', None) ->
  let sc := resolved resolve now (Normalize cfg) in
  speeder_enabled sc = false -> view_open (server_view (a_ps a) (sc_ID sc)) ->
  let r := updateServer mc resolve now save_ok serverID cfg a in
  r.2 = 200 /\ a_cm r.1 = cm' /\ GetServer cm' (sc_ID sc) = Some sc /\
  (if sc_Enabled sc then serves sc (server_view (a_ps r.1) (sc_ID sc)) else server_view (a_ps r.1) (sc_ID sc) = None) /\
  (forall k, k <> sc_ID sc -> server_view (a_ps r.1) k = server_view (a_ps a) k) /\
  (serverID <> sc_ID sc -> GetServer cm' serverID = None).
Proof.
  intros Hw Hsm Hrt Hrun Hu sc Hsp Hop r. pose proof (reachable_inv _ _ _ _ _ _ Hsm Hrt) as Hi.
  destruct (UpdateServer_stored _ _ _ _ Hu) as (_ & Hcm). destruct (resolved_fields (Normalize cfg)) as (Eid & Een & _). fold sc in Eid, Een, Hcm.
  assert (GetServer cm' (sc_ID sc) = Some sc) as Hg by (unfold GetServer; rewrite Hcm, Eid; apply lookup_insert_eq).
  assert (serverID <> sc_ID sc -> GetServer cm' serverID = None) as Hren.
  { intros Hne. unfold GetServer. rewrite Hcm, lookup_insert_ne by congruence.
    rewrite (proj2 (String.eqb_neq _ _)) by congruence. apply lookup_delete_eq. }
  subst r. unfold updateServer. rewrite Hu, <- Eid, <- Een. cbn [fst snd a_cm a_ps]. split_and!; [done..| | |done].
  all: rewrite running_view; destruct (server_view (a_ps a) (sc_ID sc)) as [v|] eqn:Ev; destruct (sc_Enabled sc) eqn:En; cbn [andb negb].
  1,5: eapply ReloadServer_serves; try done; rewrite ?Ev; done || by eexists.
  1: by unfold StopServer; rewrite Hrun; cbn [negb]; apply (stopListener_works mc (sc_ID sc) (a_ps a) Hw); rewrite Ev.
  1,4: eapply StartServer_serves; done.
  1: done.
  - unfold StopServer. rewrite Hrun. cbn [negb]. intros k Hk. by apply stopListener_view.
  - done.
Qed.

(** An accepted creation makes an enabled server listen with the stored configuration;
    a creation that is refused leaves every listener alone. *)
Theorem create_takes_effect (gc : option GlobalConfig) (acl verifier outbound : bool) (sm : SessionManager)
    (cfg : ServerConfig) (a : api_state) :
  willing mc -> sm_inv sm -> rtc (server_step mc) (NewProxyServer gc acl verifier outbound sm) (a_ps a) ->
  ps_running (a_ps a) = true ->
  let sc := resolved resolve now (Normalize cfg) in
  speeder_enabled sc = false -> server_view (a_ps a) (sc_ID sc) = None ->
  let r := createServer mc resolve now save_ok cfg a in
  match (AddServer resolve now save_ok (a_cm a) cfg).2 with
  | Some _ => r.2 = 400 /\ a_ps r.1 = a_ps a
  | None => r.2 = 200 /\ GetServer (a_cm r.1) (sc_ID sc) = Some sc /\
      (if sc_Enabled sc then serves sc (server_view (a_ps r.1) (sc_ID sc)) else server_view (a_ps r.1) (sc_ID sc) = None) /\
      forall k, k <> sc_ID sc -> server_view (a_ps r.1) k = server_view (a_ps a) k
  end.
Proof.
  intros Hw Hsm Hrt Hrun sc Hsp Hv r. pose proof (reachable_inv _ _ _ _ _ _ Hsm Hrt) as Hi. subst r. unfold createServer.
  destruct (AddServer resolve now save_ok (a_cm a) cfg) as [cm' [e|]] eqn:Ea; cbn [fst snd a_cm a_ps]; [done|].
  destruct (AddServer_stored _ _ _ Ea) as (_ & Hcm). destruct (resolved_fields (Normalize cfg)) as (Eid & Een & _). fold sc in Eid, Een, Hcm.
  assert (GetServer cm' (sc_ID sc) = Some sc) as Hg by (unfold GetServer; rewrite Hcm, Eid; apply lookup_insert_eq).
  split; [done|]. split; [done|]. rewrite <- Eid, <- Een, running_view, Hv. rewrite andb_true_r.
  destruct (sc_Enabled sc) eqn:En; [|done]. by eapply StartServer_serves.
Qed.

(** A server is deleted from the table only after its listener was closed: 200 means
    that it is neither configured nor listening, 500 that the listener could not be stopped
    and the configuration stays; no other server is touched. *)
Theorem delete_after_stop (gc : option GlobalConfig) (acl verifier outbound : bool) (sm : SessionManager)
    (serverID : string) (a : api_state) :
  sm_inv sm -> rtc (server_step mc) (NewProxyServer gc acl verifier outbound sm) (a_ps a) ->
  let r := deleteServer mc save_ok serverID a in
  (r.2 = 200 -> GetServer (a_cm r.1) serverID = None /\ ps_listeners (a_ps r.1) !! serverID = None) /\
  (r.2 = 500 -> a_cm r.1 = a_cm a /\ is_Some (ps_listeners (a_ps r.1) !! serverID)) /\
  (forall k, k <> serverID -> server_view (a_ps r.1) k = server_view (a_ps a) k /\ GetServer (a_cm r.1) k = GetServer (a_cm a) k).
Proof.
  intros Hsm Hrt r. pose proof (reachable_inv _ _ _ _ _ _ Hsm Hrt) as Hi. subst r. unfold deleteServer, StopServer.
  assert (forall cm k, k <> serverID -> cm_servers (DeleteServer save_ok cm serverID).1 !! k = cm_servers cm !! k) as Hdel.
  { intros cm k Hk. unfold DeleteServer, saveToFile. destruct (cm_servers cm !! serverID); [|done].
    destruct save_ok; cbn; by rewrite lookup_delete_ne. }
  assert (forall cm, (DeleteServer save_ok cm serverID).2 = None -> cm_servers (DeleteServer save_ok cm serverID).1 !! serverID = None) as Hgone.
  { intros cm. unfold DeleteServer, saveToFile. destruct (cm_servers cm !! serverID); [|done].
    destruct save_ok; cbn; [|done]. intros _. apply lookup_delete_eq. }
  specialize (Hdel (a_cm a)). specialize (Hgone (a_cm a)). unfold IsServerRunning. case_bool_decide as Hl.
  - destruct (ps_running (a_ps a)); cbn [negb]; [|by split_and!].
    pose proof (fun k => stopListener_view mc serverID (a_ps a) k Hi) as Hoth.
    assert (match (stopListener mc serverID (a_ps a)).2 with
            | None => ps_listeners (stopListener mc serverID (a_ps a)).1 !! serverID = None
            | Some _ => is_Some (ps_listeners (stopListener mc serverID (a_ps a)).1 !! serverID) end) as Hst.
    { unfold stopListener. destruct Hl as [l Hl]. rewrite Hl. destruct (stop_listener_spec mc l (a_ps a)) as ([Hfl _ _ _] & _).
      destruct (stop_listener mc l (a_ps a)) as [p1 [|]]; cbn in *; [apply lookup_delete_eq|by rewrite Hfl, Hl]. }
    destruct (stopListener mc serverID (a_ps a)) as [p1 [e|]]; cbn [fst snd] in *; [split_and!; [done|done|]; intros k Hk; split; [by apply Hoth|done]|].
    destruct (DeleteServer save_ok (a_cm a) serverID) as [cm' err]. cbn [fst snd a_cm a_ps] in *. unfold GetServer.
    split_and!; [|by destruct err|by auto]. destruct err; [done|]. by auto.
  - assert (ps_listeners (a_ps a) !! serverID = None) as Hn by (apply eq_None_not_Some; exact Hl).
    destruct (DeleteServer save_ok (a_cm a) serverID) as [cm' err]. cbn [fst snd a_cm a_ps] in *. unfold GetServer.
    split_and!; [|by destruct err|by auto]. destruct err; [done|]. by auto.
Qed.

(** A player on servers whose listeners cannot kick, such as transparent ones and those
    behind a UDP speeder, is reported as not online although every session of the player
    has just been ended. *)
Theorem kick_reports_absent (timeout : Z) (cb : bool) (kicks : part_ptr -> Z) (order clients : list string)
    (name reason : string) (a : api_state) :
  rtc sm_step (initial timeout cb) (ps_sessions (a_ps a)) -> iteration_order (ps_sessions (a_ps a)) clients ->
  name <> ""%string -> (forall id l, ps_listeners (a_ps a) !! id = Some l -> kick_listener kicks (a_ps a) l = 0) ->
  let r := kickPlayer kicks order clients name reason a in
  r.2 = 404 /\
  forall addr l s, sessions (ps_sessions (a_ps a)) !! addr = Some l -> heap (ps_sessions (a_ps a)) !! l = Some s ->
    kick_target name s = true -> sessions (ps_sessions (a_ps r.1)) !! addr = None.
Proof.
  intros Hr Hord Hn Hk r. subst r. unfold kickPlayer. rewrite (proj2 (String.eqb_neq _ _)) by done. unfold ps_KickPlayer.
  cbn [fst snd a_ps set_ps_sessions ps_sessions]. split.
  - assert (forall order, foldr (fun id n => match ps_listeners (a_ps a) !! id with
      Some l => kick_listener kicks (a_ps a) l + n | None => n end) 0 order = 0) as ->; [|done].
    induction order0 as [|id l IH]; [done|]. cbn. rewrite IH. destruct (ps_listeners (a_ps a) !! id) eqn:E; [|done]. by rewrite (Hk _ _ E).
  - intros addr l s Hl Hs Ht. destruct (kick_loop name reason (ps_sessions (a_ps a)) clients (sm_reachable_inv _ _ _ Hr) Hord) as [Hx _].
    specialize (Hx addr l s Hl Hs). rewrite Ht in Hx. apply Hx.
Qed.
End facts.

(** ** Witnesses *)

#[local] Existing Instance ascii_unicode.

Definition no_dns : string -> option string := fun _ => None.

(** The server of [Server], running on port 1, or not started. *)
Definition demo_api (sc : ServerConfig) : api_state := {| a_cm := demo_cm sc; a_ps := demo_up sc |}.
Definition empty_api : api_state := {| a_cm := NewConfigManager; a_ps := (ps_Start good_machine NewConfigManager [] demo_new).1 |}.

Lemma demo_open sc : match ps_parts (demo_up sc) !! 0%nat with Some a => pt_open a | None => false end = true ->
  server_view (demo_up sc) "a" = Some (LPart 0, [ps_parts (demo_up sc) !! 0%nat]) -> view_open (server_view (demo_up sc) "a").
Proof.
  intros Ho Hv l ps Hv'. rewrite Hv in Hv'. injection Hv' as _ <-. constructor; [|constructor].
  destruct (ps_parts (demo_up sc) !! 0%nat) as [a|]; [by exists a|done].
Qed.

(** The listen address changed: the socket is bound again, unlike after [Reload]. *)
Lemma update_takes_effect_witness :
  let sc := Normalize (demo_server "raw_udp" ":2" None) in
  serves sc (server_view (a_ps (updateServer good_machine no_dns 7 true "a" (demo_server "raw_udp" ":2" None)
    (demo_api (demo_server "raw_udp" ":1" None))).1) "a").
Proof.
  intros sc.
  destruct (update_takes_effect good_machine no_dns 7 true None true true true (initial 60 true) "a" (demo_server "raw_udp" ":2" None)
    (demo_api (demo_server "raw_udp" ":1" None))
    (UpdateServer no_dns 7 true (demo_cm (demo_server "raw_udp" ":1" None)) "a" (demo_server "raw_udp" ":2" None)).1)
    as (_ & _ & _ & Hs & _).
  - exact good_machine_willing.
  - exact (inv_initial 60 true).
  - exact (demo_up_reachable (demo_server "raw_udp" ":1" None)).
  - by vm_compute.
  - by vm_compute.
  - by vm_compute.
  - apply (demo_open (demo_server "raw_udp" ":1" None)); by vm_compute.
  - exact Hs.
Defined.

Lemma create_takes_effect_witness :
  let sc := Normalize (demo_server "raw_udp" ":1" None) in
  serves sc (server_view (a_ps (createServer good_machine no_dns 7 true (demo_server "raw_udp" ":1" None) empty_api).1) "a").
Proof.
  intros sc.
  pose proof (create_takes_effect good_machine no_dns 7 true None true true true (initial 60 true) (demo_server "raw_udp" ":1" None) empty_api
    good_machine_willing (inv_initial 60 true) (Start_steps good_machine NewConfigManager [] demo_new)
    ltac:(by vm_compute) ltac:(by vm_compute) ltac:(by vm_compute)) as Hc.
  assert ((AddServer no_dns 7 true (a_cm empty_api) (demo_server "raw_udp" ":1" None)).2 = None) as E by (by vm_compute).
  cbv zeta in Hc. rewrite E in Hc. exact (proj1 (proj2 (proj2 Hc))).
Defined.

Lemma delete_after_stop_witness :
  GetServer (a_cm (deleteServer good_machine true "a" (demo_api (demo_server "raw_udp" ":1" None))).1) "a" = None.
Proof.
  apply (proj1 (delete_after_stop good_machine true None true true true (initial 60 true) "a" (demo_api (demo_server "raw_udp" ":1" None))
    (inv_initial 60 true) (demo_up_reachable (demo_server "raw_udp" ":1" None)))). by vm_compute.
Defined.

(** A player on a transparent server. *)
Lemma kick_reports_absent_witness :
  let sm1 := (GetOrCreate (initial 60 true) 100 "id" "a" "lobby").1 in
  let sm2 := via_ptr 0 (run_session_op (OpSetPlayerInfo "u" "Steve")) sm1 in
  let a := {| a_cm := demo_cm (demo_server "" ":1" None); a_ps := set_ps_sessions sm2 (demo_up (demo_server "" ":1" None)) |} in
  (kickPlayer (fun _ => 1) ["a"%string] ["a"%string] "steve" "bye" a).2 = 404 /\
  sessions (ps_sessions (a_ps (kickPlayer (fun _ => 1) ["a"%string] ["a"%string] "steve" "bye" a).1)) !! "a"%string = None.
Proof.
  intros sm1 sm2 a.
  assert (rtc sm_step (initial 60 true) sm2) as Hr.
  { eapply rtc_l; [apply (step_GetOrCreate _ 100 "id" "a" "lobby")|]. apply rtc_once, step_session_op. }
  destruct (heap sm2 !! 0%nat) as [s|] eqn:Es; [|by vm_compute in Es].
  destruct (kick_reports_absent 60 true (fun _ => 1) ["a"%string] ["a"%string] "steve" "bye" a Hr) as [H1 H2].
  - by vm_compute.
  - done.
  - intros id l Hl. assert (ps_listeners (a_ps a) = {["a"%string := LPart 0]}) as E by (by vm_compute). rewrite E in Hl.
    apply lookup_singleton_Some in Hl as [_ <-]. by vm_compute.
  - split; [exact H1|]. apply (H2 "a"%string 0%nat s); [by vm_compute|exact Es|]. vm_compute in Es. injection Es as <-. by vm_compute.
Defined.
