(* ===== verification/Tunnel.v ===== *)
(** * Tunnels: [internal/proxy/singbox_factory.go]

    The parts of the sing-box factory the repository implements itself: WebSocket frames
    on a transport connection, the Trojan request and its UDP packets, the VLESS and
    VMess request headers, destinations and UUIDs, native Shadowsocks UDP packets and the
    port hopping of Hysteria2.  The encrypted transports are sing-box, sing-vmess,
    Hysteria and xray-core.

    A connection is the bytes that its reader will still deliver before the end of the
    stream, and the writes made on it.  A function that reads returns what is left of the
    stream in every case, since a later call goes on from there. *)

From Stdlib Require Import Strings.Ascii Strings.String.
From stdpp Require Import pretty.
From S2P Require Import Prelude GoBytes GoString Base64 Config NetIP NetIPText NetURL Socks.

(** ** Reading a stream *)

Inductive stream_err :=
| StreamEOF
| StreamUnexpectedEOF
| FrameTooLarge (n : Z)
| ControlFrameTooLong (n : Z)
| UnknownAddressType (atyp : Z)
| NoMaskKey
| StreamFuel.

Definition stream (A : Type) : Type := bytes -> bytes * outcome stream_err A.

#[export] Instance stream_ret : MRet stream := fun A a i => (i, Ret a).
#[export] Instance stream_bind : MBind stream := fun A B f m i =>
  let '(i, r) := m i in
  match r with
  | Ret a => f a i
  | Err e => (i, Err e)
  | Panic => (i, Panic)
  end.

Definition stream_fail {A} (e : stream_err) : stream A := fun i => (i, Err e).

(** [io.ReadFull(reader, buf)] with [len(buf) = n]: what is there is consumed when it is
    too short. *)
Definition read_full (n : Z) : stream bytes := fun i =>
  if n <=? 0 then (i, Ret [])
  else if zlen i <? n then ([], Err (match i with [] => StreamEOF | _ => StreamUnexpectedEOF end))
  else (drop (Z.to_nat n) i, Ret (take (Z.to_nat n) i)).

(** ** WebSocket frames *)

Definition maxWebSocketFramePayload : Z := 16 * 1024 * 1024.

Record wsConn := {
  ws_reader : bytes;        (* what the peer will still send *)
  ws_readBuf : bytes;
  ws_readOffset : Z;
  ws_keys : nat;            (* masking keys drawn *)
  ws_writes : nat;          (* writes tried *)
  ws_sent : list bytes }.   (* writes that succeeded *)

Definition ws_open (reader : bytes) : wsConn :=
  {| ws_reader := reader; ws_readBuf := []; ws_readOffset := 0; ws_keys := 0; ws_writes := 0; ws_sent := [] |}.

Definition set_reader (reader : bytes) (c : wsConn) : wsConn :=
  {| ws_reader := reader; ws_readBuf := ws_readBuf c; ws_readOffset := ws_readOffset c; ws_keys := ws_keys c;
     ws_writes := ws_writes c; ws_sent := ws_sent c |}.

Definition set_readBuf (buf : bytes) (offset : Z) (c : wsConn) : wsConn :=
  {| ws_reader := ws_reader c; ws_readBuf := buf; ws_readOffset := offset; ws_keys := ws_keys c;
     ws_writes := ws_writes c; ws_sent := ws_sent c |}.

Definition draw_key (c : wsConn) : wsConn :=
  {| ws_reader := ws_reader c; ws_readBuf := ws_readBuf c; ws_readOffset := ws_readOffset c; ws_keys := S (ws_keys c);
     ws_writes := ws_writes c; ws_sent := ws_sent c |}.

Definition readWebSocketPayloadLength (indicator : Z) : stream Z :=
  payloadLen ← (if indicator =? 126 then (extLen ← read_full 2; mret (be_uint extLen))
                else if indicator =? 127 then (extLen ← read_full 8; mret (be_uint extLen))
                else mret indicator);
  if maxWebSocketFramePayload <? payloadLen then stream_fail (FrameTooLarge payloadLen)
  else mret payloadLen.

(** [payload[i] ^= maskKey[i%4]] *)
Definition xor_byte (a k : byte) : byte := z2b (Z.lxor (b2z a) (b2z k)).
Fixpoint mask_from (i : nat) (key : bytes) (payload : bytes) : bytes :=
  match payload with
  | [] => []
  | b :: r => xor_byte b (default x00 (key !! (i mod 4)%nat)) :: mask_from (S i) key r
  end.
Definition mask (key payload : bytes) : bytes := mask_from 0 key payload.

(** One frame: its opcode and its payload, unmasked. *)
Definition read_ws_frame : stream (Z * bytes) :=
  header ← read_full 2;
  let h0 := b2z (default x00 (header !! 0%nat)) in
  let h1 := b2z (default x00 (header !! 1%nat)) in
  let opcode := Z.land h0 0x0F in
  let masked := negb (Z.land h1 0x80 =? 0) in
  payloadLen ← readWebSocketPayloadLength (Z.land h1 0x7F);
  if (8 <=? opcode) && (125 <? payloadLen) then stream_fail (ControlFrameTooLong payloadLen) else
  maskKey ← (if masked then read_full 4 else mret (raw [0; 0; 0; 0]));
  payload ← read_full payloadLen;
  mret (opcode, if masked then mask maskKey payload else payload).

(** The header of [writeFrame], without the key. *)
Definition ws_header (opcode payloadLen : Z) : bytes :=
  raw [Z.lor 0x80 opcode] ++
  (if payloadLen <? 126 then raw [Z.lor 0x80 (u8 payloadLen)]
   else if payloadLen <? 65536 then raw [Z.lor 0x80 126] ++ raw [Z.shiftr payloadLen 8; payloadLen]
   else raw [Z.lor 0x80 127] ++ be_bytes 8 payloadLen).

Section websocket.
(** [maskKey k]: the [k]-th key of [crypto/rand]; [conn_ok k]: whether the [k]-th write on
    the connection succeeds. *)
Context (maskKey : nat -> option bytes) (conn_ok : nat -> bool).

(** [c.Conn.Write]: nothing of a failing write is sent. *)
Definition conn_write (b : bytes) (c : wsConn) : wsConn * bool :=
  let ok := conn_ok (ws_writes c) in
  ({| ws_reader := ws_reader c; ws_readBuf := ws_readBuf c; ws_readOffset := ws_readOffset c; ws_keys := ws_keys c;
      ws_writes := S (ws_writes c); ws_sent := if ok then ws_sent c ++ [b] else ws_sent c |}, ok).

(** The count written, or [None] for an error.  The connection is never nil. *)
Definition writeFrame (opcode : Z) (payload : bytes) (c : wsConn) : wsConn * option Z :=
  let header := ws_header opcode (zlen payload) in
  match maskKey (ws_keys c) with
  | None => (draw_key c, None)
  | Some key =>
      let c := draw_key c in
      let '(c, ok) := conn_write (header ++ key) c in
      if negb ok then (c, None) else
      let '(c, ok) := conn_write (mask key payload) c in
      if negb ok then (c, None) else (c, Some (zlen payload))
  end.

Definition ws_Write (p : bytes) (c : wsConn) : wsConn * option Z := writeFrame 2 p c.

(** The loop of [Read] on a buffer of [room] bytes. *)
Fixpoint ws_read_loop (fuel : nat) (room : Z) (c : wsConn) : wsConn * outcome stream_err bytes :=
  match fuel with
  | O => (c, Err StreamFuel)
  | S fuel =>
      let '(reader, r) := read_ws_frame (ws_reader c) in
      let c := set_reader reader c in
      match r with
      | Err e => (c, Err e)
      | Panic => (c, Panic)
      | Ret (opcode, payload) =>
          if opcode =? 8 then (c, Err StreamEOF)
          else if opcode =? 9 then ws_read_loop fuel room (fst (writeFrame 10 payload c))
          else if opcode =? 10 then ws_read_loop fuel room c
          else
            let n := Z.min room (zlen payload) in
            (if n <? zlen payload then set_readBuf payload n c else c, Ret (take (Z.to_nat n) payload))
      end
  end.

(** [Read(p)] with [len(p) = room]: the bytes copied.  A frame has two bytes at least, so
    the length of the stream is enough fuel. *)
Definition ws_Read (room : Z) (c : wsConn) : wsConn * outcome stream_err bytes :=
  if room =? 0 then (c, Ret [])
  else if ws_readOffset c <? zlen (ws_readBuf c) then
    let left := drop (Z.to_nat (ws_readOffset c)) (ws_readBuf c) in
    let n := Z.min room (zlen left) in
    let offset := ws_readOffset c + n in
    (if zlen (ws_readBuf c) <=? offset then set_readBuf [] 0 c else set_readBuf (ws_readBuf c) offset c,
     Ret (take (Z.to_nat n) left))
  else ws_read_loop (S (List.length (ws_reader c))) room c.

End websocket.

(** ** Destinations *)

(** [netip.ParseAddr]: four or sixteen octets.  A zone is accepted on an IPv6 address and
    plays no part in the octets. *)
Definition netip_ParseAddr (s : string) : option octets :=
  match addr_family s with
  | Some "."%char => parseIPv4 s
  | Some ":"%char =>
      match cut "%" s with
      | None => parseIPv6 s
      | Some (addr, zone) => if String.eqb zone "" then None else parseIPv6 addr
      end
  | _ => None
  end.

(** [services]: the service names of the system. *)
Definition parseDestination (services : string -> option Z) (destination : string) : option Socksaddr :=
  host ← split_host destination;
  portStr ← split_port destination;
  port ← LookupPort services portStr;
  Some (match netip_ParseAddr host with
        | Some ip => {| sa_Fqdn := ""; sa_IP := ip; sa_Port := port |}
        | None => {| sa_Fqdn := host; sa_IP := []; sa_Port := port |}
        end).

(** [SingboxOutbound.initHysteria2] starts from the same two functions: the host and the
    port of the server, before the host is resolved. *)
Definition hy2_server (services : string -> option Z) (server : string) (port : Z) : option (string * Z) :=
  let serverAddr := (server ++ String ":" (pretty port))%string in
  host ← split_host serverAddr;
  portStr ← split_port serverAddr;
  port ← LookupPort services portStr;
  Some (host, port).

Definition appendSocksaddrWithoutPort (addr : Socksaddr) : bytes :=
  if negb (String.eqb (sa_Fqdn addr) "") then raw [2; slen (sa_Fqdn addr)] ++ bytes_of (sa_Fqdn addr)
  else if zlen (sa_IP addr) =? 4 then raw (1 :: sa_IP addr)
  else raw (3 :: as16 (sa_IP addr)).

(** ** UUIDs and hexadecimal values *)

Definition hex_value (b : byte) : option Z := hex_digit (ascii_of_byte b).

(** [hex.Decode(dst, src)] with [len(dst) = room]: the bytes decoded.  A digit pair past
    the end of [dst] panics, an invalid digit is an error, in the order of the text. *)
Fixpoint hex_Decode (room : nat) (src : bytes) {struct src} : outcome unit bytes :=
  match src with
  | [] => Ret []
  | [p] => Err tt
  | p :: q :: r =>
      match hex_value p, hex_value q with
      | Some a, Some b =>
          match room with
          | O => Panic
          | S room => rest ← hex_Decode room r; Ret (z2b (a * 16 + b) :: rest)
          end
      | _, _ => Err tt
      end
  end.

(** [strings.ReplaceAll(s, "-", ``)] *)
Definition without_dashes (s : bytes) : bytes := filter (fun b => b2z b <> 45) s.

Definition parseUUID (s : string) : outcome unit bytes :=
  let s := without_dashes (bytes_of s) in
  if negb (zlen s =? 32) then Err tt else hex_Decode 16 s.

(** The eight bytes, padded with zeros. *)
Definition decodeRealityShortIDValue (value : string) : outcome unit bytes :=
  let value := trim_space value in
  if String.eqb value "" then Ret (replicate 8 x00)
  else b ← hex_Decode 8 (bytes_of value); Ret (b ++ replicate (8 - List.length b) x00).

(** ** Request headers *)

Section handshakes.
(** SHA-224. *)
Context (sha224 : bytes -> bytes).

Definition hex_byte (b : byte) : bytes :=
  bytes_of (String (hex_char (b2z b / 16)) (String (hex_char (b2z b mod 16)) EmptyString)).
Definition sha224Hex (s : string) : bytes := concat (hex_byte <$> sha224 (bytes_of s)).

Definition crlf : bytes := raw [13; 10].

(** The bytes written; the error is that of the write. *)
Definition writeTrojanHandshake (password : string) (dest : Socksaddr) (udp : bool) : bytes :=
  sha224Hex password ++ crlf ++ raw [if udp then 3 else 1] ++ appendSocksaddr dest ++ crlf.

End handshakes.

Definition writeVMessHandshake (uuidStr : string) (alterID : Z) (dest : Socksaddr) (udp : bool) : outcome unit bytes :=
  uuid ← parseUUID uuidStr;
  Ret (raw [1] ++ uuid ++ raw [alterID] ++ raw [if udp then 2 else 1]
       ++ raw [Z.shiftr (sa_Port dest) 8; sa_Port dest] ++ appendSocksaddrWithoutPort dest).

Definition writeVLESSHandshake (uuidStr : string) (dest : Socksaddr) (udp : bool) : outcome unit bytes :=
  uuid ← parseUUID uuidStr;
  Ret (raw [0] ++ uuid ++ raw [0] ++ raw [if udp then 2 else 1]
       ++ raw [Z.shiftr (sa_Port dest) 8; sa_Port dest] ++ appendSocksaddrWithoutPort dest).

(** ** The UDP packets of Trojan *)

(** [trojanPacketConn.ReadFrom(p)] with [len(p) = room]: the bytes copied and the address
    before its conversion to [net.Addr]. *)
Definition trojan_ReadFrom (room : Z) : stream (bytes * Socksaddr) :=
  header ← read_full 1;
  let atyp := b2z (default x00 (header !! 0%nat)) in
  addr ← (if atyp =? 1 then (b ← read_full 4; mret (""%string, map b2z b))
          else if atyp =? 3 then
            (lenBuf ← read_full 1; b ← read_full (b2z (default x00 (lenBuf !! 0%nat))); mret (string_of b, []))
          else if atyp =? 4 then (b ← read_full 16; mret (""%string, map b2z b))
          else stream_fail (UnknownAddressType atyp));
  portBuf ← read_full 2;
  lenBuf2 ← read_full 2;
  let length := be_uint lenBuf2 in
  _ ← read_full 2;
  let toCopy := Z.min length room in
  p ← read_full toCopy;
  _ ← read_full (length - toCopy);
  mret (p, {| sa_Fqdn := addr.1; sa_IP := addr.2; sa_Port := port_of portBuf |}).

Definition trojan_WriteTo (destination : Socksaddr) (p : bytes) : bytes :=
  appendSocksaddr destination ++ raw [Z.shiftr (zlen p) 8; zlen p] ++ crlf ++ p.

(** ** Native Shadowsocks UDP packets *)

Definition ssAEADOverhead : Z := 16.
(** The buffer a datagram is read into. *)
Definition large_buffer : Z := 32768.

Inductive ss_err := SSTooShort | SSCipher | SSDecrypt | SSAddress | SSWriteAddress.

(** The ciphers and the key derivation of crypto and x/crypto, and the address format of
    sing. *)
Record ss_lib := {
  ss_kdf : bytes -> bytes -> Z -> bytes;                 (* HKDF-SHA1 with ss-subkey *)
  ss_constructor : bytes -> bool;                        (* whether a key is accepted *)
  ss_Seal : bytes -> bytes -> bytes;                     (* key, plaintext; zero nonce *)
  ss_Open : bytes -> bytes -> option bytes;
  ss_WriteAddrPort : Socksaddr -> option bytes;
  ss_ReadAddrPort : bytes -> option (Socksaddr * bytes) }.

Section shadowsocks.
Context (lib : ss_lib).

Definition ssKdf (key salt : bytes) (keyLen : Z) : bytes := ss_kdf lib key salt keyLen.

(** [ReadFrom(p)] on a datagram, with [len(p) = room]. *)
Definition ss_ReadFrom (key : bytes) (keySaltLen room : Z) (datagram : bytes) : outcome ss_err (bytes * Socksaddr) :=
  let rawBuf := take (Z.to_nat large_buffer) datagram in
  let n := zlen rawBuf in
  if n <? keySaltLen + ssAEADOverhead then Err SSTooShort else
  salt ← slice rawBuf 0 keySaltLen;
  let subkey := ssKdf key salt keySaltLen in
  if negb (ss_constructor lib subkey) then Err SSCipher else
  sealed ← slice rawBuf keySaltLen n;
  match ss_Open lib subkey sealed with
  | None => Err SSDecrypt
  | Some plaintext =>
      match ss_ReadAddrPort lib plaintext with
      | None => Err SSAddress
      | Some (dest, payload) => Ret (take (Z.to_nat room) payload, dest)
      end
  end.

(** [WriteTo(p, _)] with the salt drawn: the datagram sent. *)
Definition ss_WriteTo (key : bytes) (keySaltLen : Z) (destination : Socksaddr) (salt p : bytes) : outcome ss_err bytes :=
  match ss_WriteAddrPort lib destination with
  | None => Err SSWriteAddress
  | Some addr =>
      let subkey := ssKdf key salt keySaltLen in
      if negb (ss_constructor lib subkey) then Err SSCipher
      else Ret (salt ++ ss_Seal lib subkey (addr ++ p))
  end.

End shadowsocks.

(** ** Port hopping *)

Definition parsePortRange (services : string -> option Z) (portRange : string) : option (Z * Z) :=
  match split1 "-" portRange with
  | [a; b] =>
      start ← LookupPort services (trim_space a);
      end_ ← LookupPort services (trim_space b);
      if end_ <? start then None else Some (start, end_)
  | _ => None
  end.

(** The fields of [portHoppingPacketConn] that hopping uses. *)
Record hop_conn := {
  hc_portStart : Z;
  hc_portEnd : Z;
  hc_hopInterval : Z;
  hc_currentPort : Z;
  hc_lastHop : gotime }.

(** [portStart + int(time.Now().UnixNano()%int64(portRange))]; Go's [%] truncates. *)
Definition selectRandomPort (portStart portEnd : Z) (unixNano : Z) : Z :=
  portStart + Z.rem unixNano (portEnd - portStart + 1).

Definition unix_nano (t : gotime) : Z := i64 (t - unix_epoch).

(** [hy2PortHoppingConnFactory.New]: [None] for a connection that does not hop. *)
Definition new_hop_conn (portStart portEnd hopInterval : Z) (now : gotime) : option hop_conn :=
  if (0 <? portStart) && (0 <? portEnd) && (portStart <? portEnd) then
    Some {| hc_portStart := portStart; hc_portEnd := portEnd; hc_hopInterval := hopInterval;
            hc_currentPort := selectRandomPort portStart portEnd (unix_nano now); hc_lastHop := now |}
  else None.

(** [WriteTo] and [WriteMsgUDP]: the port the packet is sent to. *)
Definition hop_write (now : gotime) (c : hop_conn) : hop_conn * Z :=
  let c :=
    if hc_hopInterval c <=? time_sub now (hc_lastHop c) then
      {| hc_portStart := hc_portStart c; hc_portEnd := hc_portEnd c; hc_hopInterval := hc_hopInterval c;
         hc_currentPort := selectRandomPort (hc_portStart c) (hc_portEnd c) (unix_nano now); hc_lastHop := now |}
    else c in
  (c, hc_currentPort c).

(** What [initHysteria2] makes of the settings: the range (zeros when there is none) and
    the interval between hops. *)
Definition hy2_port_range (services : string -> option Z) (portHopping : string) : option (Z * Z) :=
  if negb (String.eqb portHopping "") && contains1 portHopping "-" then parsePortRange services portHopping
  else Some (0, 0).

Definition hy2_hop_interval (hopInterval : Z) : Z := if 0 <? hopInterval then i64 (hopInterval * second) else 10 * second.

(** The port of the first packet: [selectedPort] of the client's configuration. *)
Definition hy2_selected_port (port portStart portEnd : Z) (now : gotime) : Z :=
  if (0 <? portStart) && (0 <? portEnd) then selectRandomPort portStart portEnd (unix_nano now) else port.

(** * Facts *)

Lemma stream_bind_Ret {A B} (m : stream A) (f : A -> stream B) i i' a :
  m i = (i', Ret a) -> (m ≫= f) i = f a i'.
Proof. intros E. unfold mbind, stream_bind. by rewrite E. Qed.

Lemma read_full_app a k : read_full (zlen a) (a ++ k) = (k, Ret a).
Proof.
  unfold read_full. destruct (Z.leb_spec (zlen a) 0) as [Ha|Ha].
  - pose proof (zlen_nonneg a). assert (a = []) as -> by (apply zlen_nil_inv; lia). done.
  - rewrite zlen_app. pose proof (zlen_nonneg k). destruct (Z.ltb_spec (zlen a + zlen k) (zlen a)); [lia|].
    unfold zlen. rewrite Nat2Z.id. by rewrite take_app_length, drop_app_length.
Qed.

Lemma read_full_app_n n a k : zlen a = n -> read_full n (a ++ k) = (k, Ret a).
Proof. intros <-. apply read_full_app. Qed.

(** ** Masking *)

Lemma lxor_byte x y : 0 <= x < 256 -> 0 <= y < 256 -> 0 <= Z.lxor x y < 256.
Proof.
  intros Hx Hy. rewrite <- (Z.mod_small x 256), <- (Z.mod_small y 256) by lia.
  change 256 with (2 ^ 8). rewrite <- !Z.land_ones by lia.
  assert (Z.lxor (Z.land x (Z.ones 8)) (Z.land y (Z.ones 8)) = Z.land (Z.lxor x y) (Z.ones 8)) as ->.
  { apply Z.bits_inj'. intros n Hn. rewrite !Z.lxor_spec, !Z.land_spec, Z.lxor_spec.
    by destruct (Z.testbit x n), (Z.testbit y n), (Z.testbit (Z.ones 8) n). }
  rewrite Z.land_ones by lia. apply Z.mod_pos_bound. lia.
Qed.

Lemma xor_byte_twice a k : xor_byte (xor_byte a k) k = a.
Proof.
  apply b2z_inj. unfold xor_byte. pose proof (b2z_range a) as Ha. pose proof (b2z_range k) as Hk.
  pose proof (lxor_byte _ _ Ha Hk) as Hx.
  rewrite (b2z_small (Z.lxor (b2z a) (b2z k))) by done.
  rewrite Z.lxor_assoc, Z.lxor_nilpotent, Z.lxor_0_r. by apply b2z_small.
Qed.

Lemma mask_twice key payload : mask key (mask key payload) = payload.
Proof.
  unfold mask. generalize 0%nat. induction payload as [|b r IH]; intros i; [done|].
  cbn [mask_from]. by rewrite xor_byte_twice, IH.
Qed.

Lemma length_mask key payload : List.length (mask key payload) = List.length payload.
Proof. unfold mask. generalize 0%nat. induction payload as [|b r IH]; intros i; [done|]. cbn. by rewrite IH. Qed.

Lemma zlen_mask key payload : zlen (mask key payload) = zlen payload.
Proof. unfold zlen. by rewrite length_mask. Qed.

(** ** The frames of a peer *)

(** A frame as RFC 6455 lays it out: the first byte, the key when it is masked, the
    payload. *)
Record ws_frame := { fr_first : Z; fr_key : option bytes; fr_payload : bytes }.

Definition fr_opcode (f : ws_frame) : Z := fr_first f mod 16.

Definition frame_length (mask_bit n : Z) : bytes :=
  if n <? 126 then raw [mask_bit + n]
  else if n <? 65536 then raw [mask_bit + 126] ++ be_bytes 2 n
  else raw [mask_bit + 127] ++ be_bytes 8 n.

Definition frame_bytes (f : ws_frame) : bytes :=
  raw [fr_first f] ++
  match fr_key f with
  | Some key => frame_length 128 (zlen (fr_payload f)) ++ key ++ mask key (fr_payload f)
  | None => frame_length 0 (zlen (fr_payload f)) ++ fr_payload f
  end.

(** What the reader accepts: a payload of at most 16 MiB, 125 bytes for control frames. *)
Definition frame_ok (f : ws_frame) : Prop :=
  0 <= fr_first f < 256 /\ zlen (fr_payload f) <= maxWebSocketFramePayload /\
  (8 <= fr_opcode f -> zlen (fr_payload f) <= 125) /\
  (forall key, fr_key f = Some key -> zlen key = 4).

Definition low_bits : bool :=
  forallb (fun x => (Z.land (128 + x) 128 =? 128) && (Z.land x 128 =? 0)
                    && (Z.land (128 + x) 127 =? x) && (Z.land x 127 =? x)) (Z.of_nat <$> seq 0 128).

Lemma low_bits_ok x : 0 <= x < 128 ->
  Z.land (128 + x) 128 = 128 /\ Z.land x 128 = 0 /\ Z.land (128 + x) 127 = x /\ Z.land x 127 = x.
Proof.
  intros Hx. assert (low_bits = true) as H by (vm_compute; reflexivity).
  unfold low_bits in H. rewrite forallb_forall in H. specialize (H x).
  rewrite !andb_true_iff, !Z.eqb_eq in H. destruct H as [[[? ?] ?] ?]; [|done].
  apply in_map_iff. exists (Z.to_nat x). split; [lia|]. apply in_seq. lia.
Qed.

Lemma read_frame_length (m : bool) n first k : 0 <= n <= maxWebSocketFramePayload ->
  exists ind i, read_full 2 (raw [first] ++ frame_length (if m then 128 else 0) n ++ k) = (i, Ret (raw [first; ind])) /\
    readWebSocketPayloadLength (Z.land (b2z (z2b ind)) 127) i = (k, Ret n) /\
    negb (Z.land (b2z (z2b ind)) 128 =? 0) = m.
Proof.
  intros Hn. unfold frame_length, maxWebSocketFramePayload in *.
  assert (forall x, 0 <= x < 128 -> let ind := (if m then 128 else 0) + x in
    Z.land (b2z (z2b ind)) 127 = x /\ negb (Z.land (b2z (z2b ind)) 128 =? 0) = m) as Hbits.
  { intros x Hx. cbv zeta. destruct (low_bits_ok x Hx) as (H1 & H2 & H3 & H4).
    destruct m; rewrite b2z_small by lia; rewrite ?Z.add_0_l, ?H1, ?H2, ?H3, ?H4; done. }
  destruct (Z.ltb_spec n 126) as [H1|H1]; [|destruct (Z.ltb_spec n 65536) as [H2|H2]].
  - destruct (Hbits n) as [E1 E2]; [lia|].
    eexists _, _. rewrite app_assoc. split; [apply (read_full_app_n 2 (raw [first; _])); reflexivity|]. split; [|exact E2].
    rewrite E1. unfold readWebSocketPayloadLength.
    destruct (Z.eqb_spec n 126); [lia|]. destruct (Z.eqb_spec n 127); [lia|].
    erewrite stream_bind_Ret by reflexivity. unfold maxWebSocketFramePayload.
    destruct (Z.ltb_spec (16 * 1024 * 1024) n); [lia|done].
  - destruct (Hbits 126) as [E1 E2]; [lia|].
    eexists _, _. rewrite <- !app_assoc, app_assoc. split; [apply (read_full_app_n 2 (raw [first; _])); reflexivity|]. split; [|exact E2].
    rewrite E1. unfold readWebSocketPayloadLength. cbn [Z.eqb Pos.eqb].
    erewrite stream_bind_Ret.
    2: { erewrite stream_bind_Ret by (apply (read_full_app_n 2); apply zlen_be_bytes).
         rewrite be_uint_be_bytes, wrapU_small by (cbn; lia). reflexivity. }
    unfold maxWebSocketFramePayload. destruct (Z.ltb_spec (16 * 1024 * 1024) n); [lia|done].
  - destruct (Hbits 127) as [E1 E2]; [lia|].
    eexists _, _. rewrite <- !app_assoc, app_assoc. split; [apply (read_full_app_n 2 (raw [first; _])); reflexivity|]. split; [|exact E2].
    rewrite E1. unfold readWebSocketPayloadLength. cbn [Z.eqb Pos.eqb].
    erewrite stream_bind_Ret.
    2: { erewrite stream_bind_Ret by (apply (read_full_app_n 8); apply zlen_be_bytes).
         rewrite be_uint_be_bytes, wrapU_small by (cbn; lia). reflexivity. }
    unfold maxWebSocketFramePayload. destruct (Z.ltb_spec (16 * 1024 * 1024) n); [lia|done].
Qed.

Lemma land_15 x : 0 <= x -> Z.land x 15 = x mod 16.
Proof. intros Hx. change 15 with (Z.ones 4). rewrite Z.land_ones by lia. done. Qed.

(** A frame is read back whatever follows it. *)
Lemma read_ws_frame_ok f k : frame_ok f ->
  read_ws_frame (frame_bytes f ++ k) = (k, Ret (fr_opcode f, fr_payload f)).
Proof.
  intros (Hf & Hp & Hctl & Hkey). pose proof (zlen_nonneg (fr_payload f)) as H0.
  assert (Z.land (b2z (z2b (fr_first f))) 15 = fr_opcode f) as Eop by (rewrite b2z_small, land_15 by lia; done).
  assert (((8 <=? fr_opcode f) && (125 <? zlen (fr_payload f))) = false) as Ec.
  { destruct (Z.leb_spec 8 (fr_opcode f)); [|done]. destruct (Z.ltb_spec 125 (zlen (fr_payload f))); [lia|done]. }
  unfold read_ws_frame, frame_bytes.
  destruct (fr_key f) as [key|] eqn:Ek.
  - destruct (read_frame_length true (zlen (fr_payload f)) (fr_first f) (key ++ mask key (fr_payload f) ++ k)) as (ind & i & E1 & E2 & E3); [lia|].
    rewrite <- !app_assoc. rewrite (stream_bind_Ret _ _ _ _ _ E1). cbn [raw map lookup list_lookup default from_option id]. cbv zeta.
    rewrite (stream_bind_Ret _ _ _ _ _ E2), E3, Eop, Ec.
    rewrite (stream_bind_Ret _ _ _ (mask key (fr_payload f) ++ k) key) by (apply read_full_app_n; auto).
    rewrite (stream_bind_Ret _ _ _ k (mask key (fr_payload f))) by (apply read_full_app_n, zlen_mask).
    by rewrite mask_twice.
  - destruct (read_frame_length false (zlen (fr_payload f)) (fr_first f) (fr_payload f ++ k)) as (ind & i & E1 & E2 & E3); [lia|].
    rewrite <- !app_assoc. rewrite (stream_bind_Ret _ _ _ _ _ E1). cbn [raw map lookup list_lookup default from_option id]. cbv zeta.
    rewrite (stream_bind_Ret _ _ _ _ _ E2), E3, Eop, Ec.
    rewrite (stream_bind_Ret _ _ _ (fr_payload f ++ k) (raw [0;0;0;0])) by done.
    by rewrite (stream_bind_Ret _ _ _ k (fr_payload f)) by apply read_full_app.
Qed.

(** What [writeFrame] sends is a frame of that layout. *)
Lemma ws_header_frame opcode payload key : 0 <= opcode < 16 -> zlen payload < 2 ^ 63 ->
  ws_header opcode (zlen payload) ++ key ++ mask key payload
    = frame_bytes {| fr_first := 128 + opcode; fr_key := Some key; fr_payload := payload |}.
Proof.
  intros Ho Hp. pose proof (zlen_nonneg payload) as H0. unfold ws_header, frame_bytes, frame_length. cbn [fr_first fr_key fr_payload].
  assert (forall x, 0 <= x < 128 -> Z.lor 128 x = 128 + x) as Hor.
  { intros x Hx. destruct (low_bits_ok x Hx) as (_ & H & _). rewrite Z.land_comm in H.
    by rewrite <- Z.lxor_lor, Z.add_nocarry_lxor. }
  rewrite (Hor opcode) by lia. rewrite <- !app_assoc. f_equal.
  destruct (Z.ltb_spec (zlen payload) 126) as [H1|H1]; [|destruct (Z.ltb_spec (zlen payload) 65536) as [H2|H2]].
  - rewrite (wrapU_small 8), Hor by lia. done.
  - rewrite <- !app_assoc. f_equal. by rewrite port_bytes.
  - rewrite <- !app_assoc. done.
Qed.

(** ** The reader *)

Section websocket_reader.
Context (maskKey : nat -> option bytes) (conn_ok : nat -> bool).

Local Notation writeFrame := (writeFrame maskKey conn_ok).
Local Notation ws_read_loop := (ws_read_loop maskKey conn_ok).
Local Notation ws_Read := (ws_Read maskKey conn_ok).

Definition frames (l : list ws_frame) : bytes := concat (frame_bytes <$> l).

Definition is_data (f : ws_frame) : Prop := fr_opcode f <> 8 /\ fr_opcode f <> 9 /\ fr_opcode f <> 10.
#[global] Instance is_data_dec f : Decision (is_data f) := _.

(** The bytes a peer sends in its data frames, and the payloads of its pings. *)
Definition data_of (l : list ws_frame) : bytes := concat (fr_payload <$> filter is_data l).
Definition pings_of (l : list ws_frame) : list bytes := fr_payload <$> filter (fun f => fr_opcode f = 9) l.

(** The pongs that answer a list of pings. *)
Definition pong_all (pings : list bytes) (c : wsConn) : wsConn :=
  fold_left (fun c p => (writeFrame 10 p c).1) pings c.

(** The end of a stream: the connection is closed, with or without a close frame. *)
Definition ws_end (tail : bytes) : Prop :=
  tail = [] \/ exists f rest, tail = frame_bytes f ++ rest /\ frame_ok f /\ fr_opcode f = 8.

Lemma set_reader_writeFrame op p r c :
  writeFrame op p (set_reader r c) = (set_reader r (writeFrame op p c).1, (writeFrame op p c).2).
Proof.
  unfold Tunnel.writeFrame. cbn [ws_keys set_reader]. destruct (maskKey (ws_keys c)); [|done].
  unfold conn_write, draw_key. cbn. destruct (conn_ok (ws_writes c)); cbn; [|done].
  by destruct (conn_ok (S (ws_writes c))).
Qed.

Lemma set_readBuf_writeFrame op p b o c :
  writeFrame op p (set_readBuf b o c) = (set_readBuf b o (writeFrame op p c).1, (writeFrame op p c).2).
Proof.
  unfold Tunnel.writeFrame. cbn [ws_keys set_readBuf]. destruct (maskKey (ws_keys c)); [|done].
  unfold conn_write, draw_key. cbn. destruct (conn_ok (ws_writes c)); cbn; [|done].
  by destruct (conn_ok (S (ws_writes c))).
Qed.

Lemma pong_all_set_reader l r c : pong_all l (set_reader r c) = set_reader r (pong_all l c).
Proof.
  revert c. induction l as [|p l IH]; intros c; [done|]. unfold pong_all in *. cbn [fold_left].
  rewrite set_reader_writeFrame. apply IH.
Qed.

Lemma pong_all_set_readBuf l b o c : pong_all l (set_readBuf b o c) = set_readBuf b o (pong_all l c).
Proof.
  revert c. induction l as [|p l IH]; intros c; [done|]. unfold pong_all in *. cbn [fold_left].
  rewrite set_readBuf_writeFrame. apply IH.
Qed.

(** What a call that finds no bytes left over does: it answers the pings before the next
    data frame and hands over the start of that frame, or meets the end. *)
Lemma ws_read_loop_spec room tail : forall l fuel c,
  Forall frame_ok l -> Forall (fun f => fr_opcode f <> 8) l -> ws_end tail ->
  (List.length l < fuel)%nat -> ws_reader c = frames l ++ tail ->
  (exists r', data_of l = [] /\ Forall (fun f => ~ is_data f) l /\
     ws_read_loop fuel room c = (set_reader r' (pong_all (pings_of l) c), Err StreamEOF))
  \/ (exists pre f rest, l = pre ++ f :: rest /\ Forall (fun f => ~ is_data f) pre /\ is_data f /\
     ws_read_loop fuel room c =
       (let c' := set_reader (frames rest ++ tail) (pong_all (pings_of pre) c) in
        let n := Z.min room (zlen (fr_payload f)) in
        (if n <? zlen (fr_payload f) then set_readBuf (fr_payload f) n c' else c',
         Ret (take (Z.to_nat n) (fr_payload f))))).
Proof.
  induction l as [|f l IH]; intros fuel c Hok Hcl Hend Hf Hr; (destruct fuel as [|fuel]; [cbn in Hf; lia|]).
  - left. cbn [frames fmap list_fmap concat app] in Hr.
    destruct Hend as [->|(f & rest & -> & Hfo & H8)].
    + exists []. split_and!; [done|constructor|]. cbn. rewrite Hr. done.
    + exists rest. split_and!; [done|constructor|]. cbn. rewrite Hr, read_ws_frame_ok by done. by rewrite H8.
  - inversion Hok as [|? ? Hfo Hok']; subst. inversion Hcl as [|? ? H8 Hcl']; subst.
    cbn [List.length] in Hf. unfold frames in Hr. rewrite fmap_cons in Hr. cbn [concat] in Hr. rewrite <- app_assoc in Hr.
    fold (frames l) in Hr.
    assert (ws_read_loop (S fuel) room c =
      let c := set_reader (frames l ++ tail) c in
      if fr_opcode f =? 9 then ws_read_loop fuel room (writeFrame 10 (fr_payload f) c).1
      else if fr_opcode f =? 10 then ws_read_loop fuel room c
      else let n := Z.min room (zlen (fr_payload f)) in
           (if n <? zlen (fr_payload f) then set_readBuf (fr_payload f) n c else c,
            Ret (take (Z.to_nat n) (fr_payload f)))) as Estep.
    { cbn [Tunnel.ws_read_loop]. rewrite Hr, read_ws_frame_ok by done.
      rewrite (proj2 (Z.eqb_neq (fr_opcode f) 8)) by done. reflexivity. }
    rewrite Estep. cbv zeta. clear Estep.
    destruct (Z.eqb_spec (fr_opcode f) 9) as [H9|H9]; [|destruct (Z.eqb_spec (fr_opcode f) 10) as [H10|H10]].
    + assert (~ is_data f) as Hnd by (unfold is_data; tauto).
      rewrite set_reader_writeFrame. cbn [fst].
      destruct (IH fuel (set_reader (frames l ++ tail) (writeFrame 10 (fr_payload f) c).1)) as [(r' & Hd & Hn & E)|(pre & g & rest & -> & Hn & Hg & E)]; try done; try lia.
      * left. exists r'. rewrite E, pong_all_set_reader. unfold data_of, pings_of in *.
        rewrite filter_cons_False by done. rewrite (filter_cons_True _ f) by done. split_and!; [done|by constructor|done].
      * right. exists (f :: pre), g, rest. rewrite E, pong_all_set_reader. unfold pings_of.
        rewrite (filter_cons_True _ f) by done. split_and!; [done|by constructor|done|done].
    + assert (~ is_data f) as Hnd by (unfold is_data; tauto).
      destruct (IH fuel (set_reader (frames l ++ tail) c)) as [(r' & Hd & Hn & E)|(pre & g & rest & -> & Hn & Hg & E)]; try done; try lia.
      * left. exists r'. rewrite E, pong_all_set_reader. unfold data_of, pings_of in *.
        rewrite filter_cons_False by done. rewrite (filter_cons_False _ f) by done. split_and!; [done|by constructor|done].
      * right. exists (f :: pre), g, rest. rewrite E, pong_all_set_reader. unfold pings_of.
        rewrite (filter_cons_False _ f) by done. split_and!; [done|by constructor|done|done].
    + right. exists [], f, l. split_and!; [done|constructor|done|]. done.
Qed.

(** Calls of [Read] until one fails: the bytes in order and the failure.  [room n] is the
    size of the buffer when [n] calls are left. *)
Fixpoint ws_drain (calls : nat) (room : nat -> Z) (c : wsConn) : wsConn * bytes * option stream_err :=
  match calls with
  | O => (c, [], None)
  | S calls =>
      match ws_Read (room calls) c with
      | (c, Ret b) => let '(c, rest, e) := ws_drain calls room c in (c, b ++ rest, e)
      | (c, Err e) => (c, [], Some e)
      | (c, Panic) => (c, [], None)
      end
  end.

Definition pending (c : wsConn) : bytes := drop (Z.to_nat (ws_readOffset c)) (ws_readBuf c).
Definition offset_ok (c : wsConn) : Prop := 0 <= ws_readOffset c <= zlen (ws_readBuf c).

(** The state of the connection a writer sees. *)
Definition write_state (c : wsConn) : nat * nat * list bytes := (ws_keys c, ws_writes c, ws_sent c).

Lemma write_state_writeFrame c d op p : write_state c = write_state d ->
  write_state (writeFrame op p c).1 = write_state (writeFrame op p d).1.
Proof.
  unfold write_state, Tunnel.writeFrame. intros E. injection E as E1 E2 E3. rewrite E1.
  destruct (maskKey (ws_keys d)); [|cbn; congruence].
  unfold conn_write, draw_key. cbn. rewrite E1, E2, E3. destruct (conn_ok (ws_writes d)); cbn; [|done].
  by destruct (conn_ok (S (ws_writes d))).
Qed.

Lemma write_state_pongs l : forall c d, write_state c = write_state d -> write_state (pong_all l c) = write_state (pong_all l d).
Proof. induction l as [|p l IH]; intros c d E; [done|]. apply IH. by apply write_state_writeFrame. Qed.

Lemma filter_none {A} (P : A -> Prop) `{!forall x, Decision (P x)} l : Forall (fun x => ~ P x) l -> filter P l = [].
Proof. induction 1; [done|]. by rewrite filter_cons_False. Qed.

Lemma data_of_pre pre f rest : Forall (fun f => ~ is_data f) pre -> is_data f ->
  data_of (pre ++ f :: rest) = fr_payload f ++ data_of rest.
Proof. intros Hn Hf. unfold data_of. rewrite filter_app, filter_none, filter_cons_True by done. done. Qed.

Lemma pings_of_pre pre f rest : is_data f -> pings_of (pre ++ f :: rest) = pings_of pre ++ pings_of rest.
Proof.
  intros (_ & Hf & _). unfold pings_of. rewrite filter_app, (filter_cons_False _ f) by done. by rewrite fmap_app.
Qed.

Lemma pong_all_app l k c : pong_all (l ++ k) c = pong_all k (pong_all l c).
Proof. apply fold_left_app. Qed.

Lemma pending_set_readBuf_nil c : pending (set_readBuf [] 0 c) = [].
Proof. done. Qed.

Lemma ws_buffered room c : 0 < room -> offset_ok c -> pending c <> [] ->
  exists c', ws_Read room c = (c', Ret (take (Z.to_nat room) (pending c))) /\ offset_ok c' /\
    pending c' = drop (Z.to_nat room) (pending c) /\ ws_reader c' = ws_reader c /\ write_state c' = write_state c.
Proof.
  intros Hr [H0 Hle] Hp. unfold Tunnel.ws_Read. destruct (Z.eqb_spec room 0) as [|_]; [lia|].
  assert (ws_readOffset c < zlen (ws_readBuf c)) as Hlt.
  { destruct (decide (ws_readOffset c < zlen (ws_readBuf c))) as [H|H]; [done|]. exfalso. apply Hp. unfold pending.
    apply drop_ge. unfold zlen in *. lia. }
  rewrite (proj2 (Z.ltb_lt _ _) Hlt). cbv zeta. fold (pending c).
  assert (zlen (pending c) = zlen (ws_readBuf c) - ws_readOffset c) as El.
  { unfold pending, zlen in *. rewrite length_drop. lia. }
  assert (take (Z.to_nat (Z.min room (zlen (pending c)))) (pending c) = take (Z.to_nat room) (pending c)) as ->.
  { destruct (Z.min_spec room (zlen (pending c))) as [[_ ->]|[Hge ->]]; [done|].
    unfold zlen. rewrite Nat2Z.id, !take_ge; [done|unfold zlen in Hge; lia|lia]. }
  destruct (Z.leb_spec (zlen (ws_readBuf c)) (ws_readOffset c + Z.min room (zlen (pending c)))) as [Hc|Hc].
  - eexists. split; [reflexivity|]. split; [done|]. split; [|done].
    rewrite pending_set_readBuf_nil, drop_ge; [done|]. unfold zlen in *. lia.
  - eexists. split; [reflexivity|]. split; [unfold offset_ok; cbn; lia|]. split; [|done].
    unfold pending at 1. cbn. unfold pending. rewrite drop_drop. f_equal. fold (pending c). lia.
Qed.

Lemma set_data_reader room f c r : 0 < room -> pending c = [] -> offset_ok c ->
  let n := Z.min room (zlen (fr_payload f)) in
  let c' := if n <? zlen (fr_payload f) then set_readBuf (fr_payload f) n (set_reader r c) else set_reader r c in
  ws_reader c' = r /\ offset_ok c' /\ pending c' = drop (Z.to_nat n) (fr_payload f) /\ write_state c' = write_state c.
Proof.
  intros Hr Hp Ho. cbv zeta. pose proof (zlen_nonneg (fr_payload f)).
  destruct (Z.ltb_spec (Z.min room (zlen (fr_payload f))) (zlen (fr_payload f))) as [Hlt|Hge].
  - split_and!; try done. unfold offset_ok. cbn. lia.
  - split_and!; try done. change (pending (set_reader r c)) with (pending c). rewrite Hp, drop_ge; [done|].
    unfold zlen in *. lia.
Qed.

Lemma pending_pongs l c : pending (pong_all l c) = pending c /\ (offset_ok c -> offset_ok (pong_all l c)).
Proof.
  pose proof (pong_all_set_readBuf l (ws_readBuf c) (ws_readOffset c) c) as E.
  assert (set_readBuf (ws_readBuf c) (ws_readOffset c) c = c) as Ec by (by destruct c).
  rewrite Ec in E. rewrite E. by destruct c.
Qed.

(** Whatever buffers a caller reads with, it gets the bytes of the data frames in order
    and then the end of the stream, and every ping before it has been answered. *)
Lemma ws_drain_exact room tail : ws_end tail -> (forall n, 0 < room n) ->
  forall m l c, (List.length (pending c) + List.length l + List.length (data_of l) <= m)%nat ->
  Forall frame_ok l -> Forall (fun f => fr_opcode f <> 8) l -> offset_ok c -> ws_reader c = frames l ++ tail ->
  exists c', ws_drain (S m) room c = (c', pending c ++ data_of l, Some StreamEOF) /\
    write_state c' = write_state (pong_all (pings_of l) c).
Proof.
  intros Hend Hroom. induction m as [m IH] using lt_wf_ind. intros l c Hm Hok Hcl Ho Hr.
  destruct (decide (pending c = [])) as [Hp|Hp].
  - assert (ws_Read (room m) c = ws_read_loop (S (List.length (ws_reader c))) (room m) c) as ER.
    { unfold Tunnel.ws_Read. specialize (Hroom m). destruct (Z.eqb_spec (room m) 0); [lia|].
      destruct (Z.ltb_spec (ws_readOffset c) (zlen (ws_readBuf c))) as [Hlt|]; [|done]. exfalso.
      destruct Ho as [Ho _]. assert (List.length (pending c) = 0%nat) as E0 by (by rewrite Hp).
      unfold pending in E0. rewrite length_drop in E0. unfold zlen in Hlt. lia. }
    assert (List.length l <= List.length (frames l))%nat as Hlen.
    { clear. unfold frames. induction l as [|f l IH]; [done|]. rewrite fmap_cons. cbn [concat List.length].
      rewrite length_app. unfold frame_bytes at 1. rewrite length_app. cbn [raw map List.length]. lia. }
    destruct (ws_read_loop_spec (room m) tail l (S (List.length (ws_reader c))) c)
      as [(r' & Hd & Hn & E)|(pre & f & rest & -> & Hn & Hf & E)]; try done.
    { rewrite Hr, length_app. lia. }
    + eexists. cbn [ws_drain]. rewrite ER, E, Hd, Hp. split; [reflexivity|]. done.
    + cbv zeta in E. destruct (set_data_reader (room m) f (pong_all (pings_of pre) c) (frames rest ++ tail)) as (Er & Ho' & Ep & Ew).
      { apply Hroom. } { by rewrite (proj1 (pending_pongs _ _)). } { by apply pending_pongs. }
      set (n := Z.min (room m) (zlen (fr_payload f))) in *.
      set (c1 := if n <? zlen (fr_payload f) then _ else _) in *.
      rewrite data_of_pre, pings_of_pre by done. rewrite data_of_pre in Hm by done.
      apply Forall_app in Hok as [_ Hok]. apply Forall_app in Hcl as [_ Hcl].
      inversion Hok; subst. inversion Hcl; subst.
      rewrite Hp, !length_app in Hm. cbn [List.length] in Hm.
      destruct m as [|m]; [lia|].
      destruct (IH m ltac:(lia) rest c1) as (c2 & E2 & Ew2); try done.
      { rewrite Ep, length_drop. lia. }
      exists c2. split.
      * cbn [ws_drain] in E2 |- *. rewrite ER, E. rewrite E2, Ep, Hp. cbn [app].
        rewrite app_assoc, take_drop. done.
      * rewrite Ew2. rewrite pong_all_app. by apply write_state_pongs.
  - destruct (ws_buffered (room m) c) as (c1 & E & Ho1 & Ep & Er & Ew); [apply Hroom|done|done|].
    destruct m as [|m].
    { destruct (pending c); [done|cbn in Hm; lia]. }
    destruct (IH m ltac:(lia) l c1) as (c2 & E2 & Ew2); try done.
    { rewrite Ep, length_drop. specialize (Hroom (S m)). destruct (pending c); [done|]. cbn [List.length] in *. lia. }
    { by rewrite Er. }
    exists c2. split.
    + cbn [ws_drain] in E2 |- *. rewrite E, E2, Ep. by rewrite app_assoc, take_drop.
    + rewrite Ew2. by apply write_state_pongs.
Qed.

End websocket_reader.

(** ** Any input *)

Lemma read_full_left n i r b : read_full n i = (r, Ret b) -> zlen b = Z.max 0 n /\ zlen i = zlen b + zlen r.
Proof.
  unfold read_full. destruct (Z.leb_spec n 0); [intros E; injection E as <- <-; autorewrite with zlen; lia|].
  destruct (Z.ltb_spec (zlen i) n); [done|]. intros E. injection E as <- <-.
  unfold zlen in *. rewrite length_take, length_drop. lia.
Qed.

Lemma stream_bind_inv {A B} (m : stream A) (f : A -> stream B) i r b :
  (m ≫= f) i = (r, Ret b) -> exists a i', m i = (i', Ret a) /\ f a i' = (r, Ret b).
Proof. unfold mbind, stream_bind. destruct (m i) as [i' [a|e|]]; [|done|done]. eauto. Qed.

Definition no_panic {A} (m : stream A) : Prop := forall i, (m i).2 <> Panic /\ (m i).2 <> Err StreamFuel.

Lemma no_panic_bind {A B} (m : stream A) (f : A -> stream B) :
  no_panic m -> (forall a, no_panic (f a)) -> no_panic (m ≫= f).
Proof.
  intros Hm Hf i. specialize (Hm i). unfold mbind, stream_bind. destruct (m i) as [i' [a|e|]]; cbn in *; [apply Hf| |tauto].
  split; [done|]. intros E. apply (proj2 Hm). congruence.
Qed.

Lemma no_panic_read_full n : no_panic (read_full n).
Proof. intros i. unfold read_full. repeat case_match; done. Qed.

Lemma no_panic_ret {A} (a : A) : no_panic (mret a : stream A).
Proof. done. Qed.

Lemma no_panic_fail {A} (e : stream_err) : e <> StreamFuel -> no_panic (stream_fail (A := A) e).
Proof. intros He i. cbn. split; [done|congruence]. Qed.

#[local] Hint Resolve no_panic_read_full no_panic_ret : stream.

Lemma no_panic_length ind : no_panic (readWebSocketPayloadLength ind).
Proof.
  apply no_panic_bind.
  - repeat case_match; auto with stream; apply no_panic_bind; auto with stream.
  - intros n. case_match; [by apply no_panic_fail|auto with stream].
Qed.

Lemma no_panic_frame : no_panic read_ws_frame.
Proof.
  apply no_panic_bind; [auto with stream|]. intros h. apply no_panic_bind; [apply no_panic_length|]. intros n.
  case_match; [by apply no_panic_fail|].
  apply no_panic_bind; [case_match; auto with stream|]. intros k. apply no_panic_bind; auto with stream.
Qed.

Lemma payload_length_bound ind i r n : 0 <= ind -> readWebSocketPayloadLength ind i = (r, Ret n) ->
  0 <= n <= maxWebSocketFramePayload /\ zlen r <= zlen i.
Proof.
  intros H0 E. unfold readWebSocketPayloadLength in E. apply stream_bind_inv in E as (a & i' & E1 & E2).
  assert (0 <= a /\ zlen i' <= zlen i) as [Ha Hi].
  { destruct (ind =? 126); [|destruct (ind =? 127)].
    - apply stream_bind_inv in E1 as (x & i2 & E3 & E4). injection E4 as <- <-. apply read_full_left in E3 as [? ?].
      split; [apply be_uint_range|zlen_lia].
    - apply stream_bind_inv in E1 as (x & i2 & E3 & E4). injection E4 as <- <-. apply read_full_left in E3 as [? ?].
      split; [apply be_uint_range|zlen_lia].
    - injection E1 as <- <-. lia. }
  destruct (Z.ltb_spec maxWebSocketFramePayload a); [done|]. injection E2 as <- <-. lia.
Qed.

(** A frame takes two bytes at least and its payload is bounded. *)
Lemma read_ws_frame_left i r op payload : read_ws_frame i = (r, Ret (op, payload)) ->
  zlen payload <= maxWebSocketFramePayload /\ zlen r + 2 <= zlen i.
Proof.
  intros E. unfold read_ws_frame in E. apply stream_bind_inv in E as (h & i1 & E1 & E).
  apply read_full_left in E1 as [El E1]. cbv zeta in E.
  apply stream_bind_inv in E as (n & i2 & E2 & E). apply payload_length_bound in E2 as [Hn Hi].
  2: { apply Z.land_nonneg. right. done. }
  case_match; [done|]. apply stream_bind_inv in E as (k & i3 & E3 & E).
  assert (zlen i3 <= zlen i2) as H3.
  { case_match; [apply read_full_left in E3 as [? ?]; zlen_lia|injection E3 as <- <-; lia]. }
  apply stream_bind_inv in E as (p & i4 & E4 & E). apply read_full_left in E4 as [Hp E4]. injection E as <- _ E.
  assert (zlen payload = zlen p) as -> by (rewrite <- E; case_match; [apply zlen_mask|done]).
  zlen_lia.
Qed.

Section websocket_input.
Context (maskKey : nat -> option bytes) (conn_ok : nat -> bool).

(** What is left over is the end of one frame. *)
Definition ws_ok (c : wsConn) : Prop := offset_ok c /\ zlen (ws_readBuf c) <= maxWebSocketFramePayload.

Lemma writeFrame_reader op p c :
  let c' := (writeFrame maskKey conn_ok op p c).1 in
  ws_reader c' = ws_reader c /\ ws_readBuf c' = ws_readBuf c /\ ws_readOffset c' = ws_readOffset c.
Proof.
  unfold writeFrame. destruct (maskKey (ws_keys c)); [|done]. unfold conn_write, draw_key. cbn.
  destruct (conn_ok (ws_writes c)); cbn; [|done]. by destruct (conn_ok (S (ws_writes c))).
Qed.

Lemma ws_read_loop_ok room : 0 <= room -> forall fuel c, zlen (ws_reader c) < Z.of_nat fuel -> ws_ok c ->
  let '(c', r) := ws_read_loop maskKey conn_ok fuel room c in
  ws_ok c' /\ r <> Panic /\ r <> Err StreamFuel /\ forall b, r = Ret b -> zlen b <= room.
Proof.
  intros Hroom. induction fuel as [|fuel IH]; intros c Hf Hc; [pose proof (zlen_nonneg (ws_reader c)); lia|].
  cbn [ws_read_loop]. pose proof (no_panic_frame (ws_reader c)) as [Hnp Hnf].
  destruct (read_ws_frame (ws_reader c)) as [reader [[op payload]|e|]] eqn:E; cbn in Hnp, Hnf; [|split_and!; try done; congruence|done].
  apply read_ws_frame_left in E as [Hp Hr]. pose proof (zlen_nonneg payload) as H0.
  destruct (op =? 8); [by split_and!|]. destruct (op =? 9).
  { apply IH.
    - rewrite (proj1 (writeFrame_reader _ _ _)). cbn. lia.
    - destruct (writeFrame_reader 10 payload (set_reader reader c)) as (_ & E1 & E2).
      unfold ws_ok, offset_ok. rewrite E1, E2. exact Hc. }
  destruct (op =? 10); [apply IH; [cbn; lia|exact Hc]|]. cbv zeta.
  split_and!; try done.
  - case_match; [|exact Hc]. bool_prop. unfold ws_ok, offset_ok. cbn. lia.
  - intros b Hb. injection Hb as <-. unfold zlen in *. rewrite length_take. lia.
Qed.

End websocket_input.

(** Whatever a server sends, a read of the WebSocket connection terminates with a
    result or an error (never a panic), copies no more than the buffer holds, and keeps
    no more than the 16 MiB of one frame in memory. *)
Theorem ws_Read_bounded maskKey conn_ok room c : 0 <= room -> ws_ok c ->
  let '(c', r) := ws_Read maskKey conn_ok room c in
  ws_ok c' /\ r <> Panic /\ r <> Err StreamFuel /\ forall b, r = Ret b -> zlen b <= room.
Proof.
  intros Hroom [[H0 Hle] Hmax]. unfold ws_Read. destruct (room =? 0); [split_and!; try done; intros b Hb; injection Hb as <-; unfold zlen; cbn; lia|].
  destruct (ws_readOffset c <? zlen (ws_readBuf c)) eqn:Eb; [|apply ws_read_loop_ok; [done|unfold zlen; lia|done]].
  bool_prop. cbv zeta. pose proof (zlen_nonneg (drop (Z.to_nat (ws_readOffset c)) (ws_readBuf c))).
  split_and!; try done.
  - case_match; [done|]. bool_prop. unfold ws_ok, offset_ok. cbn. lia.
  - intros b Hb. injection Hb as <-. unfold zlen in *. rewrite length_take. lia.
Qed.

(** ** Addresses on a stream *)

(** What an address says on the wire: a name has no IP address. *)
Definition wire_addr (a : Socksaddr) : Socksaddr :=
  {| sa_Fqdn := sa_Fqdn a; sa_IP := if String.eqb (sa_Fqdn a) "" then sa_IP a else []; sa_Port := sa_Port a |}.

Lemma read_full_1 z k : 0 <= z < 256 -> exists h, read_full 1 (z2b z :: k) = (k, Ret h) /\ b2z (default x00 (h !! 0%nat)) = z.
Proof. intros Hz. exists [z2b z]. split; [apply (read_full_app_n 1 [z2b z] k); reflexivity|]. by apply b2z_small. Qed.

(** The type byte and the address of [appendSocksaddr], read the way
    [trojanPacketConn.ReadFrom] does, with what follows read by [f]. *)
Lemma read_appended {A} dest k (f : string * list Z -> stream A) : sendable dest ->
  (header ← read_full 1;
   let atyp := b2z (default x00 (header !! 0%nat)) in
   addr ← (if atyp =? 1 then (b ← read_full 4; mret (""%string, map b2z b))
           else if atyp =? 3 then
             (lenBuf ← read_full 1; b ← read_full (b2z (default x00 (lenBuf !! 0%nat))); mret (string_of b, []))
           else if atyp =? 4 then (b ← read_full 16; mret (""%string, map b2z b))
           else stream_fail (UnknownAddressType atyp));
   f addr) (appendSocksaddr dest ++ k)
  = f (sa_Fqdn (wire_addr dest), sa_IP (wire_addr dest)) (be_bytes 2 (sa_Port dest) ++ k).
Proof.
  intros [Hp Hd]. unfold appendSocksaddr, wire_addr. rewrite port_bytes, <- app_assoc. cbn [sa_Fqdn sa_IP].
  destruct Hd as [[Hne Hl]|(-> & Ho & Hlen)].
  - rewrite (proj2 (String.eqb_neq (sa_Fqdn dest) "")) by done. cbn [negb]. pose proof (slen_nonempty _ Hne).
    unfold raw. cbn [map app].
    destruct (read_full_1 3 (z2b (slen (sa_Fqdn dest)) :: (bytes_of (sa_Fqdn dest) ++ be_bytes 2 (sa_Port dest) ++ k))) as (h & E & Eh); [lia|].
    rewrite (stream_bind_Ret _ _ _ _ _ E), Eh. cbv zeta. cbn [Z.eqb Pos.eqb].
    destruct (read_full_1 (slen (sa_Fqdn dest)) (bytes_of (sa_Fqdn dest) ++ be_bytes 2 (sa_Port dest) ++ k)) as (h2 & E2 & Eh2); [lia|].
    erewrite stream_bind_Ret.
    2: { rewrite (stream_bind_Ret _ _ _ _ _ E2), Eh2. rewrite (stream_bind_Ret _ _ _ _ _ (read_full_app_n (slen (sa_Fqdn dest)) (bytes_of (sa_Fqdn dest)) _ eq_refl)). reflexivity. }
    by rewrite string_of_bytes_of.
  - cbn [String.eqb negb]. destruct Hlen as [Hlen|Hlen].
    + assert (zlen (sa_IP dest) = 4) as E4 by (unfold zlen; by rewrite Hlen). rewrite E4, Z.eqb_refl.
      unfold raw. cbn [map app].
      destruct (read_full_1 1 (map z2b (sa_IP dest) ++ be_bytes 2 (sa_Port dest) ++ k)) as (h & E & Eh); [lia|].
      rewrite (stream_bind_Ret _ _ _ _ _ E), Eh. cbv zeta. cbn [Z.eqb Pos.eqb].
      erewrite stream_bind_Ret.
      2: { rewrite (stream_bind_Ret _ _ _ (be_bytes 2 (sa_Port dest) ++ k) (map z2b (sa_IP dest))); [reflexivity|].
           apply read_full_app_n. unfold zlen. by rewrite length_map, Hlen. }
      by rewrite raw_b2z.
    + assert (zlen (sa_IP dest) = 16) as E16 by (unfold zlen; by rewrite Hlen). unfold as16. rewrite E16.
      change (16 =? 4) with false. change (16 =? 16) with true. cbv iota. unfold raw. cbn [map app].
      destruct (read_full_1 4 (map z2b (sa_IP dest) ++ be_bytes 2 (sa_Port dest) ++ k)) as (h & E & Eh); [lia|].
      rewrite (stream_bind_Ret _ _ _ _ _ E), Eh. cbv zeta. cbn [Z.eqb Pos.eqb].
      erewrite stream_bind_Ret.
      2: { rewrite (stream_bind_Ret _ _ _ (be_bytes 2 (sa_Port dest) ++ k) (map z2b (sa_IP dest))); [reflexivity|].
           apply read_full_app_n. unfold zlen. by rewrite length_map, Hlen. }
      by rewrite raw_b2z.
Qed.

(** ** Trojan packets *)

(** One packet of at most 65535 bytes: the caller gets what its buffer holds, and the
    stream is left at the next packet. *)
Lemma trojan_packet dest p room k : sendable dest -> zlen p < 65536 -> 0 <= room ->
  trojan_ReadFrom room (trojan_WriteTo dest p ++ k) = (k, Ret (take (Z.to_nat room) p, wire_addr dest)).
Proof.
  intros Hd Hp Hroom. pose proof (zlen_nonneg p) as H0. unfold trojan_WriteTo, trojan_ReadFrom. rewrite port_bytes, <- !app_assoc.
  rewrite read_appended by done.
  erewrite stream_bind_Ret by (apply read_full_app_n, zlen_be_bytes).
  erewrite stream_bind_Ret by (apply read_full_app_n, zlen_be_bytes). cbv zeta.
  rewrite (be_uint_be_bytes 2 (zlen p)), wrapU_small by (change (2 ^ (8 * Z.of_nat 2)) with 65536; lia).
  erewrite stream_bind_Ret by (apply (read_full_app_n 2 crlf); reflexivity).
  set (a := take (Z.to_nat room) p). set (b := drop (Z.to_nat room) p).
  assert (p ++ k = a ++ b ++ k) as -> by (unfold a, b; by rewrite app_assoc, take_drop).
  assert (zlen p = zlen a + zlen b) as El by (rewrite <- zlen_app; unfold a, b; by rewrite take_drop).
  assert (Z.min (zlen p) room = zlen a) as Ea by (unfold a, zlen; rewrite length_take; lia).
  rewrite Ea.
  erewrite stream_bind_Ret by apply read_full_app.
  erewrite stream_bind_Ret by (apply read_full_app_n; lia).
  unfold wire_addr. cbn [fst snd sa_Fqdn sa_IP sa_Port]. rewrite port_of_bytes by apply Hd. done.
Qed.

(** ** Destinations *)

Lemma digit_nonneg a d : digit a = Some d -> 0 <= d.
Proof.
  unfold digit. cbv zeta. destruct (Z.leb_spec 48 (Z.of_nat (nat_of_ascii a))); [|done]. destruct (_ <=? 57); [|done].
  cbn. intros [= <-]. lia.
Qed.

Lemma port_digits_value s : forall n v, 0 <= n -> digits_value s n = Some v -> v < 2 ^ 30 -> port_digits s n = Some v.
Proof.
  induction s as [|a s IH]; intros n v Hn; cbn [digits_value port_digits]; [by intros [= ->]|].
  destruct (digit a) as [d|] eqn:Ed; [|done]. intros Hv Hlt.
  pose proof (digit_nonneg _ _ Ed) as Hd.
  assert (n * 10 + d <= v) as Hle.
  { clear IH Ed. assert (forall s m w, 0 <= m -> digits_value s m = Some w -> m <= w) as Hmono; [|by eapply Hmono; [|exact Hv]; lia].
    clear. induction s as [|a s IH]; intros m w Hm; cbn [digits_value]; [intros [= ->]; lia|].
    destruct (digit a) as [d|] eqn:Ed; [|done]. intros Hw.
    pose proof (digit_nonneg _ _ Ed).
    specialize (IH (m * 10 + d) w ltac:(lia) Hw). lia. }
  destruct (Z.leb_spec (2 ^ 30) n); [lia|]. destruct (Z.leb_spec (2 ^ 32) (n * 10 + d)); [lia|].
  apply IH; [lia|done|done].
Qed.

Lemma LookupPort_pretty services port : 0 <= port < 65536 -> LookupPort services (pretty port) = Some port.
Proof.
  intros Hp. destruct (pretty_text port ltac:(lia)) as (Hd & Hne & Hv). unfold LookupPort.
  assert (parsePort (pretty port) = Some port) as ->.
  { pose proof (port_digits_value _ 0 port ltac:(lia) Hv ltac:(lia)) as E. unfold parsePort.
    destruct (pretty port) as [|a r] eqn:Es; [done|]. cbn in Hd. apply andb_true_iff in Hd as [Hd _].
    destruct a as [[] [] [] [] [] [] [] []]; try done; rewrite E; cbn; f_equal; lia. }
  destruct (Z.leb_spec 0 port); [|lia]. destruct (Z.leb_spec port 65535); [done|lia].
Qed.

Lemma plain_port_pretty port : 0 <= port -> plain_port (pretty port).
Proof.
  intros Hp. destruct (pretty_text port Hp) as (Hd & _). unfold plain_port.
  repeat constructor; by apply str_all_contains1 with is_digit.
Qed.

Lemma index_byte_absent s c i : contains1 s c = false -> index_byte s c i = None.
Proof.
  revert i. induction s as [|a s IH]; intros i; [done|]. cbn. intros [-> H]%orb_false_iff. by apply IH.
Qed.

Lemma netip_ParseAddr_String ip : ip_ok ip -> netip_ParseAddr (ip_String ip) = Some (default ip (To4 ip)).
Proof.
  intros Hok. unfold ip_String, netip_ParseAddr. destruct (To4 ip) as [ip4|] eqn:E4; cbn [default from_option].
  - assert (parse_addr (ipv4_string ip4) = Some (v4InV6Prefix ++ ip4, 32)) as H.
    { apply parse_addr_string; [by eapply To4_octets; [apply Hok|]|by eapply To4_length]. }
    unfold parse_addr in H. destruct (addr_family (ipv4_string ip4)) as [f|]; [|done].
    destruct f as [[] [] [] [] [] [] [] []]; try discriminate H.
    + destruct (parseIPv4 (ipv4_string ip4)) as [k|]; [|done]. cbn [fmap option_fmap option_map] in H.
      assert (v4InV6Prefix ++ k = v4InV6Prefix ++ ip4) as Ek by congruence. by apply app_inv_head in Ek as ->.
    + by destruct (parseIPv6 (ipv4_string ip4)).
  - pose proof (ip_no4 ip Hok E4) as Hl. destruct Hok as [Hip _].
    destruct (ipv6_string_shape ip Hip Hl) as (g & r & Hg & Hlg & Es & Hch).
    assert (addr_family (ipv6_string ip) = Some ":"%char) as ->.
    { rewrite Es. destruct g as [|x [|]]; [done| |cbn in Hlg; lia].
      apply Forall_cons in Hg as [Hx _]. destruct (hex_text_spec x Hx) as (off & _ & E).
      unfold hex_list. cbn [fmap list_fmap join1]. by rewrite (addr_family_hex _ _ _ _ _ E). }
    unfold cut. rewrite index_byte_absent by (by apply Hch). by apply parseIPv6_string.
Qed.

(** A destination made of an address and a port is that address. *)
Lemma parseDestination_ip services ip port : ip_ok ip -> 0 <= port < 65536 ->
  parseDestination services (JoinHostPort (ip_String ip) (pretty port))
    = Some {| sa_Fqdn := ""; sa_IP := default ip (To4 ip); sa_Port := port |}.
Proof.
  intros Hok Hp. destruct (split_join_ip ip (pretty port) Hok) as [E1 E2]; [apply plain_port_pretty; lia|].
  unfold parseDestination. rewrite E1, E2. cbn [mbind option_bind]. rewrite LookupPort_pretty by done.
  cbn [mbind option_bind]. by rewrite netip_ParseAddr_String.
Qed.

Lemma default_To4_ok ip : ip_ok ip -> ip_ok (default ip (To4 ip)).
Proof.
  intros Hok. destruct (To4 ip) as [ip4|] eqn:E; [|done]. cbn. split; [by eapply To4_octets; [apply Hok|]|].
  left. by eapply To4_length.
Qed.

(** ** Hexadecimal text *)

Definition hex_bytes (l : bytes) : bytes := concat (hex_byte <$> l).

Definition hex_table : bool :=
  forallb (fun x => let b := z2b x in
    match hex_byte b with
    | [p; q] => match hex_value p, hex_value q with
                | Some a, Some c => (a * 16 + c =? x) && negb (b2z p =? 45) && negb (b2z q =? 45)
                                    && negb (ascii_space p) && negb (ascii_space q) && (b2z p <? 128) && (b2z q <? 128)
                | _, _ => false end
    | _ => false end) (Z.of_nat <$> seq 0 256).

Lemma hex_byte_spec b : exists p q a c, hex_byte b = [p; q] /\ hex_value p = Some a /\ hex_value q = Some c /\
  z2b (a * 16 + c) = b /\ b2z p <> 45 /\ b2z q <> 45 /\ ascii_space p = false /\ ascii_space q = false /\
  b2z p < 128 /\ b2z q < 128.
Proof.
  assert (hex_table = true) as H by (vm_compute; reflexivity). unfold hex_table in H. rewrite forallb_forall in H.
  pose proof (b2z_range b) as Hb. specialize (H (b2z b)). rewrite z2b_b2z in H.
  destruct (hex_byte b) as [|p [|q [|]]]; try (discriminate H; apply in_map_iff; exists (Z.to_nat (b2z b)); split; [lia|apply in_seq; lia]).
  destruct (hex_value p) as [a|] eqn:Ea; [destruct (hex_value q) as [c|] eqn:Ec|].
  2,3: exfalso; assert (false = true) as F by (apply H, in_map_iff; exists (Z.to_nat (b2z b)); split; [lia|apply in_seq; lia]); done.
  assert (((a * 16 + c =? b2z b) && negb (b2z p =? 45) && negb (b2z q =? 45)
           && negb (ascii_space p) && negb (ascii_space q) && (b2z p <? 128) && (b2z q <? 128)) = true) as H2
    by (apply H, in_map_iff; exists (Z.to_nat (b2z b)); split; [lia|apply in_seq; lia]).
  rewrite !andb_true_iff, !negb_true_iff, !Z.eqb_neq, Z.eqb_eq, !Z.ltb_lt in H2. destruct H2 as [[[[[[E ?] ?] ?] ?] ?] ?].
  exists p, q, a, c. rewrite E, z2b_b2z. done.
Qed.

Lemma hex_Decode_bytes room l : hex_Decode room (hex_bytes l) = if (List.length l <=? room)%nat then Ret l else Panic.
Proof.
  revert room. induction l as [|b l IH]; intros room; [by destruct room|]. unfold hex_bytes. rewrite fmap_cons. cbn [concat].
  destruct (hex_byte_spec b) as (p & q & a & c & -> & Ep & Eq & Eb & _). cbn [app hex_Decode]. rewrite Ep, Eq.
  destruct room as [|room]; [done|]. fold (hex_bytes l). rewrite IH. cbn [List.length Nat.leb].
  destruct (List.length l <=? room)%nat; [|done]. cbn. by rewrite Eb.
Qed.

Lemma zlen_hex_bytes l : zlen (hex_bytes l) = 2 * zlen l.
Proof.
  unfold hex_bytes. induction l as [|b l IH]; [done|]. rewrite fmap_cons. cbn [concat].
  destruct (hex_byte_spec b) as (p & q & a & c & -> & _). rewrite zlen_app, IH, !zlen_cons, zlen_nil. lia.
Qed.

(** * Properties *)

(** C27: What is written through the WebSocket framing is read back on the other side,
    whatever the masking keys and the sizes of the writes (up to 16 MiB each) and of the
    reader's buffers: the bytes in order, then the end of the stream. *)
Theorem websocket_roundtrip (key key' : nat -> option bytes) (ok' : nat -> bool) (ps : list bytes) (room : nat -> Z) :
  (forall k, exists b, key k = Some b /\ zlen b = 4) -> (forall n, 0 < room n) ->
  Forall (fun p => zlen p <= maxWebSocketFramePayload) ps ->
  let c := fold_left (fun c p => (ws_Write key (fun _ => true) p c).1) ps (ws_open []) in
  exists calls c', ws_drain key' ok' calls room (ws_open (concat (ws_sent c))) = (c', concat ps, Some StreamEOF).
Proof.
  intros Hkey Hroom Hps c.
  assert (exists l, concat (ws_sent c) = frames l /\ Forall frame_ok l /\ Forall is_data l /\ fr_payload <$> l = ps) as (l & Es & Hok & Hd & Ep).
  { subst c. assert (forall c0 l0, concat (ws_sent c0) = frames l0 -> Forall frame_ok l0 -> Forall is_data l0 ->
      exists l, concat (ws_sent (fold_left (fun c p => (ws_Write key (fun _ => true) p c).1) ps c0)) = frames l /\
        Forall frame_ok l /\ Forall is_data l /\ fr_payload <$> l = (fr_payload <$> l0) ++ ps) as H.
    { induction Hps as [|p ps Hp Hps IH]; intros c0 l0 E0 Hok Hd; [exists l0; by rewrite app_nil_r|].
      destruct (Hkey (ws_keys c0)) as (b & Eb & Hb).
      set (f := {| fr_first := 128 + 2; fr_key := Some b; fr_payload := p |}).
      destruct (IH (ws_Write key (fun _ => true) p c0).1 (l0 ++ [f])) as (l & E & ? & ? & Ep).
      - unfold ws_Write, writeFrame. rewrite Eb. unfold conn_write, draw_key. cbn [fst negb ws_sent ws_writes ws_keys ws_reader ws_readBuf ws_readOffset].
        rewrite !concat_app, E0. unfold frames. rewrite fmap_app, concat_app. cbn [concat fmap list_fmap]. rewrite !app_nil_r, <- !app_assoc.
        f_equal. apply (ws_header_frame 2 p b); [lia|]. unfold maxWebSocketFramePayload in Hp. lia.
      - apply Forall_app. split; [done|]. constructor; [|constructor]. unfold frame_ok, f, fr_opcode. cbn [fr_first fr_key fr_payload].
        split_and!; [lia|lia|done|intros H8; by apply Z.leb_le in H8|]. intros k [= <-]. done.
      - apply Forall_app. split; [done|]. constructor; [|constructor]. unfold is_data, f, fr_opcode. cbn. split_and!; done.
      - exists l. split_and!; try done. rewrite Ep, fmap_app, <- app_assoc. done. }
    destruct (H (ws_open []) []) as (l & ? & ? & ? & ?); try done. by exists l. }
  destruct (ws_drain_exact key' ok' room [] (or_introl eq_refl) Hroom
              (List.length l + List.length (data_of l)) l (ws_open (concat (ws_sent c)))) as (c' & E & _); try done.
  - eapply Forall_impl; [exact Hd|]. by intros f (? & _).
  - cbn. by rewrite Es, app_nil_r.
  - eexists _, c'. rewrite E. cbn [pending ws_readOffset ws_readBuf ws_open drop app]. unfold data_of.
    assert (filter is_data l = l) as ->; [|by rewrite Ep].
    clear -Hd. induction Hd as [|f l Hf Hl IH]; [done|]. by rewrite filter_cons_True, IH.
Qed.

(** C28: A server's frames, masked or not and with any control frames between them, reach
    the caller as the payloads of the data frames in order, whatever buffers it reads
    with; every ping is answered by a pong with its payload before the read goes on, and
    a close frame or the end of the connection is the end of the stream. *)
Theorem ws_reader_exact (key : nat -> option bytes) (ok : nat -> bool) (l : list ws_frame) (tail : bytes) (room : nat -> Z) :
  Forall frame_ok l -> Forall (fun f => fr_opcode f <> 8) l -> ws_end tail -> (forall n, 0 < room n) ->
  exists calls c', ws_drain key ok calls room (ws_open (frames l ++ tail)) = (c', data_of l, Some StreamEOF) /\
    write_state c' = write_state (pong_all key ok (pings_of l) (ws_open [])).
Proof.
  intros Hok Hcl Hend Hroom.
  destruct (ws_drain_exact key ok room tail Hend Hroom (List.length l + List.length (data_of l)) l (ws_open (frames l ++ tail)))
    as (c' & E & Ew); try done.
  eexists _, c'. split; [exact E|]. rewrite Ew. by apply write_state_pongs.
Qed.

(** What a Trojan server reads of a request: the 56 bytes of the password, the command and
    the address, between its line ends. *)
Definition trojan_request : stream (bytes * Z * Socksaddr) :=
  hash ← read_full 56;
  end1 ← read_full 2;
  if negb (bool_decide (end1 = crlf)) then stream_fail StreamUnexpectedEOF else
  cmd ← read_full 1;
  header ← read_full 1;
  let atyp := b2z (default x00 (header !! 0%nat)) in
  addr ← (if atyp =? 1 then (b ← read_full 4; mret (""%string, map b2z b))
          else if atyp =? 3 then
            (lenBuf ← read_full 1; b ← read_full (b2z (default x00 (lenBuf !! 0%nat))); mret (string_of b, []))
          else if atyp =? 4 then (b ← read_full 16; mret (""%string, map b2z b))
          else stream_fail (UnknownAddressType atyp));
  port ← read_full 2;
  end2 ← read_full 2;
  if negb (bool_decide (end2 = crlf)) then stream_fail StreamUnexpectedEOF else
  mret (hash, b2z (default x00 (cmd !! 0%nat)), {| sa_Fqdn := addr.1; sa_IP := addr.2; sa_Port := port_of port |}).

(** A list of packets read one after the other, each into a buffer of its own. *)
Fixpoint trojan_reads (rooms : list Z) : stream (list (bytes * Socksaddr)) :=
  match rooms with
  | [] => mret []
  | room :: rooms => x ← trojan_ReadFrom room; l ← trojan_reads rooms; mret (x :: l)
  end.

Lemma trojan_reads_exact dest ps rest : sendable dest ->
  Forall (fun pr => zlen pr.1 < 65536 /\ 0 <= pr.2) ps ->
  trojan_reads (snd <$> ps) (concat (trojan_WriteTo dest <$> (fst <$> ps)) ++ rest)
    = (rest, Ret ((fun pr => (take (Z.to_nat pr.2) pr.1, wire_addr dest)) <$> ps)).
Proof.
  intros Hd. induction 1 as [|[p room] ps [Hp Hr] Hps IH]; [done|]. rewrite !fmap_cons. cbn [fst snd trojan_reads concat] in *.
  rewrite <- app_assoc. erewrite stream_bind_Ret by (by apply trojan_packet).
  by erewrite stream_bind_Ret by exact IH.
Qed.

Lemma zlen_sha224Hex sha s : (forall b, zlen (sha b) = 28) -> zlen (sha224Hex sha s) = 56.
Proof. intros H. unfold sha224Hex. fold (hex_bytes (sha (bytes_of s))). by rewrite zlen_hex_bytes, H. Qed.

(** C29: A Trojan server that follows the protocol reads, from what a tunnel to an address
    or to a name of at most 255 bytes writes, the hash of the password, the command for
    UDP, that destination, and then every packet (of less than 64 KiB) with its
    destination; a packet longer than the reader's buffer is cut without disturbing the
    next one. *)
Theorem trojan_tunnel_exact (sha : bytes -> bytes) (password : string) (dest : Socksaddr) (udp : bool)
    (ps : list (bytes * Z)) (rest : bytes) :
  (forall b, zlen (sha b) = 28) -> sendable dest -> Forall (fun pr => zlen pr.1 < 65536 /\ 0 <= pr.2) ps ->
  (r ← trojan_request; l ← trojan_reads (snd <$> ps); mret (r, l))
    (writeTrojanHandshake sha password dest udp ++ concat (trojan_WriteTo dest <$> (fst <$> ps)) ++ rest)
  = (rest, Ret ((sha224Hex sha password, if udp then 3 else 1, wire_addr dest),
                (fun pr => (take (Z.to_nat pr.2) pr.1, wire_addr dest)) <$> ps)).
Proof.
  intros Hsha Hd Hps.
  assert (forall k, trojan_request (writeTrojanHandshake sha password dest udp ++ k)
    = (k, Ret (sha224Hex sha password, if udp then 3 else 1, wire_addr dest))) as Hreq.
  { intros k. unfold trojan_request, writeTrojanHandshake. rewrite <- !app_assoc.
    erewrite stream_bind_Ret by (by apply read_full_app_n, zlen_sha224Hex).
    erewrite stream_bind_Ret by (apply (read_full_app_n 2 crlf); reflexivity). rewrite bool_decide_true by done. cbn [negb].
    erewrite stream_bind_Ret by (apply (read_full_app_n 1 (raw [_])); reflexivity).
    rewrite read_appended by done.
    erewrite stream_bind_Ret by (apply read_full_app_n, zlen_be_bytes).
    erewrite stream_bind_Ret by (apply (read_full_app_n 2 crlf); reflexivity). rewrite bool_decide_true by done. cbn [negb].
    unfold wire_addr. cbn [fst snd sa_Fqdn sa_IP sa_Port]. rewrite port_of_bytes by apply Hd.
    destruct udp; reflexivity. }
  erewrite stream_bind_Ret by apply Hreq. erewrite stream_bind_Ret by (by apply trojan_reads_exact). done.
Qed.

(** A UUID is read back from its text, with dashes anywhere. *)
Theorem parseUUID_exact (u : bytes) (s : string) : List.length u = 16%nat ->
  without_dashes (bytes_of s) = hex_bytes u -> parseUUID s = Ret u.
Proof.
  intros Hu Hs. unfold parseUUID. rewrite Hs. assert (zlen (hex_bytes u) = 32) as -> by (rewrite zlen_hex_bytes; unfold zlen; lia).
  change (negb (32 =? 32)) with false. cbv iota. rewrite hex_Decode_bytes, Hu. done.
Qed.

Lemma trim_hex l : trim_bytes (hex_bytes l) = hex_bytes l.
Proof.
  assert (trim_left (hex_bytes l) = hex_bytes l) as El.
  { destruct l as [|b l]; [done|]. unfold hex_bytes. rewrite fmap_cons. cbn [concat].
    destruct (hex_byte_spec b) as (p & q & a & c & -> & _ & _ & _ & _ & _ & Hp & Hq & Hpa & Hqa). cbn [app trim_left]. rewrite Hp.
    unfold space2, space3. destruct (Z.eqb_spec (b2z p) 0xc2); [lia|].
    destruct (concat (hex_byte <$> l)) as [|x r]; [done|].
    destruct (Z.eqb_spec (b2z p) 0xe1); [lia|]. destruct (Z.eqb_spec (b2z p) 0xe2); [lia|]. destruct (Z.eqb_spec (b2z p) 0xe3); [lia|]. done. }
  unfold trim_bytes. rewrite El. clear El.
  assert (trim_rev (rev (hex_bytes l)) = rev (hex_bytes l)) as ->; [|apply rev_involutive].
  destruct l as [|b l _] using rev_ind; [done|]. unfold hex_bytes. rewrite fmap_app, concat_app, rev_app_distr. cbn [fmap list_fmap concat].
  destruct (hex_byte_spec b) as (p & q & a & c & -> & _ & _ & _ & _ & _ & Hp & Hq & Hpa & Hqa). cbn [app rev].
  generalize (rev (concat (hex_byte <$> l))). intros k. cbn [trim_rev]. rewrite Hq.
  assert (forall x, space2 x q = false) as H2.
  { intros x. unfold space2. destruct (Z.eqb_spec (b2z q) 0x85); [lia|]. destruct (Z.eqb_spec (b2z q) 0xa0); [lia|]. by rewrite andb_false_r. }
  assert (forall x y, space3 x y q = false) as H3.
  { intros x y. unfold space3. destruct (Z.eqb_spec (b2z q) 0x80); [lia|]. destruct (Z.leb_spec 0x80 (b2z q)); [lia|].
    destruct (Z.eqb_spec (b2z q) 0xa8); [lia|]. destruct (Z.eqb_spec (b2z q) 0xa9); [lia|]. destruct (Z.eqb_spec (b2z q) 0xaf); [lia|].
    destruct (Z.eqb_spec (b2z q) 0x9f); [lia|]. cbn. by rewrite !andb_false_r. }
  rewrite H2. destruct k as [|x k]; [done|]. by rewrite H3.
Qed.

(** C39: A Reality short id of at most eight bytes is decoded and padded with zeros; a
    longer one makes the decoder write past its eight bytes, and the dial panics. *)
Theorem short_id_exact (id : bytes) :
  decodeRealityShortIDValue (string_of (hex_bytes id))
    = if (List.length id <=? 8)%nat then Ret (id ++ replicate (8 - List.length id) x00) else Panic.
Proof.
  unfold decodeRealityShortIDValue. unfold trim_space. rewrite bytes_of_string_of, trim_hex.
  destruct id as [|b id]; [done|].
  assert (String.eqb (string_of (hex_bytes (b :: id))) "" = false) as ->.
  { apply String.eqb_neq. intros E. apply (f_equal (fun s => zlen (bytes_of s))) in E. rewrite bytes_of_string_of, zlen_hex_bytes, zlen_cons in E.
    change (zlen (bytes_of "")) with 0 in E. pose proof (zlen_nonneg id). lia. }
  rewrite bytes_of_string_of, hex_Decode_bytes. by destruct (List.length (b :: id) <=? 8)%nat.
Qed.

(** What the libraries promise: a sealed packet opens under the same key and is sixteen
    bytes longer, and a written address is read back with what follows it. *)
Record ss_lib_ok (lib : ss_lib) (dest : Socksaddr) : Prop := {
  open_sealed : forall k p, ss_Open lib k (ss_Seal lib k p) = Some p;
  sealed_length : forall k p, zlen (ss_Seal lib k p) = zlen p + ssAEADOverhead;
  addr_written : exists a, ss_WriteAddrPort lib dest = Some a /\ forall p, ss_ReadAddrPort lib (a ++ p) = Some (dest, p) }.

(** A packet sent through native Shadowsocks UDP is opened on the other side as the
    same packet with its destination, under a fresh salt, as long as the datagram fits the
    32 KiB read buffer. *)
Theorem shadowsocks_roundtrip (lib : ss_lib) (key salt p : bytes) (keySaltLen room : Z) (dest : Socksaddr) (datagram : bytes) :
  ss_lib_ok lib dest -> zlen salt = keySaltLen -> 0 <= room ->
  ss_WriteTo lib key keySaltLen dest salt p = Ret datagram -> zlen datagram <= large_buffer ->
  ss_ReadFrom lib key keySaltLen room datagram = Ret (take (Z.to_nat room) p, dest).
Proof.
  intros [Ho Hl (a & Ea & Hr)] Hs Hroom Hw Hfit. unfold ss_WriteTo in Hw. rewrite Ea in Hw.
  destruct (ss_constructor lib (ssKdf lib key salt keySaltLen)) eqn:Ec; [|done]. cbn [negb] in Hw. injection Hw as <-.
  pose proof (zlen_nonneg salt) as H0. pose proof (zlen_nonneg (a ++ p)) as H1.
  set (k := ssKdf lib key salt keySaltLen) in *.
  unfold ss_ReadFrom. rewrite take_ge by (unfold zlen in Hfit; lia). rewrite zlen_app, Hl.
  destruct (Z.ltb_spec (zlen salt + (zlen (a ++ p) + ssAEADOverhead)) (keySaltLen + ssAEADOverhead)); [lia|].
  pose proof (@slice_app byte ss_err [] salt (ss_Seal lib k (a ++ p)) 0 keySaltLen) as E1. cbn [app] in E1. rewrite E1; [|reflexivity|change (zlen (@nil byte)) with 0; lia].
  cbn [mbind outcome_bind]. fold k. rewrite Ec. cbn [negb].
  pose proof (@slice_app byte ss_err salt (ss_Seal lib k (a ++ p)) [] keySaltLen (zlen salt + (zlen (a ++ p) + ssAEADOverhead))) as E2.
  rewrite app_nil_r in E2. rewrite E2 by (rewrite ?Hl; lia). cbn [mbind outcome_bind].
  by rewrite Ho, Hr.
Qed.

(** ** Port hopping *)

Definition hop_ok (c : hop_conn) : Prop :=
  0 < hc_portStart c < hc_portEnd c /\ hc_portEnd c <= 65535 /\ hc_portStart c <= hc_currentPort c <= hc_portEnd c.

Lemma selectRandomPort_range a b n : a <= b -> 0 <= n -> a <= selectRandomPort a b n <= b.
Proof. intros Hab Hn. unfold selectRandomPort. pose proof (Z.rem_bound_pos n (b - a + 1)). lia. Qed.

Lemma unix_nano_nonneg now : unix_epoch <= now < unix_epoch + 2 ^ 63 -> 0 <= unix_nano now.
Proof. intros H. unfold unix_nano. rewrite wrapS_small; lia. Qed.

Lemma hop_write_ok now c : unix_epoch <= now < unix_epoch + 2 ^ 63 -> hop_ok c ->
  let c' := (hop_write now c).1 in
  hop_ok c' /\ (hop_write now c).2 = hc_currentPort c' /\ hc_portStart c' = hc_portStart c /\ hc_portEnd c' = hc_portEnd c /\
  hc_hopInterval c' = hc_hopInterval c.
Proof.
  intros Hn (Hr & He & Hc). unfold hop_write. destruct (_ <=? _); cbn [fst snd]; split_and!; try done. unfold hop_ok. cbn.
  pose proof (selectRandomPort_range (hc_portStart c) (hc_portEnd c) (unix_nano now) ltac:(lia) (unix_nano_nonneg now Hn)). lia.
Qed.

(** The ports of a list of packets, sent at these times. *)
Fixpoint hop_ports (times : list gotime) (c : hop_conn) : list Z :=
  match times with
  | [] => []
  | t :: times => let '(c, port) := hop_write t c in port :: hop_ports times c
  end.

Lemma LookupPort_range services s port : LookupPort services s = Some port -> 0 <= port <= 65535.
Proof.
  unfold LookupPort. destruct (parsePort s) as [x|]; [|destruct (services s) as [x|]; [|done]];
    (destruct (Z.leb_spec 0 x); [|done]); (destruct (Z.leb_spec x 65535); [|done]); cbn; intros [= <-]; lia.
Qed.

Lemma parsePortRange_range services s a b : parsePortRange services s = Some (a, b) -> 0 <= a <= b /\ b <= 65535.
Proof.
  unfold parsePortRange. destruct (split1 "-" s) as [|x [|y [|]]]; try done. cbn.
  destruct (LookupPort services (trim_space x)) as [u|] eqn:E1; [|done]. cbn.
  destruct (LookupPort services (trim_space y)) as [v|] eqn:E2; [|done]. cbn.
  apply LookupPort_range in E1. apply LookupPort_range in E2. destruct (Z.ltb_spec v u); [done|]. intros [= <- <-]. lia.
Qed.


(** A Hysteria2 node whose server is an IPv6 address is never reached: the server and
    the port are joined without brackets and the result is refused, although the same
    address and port, joined the way the rest of the program does, are a valid
    destination. *)
Theorem hy2_ipv6_refused (services : string -> option Z) (ip : octets) (port : Z) :
  ip_ok ip -> To4 ip = None -> 0 <= port < 65536 ->
  hy2_server services (ip_String ip) port = None /\
  parseDestination services (JoinHostPort (ip_String ip) (pretty port)) = Some {| sa_Fqdn := ""; sa_IP := ip; sa_Port := port |}.
Proof.
  intros Hok H4 Hp. split; [|rewrite parseDestination_ip, H4 by done; done].
  pose proof (ip_no4 ip Hok H4) as Hl. destruct Hok as [Hip _]. unfold ip_String. rewrite H4.
  destruct (ipv6_string_shape ip Hip Hl) as (g & r & Hg & Hlg & Es & Hch). unfold hy2_server, split_host.
  assert (split_host_port_ok (ipv6_string ip ++ String ":" (pretty port)) = false) as ->; [|done].
  pose proof (plain_port_pretty port ltac:(lia)) as Hpp. unfold plain_port in Hpp. rewrite !Forall_cons in Hpp. destruct Hpp as (Pc & _).
  unfold split_host_port_ok. rewrite last_index_byte_app by done. cbn [Nat.add].
  rewrite no_bracket; [rewrite substring_prefix, Es, contains1_app; cbn; by rewrite orb_true_r|].
  destruct (ipv6_string ip) as [|x s] eqn:E; [by destruct (hex_list g)|].
  rewrite append_cons, has_prefix_cons. apply Ascii.eqb_neq. intros <-.
  specialize (Hch "["%char eq_refl ltac:(done)). cbn in Hch. done.
Qed.

(** * Witnesses *)

Definition demo_mask_key : nat -> option bytes := fun k => Some (raw [Z.of_nat k; 7; 250; 3]).

Lemma websocket_roundtrip_witness :
  exists calls c', ws_drain demo_mask_key (fun _ => false) calls (fun _ => 2)
    (ws_open (concat (ws_sent (fold_left (fun c p => (ws_Write demo_mask_key (fun _ => true) p c).1)
       [raw [1; 2; 3]; []; raw [4; 5; 6; 7; 8]] (ws_open []))))) = (c', raw [1; 2; 3; 4; 5; 6; 7; 8], Some StreamEOF).
Proof.
  apply (websocket_roundtrip demo_mask_key demo_mask_key (fun _ => false) [raw [1; 2; 3]; []; raw [4; 5; 6; 7; 8]] (fun _ => 2)).
  - intros k. eexists. split; reflexivity.
  - intros n. lia.
  - repeat constructor; unfold zlen, maxWebSocketFramePayload; cbn; lia.
Defined.

(** A data frame, a ping, another data frame and a close frame: the connection is not
    over when the answer to the ping cannot be written. *)
Definition demo_frames : list ws_frame :=
  [{| fr_first := 0x82; fr_key := None; fr_payload := raw [1; 2; 3] |};
   {| fr_first := 0x89; fr_key := None; fr_payload := raw [9] |};
   {| fr_first := 0x80; fr_key := demo_mask_key 1; fr_payload := raw [4] |}].
Definition demo_close : ws_frame := {| fr_first := 0x88; fr_key := None; fr_payload := [] |}.

Ltac frame_lia := unfold frame_ok, fr_opcode, zlen, maxWebSocketFramePayload; cbn; split_and!; try lia; try done; intros ? [= <-]; done.

Lemma ws_reader_exact_witness :
  exists calls c', ws_drain demo_mask_key (fun _ => true) calls (fun _ => 2) (ws_open (frames demo_frames ++ frame_bytes demo_close))
      = (c', raw [1; 2; 3; 4], Some StreamEOF) /\
    write_state c' = (1%nat, 2%nat, [raw [0x8a; 0x81; 0; 7; 250; 3]; raw [9]]).
Proof.
  apply (ws_reader_exact demo_mask_key (fun _ => true) demo_frames (frame_bytes demo_close) (fun _ => 2)).
  - do 3 (apply Forall_cons; split; [frame_lia|]). constructor.
  - do 3 (apply Forall_cons; split; [vm_compute; discriminate|]). constructor.
  - right. exists demo_close, []. split_and!; [by rewrite app_nil_r|frame_lia|reflexivity].
  - intros n. lia.
Defined.

Lemma ws_Read_bounded_witness :
  let '(c', r) := ws_Read demo_mask_key (fun _ => true) 4 (ws_open (raw [0x82; 0x7f; 0; 0; 0; 0; 1; 0; 0; 1; 5])) in
  ws_ok c' /\ r <> Panic /\ r <> Err StreamFuel /\ forall b, r = Ret b -> zlen b <= 4.
Proof.
  apply (ws_Read_bounded demo_mask_key (fun _ => true) 4 (ws_open (raw [0x82; 0x7f; 0; 0; 0; 0; 1; 0; 0; 1; 5]))); [lia|].
  unfold ws_ok, offset_ok, zlen, maxWebSocketFramePayload. cbn. lia.
Defined.

Lemma sendable_name (a : Socksaddr) : 0 <= sa_Port a < 65536 -> sa_Fqdn a <> ""%string -> slen (sa_Fqdn a) <= 255 -> sendable a.
Proof. intros Hp Hn Hl. split; [done|]. by left. Qed.

Lemma trojan_tunnel_exact_witness :
  (r ← trojan_request; l ← trojan_reads [2; 100]; mret (r, l))
    (writeTrojanHandshake (fun _ => replicate 28 x01) "secret" demo_dest true
     ++ concat (trojan_WriteTo demo_dest <$> [raw [1; 2; 3]; raw [4]]) ++ raw [77])
  = (raw [77], Ret ((sha224Hex (fun _ => replicate 28 x01) "secret", 3, demo_dest), [(raw [1; 2], demo_dest); (raw [4], demo_dest)])).
Proof.
  apply (trojan_tunnel_exact (fun _ => replicate 28 x01) "secret" demo_dest true [(raw [1; 2; 3], 2); (raw [4], 100)] (raw [77])).
  - intros b. reflexivity.
  - apply sendable_name; [cbn; lia|done|vm_compute; discriminate].
  - repeat constructor; unfold zlen; cbn; lia.
Defined.

Lemma parseUUID_exact_witness : parseUUID "00112233-4455-6677-8899-aabbccddeeff" =
  Ret (raw [0x00; 0x11; 0x22; 0x33; 0x44; 0x55; 0x66; 0x77; 0x88; 0x99; 0xaa; 0xbb; 0xcc; 0xdd; 0xee; 0xff]).
Proof. apply parseUUID_exact; vm_compute; reflexivity. Defined.

(** A library that seals by adding sixteen zeros and writes addresses the way SOCKS does. *)
Definition demo_ss : ss_lib := {|
  ss_kdf := fun key salt n => key ++ salt;
  ss_constructor := fun k => true;
  ss_Seal := fun k p => p ++ replicate 16 x00;
  ss_Open := fun k p => Some (take (List.length p - 16) p);
  ss_WriteAddrPort := fun a => Some (appendSocksaddr a);
  ss_ReadAddrPort := fun b => match readSocksaddr b with Ret (a, r) => Some (a, r) | _ => None end |}.

Definition demo_v4 : Socksaddr := {| sa_Fqdn := ""; sa_IP := [192; 0; 2; 1]; sa_Port := 19132 |}.

Lemma demo_ss_ok : ss_lib_ok demo_ss demo_v4.
Proof.
  split.
  - intros k p. change (Some (take (List.length (p ++ replicate 16 x00) - 16) (p ++ replicate 16 x00)) = Some p).
    rewrite length_app, length_replicate, Nat.add_sub. by rewrite take_app_length.
  - intros k p. change (zlen (p ++ replicate 16 x00) = zlen p + ssAEADOverhead). rewrite zlen_app. done.
  - exists (appendSocksaddr demo_v4). split; [done|]. intros p. cbn [ss_ReadAddrPort demo_ss].
    change (appendSocksaddr demo_v4 ++ p) with (raw [1] ++ raw [192; 0; 2; 1] ++ be_bytes 2 19132 ++ p).
    rewrite readSocksaddr_v4 by (try reflexivity; lia). done.
Qed.

Lemma shadowsocks_roundtrip_witness : exists datagram,
  ss_WriteTo demo_ss (raw [1]) 16 demo_v4 (replicate 16 x07) (raw [1; 2; 3]) = Ret datagram /\
  ss_ReadFrom demo_ss (raw [1]) 16 1500 datagram = Ret (raw [1; 2; 3], demo_v4).
Proof.
  eexists. split; [reflexivity|].
  apply (shadowsocks_roundtrip demo_ss (raw [1]) (replicate 16 x07) (raw [1; 2; 3]) 16 1500 demo_v4);
    [exact demo_ss_ok|reflexivity|lia|reflexivity|vm_compute; discriminate].
Defined.


Lemma hy2_ipv6_refused_witness :
  let ip := [0x20; 0x01; 0x0d; 0xb8; 0; 0; 0; 0; 0; 0; 0; 0; 0; 0; 0; 1] in
  hy2_server (fun _ => None) "2001:db8::1" 443 = None /\
  parseDestination (fun _ => None) "[2001:db8::1]:443" = Some {| sa_Fqdn := ""; sa_IP := ip; sa_Port := 443 |}.
Proof.
  apply (hy2_ipv6_refused (fun _ => None) [0x20; 0x01; 0x0d; 0xb8; 0; 0; 0; 0; 0; 0; 0; 0; 0; 0; 0; 1] 443); [|reflexivity|lia].
  split; [|by right]. repeat constructor; unfold octet; lia.
Defined.

(** The address of a Go string for which nothing but a port is known. *)
Example appendSocksaddr_empty : appendSocksaddr {| sa_Fqdn := ""; sa_IP := []; sa_Port := 80 |} = raw ([4] ++ replicate 16 0 ++ [0; 80]).
Proof. reflexivity. Qed.

(** The length of a Trojan packet has sixteen bits: a longer payload announces less than
    it carries. *)
Lemma trojan_length_wraps dest p : 65536 <= zlen p ->
  trojan_WriteTo dest p = appendSocksaddr dest ++ be_bytes 2 (zlen p mod 65536) ++ crlf ++ p.
Proof.
  intros _. unfold trojan_WriteTo. rewrite port_bytes. do 2 f_equal.
  pose proof (be_bytes_be_uint (be_bytes 2 (zlen p))) as E. rewrite length_be_bytes, be_uint_be_bytes in E.
  rewrite <- E. done.
Qed.
