(* ===== verification/RawPackets.v ===== *)
(** * The packets of the raw UDP proxy: [internal/proxy/raw_udp_proxy.go]

    The proxy forwards datagrams unread but looks into the client's RakNet frames
    for the login: the frame reader, the reassembly of split packets with its
    limits, the acknowledgements of intercepted datagrams, the frames the proxy
    injects when it kicks a player, and the unconnected pong.  A reading of the
    clock and the order in which [range] visits a map are arguments. *)

From Stdlib Require Import Strings.Ascii Strings.String.
From stdpp Require Import pretty.
From S2P Require Import Prelude GoBytes GoString Wire NetIP NetURL.

Definition MaxSplitPacketsPerClient : Z := 16.
Definition MaxSplitPacketFragments : Z := 128.
Definition MaxSplitPacketBytes : Z := 1024 * 1024.
Definition SplitPacketTimeout : Z := 30 * second.

(** ** Split packets

    [totalLen] is never used.  A [nil] map of buffers is read as an empty one. *)
Record splitPacketBuffer := {
  splitCount : Z;
  sb_fragments : gmap Z bytes;
  datagramSeqs : gset Z;
  received : Z;
  totalBytes : Z;
  createdAt : gotime;
}.

Abbreviation split_map := (gmap Z splitPacketBuffer) (only parsing).

(** The two fields of [rawUDPClientInfo] the frame reader changes. *)
Record raw_splits := {
  splitPackets : split_map;
  pendingACKSeqs : list Z;
}.

Definition set_splits (m : split_map) (ci : raw_splits) : raw_splits :=
  {| splitPackets := m; pendingACKSeqs := pendingACKSeqs ci |}.

Definition cleanupStaleSplitPackets (now : gotime) (m : split_map) : split_map :=
  filter (fun kv => (SplitPacketTimeout <? time_sub now (createdAt kv.2)) = false) m.

(** The search for the oldest buffer; [visit] is the order of [range]. *)
Definition oldest_step (m : split_map) (acc : Z * gotime) (id : Z) : Z * gotime :=
  match m !! id with
  | None => acc
  | Some b => if is_zero_time acc.2 || (createdAt b <? acc.2) then (id, createdAt b) else acc
  end.

Definition remove_oldest (visit : split_map -> list Z) (m : split_map) : split_map :=
  delete (fold_left (oldest_step m) (visit m) (0, 0)).1 m.

Definition full (m : split_map) : bool := MaxSplitPacketsPerClient <=? Z.of_nat (size m).

Definition addSplitPacket (now : gotime) (visit : split_map -> list Z)
    (splitID : Z) (buf : splitPacketBuffer) (m : split_map) : split_map :=
  let m := cleanupStaleSplitPackets now m in
  let m := if full m then remove_oldest visit m else m in
  <[splitID := buf]> m.

Definition new_buffer (count : Z) (now : gotime) : splitPacketBuffer :=
  {| splitCount := count; sb_fragments := ∅; datagramSeqs := ∅;
     received := 0; totalBytes := 0; createdAt := now |}.

(** "Get or create buffer for this split ID". *)
Definition get_buffer (now : gotime) (visit : split_map -> list Z) (splitID count : Z) (m : split_map)
  : split_map * splitPacketBuffer :=
  match m !! splitID with
  | Some buf => (m, buf)
  | None =>
      let m :=
        if full m then
          let m := cleanupStaleSplitPackets now m in
          if full m then remove_oldest visit m else m
        else m in
      let buf := new_buffer count now in
      (<[splitID := buf]> m, buf)
  end.

Definition note_seq (seq : Z) (buf : splitPacketBuffer) : splitPacketBuffer :=
  {| splitCount := splitCount buf; sb_fragments := sb_fragments buf;
     datagramSeqs := {[ seq ]} ∪ datagramSeqs buf;
     received := received buf; totalBytes := totalBytes buf; createdAt := createdAt buf |}.

(** The fragment stored, once; [None] when the packet has become too large. *)
Definition store_fragment (splitIndex : Z) (payload : bytes) (buf : splitPacketBuffer)
  : option splitPacketBuffer :=
  match sb_fragments buf !! splitIndex with
  | Some _ => Some buf
  | None =>
      if MaxSplitPacketBytes <? totalBytes buf + zlen payload then None else
      Some {| splitCount := splitCount buf;
              sb_fragments := <[splitIndex := payload]> (sb_fragments buf);
              datagramSeqs := datagramSeqs buf;
              received := received buf + 1; totalBytes := totalBytes buf + zlen payload;
              createdAt := createdAt buf |}
  end.

(** The fragments in order; [None] when one is missing. *)
Definition all_fragments (buf : splitPacketBuffer) : option (list bytes) :=
  mapM (fun i => sb_fragments buf !! i) (seqZ 0 (splitCount buf)).

Definition sorted_seqs (s : gset Z) : list Z := merge_sort Z.le (elements s).

(** [None] is the [nil] result. *)
Definition handleSplitPacket (now : gotime) (visit : split_map -> list Z) (ci : raw_splits)
    (splitID splitIndex count datagramSeq : Z) (payload : bytes) : raw_splits * option bytes :=
  if (count =? 0) || (MaxSplitPacketFragments <? count) then (ci, None) else
  if count <=? splitIndex then (ci, None) else
  let '(m, buf) := get_buffer now visit splitID count (splitPackets ci) in
  match store_fragment splitIndex payload (note_seq datagramSeq buf) with
  | None => (set_splits (delete splitID m) ci, None)
  | Some buf =>
      let m := <[splitID := buf]> m in
      if received buf <? splitCount buf then (set_splits m ci, None) else
      match all_fragments buf with
      | None => (set_splits m ci, None)
      | Some frags =>
          let reassembled := concat frags in
          if MaxSplitPacketBytes <? zlen reassembled then (set_splits (delete splitID m) ci, None) else
          ({| splitPackets := delete splitID m;
              pendingACKSeqs :=
                if 0 <? Z.of_nat (size (datagramSeqs buf)) then sorted_seqs (datagramSeqs buf)
                else pendingACKSeqs ci |},
           Some reassembled)
      end
  end.

Definition consumePendingACKSeqs (ci : raw_splits) : raw_splits * list Z :=
  ({| splitPackets := splitPackets ci; pendingACKSeqs := [] |}, pendingACKSeqs ci).

Definition clearPendingACKSeqs (ci : raw_splits) : raw_splits :=
  {| splitPackets := splitPackets ci; pendingACKSeqs := [] |}.

(** ** The frame reader *)

(** What the reader of one datagram takes from its surroundings: the clock and the
    order of a map iteration, at the frame that ends at an offset. *)
Record frame_env := {
  clock : Z -> gotime;
  visit_at : Z -> split_map -> list Z;
  visit_perm : forall i m, visit_at i m ≡ₚ (map_to_list m).*1;
}.

Inductive fuel_err := OutOfFuel.

(** [uint32(data[i]) | uint32(data[i+1])<<8 | uint32(data[i+2])<<16] *)
Definition le24_at (data : bytes) (i : Z) : outcome fuel_err Z := le_at data i (i + 3).

Definition raw_skip (reliability offset : Z) : Z :=
  let offset :=
    if (reliability =? 2) || (reliability =? 3) || (reliability =? 4) || (reliability =? 6)
       || (reliability =? 7) then offset + 3 else offset in
  let offset :=
    if (reliability =? 1) || (reliability =? 4) then offset + 3 else offset in
  if (reliability =? 1) || (reliability =? 3) || (reliability =? 4) || (reliability =? 7)
  then offset + 4 else offset.

Record split_header := { sh_count : Z; sh_id : Z; sh_index : Z }.

Record raw_frame := {
  fr_split : option split_header;
  fr_payload : bytes;
  fr_next : Z;
}.

(** One pass of the loop up to the payload; [None] is a [break]. *)
Definition read_frame (data : bytes) (offset : Z) : outcome fuel_err (option raw_frame) :=
  if zlen data <? offset + 3 then Ret None else
  flags ← index data offset;
  let offset := offset + 1 in
  if zlen data <? offset + 2 then Ret None else
  bitLength ← be_at data offset (offset + 2);
  let offset := offset + 2 in
  let byteLength := (bitLength + 7) / 8 in
  let offset := raw_skip (frame_reliability flags) offset in
  let hasSplit := frame_has_split flags in
  if hasSplit && (zlen data <? offset + 10) then Ret None else
  header ←
    (if hasSplit then
       count ← be_at data offset (offset + 4);
       splitID ← be_at data (offset + 4) (offset + 6);
       splitIndex ← be_at data (offset + 6) (offset + 10);
       Ret (Some {| sh_count := count; sh_id := splitID; sh_index := splitIndex |})
     else Ret None);
  let offset := if hasSplit then offset + 10 else offset in
  if zlen data <? offset + byteLength then Ret None else
  payload ← slice data offset (offset + byteLength);
  Ret (Some {| fr_split := header; fr_payload := payload; fr_next := offset + byteLength |}).

(** [len(p) > 0 && p[0] == raknetGamePacketHeader] *)
Definition is_game_packet (p : bytes) : bool :=
  match p with b :: _ => bool_decide (b = game_wrapper) | [] => false end.

(** The loop of [parseRakNetFrame]; [ci] is [None] for a [nil] client.  Each pass moves
    the offset by three bytes or more. *)
Fixpoint frames_loop (fuel : nat) (env : frame_env) (data : bytes) (datagramSeq offset : Z)
    (ci : option raw_splits) : outcome fuel_err (option raw_splits * option bytes) :=
  match fuel with
  | O => Err OutOfFuel
  | S fuel =>
      if zlen data <=? offset then Ret (ci, None) else
      r ← read_frame data offset;
      match r with
      | None => Ret (ci, None)
      | Some fr =>
          match fr_split fr, ci with
          | Some h, Some c =>
              let '(c, reassembled) :=
                handleSplitPacket (clock env (fr_next fr)) (visit_at env (fr_next fr)) c
                  (sh_id h) (sh_index h) (sh_count h) datagramSeq (fr_payload fr) in
              if is_game_packet (default [] reassembled) then Ret (Some c, reassembled)
              else frames_loop fuel env data datagramSeq (fr_next fr) (Some c)
          | _, _ =>
              if is_game_packet (fr_payload fr) then Ret (ci, Some (fr_payload fr))
              else frames_loop fuel env data datagramSeq (fr_next fr) ci
          end
      end
  end.

Definition parseRakNetFrame (env : frame_env) (data : bytes) (ci : option raw_splits)
  : outcome fuel_err (option raw_splits * option bytes) :=
  if zlen data <? 4 then Ret (ci, None) else
  datagramSeq ← le24_at data 1;
  frames_loop (S (length data)) env data datagramSeq 4 ci.

(** [extractGamePacket] is the call with a [nil] client, [extractGamePacketWithSplit] the
    one with a client. *)
Definition extract_game_packet (env : frame_env) (data : bytes) (ci : option raw_splits)
  : outcome fuel_err (option raw_splits * option bytes) :=
  if zlen data <? 4 then Ret (ci, None) else
  frameType ← index data 0;
  if isFramedPacket frameType then parseRakNetFrame env data ci else
  if decide (frameType = game_wrapper) then Ret (ci, Some data) else Ret (ci, None).

Definition extractGamePacket (env : frame_env) (data : bytes) : outcome fuel_err (option bytes) :=
  r ← extract_game_packet env data None; Ret r.2.

Definition extractGamePacketWithSplit (env : frame_env) (data : bytes) (ci : raw_splits)
  : outcome fuel_err (raw_splits * option bytes) :=
  r ← extract_game_packet env data (Some ci); Ret (default ci r.1, r.2).

(** ** Injected frames *)

(** The best-effort counters of a client ([atomic.Uint32]). *)
Record send_state := {
  sendDatagramSeq : Z;
  sendMessageIndex : Z;
  sendOrderIndex : Z;
}.

Definition bump (c : Z) : Z := u32 (c + 1).

Definition buildInjectedReliableOrderedFrame (st : send_state) (payload : bytes) : send_state * bytes :=
  let st :=
    {| sendDatagramSeq := bump (sendDatagramSeq st);
       sendMessageIndex := bump (sendMessageIndex st);
       sendOrderIndex := bump (sendOrderIndex st) |} in
  let seq := Z.land (sendDatagramSeq st) 0xFFFFFF in
  let msgIndex := Z.land (sendMessageIndex st) 0xFFFFFF in
  let orderIndex := Z.land (sendOrderIndex st) 0xFFFFFF in
  let bitLen := u16 (zlen payload * 8) in
  (st, [x84] ++ le_bytes 3 seq ++ [x60] ++ be_bytes 2 bitLen
         ++ le_bytes 3 msgIndex ++ le_bytes 3 orderIndex ++ [x00] ++ payload).

Definition MaxInjectedPacket : Z := 8191.

Record rawUDPPacketVariantOptions := {
  SendCompressed : bool;
  SendRawBatch : bool;
  SendLegacy : bool;
}.

Record rawUDPKickProfile := {
  SendPlayStatus : bool;
  SendRakNetDisconnect : bool;
  PacketVariants : rawUDPPacketVariantOptions;
}.

Definition variants (compressed rawBatch legacy : bool) : rawUDPPacketVariantOptions :=
  {| SendCompressed := compressed; SendRawBatch := rawBatch; SendLegacy := legacy |}.

Definition profile (playStatus rakNet : bool) (v : rawUDPPacketVariantOptions) : rawUDPKickProfile :=
  {| SendPlayStatus := playStatus; SendRakNetDisconnect := rakNet; PacketVariants := v |}.

(** The [switch] on [GetRawUDPKickStrategy]. *)
Definition currentKickProfile (strategy : string) : rawUDPKickProfile :=
  let allVariants := variants true true true in
  let eqs := String.eqb strategy in
  if eqs "disconnect_only"%string then profile false false allVariants else
  if eqs "playstatus_disconnect"%string then profile true false allVariants else
  if eqs "playstatus_disconnect_raknet"%string then profile true true allVariants else
  if eqs "compressed_disconnect_only"%string then profile false false (variants true false false) else
  if eqs "compressed_disconnect_raknet"%string then profile false true (variants true false false) else
  if eqs "raw_batch_disconnect_only"%string then profile false false (variants false true false) else
  if eqs "raw_batch_disconnect_raknet"%string then profile false true (variants false true false) else
  if eqs "legacy_disconnect_only"%string then profile false false (variants false false true) else
  if eqs "legacy_disconnect_raknet"%string then profile false true (variants false false true) else
  profile false true allVariants.

(** The compression the encoder of the third-party library is given. *)
Inductive game_compression := FlateCompression | SnappyCompression | NopCompression.

Definition compression_of (compressionID : Z) : game_compression :=
  let compID := u8 compressionID in
  if compID =? 0x01 then SnappyCompression
  else if compID =? 0xff then NopCompression
  else FlateCompression.

(** The writers, the encoder and the constants of the third-party protocol library. *)
Section writers.
Variable WriteVaruint32 : Z -> bytes.
Variable WriteVarint32 : Z -> bytes.
Variable encode : game_compression -> bytes -> option bytes.
Variable mc_IDDisconnect : Z.
Variable play_status_packet : bytes.
Variable PlayStatusLoginFailedServerFull : Z.

Definition buildRawBatchDisconnectPacket (packetPayload : bytes) : bytes :=
  match packetPayload with
  | [] => []
  | _ => [game_wrapper] ++ WriteVaruint32 (u32 (zlen packetPayload)) ++ packetPayload
  end.

(** One injected frame, when its variant is asked for. *)
Definition inject_if (b : bool) (payload : bytes) (acc : send_state * list bytes)
  : send_state * list bytes :=
  if b then
    let '(st, frame) := buildInjectedReliableOrderedFrame acc.1 payload in (st, acc.2 ++ [frame])
  else acc.

(** The new counters and the datagrams written to the client, in order; a failed write
    is logged and the next variant is sent all the same. *)
Definition sendEncodedGamePacketVariants (compressionID : Z) (st : send_state)
    (packetPayload legacyPacket : bytes) (options : rawUDPPacketVariantOptions)
  : send_state * list bytes :=
  match packetPayload with
  | [] => (st, [])
  | _ =>
    let options :=
      if negb (SendCompressed options) && negb (SendRawBatch options) && negb (SendLegacy options)
      then variants true (SendRawBatch options) (SendLegacy options) else options in
    match encode (compression_of compressionID) packetPayload with
    | None => (st, [])
    | Some gamePacket =>
        if (zlen gamePacket =? 0) || (MaxInjectedPacket <? zlen gamePacket) then (st, []) else
        let rawBatchPacket := buildRawBatchDisconnectPacket packetPayload in
        inject_if (SendLegacy options && (0 <? zlen legacyPacket)) legacyPacket
          (inject_if (SendRawBatch options && (0 <? zlen rawBatchPacket)) rawBatchPacket
            (inject_if (SendCompressed options) gamePacket (st, [])))
    end
  end.

Definition disconnect_message (message : string) : string :=
  if has_prefix message "§"%string then message else ("§c" ++ message)%string.

Definition sendGameDisconnectPacket (compressionID : Z) (st : send_state) (message : string)
    (options : rawUDPPacketVariantOptions) : send_state * list bytes :=
  let formattedMsg := disconnect_message message in
  let msgBytes := bytes_of formattedMsg in
  let packet :=
    WriteVaruint32 mc_IDDisconnect ++ WriteVarint32 2 ++ [x00]
      ++ WriteVaruint32 (u32 (zlen msgBytes)) ++ msgBytes
      ++ WriteVaruint32 (u32 (zlen msgBytes)) ++ msgBytes in
  sendEncodedGamePacketVariants compressionID st packet (BuildDisconnectPacket formattedMsg) options.

Definition sendPlayStatusFailurePacket (compressionID : Z) (st : send_state)
    (options : rawUDPPacketVariantOptions) : send_state * list bytes :=
  sendEncodedGamePacketVariants compressionID st play_status_packet
    (BuildPlayStatusPacket PlayStatusLoginFailedServerFull) options.

Definition sendRakNetDisconnect : list bytes := replicate 3 [IDDisconnectNotification].

(** [injectKickResponse]: the new counters and every datagram written. *)
Definition injectKickResponse (strategy : string) (encrypted : bool) (compressionID : Z)
    (st : send_state) (message : string) : send_state * list bytes :=
  let p := currentKickProfile strategy in
  let '(st, a) :=
    if SendPlayStatus p && negb encrypted
    then sendPlayStatusFailurePacket compressionID st (PacketVariants p) else (st, []) in
  let '(st, b) := sendGameDisconnectPacket compressionID st message (PacketVariants p) in
  (st, a ++ b ++ (if SendRakNetDisconnect p then sendRakNetDisconnect else [])).
End writers.

(** ** The counters of the server's datagrams *)

Definition isRakNetDataDatagram (datagram : bytes) : bool :=
  match datagram with
  | b :: _ :: _ :: _ :: _ =>
      negb (Z.land (b2z b) 0x80 =? 0) && (Z.land (b2z b) 0x40 =? 0) && (Z.land (b2z b) 0x20 =? 0)
  | _ => false
  end.

(** One pass of the loop of [atomicMaxUint24] on the word [a], with no other writer:
    [None] when the compare-and-swap fails and the loop goes round again. *)
Definition atomicMaxUint24_pass (a v : Z) : option Z :=
  let cur := Z.land a 0xFFFFFF in
  if v <=? cur then Some a else if a =? cur then Some v else None.

Fixpoint atomicMaxUint24_loop (fuel : nat) (a v : Z) : option Z :=
  match fuel with
  | O => None
  | S fuel =>
      match atomicMaxUint24_pass a v with
      | Some a => Some a
      | None => atomicMaxUint24_loop fuel a v
      end
  end.

Definition atomicMaxUint24 (fuel : nat) (a v : Z) : option Z :=
  atomicMaxUint24_loop fuel a (Z.land v 0xFFFFFF).

(** ** Acknowledgements *)

Definition parseRakNetDatagramSeq (datagram : bytes) : option Z :=
  if isRakNetDataDatagram datagram then Some (le_uint (take 3 (drop 1 datagram))) else None.

(** The sequence numbers acknowledged for an intercepted datagram. *)
Definition intercepted_seqs (ci : raw_splits) (datagram : bytes) : raw_splits * list Z :=
  let '(ci, seqs) := consumePendingACKSeqs ci in
  (ci, match parseRakNetDatagramSeq datagram with
       | None => seqs
       | Some seq =>
           match seqs with
           | [] => [seq]
           | _ => if existsb (Z.eqb seq) seqs then seqs else seqs ++ [seq]
           end
       end).

(** The in-place removal of repetitions. *)
Definition unique_step (acc : list Z) (seq : Z) : list Z :=
  match last acc with
  | None => [seq]
  | Some x => if x =? seq then acc else acc ++ [seq]
  end.

Definition uniqueSeqs (seqs : list Z) : list Z := fold_left unique_step (merge_sort Z.le seqs) [].

(** The acknowledgement, which is written twice; [None] when nothing is written. *)
Definition sendRakNetACKsToClient (seqs : list Z) : option bytes :=
  match seqs with
  | [] => None
  | _ =>
      let u := uniqueSeqs seqs in
      Some ([xc0] ++ be_bytes 2 (u16 (zlen u)) ++ concat ((fun seq => x01 :: le_bytes 3 (Z.land seq 0xFFFFFF)) <$> u))
  end.

Definition sendRakNetACKToClient (datagram : bytes) : option bytes :=
  match parseRakNetDatagramSeq datagram with
  | None => None
  | Some seq => sendRakNetACKsToClient [seq]
  end.

Definition ackInterceptedClientDatagram (ci : raw_splits) (datagram : bytes) : raw_splits * option bytes :=
  let '(ci, seqs) := intercepted_seqs ci datagram in (ci, sendRakNetACKsToClient seqs).

(** ** What the proxy learns from the server's datagrams *)

(** [sendState] and the two flags of the client the reader looks at and sets. *)
Record observed := {
  ob_send : send_state;
  ob_encrypted : bool;
}.

(** Enough passes for a word below [2 ^ 24] ([atomicMaxUint24_max]). *)
Definition max24 (a v : Z) : outcome fuel_err Z :=
  match atomicMaxUint24 1 a v with Some a => Ret a | None => Err OutOfFuel end.

Definition set_seq (f : Z -> outcome fuel_err Z) (o : observed) : outcome fuel_err observed :=
  let st := ob_send o in
  v ← f (sendDatagramSeq st);
  Ret {| ob_send := {| sendDatagramSeq := v; sendMessageIndex := sendMessageIndex st;
                       sendOrderIndex := sendOrderIndex st |};
         ob_encrypted := ob_encrypted o |}.

Definition set_message (f : Z -> outcome fuel_err Z) (o : observed) : outcome fuel_err observed :=
  let st := ob_send o in
  v ← f (sendMessageIndex st);
  Ret {| ob_send := {| sendDatagramSeq := sendDatagramSeq st; sendMessageIndex := v;
                       sendOrderIndex := sendOrderIndex st |};
         ob_encrypted := ob_encrypted o |}.

Definition set_order (f : Z -> outcome fuel_err Z) (o : observed) : outcome fuel_err observed :=
  let st := ob_send o in
  v ← f (sendOrderIndex st);
  Ret {| ob_send := {| sendDatagramSeq := sendDatagramSeq st; sendMessageIndex := sendMessageIndex st;
                       sendOrderIndex := v |};
         ob_encrypted := ob_encrypted o |}.

(** [data[offset+1]] of a game packet that is neither compressed nor plain. *)
Definition encrypted_id (b : byte) : bool :=
  negb (bool_decide (b = x00)) && negb (bool_decide (b = x01)) && negb (bool_decide (b = xff)).

(** [need n k] is [if offset+n > len(datagram) { return }] before [k]. *)
Definition need {A} (datagram : bytes) (offset n : Z) (stop k : A) : A :=
  if zlen datagram <? offset + n then stop else k.

(** The message index of a reliable frame. *)
Definition note_message (datagram : bytes) (reliable : bool) (offset : Z) (o : observed)
  : outcome fuel_err observed :=
  if reliable then
    msgIndex ← le24_at datagram offset; set_message (fun a => max24 a msgIndex) o
  else Ret o.

(** The order index of an ordered frame on channel 0. *)
Definition note_order (datagram : bytes) (ordered : bool) (offset : Z) (o : observed)
  : outcome fuel_err observed :=
  if ordered then
    orderIndex ← le24_at datagram offset;
    orderChannel ← index datagram (offset + 3);
    if b2z orderChannel =? 0 then set_order (fun a => max24 a orderIndex) o else Ret o
  else Ret o.

(** The test for an encrypted game packet. *)
Definition note_encryption (datagram : bytes) (loginParsed : bool) (offset byteLength : Z) (o : observed)
  : outcome fuel_err observed :=
  if 2 <=? byteLength then
    b ← index datagram offset;
    if decide (b = game_wrapper) then
      compID ← index datagram (offset + 1);
      Ret {| ob_send := ob_send o;
             ob_encrypted := ob_encrypted o || (loginParsed && encrypted_id compID) |}
    else Ret o
  else Ret o.

Fixpoint send_state_loop (fuel : nat) (datagram : bytes) (loginParsed : bool) (offset : Z) (o : observed)
  : outcome fuel_err observed :=
  match fuel with
  | O => Err OutOfFuel
  | S fuel =>
      if zlen datagram <=? offset then Ret o else
      need datagram offset 3 (Ret o) (
      flags ← index datagram offset;
      bitLength ← be_at datagram (offset + 1) (offset + 3);
      let offset := offset + 3 in
      let byteLength := (bitLength + 7) / 8 in
      let reliability := frame_reliability flags in
      let reliable := (reliability =? 2) || (reliability =? 3) || (reliability =? 4)
                      || (reliability =? 6) || (reliability =? 7) in
      let sequenced := (reliability =? 1) || (reliability =? 4) in
      let ordered := (reliability =? 1) || (reliability =? 3) || (reliability =? 4) || (reliability =? 7) in
      if reliable && (zlen datagram <? offset + 3) then Ret o else
      o ← note_message datagram reliable offset o;
      let offset := if reliable then offset + 3 else offset in
      if sequenced && (zlen datagram <? offset + 3) then Ret o else
      let offset := if sequenced then offset + 3 else offset in
      if ordered && (zlen datagram <? offset + 4) then Ret o else
      o ← note_order datagram ordered offset o;
      let offset := if ordered then offset + 4 else offset in
      let hasSplit := frame_has_split flags in
      if hasSplit && (zlen datagram <? offset + 10) then Ret o else
      let offset := if hasSplit then offset + 10 else offset in
      need datagram offset byteLength (Ret o) (
      o ← note_encryption datagram loginParsed offset byteLength o;
      send_state_loop fuel datagram loginParsed (offset + byteLength) o))
  end.

Definition updateRakNetSendStateFromDatagram (datagram : bytes) (loginParsed : bool) (o : observed)
  : outcome fuel_err observed :=
  if negb (isRakNetDataDatagram datagram) then Ret o else
  seq ← le24_at datagram 1;
  o ← set_seq (fun a => max24 a seq) o;
  send_state_loop (S (length datagram)) datagram loginParsed 4 o.

(** ** The login packet *)

(** The loop of [readVaruint32] on the rest of a buffer: [None] is an error. *)
Fixpoint readVaruint32_loop (fuel : nat) (i v : Z) (buf : bytes) : option (Z * bytes) :=
  match fuel with
  | O => None
  | S fuel =>
      match buf with
      | [] => None
      | b :: buf =>
          let v := Z.lor v (u32 (Z.shiftl (Z.land (b2z b) 0x7f) i)) in
          if Z.land (b2z b) 0x80 =? 0 then Some (v, buf)
          else readVaruint32_loop fuel (i + 7) v buf
      end
  end.

Definition readVaruint32 (buf : bytes) : option (Z * bytes) := readVaruint32_loop 5 0 0 buf.

(** [None] when the fuel runs out, which five groups of seven bits do not let happen. *)
Fixpoint writeVaruint32_loop (fuel : nat) (x : Z) : option bytes :=
  match fuel with
  | O => None
  | S fuel =>
      if 0x80 <=? x then
        rest ← writeVaruint32_loop fuel (Z.shiftr x 7); Some (z2b (Z.lor (Z.land x 0x7f) 0x80) :: rest)
      else Some [z2b x]
  end.

Definition writeVaruint32 (x : Z) : bytes := default [] (writeVaruint32_loop 5 x).

(** [buf.Next(n)] for [n] at most the length. *)
Definition next (n : Z) (buf : bytes) : bytes * bytes := (take (Z.to_nat n) buf, drop (Z.to_nat n) buf).

Record identity := { playerName : string; playerUUID : string; playerXUID : string }.
Definition no_identity : identity := {| playerName := ""; playerUUID := ""; playerXUID := "" |}.

(** The outer JSON of a connection request. *)
Record outerWrapper := {
  ow_Certificate : string;
  ow_Token : string;
  ow_Chain : list string;
}.

(** Decompression, [json.Unmarshal] into the two structs (also with its error, [None]) and
    the claims of an unverified token. *)
Record login_codec := {
  decompressFlate : bytes -> option bytes;
  decompressSnappy : bytes -> option bytes;
  unmarshal_outer : bytes -> option outerWrapper;
  unmarshal_chain : bytes -> option (list string);
  parse_identity : string -> option identity;
  parse_claims : string -> option (string -> option string);
}.

Section login.
Variable C : login_codec.

Fixpoint extractIdentityFromChain (chain : list string) : identity :=
  match chain with
  | [] => no_identity
  | token :: chain =>
      match parse_identity C token with
      | None => extractIdentityFromChain chain
      | Some claims =>
          if negb (String.eqb (playerName claims) "") then claims else extractIdentityFromChain chain
      end
  end.

(** [name, _ := claims[key].(string)] *)
Definition claim (claims : string -> option string) (key : string) : string := default ""%string (claims key).

Definition extractIdentityFromOIDCToken (token : string) : identity :=
  match parse_claims C token with
  | None => no_identity
  | Some claims =>
      {| playerName := claim claims "xname"; playerUUID := ""; playerXUID := claim claims "xid" |}
  end.

Definition extractIdentityFromClientDataToken (token : string) : identity :=
  match parse_claims C token with
  | None => no_identity
  | Some claims =>
      {| playerName := claim claims "ThirdPartyName"; playerUUID := claim claims "SelfSignedId";
         playerXUID := claim claims "XUID" |}
  end.

Definition or_else (s fallback : string) : string := if String.eqb s "" then fallback else s.

(** The fields still empty are filled when there is no name yet and a token. *)
Definition fill (extract : string -> identity) (token : string) (i : identity) : identity :=
  if String.eqb (playerName i) "" && negb (String.eqb token "") then
    let f := extract token in
    {| playerName := or_else (playerName i) (playerName f);
       playerUUID := or_else (playerUUID i) (playerUUID f);
       playerXUID := or_else (playerXUID i) (playerXUID f) |}
  else i.

(** The token after the chain: [""] when there is none. *)
Definition raw_token (buf : bytes) : string :=
  if zlen buf <? 4 then ""%string else
  let '(l, buf) := next 4 buf in
  let rawTokenLen := i32 (le_uint l) in
  if (0 <=? rawTokenLen) && (rawTokenLen <=? i32 (zlen buf)) then string_of (next rawTokenLen buf).1
  else ""%string.

Definition parseConnectionRequest (data : bytes) : identity :=
  if zlen data <? 4 then no_identity else
  let '(l, buf) := next 4 data in
  let chainLen := i32 (le_uint l) in
  if (chainLen <=? 0) || (i32 (zlen buf) <? chainLen) then no_identity else
  let '(chainData, buf) := next chainLen buf in
  let rawToken := raw_token buf in
  match unmarshal_outer C chainData with
  | None =>
      match unmarshal_chain C chainData with
      | None =>
          if negb (String.eqb rawToken "") then extractIdentityFromClientDataToken rawToken else no_identity
      | Some chain => fill extractIdentityFromClientDataToken rawToken (extractIdentityFromChain chain)
      end
  | Some o =>
      let id :=
        match ow_Chain o with
        | [] =>
            match unmarshal_chain C (bytes_of (ow_Certificate o)) with
            | Some chain => extractIdentityFromChain chain
            | None => no_identity
            end
        | chain => extractIdentityFromChain chain
        end in
      fill extractIdentityFromClientDataToken rawToken
        (fill extractIdentityFromOIDCToken (ow_Token o) id)
  end.

Definition decodeGamePacketBatch (compressionID : byte) (data : bytes) : bytes :=
  if zlen data <? 2 then [] else
  if negb (is_game_packet data) then [] else
  let fallback := default [] (decompressFlate C (drop 1 data)) in
  if zlen data <? 3 then fallback else
  if decide (compressionID = x00) then
    match decompressFlate C (drop 2 data) with Some d => d | None => fallback end
  else if decide (compressionID = x01) then
    match decompressSnappy C (drop 2 data) with Some d => d | None => fallback end
  else if decide (compressionID = xff) then drop 2 data
  else fallback.

(** The body of the function after the decompression; [None] is an early [return]. *)
Definition login_batch (decompressed : bytes) : option identity :=
  '(_, buf) ← readVaruint32 decompressed;
  '(packetID, buf) ← readVaruint32 buf;
  if negb (Z.land packetID 0x3FF =? 0x01) then None else
  if zlen buf <? 4 then None else
  let buf := drop 4 buf in
  '(connReqLen, buf) ← readVaruint32 buf;
  if (connReqLen =? 0) || (u32 (zlen buf) <? connReqLen) then None else
  Some (parseConnectionRequest (next connReqLen buf).1).

Definition parseLoginPacket (data : bytes) : identity :=
  match data with
  | b :: compressionID :: _ =>
      if negb (is_game_packet data) then no_identity else
      match decodeGamePacketBatch compressionID data with
      | [] => no_identity
      | decompressed => default no_identity (login_batch decompressed)
      end
  | _ => no_identity
  end.
End login.

(** ** The unconnected pong *)

Definition buildUnconnectedPongPacket (pingTimestamp serverGUID : Z) (advertisement : bytes) : bytes :=
  [IDUnconnectedPong] ++ be_bytes 8 pingTimestamp ++ be_bytes 8 serverGUID ++ RakNetMagic
    ++ be_bytes 2 (u16 (zlen advertisement)) ++ advertisement.

(** [bytes.Index], from an offset on; [None] is [-1]. *)
Fixpoint bytes_index (l sep : bytes) (i : Z) : option Z :=
  if decide (take (length sep) l = sep) then Some i else
  match l with
  | [] => None
  | _ :: l => bytes_index l sep (i + 1)
  end.

(** [None] is the result with [ok] false. *)
Definition parseUnconnectedPong (pongPacket : bytes) : outcome fuel_err (option (Z * bytes)) :=
  if zlen pongPacket <? 1 + 8 + 8 + zlen RakNetMagic + 2 then Ret None else
  id ← index pongPacket 0;
  if negb (bool_decide (id = IDUnconnectedPong)) then Ret None else
  match bytes_index pongPacket RakNetMagic 0 with
  | None => Ret None
  | Some magicIdx =>
      if (magicIdx <=? 0) || (zlen pongPacket <? magicIdx + zlen RakNetMagic + 2) then Ret None else
      serverGUID ← (if 8 <=? magicIdx then be_at pongPacket (magicIdx - 8) magicIdx else Ret 0);
      let advLenOff := magicIdx + zlen RakNetMagic in
      advLen ← be_at pongPacket advLenOff (advLenOff + 2);
      if (advLen <? 0) || (zlen pongPacket <? advLenOff + 2 + advLen) then Ret None else
      advertisement ← slice pongPacket (advLenOff + 2) (advLenOff + 2 + advLen);
      Ret (Some (serverGUID, advertisement))
  end.

(** FNV-1a of the server's name. *)
Definition stableGUIDFromString (s : string) : Z :=
  fold_left (fun h b => u64 (Z.lxor h (b2z b) * 1099511628211)) (bytes_of s) 14695981039346656037.

Definition defaultAdvertisementForServer (serverID : string) : bytes :=
  bytes_of ("MCPE;" ++ serverID ++ ";0;0.0.0;0;0;0;Proxy;Survival;1;0;0;")%string.

Definition latency_tag (latencyMs : Z) : string :=
  if latencyMs <? 0 then " §c[离线]"%string else
  let color :=
    if latencyMs <? 50 then "§a" else if latencyMs <? 100 then "§e"
    else if latencyMs <? 200 then "§6" else "§c" in
  (" " ++ color ++ "[" ++ pretty latencyMs ++ "ms]")%string.

Definition embedLatencyInMOTDBytes (pong : bytes) (latencyMs : Z) : bytes :=
  match pong with
  | [] => pong
  | _ =>
      match split1 ";"%char (string_of pong) with
      | edition :: name :: parts =>
          bytes_of (join1 ";"%char (edition :: (name ++ latency_tag latencyMs)%string :: parts))
      | _ => pong
      end
  end.

(** The ping packet sent to the server. *)
Definition raw_ping_packet (timestamp : Z) : bytes :=
  [IDUnconnectedPing] ++ be_bytes 8 timestamp ++ RakNetMagic ++ be_bytes 8 12345678901234567.

(** * Facts *)

(** ** Reading a frame *)

Lemma raw_skip_bounds r o : o <= raw_skip r o <= o + 10.
Proof. unfold raw_skip. repeat case_match; lia. Qed.

Lemma be_at_ret {E} (data : bytes) lo hi : 0 <= lo <= hi -> hi <= zlen data ->
  exists v, be_at (E := E) data lo hi = Ret v /\ 0 <= v.
Proof. intros. destruct (be_at_ok (E := E) data lo hi) as (v & -> & ?); [lia..|]. eauto with lia. Qed.

(** A frame that is read ends inside the datagram, at least three bytes on. *)
Lemma read_frame_ok data offset :
  0 <= offset ->
  exists r, read_frame data offset = Ret r /\
    match r with
    | None => True
    | Some fr =>
        offset + 3 <= fr_next fr <= zlen data /\ zlen (fr_payload fr) <= zlen data /\
        match fr_split fr with Some h => 0 <= sh_count h /\ 0 <= sh_id h /\ 0 <= sh_index h | None => True end
    end.
Proof.
  intros Ho. unfold read_frame.
  destruct (Z.ltb_spec (zlen data) (offset + 3)); [by eexists|].
  destruct (index_Ret (E := fuel_err) data offset) as [flags ->]; [lia|]. cbn [mbind outcome_bind].
  destruct (Z.ltb_spec (zlen data) (offset + 1 + 2)); [lia|].
  destruct (be_at_ret (E := fuel_err) data (offset + 1) (offset + 1 + 2)) as (n & -> & Hn); [lia..|].
  cbn [mbind outcome_bind].
  pose proof (raw_skip_bounds (frame_reliability flags) (offset + 1 + 2)) as Hs.
  set (o := raw_skip _ _) in *.
  assert (0 <= (n + 7) / 8) by (apply Z.div_pos; lia).
  destruct (frame_has_split flags); cbn [andb].
  - destruct (Z.ltb_spec (zlen data) (o + 10)); [by eexists|].
    destruct (be_at_ret (E := fuel_err) data o (o + 4)) as (c & -> & ?); [lia..|].
    cbn [mbind outcome_bind].
    destruct (be_at_ret (E := fuel_err) data (o + 4) (o + 6)) as (i & -> & ?); [lia..|].
    cbn [mbind outcome_bind].
    destruct (be_at_ret (E := fuel_err) data (o + 6) (o + 10)) as (x & -> & ?); [lia..|].
    cbn [mbind outcome_bind].
    destruct (Z.ltb_spec (zlen data) (o + 10 + (n + 7) / 8)); [by eexists|].
    destruct (slice (E := fuel_err) data (o + 10) (o + 10 + (n + 7) / 8)) as [p|?|] eqn:Hp;
      [|by apply slice_not_Err in Hp|apply slice_Panic_inv in Hp; lia].
    apply slice_len in Hp as ?. cbn. eexists; split; [done|]. cbn. lia.
  - cbn [mbind outcome_bind].
    destruct (Z.ltb_spec (zlen data) (o + (n + 7) / 8)); [by eexists|].
    destruct (slice (E := fuel_err) data o (o + (n + 7) / 8)) as [p|?|] eqn:Hp;
      [|by apply slice_not_Err in Hp|apply slice_Panic_inv in Hp; lia].
    apply slice_len in Hp as ?. cbn. eexists; split; [done|]. cbn. lia.
Qed.

(** ** The buffers of a client *)

(** A buffer of split packets: its counters are those of its fragments. *)
Record buffer_ok (b : splitPacketBuffer) : Prop := {
  bo_count : 1 <= splitCount b <= MaxSplitPacketFragments;
  bo_index : forall i p, sb_fragments b !! i = Some p -> 0 <= i < MaxSplitPacketFragments;
  bo_received : received b = Z.of_nat (size (sb_fragments b));
  bo_total : totalBytes b = map_fold (fun _ p n => zlen p + n) 0 (sb_fragments b);
  bo_bytes : totalBytes b <= MaxSplitPacketBytes;
}.

(** The buffers of a client are few and small, and the acknowledgements wait in order. *)
Record splits_ok (ci : raw_splits) : Prop := {
  so_few : Z.of_nat (size (splitPackets ci)) <= MaxSplitPacketsPerClient;
  so_buffers : map_Forall (fun _ b => buffer_ok b) (splitPackets ci);
  so_pending : Sorted Z.lt (pendingACKSeqs ci);
}.

Definition no_splits : raw_splits := {| splitPackets := ∅; pendingACKSeqs := [] |}.

Lemma no_splits_ok : splits_ok no_splits.
Proof. split; cbn; [rewrite map_size_empty; unfold MaxSplitPacketsPerClient; lia|apply map_Forall_empty|constructor]. Qed.

Lemma new_buffer_ok count now :
  1 <= count <= MaxSplitPacketFragments -> buffer_ok (new_buffer count now).
Proof.
  intros. by split.
Qed.

Lemma note_seq_ok seq b : buffer_ok b -> buffer_ok (note_seq seq b).
Proof. intros []. by split. Qed.

Lemma store_fragment_ok i p b b' :
  buffer_ok b -> 0 <= i < MaxSplitPacketFragments -> store_fragment i p b = Some b' -> buffer_ok b'.
Proof.
  intros [Hc Hi Hr Ht Hb] Hx. unfold store_fragment.
  destruct (sb_fragments b !! i) as [q|] eqn:Hl; [intros [= <-]; by split|].
  destruct (Z.ltb_spec MaxSplitPacketBytes (totalBytes b + zlen p)) as [|Hs]; [done|].
  intros [= <-]. split; cbn.
  - done.
  - intros j q. destruct (decide (j = i)) as [->|]; [intros _; lia|].
    rewrite lookup_insert_ne by done. apply Hi.
  - rewrite map_size_insert_None by done. lia.
  - rewrite map_fold_insert_L; [lia|intros; lia|done].
  - lia.
Qed.

Lemma cleanup_stale_subseteq now m : cleanupStaleSplitPackets now m ⊆ m.
Proof. apply map_filter_subseteq. Qed.

Lemma remove_oldest_subseteq visit m : remove_oldest visit m ⊆ m.
Proof. apply delete_subseteq. Qed.

Lemma oldest_in m order acc :
  (forall id, id ∈ order -> is_Some (m !! id)) -> order <> [] \/ is_Some (m !! acc.1) ->
  acc = (0, 0) \/ is_Some (m !! acc.1) ->
  is_Some (m !! (fold_left (oldest_step m) order acc).1).
Proof.
  revert acc. induction order as [|id order IH]; intros acc Hk Hne Ha; cbn [fold_left].
  - by destruct Hne.
  - assert (is_Some (m !! (oldest_step m acc id).1)) as Hs.
    { unfold oldest_step. destruct (Hk id) as [b Hb]; [by left|]. rewrite Hb.
      destruct (is_zero_time acc.2 || _) eqn:E; [by eexists|].
      destruct Ha as [->|]; [done|done]. }
    apply IH; [|by right|by right]. intros x Hx. apply Hk. by right.
Qed.

(** One buffer is removed, whatever the order in which the map is visited. *)
Lemma remove_oldest_size visit m :
  visit m ≡ₚ (map_to_list m).*1 -> m <> ∅ -> size m = S (size (remove_oldest visit m)).
Proof.
  intros Hv Hm. unfold remove_oldest.
  destruct (oldest_in m (visit m) (0, 0)) as [b Hb].
  - intros id. rewrite Hv, list_elem_of_fmap. intros ([k b] & -> & Hk%elem_of_map_to_list). by exists b.
  - left. intros E. rewrite E in Hv. apply Permutation_nil_l in Hv.
    apply Hm, map_to_list_empty_iff. destruct (map_to_list m); [done|]. discriminate.
  - by left.
  - rewrite map_size_delete_Some by by exists b.
    assert (size m <> 0%nat) by by rewrite map_size_ne_0_lookup; eauto. lia.
Qed.

Lemma get_buffer_ok now visit id count m m' b :
  (forall m, visit m ≡ₚ (map_to_list m).*1) ->
  1 <= count <= MaxSplitPacketFragments ->
  Z.of_nat (size m) <= MaxSplitPacketsPerClient -> map_Forall (fun _ b => buffer_ok b) m ->
  get_buffer now visit id count m = (m', b) ->
  Z.of_nat (size m') <= MaxSplitPacketsPerClient /\ map_Forall (fun _ b => buffer_ok b) m' /\
  m' !! id = Some b /\ buffer_ok b.
Proof.
  intros Hv Hc Hs Hm. unfold get_buffer.
  destruct (m !! id) as [b0|] eqn:Hl; [intros [= <- <-]; eauto|].
  set (m1 := if full m then _ else m). intros [= <- <-].
  assert (m1 ⊆ m /\ Z.of_nat (size m1) < MaxSplitPacketsPerClient) as [Hsub Hlt].
  { subst m1. unfold full. destruct (Z.leb_spec MaxSplitPacketsPerClient (Z.of_nat (size m))); [|by split].
    pose proof (cleanup_stale_subseteq now m) as Hc1.
    destruct (Z.leb_spec MaxSplitPacketsPerClient (Z.of_nat (size (cleanupStaleSplitPackets now m)))); [|by split].
    split; [by etrans; [apply remove_oldest_subseteq|]|].
    apply map_subseteq_size in Hc1.
    assert (size (cleanupStaleSplitPackets now m)
            = S (size (remove_oldest visit (cleanupStaleSplitPackets now m)))) as E.
    { apply remove_oldest_size; [done|]. apply map_size_non_empty_iff. unfold MaxSplitPacketsPerClient in *. lia. }
    lia. }
  assert (m1 !! id = None) as Hn by by eapply lookup_weaken_None.
  split; [rewrite map_size_insert_None by done; lia|].
  split; [|split; [apply lookup_insert_eq|by apply new_buffer_ok]].
  apply map_Forall_insert_2; [by apply new_buffer_ok|]. intros k x Hk. eapply Hm. by eapply lookup_weaken.
Qed.

Lemma map_Forall_delete_ok (m : split_map) id :
  map_Forall (fun _ b => buffer_ok b) m -> map_Forall (fun _ b => buffer_ok b) (delete id m).
Proof. intros Hm. by apply map_Forall_delete. Qed.

Lemma size_delete_le (m : split_map) id : (size (delete id m) <= size m)%nat.
Proof. apply map_subseteq_size, delete_subseteq. Qed.

Lemma size_insert_same (m : split_map) id b b' : m !! id = Some b -> size (<[id := b']> m) = size m.
Proof. intros H. rewrite map_size_insert_Some; [done|by eexists]. Qed.

Lemma sorted_seqs_spec s : Sorted Z.lt (sorted_seqs s) /\ forall x, x ∈ sorted_seqs s <-> x ∈ s.
Proof.
  unfold sorted_seqs. pose proof (merge_sort_Permutation Z.le (elements s)) as Hp. split.
  - assert (NoDup (merge_sort Z.le (elements s))) as Hn by (rewrite Hp; apply NoDup_elements).
    pose proof (Sorted_merge_sort Z.le (elements s)) as Hs.
    apply (Sorted_StronglySorted) in Hs; [|intros x y z; lia].
    apply StronglySorted_Sorted. revert Hn Hs. generalize (merge_sort Z.le (elements s)). clear.
    intros l. induction l as [|x l IH]; intros Hn Hs; [constructor|].
    apply NoDup_cons in Hn as [Hx Hn]. inversion Hs as [|?? Hs' Hf]; subst.
    constructor; [by apply IH|]. rewrite Forall_forall in *. intros y Hy.
    assert (x <> y) by by intros ->. specialize (Hf y Hy). lia.
  - intros x. rewrite Hp. apply elem_of_elements.
Qed.

Lemma handleSplitPacket_ok now visit ci id i count seq p :
  (forall m, visit m ≡ₚ (map_to_list m).*1) ->
  0 <= count -> 0 <= i -> splits_ok ci ->
  splits_ok (handleSplitPacket now visit ci id i count seq p).1 /\
  forall r, (handleSplitPacket now visit ci id i count seq p).2 = Some r -> zlen r <= MaxSplitPacketBytes.
Proof.
  intros Hv Hc Hi [Hf Hb Hp]. unfold handleSplitPacket.
  destruct (Z.eqb_spec count 0); [by split; [split|]|].
  destruct (Z.ltb_spec MaxSplitPacketFragments count); [by split; [split|]|]. cbn [orb].
  destruct (Z.leb_spec count i); [by split; [split|]|].
  destruct (get_buffer now visit id count (splitPackets ci)) as [m b] eqn:Hg.
  apply get_buffer_ok in Hg as (Hs & Hm & Hl & Hbo); [|done|lia|done..].
  apply (note_seq_ok seq) in Hbo.
  pose proof (size_delete_le m id) as Hd. pose proof (map_Forall_delete_ok m id Hm) as Hmd.
  destruct (store_fragment i p (note_seq seq b)) as [b'|] eqn:Hst.
  2: { split; [split; cbn [splitPackets set_splits pendingACKSeqs fst snd]; [lia|done|done]|done]. }
  apply store_fragment_ok in Hst; [|done|lia].
  assert (map_Forall (fun _ b => buffer_ok b) (<[id := b']> m)) as Hm' by by apply map_Forall_insert_2.
  pose proof (size_insert_same m id b b' Hl) as Hsz.
  pose proof (size_delete_le (<[id := b']> m) id) as Hd'.
  pose proof (map_Forall_delete_ok _ id Hm') as Hmd'.
  destruct (received b' <? splitCount b').
  { split; [split; cbn [splitPackets set_splits pendingACKSeqs fst snd]; [lia|done|done]|done]. }
  destruct (all_fragments b') as [frags|].
  2: { split; [split; cbn [splitPackets set_splits pendingACKSeqs fst snd]; [lia|done|done]|done]. }
  destruct (Z.ltb_spec MaxSplitPacketBytes (zlen (concat frags))).
  { split; [split; cbn [splitPackets set_splits pendingACKSeqs fst snd]; [lia|done|done]|done]. }
  split; [|by intros r [= <-]]. split; cbn [splitPackets set_splits pendingACKSeqs fst snd]; [lia|done|].
  destruct (0 <? _); [apply sorted_seqs_spec|done].
Qed.

Lemma frames_loop_ok fuel env data seq offset ci :
  4 <= offset -> Z.max 0 (zlen data - offset) < Z.of_nat fuel ->
  (forall c, ci = Some c -> splits_ok c) ->
  exists ci' r, frames_loop fuel env data seq offset ci = Ret (ci', r) /\
    (forall c, ci' = Some c -> splits_ok c) /\
    (is_Some ci' <-> is_Some ci) /\
    (forall g, r = Some g -> is_game_packet g = true /\ (zlen g <= zlen data \/ zlen g <= MaxSplitPacketBytes)).
Proof.
  revert offset ci. induction fuel as [|fuel IH]; intros offset ci Ho Hf Hci.
  { lia. }
  cbn [frames_loop]. destruct (Z.leb_spec (zlen data) offset); [by eexists _, _|].
  destruct (read_frame_ok data offset) as (r & -> & Hr); [lia|]. cbn [mbind outcome_bind].
  destruct r as [fr|]; [|by eexists _, _].
  destruct Hr as (Hnx & Hpl & Hh).
  assert (exists ci' r, (if is_game_packet (fr_payload fr) then Ret (ci, Some (fr_payload fr))
              else frames_loop fuel env data seq (fr_next fr) ci) = Ret (ci', r) /\
    (forall c, ci' = Some c -> splits_ok c) /\ (is_Some ci' <-> is_Some ci) /\
    (forall g, r = Some g -> is_game_packet g = true /\ (zlen g <= zlen data \/ zlen g <= MaxSplitPacketBytes)))
    as Hplain.
  { destruct (is_game_packet (fr_payload fr)) eqn:Hg.
    - eexists _, _. split; [done|]. split; [done|]. split; [done|]. intros g [= <-]. auto.
    - apply IH; [lia|lia|done]. }
  destruct (fr_split fr) as [h|]; [|done]. destruct ci as [c|]; [|done]. destruct Hh as (Hh1 & Hh2 & Hh3).
  pose proof (handleSplitPacket_ok (clock env (fr_next fr)) (visit_at env (fr_next fr)) c
    (sh_id h) (sh_index h) (sh_count h) seq (fr_payload fr) (visit_perm env (fr_next fr)) Hh1 Hh3 (Hci c eq_refl)) as [Hok Hlen].
  destruct (handleSplitPacket _ _ _ _ _ _ _ _) as [c' [p|]]; cbn [fst snd] in *.
  - change (default [] (Some p)) with p. destruct (is_game_packet p) eqn:Hg.
    + eexists _, _. split; [done|]. split; [by intros ? [= <-]|]. split; [by split; eauto|]. intros g [= <-]. auto.
    + destruct (IH (fr_next fr) (Some c')) as (ci' & r & -> & ? & [? ?] & ?); [lia|lia|by intros ? [= <-]|].
      eexists _, _. split; [done|]. split; [done|]. split; [split; eauto|done].
  - change (is_game_packet (default [] None)) with false. cbn iota.
    destruct (IH (fr_next fr) (Some c')) as (ci' & r & -> & ? & [? ?] & ?); [lia|lia|by intros ? [= <-]|].
    eexists _, _. split; [done|]. split; [done|]. split; [split; eauto|done].
Qed.

Lemma extract_game_packet_ok env data ci :
  (forall c, ci = Some c -> splits_ok c) ->
  exists ci' r, extract_game_packet env data ci = Ret (ci', r) /\
    (forall c, ci' = Some c -> splits_ok c) /\
    (is_Some ci' <-> is_Some ci) /\
    (forall g, r = Some g -> is_game_packet g = true /\ (zlen g <= zlen data \/ zlen g <= MaxSplitPacketBytes)).
Proof.
  intros Hci. unfold extract_game_packet. destruct (Z.ltb_spec (zlen data) 4); [by eexists _, _|].
  destruct (index_Ret (E := fuel_err) data 0) as [b Hb]; [lia|]. rewrite Hb. cbn [mbind outcome_bind].
  destruct (isFramedPacket b).
  - unfold parseRakNetFrame. destruct (Z.ltb_spec (zlen data) 4); [by eexists _, _|].
    unfold le24_at. destruct (le_at_ok (E := fuel_err) data 1 (1 + 3)) as (v & -> & _); [lia..|].
    cbn [mbind outcome_bind]. apply frames_loop_ok; [lia| |done]. unfold zlen. lia.
  - destruct (decide (b = game_wrapper)) as [->|]; [|by eexists _, _].
    eexists _, _. split; [done|]. split; [done|]. split; [done|]. intros g [= <-]. split; [|auto with lia].
    unfold index in Hb. cbn in Hb. destruct data as [|x data]; [done|]. cbn in Hb. injection Hb as ->. done.
Qed.

(** The datagrams a client sends, each with what the reader finds around it. *)
Definition read_all (l : list (frame_env * bytes)) (ci : raw_splits) : outcome fuel_err raw_splits :=
  fold_left (fun o ed => ci ← o; r ← extractGamePacketWithSplit ed.1 ed.2 ci; Ret r.1) l (Ret ci).

(** C16: Whatever bytes a client sends, in any number of datagrams, the frame reader
    returns for each of them without a panic, and the client never holds more than
    sixteen incomplete packets, each of at most 128 fragments and one megabyte, the
    counters of a buffer being those of its fragments; what it takes for a
    game packet starts with the game header. *)
Theorem frame_reader_bounded (l : list (frame_env * bytes)) (env : frame_env) (data : bytes) :
  exists ci ci' r,
    read_all l no_splits = Ret ci /\ extractGamePacketWithSplit env data ci = Ret (ci', r) /\
    splits_ok ci /\ splits_ok ci' /\
    (forall g, r = Some g ->
       is_game_packet g = true /\ (zlen g <= zlen data \/ zlen g <= MaxSplitPacketBytes)).
Proof.
  assert (forall env data c, splits_ok c -> exists c' r, extractGamePacketWithSplit env data c = Ret (c', r) /\
    splits_ok c' /\ (forall g, r = Some g ->
       is_game_packet g = true /\ (zlen g <= zlen data \/ zlen g <= MaxSplitPacketBytes))) as H1.
  { intros e d c Hc. unfold extractGamePacketWithSplit.
    destruct (extract_game_packet_ok e d (Some c)) as (ci' & r & -> & Hok & [_ Hs] & Hr); [by intros ? [= <-]|].
    destruct Hs as [c' ->]; [by eexists|]. cbn. eexists _, _. eauto. }
  assert (exists ci, read_all l no_splits = Ret ci /\ splits_ok ci) as (ci & Hci & Hok).
  { induction l as [|[e d] l (ci & Hci & Hok)] using rev_ind; [exists no_splits; split; [done|apply no_splits_ok]|].
    unfold read_all in *. rewrite fold_left_app, Hci. cbn [fold_left mbind outcome_bind fst snd].
    destruct (H1 e d ci Hok) as (c' & r & -> & ? & _). by exists c'. }
  destruct (H1 env data ci Hok) as (ci' & r & ? & ? & ?). exists ci, ci', r. auto.
Qed.

(** ** Reassembly *)

Definition sum_bytes (m : gmap Z bytes) : Z := map_fold (fun _ p n => zlen p + n) 0 m.

Lemma foldr_zlen_app (l k : list (Z * bytes)) :
  foldr (fun kv n => zlen kv.2 + n) 0 (l ++ k)
  = foldr (fun kv n => zlen kv.2 + n) 0 l + foldr (fun kv n => zlen kv.2 + n) 0 k.
Proof. induction l as [|x l IH]; cbn; lia. Qed.

Lemma foldr_zlen_nonneg (l : list (Z * bytes)) : 0 <= foldr (fun kv n => zlen kv.2 + n) 0 l.
Proof. induction l as [|[i p] l IH]; cbn; [lia|]. pose proof (zlen_nonneg p). lia. Qed.

Lemma sum_bytes_list m : sum_bytes m = foldr (fun kv n => zlen kv.2 + n) 0 (map_to_list m).
Proof.
  unfold sum_bytes. rewrite map_fold_foldr.
  induction (map_to_list m) as [|[i p] l IH]; cbn; [done|]. by rewrite IH.
Qed.

Lemma foldr_zlen_perm (l k : list (Z * bytes)) : l ≡ₚ k ->
  foldr (fun kv n => zlen kv.2 + n) 0 l = foldr (fun kv n => zlen kv.2 + n) 0 k.
Proof. induction 1; cbn; lia. Qed.

Lemma sum_bytes_mono m m' : m ⊆ m' -> sum_bytes m <= sum_bytes m'.
Proof.
  intros Hm. rewrite !sum_bytes_list.
  destruct (submseteq_Permutation _ _ (map_to_list_submseteq _ _ Hm)) as [k Hk].
  rewrite (foldr_zlen_perm _ _ Hk), foldr_zlen_app. pose proof (foldr_zlen_nonneg k). lia.
Qed.

Lemma sum_bytes_seq i l : sum_bytes (map_seqZ i l) = zlen (concat l).
Proof.
  revert i. induction l as [|p l IH]; intros i; [done|].
  rewrite map_seqZ_cons. unfold sum_bytes in *.
  rewrite map_fold_insert_L; [rewrite IH; cbn [concat]; zlen_lia|intros; lia|].
  apply lookup_map_seqZ_None. lia.
Qed.

(** One fragment that arrives. *)
Record split_piece := {
  pc_now : gotime;
  pc_visit : split_map -> list Z;
  pc_perm : forall m, pc_visit m ≡ₚ (map_to_list m).*1;
  pc_id : Z;
  pc_index : Z;
  pc_count : Z;
  pc_seq : Z;
  pc_data : bytes;
  pc_unsigned : 0 <= pc_index /\ 0 <= pc_count;
}.

Definition arrive (ci : raw_splits) (e : split_piece) : raw_splits * option bytes :=
  handleSplitPacket (pc_now e) (pc_visit e) ci (pc_id e) (pc_index e) (pc_count e) (pc_seq e) (pc_data e).

Definition arrive_all (l : list split_piece) : raw_splits :=
  fold_left (fun ci e => (arrive ci e).1) l no_splits.

Definition ids (l : list split_piece) : gset Z := list_to_set (pc_id <$> l).

(** No buffer is evicted while there is room. *)
Lemma get_buffer_room now visit i count m :
  is_Some (m !! i) \/ full m = false ->
  get_buffer now visit i count m
  = match m !! i with
    | Some b => (m, b)
    | None => (<[i := new_buffer count now]> m, new_buffer count now)
    end.
Proof. unfold get_buffer. destruct (m !! i); [done|]. by intros [[? ?]| ->]. Qed.

Lemma arrive_dom ci e :
  is_Some (splitPackets ci !! pc_id e) \/ full (splitPackets ci) = false ->
  (forall j, j <> pc_id e -> splitPackets (arrive ci e).1 !! j = splitPackets ci !! j).
Proof.
  intros Hr j Hj. unfold arrive, handleSplitPacket.
  destruct (_ || _); [done|]. destruct (_ <=? _); [done|]. rewrite get_buffer_room by done.
  destruct (splitPackets ci !! pc_id e) as [b|]; cbn zeta beta iota;
    repeat case_match; cbn [splitPackets set_splits fst];
    by rewrite ?lookup_delete_ne, ?lookup_insert_ne by done.
Qed.

Lemma ids_snoc l e : ids (l ++ [e]) = {[ pc_id e ]} ∪ ids l.
Proof. unfold ids. rewrite fmap_app, list_to_set_app_L. cbn. set_solver. Qed.

Lemma ids_mono l k : ids l ⊆ ids (l ++ k).
Proof. unfold ids. rewrite fmap_app, list_to_set_app_L. set_solver. Qed.

Section reassembly.
Variable id : Z.
Variable parts : list bytes.

(** The fragments of the packet [id], among the others. *)
Definition of_packet (l : list split_piece) : list split_piece := filter (fun e => pc_id e = id) l.
Definition seen (l : list split_piece) : gset Z := list_to_set (pc_index <$> of_packet l).
Definition seen_seqs (l : list split_piece) : gset Z := list_to_set (pc_seq <$> of_packet l).

(** A fragment with this identifier is one of [parts], and says how many there are. *)
Definition piece_ok (e : split_piece) : Prop :=
  pc_id e = id ->
  pc_count e = zlen parts /\ (map_seqZ 0 parts : gmap Z bytes) !! pc_index e = Some (pc_data e).

(** The buffer of the packet after the fragments [l]. *)
Record buffer_of (l : list split_piece) (b : splitPacketBuffer) : Prop := {
  bf_count : splitCount b = zlen parts;
  bf_sub : sb_fragments b ⊆ map_seqZ 0 parts;
  bf_dom : dom (sb_fragments b) = seen l;
  bf_seqs : datagramSeqs b = seen_seqs l;
}.

Lemma piece_ok_range e : piece_ok e -> pc_id e = id -> 0 <= pc_index e < zlen parts.
Proof.
  intros He Hi. destruct (He Hi) as [_ Hl].
  assert (is_Some ((map_seqZ 0 parts : gmap Z bytes) !! pc_index e)) as Hs by by eexists.
  apply lookup_map_seqZ_is_Some in Hs. unfold zlen. lia.
Qed.

Lemma seen_range l j : Forall piece_ok l -> j ∈ seen l -> 0 <= j < zlen parts.
Proof.
  intros Hl Hj. unfold seen in Hj. rewrite elem_of_list_to_set, list_elem_of_fmap in Hj.
  destruct Hj as (e & -> & He). apply list_elem_of_filter in He as [Hi He].
  rewrite Forall_forall in Hl. by apply piece_ok_range; [apply Hl|].
Qed.

Lemma of_packet_snoc l e :
  of_packet (l ++ [e]) = if decide (pc_id e = id) then of_packet l ++ [e] else of_packet l.
Proof.
  unfold of_packet. rewrite filter_app, filter_cons, filter_nil.
  destruct (decide (pc_id e = id)); [done|by rewrite app_nil_r].
Qed.

Lemma seen_snoc l e : pc_id e = id -> seen (l ++ [e]) = {[ pc_index e ]} ∪ seen l.
Proof.
  intros Hi. unfold seen. rewrite of_packet_snoc, decide_True by done.
  rewrite fmap_app, list_to_set_app_L. cbn. set_solver.
Qed.

Lemma seen_seqs_snoc l e : pc_id e = id -> seen_seqs (l ++ [e]) = {[ pc_seq e ]} ∪ seen_seqs l.
Proof.
  intros Hi. unfold seen_seqs. rewrite of_packet_snoc, decide_True by done.
  rewrite fmap_app, list_to_set_app_L. cbn. set_solver.
Qed.

Hypothesis parts_few : zlen parts <= MaxSplitPacketFragments.
Hypothesis parts_small : zlen (concat parts) <= MaxSplitPacketBytes.

(** A fragment of the packet is stored, whether it is new or a repetition. *)
Lemma store_of_packet l b e :
  buffer_ok b -> buffer_of l b -> piece_ok e -> pc_id e = id ->
  exists b', store_fragment (pc_index e) (pc_data e) (note_seq (pc_seq e) b) = Some b' /\
    buffer_of (l ++ [e]) b'.
Proof.
  intros [_ _ _ Ht _] [Hc Hs Hd Hq] He Hi. destruct (He Hi) as [_ Hl]. unfold store_fragment. cbn [sb_fragments note_seq].
  pose proof (seen_snoc l e Hi) as E1. pose proof (seen_seqs_snoc l e Hi) as E2.
  destruct (sb_fragments b !! pc_index e) as [q|] eqn:Hq'.
  - eexists; split; [done|]. split; cbn.
    + done.
    + done.
    + rewrite E1, Hd. apply elem_of_dom_2 in Hq'. rewrite Hd in Hq'. set_solver.
    + by rewrite E2, Hq.
  - assert (<[pc_index e := pc_data e]> (sb_fragments b) ⊆ map_seqZ 0 parts) as Hs' by by apply insert_subseteq_l.
    pose proof (sum_bytes_mono _ _ Hs') as Hb. rewrite sum_bytes_seq in Hb. unfold sum_bytes in Hb.
    rewrite map_fold_insert_L in Hb by (intros; lia || done).
    cbn [totalBytes note_seq]. rewrite (proj2 (Z.ltb_ge _ _)) by lia.
    eexists; split; [done|]. split; cbn; [done|done| |].
    + by rewrite dom_insert_L, Hd, E1.
    + by rewrite E2, Hq.
Qed.

Lemma size_parts : size (map_seqZ 0 parts : gmap Z bytes) = length parts.
Proof.
  clear. generalize 0. induction parts as [|p l IH]; intros i; [done|].
  rewrite map_seqZ_cons, map_size_insert_None, IH; [done|]. apply lookup_map_seqZ_None. lia.
Qed.

(** A packet with a missing fragment is not complete. *)
Lemma incomplete b l j :
  buffer_ok b -> buffer_of l b -> 0 <= j < zlen parts -> j ∉ seen l ->
  (received b <? splitCount b) = true.
Proof.
  intros [_ _ Hr _ _] [Hc Hs Hd _] Hj Hn. apply Z.ltb_lt. rewrite Hr, Hc.
  assert (sb_fragments b ⊆ delete j (map_seqZ 0 parts)) as Hs'.
  { apply map_subseteq_spec. intros i p Hi. rewrite lookup_delete_ne.
    - by eapply lookup_weaken.
    - intros <-. apply Hn. rewrite <- Hd. by eapply elem_of_dom_2. }
  apply map_subseteq_size in Hs'.
  rewrite map_size_delete_Some, size_parts in Hs' by (apply lookup_map_seqZ_is_Some; unfold zlen in Hj; lia).
  unfold zlen in *. lia.
Qed.

(** A packet with all its fragments is. *)
Lemma complete b l :
  buffer_ok b -> buffer_of l b -> (forall j, 0 <= j < zlen parts -> j ∈ seen l) ->
  (received b <? splitCount b) = false /\ all_fragments b = Some parts.
Proof.
  intros [_ _ Hr _ _] [Hc Hs Hd _] Hj.
  assert (sb_fragments b = map_seqZ 0 parts) as E.
  { apply map_eq. intros i. destruct (sb_fragments b !! i) as [p|] eqn:Hi.
    - symmetry. by eapply lookup_weaken.
    - destruct ((map_seqZ 0 parts : gmap Z bytes) !! i) as [p|] eqn:Hp; [|done].
      assert (i ∈ dom (sb_fragments b)) as [q Hq]%elem_of_dom; [|congruence].
      rewrite Hd. apply Hj. assert (is_Some ((map_seqZ 0 parts : gmap Z bytes) !! i)) as Hx by by eexists.
      apply lookup_map_seqZ_is_Some in Hx. unfold zlen. lia. }
  split.
  - apply Z.ltb_ge. rewrite Hr, Hc, E, size_parts. done.
  - unfold all_fragments. rewrite E, Hc. apply mapM_Some_2.
    apply Forall2_same_length_lookup. rewrite length_seqZ. split; [unfold zlen; lia|].
    intros i j p Hi Hp. apply lookup_seqZ in Hi as [-> _].
    rewrite lookup_map_seqZ_0 by lia. by rewrite Z.add_0_l, Nat2Z.id.
Qed.

Record reassembling (l : list split_piece) (ci : raw_splits) : Prop := {
  ra_ok : splits_ok ci;
  ra_dom : dom (splitPackets ci) ⊆ ids l;
  ra_buf : match splitPackets ci !! id with None => of_packet l = [] | Some b => buffer_of l b end;
}.

(** There is room for the fragment: its packet has a buffer or there are fewer than sixteen. *)
Lemma room l ci e :
  reassembling l ci -> Z.of_nat (size (ids (l ++ [e]))) <= MaxSplitPacketsPerClient ->
  is_Some (splitPackets ci !! pc_id e) \/ full (splitPackets ci) = false.
Proof.
  intros [_ Hd _] Hs. destruct (splitPackets ci !! pc_id e) eqn:E; [left; by eexists|right].
  apply not_elem_of_dom in E. unfold full. apply Z.leb_gt.
  assert ({[ pc_id e ]} ∪ dom (splitPackets ci) ⊆ ids (l ++ [e])) as Hsub%subseteq_size.
  { rewrite ids_snoc. set_solver. }
  rewrite size_union, size_singleton, size_dom in Hsub by set_solver.
  lia.
Qed.

Lemma buffer_new count now :
  count = zlen parts -> buffer_of [] (new_buffer count now).
Proof. intros ->. split; cbn; [done|apply map_empty_subseteq|by rewrite dom_empty_L|done]. Qed.

Lemma buffer_of_ext l l' b : of_packet l = of_packet l' -> buffer_of l b -> buffer_of l' b.
Proof. intros E [? ? ? ?]. by split; unfold seen, seen_seqs in *; rewrite <- ?E. Qed.

(** The buffer the fragment of the packet is stored in. *)
Lemma arrive_buffer l ci e :
  reassembling l ci -> piece_ok e -> pc_id e = id ->
  Z.of_nat (size (ids (l ++ [e]))) <= MaxSplitPacketsPerClient ->
  exists m b b',
    get_buffer (pc_now e) (pc_visit e) id (pc_count e) (splitPackets ci) = (m, b) /\
    store_fragment (pc_index e) (pc_data e) (note_seq (pc_seq e) b) = Some b' /\
    buffer_ok b' /\ buffer_of (l ++ [e]) b'.
Proof.
  intros Hra He Hi Hs. pose proof (room l ci e Hra Hs) as Hr. rewrite Hi in Hr.
  destruct Hra as [Hok Hd Hb]. destruct (piece_ok_range e He Hi) as [H0 H1].
  destruct (He Hi) as [Hc _].
  assert (exists m b, get_buffer (pc_now e) (pc_visit e) id (pc_count e) (splitPackets ci) = (m, b) /\
    buffer_ok b /\ buffer_of l b) as (m & b & Hg & Hbo & Hbf).
  { rewrite get_buffer_room by done. destruct (splitPackets ci !! id) as [b|] eqn:E.
    - eexists _, _. split; [done|]. split; [|done]. by eapply (so_buffers _ Hok).
    - eexists _, _. split; [done|]. split; [apply new_buffer_ok; lia|].
      apply (buffer_of_ext []); [done|]. by apply buffer_new. }
  destruct (store_of_packet l b e Hbo Hbf He Hi) as (b' & Hst & Hbf').
  exists m, b, b'. split; [done|]. split; [done|]. split; [|done].
  apply (store_fragment_ok _ _ _ _ (note_seq_ok _ _ Hbo)) in Hst; [done|lia].
Qed.

Lemma arrive_guards e : piece_ok e -> pc_id e = id ->
  (pc_count e =? 0) || (MaxSplitPacketFragments <? pc_count e) = false /\ (pc_count e <=? pc_index e) = false.
Proof.
  intros He Hi. destruct (piece_ok_range e He Hi). destruct (He Hi) as [-> _].
  split; [apply orb_false_intro; [apply Z.eqb_neq|apply Z.ltb_ge]|apply Z.leb_gt]; lia.
Qed.

Lemma arrive_dom_sub l ci e :
  reassembling l ci -> Z.of_nat (size (ids (l ++ [e]))) <= MaxSplitPacketsPerClient ->
  dom (splitPackets (arrive ci e).1) ⊆ ids (l ++ [e]).
Proof.
  intros Hra Hs j Hj. rewrite ids_snoc. destruct (decide (j = pc_id e)) as [->|Hne]; [set_solver|].
  apply elem_of_dom in Hj. rewrite (arrive_dom ci e (room l ci e Hra Hs) j Hne) in Hj.
  apply elem_of_dom in Hj. pose proof (ra_dom l ci Hra). set_solver.
Qed.

Lemma reassembling_step l ci e j :
  reassembling l ci -> piece_ok e ->
  Z.of_nat (size (ids (l ++ [e]))) <= MaxSplitPacketsPerClient ->
  0 <= j < zlen parts -> j ∉ seen (l ++ [e]) ->
  reassembling (l ++ [e]) (arrive ci e).1 /\ (pc_id e = id -> (arrive ci e).2 = None).
Proof.
  intros Hra He Hs Hj Hn.
  pose proof (arrive_dom_sub l ci e Hra Hs) as Hd.
  assert (splits_ok (arrive ci e).1) as Hok.
  { destruct (pc_unsigned e). by apply handleSplitPacket_ok; [apply pc_perm|..|apply (ra_ok l)]. }
  destruct (decide (pc_id e = id)) as [Hi|Hi].
  - destruct (arrive_guards e He Hi) as [G1 G2].
    destruct (arrive_buffer l ci e Hra He Hi Hs) as (m & b & b' & Hg & Hst & Hbo & Hbf).
    assert (arrive ci e = (set_splits (<[id := b']> m) ci, None)) as E.
    { unfold arrive, handleSplitPacket. rewrite G1, G2, Hi, Hg, Hst.
      by rewrite (incomplete b' (l ++ [e]) j). }
    rewrite E in *. split; [|done]. split; [done|done|]. cbn [fst splitPackets set_splits].
    by rewrite lookup_insert_eq.
  - split; [|done]. split; [done|done|].
    rewrite (arrive_dom ci e (room l ci e Hra Hs) id) by done.
    pose proof (ra_buf l ci Hra) as Hb. pose proof (of_packet_snoc l e) as E. rewrite decide_False in E by done.
    destruct (splitPackets ci !! id); [by eapply buffer_of_ext|by rewrite E].
Qed.

Lemma seen_mono l k : seen l ⊆ seen (l ++ k).
Proof. unfold seen, of_packet. rewrite filter_app, fmap_app, list_to_set_app_L. set_solver. Qed.

Lemma reassembling_all l j :
  Forall piece_ok l -> Z.of_nat (size (ids l)) <= MaxSplitPacketsPerClient ->
  0 <= j < zlen parts -> j ∉ seen l ->
  reassembling l (arrive_all l) /\
  forall k e, l !! k = Some e -> pc_id e = id -> (arrive (arrive_all (take k l)) e).2 = None.
Proof.
  intros Hl Hs Hj Hn. induction l as [|e l IH] using rev_ind.
  - split; [|done]. split; [apply no_splits_ok|cbn; by rewrite dom_empty_L|done].
  - apply Forall_app in Hl as [Hl He]. rewrite Forall_singleton in He.
    assert (size (ids l) <= size (ids (l ++ [e])))%nat by apply subseteq_size, ids_mono.
    destruct IH as [IH1 IH2]; [done|lia| |].
    { intros Hx. by apply Hn, seen_mono. }
    destruct (reassembling_step l (arrive_all l) e j IH1 He Hs Hj Hn) as [Hr Ho].
    unfold arrive_all in *. rewrite fold_left_app. cbn [fold_left].
    split; [done|]. intros k x Hx Hi.
    destruct (decide (k < length l)%nat).
    + rewrite take_app_le by lia. apply IH2; [|done]. by rewrite lookup_app_l in Hx by lia.
    + assert (k = length l) as -> by (apply lookup_lt_Some in Hx; rewrite length_app in Hx; cbn in Hx; lia).
      rewrite list_lookup_middle in Hx by done. injection Hx as <-.
      rewrite take_app_length. by apply Ho.
Qed.
End reassembly.

(** C19: The fragments of a packet, in any order and with repetitions, among fragments of
    other packets of any content: nothing is returned while a fragment is
    missing; the fragment that completes the packet returns its bytes, drops the
    buffer and leaves the sequence numbers of all its datagrams, sorted, to be
    acknowledged.  At most sixteen packet identifiers are in play, so no buffer
    is evicted. *)
Theorem split_reassembly (id : Z) (parts : list bytes) (before : list split_piece) (e : split_piece) :
  zlen parts <= MaxSplitPacketFragments -> zlen (concat parts) <= MaxSplitPacketBytes ->
  Forall (piece_ok id parts) (before ++ [e]) -> pc_id e = id ->
  Z.of_nat (size (ids (before ++ [e]))) <= MaxSplitPacketsPerClient ->
  pc_index e ∉ seen id before ->
  (forall j, 0 <= j < zlen parts -> j ∈ seen id (before ++ [e])) ->
  (forall k x, before !! k = Some x -> pc_id x = id -> (arrive (arrive_all (take k before)) x).2 = None) /\
  arrive (arrive_all before) e
  = ({| splitPackets := delete id (splitPackets (arrive_all before));
        pendingACKSeqs := sorted_seqs (seen_seqs id (before ++ [e])) |},
     Some (concat parts)).
Proof.
  intros Hfew Hsmall Hall Hi Hs Hnew Hcomp.
  apply Forall_app in Hall as [Hl He]. rewrite Forall_singleton in He.
  assert (size (ids before) <= size (ids (before ++ [e])))%nat by apply subseteq_size, ids_mono.
  destruct (reassembling_all id parts Hfew Hsmall before (pc_index e)) as [Hra Hnone];
    [done|lia|by apply (piece_ok_range id parts)|done|].
  split; [done|].
  destruct (arrive_guards id parts Hfew e He Hi) as [G1 G2].
  destruct (arrive_buffer id parts Hfew Hsmall before _ e Hra He Hi Hs) as (m & b & b' & Hg & Hst & Hbo & Hbf).
  destruct (complete id parts b' (before ++ [e]) Hbo Hbf Hcomp) as [C1 C2].
  unfold arrive at 1. unfold handleSplitPacket. rewrite G1, G2, Hi, Hg, Hst, C1, C2.
  rewrite (proj2 (Z.ltb_ge _ _)) by done.
  pose proof (bf_seqs _ _ _ _ Hbf) as Hq. rewrite Hq.
  pose proof (seen_seqs_snoc id before e Hi) as Eq.
  rewrite (proj2 (Z.ltb_lt _ _)).
  2: { assert (size (seen_seqs id (before ++ [e])) <> 0%nat); [|lia].
       intros E. apply size_empty_inv in E. set_solver. }
  assert (delete id (<[id := b']> m) = delete id (splitPackets (arrive_all before))) as ->; [|done].
  rewrite delete_insert_eq. pose proof (room id parts Hfew Hsmall before _ e Hra Hs) as Hr. rewrite Hi in Hr.
  rewrite get_buffer_room in Hg by done.
  destruct (splitPackets (arrive_all before) !! id) eqn:El; injection Hg as <- <-; [done|].
  by rewrite delete_insert_eq.
Qed.

(** ** Injected frames *)

Lemma le_at_app3 (a l k : bytes) lo :
  lo = zlen a -> zlen l = 3 -> le24_at (a ++ l ++ k) lo = Ret (le_uint l).
Proof. intros -> Hl. unfold le24_at. rewrite le_at_app; [done|done|lia]. Qed.

(** The bytes before the payload. *)
Definition injected_header (st : send_state) (payload : bytes) : bytes :=
  [x84] ++ le_bytes 3 (Z.land (sendDatagramSeq st) 0xFFFFFF) ++ [x60]
    ++ be_bytes 2 (u16 (zlen payload * 8))
    ++ le_bytes 3 (Z.land (sendMessageIndex st) 0xFFFFFF)
    ++ le_bytes 3 (Z.land (sendOrderIndex st) 0xFFFFFF) ++ [x00].

Lemma injected_layout st payload :
  (buildInjectedReliableOrderedFrame st payload).2
  = injected_header (buildInjectedReliableOrderedFrame st payload).1 payload ++ payload.
Proof. unfold buildInjectedReliableOrderedFrame, injected_header. cbn [fst snd]. by rewrite <- !app_assoc. Qed.

Lemma zlen_injected_header st payload : zlen (injected_header st payload) = 14.
Proof. unfold injected_header. zlen_lia. Qed.

(** The sixteen-bit length of the frame is the length of the payload modulo 8192. *)
Lemma injected_length n : 0 <= n -> (u16 (n * 8) + 7) / 8 = n mod 8192.
Proof.
  intros Hn. unfold wrapU. change (2 ^ 16) with (8192 * 8).
  rewrite Z.mul_mod_distr_r by lia.
  replace (n mod 8192 * 8 + 7) with (7 + n mod 8192 * 8) by lia. by rewrite Z.div_add by lia.
Qed.

(** The frame reader on an injected frame, whatever comes after it in the datagram. *)
Lemma read_injected st payload rest :
  read_frame (injected_header st payload ++ payload ++ rest) 4
  = Ret (Some {| fr_split := None; fr_payload := take (Z.to_nat (zlen payload mod 8192)) payload;
                 fr_next := 14 + zlen payload mod 8192 |}).
Proof.
  pose proof (zlen_injected_header st payload) as Hh. pose proof (zlen_nonneg payload) as Hp.
  pose proof (zlen_nonneg rest) as Hr.
  pose proof (Z.mod_le (zlen payload) 8192 Hp ltac:(lia)).
  pose proof (Z.mod_pos_bound (zlen payload) 8192 ltac:(lia)).
  assert (zlen (injected_header st payload ++ payload ++ rest) = 14 + zlen payload + zlen rest) as Hl
    by (rewrite !zlen_app; lia).
  unfold read_frame. rewrite Hl. rewrite (proj2 (Z.ltb_ge _ _)) by lia.
  assert (index (E := fuel_err) (injected_header st payload ++ payload ++ rest) 4 = Ret x60) as ->.
  { unfold injected_header. rewrite <- !app_assoc. rewrite (app_assoc [x84]).
    apply (index_app ([x84] ++ le_bytes 3 _) x60). zlen_lia. }
  cbn [mbind outcome_bind]. change (4 + 1) with 5. change (5 + 2) with 7.
  rewrite (proj2 (Z.ltb_ge _ _)) by lia.
  assert (be_at (E := fuel_err) (injected_header st payload ++ payload ++ rest) 5 7 = Ret (u16 (zlen payload * 8))) as ->.
  { unfold injected_header. rewrite <- !app_assoc.
    match goal with |- be_at (_ ++ ?s ++ _ ++ _ ++ ?k) _ _ = _ =>
      pose proof (be_at_app (E := fuel_err) ([x84] ++ s ++ [x60]) (be_bytes 2 (u16 (zlen payload * 8))) k 5 7) as Hb
    end.
    rewrite be_uint_be_bytes, wrapU_idemp in Hb by lia. rewrite <- !app_assoc in Hb. apply Hb; zlen_lia. }
  cbn [mbind outcome_bind]. rewrite injected_length by lia.
  change (frame_reliability x60) with 3. change (frame_has_split x60) with false.
  change (raw_skip 3 7) with 14. cbn [andb mbind outcome_bind].
  rewrite (proj2 (Z.ltb_ge _ _)) by lia.
  rewrite slice_ok by lia. cbn [mbind outcome_bind].
  replace (14 + zlen payload mod 8192 - 14) with (zlen payload mod 8192) by lia.
  assert (take (Z.to_nat (zlen payload mod 8192)) (drop (Z.to_nat 14) (injected_header st payload ++ payload ++ rest))
          = take (Z.to_nat (zlen payload mod 8192)) payload) as ->; [|done].
  unfold zlen in Hh. replace (Z.to_nat 14) with (length (injected_header st payload)) by lia.
  rewrite drop_app_length. apply take_app_le. unfold zlen in *. lia.
Qed.

(** A game packet at the head of a datagram is what the frame reader finds; the frames
    after it are not looked at. *)
Lemma first_game_packet env st payload rest ci :
  is_game_packet payload = true -> zlen payload <= MaxInjectedPacket ->
  extract_game_packet env (injected_header st payload ++ payload ++ rest) ci = Ret (ci, Some payload).
Proof.
  intros Hg Hl. pose proof (zlen_injected_header st payload) as Hh. pose proof (zlen_nonneg payload) as Hp.
  pose proof (zlen_nonneg rest) as Hr.
  assert (zlen (injected_header st payload ++ payload ++ rest) = 14 + zlen payload + zlen rest) as Hz
    by (rewrite !zlen_app; lia).
  unfold extract_game_packet. rewrite Hz, (proj2 (Z.ltb_ge _ _)) by lia.
  assert (index (E := fuel_err) (injected_header st payload ++ payload ++ rest) 0 = Ret x84) as -> by done.
  cbn [mbind outcome_bind]. change (isFramedPacket x84) with true. cbn iota.
  unfold parseRakNetFrame. rewrite Hz, (proj2 (Z.ltb_ge _ _)) by lia. unfold le24_at.
  destruct (le_at_ok (E := fuel_err) (injected_header st payload ++ payload ++ rest) 1 (1 + 3)) as (v & -> & _);
    [lia|lia|].
  cbn [mbind outcome_bind frames_loop]. rewrite Hz, (proj2 (Z.leb_gt _ _)), read_injected by lia.
  cbn [mbind outcome_bind fr_split fr_payload]. unfold MaxInjectedPacket in *.
  rewrite Z.mod_small by lia. unfold zlen. rewrite Nat2Z.id, firstn_all, Hg. done.
Qed.

(** A frame the proxy injects with a game packet of at most 8191 bytes is read back by
    the proxy's own frame reader as that packet, and its header carries the
    counters, each one more than before in the 32 bits of the word. *)
Theorem injected_frame_roundtrip (env : frame_env) (st : send_state) (payload : bytes) :
  is_game_packet payload = true -> zlen payload <= MaxInjectedPacket ->
  let '(st', frame) := buildInjectedReliableOrderedFrame st payload in
  extractGamePacket env frame = Ret (Some payload) /\
  parseRakNetDatagramSeq frame = Some (Z.land (u32 (sendDatagramSeq st + 1)) 0xFFFFFF) /\
  st' = {| sendDatagramSeq := u32 (sendDatagramSeq st + 1);
           sendMessageIndex := u32 (sendMessageIndex st + 1);
           sendOrderIndex := u32 (sendOrderIndex st + 1) |}.
Proof.
  intros Hg Hl. destruct (buildInjectedReliableOrderedFrame st payload) as [st' frame] eqn:E.
  pose proof (injected_layout st payload) as Hf. rewrite E in Hf. cbn [fst snd] in Hf.
  pose proof (zlen_injected_header st' payload) as Hh. pose proof (zlen_nonneg payload) as Hp.
  assert (Z.land (sendDatagramSeq st') 0xFFFFFF = Z.land (u32 (sendDatagramSeq st + 1)) 0xFFFFFF) as Hs.
  { unfold buildInjectedReliableOrderedFrame in E. by injection E as <- _. }
  split; [|split].
  - pose proof (first_game_packet env st' payload [] None Hg Hl) as Hr. rewrite app_nil_r in Hr.
    unfold extractGamePacket. by rewrite Hf, Hr.
  - rewrite Hf. unfold parseRakNetDatagramSeq, injected_header. rewrite <- !app_assoc.
    set (k := [x60] ++ _). set (s := le_bytes 3 _). assert (length s = 3%nat) as Hs3 by apply length_le_bytes.
    assert (isRakNetDataDatagram ([x84] ++ s ++ k) = true) as ->.
    { destruct s as [|? [|? [|? [|]]]]; done. }
    change (drop 1 ([x84] ++ s ++ k)) with (s ++ k). rewrite <- Hs3 at 1. rewrite take_app_length.
    subst s. rewrite le_uint_le_bytes, Hs. f_equal. apply wrapU_small. change 0xFFFFFF with (Z.ones 24).
    rewrite Z.land_ones by lia. apply Z.mod_pos_bound. lia.
  - unfold buildInjectedReliableOrderedFrame in E. by injection E as <- _.
Qed.

(** A longer packet loses all but its length modulo 8192: the length field has
    sixteen bits and counts bits.  The raw batch and the legacy variants of a
    kick are sent without the test of the length that the compressed one has. *)
Lemma injected_frame_truncated (env : frame_env) (st : send_state) (payload : bytes) :
  MaxInjectedPacket < zlen payload ->
  exists fr, read_frame (buildInjectedReliableOrderedFrame st payload).2 4 = Ret (Some fr) /\
    fr_payload fr = take (Z.to_nat (zlen payload mod 8192)) payload /\ zlen (fr_payload fr) < zlen payload.
Proof.
  unfold MaxInjectedPacket. intros Hl.
  pose proof (read_injected (buildInjectedReliableOrderedFrame st payload).1 payload []) as Hr.
  rewrite app_nil_r in Hr. rewrite injected_layout, Hr. eexists; split; [done|].
  split; [done|]. cbn [fr_payload]. pose proof (Z.mod_pos_bound (zlen payload) 8192 ltac:(lia)).
  unfold zlen at 1. rewrite length_take. lia.
Qed.

(** ** The unconnected pong *)

Lemma bytes_index_here sep k i : bytes_index (sep ++ k) sep i = Some i.
Proof.
  destruct (sep ++ k) as [|b l] eqn:E; cbn [bytes_index].
  - rewrite decide_True; [done|]. destruct sep; [done|discriminate].
  - rewrite decide_True; [done|]. by rewrite <- E, take_app_length.
Qed.

Lemma bytes_index_skip b l sep i : take (length sep) (b :: l) <> sep -> bytes_index (b :: l) sep i = bytes_index l sep (i + 1).
Proof. intros. cbn [bytes_index]. by rewrite decide_False. Qed.

Lemma length16 {A} (l : list A) : length l = 16%nat ->
  exists a b c d e f g h i j k m n o p q, l = [a; b; c; d; e; f; g; h; i; j; k; m; n; o; p; q].
Proof. intros H. do 16 (destruct l as [|? l]; [done|]). destruct l; [|done]. by repeat eexists. Qed.

(** The magic is found where the pong has it, unless the sixteen bytes of time and
    identifier are the magic themselves. *)
Lemma magic_at_17 t k : length t = 16%nat -> t <> RakNetMagic ->
  bytes_index ([IDUnconnectedPong] ++ t ++ RakNetMagic ++ k) RakNetMagic 0 = Some 17.
Proof.
  intros Ht Hne. destruct (length16 t Ht) as (a & b & c & d & e & f & g & h & i & j & x & m & n & o & p & q & ->).
  cbn [app]. rewrite bytes_index_skip by done. rewrite bytes_index_skip by exact Hne.
  do 15 (rewrite bytes_index_skip by (unfold RakNetMagic; cbn; congruence)).
  apply (bytes_index_here RakNetMagic k).
Qed.

(** The advertisement and the identifier of a pong the proxy builds are read back from
    it, whatever bytes they have, unless the time and the identifier in a row
    spell the RakNet magic. *)
Theorem pong_roundtrip (pingTimestamp serverGUID : Z) (advertisement : bytes) :
  be_bytes 8 pingTimestamp ++ be_bytes 8 serverGUID <> RakNetMagic ->
  zlen advertisement < 2 ^ 16 ->
  parseUnconnectedPong (buildUnconnectedPongPacket pingTimestamp serverGUID advertisement)
  = Ret (Some (u64 serverGUID, advertisement)).
Proof.
  intros Hne Hl. unfold parseUnconnectedPong, buildUnconnectedPongPacket.
  set (t := be_bytes 8 pingTimestamp) in *. set (g := be_bytes 8 serverGUID) in *.
  assert (length t = 8%nat /\ length g = 8%nat) as [Lt Lg] by (split; apply length_be_bytes).
  pose proof (zlen_nonneg advertisement) as Hp.
  assert (zlen t = 8 /\ zlen g = 8 /\ zlen RakNetMagic = 16 /\ zlen [IDUnconnectedPong] = 1) as (Zt & Zg & Zm & Zi)
    by (unfold zlen; by rewrite Lt, Lg).
  rewrite Zm.
  assert (forall k, zlen ([IDUnconnectedPong] ++ t ++ g ++ RakNetMagic ++ k) = 33 + zlen k) as Hz.
  { intros k. rewrite !zlen_app. lia. }
  rewrite Hz, zlen_app, zlen_be_bytes, (proj2 (Z.ltb_ge _ _)) by lia.
  change (index ([IDUnconnectedPong] ++ t ++ g ++ RakNetMagic ++ be_bytes 2 (u16 (zlen advertisement)) ++ advertisement) 0)
    with (Ret (E := fuel_err) IDUnconnectedPong).
  cbn [mbind outcome_bind]. rewrite bool_decide_true by done. cbn [negb].
  rewrite (app_assoc t g), magic_at_17 by (rewrite ?length_app; try done; lia).
  cbn [Z.leb orb]. rewrite <- (app_assoc t g). change (17 <=? 0) with false. cbn [orb].
  rewrite (proj2 (Z.ltb_ge _ _)) by lia. change (8 <=? 17) with true. cbn iota.
  change (17 - 8) with 9. change (17 + 16) with 33. change (33 + 2) with 35.
  rewrite (app_assoc [IDUnconnectedPong]).
  rewrite (be_at_app ([IDUnconnectedPong] ++ t) g _ 9 17) by (rewrite zlen_app; lia).
  subst g. rewrite be_uint_be_bytes. cbn [mbind outcome_bind].
  set (g := be_bytes 8 serverGUID) in *.
  assert (forall k l, be_at (E := fuel_err) (([IDUnconnectedPong] ++ t) ++ g ++ RakNetMagic ++ k ++ l) 33 (33 + zlen k) = Ret (be_uint k)) as Hk.
  { intros k l. pose proof (be_at_app (E := fuel_err) ([IDUnconnectedPong] ++ t ++ g ++ RakNetMagic) k l) as Hb.
    rewrite <- !app_assoc in Hb. rewrite <- !app_assoc.
    apply Hb; rewrite !zlen_app; lia. }
  specialize (Hk (be_bytes 2 (u16 (zlen advertisement))) advertisement).
  rewrite zlen_be_bytes, be_uint_be_bytes in Hk. change (33 + Z.of_nat 2) with 35 in Hk. rewrite Hk.
  cbn [mbind outcome_bind]. change (8 * Z.of_nat 2) with 16. rewrite !wrapU_small by (rewrite ?wrapU_small; lia).
  rewrite (proj2 (Z.ltb_ge (zlen advertisement) 0)), (proj2 (Z.ltb_ge _ _)) by lia. cbn [orb].
  pose proof (slice_app (E := fuel_err)
    (([IDUnconnectedPong] ++ t) ++ g ++ RakNetMagic ++ be_bytes 2 (u16 (zlen advertisement))) advertisement []) as Hs.
  rewrite app_nil_r, <- !app_assoc in Hs. rewrite <- !app_assoc.
  rewrite wrapU_small in Hs by lia. 
  rewrite Hs by (rewrite !zlen_app, ?zlen_be_bytes; lia).
  done.
Qed.

(** ** Acknowledgements *)

Lemma unique_step_spec l acc :
  Sorted Z.lt acc -> StronglySorted Z.le l -> (forall x y, last acc = Some x -> y ∈ l -> x <= y) ->
  Sorted Z.lt (fold_left unique_step l acc) /\
  forall x, x ∈ fold_left unique_step l acc <-> x ∈ acc \/ x ∈ l.
Proof.
  revert acc. induction l as [|s l IH]; intros acc Ha Hl Hx; cbn [fold_left].
  { split; [done|]. intros x. split; [auto|]. intros [|H]; [done|]. by apply not_elem_of_nil in H. }
  inversion Hl as [|?? Hl' Hf]; subst. rewrite Forall_forall in Hf.
  assert (Sorted Z.lt (unique_step acc s) /\ last (unique_step acc s) = Some s /\
    forall x, x ∈ unique_step acc s <-> x ∈ acc \/ x = s) as (H1 & H2 & H3).
  { unfold unique_step. destruct (last acc) as [z|] eqn:E.
    - destruct (Z.eqb_spec z s) as [->|Hne].
      + split; [done|]. split; [done|]. intros x. split; [auto|]. intros [| ->]; [done|].
        apply last_Some in E as [k ->]. set_solver.
      + split; [|split; [apply last_snoc|set_solver]].
        apply StronglySorted_Sorted, StronglySorted_app_2.
        * intros a b Hin Hb. apply list_elem_of_singleton in Hb as ->.
          apply last_Some in E as [k ->].
          assert (z < s) by (specialize (Hx z s eq_refl ltac:(by left)); lia).
          apply elem_of_app in Hin as [Hin|Hin%list_elem_of_singleton]; [|lia].
          apply (Sorted_StronglySorted) in Ha; [|intros ? ? ?; lia].
          apply (StronglySorted_app_1_elem_of Z.lt k [z] a z) in Ha; [lia|done|by left].
        * by apply Sorted_StronglySorted; [intros ? ? ?; lia|].
        * repeat constructor.
    - apply last_None in E as ->. split; [repeat constructor|]. split; [done|]. set_solver. }
  destruct (IH (unique_step acc s) H1 Hl') as [I1 I2].
  { intros x y Hxl Hy. rewrite H2 in Hxl. injection Hxl as <-. by apply Hf. }
  split; [done|]. intros x. rewrite I2, H3. set_solver.
Qed.

Lemma uniqueSeqs_spec seqs :
  Sorted Z.lt (uniqueSeqs seqs) /\ forall x, x ∈ uniqueSeqs seqs <-> x ∈ seqs.
Proof.
  unfold uniqueSeqs.
  destruct (unique_step_spec (merge_sort Z.le seqs) []) as [H1 H2].
  - constructor.
  - apply Sorted_StronglySorted; [intros ? ? ?; lia|]. apply (Sorted_merge_sort Z.le).
  - done.
  - split; [done|]. intros x. rewrite H2, merge_sort_Permutation. set_solver.
Qed.

(** The reader of a RakNet acknowledgement, as a client has it: records of one number. *)
Fixpoint ack_records (n : nat) (l : bytes) : option (list Z) :=
  match n, l with
  | O, [] => Some []
  | S n, b :: x :: y :: z :: l =>
      if decide (b = x01) then rest ← ack_records n l; Some (le_uint [x; y; z] :: rest) else None
  | _, _ => None
  end.

Definition read_ack (l : bytes) : option (list Z) :=
  match l with
  | b :: c :: d :: l => if decide (b = xc0) then ack_records (Z.to_nat (be_uint [c; d])) l else None
  | _ => None
  end.

Definition seq24 (x : Z) : Prop := 0 <= x < 2 ^ 24.

Lemma ack_records_written u :
  Forall seq24 u ->
  ack_records (length u) (concat ((fun seq => x01 :: le_bytes 3 (Z.land seq 0xFFFFFF)) <$> u)) = Some u.
Proof.
  induction 1 as [|x u Hx Hu IH]; [done|]. unfold seq24 in Hx.
  rewrite fmap_cons. cbn [concat length]. pose proof (le_uint_le_bytes 3 (Z.land x 0xFFFFFF)) as Hle.
  pose proof (length_le_bytes 3 (Z.land x 0xFFFFFF)) as Hlen.
  destruct (le_bytes 3 (Z.land x 0xFFFFFF)) as [|a [|b [|c [|]]]]; try done.
  cbn [app ack_records]. rewrite decide_True by done. rewrite IH. cbn [mbind option_bind].
  rewrite Hle. do 2 f_equal. change 0xFFFFFF with (Z.ones 24). rewrite Z.land_ones by lia.
  rewrite (Z.mod_small x) by done. by apply wrapU_small.
Qed.

Lemma read_ack_header c l : read_ack ([xc0] ++ be_bytes 2 c ++ l) = ack_records (Z.to_nat (u16 c)) l.
Proof.
  pose proof (be_uint_be_bytes 2 c) as Hb. pose proof (length_be_bytes 2 c) as Hlen.
  destruct (be_bytes 2 c) as [|a [|b [|]]]; try done.
  cbn [app read_ack]. by rewrite decide_True, Hb by done.
Qed.

Lemma read_ack_sent seqs ack :
  sendRakNetACKsToClient seqs = Some ack -> Forall seq24 seqs -> zlen seqs < 2 ^ 16 ->
  read_ack ack = Some (uniqueSeqs seqs).
Proof.
  intros Hs Hq Hl.
  assert (ack = [xc0] ++ be_bytes 2 (u16 (zlen (uniqueSeqs seqs)))
    ++ concat ((fun seq => x01 :: le_bytes 3 (Z.land seq 0xFFFFFF)) <$> uniqueSeqs seqs)) as ->
    by (destruct seqs; [done|by injection Hs as <-]).
  destruct (uniqueSeqs_spec seqs) as [Hu1 Hu2].
  assert (Forall seq24 (uniqueSeqs seqs)) as Hu.
  { rewrite Forall_forall in *. intros x Hx. by apply Hq, Hu2. }
  assert (zlen (uniqueSeqs seqs) <= zlen seqs) as Hz.
  { unfold zlen. apply Nat2Z.inj_le, submseteq_length, NoDup_submseteq.
    - apply (Sorted_StronglySorted) in Hu1; [|intros ? ? ?; lia]. clear -Hu1.
      induction Hu1 as [|x l _ IH Hf]; constructor; [|done]. intros Hx. rewrite Forall_forall in Hf.
      specialize (Hf x Hx). lia.
    - intros x. by rewrite Hu2. }
  rewrite read_ack_header. pose proof (zlen_nonneg (uniqueSeqs seqs)).
  rewrite !wrapU_small by (rewrite ?wrapU_small; lia).
  unfold zlen. rewrite Nat2Z.id. by apply ack_records_written.
Qed.

(** The acknowledgement of an intercepted datagram: when the login came in fragments, the
    client is told that every datagram that carried one arrived, this one
    included; each number once, in ascending order; and the numbers are then
    forgotten. *)
Theorem intercepted_acked (ci : raw_splits) (datagram : bytes) (seq : Z) :
  parseRakNetDatagramSeq datagram = Some seq ->
  Forall seq24 (pendingACKSeqs ci) -> zlen (pendingACKSeqs ci) < 2 ^ 16 - 1 ->
  exists ack acked,
    ackInterceptedClientDatagram ci datagram = (clearPendingACKSeqs ci, Some ack) /\
    read_ack ack = Some acked /\ Sorted Z.lt acked /\
    forall x, x ∈ acked <-> x = seq \/ x ∈ pendingACKSeqs ci.
Proof.
  intros Hs Hp Hl. unfold ackInterceptedClientDatagram, intercepted_seqs. rewrite Hs.
  cbn [consumePendingACKSeqs]. set (l := match pendingACKSeqs ci with [] => _ | _ => _ end).
  assert (Forall seq24 l /\ zlen l < 2 ^ 16 /\ l <> [] /\ forall x, x ∈ l <-> x = seq \/ x ∈ pendingACKSeqs ci)
    as (L1 & L2 & L3 & L4).
  { assert (seq24 seq) as Hseq.
    { unfold parseRakNetDatagramSeq in Hs. destruct (isRakNetDataDatagram datagram) eqn:E; [|done]. injection Hs as <-.
      destruct datagram as [|? [|? [|? [|? ?]]]]; try done.
      unfold seq24. cbn [drop take]. apply (le_uint_range [_; _; _]). }
    subst l. destruct (pendingACKSeqs ci) as [|y ys] eqn:E.
    - split; [by constructor|]. split; [done|]. split; [done|]. set_solver.
    - rewrite <- E in *. destruct (existsb (Z.eqb seq) (pendingACKSeqs ci)) eqn:Hex.
      + split; [done|]. split; [lia|]. split; [by rewrite E|].
        apply existsb_exists in Hex as (z & Hz & Heq%Z.eqb_eq). subst z. apply list_elem_of_In in Hz. set_solver.
      + split; [apply Forall_app; by split; [|constructor]|]. split; [zlen_lia|]. split; [by destruct (pendingACKSeqs ci)|].
        set_solver. }
  destruct (sendRakNetACKsToClient l) as [ack|] eqn:Ha.
  2: { destruct l; done. }
  destruct (uniqueSeqs_spec l) as [U1 U2].
  exists ack, (uniqueSeqs l). split; [done|]. split; [by apply read_ack_sent|]. split; [done|].
  intros x. by rewrite U2.
Qed.

(** ** The counters of the server *)

Lemma land24 v : 0 <= Z.land v 0xFFFFFF < 2 ^ 24.
Proof. change 0xFFFFFF with (Z.ones 24). rewrite Z.land_ones by lia. apply Z.mod_pos_bound. lia. Qed.

Lemma land24_id a : seq24 a -> Z.land a 0xFFFFFF = a.
Proof. intros Ha. change 0xFFFFFF with (Z.ones 24). rewrite Z.land_ones by lia. by apply Z.mod_small. Qed.

(** With no other writer, one pass moves a 24-bit word to the larger value. *)
Lemma atomicMaxUint24_max a v : seq24 a -> atomicMaxUint24 1 a v = Some (Z.max a (Z.land v 0xFFFFFF)).
Proof.
  intros Ha. pose proof (land24 v). unfold atomicMaxUint24. cbn [atomicMaxUint24_loop]. unfold atomicMaxUint24_pass.
  rewrite (land24_id a), Z.eqb_refl by done. destruct (Z.leb_spec (Z.land v 0xFFFFFF) a); f_equal; lia.
Qed.

(** A word that has left the 24 bits, which the counter of injected frames does after
    its last value, is compared masked but exchanged whole: the loop never ends on
    a larger value. *)
Theorem atomicMaxUint24_stuck (fuel : nat) (a v : Z) :
  2 ^ 24 <= a < 2 ^ 32 -> Z.land a 0xFFFFFF < Z.land v 0xFFFFFF ->
  atomicMaxUint24 fuel a v = None.
Proof.
  intros Ha Hv. unfold atomicMaxUint24. induction fuel as [|fuel IH]; [done|].
  cbn [atomicMaxUint24_loop]. unfold atomicMaxUint24_pass at 1.
  pose proof (land24 a). rewrite (proj2 (Z.leb_gt _ _)), (proj2 (Z.eqb_neq _ _)) by lia. exact IH.
Qed.

Lemma atomicMaxUint24_stuck_witness :
  bump 0xFFFFFF = 2 ^ 24 /\ forall fuel, atomicMaxUint24 fuel (bump 0xFFFFFF) 1 = None.
Proof. split; [done|]. intros fuel. apply (atomicMaxUint24_stuck fuel (bump 0xFFFFFF) 1); [by vm_compute|done]. Defined.

Definition send_ok (st : send_state) : Prop :=
  seq24 (sendDatagramSeq st) /\ seq24 (sendMessageIndex st) /\ seq24 (sendOrderIndex st).

(** The counters only grow, and encryption is seen only after the login. *)
Record observed_after (loginParsed : bool) (o o' : observed) : Prop := {
  oa_ok : send_ok (ob_send o');
  oa_seq : sendDatagramSeq (ob_send o) <= sendDatagramSeq (ob_send o');
  oa_message : sendMessageIndex (ob_send o) <= sendMessageIndex (ob_send o');
  oa_order : sendOrderIndex (ob_send o) <= sendOrderIndex (ob_send o');
  oa_encrypted : ob_encrypted o' = true -> ob_encrypted o = true \/ loginParsed = true;
  oa_sticky : ob_encrypted o = true -> ob_encrypted o' = true;
}.

Lemma observed_refl p o : send_ok (ob_send o) -> observed_after p o o.
Proof. intros Ho. split; try done; auto. Qed.

Lemma observed_trans p a b c : observed_after p a b -> observed_after p b c -> observed_after p a c.
Proof. intros [? ? ? ? ? ?] [? ? ? ? ? ?]. split; try done; try lia; naive_solver. Qed.

Lemma max24_ok a v : seq24 a -> 0 <= v -> exists x, max24 a v = Ret x /\ seq24 x /\ a <= x.
Proof.
  intros Ha Hv. unfold max24. rewrite atomicMaxUint24_max by done. eexists; split; [done|].
  pose proof (land24 v). unfold seq24 in *. lia.
Qed.

Lemma set_seq_ok p v o : send_ok (ob_send o) -> 0 <= v ->
  exists o', set_seq (fun a => max24 a v) o = Ret o' /\ observed_after p o o'.
Proof.
  intros (H1 & H2 & H3) Hv. unfold set_seq. destruct (max24_ok _ v H1 Hv) as (x & -> & ? & ?).
  cbn. eexists; split; [done|]. split; cbn; auto; try lia. by split.
Qed.

Lemma set_message_ok p v o : send_ok (ob_send o) -> 0 <= v ->
  exists o', set_message (fun a => max24 a v) o = Ret o' /\ observed_after p o o'.
Proof.
  intros (H1 & H2 & H3) Hv. unfold set_message. destruct (max24_ok _ v H2 Hv) as (x & -> & ? & ?).
  cbn. eexists; split; [done|]. split; cbn; auto; try lia. by split.
Qed.

Lemma set_order_ok p v o : send_ok (ob_send o) -> 0 <= v ->
  exists o', set_order (fun a => max24 a v) o = Ret o' /\ observed_after p o o'.
Proof.
  intros (H1 & H2 & H3) Hv. unfold set_order. destruct (max24_ok _ v H3 Hv) as (x & -> & ? & ?).
  cbn. eexists; split; [done|]. split; cbn; auto; try lia. by split.
Qed.

Lemma le24_ok data i : 0 <= i -> i + 3 <= zlen data -> exists v, le24_at data i = Ret v /\ 0 <= v.
Proof. intros. unfold le24_at. destruct (le_at_ok (E := fuel_err) data i (i + 3)) as (v & -> & ?); [lia..|]. eauto with lia. Qed.

Lemma bind_observed p o (m : outcome fuel_err observed) (k : observed -> outcome fuel_err observed) :
  (exists o', m = Ret o' /\ observed_after p o o') ->
  (forall o', observed_after p o o' -> exists x, k o' = Ret x /\ observed_after p o' x) ->
  exists x, (m ≫= k) = Ret x /\ observed_after p o x.
Proof.
  intros (o' & -> & Ho) Hk. destruct (Hk o' Ho) as (x & Hx & ?). exists x. split; [done|].
  by eapply observed_trans.
Qed.

Lemma note_message_ok p data reliable offset o :
  send_ok (ob_send o) -> 0 <= offset -> reliable && (zlen data <? offset + 3) = false ->
  exists o', note_message data reliable offset o = Ret o' /\ observed_after p o o'.
Proof.
  intros Hs Ho E. unfold note_message. destruct reliable; [|eauto using observed_refl].
  cbn [andb] in E. bool_prop. destruct (le24_ok data offset) as (v & -> & ?); [lia..|]. by apply set_message_ok.
Qed.

Lemma note_order_ok p data ordered offset o :
  send_ok (ob_send o) -> 0 <= offset -> ordered && (zlen data <? offset + 4) = false ->
  exists o', note_order data ordered offset o = Ret o' /\ observed_after p o o'.
Proof.
  intros Hs Ho E. unfold note_order. destruct ordered; [|eauto using observed_refl].
  cbn [andb] in E. bool_prop.
  destruct (le24_ok data offset) as (v & -> & ?); [lia..|]. cbn [mbind outcome_bind].
  destruct (index_Ret (E := fuel_err) data (offset + 3)) as [ch ->]; [lia|]. cbn [mbind outcome_bind].
  destruct (_ =? 0); [by apply set_order_ok|eauto using observed_refl].
Qed.

Lemma note_encryption_ok p data offset L o :
  send_ok (ob_send o) -> 0 <= offset -> offset + L <= zlen data ->
  exists o', note_encryption data p offset L o = Ret o' /\ observed_after p o o'.
Proof.
  intros Hs Ho HL. unfold note_encryption. destruct (Z.leb_spec 2 L); [|eauto using observed_refl].
  destruct (index_Ret (E := fuel_err) data offset) as [b ->]; [lia|]. cbn [mbind outcome_bind].
  destruct (decide (b = game_wrapper)); [|eauto using observed_refl].
  destruct (index_Ret (E := fuel_err) data (offset + 1)) as [c ->]; [lia|]. cbn [mbind outcome_bind].
  eexists; split; [done|]. split; cbn; try done; try lia.
  - intros [?|[? ?]%andb_prop]%orb_prop; auto.
  - by intros ->.
Qed.

(** An offset moved on by an optional field. *)
Lemma moved (b : bool) (x d : Z) : 0 <= d -> x <= (if b then x + d else x).
Proof. destruct b; lia. Qed.

Lemma send_state_loop_ok fuel data p offset o :
  4 <= offset -> Z.max 0 (zlen data - offset) < Z.of_nat fuel -> send_ok (ob_send o) ->
  exists o', send_state_loop fuel data p offset o = Ret o' /\ observed_after p o o'.
Proof.
  revert offset o. induction fuel as [|fuel IH]; intros offset o Ho Hf Hs; [lia|].
  cbn [send_state_loop]. destruct (Z.leb_spec (zlen data) offset); [eauto using observed_refl|].
  unfold need. destruct (Z.ltb_spec (zlen data) (offset + 3)); [eauto using observed_refl|].
  destruct (index_Ret (E := fuel_err) data offset) as [flags ->]; [lia|]. cbn [mbind outcome_bind].
  destruct (be_at_ret (E := fuel_err) data (offset + 1) (offset + 3)) as (n & -> & Hn); [lia..|].
  cbn [mbind outcome_bind]. assert (0 <= (n + 7) / 8) by (apply Z.div_pos; lia).
  destruct (_ && (zlen data <? offset + 3 + 3)) eqn:E1; [eauto using observed_refl|].
  apply bind_observed; [apply note_message_ok; [done|lia|done]|]. intros o1 Ho1.
  pose proof (moved (let r := frame_reliability flags in
    (r =? 2) || (r =? 3) || (r =? 4) || (r =? 6) || (r =? 7)) (offset + 3) 3) as M1. cbv zeta in M1.
  match type of M1 with _ -> _ <= ?q => set (q1 := q) in * end. clearbody q1.
  apply oa_ok in Ho1 as Hs1.
  destruct (_ && (zlen data <? q1 + 3)) eqn:E2; [eauto using observed_refl|].
  pose proof (moved (let r := frame_reliability flags in (r =? 1) || (r =? 4)) q1 3) as M2. cbv zeta in M2.
  match type of M2 with _ -> _ <= ?q => set (q2 := q) in * end. clearbody q2.
  destruct (_ && (zlen data <? q2 + 4)) eqn:E3; [eauto using observed_refl|].
  apply bind_observed; [apply note_order_ok; [done|lia|done]|]. intros o2 Ho2. apply oa_ok in Ho2 as Hs2.
  pose proof (moved (let r := frame_reliability flags in
    (r =? 1) || (r =? 3) || (r =? 4) || (r =? 7)) q2 4) as M3. cbv zeta in M3.
  match type of M3 with _ -> _ <= ?q => set (q3 := q) in * end. clearbody q3.
  destruct (_ && (zlen data <? q3 + 10)); [eauto using observed_refl|].
  pose proof (moved (frame_has_split flags) q3 10) as M4. 
  match type of M4 with _ -> _ <= ?q => set (q4 := q) in * end. clearbody q4.
  destruct (Z.ltb_spec (zlen data) (q4 + (n + 7) / 8)); [eauto using observed_refl|].
  apply bind_observed; [apply note_encryption_ok; [done|lia..]|]. intros o3 Ho3.
  apply IH; [lia..|apply (oa_ok _ _ _ Ho3)].
Qed.

(** Whatever bytes the server sends, the proxy reads them without a panic and in a
    bounded number of passes; its three counters stay in 24 bits and never fall,
    and it takes the session for encrypted only after the login. *)
Theorem server_counters_monotone (datagram : bytes) (loginParsed : bool) (o : observed) :
  send_ok (ob_send o) ->
  exists o', updateRakNetSendStateFromDatagram datagram loginParsed o = Ret o' /\
    observed_after loginParsed o o'.
Proof.
  intros Hs. unfold updateRakNetSendStateFromDatagram.
  destruct (isRakNetDataDatagram datagram) eqn:E; cbn [negb]; [|eauto using observed_refl].
  assert (4 <= zlen datagram) as H4.
  { destruct datagram as [|? [|? [|? [|? ?]]]]; try done. zlen_lia. }
  destruct (le24_ok datagram 1) as (v & -> & ?); [lia..|]. cbn [mbind outcome_bind].
  apply bind_observed; [by apply set_seq_ok|]. intros o1 Ho1.
  apply send_state_loop_ok; [lia|unfold zlen; lia|apply (oa_ok _ _ _ Ho1)].
Qed.

(** ** Logins *)

Lemma writeVaruint32_loop_eq fuel x :
  0 <= x -> writeVaruint32_loop fuel x = writeVarInt_loop fuel x.
Proof.
  revert x. induction fuel as [|fuel IH]; intros x Hx; [done|]. cbn [writeVaruint32_loop writeVarInt_loop].
  assert (0 <= Z.shiftr x 7) by by apply Z.shiftr_nonneg.
  destruct (Z.leb_spec 0x80 x).
  - rewrite (proj2 (Z.eqb_neq _ _)); [by rewrite IH|].
    rewrite Z.shiftr_div_pow2 by lia. change (2 ^ 7) with 128.
    assert (1 <= x / 128) by (apply Z.div_le_lower_bound; lia). lia.
  - rewrite Z.shiftr_div_pow2 by lia. change (2 ^ 7) with 128. rewrite Z.div_small by lia. cbn.
    by rewrite low7_mod, Z.mod_small by lia.
Qed.

(** The writer of the batch header and the one of the protocol package agree. *)
Lemma writeVaruint32_eq x : 0 <= x < 2 ^ 32 -> writeVaruint32 x = writeVarInt x.
Proof.
  intros Hx. unfold writeVaruint32, writeVarInt. by rewrite wrapU_small, writeVaruint32_loop_eq by lia.
Qed.

Lemma lor_u32 v x : 0 <= v < 2 ^ 32 -> 0 <= Z.lor v (u32 x) < 2 ^ 32.
Proof.
  intros Hv. pose proof (wrapU_range 32 x ltac:(lia)).
  assert (0 <= Z.lor v (u32 x)) by (apply Z.lor_nonneg; lia). split; [done|].
  destruct (Z.eq_dec (Z.lor v (u32 x)) 0) as [->|]; [done|].
  apply Z.log2_lt_pow2; [lia|]. rewrite Z.log2_lor by lia.
  assert (forall y, 0 <= y < 2 ^ 32 -> Z.log2 y < 32) as Hy.
  { intros y Hy. destruct (Z.eq_dec y 0) as [->|]; [done|]. apply Z.log2_lt_pow2; lia. }
  pose proof (Hy v Hv). pose proof (Hy (u32 x) ltac:(lia)). lia.
Qed.

(** The two readers agree: one on an offset, the other on the rest of a buffer. *)
Lemma readers_agree fuel i v a buf offset n :
  zlen a = offset + n -> i = 35 - 7 * Z.of_nat fuel -> 0 <= v < 2 ^ 32 ->
  match readVaruint32_loop fuel i v buf with
  | Some (x, r) =>
      0 <= x < 2 ^ 32 /\ (exists p, buf = p ++ r) /\
      readVarInt_loop fuel (a ++ buf) offset n v i = Ret (i32 x, n + (zlen buf - zlen r))
  | None => forall y, readVarInt_loop fuel (a ++ buf) offset n v i <> Ret y
  end.
Proof.
  revert i v a buf n. induction fuel as [|fuel IH]; intros i v a buf n Ha Hi Hv; [done|].
  cbn [readVaruint32_loop readVarInt_loop]. destruct buf as [|b buf].
  { rewrite app_nil_r, (proj2 (Z.leb_le _ _)) by lia. done. }
  rewrite (proj2 (Z.leb_gt _ _)) by zlen_lia. rewrite index_app by done. cbn [mbind outcome_bind].
  pose proof (lor_u32 v (Z.shiftl (Z.land (b2z b) 0x7f) i) Hv) as Hv'.
  destruct (Z.land (b2z b) 0x80 =? 0).
  { split; [done|]. split; [by exists [b]|]. f_equal. f_equal. zlen_lia. }
  destruct fuel as [|fuel'].
  { cbn [readVaruint32_loop]. rewrite (proj2 (Z.leb_le _ _)) by lia. done. }
  rewrite (proj2 (Z.leb_gt _ _)) by lia.
  specialize (IH (i + 7) (Z.lor v (u32 (Z.shiftl (Z.land (b2z b) 0x7f) i))) (a ++ [b]) buf (n + 1)).
  rewrite <- app_assoc in IH. cbn [app] in IH.
  specialize (IH ltac:(zlen_lia) ltac:(lia) Hv').
  destruct (readVaruint32_loop (S fuel') _ _ _) as [[x r]|]; [|done].
  destruct IH as (H1 & [p ->] & ->). split; [done|]. split; [by exists (b :: p)|]. f_equal. f_equal. zlen_lia.
Qed.

Lemma readVaruint32_written x k : 0 <= x < 2 ^ 32 -> readVaruint32 (writeVaruint32 x ++ k) = Some (x, k).
Proof.
  intros Hx. rewrite writeVaruint32_eq by done.
  pose proof (read_written [] k x) as Hr. pose proof (zlen_writeVarInt x) as Hw. cbn [app] in Hr.
  pose proof (zlen_nonneg k).
  unfold readVarInt in Hr. change (zlen []) with 0 in Hr. rewrite (proj2 (Z.leb_gt _ _)) in Hr by zlen_lia.
  pose proof (readers_agree varint_fuel 0 0 [] (writeVarInt x ++ k) 0 0 eq_refl eq_refl ltac:(lia)) as Ha.
  cbn [app] in Ha. unfold readVaruint32. change 5%nat with varint_fuel.
  destruct (readVaruint32_loop varint_fuel 0 0 (writeVarInt x ++ k)) as [[y r]|]; [|by apply Ha in Hr].
  destruct Ha as (Hy & [p Hp] & Ha). rewrite Hr in Ha. injection Ha as Ha1 Ha2.
  assert (y = x) as ->.
  { apply (f_equal u32) in Ha1. rewrite !wrapU_wrapS, !wrapU_small in Ha1 by lia. done. }
  do 2 f_equal. apply (f_equal zlen) in Hp as Hz. rewrite !zlen_app in Hz.
  apply (app_inj_1 (writeVarInt x) p) in Hp as [_ ->]; [done|].
  rewrite zlen_app in Ha2. unfold zlen in *. lia.
Qed.

(** A connection request and a login batch, as a client writes them. *)
Definition connection_request (chainData token : bytes) : bytes :=
  le_bytes 4 (zlen chainData) ++ chainData ++ le_bytes 4 (zlen token) ++ token.

Definition login_batch_of (packetLen protocol : Z) (request rest : bytes) : bytes :=
  writeVaruint32 packetLen ++ writeVaruint32 1 ++ be_bytes 4 protocol
    ++ writeVaruint32 (zlen request) ++ request ++ rest.

Lemma next_app (a b : bytes) n : n = zlen a -> next n (a ++ b) = (a, b).
Proof. intros ->. unfold next, zlen. by rewrite Nat2Z.id, take_app_length, drop_app_length. Qed.

Lemma le32_read n : 0 <= n < 2 ^ 31 -> i32 (le_uint (le_bytes 4 n)) = n.
Proof. intros. rewrite le_uint_le_bytes. change (8 * Z.of_nat 4) with 32. by rewrite wrapS_wrapU, wrapS_small by lia. Qed.

Lemma raw_token_read (token : bytes) : zlen token < 2 ^ 31 ->
  raw_token (le_bytes 4 (zlen token) ++ token) = string_of token.
Proof.
  intros Ht. pose proof (zlen_nonneg token). unfold raw_token.
  rewrite zlen_app, zlen_le_bytes, (proj2 (Z.ltb_ge _ _)) by lia.
  rewrite next_app by by rewrite zlen_le_bytes. rewrite le32_read by lia.
  rewrite (wrapS_small 32 (zlen token)) by lia.
  rewrite (proj2 (Z.leb_le 0 _)), Z.leb_refl by lia. cbn [andb].
  rewrite <- (app_nil_r token) at 2. by rewrite next_app.
Qed.

Section login_theorems.
Variable C : login_codec.

(** The identity in the chain of a request whose outer JSON has one. *)
Lemma parseConnectionRequest_chain chainData token o i :
  0 < zlen chainData < 2 ^ 30 -> zlen token < 2 ^ 29 ->
  unmarshal_outer C chainData = Some o -> ow_Chain o <> [] ->
  extractIdentityFromChain C (ow_Chain o) = i -> playerName i <> ""%string ->
  parseConnectionRequest C (connection_request chainData token) = i.
Proof.
  intros Hc Ht Ho Hne Hi Hn. pose proof (zlen_nonneg token). unfold parseConnectionRequest, connection_request.
  rewrite !zlen_app, !zlen_le_bytes, (proj2 (Z.ltb_ge _ _)) by lia.
  rewrite next_app by by rewrite zlen_le_bytes. rewrite le32_read by lia.
  rewrite !zlen_app, !zlen_le_bytes. rewrite (wrapS_small 32 (_ + _)) by lia.
  rewrite (proj2 (Z.leb_gt _ _)), (proj2 (Z.ltb_ge _ _)) by lia. cbn [orb].
  rewrite next_app by done. rewrite raw_token_read, Ho by lia.
  destruct (ow_Chain o) as [|t ts]; [done|]. rewrite Hi.
  assert (forall f s, fill f s i = i) as Hf.
  { intros f s. unfold fill. by rewrite (proj2 (String.eqb_neq _ _)). }
  by rewrite !Hf.
Qed.

Lemma login_batch_read packetLen protocol request rest :
  0 <= packetLen < 2 ^ 32 -> 0 < zlen request -> zlen request + zlen rest < 2 ^ 32 ->
  login_batch C (login_batch_of packetLen protocol request rest) = Some (parseConnectionRequest C request).
Proof.
  intros Hp Hr Hs. pose proof (zlen_nonneg rest). unfold login_batch, login_batch_of.
  rewrite readVaruint32_written by done. cbn [mbind option_bind].
  rewrite readVaruint32_written by lia. cbn [mbind option_bind].
  change (negb (Z.land 1 0x3FF =? 0x01)) with false. cbn iota.
  rewrite zlen_app, zlen_be_bytes, (proj2 (Z.ltb_ge _ _)) by (rewrite zlen_app; pose proof (zlen_nonneg (writeVaruint32 (zlen request))); pose proof (zlen_nonneg (request ++ rest)); lia).
  replace 4%nat with (length (be_bytes 4 protocol)) at 1 by by rewrite length_be_bytes.
  rewrite drop_app_length. rewrite readVaruint32_written by lia. cbn [mbind option_bind].
  rewrite zlen_app, wrapU_small, (proj2 (Z.eqb_neq _ _)), (proj2 (Z.ltb_ge _ _)) by lia. cbn [orb].
  by rewrite next_app.
Qed.

(** The identity of a login packet: for any compression the decoder handles, the first
    token of the chain with a name is what the access check is asked about, and the
    other tokens in the request do not matter. *)
Theorem login_identity (data chainData token rest : bytes) (compressionID : byte)
    (packetLen protocol : Z) (o : outerWrapper) (i : identity) :
  is_game_packet data = true -> data !! 1%nat = Some compressionID ->
  decodeGamePacketBatch C compressionID data
    = login_batch_of packetLen protocol (connection_request chainData token) rest ->
  0 <= packetLen < 2 ^ 32 -> 0 < zlen chainData < 2 ^ 30 -> zlen token < 2 ^ 29 -> zlen rest < 2 ^ 30 ->
  unmarshal_outer C chainData = Some o -> ow_Chain o <> [] ->
  extractIdentityFromChain C (ow_Chain o) = i -> playerName i <> ""%string ->
  parseLoginPacket C data = i.
Proof.
  intros Hg Hb Hd Hp Hc Ht Hr Ho Hne Hi Hn.
  destruct data as [|b [|c data]]; try done. injection Hb as ->.
  unfold parseLoginPacket. rewrite Hg. cbn [negb]. rewrite Hd.
  pose proof (zlen_nonneg token).
  assert (zlen (connection_request chainData token) = 8 + zlen chainData + zlen token) as Hz
    by (unfold connection_request; zlen_lia).
  pose proof (login_batch_read packetLen protocol (connection_request chainData token) rest Hp ltac:(lia) ltac:(lia)) as Hl.
  rewrite (parseConnectionRequest_chain chainData token o i) in Hl by done.
  destruct (login_batch_of _ _ _ _) eqn:E; [|by rewrite Hl].
  apply (f_equal zlen) in E. revert E. unfold login_batch_of. rewrite !zlen_app, Hz, zlen_be_bytes.
  pose proof (zlen_nonneg (writeVaruint32 packetLen)). pose proof (zlen_nonneg (writeVaruint32 1)).
  pose proof (zlen_nonneg (writeVaruint32 (8 + zlen chainData + zlen token))). pose proof (zlen_nonneg rest).
  change (zlen []) with 0. lia.
Qed.
End login_theorems.

(** ** The advertisement *)

Lemma latency_tag_text latencyMs : contains1 (latency_tag latencyMs) ";" = false.
Proof.
  unfold latency_tag. destruct (Z.ltb_spec latencyMs 0); [by vm_compute|].
  destruct (pretty_text latencyMs) as (Hd & _ & _); [done|].
  apply (str_all_contains1 _ _ ";"%char) in Hd; [|by vm_compute].
  rewrite !contains1_app, Hd. by repeat case_match.
Qed.

(** The latency shown in the server list changes the name of the server alone: every other
    field of the advertisement, the protocol, the version, the player counts and the
    ports among them, is as the server sent it, and an advertisement with no second
    field is left alone. *)
Theorem motd_fields (pong : bytes) (latencyMs : Z) :
  split1 ";" (string_of (embedLatencyInMOTDBytes pong latencyMs))
  = match split1 ";" (string_of pong) with
    | edition :: name :: parts => edition :: (name ++ latency_tag latencyMs)%string :: parts
    | parts => parts
    end.
Proof.
  unfold embedLatencyInMOTDBytes. destruct pong as [|b pong']; [done|]. set (pong := b :: pong').
  pose proof (split1_pieces ";"%char (string_of pong)) as Hp.
  destruct (split1 ";" (string_of pong)) as [|e [|n parts]] eqn:E; [done|done|].
  rewrite string_of_bytes_of. apply split1_join1; [done|].
  inversion Hp as [|? ? He Hp']; subst. inversion Hp' as [|? ? Hn Hr]; subst.
  constructor; [done|]. constructor; [|done]. by rewrite contains1_app, Hn, latency_tag_text.
Qed.

(** ** Witnesses *)

Definition raw_demo_env : frame_env.
Proof. refine {| clock := fun _ => 1; visit_at := fun _ m => (map_to_list m).*1 |}. reflexivity. Defined.

Definition demo_piece (id i n seq : Z) (d : bytes) (H : 0 <= i /\ 0 <= n) : split_piece :=
  {| pc_now := 1; pc_visit := fun m => (map_to_list m).*1; pc_perm := fun m => reflexivity _;
     pc_id := id; pc_index := i; pc_count := n; pc_seq := seq; pc_data := d; pc_unsigned := H |}.

Definition demo_before : list split_piece :=
  [demo_piece 7 1 2 12 [x03] ltac:(lia); demo_piece 9 0 5 10 [x09] ltac:(lia); demo_piece 7 1 2 13 [x03] ltac:(lia)].

Definition demo_last : split_piece := demo_piece 7 0 2 11 [xfe; x02] ltac:(lia).

Lemma split_reassembly_witness :
  (arrive (arrive_all demo_before) demo_last).2 = Some [xfe; x02; x03] /\
  pendingACKSeqs (arrive (arrive_all demo_before) demo_last).1 = [11; 12; 13].
Proof.
  destruct (split_reassembly 7 [[xfe; x02]; [x03]] demo_before demo_last) as [_ ->].
  - by vm_compute.
  - by vm_compute.
  - repeat (constructor; [intros E; split; [try reflexivity|try reflexivity]; by vm_compute in E|]). constructor.
  - done.
  - by vm_compute.
  - by vm_compute.
  - intros j Hj. assert (j = 0 \/ j = 1) as [-> | ->] by (unfold zlen in Hj; cbn in Hj; lia); by vm_compute.
  - split; by vm_compute.
Defined.

Lemma injected_frame_roundtrip_witness :
  extractGamePacket raw_demo_env
    (buildInjectedReliableOrderedFrame {| sendDatagramSeq := 4; sendMessageIndex := 5; sendOrderIndex := 6 |} [xfe; xff]).2
  = Ret (Some [xfe; xff]).
Proof.
  exact (proj1 (injected_frame_roundtrip raw_demo_env
    {| sendDatagramSeq := 4; sendMessageIndex := 5; sendOrderIndex := 6 |} [xfe; xff] eq_refl ltac:(by vm_compute))).
Defined.

Lemma pong_roundtrip_witness :
  parseUnconnectedPong (buildUnconnectedPongPacket 1 2 (bytes_of "MCPE;a")) = Ret (Some (2, bytes_of "MCPE;a")).
Proof. apply (pong_roundtrip 1 2 (bytes_of "MCPE;a")); by vm_compute. Defined.

Lemma intercepted_acked_witness :
  exists ack acked,
    ackInterceptedClientDatagram {| splitPackets := ∅; pendingACKSeqs := [3; 9] |} [x84; x05; x00; x00]
      = (clearPendingACKSeqs {| splitPackets := ∅; pendingACKSeqs := [3; 9] |}, Some ack) /\
    read_ack ack = Some acked /\ Sorted Z.lt acked /\ forall x, x ∈ acked <-> x = 5 \/ x ∈ [3; 9].
Proof.
  apply (intercepted_acked {| splitPackets := ∅; pendingACKSeqs := [3; 9] |} [x84; x05; x00; x00] 5); [done| |done].
  repeat constructor; by vm_compute.
Defined.

Lemma server_counters_monotone_witness :
  exists o', updateRakNetSendStateFromDatagram
      (buildInjectedReliableOrderedFrame {| sendDatagramSeq := 40; sendMessageIndex := 50; sendOrderIndex := 60 |} [xfe; x77]).2
      true {| ob_send := {| sendDatagramSeq := 0; sendMessageIndex := 0; sendOrderIndex := 0 |}; ob_encrypted := false |}
    = Ret o' /\ o' = {| ob_send := {| sendDatagramSeq := 41; sendMessageIndex := 51; sendOrderIndex := 61 |};
                        ob_encrypted := true |}.
Proof.
  destruct (server_counters_monotone
    (buildInjectedReliableOrderedFrame {| sendDatagramSeq := 40; sendMessageIndex := 50; sendOrderIndex := 60 |} [xfe; x77]).2
    true {| ob_send := {| sendDatagramSeq := 0; sendMessageIndex := 0; sendOrderIndex := 0 |}; ob_encrypted := false |})
    as (o' & Ho & _).
  - split; [by vm_compute|split; by vm_compute].
  - exists o'. split; [exact Ho|]. vm_compute in Ho. by injection Ho as <-.
Defined.

Definition demo_identity : identity := {| playerName := "Steve"; playerUUID := "u"; playerXUID := "x" |}.

Definition demo_codec : login_codec :=
  {| decompressFlate := fun _ => None; decompressSnappy := fun _ => None;
     unmarshal_outer := fun _ => Some {| ow_Certificate := ""; ow_Token := "t"; ow_Chain := ["a"; "b"]%string |};
     unmarshal_chain := fun _ => None;
     parse_identity := fun t => if String.eqb t "b" then Some demo_identity else None;
     parse_claims := fun _ => None |}.

Definition demo_login : bytes :=
  [xfe; xff] ++ login_batch_of 0 0 (connection_request [x7b] [x78]) [].

Lemma login_identity_witness : parseLoginPacket demo_codec demo_login = demo_identity.
Proof.
  apply (login_identity demo_codec demo_login [x7b] [x78] [] xff 0 0
    {| ow_Certificate := ""; ow_Token := "t"; ow_Chain := ["a"; "b"]%string |} demo_identity); by vm_compute.
Defined.
