(* ===== verification/RawUDP.v ===== *)
(** * The raw UDP proxy: [internal/proxy/raw_udp_proxy.go]

    The clients of a server in the [raw_udp] mode, each with a connection of its own to the
    game server, the datagrams of both directions, the check of the login, kicks and
    their replay, and the removal of clients.  A client is a cell of a heap, because
    the goroutine that forwards the server's answers keeps the pointer after the client
    has left the table.  The handling of one datagram, one answer or one tick is a
    step; it reads the clock once.  What is written and counted is a trace. *)

From Stdlib Require Import Strings.Ascii Strings.String.
From S2P Require Import Prelude GoBytes GoString Wire Session SessionManager Config Acl RawPackets.

Definition rawUDPKickCooldown : Z := 3 * second.
Definition rawUDPSilenceDisconnectTimeout : Z := 30 * second.
Definition DefaultClientInactiveTimeout : Z := 5 * minute.
Definition PassthroughClientInactiveTimeout : Z := 30 * second.
Definition RawUDPUnconnectedPingMinIntervalPerIP : Z := 200 * millisecond.
Definition RawUDPUnconnectedPingCacheTTL : Z := 5 * minute.
Definition IPBanDuration : Z := 5 * minute.

(** ** State *)

Record traffic := {
  bytesUp : Z;
  bytesDown : Z;
  bytesUpSynced : Z;
  bytesDownSynced : Z;
  packetCount : Z;
}.

(** [lastKickReplayAt] is 0 before the first replay. *)
Record kick_state := {
  kicked : bool;
  kickMessage : string;
  lastKickReplayAt : gotime;
  kickCleanupScheduled : bool;
}.

(** [sessionID] is the address; [targetConn] is told by the pointer of the client.
    [rc_forwarding] holds while [forwardResponses] runs. *)
Record rawUDPClientInfo := {
  rc_clientAddr : string;
  rc_startTime : gotime;
  rc_lastSeen : gotime;
  rc_traffic : traffic;
  rc_player : identity;
  rc_loginParsed : bool;
  rc_sessionCreated : bool;
  rc_splits : raw_splits;
  rc_compressionID : Z;
  rc_observed : observed;
  rc_kick : kick_state;
  rc_forwarding : bool;
}.

Record rawUDPKickReplay := {
  kr_At : gotime;
  kr_Message : string;
  kr_CompressionID : Z;
  kr_Encrypted : bool;
  kr_Send : send_state;
  kr_LastReplayAt : gotime;
}.

Abbreviation client_ptr := nat (only parsing).

(** What a step does to the world. *)
Inductive effect :=
| EReceived (c : client_ptr) (n : Z)
| EDelivered (c : client_ptr) (n : Z)
| EForward (c : client_ptr) (datagram : bytes)
| ESent (addr : string) (datagram : bytes)
| ECreditUp (c : client_ptr) (l : session_ptr) (n : Z)
| ECreditDown (c : client_ptr) (l : session_ptr) (n : Z)
| EKicked (c : client_ptr)
| EClosed (c : client_ptr).

Record RawUDPProxy := {
  rp_heap : list rawUDPClientInfo;
  rp_clients : gmap string client_ptr;
  rp_recentlyKicked : gmap string rawUDPKickReplay;
  rp_sessions : SessionManager;
  rp_config : ServerConfig;
  rp_trace : list effect;
}.

Definition set_lastSeen (t : gotime) (c : rawUDPClientInfo) : rawUDPClientInfo :=
  {| rc_clientAddr := rc_clientAddr c;
     rc_startTime := rc_startTime c;
     rc_lastSeen := t;
     rc_traffic := rc_traffic c;
     rc_player := rc_player c;
     rc_loginParsed := rc_loginParsed c;
     rc_sessionCreated := rc_sessionCreated c;
     rc_splits := rc_splits c;
     rc_compressionID := rc_compressionID c;
     rc_observed := rc_observed c;
     rc_kick := rc_kick c;
     rc_forwarding := rc_forwarding c |}.

Definition set_traffic (t : traffic) (c : rawUDPClientInfo) : rawUDPClientInfo :=
  {| rc_clientAddr := rc_clientAddr c;
     rc_startTime := rc_startTime c;
     rc_lastSeen := rc_lastSeen c;
     rc_traffic := t;
     rc_player := rc_player c;
     rc_loginParsed := rc_loginParsed c;
     rc_sessionCreated := rc_sessionCreated c;
     rc_splits := rc_splits c;
     rc_compressionID := rc_compressionID c;
     rc_observed := rc_observed c;
     rc_kick := rc_kick c;
     rc_forwarding := rc_forwarding c |}.

Definition set_player (i : identity) (c : rawUDPClientInfo) : rawUDPClientInfo :=
  {| rc_clientAddr := rc_clientAddr c;
     rc_startTime := rc_startTime c;
     rc_lastSeen := rc_lastSeen c;
     rc_traffic := rc_traffic c;
     rc_player := i;
     rc_loginParsed := rc_loginParsed c;
     rc_sessionCreated := rc_sessionCreated c;
     rc_splits := rc_splits c;
     rc_compressionID := rc_compressionID c;
     rc_observed := rc_observed c;
     rc_kick := rc_kick c;
     rc_forwarding := rc_forwarding c |}.

Definition set_login (i : identity) (compression : Z) (c : rawUDPClientInfo) : rawUDPClientInfo :=
  {| rc_clientAddr := rc_clientAddr c;
     rc_startTime := rc_startTime c;
     rc_lastSeen := rc_lastSeen c;
     rc_traffic := rc_traffic c;
     rc_player := i;
     rc_loginParsed := true;
     rc_sessionCreated := rc_sessionCreated c;
     rc_splits := rc_splits c;
     rc_compressionID := compression;
     rc_observed := rc_observed c;
     rc_kick := rc_kick c;
     rc_forwarding := rc_forwarding c |}.

Definition set_sessionCreated  (c : rawUDPClientInfo) : rawUDPClientInfo :=
  {| rc_clientAddr := rc_clientAddr c;
     rc_startTime := rc_startTime c;
     rc_lastSeen := rc_lastSeen c;
     rc_traffic := rc_traffic c;
     rc_player := rc_player c;
     rc_loginParsed := rc_loginParsed c;
     rc_sessionCreated := true;
     rc_splits := rc_splits c;
     rc_compressionID := rc_compressionID c;
     rc_observed := rc_observed c;
     rc_kick := rc_kick c;
     rc_forwarding := rc_forwarding c |}.

Definition set_client_splits (s : raw_splits) (c : rawUDPClientInfo) : rawUDPClientInfo :=
  {| rc_clientAddr := rc_clientAddr c;
     rc_startTime := rc_startTime c;
     rc_lastSeen := rc_lastSeen c;
     rc_traffic := rc_traffic c;
     rc_player := rc_player c;
     rc_loginParsed := rc_loginParsed c;
     rc_sessionCreated := rc_sessionCreated c;
     rc_splits := s;
     rc_compressionID := rc_compressionID c;
     rc_observed := rc_observed c;
     rc_kick := rc_kick c;
     rc_forwarding := rc_forwarding c |}.

Definition set_observed (o : observed) (c : rawUDPClientInfo) : rawUDPClientInfo :=
  {| rc_clientAddr := rc_clientAddr c;
     rc_startTime := rc_startTime c;
     rc_lastSeen := rc_lastSeen c;
     rc_traffic := rc_traffic c;
     rc_player := rc_player c;
     rc_loginParsed := rc_loginParsed c;
     rc_sessionCreated := rc_sessionCreated c;
     rc_splits := rc_splits c;
     rc_compressionID := rc_compressionID c;
     rc_observed := o;
     rc_kick := rc_kick c;
     rc_forwarding := rc_forwarding c |}.

Definition set_kick (k : kick_state) (c : rawUDPClientInfo) : rawUDPClientInfo :=
  {| rc_clientAddr := rc_clientAddr c;
     rc_startTime := rc_startTime c;
     rc_lastSeen := rc_lastSeen c;
     rc_traffic := rc_traffic c;
     rc_player := rc_player c;
     rc_loginParsed := rc_loginParsed c;
     rc_sessionCreated := rc_sessionCreated c;
     rc_splits := rc_splits c;
     rc_compressionID := rc_compressionID c;
     rc_observed := rc_observed c;
     rc_kick := k;
     rc_forwarding := rc_forwarding c |}.

Definition stop_forwarding  (c : rawUDPClientInfo) : rawUDPClientInfo :=
  {| rc_clientAddr := rc_clientAddr c;
     rc_startTime := rc_startTime c;
     rc_lastSeen := rc_lastSeen c;
     rc_traffic := rc_traffic c;
     rc_player := rc_player c;
     rc_loginParsed := rc_loginParsed c;
     rc_sessionCreated := rc_sessionCreated c;
     rc_splits := rc_splits c;
     rc_compressionID := rc_compressionID c;
     rc_observed := rc_observed c;
     rc_kick := rc_kick c;
     rc_forwarding := false |}.

Definition set_rheap (h : list rawUDPClientInfo) (p : RawUDPProxy) : RawUDPProxy :=
  {| rp_heap := h; rp_clients := rp_clients p; rp_recentlyKicked := rp_recentlyKicked p; rp_sessions := rp_sessions p; rp_config := rp_config p; rp_trace := rp_trace p |}.

Definition set_clients (m : gmap string nat) (p : RawUDPProxy) : RawUDPProxy :=
  {| rp_heap := rp_heap p; rp_clients := m; rp_recentlyKicked := rp_recentlyKicked p; rp_sessions := rp_sessions p; rp_config := rp_config p; rp_trace := rp_trace p |}.

Definition set_recent (m : gmap string rawUDPKickReplay) (p : RawUDPProxy) : RawUDPProxy :=
  {| rp_heap := rp_heap p; rp_clients := rp_clients p; rp_recentlyKicked := m; rp_sessions := rp_sessions p; rp_config := rp_config p; rp_trace := rp_trace p |}.

Definition set_rsessions (s : SessionManager) (p : RawUDPProxy) : RawUDPProxy :=
  {| rp_heap := rp_heap p; rp_clients := rp_clients p; rp_recentlyKicked := rp_recentlyKicked p; rp_sessions := s; rp_config := rp_config p; rp_trace := rp_trace p |}.

Definition set_rconfig (sc : ServerConfig) (p : RawUDPProxy) : RawUDPProxy :=
  {| rp_heap := rp_heap p; rp_clients := rp_clients p; rp_recentlyKicked := rp_recentlyKicked p; rp_sessions := rp_sessions p; rp_config := sc; rp_trace := rp_trace p |}.

Definition emit (l : list effect) (p : RawUDPProxy) : RawUDPProxy :=
  {| rp_heap := rp_heap p; rp_clients := rp_clients p; rp_recentlyKicked := rp_recentlyKicked p; rp_sessions := rp_sessions p; rp_config := rp_config p; rp_trace := rp_trace p ++ l |}.

Definition on_client (c : client_ptr) (f : rawUDPClientInfo -> rawUDPClientInfo) (p : RawUDPProxy) : RawUDPProxy :=
  set_rheap (alter f c (rp_heap p)) p.

Definition new_client (addr : string) (now : gotime) : rawUDPClientInfo :=
  {| rc_clientAddr := addr; rc_startTime := now; rc_lastSeen := now;
     rc_traffic := {| bytesUp := 0; bytesDown := 0; bytesUpSynced := 0; bytesDownSynced := 0; packetCount := 0 |};
     rc_player := no_identity; rc_loginParsed := false; rc_sessionCreated := false;
     rc_splits := no_splits; rc_compressionID := 0;
     rc_observed :=
       {| ob_send := {| sendDatagramSeq := 0; sendMessageIndex := 0; sendOrderIndex := 0 |}; ob_encrypted := false |};
     rc_kick := {| kicked := false; kickMessage := ""; lastKickReplayAt := 0; kickCleanupScheduled := false |};
     rc_forwarding := true |}.

(** A client through its pointer. *)
Definition client (p : RawUDPProxy) (c : client_ptr) : option rawUDPClientInfo := rp_heap p !! c.

Definition is_kicked (ci : rawUDPClientInfo) : bool := kicked (rc_kick ci).

(** ** Traffic *)

Definition add_up (n : Z) (t : traffic) : traffic :=
  {| bytesUp := i64 (bytesUp t + n); bytesDown := bytesDown t;
     bytesUpSynced := bytesUpSynced t; bytesDownSynced := bytesDownSynced t;
     packetCount := i64 (packetCount t + 1) |}.

Definition add_down (n : Z) (t : traffic) : traffic :=
  {| bytesUp := bytesUp t; bytesDown := i64 (bytesDown t + n);
     bytesUpSynced := bytesUpSynced t; bytesDownSynced := bytesDownSynced t;
     packetCount := packetCount t |}.

Definition synced_up (t : traffic) : traffic :=
  {| bytesUp := bytesUp t; bytesDown := bytesDown t;
     bytesUpSynced := bytesUp t; bytesDownSynced := bytesDownSynced t;
     packetCount := packetCount t |}.

Definition synced_down (t : traffic) : traffic :=
  {| bytesUp := bytesUp t; bytesDown := bytesDown t;
     bytesUpSynced := bytesUpSynced t; bytesDownSynced := bytesDown t;
     packetCount := packetCount t |}.

Definition via_session (l : session_ptr) (f : Session -> Session) (p : RawUDPProxy) : RawUDPProxy :=
  set_rsessions (via_ptr l f (rp_sessions p)) p.

(** With no other writer the compare-and-swap of the counter succeeds. *)
Definition syncBytesUpToSession (c : client_ptr) (l : session_ptr) (p : RawUDPProxy) : RawUDPProxy :=
  match client p c with
  | None => p
  | Some ci =>
      let total := bytesUp (rc_traffic ci) in
      let prev := bytesUpSynced (rc_traffic ci) in
      if prev <? total then
        emit [ECreditUp c l (i64 (total - prev))]
          (via_session l (AddBytesUp (i64 (total - prev)))
            (on_client c (fun ci => set_traffic (synced_up (rc_traffic ci)) ci) p))
      else p
  end.

Definition syncBytesDownToSession (c : client_ptr) (l : session_ptr) (p : RawUDPProxy) : RawUDPProxy :=
  match client p c with
  | None => p
  | Some ci =>
      let total := bytesDown (rc_traffic ci) in
      let prev := bytesDownSynced (rc_traffic ci) in
      if prev <? total then
        emit [ECreditDown c l (i64 (total - prev))]
          (via_session l (AddBytesDown (i64 (total - prev)))
            (on_client c (fun ci => set_traffic (synced_down (rc_traffic ci)) ci) p))
      else p
  end.

(** The session of a client: its address is the identifier. *)
Definition session_of (c : client_ptr) (p : RawUDPProxy) : option session_ptr :=
  match client p c with
  | Some ci => Get (rp_sessions p) (rc_clientAddr ci)
  | None => None
  end.

(** [if sess, exists := p.sessionMgr.Get(clientInfo.sessionID); exists { f sess }] *)
Definition with_session (c : client_ptr) (f : session_ptr -> RawUDPProxy -> RawUDPProxy) (p : RawUDPProxy)
  : RawUDPProxy :=
  match session_of c p with Some l => f l p | None => p end.

(** The writers of the third-party library. *)
Record packet_writers := {
  pw_WriteVaruint32 : Z -> bytes;
  pw_WriteVarint32 : Z -> bytes;
  pw_encode : game_compression -> bytes -> option bytes;
  pw_IDDisconnect : Z;
  pw_play_status : bytes;
  pw_ServerFull : Z;
}.

Section proxy.
Context `{Unicode}.
Variable serverID : string.

(** [sessionMgr.GetOrCreate(clientInfo.sessionID, p.serverID)] *)
Definition client_session (now : gotime) (newID : string) (c : client_ptr) (p : RawUDPProxy)
  : RawUDPProxy * option session_ptr :=
  match client p c with
  | None => (p, None)
  | Some ci =>
      let '(sm, (l, _)) := GetOrCreate (rp_sessions p) now newID (rc_clientAddr ci) serverID in
      (set_rsessions sm p, Some l)
  end.

Definition ensureSession (now : gotime) (newID : string) (c : client_ptr) (p : RawUDPProxy) : RawUDPProxy :=
  match client p c with
  | None => p
  | Some ci =>
      if rc_sessionCreated ci then p else
      let '(p, l) := client_session now newID c p in
      let p := match l with Some l => via_session l (BackdateStartTime (rc_startTime ci)) p | None => p end in
      on_client c set_sessionCreated p
  end.

(** ** Removal *)

Definition default_kick_message : string := "§c访问被拒绝".

Definition kickMessageOf (ci : rawUDPClientInfo) : string :=
  if String.eqb (kickMessage (rc_kick ci)) "" then default_kick_message else kickMessage (rc_kick ci).

Definition snapshotKickReplay (now : gotime) (ci : rawUDPClientInfo) (message : string) : rawUDPKickReplay :=
  {| kr_At := now; kr_Message := message; kr_CompressionID := rc_compressionID ci;
     kr_Encrypted := ob_encrypted (rc_observed ci); kr_Send := ob_send (rc_observed ci); kr_LastReplayAt := 0 |}.

Definition finalizeClientRemoval (now : gotime) (clientKey : string) (c : client_ptr) (p : RawUDPProxy) : RawUDPProxy :=
  match client p c with
  | None => p
  | Some ci =>
      let p :=
        if is_kicked ci
        then set_recent (<[clientKey := snapshotKickReplay now ci (kickMessageOf ci)]> (rp_recentlyKicked p)) p
        else p in
      let p := emit [EClosed c] p in
      let p := on_client c (fun ci => set_client_splits (set_splits ∅ (rc_splits ci)) ci) p in
      let p := with_session c (fun l p => syncBytesDownToSession c l (syncBytesUpToSession c l p)) p in
      set_rsessions (Remove (rp_sessions p) (rc_clientAddr ci)).1 p
  end.

Definition removeClient (now : gotime) (clientKey : string) (p : RawUDPProxy) : RawUDPProxy :=
  match rp_clients p !! clientKey with
  | None => p
  | Some c => finalizeClientRemoval now clientKey c (set_clients (delete clientKey (rp_clients p)) p)
  end.

Definition removeClientIfMatch (now : gotime) (clientKey : string) (expected : client_ptr) (p : RawUDPProxy)
  : RawUDPProxy :=
  if decide (rp_clients p !! clientKey = Some expected)
  then finalizeClientRemoval now clientKey expected (set_clients (delete clientKey (rp_clients p)) p)
  else p.

(** ** Kicks *)

Variable W : packet_writers.

Definition kick_response (sc : ServerConfig) (encrypted : bool) (compressionID : Z) (st : send_state) (message : string)
  : send_state * list bytes :=
  injectKickResponse (pw_WriteVaruint32 W) (pw_WriteVarint32 W) (pw_encode W) (pw_IDDisconnect W)
    (pw_play_status W) (pw_ServerFull W) (GetRawUDPKickStrategy sc) encrypted compressionID st message.

(** [injectKickResponse] on a client. *)
Definition inject_kick (c : client_ptr) (message : string) (p : RawUDPProxy) : RawUDPProxy :=
  match client p c with
  | None => p
  | Some ci =>
      let o := rc_observed ci in
      let '(st, out) := kick_response (rp_config p) (ob_encrypted o) (rc_compressionID ci) (ob_send o) message in
      emit (ESent (rc_clientAddr ci) <$> out)
        (on_client c (fun ci => set_observed {| ob_send := st; ob_encrypted := ob_encrypted (rc_observed ci) |} ci) p)
  end.

Definition mark_kicked (message : string) (k : kick_state) : kick_state :=
  {| kicked := true; kickMessage := message; lastKickReplayAt := lastKickReplayAt k;
     kickCleanupScheduled := kickCleanupScheduled k |}.

(** The delayed removal is a step of its own; it is started once. *)
Definition scheduleKickCleanup (c : client_ptr) (p : RawUDPProxy) : RawUDPProxy :=
  on_client c (fun ci =>
    let k := rc_kick ci in
    set_kick {| kicked := kicked k; kickMessage := kickMessage k; lastKickReplayAt := lastKickReplayAt k;
                kickCleanupScheduled := true |} ci) p.

Definition sendDisconnectToClient (now : gotime) (c : client_ptr) (message : string) (p : RawUDPProxy) : RawUDPProxy :=
  match client p c with
  | None => p
  | Some ci =>
      let p := emit [EKicked c] (on_client c (fun ci => set_kick (mark_kicked message (rc_kick ci)) ci) p) in
      let p := set_recent (<[rc_clientAddr ci := snapshotKickReplay now ci message]> (rp_recentlyKicked p)) p in
      inject_kick c message (scheduleKickCleanup c p)
  end.

(** With no other caller the first test decides. *)
Definition shouldReplayKick (now last : gotime) : bool :=
  negb (negb (last =? 0) && (time_sub now last <? 75 * millisecond)).

Definition ack_datagram (addr : string) (datagram : bytes) : list effect :=
  match datagram with
  | [] => []
  | _ => match sendRakNetACKToClient datagram with Some a => [ESent addr a; ESent addr a] | None => [] end
  end.

Definition touch_replay (now : gotime) (k : kick_state) : kick_state :=
  {| kicked := kicked k; kickMessage := kickMessage k; lastKickReplayAt := now;
     kickCleanupScheduled := kickCleanupScheduled k |}.

Definition replayKickResponse (now : gotime) (c : client_ptr) (datagram : bytes) (p : RawUDPProxy) : RawUDPProxy :=
  match client p c with
  | None => p
  | Some ci =>
      if negb (shouldReplayKick now (lastKickReplayAt (rc_kick ci))) then p else
      let p := on_client c (fun ci => set_kick (touch_replay now (rc_kick ci)) ci) p in
      inject_kick c (kickMessageOf ci) (emit (ack_datagram (rc_clientAddr ci) datagram) p)
  end.

Definition replayRecentKick (now : gotime) (clientKey : string) (replay : rawUDPKickReplay) (datagram : bytes)
    (p : RawUDPProxy) : RawUDPProxy :=
  if negb (shouldReplayKick now (kr_LastReplayAt replay)) then p else
  let '(st, out) :=
    kick_response (rp_config p) (kr_Encrypted replay) (kr_CompressionID replay) (kr_Send replay) (kr_Message replay) in
  let replay :=
    {| kr_At := kr_At replay; kr_Message := kr_Message replay; kr_CompressionID := kr_CompressionID replay;
       kr_Encrypted := kr_Encrypted replay; kr_Send := st; kr_LastReplayAt := now |} in
  emit (ack_datagram clientKey datagram ++ (ESent clientKey <$> out))
    (set_recent (<[clientKey := replay]> (rp_recentlyKicked p)) p).

(** [KickPlayer]: [order] is the order of the iteration over the clients. *)
Definition kick_named (now : gotime) (playerName' reason : string) (acc : RawUDPProxy * Z) (key : string)
  : RawUDPProxy * Z :=
  let '(p, n) := acc in
  match rp_clients p !! key with
  | None => acc
  | Some c =>
      match client p c with
      | None => acc
      | Some ci =>
          let name := playerName (rc_player ci) in
          if negb (String.eqb name "") && equal_fold name playerName'
          then (sendDisconnectToClient now c reason p, n + 1) else acc
      end
  end.

Definition KickPlayer (now : gotime) (order : list string) (playerName' reason : string) (p : RawUDPProxy)
  : RawUDPProxy * Z :=
  fold_left (kick_named now playerName' reason) order (p, 0).

(** ** The check of a login *)

(** The access control the proxy is given. *)
Record acl_manager := {
  am_IsBlacklisted : string -> string -> option BlacklistEntry;
  am_CheckAccessWithError : string -> string -> bool * string * option string;
  am_GetSettings : string -> option ACLSettings;
}.

(** [ExternalVerifier.Verify(xuid, uuid, gamertag, serverID, clientIP)]; a verifier that is
    [nil] or not enabled is [None]. *)
Abbreviation verifier := (option (string -> string -> string -> string -> string -> bool * string)) (only parsing).

Definition getResolvedACLSettings (am : acl_manager) (aclServerID : string) : ACLSettings :=
  match am_GetSettings am aclServerID with
  | Some s => s
  | None =>
      let defaults :=
        {| as_ServerID := aclServerID; as_BlacklistEnabled := as_BlacklistEnabled DefaultACLSettings;
           as_WhitelistEnabled := as_WhitelistEnabled DefaultACLSettings;
           as_DefaultMessage := as_DefaultMessage DefaultACLSettings;
           as_WhitelistMessage := as_WhitelistMessage DefaultACLSettings |} in
      if String.eqb aclServerID "" then defaults else
      match am_GetSettings am "" with Some s => s | None => defaults end
  end.

Definition newline : string := String (ascii_of_nat 10) EmptyString.

(** The status and the reason recorded in the session, and the message sent. *)
Inductive login_verdict :=
| Admit
| Refuse (status reason message : string).

(** The check of the black list that comes first; the settings are never [nil]. *)
Definition blacklist_verdict (am : acl_manager) (settings : ACLSettings) (name aclServerID : string)
  : option login_verdict :=
  match am_IsBlacklisted am name aclServerID with
  | None => None
  | Some entry =>
      let reason :=
        if as_BlacklistEnabled settings && negb (String.eqb (as_DefaultMessage settings) "")
        then as_DefaultMessage settings else be_Reason entry in
      if as_BlacklistEnabled settings then
        Some (Refuse "blacklist" reason
          ("§c黑名单用户" ++ newline ++ "§7玩家名字：" ++ name ++ newline ++ "§7原因：" ++ reason)%string)
      else None
  end.

Definition whitelist_refusal (settings : ACLSettings) (name reason : string) : login_verdict :=
  let formattedReason :=
    if as_WhitelistEnabled settings then
      let reason :=
        if String.eqb reason "" then
          if negb (String.eqb (as_WhitelistMessage settings) "") then as_WhitelistMessage settings
          else "你不在白名单中"%string
        else reason in
      let name := if String.eqb name "" then "未知玩家"%string else name in
      ("§c" ++ reason ++ newline ++ "§7玩家名: " ++ name)%string
    else ("§c" ++ (if String.eqb reason "" then "访问被拒绝" else reason))%string in
  Refuse "whitelist" formattedReason formattedReason.

Definition acl_verdict (acl : option acl_manager) (name aclServerID : string) : login_verdict :=
  match acl with
  | None => Admit
  | Some am =>
      let settings := getResolvedACLSettings am aclServerID in
      match blacklist_verdict am settings name aclServerID with
      | Some v => v
      | None =>
          let '(allowed, reason, _) := am_CheckAccessWithError am name aclServerID in
          if allowed then Admit else whitelist_refusal settings name reason
      end
  end.

Definition verifier_verdict (v : verifier) (i : identity) (aclServerID clientAddr : string) : login_verdict :=
  match v with
  | None => Admit
  | Some verify =>
      let '(allowed, reason) := verify (playerXUID i) (playerUUID i) (playerName i) aclServerID clientAddr in
      if allowed then Admit else
      let reason := if String.eqb reason "" then "授权验证失败"%string else reason in
      Refuse "auth_failed" reason reason
  end.

Definition login_decision (acl : option acl_manager) (v : verifier) (i : identity) (aclServerID clientAddr : string)
  : login_verdict :=
  match acl_verdict acl (playerName i) aclServerID with
  | Admit => verifier_verdict v i aclServerID clientAddr
  | refusal => refusal
  end.

Inductive write_result := WOk | WRecoverable | WTimeout | WFatal.

(** What one step takes from its surroundings. *)
Record world := {
  w_now : gotime;
  w_newID : string;
  w_env : frame_env;
  w_codec : login_codec;
  w_acl : option acl_manager;
  w_verifier : verifier;
  w_dial : bool;
  w_write : write_result;
}.

(** [ackInterceptedClientDatagram], written twice. *)
Definition ack_intercepted (c : client_ptr) (datagram : bytes) (p : RawUDPProxy) : RawUDPProxy :=
  match client p c with
  | None => p
  | Some ci =>
      let '(s, ack) := ackInterceptedClientDatagram (rc_splits ci) datagram in
      emit (match ack with Some a => [ESent (rc_clientAddr ci) a; ESent (rc_clientAddr ci) a] | None => [] end)
        (on_client c (set_client_splits s) p)
  end.

(** The session gets the identity: created, or the one from before the login. *)
Definition login_session (w : world) (c : client_ptr) (i : identity) (p : RawUDPProxy)
  : RawUDPProxy * option session_ptr :=
  match client p c with
  | None => (p, None)
  | Some ci =>
      let '(p, sess) := client_session (w_now w) (w_newID w) c p in
      match sess with
      | None => (p, None)
      | Some l =>
          let p := if rc_sessionCreated ci then p else via_session l (BackdateStartTime (rc_startTime ci)) p in
          let p := on_client c set_sessionCreated p in
          let p := via_session l (fun s => (SetPlayerInfoWithXUID (playerUUID i) (playerName i) (playerXUID i) s).1) p in
          (via_session l (UpdateLastSeen (w_now w)) p, Some l)
      end
  end.

(** The game packet of the datagram and the new buffers of the client.  The reader always
    returns ([frame_reader_bounded]). *)
Definition login_packet_of (w : world) (data : bytes) (ci : rawUDPClientInfo) : raw_splits * option bytes :=
  match extractGamePacketWithSplit (w_env w) data (rc_splits ci) with
  | Ret r => r
  | _ => (rc_splits ci, None)
  end.

Definition is_reliable_frame (data : bytes) : bool :=
  match data with b :: _ => isFramedPacket b | [] => false end.

Definition handlePacketWithLoginCheck (w : world) (data : bytes) (c : client_ptr) (p : RawUDPProxy)
  : RawUDPProxy * bool :=
  match client p c with
  | None => (p, true)
  | Some ci =>
      if rc_loginParsed ci then (p, true) else
      if negb (is_reliable_frame data) then (p, true) else
      let '(s, gamePacket) := login_packet_of w data ci in
      let p := on_client c (set_client_splits s) p in
      match gamePacket with
      | None => (p, true)
      | Some gamePacket =>
          if (zlen gamePacket <? 3) || negb (is_game_packet gamePacket) then (p, true) else
          let i := parseLoginPacket (w_codec w) gamePacket in
          if String.eqb (playerName i) "" then (p, true) else
          let compressionID := match gamePacket with _ :: b :: _ => b2z b | _ => 0 end in
          let p := on_client c (set_login i compressionID) p in
          let '(p, sess) := login_session w c i p in
          match login_decision (w_acl w) (w_verifier w) i (GetACLServerID (rp_config p)) (rc_clientAddr ci) with
          | Admit => (p, true)
          | Refuse status reason message =>
              let p := match sess with Some l => via_session l (SetDisconnectStatus status reason) p | None => p end in
              (sendDisconnectToClient (w_now w) c message (ack_intercepted c data p), false)
          end
      end
  end.

(** ** The datagrams of clients *)

(** The client of an address, if it may have one, and whether it is new. *)
Definition getOrCreateClient (w : world) (clientKey : string) (incoming : bytes) (p : RawUDPProxy)
  : RawUDPProxy * option (client_ptr * bool) :=
  match rp_clients p !! clientKey with
  | Some c => (p, Some (c, false))
  | None =>
      let create p :=
        if w_dial w then
          let c := length (rp_heap p) in
          (set_clients (<[clientKey := c]> (rp_clients p))
             (set_rheap (rp_heap p ++ [new_client clientKey (w_now w)]) p),
           Some (c, true))
        else (p, None) in
      match rp_recentlyKicked p !! clientKey with
      | None => create p
      | Some replay =>
          if time_sub (w_now w) (kr_At replay) <? rawUDPKickCooldown
          then (replayRecentKick (w_now w) clientKey replay incoming p, None)
          else create (set_recent (delete clientKey (rp_recentlyKicked p)) p)
      end
  end.

Definition isRakNetUnconnectedPing (packetID : byte) : bool :=
  bool_decide (packetID = IDUnconnectedPing) || bool_decide (packetID = IDUnconnectedPingOpenConn).

(** The write to the server and what its error leads to. *)
Definition forward (w : world) (clientKey : string) (c : client_ptr) (data : bytes) (p : RawUDPProxy) : RawUDPProxy :=
  let p := emit [EForward c data] p in
  match w_write w with
  | WFatal => removeClient (w_now w) clientKey p
  | _ => p
  end.

Definition client_kicked (c : client_ptr) (p : RawUDPProxy) : bool :=
  match client p c with Some ci => is_kicked ci | None => false end.

Definition login_parsed (c : client_ptr) (p : RawUDPProxy) : bool :=
  match client p c with Some ci => rc_loginParsed ci | None => false end.

(** The counters and the session of a client whose datagram is accepted. *)
Definition accept_datagram (w : world) (c : client_ptr) (data : bytes) (p : RawUDPProxy) : RawUDPProxy :=
  let p := emit [EReceived c (zlen data)]
             (on_client c (fun ci => set_traffic (add_up (zlen data) (rc_traffic ci)) (set_lastSeen (w_now w) ci)) p) in
  let p := if is_reliable_frame data then ensureSession (w_now w) (w_newID w) c p else p in
  with_session c (fun l p => via_session l (UpdateLastSeen (w_now w)) (syncBytesUpToSession c l p)) p.

Definition forget_acks (ci : rawUDPClientInfo) : rawUDPClientInfo :=
  set_client_splits (clearPendingACKSeqs (rc_splits ci)) ci.

(** The body of the loop of [Listen] for a datagram of [n] bytes; the pings are answered
    apart ([handleUnconnectedPing]). *)
Definition listen_datagram (w : world) (clientKey : string) (data : bytes) (p : RawUDPProxy) : RawUDPProxy :=
  if match data with b :: _ => isRakNetUnconnectedPing b | [] => false end then p else
  if decide (head data = Some IDDisconnectNotification) then removeClient (w_now w) clientKey p else
  let '(p, r) := getOrCreateClient w clientKey data p in
  match r with
  | None => p
  | Some (c, _) =>
      if client_kicked c p then replayKickResponse (w_now w) c data p else
      let p := accept_datagram w c data p in
      if login_parsed c p then forward w clientKey c data p else
      let p := (handlePacketWithLoginCheck w data c p).1 in
      if client_kicked c p then p else
      forward w clientKey c data (on_client c forget_acks p)
  end.

(** ** The answers of the server *)

(** The deferred exit of [forwardResponses]. *)
Definition forward_exit (now : gotime) (c : client_ptr) (p : RawUDPProxy) : RawUDPProxy :=
  let p := on_client c stop_forwarding p in
  match client p c with
  | None => p
  | Some ci =>
      if is_kicked ci then scheduleKickCleanup c p
      else removeClientIfMatch now (rc_clientAddr ci) c p
  end.

(** One pass of the loop of [forwardResponses] with a datagram from the server; the reader of
    the counters always returns ([server_counters_monotone]). *)
Definition deliver_answer (w : world) (c : client_ptr) (data : bytes) (p : RawUDPProxy) : RawUDPProxy :=
  match client p c with
  | None => p
  | Some ci =>
      if is_kicked ci then forward_exit (w_now w) c p else
      if decide (head data = Some IDDisconnectNotification)
      then forward_exit (w_now w) c (emit [ESent (rc_clientAddr ci) data] p) else
      let p := emit [EDelivered c (zlen data)]
                 (on_client c (fun ci => set_traffic (add_down (zlen data) (rc_traffic ci)) (set_lastSeen (w_now w) ci)) p) in
      let p :=
        match updateRakNetSendStateFromDatagram data (rc_loginParsed ci) (rc_observed ci) with
        | Ret o => on_client c (set_observed o) p
        | _ => p
        end in
      let p := with_session c (fun l p => via_session l (UpdateLastSeen (w_now w)) (syncBytesDownToSession c l p)) p in
      let p := emit [ESent (rc_clientAddr ci) data] p in
      match w_write w with
      | WFatal => forward_exit (w_now w) c p
      | _ => p
      end
  end.

(** A read from the server that fails: [clientInactiveTimeout] is only asked after a timeout
    or an error the loop recovers from. *)
Definition read_failed (now : gotime) (clientInactiveTimeout : Z) (fatal : bool) (c : client_ptr) (p : RawUDPProxy)
  : RawUDPProxy :=
  match client p c with
  | None => p
  | Some ci =>
      if is_kicked ci || fatal || (clientInactiveTimeout <? time_sub now (rc_lastSeen ci))
      then forward_exit now c p else p
  end.

(** ** The tick of [cleanupInactiveClients] *)

Definition silence_timeout (clientInactiveTimeout : Z) : Z :=
  if rawUDPSilenceDisconnectTimeout <? clientInactiveTimeout then rawUDPSilenceDisconnectTimeout
  else clientInactiveTimeout.

Definition set_identity (i : identity) (s : Session) : Session :=
  (SetPlayerInfoWithXUID (playerUUID i) (playerName i) (playerXUID i) s).1.

(** The session of an active client: kept alive, or created again for a player. *)
Definition refresh_session (now : gotime) (newID : string) (c : client_ptr) (ci : rawUDPClientInfo) (p : RawUDPProxy)
  : RawUDPProxy :=
  let i := rc_player ci in
  let named := negb (String.eqb (playerName i) "") in
  match session_of c p with
  | Some l =>
      let p := via_session l (fun s => if named && String.eqb (GetDisplayName s) "" then set_identity i s else s) p in
      via_session l (AdvanceLastSeen (rc_lastSeen ci)) p
  | None =>
      if rc_loginParsed ci && named then
        let '(p, sess) := client_session now newID c p in
        match sess with
        | None => p
        | Some l =>
            via_session l (UpdateLastSeen now)
              (via_session l (set_identity i) (on_client c set_sessionCreated p))
        end
      else p
  end.

Definition tick_client (now : gotime) (newID : string -> string) (timeout : Z) (p : RawUDPProxy) (key : string) : RawUDPProxy :=
  match rp_clients p !! key with
  | None => p
  | Some c =>
      match client p c with
      | None => p
      | Some ci =>
          if timeout <? time_sub now (rc_lastSeen ci) then removeClient now key p
          else refresh_session now (newID key) c ci
                 (on_client c (fun ci =>
                    set_client_splits (set_splits (cleanupStaleSplitPackets now (splitPackets (rc_splits ci))) (rc_splits ci)) ci) p)
      end
  end.

(** [order] is the order in which [Range] visits the clients. *)
Definition clients_tick (now : gotime) (newID : string -> string) (clientInactiveTimeout : Z) (order : list string) (p : RawUDPProxy)
  : RawUDPProxy :=
  fold_left (tick_client now newID (silence_timeout clientInactiveTimeout)) order p.

(** ** Steps

    Another part of the program may act on the sessions at any time. *)
Inductive proxy_step : RawUDPProxy -> RawUDPProxy -> Prop :=
| step_datagram p w key data : proxy_step p (listen_datagram w key data p)
| step_answer p w c ci data :
    client p c = Some ci -> rc_forwarding ci = true -> EClosed c ∉ rp_trace p ->
    proxy_step p (deliver_answer w c data p)
| step_read_failed p now timeout fatal c ci :
    client p c = Some ci -> rc_forwarding ci = true -> proxy_step p (read_failed now timeout fatal c p)
| step_kick_cleanup p now c ci :
    client p c = Some ci -> kickCleanupScheduled (rc_kick ci) = true ->
    proxy_step p (removeClientIfMatch now (rc_clientAddr ci) c p)
| step_kick p now order name reason : proxy_step p (KickPlayer now order name reason p).1
| step_tick p now newID timeout order : proxy_step p (clients_tick now newID timeout order p)
| step_config p sc : proxy_step p (set_rconfig sc p)
| step_sessions p sm : sm_step (rp_sessions p) sm -> proxy_step p (set_rsessions sm p).
End proxy.

Definition start (sm : SessionManager) (sc : ServerConfig) : RawUDPProxy :=
  {| rp_heap := []; rp_clients := ∅; rp_recentlyKicked := ∅; rp_sessions := sm; rp_config := sc; rp_trace := [] |}.

(** ** Pings, bans and timeouts *)

(** The answer to an unconnected ping and the new table of the limiter; [None] when nothing
    is sent. *)
Definition handleUnconnectedPing (now : gotime) (ipKey : string) (data advertisement : bytes) (serverGUID : Z)
    (limiter : gmap string gotime) : gmap string gotime * option bytes :=
  let limited :=
    match limiter !! ipKey with
    | Some last => i64 (now - last) <? RawUDPUnconnectedPingMinIntervalPerIP
    | None => false
    end in
  if limited then (limiter, None) else
  (<[ipKey := now]> limiter,
   if zlen data <? 9 then None
   else Some (buildUnconnectedPongPacket (be_uint (take 8 (drop 1 data))) serverGUID advertisement)).

Definition cleanupUnconnectedPingLimiter (now : gotime) (limiter : gmap string gotime) : gmap string gotime :=
  filter (fun kv => (RawUDPUnconnectedPingCacheTTL <? time_sub now kv.2) = false) limiter.

(** [getCachedAdvertisementForClient], with the latency when it is shown. *)
Definition client_advertisement `{Unicode} (serverID : string) (sc : ServerConfig) (cachedPong : bytes) (latency : Z) : bytes :=
  let advertisement :=
    if negb (String.eqb (sc_CustomMOTD sc) "") then bytes_of (sc_CustomMOTD sc)
    else match cachedPong with [] => defaultAdvertisementForServer serverID | _ => cachedPong end in
  if sc_ShowRealLatency sc then embedLatencyInMOTDBytes advertisement latency else advertisement.

Record bannedIPInfo := {
  bi_playerName : string;
  bi_reason : string;
  bi_bannedAt : gotime;
  bi_expiresAt : gotime;
}.

Definition banIP (now : gotime) (ip name reason : string) (bans : gmap string bannedIPInfo) : gmap string bannedIPInfo :=
  <[ip := {| bi_playerName := name; bi_reason := reason; bi_bannedAt := now; bi_expiresAt := now + IPBanDuration |}]> bans.

Definition isIPBanned (now : gotime) (ip : string) (bans : gmap string bannedIPInfo)
  : gmap string bannedIPInfo * (bool * string * string) :=
  match bans !! ip with
  | Some b =>
      if now <? bi_expiresAt b then (bans, (true, bi_playerName b, bi_reason b))
      else (delete ip bans, (false, "", ""))%string
  | None => (bans, (false, "", ""))%string
  end.

Definition cleanupExpiredBans (now : gotime) (bans : gmap string bannedIPInfo) : gmap string bannedIPInfo :=
  filter (fun kv => (bi_expiresAt kv.2 <? now) = false) bans.

(** [updateTimeouts]: a [time.Duration] of whole seconds wraps at 64 bits. *)
Definition client_inactive_timeout `{Unicode} (sc : ServerConfig) (override : Z) : Z :=
  let passthrough := equal_fold (GetProxyMode sc) "passthrough" in
  let timeout :=
    if passthrough && (0 <? override) then override
    else if 0 <? sc_IdleTimeout sc then i64 (sc_IdleTimeout sc * second)
    else if passthrough then PassthroughClientInactiveTimeout
    else DefaultClientInactiveTimeout in
  if timeout <? 30 * second then 30 * second else timeout.

(** * Facts *)

(** ** The trace *)

Definition sum_trace (f : effect -> Z) (tr : list effect) : Z := foldr (fun e n => f e + n) 0 tr.

Definition received_by (c : client_ptr) (e : effect) : Z :=
  match e with EReceived c' n => if decide (c' = c) then n else 0 | _ => 0 end.
Definition delivered_by (c : client_ptr) (e : effect) : Z :=
  match e with EDelivered c' n => if decide (c' = c) then n else 0 | _ => 0 end.
Definition credited_up_by (c : client_ptr) (e : effect) : Z :=
  match e with ECreditUp c' _ n => if decide (c' = c) then n else 0 | _ => 0 end.
Definition credited_down_by (c : client_ptr) (e : effect) : Z :=
  match e with ECreditDown c' _ n => if decide (c' = c) then n else 0 | _ => 0 end.

Definition closed_list (tr : list effect) : list client_ptr :=
  omap (fun e => match e with EClosed c => Some c | _ => None end) tr.

Lemma sum_trace_app f a b : sum_trace f (a ++ b) = sum_trace f a + sum_trace f b.
Proof. unfold sum_trace. induction a as [|x a IH]; cbn; lia. Qed.

Lemma sum_trace_zero f l : Forall (fun e => f e = 0) l -> sum_trace f l = 0.
Proof. unfold sum_trace. induction 1 as [|e l He _ IH]; cbn; lia. Qed.

Lemma elem_of_closed c tr : c ∈ closed_list tr <-> EClosed c ∈ tr.
Proof.
  unfold closed_list. rewrite list_elem_of_omap. split.
  - intros (e & He & Hc). destruct e; try done. by injection Hc as ->.
  - intros H. by exists (EClosed c).
Qed.

Lemma closed_list_app a b : closed_list (a ++ b) = closed_list a ++ closed_list b.
Proof. apply omap_app. Qed.

(** A counter of a client: what has been counted and credited, below the overflow. *)
Definition counter_ok (counted credited cnt syn : Z) : Prop :=
  0 <= counted /\ (counted < 2 ^ 63 -> cnt = counted /\ syn = credited /\ 0 <= credited <= counted).

Definition traffic_ok (c : client_ptr) (tr : list effect) (t : traffic) : Prop :=
  counter_ok (sum_trace (received_by c) tr) (sum_trace (credited_up_by c) tr) (bytesUp t) (bytesUpSynced t) /\
  counter_ok (sum_trace (delivered_by c) tr) (sum_trace (credited_down_by c) tr) (bytesDown t) (bytesDownSynced t).

(** ** The invariant *)

Record proxy_inv (p : RawUDPProxy) : Prop := {
  pi_table : forall key c, rp_clients p !! key = Some c -> exists ci, client p c = Some ci /\ rc_clientAddr ci = key;
  pi_open : forall key c, rp_clients p !! key = Some c -> EClosed c ∉ rp_trace p;
  pi_once : NoDup (closed_list (rp_trace p));
  pi_alloc : forall e c, e ∈ rp_trace p ->
    e = EClosed c \/ e = EKicked c \/ received_by c e <> 0 \/ delivered_by c e <> 0 \/
    credited_up_by c e <> 0 \/ credited_down_by c e <> 0 -> (c < length (rp_heap p))%nat;
  pi_accounted : forall c, (c < length (rp_heap p))%nat ->
    (exists key, rp_clients p !! key = Some c) \/ EClosed c ∈ rp_trace p;
  pi_traffic : forall c ci, client p c = Some ci -> traffic_ok c (rp_trace p) (rc_traffic ci);
  pi_kicked : forall c, EKicked c ∈ rp_trace p -> client_kicked c p = true;
  pi_silent : forall t1 t2 c d, rp_trace p = t1 ++ EKicked c :: t2 -> EForward c d ∉ t2;
}.

(** A change of a client that keeps its address and its counters and does not undo a kick. *)
Definition keeps (f : rawUDPClientInfo -> rawUDPClientInfo) : Prop :=
  forall ci, rc_clientAddr (f ci) = rc_clientAddr ci /\ rc_traffic (f ci) = rc_traffic ci /\
    (is_kicked ci = true -> is_kicked (f ci) = true).

Lemma client_on_client c f p c' :
  client (on_client c f p) c' = if decide (c' = c) then f <$> client p c' else client p c'.
Proof.
  unfold client, on_client. cbn. destruct (decide (c' = c)) as [->|]; [by rewrite list_lookup_alter_eq|].
  by rewrite list_lookup_alter_ne.
Qed.

Lemma client_kicked_on c f p c' :
  keeps f -> client_kicked c' p = true -> client_kicked c' (on_client c f p) = true.
Proof.
  intros Hf. unfold client_kicked. rewrite client_on_client. destruct (decide (c' = c)) as [->|]; [|done].
  destruct (client p c) as [ci|]; [|done]. cbn. apply (Hf ci).
Qed.

Lemma inv_on_client c f p : keeps f -> proxy_inv p -> proxy_inv (on_client c f p).
Proof.
  intros Hf [H1 H2 H3 H4 H5 H6 H7 H8].
  assert (length (rp_heap (on_client c f p)) = length (rp_heap p)) as Hlen by (cbn; apply length_alter).
  split; rewrite ?Hlen; try done.
  - intros key c' Hk. destruct (H1 key c' Hk) as (ci & Hc & Ha). rewrite client_on_client.
    destruct (decide (c' = c)); [|by eexists]. rewrite Hc. eexists; split; [done|]. by rewrite (proj1 (Hf ci)).
  - intros c' ci. rewrite client_on_client. destruct (decide (c' = c)) as [->|]; [|apply H6].
    destruct (client p c) as [x|] eqn:E; [|done]. cbn. intros [= <-]. rewrite (proj1 (proj2 (Hf x))). by apply H6.
  - intros c' Hk. apply client_kicked_on; [done|]. by apply H7.
Qed.

(** Effects with no bearing on the invariant. *)
Definition plain (e : effect) : Prop := match e with ESent _ _ => True | _ => False end.

Lemma trace_app_kick (tr l t1 t2 : list effect) c :
  tr ++ l = t1 ++ EKicked c :: t2 -> EKicked c ∉ l -> exists k, tr = t1 ++ EKicked c :: k /\ t2 = k ++ l.
Proof.
  intros E Hl. destruct (app_eq_inv tr l t1 (EKicked c :: t2) E) as [(k & -> & Hk)|(k & -> & Hk)].
  - destruct k as [|e k]; cbn in Hk; [exfalso; apply Hl; rewrite <- Hk; by left|]. injection Hk as -> ->. by exists k.
  - exfalso. apply Hl. rewrite Hk. set_solver.
Qed.

(** The trace grows by effects that change no count: the invariant asks only for the kicks. *)
Lemma inv_emit l p :
  (forall e c, e ∈ l -> received_by c e = 0 /\ delivered_by c e = 0 /\ credited_up_by c e = 0 /\
     credited_down_by c e = 0 /\ e <> EClosed c /\ e <> EKicked c) ->
  (forall c d, EForward c d ∈ l -> EKicked c ∉ rp_trace p) ->
  proxy_inv p -> proxy_inv (emit l p).
Proof.
  intros Hl Hf [H1 H2 H3 H4 H5 H6 H7 H8].
  assert (closed_list l = []) as Hcl.
  { destruct (closed_list l) as [|c k] eqn:E; [done|].
    assert (EClosed c ∈ l) as Hc by (apply elem_of_closed; rewrite E; by left). by destruct (Hl _ c Hc) as (_ & _ & _ & _ & ? & _). }
  split; cbn [emit rp_heap rp_clients rp_trace]; try done.
  - intros key c Hk [Hx|Hx]%elem_of_app; [by eapply H2|]. by destruct (Hl _ c Hx) as (_ & _ & _ & _ & ? & _).
  - by rewrite closed_list_app, Hcl, app_nil_r.
  - intros e c [He|He]%elem_of_app Hx; [by eapply H4|]. destruct (Hl e c He) as (? & ? & ? & ? & ? & ?). naive_solver.
  - intros c Hc. destruct (H5 c Hc); [by left|right]. set_solver.
  - intros c ci Hc. specialize (H6 c ci Hc). unfold traffic_ok in *. rewrite !sum_trace_app.
    rewrite !(sum_trace_zero _ l), !Z.add_0_r; [done|..]; apply Forall_forall; intros e He; by apply (Hl e c He).
  - intros c [Hk|Hk]%elem_of_app; [by apply H7|]. by destruct (Hl _ c Hk) as (_ & _ & _ & _ & _ & ?).
  - intros t1 t2 c d E. apply trace_app_kick in E as (k & Hk & ->).
    + intros [Hx|Hx]%elem_of_app; [by eapply H8|]. apply (Hf c d Hx). rewrite Hk. set_solver.
    + intros Hx. by destruct (Hl _ c Hx) as (_ & _ & _ & _ & _ & ?).
Qed.

Lemma inv_emit_plain l p : Forall plain l -> proxy_inv p -> proxy_inv (emit l p).
Proof.
  rewrite Forall_forall. intros Hl. apply inv_emit.
  - intros e c He. specialize (Hl e He). by destruct e.
  - intros c d He. by specialize (Hl _ He).
Qed.

(** The sessions and the replays are not part of it. *)
Lemma inv_sessions sm p : proxy_inv p -> proxy_inv (set_rsessions sm p).
Proof. intros []. by split. Qed.

Lemma inv_recent m p : proxy_inv p -> proxy_inv (set_recent m p).
Proof. intros []. by split. Qed.

Lemma inv_config sc p : proxy_inv p -> proxy_inv (set_rconfig sc p).
Proof. intros []. by split. Qed.

Lemma inv_via_session l f p : proxy_inv p -> proxy_inv (via_session l f p).
Proof. apply inv_sessions. Qed.

(** ** Counting and crediting *)

(** An effect that counts or credits bytes of the client [c]. *)
Definition counts_for (c : client_ptr) (e : effect) : Prop :=
  match e with
  | EReceived c' _ | EDelivered c' _ | ECreditUp c' _ _ | ECreditDown c' _ _ => c' = c
  | _ => False
  end.

Lemma counts_other c e c' : counts_for c e -> c' <> c ->
  received_by c' e = 0 /\ delivered_by c' e = 0 /\ credited_up_by c' e = 0 /\ credited_down_by c' e = 0.
Proof. intros He Hne. destruct e; cbn in *; try done; subst; by rewrite decide_False by done. Qed.

Lemma inv_count c h e p :
  (forall ci, rc_clientAddr (h ci) = rc_clientAddr ci /\ is_kicked (h ci) = is_kicked ci) ->
  counts_for c e -> is_Some (client p c) ->
  (forall ci, client p c = Some ci -> traffic_ok c (rp_trace p) (rc_traffic ci) ->
     traffic_ok c (rp_trace p ++ [e]) (rc_traffic (h ci))) ->
  proxy_inv p -> proxy_inv (emit [e] (on_client c h p)).
Proof.
  intros Hh He [ci0 Hc0] Ht [H1 H2 H3 H4 H5 H6 H7 H8].
  assert (length (rp_heap (on_client c h p)) = length (rp_heap p)) as Hlen by (cbn; apply length_alter).
  assert (closed_list [e] = []) as Hcl by by destruct e.
  assert (forall c', client_kicked c' (on_client c h p) = client_kicked c' p) as Hkk.
  { intros c'. unfold client_kicked. rewrite client_on_client. destruct (decide (c' = c)) as [->|]; [|done].
    rewrite Hc0. cbn. apply (Hh ci0). }
  split; cbn [emit rp_trace rp_clients]; try done.
  - intros key c' Hk. destruct (H1 key c' Hk) as (ci & Hc & Ha).
    change (client (emit _ ?q) c') with (client q c'). rewrite client_on_client.
    destruct (decide (c' = c)); [|by eexists]. rewrite Hc. eexists; split; [done|]. by rewrite (proj1 (Hh ci)).
  - intros key c' Hk [Hx|Hx]%elem_of_app; [by eapply H2|]. apply list_elem_of_singleton in Hx as <-. done.
  - by rewrite closed_list_app, Hcl, app_nil_r.
  - intros e' c' [He'|He']%elem_of_app Hx; cbn [emit rp_heap]; rewrite Hlen; [by eapply H4|].
    apply list_elem_of_singleton in He' as ->.
    assert (c' = c) as ->; [|by apply lookup_lt_Some in Hc0].
    destruct (decide (c' = c)); [done|]. destruct (counts_other c e c' He) as (? & ? & ? & ?); [done|].
    destruct e; cbn in He; try done; naive_solver.
  - intros c' Hc'. cbn [emit rp_heap] in Hc'. rewrite Hlen in Hc'. destruct (H5 c' Hc'); [by left|right]. set_solver.
  - intros c' ci. change (client (emit _ ?q) c') with (client q c'). rewrite client_on_client.
    destruct (decide (c' = c)) as [->|Hne].
    + rewrite Hc0. cbn. intros [= <-]. by apply Ht; [|apply H6].
    + intros Hc. destruct (counts_other c e c' He Hne) as (E1 & E2 & E3 & E4).
      specialize (H6 c' ci Hc). unfold traffic_ok in *. rewrite !sum_trace_app.
      cbn [sum_trace foldr]. by rewrite E1, E2, E3, E4, !Z.add_0_r.
  - intros c' [Hk|Hk]%elem_of_app; [|apply list_elem_of_singleton in Hk as <-; done].
    change (client_kicked c' (emit _ ?q)) with (client_kicked c' q). rewrite Hkk. by apply H7.
  - intros t1 t2 c' d E. apply trace_app_kick in E as (k & Hk & ->); [|intros <-%list_elem_of_singleton; done].
    intros [Hx|Hx]%elem_of_app; [by eapply H8|]. by apply list_elem_of_singleton in Hx as <-.
Qed.

Lemma sum_trace_snoc f tr e : sum_trace f (tr ++ [e]) = sum_trace f tr + f e.
Proof. rewrite sum_trace_app. unfold sum_trace at 2. cbn. lia. Qed.

(** The arithmetic of a counter: counting [n] bytes, and crediting what is missing. *)
Lemma counter_add counted credited cnt syn n :
  counter_ok counted credited cnt syn -> 0 <= n -> counter_ok (counted + n) credited (i64 (cnt + n)) syn.
Proof.
  intros [H0 H] Hn. split; [lia|]. intros Hb. destruct (H ltac:(lia)) as (-> & -> & ?).
  rewrite wrapS_small by lia. lia.
Qed.

Lemma counter_sync counted credited cnt syn :
  counter_ok counted credited cnt syn -> syn < cnt ->
  counter_ok counted (credited + i64 (cnt - syn)) cnt cnt.
Proof.
  intros [H0 H] Hlt. split; [done|]. intros Hb. destruct (H Hb) as (-> & -> & ?).
  rewrite wrapS_small by lia. lia.
Qed.

Ltac count_trace :=
  unfold traffic_ok in *; rewrite !sum_trace_snoc;
  cbn [received_by delivered_by credited_up_by credited_down_by];
  rewrite ?decide_True by done; rewrite ?Z.add_0_r.

Lemma inv_received c n t p :
  0 <= n -> is_Some (client p c) -> proxy_inv p ->
  proxy_inv (emit [EReceived c n]
    (on_client c (fun ci => set_traffic (add_up n (rc_traffic ci)) (set_lastSeen t ci)) p)).
Proof.
  intros Hn Hc. apply inv_count; [done|done|done|]. intros ci _ [Hu Hd]. count_trace.
  split; [by apply counter_add|done].
Qed.

Lemma inv_delivered c n t p :
  0 <= n -> is_Some (client p c) -> proxy_inv p ->
  proxy_inv (emit [EDelivered c n]
    (on_client c (fun ci => set_traffic (add_down n (rc_traffic ci)) (set_lastSeen t ci)) p)).
Proof.
  intros Hn Hc. apply inv_count; [done|done|done|]. intros ci _ [Hu Hd]. count_trace.
  split; [done|by apply counter_add].
Qed.

Lemma client_via_session l f p c : client (via_session l f p) c = client p c.
Proof. done. Qed.

Lemma inv_sync_up c l p : proxy_inv p -> proxy_inv (syncBytesUpToSession c l p).
Proof.
  intros Hp. unfold syncBytesUpToSession. destruct (client p c) as [ci|] eqn:Hc; [|done].
  destruct (Z.ltb_spec (bytesUpSynced (rc_traffic ci)) (bytesUp (rc_traffic ci))) as [Hlt|]; [|done].
  match goal with |- proxy_inv (emit ?e (via_session ?l ?f (on_client ?c ?h ?q))) =>
    change (proxy_inv (via_session l f (emit e (on_client c h q)))) end.
  apply inv_via_session. apply inv_count; [done|done|by eexists| |done].
  intros x Hx [Hu Hd]. rewrite Hc in Hx. injection Hx as <-. count_trace. split; [by apply counter_sync|done].
Qed.

Lemma inv_sync_down c l p : proxy_inv p -> proxy_inv (syncBytesDownToSession c l p).
Proof.
  intros Hp. unfold syncBytesDownToSession. destruct (client p c) as [ci|] eqn:Hc; [|done].
  destruct (Z.ltb_spec (bytesDownSynced (rc_traffic ci)) (bytesDown (rc_traffic ci))) as [Hlt|]; [|done].
  match goal with |- proxy_inv (emit ?e (via_session ?l ?f (on_client ?c ?h ?q))) =>
    change (proxy_inv (via_session l f (emit e (on_client c h q)))) end.
  apply inv_via_session. apply inv_count; [done|done|by eexists| |done].
  intros x Hx [Hu Hd]. rewrite Hc in Hx. injection Hx as <-. count_trace. split; [done|by apply counter_sync].
Qed.

Lemma inv_with_session c f p : (forall l p, proxy_inv p -> proxy_inv (f l p)) -> proxy_inv p -> proxy_inv (with_session c f p).
Proof. intros Hf Hp. unfold with_session. destruct (session_of c p); auto. Qed.

(** ** Kicking, forwarding, closing, creating *)

Lemma inv_kick c message p :
  is_Some (client p c) -> proxy_inv p ->
  proxy_inv (emit [EKicked c] (on_client c (fun ci => set_kick (mark_kicked message (rc_kick ci)) ci) p)).
Proof.
  intros [ci0 Hc0] Hp.
  apply (inv_on_client c (fun ci => set_kick (mark_kicked message (rc_kick ci)) ci)) in Hp as Hq; [|by intros ci].
  set (q := on_client c _ p) in *. assert (client_kicked c q = true) as Hk.
  { unfold client_kicked, q. rewrite client_on_client, decide_True, Hc0 by done. done. }
  assert ((c < length (rp_heap q))%nat) as Hlt.
  { unfold client_kicked, client in Hk. destruct (rp_heap q !! c) eqn:E; [|done]. by apply lookup_lt_Some in E. }
  destruct Hq as [H1 H2 H3 H4 H5 H6 H7 H8]. split; cbn [emit rp_trace rp_clients rp_heap]; try done.
  - intros key c' Hx [Hy|Hy]%elem_of_app; [by eapply H2|]. apply list_elem_of_singleton in Hy. done.
  - by rewrite closed_list_app, app_nil_r.
  - intros e c' [He|He]%elem_of_app Hx; [by eapply H4|]. apply list_elem_of_singleton in He as ->.
    cbn in Hx. naive_solver.
  - intros c' Hc'. destruct (H5 c' Hc'); [by left|right]. set_solver.
  - intros c' ci Hc. specialize (H6 c' ci Hc). by count_trace.
  - intros c' [Hx|Hx]%elem_of_app; [by apply H7|]. apply list_elem_of_singleton in Hx. by injection Hx as ->.
  - intros t1 t2 c' d E Hd. destruct t2 as [|e t2'] using rev_ind; [by apply not_elem_of_nil in Hd|]. clear IHt2'.
    change (EKicked c' :: t2' ++ [e]) with ((EKicked c' :: t2') ++ [e]) in E. rewrite app_assoc in E.
    apply app_inj_tail in E as [E <-]. apply elem_of_app in Hd as [Hd|Hd]; [by eapply H8|].
    apply list_elem_of_singleton in Hd. done.
Qed.

Lemma inv_forward c d p : client_kicked c p = false -> proxy_inv p -> proxy_inv (emit [EForward c d] p).
Proof.
  intros Hk Hp. apply inv_emit; [| |done].
  - intros e c' He. by apply list_elem_of_singleton in He as ->.
  - intros c' d' He Hx. apply list_elem_of_singleton in He. injection He as -> ->.
    apply (pi_kicked p Hp) in Hx. congruence.
Qed.

Lemma inv_close key c p :
  rp_clients p !! key = Some c -> proxy_inv p ->
  proxy_inv (emit [EClosed c] (set_clients (delete key (rp_clients p)) p)).
Proof.
  intros Hk [H1 H2 H3 H4 H5 H6 H7 H8].
  destruct (H1 key c Hk) as (ci0 & Hc0 & Ha0).
  assert (forall key', rp_clients p !! key' = Some c -> key' = key) as Hinj.
  { intros key' Hk'. destruct (H1 key' c Hk') as (ci & Hc & <-). congruence. }
  split; cbn [emit set_clients rp_trace rp_clients rp_heap]; try done.
  - intros key' c' Hx. apply lookup_delete_Some in Hx as [_ Hx]. by apply H1.
  - intros key' c' Hx. apply lookup_delete_Some in Hx as [Hne Hx]. intros [Hy|Hy]%elem_of_app; [by eapply H2|].
    apply list_elem_of_singleton in Hy. injection Hy as ->. by apply Hne, eq_sym, Hinj.
  - rewrite closed_list_app. apply NoDup_app. split; [done|]. split; [|repeat constructor; set_solver].
    intros x Hx Hy. apply list_elem_of_singleton in Hy as ->. apply elem_of_closed in Hx. by eapply H2.
  - intros e c' [He|He]%elem_of_app Hx; [by eapply H4|]. apply list_elem_of_singleton in He as ->.
    assert (c' = c) as -> by (cbn in Hx; naive_solver). by apply lookup_lt_Some in Hc0.
  - intros c' Hc'. destruct (H5 c' Hc') as [[key' Hx]|]; [|right; set_solver].
    destruct (decide (key' = key)) as [->|].
    + right. replace c' with c by congruence. set_solver.
    + left. exists key'. by rewrite lookup_delete_ne.
  - intros c' ci Hc. specialize (H6 c' ci Hc). by count_trace.
  - intros c' [Hx|Hx]%elem_of_app; [by apply H7|]. by apply list_elem_of_singleton in Hx.
  - intros t1 t2 c' d E. apply trace_app_kick in E as (k & Hx & ->); [|intros Hx; by apply list_elem_of_singleton in Hx].
    intros [Hy|Hy]%elem_of_app; [by eapply H8|]. by apply list_elem_of_singleton in Hy.
Qed.

Lemma inv_new_client key now p :
  rp_clients p !! key = None -> proxy_inv p ->
  proxy_inv (set_clients (<[key := length (rp_heap p)]> (rp_clients p))
    (set_rheap (rp_heap p ++ [new_client key now]) p)).
Proof.
  intros Hk [H1 H2 H3 H4 H5 H6 H7 H8]. set (n := length (rp_heap p)).
  assert (forall e, e ∈ rp_trace p -> e <> EClosed n /\ received_by n e = 0 /\ delivered_by n e = 0 /\
    credited_up_by n e = 0 /\ credited_down_by n e = 0) as Hn.
  { intros e He. pose proof (H4 e n He) as Hx. fold n in Hx.
    assert (forall x, (x <> 0 -> (n < n)%nat) -> x = 0) as Hz.
    { intros x Hx0. destruct (Z.eq_dec x 0) as [|Hne]; [done|]. specialize (Hx0 Hne). lia. }
    split; [intros ->; specialize (Hx (or_introl eq_refl)); lia|].
    repeat split; apply Hz; intros Hne; apply Hx; auto 7. }
  assert (forall c, (c < n)%nat -> client (set_clients (<[key := n]> (rp_clients p)) (set_rheap (rp_heap p ++ [new_client key now]) p)) c = client p c) as Hold.
  { intros c Hc. unfold client. cbn. by rewrite lookup_app_l. }
  assert (forall c ci, client p c = Some ci -> (c < n)%nat) as Hlt by (intros c ci Hc; by apply lookup_lt_Some in Hc).
  assert (client (set_clients (<[key := n]> (rp_clients p)) (set_rheap (rp_heap p ++ [new_client key now]) p)) n = Some (new_client key now)) as Hnew.
  { unfold client. cbn. by rewrite list_lookup_middle. }
  split; cbn [set_clients set_rheap rp_trace rp_clients rp_heap].
  - intros key' c Hx. apply lookup_insert_Some in Hx as [[<- <-]|[Hne Hx]]; [by eexists|].
    destruct (H1 key' c Hx) as (ci & Hc & Ha). exists ci. rewrite Hold by by eapply Hlt. done.
  - intros key' c Hx Hy. apply lookup_insert_Some in Hx as [[<- <-]|[Hne Hx]]; [by destruct (Hn _ Hy)|by eapply H2].
  - done.
  - intros e c He Hx. rewrite length_app. specialize (H4 e c He Hx). lia.
  - intros c Hc. rewrite length_app in Hc. cbn in Hc. destruct (decide (c = n)) as [->|].
    + left. exists key. apply lookup_insert_eq.
    + destruct (H5 c) as [[key' Hx]|]; [lia| |by right]. left. exists key'. rewrite lookup_insert_ne; [done|]. congruence.
  - intros c ci Hc. destruct (decide (c = n)) as [->|].
    + rewrite Hnew in Hc. injection Hc as <-. unfold traffic_ok.
      rewrite !sum_trace_zero by (apply Forall_forall; intros e He; by destruct (Hn e He) as (? & ? & ? & ? & ?)).
      by repeat split.
    + apply H6. rewrite <- Hold; [done|]. apply lookup_lt_Some in Hc. cbn in Hc. rewrite length_app in Hc. cbn in Hc. lia.
  - intros c Hx. specialize (H7 c Hx). unfold client_kicked in *. rewrite Hold; [done|].
    destruct (client p c) eqn:E; [by eapply Hlt|done].
  - done.
Qed.

(** ** Every operation keeps the invariant *)

Section steps.
Context `{Unicode}.
Variable serverID : string.
Variable W : packet_writers.

Lemma keeps_quiet (f : rawUDPClientInfo -> rawUDPClientInfo) :
  (forall ci, rc_clientAddr (f ci) = rc_clientAddr ci /\ rc_traffic (f ci) = rc_traffic ci /\ rc_kick (f ci) = rc_kick ci) ->
  keeps f.
Proof. intros Hf ci. destruct (Hf ci) as (? & ? & E). unfold is_kicked. rewrite E. auto. Qed.

Lemma Forall_plain_sent addr l : Forall plain (ESent addr <$> l).
Proof. apply Forall_fmap, Forall_forall. by intros. Qed.

Lemma inv_client_session now newID c p : proxy_inv p -> proxy_inv (client_session serverID now newID c p).1.
Proof.
  intros Hp. unfold client_session. destruct (client p c) as [ci|]; [|done].
  destruct (GetOrCreate _ _ _ _ _) as [sm [l b]]. by apply inv_sessions.
Qed.

Lemma inv_ensureSession now newID c p : proxy_inv p -> proxy_inv (ensureSession serverID now newID c p).
Proof.
  intros Hp. unfold ensureSession. destruct (client p c) as [ci|]; [|done]. destruct (rc_sessionCreated ci); [done|].
  pose proof (inv_client_session now newID c p Hp) as Hq. destruct (client_session _ _ _ _ _) as [q [l|]]; cbn in Hq;
    (apply inv_on_client; [by apply keeps_quiet|]); [by apply inv_via_session|done].
Qed.

Lemma inv_finalize now key c p :
  rp_clients p !! key = Some c -> proxy_inv p ->
  proxy_inv (finalizeClientRemoval now key c (set_clients (delete key (rp_clients p)) p)).
Proof.
  intros Hk Hp. unfold finalizeClientRemoval. change (client (set_clients _ p) c) with (client p c).
  destruct (client p c) as [ci|] eqn:Hc; [|by destruct (pi_table p Hp key c Hk) as (ci & ? & _); congruence].
  apply inv_sessions, inv_with_session; [intros l q Hq; by apply inv_sync_down, inv_sync_up|].
  apply inv_on_client; [by apply keeps_quiet|].
  pose proof (inv_close key c p Hk Hp) as Hq.
  destruct (is_kicked ci); [|done]. by apply (inv_recent _ _ Hq).
Qed.

Lemma inv_removeClient now key p : proxy_inv p -> proxy_inv (removeClient now key p).
Proof. intros Hp. unfold removeClient. destruct (rp_clients p !! key) eqn:E; [|done]. by apply inv_finalize. Qed.

Lemma inv_removeClientIfMatch now key c p : proxy_inv p -> proxy_inv (removeClientIfMatch now key c p).
Proof. intros Hp. unfold removeClientIfMatch. destruct (decide _); [|done]. by apply inv_finalize. Qed.

Lemma inv_inject_kick c message p : proxy_inv p -> proxy_inv (inject_kick W c message p).
Proof.
  intros Hp. unfold inject_kick. destruct (client p c) as [ci|]; [|done].
  destruct (kick_response _ _ _ _ _ _) as [st out].
  apply inv_emit_plain; [apply Forall_plain_sent|]. apply inv_on_client; [by apply keeps_quiet|done].
Qed.

Lemma inv_schedule c p : proxy_inv p -> proxy_inv (scheduleKickCleanup c p).
Proof. apply inv_on_client. by intros ci. Qed.

Lemma inv_sendDisconnect now c message p : proxy_inv p -> proxy_inv (sendDisconnectToClient W now c message p).
Proof.
  intros Hp. unfold sendDisconnectToClient. destruct (client p c) as [ci|] eqn:Hc; [|done].
  apply inv_inject_kick, inv_schedule, inv_recent, inv_kick; [by eexists|done].
Qed.

Lemma ack_datagram_plain addr d : Forall plain (ack_datagram addr d).
Proof. unfold ack_datagram. destruct d; [done|]. destruct (sendRakNetACKToClient _); by repeat constructor. Qed.

Lemma inv_replay now c d p : proxy_inv p -> proxy_inv (replayKickResponse W now c d p).
Proof.
  intros Hp. unfold replayKickResponse. destruct (client p c) as [ci|] eqn:Hc; [|done].
  destruct (negb _); [done|]. apply inv_inject_kick, inv_emit_plain; [apply ack_datagram_plain|].
  apply inv_on_client; [by intros x|done].
Qed.

Lemma inv_replayRecent now key r d p : proxy_inv p -> proxy_inv (replayRecentKick W now key r d p).
Proof.
  intros Hp. unfold replayRecentKick. destruct (negb _); [done|].
  destruct (kick_response _ _ _ _ _ _) as [st out]. apply inv_emit_plain; [|by apply inv_recent].
  apply Forall_app. split; [apply ack_datagram_plain|apply Forall_plain_sent].
Qed.

Lemma inv_getOrCreate w key d p : proxy_inv p -> proxy_inv (getOrCreateClient W w key d p).1.
Proof.
  intros Hp. unfold getOrCreateClient. destruct (rp_clients p !! key) eqn:Hk; [done|].
  assert (forall q, rp_clients q !! key = None -> proxy_inv q ->
    proxy_inv (if w_dial w then (set_clients (<[key := length (rp_heap q)]> (rp_clients q))
      (set_rheap (rp_heap q ++ [new_client key (w_now w)]) q), Some (length (rp_heap q), true)) else (q, None)).1) as Hcr.
  { intros q Hq Hi. destruct (w_dial w); [|done]. by apply inv_new_client. }
  destruct (rp_recentlyKicked p !! key) as [r|]; [|by apply Hcr].
  destruct (_ <? _); [by apply inv_replayRecent|]. apply Hcr; [done|by apply inv_recent].
Qed.

(** The client that is found or created is one of the heap. *)
Lemma getOrCreate_client w key d p c b :
  proxy_inv p -> (getOrCreateClient W w key d p).2 = Some (c, b) ->
  is_Some (client (getOrCreateClient W w key d p).1 c).
Proof.
  intros Hp. unfold getOrCreateClient. destruct (rp_clients p !! key) as [c0|] eqn:Hk.
  { intros [= <- <-]. destruct (pi_table p Hp key c0 Hk) as (ci & ? & _). by exists ci. }
  assert (forall q, (if w_dial w then (set_clients (<[key := length (rp_heap q)]> (rp_clients q))
      (set_rheap (rp_heap q ++ [new_client key (w_now w)]) q), Some (length (rp_heap q), true)) else (q, None)).2 = Some (c, b) ->
    is_Some (client (if w_dial w then (set_clients (<[key := length (rp_heap q)]> (rp_clients q))
      (set_rheap (rp_heap q ++ [new_client key (w_now w)]) q), Some (length (rp_heap q), true)) else (q, None)).1 c)) as Hcr.
  { intros q. destruct (w_dial w); [|done]. intros [= <- _]. unfold client. cbn.
    rewrite list_lookup_middle by done. by eexists. }
  destruct (rp_recentlyKicked p !! key) as [r|]; [|apply Hcr].
  destruct (_ <? _); [done|apply Hcr].
Qed.

Lemma inv_accept w c data p : is_Some (client p c) -> proxy_inv p -> proxy_inv (accept_datagram serverID w c data p).
Proof.
  intros Hc Hp. unfold accept_datagram.
  apply inv_with_session; [intros l q Hq; by apply inv_via_session, inv_sync_up|].
  assert (proxy_inv (emit [EReceived c (zlen data)]
    (on_client c (fun ci => set_traffic (add_up (zlen data) (rc_traffic ci)) (set_lastSeen (w_now w) ci)) p)))
    by by apply inv_received; [apply zlen_nonneg|..].
  destruct (is_reliable_frame data); [by apply inv_ensureSession|done].
Qed.

Lemma inv_ack_intercepted c data p : proxy_inv p -> proxy_inv (ack_intercepted c data p).
Proof.
  intros Hp. unfold ack_intercepted. destruct (client p c) as [ci|]; [|done].
  destruct (ackInterceptedClientDatagram _ _) as [s ack].
  apply inv_emit_plain; [destruct ack; by repeat constructor|]. apply inv_on_client; [by apply keeps_quiet|done].
Qed.

Lemma inv_login_session w c i p : proxy_inv p -> proxy_inv (login_session serverID w c i p).1.
Proof.
  intros Hp. unfold login_session. destruct (client p c) as [ci|]; [|done].
  pose proof (inv_client_session (w_now w) (w_newID w) c p Hp) as Hq.
  destruct (client_session _ _ _ _ _) as [q [l|]]; cbn in Hq |- *; [|done].
  do 2 apply inv_via_session. apply inv_on_client; [by apply keeps_quiet|].
  destruct (rc_sessionCreated ci); [done|by apply inv_via_session].
Qed.

Lemma inv_handle w data c p : proxy_inv p -> proxy_inv (handlePacketWithLoginCheck serverID W w data c p).1.
Proof.
  intros Hp. unfold handlePacketWithLoginCheck. destruct (client p c) as [ci|]; [|done].
  destruct (rc_loginParsed ci); [done|]. destruct (negb _); [done|].
  destruct (login_packet_of w data ci) as [s g].
  apply (inv_on_client c (set_client_splits s)) in Hp; [|by apply keeps_quiet]. set (q := on_client c _ p) in *.
  destruct g as [g|]; [|done]. destruct (_ || _); [done|]. destruct (String.eqb _ _); [done|].
  set (i := parseLoginPacket _ _). set (k := match g with [] => _ | _ => _ end).
  apply (inv_on_client c (set_login i k)) in Hp; [|by apply keeps_quiet]. set (q2 := on_client c _ q) in *.
  pose proof (inv_login_session w c i q2 Hp) as Hq. destruct (login_session _ _ _ _ _) as [q3 sess]; cbn in Hq.
  destruct (login_decision _ _ _ _ _); [done|]. apply inv_sendDisconnect, inv_ack_intercepted.
  destruct sess; [by apply inv_via_session|done].
Qed.

Lemma inv_forward_step w key c data p :
  client_kicked c p = false -> proxy_inv p -> proxy_inv (forward w key c data p).
Proof.
  intros Hk Hp. pose proof (inv_forward c data p Hk Hp) as Hq. unfold forward.
  destruct (w_write w); try done. by apply inv_removeClient.
Qed.

Lemma client_kicked_keep c f p c' : (forall ci, is_kicked (f ci) = is_kicked ci) ->
  client_kicked c' (on_client c f p) = client_kicked c' p.
Proof.
  intros Hf. unfold client_kicked. rewrite client_on_client. destruct (decide (c' = c)) as [->|]; [|done].
  destruct (client p c) as [ci|]; [|done]. apply Hf.
Qed.

(** Accepting a datagram does not kick. *)
Lemma kicked_accept w c data p c' : client_kicked c' (accept_datagram serverID w c data p) = client_kicked c' p.
Proof.
  unfold accept_datagram.
  assert (forall l q, client_kicked c' (via_session l (UpdateLastSeen (w_now w)) (syncBytesUpToSession c l q)) = client_kicked c' q) as Hs.
  { intros l q. change (client_kicked c' (via_session ?l ?f ?x)) with (client_kicked c' x).
    unfold syncBytesUpToSession. destruct (client q c); [|done]. destruct (_ <? _); [|done].
    change (client_kicked c' (emit ?e (via_session ?l ?f ?x))) with (client_kicked c' x). by apply client_kicked_keep. }
  assert (forall q, client_kicked c' (ensureSession serverID (w_now w) (w_newID w) c q) = client_kicked c' q) as He.
  { intros q. unfold ensureSession, client_session. destruct (client q c) as [ci|]; [|done].
    destruct (rc_sessionCreated ci); [done|]. destruct (GetOrCreate _ _ _ _ _) as [sm [l b]]. by rewrite client_kicked_keep. }
  unfold with_session. destruct (session_of c _) as [l|]; rewrite ?Hs; destruct (is_reliable_frame data); rewrite ?He;
    change (client_kicked c' (emit ?e ?x)) with (client_kicked c' x); by apply client_kicked_keep.
Qed.

Lemma inv_listen w key data p : proxy_inv p -> proxy_inv (listen_datagram serverID W w key data p).
Proof.
  intros Hp. unfold listen_datagram. destruct (match data with [] => _ | _ => _ end); [done|].
  destruct (decide _); [by apply inv_removeClient|].
  pose proof (inv_getOrCreate w key data p Hp) as Hq. pose proof (getOrCreate_client w key data p) as Hc.
  destruct (getOrCreateClient _ _ _ _ _) as [q [[c b]|]]; cbn [fst snd] in *; [|done].
  specialize (Hc c b Hp eq_refl).
  destruct (client_kicked c q) eqn:Hk; [by apply inv_replay|].
  pose proof (inv_accept w c data q Hc Hq) as Ha. pose proof (kicked_accept w c data q c) as Hk2. rewrite Hk in Hk2.
  set (q2 := accept_datagram _ _ _ _ _) in *.
  destruct (login_parsed c q2); [by apply inv_forward_step|].
  pose proof (inv_handle w data c q2 Ha) as Hh. set (q3 := (handlePacketWithLoginCheck _ _ _ _ _ _).1) in *.
  destruct (client_kicked c q3) eqn:Hk3; [done|]. apply inv_forward_step.
  - by rewrite client_kicked_keep.
  - apply inv_on_client; [by apply keeps_quiet|done].
Qed.

Lemma inv_exit now c p : proxy_inv p -> proxy_inv (forward_exit now c p).
Proof.
  intros Hp. unfold forward_exit. apply (inv_on_client c stop_forwarding) in Hp; [|by apply keeps_quiet].
  destruct (client _ c) as [ci|]; [|done]. destruct (is_kicked ci); [by apply inv_schedule|by apply inv_removeClientIfMatch].
Qed.

Lemma inv_deliver w c data p : proxy_inv p -> proxy_inv (deliver_answer w c data p).
Proof.
  intros Hp. unfold deliver_answer. destruct (client p c) as [ci|] eqn:Hc; [|done].
  destruct (is_kicked ci); [by apply inv_exit|].
  assert (forall q a d, proxy_inv q -> proxy_inv (emit [ESent a d] q)) as Hs
    by (intros q a d; apply inv_emit_plain; by repeat constructor).
  destruct (decide _); [by apply inv_exit, Hs|].
  pose proof (inv_delivered c (zlen data) (w_now w) p (zlen_nonneg data) ltac:(by eexists) Hp) as Hq.
  set (q := emit [EDelivered c _] _) in *. cbv zeta.
  set (q2 := match updateRakNetSendStateFromDatagram _ _ _ with Ret o => _ | _ => _ end).
  assert (proxy_inv q2) as Hq2.
  { subst q2. destruct (updateRakNetSendStateFromDatagram _ _ _); [|done|done]. apply inv_on_client; [by apply keeps_quiet|done]. }
  clearbody q2.
  assert (proxy_inv (with_session c (fun l p => via_session l (UpdateLastSeen (w_now w)) (syncBytesDownToSession c l p)) q2)) as Hq3
    by (apply inv_with_session; [intros l x Hx; by apply inv_via_session, inv_sync_down|done]).
  destruct (w_write w); try (by apply Hs). by apply inv_exit, Hs.
Qed.

Lemma inv_read_failed now t fatal c p : proxy_inv p -> proxy_inv (read_failed now t fatal c p).
Proof.
  intros Hp. unfold read_failed. destruct (client p c); [|done]. destruct (_ || _); [by apply inv_exit|done].
Qed.

Lemma inv_KickPlayer now order name reason p : proxy_inv p -> proxy_inv (KickPlayer W now order name reason p).1.
Proof.
  unfold KickPlayer. generalize 0. induction order as [|key order IH] using rev_ind; intros n Hp; [done|].
  rewrite fold_left_app. cbn [fold_left]. specialize (IH n Hp). destruct (fold_left _ _ _) as [q m]. cbn in IH.
  unfold kick_named. destruct (rp_clients q !! key) as [c|]; [|done]. destruct (client q c); [|done].
  destruct (_ && _); [by apply inv_sendDisconnect|done].
Qed.

Lemma inv_tick_client now newID t p key : proxy_inv p -> proxy_inv (tick_client serverID now newID t p key).
Proof.
  intros Hp. unfold tick_client. destruct (rp_clients p !! key) as [c|]; [|done]. destruct (client p c) as [ci|]; [|done].
  destruct (_ <? _); [by apply inv_removeClient|]. unfold refresh_session.
  match goal with |- context [on_client c ?f p] => apply (inv_on_client c f) in Hp; [|by apply keeps_quiet];
    set (q := on_client c f p) in * end.
  destruct (session_of c q); [by do 2 apply inv_via_session|]. destruct (_ && _); [|done].
  pose proof (inv_client_session now (newID key) c q Hp) as Hq. destruct (client_session _ _ _ _ _) as [x [l|]]; cbn in Hq; [|done].
  do 2 apply inv_via_session. apply inv_on_client; [by apply keeps_quiet|done].
Qed.

Lemma inv_tick now newID t order p : proxy_inv p -> proxy_inv (clients_tick serverID now newID t order p).
Proof.
  unfold clients_tick. revert p. induction order as [|key order IH]; intros p Hp; [done|]. cbn. by apply IH, inv_tick_client.
Qed.

Lemma inv_proxy_step p q : proxy_step serverID W p q -> proxy_inv p -> proxy_inv q.
Proof.
  intros [] Hp.
  - by apply inv_listen.
  - by apply inv_deliver.
  - by apply inv_read_failed.
  - by apply inv_removeClientIfMatch.
  - by apply inv_KickPlayer.
  - by apply inv_tick.
  - by apply inv_config.
  - by apply inv_sessions.
Qed.

Lemma inv_start sm sc : proxy_inv (start sm sc).
Proof.
  split; cbn; try done.
  - constructor.
  - intros e c He. by apply not_elem_of_nil in He.
  - lia.
  - intros c He. by apply not_elem_of_nil in He.
  - intros t1 t2 c d E. by destruct t1.
Qed.

Lemma inv_reachable sm sc p : rtc (proxy_step serverID W) (start sm sc) p -> proxy_inv p.
Proof.
  intros Hr. remember (start sm sc) as s eqn:Es. assert (proxy_inv s) as Hs by (subst; apply inv_start). clear Es.
  induction Hr as [|x y z Hxy _ IH]; [done|]. apply IH. by eapply inv_proxy_step.
Qed.



(** ** The traffic of a session *)

(** The credit of a removal, in one change of the session. *)
Definition credit (up down : Z) (s : Session) : Session :=
  let s := if 0 <? up then AddBytesUp up s else s in
  if 0 <? down then AddBytesDown down s else s.

Lemma via_ptr_comp l f g sm : via_ptr l g (via_ptr l f sm) = via_ptr l (fun s => g (f s)) sm.
Proof.
  unfold via_ptr, set_heap. cbn. f_equal. apply list_eq. intros i.
  destruct (decide (i = l)) as [->|]; [|by rewrite !list_lookup_alter_ne].
  rewrite !list_lookup_alter_eq. by destruct (heap sm !! l).
Qed.

Lemma via_ptr_id l sm : via_ptr l (fun s => s) sm = sm.
Proof.
  unfold via_ptr, set_heap. destruct sm as [h s i j o e]. cbn. f_equal. apply list_eq. intros i'.
  destruct (decide (i' = l)) as [->|]; [rewrite list_lookup_alter_eq|by rewrite list_lookup_alter_ne].
  by destruct (h !! l).
Qed.

(** What the two synchronisations of a removal do. *)
Lemma sync_both c l p ci up down :
  client p c = Some ci ->
  up = bytesUp (rc_traffic ci) - bytesUpSynced (rc_traffic ci) ->
  down = bytesDown (rc_traffic ci) - bytesDownSynced (rc_traffic ci) ->
  0 <= up < 2 ^ 63 -> 0 <= down < 2 ^ 63 ->
  let q := syncBytesDownToSession c l (syncBytesUpToSession c l p) in
  rp_trace q = rp_trace p ++ (if 0 <? up then [ECreditUp c l up] else [])
                 ++ (if 0 <? down then [ECreditDown c l down] else []) /\
  rp_sessions q = via_ptr l (credit up down) (rp_sessions p) /\
  rp_clients q = rp_clients p.
Proof.
  intros Hc Hu Hd Bu Bd. cbv zeta. unfold syncBytesUpToSession. rewrite Hc.
  replace (bytesUpSynced (rc_traffic ci) <? bytesUp (rc_traffic ci)) with (0 <? up) by (bool_cases; lia).
  set (q := if 0 <? up then _ else p).
  assert (exists x, client q c = Some x /\ bytesDown (rc_traffic x) = bytesDown (rc_traffic ci) /\
    bytesDownSynced (rc_traffic x) = bytesDownSynced (rc_traffic ci)) as (x & Hx & X1 & X2).
  { subst q. destruct (0 <? up); [|by eexists].
    change (client (emit _ (via_session _ _ ?y)) c) with (client y c). rewrite client_on_client, decide_True, Hc by done.
    by eexists. }
  assert (rp_trace q = rp_trace p ++ (if 0 <? up then [ECreditUp c l up] else []) /\
    rp_sessions q = via_ptr l (fun s => if 0 <? up then AddBytesUp up s else s) (rp_sessions p) /\
    rp_clients q = rp_clients p) as (Q1 & Q2 & Q3).
  { subst q. rewrite <- Hu, (wrapS_small 64 up) by lia. destruct (0 <? up); [done|].
    by rewrite app_nil_r, via_ptr_id. }
  unfold syncBytesDownToSession. rewrite Hx, X1, X2, <- Hd.
  replace (bytesDownSynced (rc_traffic ci) <? bytesDown (rc_traffic ci)) with (0 <? down) by (bool_cases; lia).
  rewrite (wrapS_small 64 down) by lia. unfold credit. destruct (0 <? down).
  - cbn [emit via_session set_rsessions on_client set_rheap rp_trace rp_sessions rp_clients].
    rewrite Q1, Q2, Q3, via_ptr_comp, <- app_assoc. done.
  - rewrite Q1, Q2, Q3, app_nil_r. done.
Qed.

(** C20: The counters of a client are the bytes of the datagrams accepted from it and delivered
    to it, below the overflow of 63 bits, and no byte is credited twice; when a client
    with a session is removed, the session is credited with exactly the bytes it has
    not been credited with yet, those from before it existed among them, then ended. *)
Theorem removal_credits_all (sm : SessionManager) (sc : ServerConfig) (p : RawUDPProxy)
    (now : gotime) (key : string) (c : client_ptr) (l : session_ptr) :
  rtc (proxy_step serverID W) (start sm sc) p ->
  rp_clients p !! key = Some c -> Get (rp_sessions p) key = Some l ->
  sum_trace (received_by c) (rp_trace p) < 2 ^ 63 -> sum_trace (delivered_by c) (rp_trace p) < 2 ^ 63 ->
  let up := sum_trace (received_by c) (rp_trace p) - sum_trace (credited_up_by c) (rp_trace p) in
  let down := sum_trace (delivered_by c) (rp_trace p) - sum_trace (credited_down_by c) (rp_trace p) in
  let q := removeClient now key p in
  0 <= up /\ 0 <= down /\
  rp_sessions q = (Remove (via_ptr l (credit up down) (rp_sessions p)) key).1 /\
  sum_trace (credited_up_by c) (rp_trace q) = sum_trace (received_by c) (rp_trace p) /\
  sum_trace (credited_down_by c) (rp_trace q) = sum_trace (delivered_by c) (rp_trace p).
Proof.
  intros Hr Hk Hl Bu Bd up down q. apply inv_reachable in Hr as Hp.
  destruct (pi_table p Hp key c Hk) as (ci & Hc & Ha).
  destruct (pi_traffic p Hp c ci Hc) as [[U0 U] [D0 D]]. specialize (U Bu). specialize (D Bd).
  destruct U as (U1 & U2 & U3), D as (D1 & D2 & D3). fold up down.
  split; [lia|]. split; [lia|].
  subst q. unfold removeClient. rewrite Hk. unfold finalizeClientRemoval.
  change (client (set_clients _ p) c) with (client p c). rewrite Hc. cbv zeta.
  match goal with |- context [with_session c _ ?y] => set (x := y) end.
  assert (exists ci', client x c = Some ci' /\ rc_traffic ci' = rc_traffic ci /\ rc_clientAddr ci' = key /\
    rp_sessions x = rp_sessions p /\ rp_trace x = rp_trace p ++ [EClosed c]) as (ci' & X1 & X2 & X3 & X4 & X5).
  { subst x. rewrite client_on_client, decide_True by done.
    change (client (emit _ ?y) c) with (client y c).
    destruct (is_kicked ci); (change (client _ c) with (client p c); rewrite Hc; eexists; done). }
  unfold with_session, session_of. rewrite X1, X3, X4, Hl.
  destruct (sync_both c l x ci' up down X1) as (T & S & _); [rewrite X2; lia|rewrite X2; lia|lia|lia|].
  cbn [set_rsessions rp_sessions rp_trace]. rewrite S, T, X4, X5, Ha. split; [done|].
  rewrite !sum_trace_app. cbn [sum_trace foldr credited_up_by credited_down_by]. split.
  - destruct (Z.ltb_spec 0 up), (0 <? down); cbn; rewrite ?decide_True by done; lia.
  - destruct (Z.ltb_spec 0 down), (0 <? up); cbn; rewrite ?decide_True by done; lia.
Qed.

(** ** The gate of the login *)

(** The datagrams of a client written to the game server, in order. *)
Definition forward_to (c : client_ptr) (e : effect) : option bytes :=
  match e with EForward c' d => if decide (c' = c) then Some d else None | _ => None end.

Definition forwards (c : client_ptr) (p : RawUDPProxy) : list bytes := omap (forward_to c) (rp_trace p).

Lemma forwards_emit c l p :
  Forall (fun e => match e with EForward _ _ => False | _ => True end) l -> forwards c (emit l p) = forwards c p.
Proof.
  intros Hl. unfold forwards. cbn. rewrite omap_app.
  assert (omap (forward_to c) l = []) as ->; [|by rewrite app_nil_r]. induction Hl as [|e l He _ IH]; [done|].
  destruct e; cbn; try done; by rewrite IH.
Qed.

Lemma forwards_emit_plain c l p : Forall plain l -> forwards c (emit l p) = forwards c p.
Proof. intros Hl. apply forwards_emit. eapply Forall_impl; [exact Hl|]. by intros []. Qed.

Lemma forwards_sync_up c c' l p : forwards c (syncBytesUpToSession c' l p) = forwards c p.
Proof.
  unfold syncBytesUpToSession. destruct (client p c'); [|done]. destruct (_ <? _); [|done].
  rewrite forwards_emit by by repeat constructor. done.
Qed.

Lemma forwards_sync_down c c' l p : forwards c (syncBytesDownToSession c' l p) = forwards c p.
Proof.
  unfold syncBytesDownToSession. destruct (client p c'); [|done]. destruct (_ <? _); [|done].
  rewrite forwards_emit by by repeat constructor. done.
Qed.

Lemma forwards_session now newID c c' p : forwards c (client_session serverID now newID c' p).1 = forwards c p.
Proof. unfold client_session. destruct (client p c'); [|done]. by destruct (GetOrCreate _ _ _ _ _) as [? [? ?]]. Qed.

Lemma forwards_remove now key c p : forwards c (removeClient now key p) = forwards c p.
Proof.
  unfold removeClient. destruct (rp_clients p !! key) as [c'|]; [|done]. unfold finalizeClientRemoval.
  destruct (client _ c') as [ci|]; [|done].
  change (forwards c (set_rsessions ?s ?x)) with (forwards c x).
  unfold with_session. destruct (session_of c' _); rewrite ?forwards_sync_down, ?forwards_sync_up;
    change (forwards c (on_client ?a ?f ?x)) with (forwards c x);
    rewrite forwards_emit by (by repeat constructor); by destruct (is_kicked ci).
Qed.

Lemma forwards_sendDisconnect now c c' m p : forwards c (sendDisconnectToClient W now c' m p) = forwards c p.
Proof.
  unfold sendDisconnectToClient. destruct (client p c') as [ci|]; [|done]. unfold inject_kick.
  assert (forwards c (emit [EKicked c'] p) = forwards c p) as E by (apply forwards_emit; by repeat constructor).
  destruct (client _ c'); [|exact E].
  destruct (kick_response _ _ _ _ _ _) as [st out].
  rewrite forwards_emit_plain by apply Forall_plain_sent. exact E.
Qed.

(** The parts of a client the handling of a datagram before the login leaves alone. *)
Definition same_login (ci ci' : rawUDPClientInfo) : Prop :=
  rc_clientAddr ci' = rc_clientAddr ci /\ rc_loginParsed ci' = rc_loginParsed ci /\
  rc_splits ci' = rc_splits ci /\ rc_kick ci' = rc_kick ci.

Lemma ensureSession_client now newID c p ci :
  client p c = Some ci ->
  exists ci', client (ensureSession serverID now newID c p) c = Some ci' /\ same_login ci ci' /\
    rp_config (ensureSession serverID now newID c p) = rp_config p /\
    forwards c (ensureSession serverID now newID c p) = forwards c p.
Proof.
  intros Hc. unfold ensureSession, client_session. rewrite Hc. destruct (rc_sessionCreated ci); [by exists ci|].
  destruct (GetOrCreate _ _ _ _ _) as [sm [l b]]. rewrite client_on_client, decide_True by done.
  change (client (via_session ?a ?f (set_rsessions ?s ?x)) c) with (client x c). rewrite Hc.
  by eexists.
Qed.

Lemma accept_client w c data p ci :
  client p c = Some ci ->
  exists ci', client (accept_datagram serverID w c data p) c = Some ci' /\ same_login ci ci' /\
    rp_config (accept_datagram serverID w c data p) = rp_config p /\
    forwards c (accept_datagram serverID w c data p) = forwards c p.
Proof.
  intros Hc. unfold accept_datagram.
  set (q := emit [EReceived c (zlen data)] _).
  assert (exists x, client q c = Some x /\ same_login ci x) as (x & Hx & Sx).
  { subst q. change (client (emit ?e ?y) c) with (client y c). rewrite client_on_client, decide_True, Hc by done. by eexists. }
  assert (rp_config q = rp_config p /\ forwards c q = forwards c p) as [Cq Fq].
  { split; [done|]. assert (forwards c (emit [EReceived c (zlen data)] p) = forwards c p) as E
      by (apply forwards_emit; by repeat constructor). exact E. }
  clearbody q.
  assert (exists y, client (if is_reliable_frame data then ensureSession serverID (w_now w) (w_newID w) c q else q) c = Some y /\
    same_login ci y /\ rp_config (if is_reliable_frame data then ensureSession serverID (w_now w) (w_newID w) c q else q) = rp_config p /\
    forwards c (if is_reliable_frame data then ensureSession serverID (w_now w) (w_newID w) c q else q) = forwards c p)
    as (y & Hy & Sy & Cy & Fy).
  { destruct (is_reliable_frame data); [|by exists x; rewrite Cq, Fq].
    destruct (ensureSession_client (w_now w) (w_newID w) c q x Hx) as (y & ? & Sy & E1 & E2). exists y.
    rewrite E1, E2. split; [done|]. split; [|done]. unfold same_login in *. naive_solver congruence. }
  set (r := if is_reliable_frame data then _ else q) in *. clearbody r.
  unfold with_session. destruct (session_of c r) as [l|]; [|by exists y].
  change (client (via_session l ?f ?z) c) with (client z c).
  change (forwards c (via_session l ?f ?z)) with (forwards c z).
  change (rp_config (via_session l ?f ?z)) with (rp_config z).
  rewrite forwards_sync_up. unfold syncBytesUpToSession. rewrite Hy. destruct (_ <? _); [|by exists y].
  change (client (emit ?e (via_session l ?f ?z)) c) with (client z c). rewrite client_on_client, decide_True, Hy by done.
  by eexists.
Qed.

(** The verdict on a player whose login the datagram completes. *)
Lemma handle_login w data c p ci s g i :
  client p c = Some ci -> rc_loginParsed ci = false -> is_kicked ci = false -> is_reliable_frame data = true ->
  login_packet_of w data ci = (s, Some g) -> 3 <= zlen g -> is_game_packet g = true ->
  parseLoginPacket (w_codec w) g = i -> playerName i <> ""%string ->
  let q := (handlePacketWithLoginCheck serverID W w data c p).1 in
  forwards c q = forwards c p /\
  client_kicked c q =
    match login_decision (w_acl w) (w_verifier w) i (GetACLServerID (rp_config p)) (rc_clientAddr ci) with
    | Admit => false
    | Refuse _ _ _ => true
    end.
Proof.
  intros Hc Hl Hk Hr Hg H3 Hgp Hi Hn q. subst q. unfold handlePacketWithLoginCheck.
  rewrite Hc, Hl, Hr. cbn [negb]. rewrite Hg, (proj2 (Z.ltb_ge _ _)), Hgp by lia. cbn [negb orb].
  rewrite Hi, (proj2 (String.eqb_neq _ _)) by done.
  set (k := match g with [] => _ | _ => _ end).
  set (p2 := on_client c (set_login i k) (on_client c (set_client_splits s) p)).
  assert (client p2 c = Some (set_login i k (set_client_splits s ci))) as Hc2.
  { subst p2. by rewrite !client_on_client, !decide_True, Hc by done. }
  change (rp_config p2) with (rp_config p).
  assert (exists p3 l, login_session serverID w c i p2 = (p3, Some l) /\ forwards c p3 = forwards c p /\
    rp_config p3 = rp_config p /\ client p3 c = Some (set_sessionCreated (set_login i k (set_client_splits s ci))))
    as (p3 & l & -> & F3 & C3 & K3).
  { unfold login_session, client_session. rewrite Hc2. destruct (GetOrCreate _ _ _ _ _) as [sm [l b]].
    eexists _, l. split; [done|]. cbn [set_login set_client_splits rc_sessionCreated].
    split; [by destruct (rc_sessionCreated ci)|]. split; [by destruct (rc_sessionCreated ci)|].
    change (client (via_session l ?f (via_session l ?h ?z)) c) with (client z c).
    rewrite client_on_client, decide_True by done.
    assert (forall z, client (if rc_sessionCreated ci then set_rsessions sm p2 else via_session l z (set_rsessions sm p2)) c = client p2 c) as ->
      by (intros z; by destruct (rc_sessionCreated ci)). by rewrite Hc2. }
  rewrite C3.
  destruct (login_decision _ _ _ _ _) as [|status reason message]; cbn [fst].
  { split; [done|]. unfold client_kicked. by rewrite K3. }
  set (p4 := via_session l _ p3).
  assert (client (ack_intercepted c data p4) c <> None /\ forwards c (ack_intercepted c data p4) = forwards c p) as [K5 F5].
  { unfold ack_intercepted. change (client p4 c) with (client p3 c). rewrite K3.
    destruct (ackInterceptedClientDatagram _ _) as [s' a]. split.
    - change (client (emit ?e ?z) c) with (client z c). rewrite client_on_client, decide_True by done.
      change (client p4 c) with (client p3 c). by rewrite K3.
    - rewrite forwards_emit_plain by (destruct a; by repeat constructor). by rewrite <- F3. }
  rewrite forwards_sendDisconnect, F5. split; [done|]. clear -K5. unfold sendDisconnectToClient.
  set (x := ack_intercepted c data p4) in *. clearbody x. destruct (client x c) as [cx|] eqn:E; [|done].
  unfold inject_kick, scheduleKickCleanup. rewrite client_on_client, decide_True by done.
  change (client (set_recent ?m (emit ?e ?y)) c) with (client y c). rewrite client_on_client, decide_True, E by done.
  cbn [fmap option_fmap option_map]. destruct (kick_response _ _ _ _ _ _) as [st out].
  unfold client_kicked. change (client (emit ?e ?y) c) with (client y c).
  rewrite !client_on_client, !decide_True by done.
  change (client (set_recent ?m (emit ?e ?y)) c) with (client y c). by rewrite client_on_client, decide_True, E by done.
Qed.

Lemma reliable_head data : is_reliable_frame data = true ->
  match data with b :: _ => isRakNetUnconnectedPing b | [] => false end = false /\
  head data <> Some IDDisconnectNotification.
Proof.
  destruct data as [|b data]; [done|]. cbn. intros Hb. split; [|intros [= ->]; by vm_compute in Hb].
  unfold isRakNetUnconnectedPing. rewrite !bool_decide_false; [done|..]; intros ->; by vm_compute in Hb.
Qed.

(** C4: The datagram that completes a login is forwarded exactly when the access lists and the
    external authorisation admit the player; otherwise the client is kicked before a byte
    of the datagram goes on. *)
Theorem login_gate (w : world) (key : string) (data : bytes) (p : RawUDPProxy) (c : client_ptr)
    (ci : rawUDPClientInfo) (s : raw_splits) (g : bytes) (i : identity) :
  rp_clients p !! key = Some c -> client p c = Some ci -> rc_loginParsed ci = false -> is_kicked ci = false ->
  is_reliable_frame data = true -> login_packet_of w data ci = (s, Some g) -> 3 <= zlen g -> is_game_packet g = true ->
  parseLoginPacket (w_codec w) g = i -> playerName i <> ""%string ->
  let q := listen_datagram serverID W w key data p in
  match login_decision (w_acl w) (w_verifier w) i (GetACLServerID (rp_config p)) (rc_clientAddr ci) with
  | Admit => forwards c q = forwards c p ++ [data]
  | Refuse _ _ _ => forwards c q = forwards c p /\ client_kicked c q = true
  end.
Proof.
  intros Hk Hc Hl Hkk Hr Hg H3 Hgp Hi Hn q. subst q. unfold listen_datagram.
  destruct (reliable_head data Hr) as [-> Hh]. rewrite decide_False by done.
  unfold getOrCreateClient. rewrite Hk. cbv iota beta.
  assert (client_kicked c p = false) as -> by (unfold client_kicked; by rewrite Hc).
  destruct (accept_client w c data p ci Hc) as (ci' & Hc' & (S1 & S2 & S3 & S4) & Hcfg & Hf).
  set (q := accept_datagram serverID w c data p) in *. unfold login_parsed. rewrite Hc', S2, Hl.
  assert (login_packet_of w data ci' = (s, Some g)) as Hg' by (unfold login_packet_of in *; by rewrite S3).
  destruct (handle_login w data c q ci' s g i) as [F K]; try done.
  { by rewrite S2. } { unfold is_kicked in *. by rewrite S4. }
  rewrite Hcfg, S1 in K. set (r := (handlePacketWithLoginCheck _ _ _ _ _ _).1) in *. rewrite K.
  destruct (login_decision _ _ _ _ _); [|split; [by rewrite F|exact K]].
  unfold forward. assert (forwards c (emit [EForward c data] (on_client c forget_acks r)) = forwards c p ++ [data]) as E.
  { rewrite <- Hf, <- F. unfold forwards. cbn [emit rp_trace]. rewrite omap_app. cbn [omap list_omap forward_to].
    by rewrite decide_True. }
  destruct (w_write w); try done. by rewrite forwards_remove.
Qed.

(** What the gate does with a datagram that is not refused. *)
Lemma listen_forwards w key data p c ci :
  rp_clients p !! key = Some c -> client p c = Some ci -> is_kicked ci = false ->
  is_reliable_frame data = true ->
  (forall q ci', client q c = Some ci' -> same_login ci ci' ->
     let r := (handlePacketWithLoginCheck serverID W w data c q).1 in
     forwards c r = forwards c q /\ client_kicked c r = false) ->
  forwards c (listen_datagram serverID W w key data p) = forwards c p ++ [data].
Proof.
  intros Hk Hc Hkk Hr Hh. unfold listen_datagram.
  destruct (reliable_head data Hr) as [-> Hd]. rewrite decide_False by done.
  unfold getOrCreateClient. rewrite Hk. cbv iota beta.
  assert (client_kicked c p = false) as -> by (unfold client_kicked; by rewrite Hc).
  destruct (accept_client w c data p ci Hc) as (ci' & Hc' & Hs & _ & Hf).
  set (q := accept_datagram serverID w c data p) in *.
  assert (forall r, forwards c r = forwards c q -> forwards c (forward w key c data r) = forwards c p ++ [data]) as Hfw.
  { intros r Hfr. unfold forward. assert (forwards c (emit [EForward c data] r) = forwards c p ++ [data]) as E.
    { rewrite <- Hf, <- Hfr. unfold forwards. cbn [emit rp_trace]. rewrite omap_app. cbn [omap list_omap forward_to].
      by rewrite decide_True. }
    destruct (w_write w); try done. by rewrite forwards_remove. }
  destruct (login_parsed c q); [by apply Hfw|]. destruct (Hh q ci' Hc' Hs) as [F K]. rewrite K. by apply Hfw.
Qed.

(** C36: The check reads the first game packet of a datagram and no other: a datagram in which
    another game packet comes before the login is forwarded whole, whoever logs in
    and whatever the lists say. *)
Theorem login_behind_packet_forwarded (w : world) (key : string) (p : RawUDPProxy) (c : client_ptr)
    (ci : rawUDPClientInfo) (st : send_state) (g rest : bytes) :
  rp_clients p !! key = Some c -> client p c = Some ci -> is_kicked ci = false ->
  is_game_packet g = true -> zlen g <= MaxInjectedPacket -> playerName (parseLoginPacket (w_codec w) g) = ""%string ->
  let data := injected_header st g ++ g ++ rest in
  forwards c (listen_datagram serverID W w key data p) = forwards c p ++ [data].
Proof.
  intros Hk Hc Hkk Hg Hl Hn data. apply (listen_forwards w key data p c ci); [done..|].
  intros q ci' Hc' (S1 & S2 & S3 & S4). cbv zeta. unfold handlePacketWithLoginCheck. rewrite Hc'.
  assert (forall x, client_kicked c x = client_kicked c q -> client_kicked c x = false) as Hx.
  { intros x ->. unfold client_kicked. rewrite Hc'. unfold is_kicked in *. by rewrite S4. }
  destruct (rc_loginParsed ci'); [split; [done|by apply Hx]|].
  change (is_reliable_frame data) with true. cbn [negb].
  assert (login_packet_of w data ci' = (rc_splits ci', Some g)) as ->.
  { unfold login_packet_of, extractGamePacketWithSplit, data. by rewrite first_game_packet. }
  destruct (_ || _); [split; [done|apply Hx; by apply client_kicked_keep]|].
  rewrite Hn. cbn [String.eqb]. split; [done|apply Hx; by apply client_kicked_keep].
Qed.

(** ** The cooldown after a kick *)

(** A kicked client that is removed gets no new connection for three seconds: its datagrams
    are answered with the kick again, and nothing but answers to its address happens. *)
Theorem kick_cooldown (w : world) (key : string) (data : bytes) (p : RawUDPProxy) (c : client_ptr)
    (ci : rawUDPClientInfo) (t : gotime) :
  rp_clients p !! key = Some c -> client p c = Some ci -> is_kicked ci = true ->
  0 <= w_now w - t < rawUDPKickCooldown ->
  head data <> Some IDDisconnectNotification ->
  let q := removeClient t key p in
  let r := listen_datagram serverID W w key data q in
  rp_heap r = rp_heap q /\ rp_clients r = rp_clients q /\ rp_sessions r = rp_sessions q /\
  exists sent, rp_trace r = rp_trace q ++ sent /\ forall e, e ∈ sent -> exists d, e = ESent key d.
Proof.
  intros Hk Hc Hkk Ht Hd q r.
  assert (rp_clients q !! key = None /\ exists k, rp_recentlyKicked q !! key = Some k /\ kr_At k = t) as (Q1 & k & Q2 & Q3).
  { subst q. unfold removeClient. rewrite Hk. unfold finalizeClientRemoval.
    change (client (set_clients _ p) c) with (client p c). rewrite Hc, Hkk. cbv zeta.
    unfold with_session, syncBytesDownToSession, syncBytesUpToSession.
    repeat case_match; (split; [apply lookup_delete_eq|]); eexists; (split; [apply lookup_insert_eq|done]). }
  assert (forall q', q' = q \/ q' = replayRecentKick W (w_now w) key k data q ->
    rp_heap q' = rp_heap q /\ rp_clients q' = rp_clients q /\ rp_sessions q' = rp_sessions q /\
    exists sent, rp_trace q' = rp_trace q ++ sent /\ forall e, e ∈ sent -> exists d, e = ESent key d) as Hgoal.
  { assert (forall x, exists sent, rp_trace x = rp_trace x ++ sent /\ forall e, e ∈ sent -> exists d, e = ESent key d) as Hnil.
    { intros x. exists []. split; [by rewrite app_nil_r|]. intros e He. by apply not_elem_of_nil in He. }
    intros q' [->| ->]; [split; [done|]; split; [done|]; split; [done|apply Hnil]|].
    unfold replayRecentKick. destruct (negb _); [split; [done|]; split; [done|]; split; [done|apply Hnil]|].
    destruct (kick_response _ _ _ _ _ _) as [st out]. split; [done|]. split; [done|]. split; [done|].
    eexists. split; [done|]. intros e [He|He]%elem_of_app.
    - unfold ack_datagram in He. destruct data; [by apply not_elem_of_nil in He|].
      destruct (sendRakNetACKToClient _) as [a|]; [|by apply not_elem_of_nil in He].
      exists a. apply elem_of_cons in He as [->|He]; [done|]. by apply list_elem_of_singleton in He as ->.
    - apply list_elem_of_fmap in He as (d & -> & _). by exists d. }
  apply Hgoal. subst r. unfold listen_datagram.
  destruct (match data with [] => false | b :: _ => _ end); [by left|]. rewrite decide_False by done.
  unfold getOrCreateClient. rewrite Q1, Q2, Q3.
  rewrite (proj2 (Z.ltb_lt _ _)) by (unfold time_sub, rawUDPKickCooldown in *; cbn in *; lia).
  by right.
Qed.
End steps.

(** ** The access lists behind the gate *)

Section policy.
Context `{Unicode}.
Variable now : gotime.
Variable bl : string -> string -> answer string BlacklistEntry.
Variable wl : string -> string -> answer string WhitelistEntry.
Variable settings_Get : string -> answer string ACLSettings.

(** The access control manager as the proxy sees it. *)
Definition database_acl : acl_manager :=
  {| am_IsBlacklisted := IsBlacklisted now bl;
     am_CheckAccessWithError := CheckAccessWithError now bl wl settings_Get;
     am_GetSettings := fun id => found (settings_Get id) |}.

Lemma resolved_effective id :
  as_BlacklistEnabled (getResolvedACLSettings database_acl id) = as_BlacklistEnabled (effective_settings settings_Get id).
Proof.
  unfold getResolvedACLSettings, effective_settings. cbn.
  destruct (found (settings_Get id)) eqn:E; [done|]. destruct (String.eqb_spec id "") as [->|].
  - by rewrite E.
  - by destruct (found (settings_Get "")).
Qed.

Lemma banned_by name (o : option BlacklistEntry) :
  is_Some (if IsBlacklistedByEntry now name o then o else None) <-> IsBlacklistedByEntry now name o = true.
Proof.
  destruct o as [e|]; [|split; [intros [x Hx]; discriminate|discriminate]].
  destruct (IsBlacklistedByEntry now name (Some e)); split; done.
Qed.

Lemma IsBlacklisted_banned name id : is_Some (IsBlacklisted now bl name id) <-> banned now bl name id = true.
Proof.
  unfold IsBlacklisted, banned.
  pose proof (banned_by name (found (bl name ""))) as H0. pose proof (banned_by name (found (bl name id))) as H1.
  destruct (IsBlacklistedByEntry now name (found (bl name ""))) eqn:E0; cbn [orb]; [done|].
  destruct (String.eqb_spec id "") as [->|]; [|done]. rewrite E0. split; [intros [x Hx]; discriminate|discriminate].
Qed.

(** C31: The gate of the raw proxy, which asks the black list itself before it asks for the whole
    decision, lets a player in exactly when the policy of the lists does, as long
    as the database answers. *)
Theorem raw_acl_policy (name id : string) :
  no_db_error bl wl settings_Get name id ->
  acl_verdict (Some database_acl) name id = Admit <->
  as_BlacklistEnabled (effective_settings settings_Get id) && banned now bl name id = false /\
  (as_WhitelistEnabled (effective_settings settings_Get id) = true -> invited now wl name id = true).
Proof.
  intros Hn. rewrite <- (access_policy now bl wl settings_Get name id Hn).
  pose proof (access_decision now bl wl settings_Get name id Hn) as Hd.
  unfold acl_verdict, blacklist_verdict. cbn [database_acl am_IsBlacklisted am_CheckAccessWithError].
  pose proof (IsBlacklisted_banned name id) as Hb. rewrite resolved_effective.
  unfold CheckAccessWithError. destruct (CheckAccessFull _ _ _ _ _ _) as [d err]. destruct Hd as (-> & Ha & _). cbn [fst].
  assert ((if ad_Allowed d then Admit else whitelist_refusal (getResolvedACLSettings database_acl id) name (ad_Reason d)) = Admit
          <-> ad_Allowed d = true) as Hrest by (destruct (ad_Allowed d); split; done).
  destruct (IsBlacklisted now bl name id) as [e|]; [|done].
  destruct (as_BlacklistEnabled (effective_settings settings_Get id)); [|done].
  split; [done|]. intros Hx. apply Ha in Hx as [Hx _]. by rewrite (proj1 Hb) in Hx by by eexists.
Qed.
End policy.

(** ** The limiter of pings *)

(** Of two pings from one address within a fifth of a second the second is not answered. *)
Theorem ping_limited (now : gotime) (ip : string) (d1 d2 adv1 adv2 : bytes) (g1 g2 : Z) (limiter : gmap string gotime)
    (delay : Z) :
  0 <= delay < RawUDPUnconnectedPingMinIntervalPerIP ->
  let first := handleUnconnectedPing now ip d1 adv1 g1 limiter in
  first.2 <> None -> handleUnconnectedPing (now + delay) ip d2 adv2 g2 first.1 = (first.1, None).
Proof.
  intros Hd first. subst first. unfold handleUnconnectedPing at 1 3 4.
  destruct (match limiter !! ip with Some last => _ | None => false end); [done|]. cbn [fst snd]. intros _.
  unfold handleUnconnectedPing. rewrite lookup_insert_eq. replace (now + delay - now) with delay by lia.
  unfold RawUDPUnconnectedPingMinIntervalPerIP, millisecond in *. rewrite wrapS_small by lia.
  by rewrite (proj2 (Z.ltb_lt _ _)) by lia.
Qed.

(** The idle timeout of a client is never below thirty seconds. *)
Lemma client_inactive_timeout_min `{Unicode} sc override : 30 * second <= client_inactive_timeout sc override.
Proof. unfold client_inactive_timeout. bool_cases; lia. Qed.

Lemma silence_timeout_spec t : 30 * second <= t -> silence_timeout t = 30 * second.
Proof. intros Ht. unfold silence_timeout, rawUDPSilenceDisconnectTimeout. bool_cases; lia. Qed.

(** A banned address is banned until the ban expires. *)
Lemma banIP_expires now ip name reason bans t :
  (isIPBanned t ip (banIP now ip name reason bans)).2 =
  if t <? now + IPBanDuration then (true, name, reason) else (false, ""%string, ""%string).
Proof. unfold isIPBanned, banIP. rewrite lookup_insert_eq. cbn. by destruct (t <? _). Qed.

(** ** The tick *)

Section tick_theorem.
Context `{Unicode}.
Variable serverID : string.

Definition last_seen (c : client_ptr) (p : RawUDPProxy) : option gotime := rc_lastSeen <$> client p c.

(** Neither the table of the clients nor when they were last seen. *)
Definition same_table (p q : RawUDPProxy) : Prop :=
  rp_clients q = rp_clients p /\ forall c, last_seen c q = last_seen c p.

Lemma same_table_refl p : same_table p p.
Proof. done. Qed.

Lemma same_table_trans p q r : same_table p q -> same_table q r -> same_table p r.
Proof. intros [E1 H1] [E2 H2]. split; [congruence|]. intros c. by rewrite H2. Qed.

Lemma same_table_on c f p : (forall ci, rc_lastSeen (f ci) = rc_lastSeen ci) -> same_table p (on_client c f p).
Proof.
  intros Hf. split; [done|]. intros c'. unfold last_seen. rewrite client_on_client.
  destruct (decide (c' = c)) as [->|]; [|done]. destruct (client p c) as [ci|]; [|done]. cbn. by rewrite Hf.
Qed.

Lemma same_table_session now newID c p : same_table p (client_session serverID now newID c p).1.
Proof. unfold client_session. destruct (client p c); [|done]. by destruct (GetOrCreate _ _ _ _ _) as [? [? ?]]. Qed.

Lemma same_table_refresh now newID c ci p : same_table p (refresh_session serverID now newID c ci p).
Proof.
  unfold refresh_session. destruct (session_of c p); [done|]. destruct (_ && _); [|done].
  pose proof (same_table_session now newID c p) as Hs. destruct (client_session _ _ _ _ _) as [q [l|]]; cbn in Hs; [|done].
  eapply same_table_trans; [exact Hs|]. by apply (same_table_on c set_sessionCreated q).
Qed.

Lemma same_table_sync_up c l p : same_table p (syncBytesUpToSession c l p).
Proof.
  unfold syncBytesUpToSession. destruct (client p c); [|done]. destruct (_ <? _); [|done].
  by apply (same_table_on c (fun ci => set_traffic (synced_up (rc_traffic ci)) ci) p).
Qed.

Lemma same_table_sync_down c l p : same_table p (syncBytesDownToSession c l p).
Proof.
  unfold syncBytesDownToSession. destruct (client p c); [|done]. destruct (_ <? _); [|done].
  by apply (same_table_on c (fun ci => set_traffic (synced_down (rc_traffic ci)) ci) p).
Qed.

Lemma same_table_finalize now key c p : same_table p (finalizeClientRemoval now key c p).
Proof.
  unfold finalizeClientRemoval. destruct (client p c) as [ci|]; [|done].
  assert (forall x y, same_table x y -> forall s, same_table x (set_rsessions s y)) as Hs by done.
  apply Hs. unfold with_session. set (q := on_client c _ _).
  assert (same_table p q) as Hq.
  { eapply same_table_trans; [|by apply same_table_on]. by destruct (is_kicked ci). }
  clearbody q. destruct (session_of c q) as [l|]; [|done].
  eapply same_table_trans; [exact Hq|]. eapply same_table_trans; [apply same_table_sync_up|apply same_table_sync_down].
Qed.

(** Whether the tick at [now] drops the client of a key. *)
Definition silent (now timeout : Z) (c : client_ptr) (p : RawUDPProxy) : bool :=
  match last_seen c p with Some t => timeout <? time_sub now t | None => false end.

Lemma tick_client_table now newID timeout p key :
  rp_clients (tick_client serverID now newID timeout p key)
  = (if match rp_clients p !! key with Some c => silent now timeout c p | None => false end
     then delete key (rp_clients p) else rp_clients p) /\
  forall c, last_seen c (tick_client serverID now newID timeout p key) = last_seen c p.
Proof.
  unfold tick_client, silent, last_seen. destruct (rp_clients p !! key) as [c|] eqn:Hk; [|done].
  destruct (client p c) as [ci|] eqn:Hc; [|done]. cbn [fmap option_fmap option_map].
  destruct (timeout <? time_sub now (rc_lastSeen ci)).
  - unfold removeClient. rewrite Hk.
    destruct (same_table_finalize now key c (set_clients (delete key (rp_clients p)) p)) as [E L].
    split; [by rewrite E|]. intros c'. apply L.
  - match goal with |- context [refresh_session _ _ _ _ _ ?q] =>
      destruct (same_table_refresh now (newID key) c ci q) as [E L] end.
    split; [by rewrite E|]. intros c'. pose proof (L c') as L'. unfold last_seen in L'. rewrite L'.
    by apply (same_table_on c (fun ci => set_client_splits (set_splits (cleanupStaleSplitPackets now (splitPackets (rc_splits ci))) (rc_splits ci)) ci) p).
Qed.

(** The ten-second tick, in whatever order it visits the clients: a client that has been
    silent for more than thirty seconds leaves the table, whatever longer timeout is
    configured, and every other client stays. *)
Theorem tick_exact (now : gotime) (newID : string -> string) (timeout : Z) (order : list string) (p : RawUDPProxy)
    (key : string) :
  30 * second <= timeout -> order ≡ₚ (map_to_list (rp_clients p)).*1 ->
  rp_clients (clients_tick serverID now newID timeout order p) !! key
  = match rp_clients p !! key with
    | Some c => if silent now (30 * second) c p then None else Some c
    | None => None
    end.
Proof.
  intros Ht Ho. unfold clients_tick. rewrite (silence_timeout_spec timeout Ht).
  assert (forall l q, NoDup l ->
    rp_clients (fold_left (tick_client serverID now newID (30 * second)) l q) !! key
    = match rp_clients q !! key with
      | Some c => if bool_decide (key ∈ l) && silent now (30 * second) c q then None else Some c
      | None => None
      end) as Hl.
  { induction l as [|k l IH]; intros q Hn; cbn [fold_left].
    { rewrite bool_decide_false by apply not_elem_of_nil. by destruct (rp_clients q !! key). }
    apply NoDup_cons in Hn as [Hk Hn]. rewrite (IH _ Hn). destruct (tick_client_table now newID (30 * second) q k) as [E L].
    rewrite E. destruct (decide (k = key)) as [->|Hne].
    - rewrite bool_decide_false by done. rewrite bool_decide_true by by left. cbn [andb].
      destruct (rp_clients q !! key) as [c|] eqn:Ec; [|by rewrite Ec].
      destruct (silent now (30 * second) c q); [by rewrite lookup_delete_eq|by rewrite Ec].
    - assert ((if match rp_clients q !! k with Some c => silent now (30 * second) c q | None => false end
          then delete k (rp_clients q) else rp_clients q) !! key = rp_clients q !! key) as ->
        by (destruct (match rp_clients q !! k with Some c => _ | None => false end); [by rewrite lookup_delete_ne|done]).
      destruct (rp_clients q !! key) as [c|]; [|done].
      rewrite (bool_decide_ext (key ∈ k :: l) (key ∈ l)) by (rewrite elem_of_cons; naive_solver).
      unfold silent. by rewrite L. }
  rewrite Hl by (rewrite Ho; apply NoDup_fst_map_to_list).
  destruct (rp_clients p !! key) as [c|] eqn:Ec; [|done].
  rewrite bool_decide_true; [done|]. rewrite Ho. apply list_elem_of_fmap. exists (key, c).
  split; [done|]. by apply elem_of_map_to_list.
Qed.
End tick_theorem.

(** ** Witnesses *)

#[local] Existing Instance ascii_unicode.

Definition demo_writers : packet_writers :=
  {| pw_WriteVaruint32 := writeVaruint32; pw_WriteVarint32 := fun z => [z2b (2 * z)];
     pw_encode := fun _ b => Some (game_wrapper :: xff :: b); pw_IDDisconnect := 5;
     pw_play_status := [x02; x00; x00; x00; x07]; pw_ServerFull := 7 |}.

Definition demo_world (v : option (string -> string -> string -> string -> string -> bool * string)) : world :=
  {| w_now := 1000; w_newID := "id"; w_env := raw_demo_env; w_codec := demo_codec; w_acl := None; w_verifier := v;
     w_dial := true; w_write := WOk |}.

Definition refusing : option (string -> string -> string -> string -> string -> bool * string) :=
  Some (fun _ _ _ _ _ => (false, "no"%string)).

Definition zero_state : send_state := {| sendDatagramSeq := 0; sendMessageIndex := 0; sendOrderIndex := 0 |}.

Definition demo_datagram : bytes := injected_header zero_state demo_login ++ demo_login.

Definition demo_start : RawUDPProxy := start (initial 0 false) (example_server "a").

(** A client that sends a frame, then its login. *)
Definition demo_connected : RawUDPProxy :=
  listen_datagram "s" demo_writers (demo_world None) "c" [x84; x00; x00; x00] demo_start.

Definition demo_kicked : RawUDPProxy :=
  listen_datagram "s" demo_writers (demo_world refusing) "c" demo_datagram demo_connected.

Lemma demo_connected_reachable : rtc (proxy_step "s" demo_writers) demo_start demo_connected.
Proof. apply rtc_once, step_datagram. Qed.

Lemma demo_kicked_reachable : rtc (proxy_step "s" demo_writers) demo_start demo_kicked.
Proof. eapply rtc_r; [apply demo_connected_reachable|apply step_datagram]. Qed.



(** A client whose counters ran ahead of its session: the removal credits the rest. *)
Definition demo_ahead : RawUDPProxy :=
  listen_datagram "s" demo_writers (demo_world None) "c" [x84; x00; x00; x00]
    (listen_datagram "s" demo_writers (demo_world None) "c" [x05; x00] demo_start).

Lemma demo_ahead_reachable : rtc (proxy_step "s" demo_writers) demo_start demo_ahead.
Proof. eapply rtc_l; [apply step_datagram|]. apply rtc_once, step_datagram. Qed.

Lemma removal_credits_all_witness :
  sum_trace (credited_up_by 0) (rp_trace (removeClient 2000 "c" demo_ahead)) = 6 /\
  sum_trace (received_by 0) (rp_trace demo_ahead) = 6.
Proof.
  split; [|by vm_compute].
  destruct (removal_credits_all "s" demo_writers (initial 0 false) (example_server "a") demo_ahead 2000 "c" 0 0)
    as (_ & _ & _ & E & _); [apply demo_ahead_reachable|by vm_compute..|]. rewrite E. by vm_compute.
Defined.

Definition demo_ci : rawUDPClientInfo := default (new_client "c" 1000) (client demo_connected 0).

Lemma login_gate_witness :
  forwards 0 demo_kicked = forwards 0 demo_connected /\ client_kicked 0 demo_kicked = true.
Proof.
  pose proof (login_gate "s" demo_writers (demo_world refusing) "c" demo_datagram demo_connected 0 demo_ci
    no_splits demo_login demo_identity) as Hg.
  apply Hg; by vm_compute.
Defined.

(** A plain game packet before the login: nobody is asked. *)
Definition demo_smuggled : bytes := injected_header zero_state [xfe; xff; x00] ++ [xfe; xff; x00] ++ demo_datagram.

Lemma login_behind_packet_forwarded_witness :
  forwards 0 (listen_datagram "s" demo_writers (demo_world refusing) "c" demo_smuggled demo_connected)
  = forwards 0 demo_connected ++ [demo_smuggled].
Proof.
  apply (login_behind_packet_forwarded "s" demo_writers (demo_world refusing) "c" demo_connected 0 demo_ci
    zero_state [xfe; xff; x00] demo_datagram); by vm_compute.
Defined.

Lemma kick_cooldown_witness :
  rp_heap (listen_datagram "s" demo_writers (demo_world refusing) "c" demo_datagram (removeClient 500 "c" demo_kicked))
  = rp_heap (removeClient 500 "c" demo_kicked).
Proof.
  apply (kick_cooldown "s" demo_writers (demo_world refusing) "c" demo_datagram demo_kicked 0
    (default (new_client "c" 1000) (client demo_kicked 0)) 500); try by vm_compute.
Defined.

Lemma raw_acl_policy_witness :
  acl_verdict (Some (database_acl 1000 bans invites strict)) "Steve" "" <> Admit.
Proof.
  intros E. apply (raw_acl_policy 1000 bans invites strict "Steve" "") in E; [|apply example_no_error].
  destruct E as [E _]. by vm_compute in E.
Defined.

Definition demo_ping : bytes := IDUnconnectedPing :: be_bytes 8 7.

Lemma ping_limited_witness :
  (handleUnconnectedPing (1000 + 5) "1.2.3.4" [] [] 0
     (handleUnconnectedPing 1000 "1.2.3.4" demo_ping [] 0 ∅).1).2 = None.
Proof. rewrite (ping_limited 1000 "1.2.3.4" demo_ping [] [] [] 0 0 ∅ 5); [done|by vm_compute|done]. Defined.

Lemma tick_exact_witness :
  rp_clients (clients_tick "s" (1000 + 31 * second) (fun k => k) (5 * minute) ["c"%string] demo_connected) !! "c"%string = None /\
  rp_clients (clients_tick "s" (1000 + 29 * second) (fun k => k) (5 * minute) ["c"%string] demo_connected) !! "c"%string = Some 0%nat.
Proof.
  assert (forall t, rp_clients (clients_tick "s" t (fun k => k) (5 * minute) ["c"%string] demo_connected) !! "c"%string
    = if silent t (30 * second) 0 demo_connected then None else Some 0%nat) as Hx.
  { intros t. rewrite (tick_exact "s" t (fun k => k) (5 * minute) ["c"%string] demo_connected "c").
    - by replace (rp_clients demo_connected !! "c"%string) with (Some 0%nat) by by vm_compute.
    - by vm_compute.
    - by replace (map_to_list (rp_clients demo_connected)).*1 with ["c"%string] by by vm_compute. }
  rewrite !Hx. split; by vm_compute.
Defined.
